(* ===== verification/_CoqProject ===== *)
-Q . S2P
Prelude.v
GoRuntime.v
GoStrings.v
GoFloat.v
GoJson.v
GoStrconv.v
GoSha256.v
GoNet.v
GoRange.v
Domain.v
LiveDomain.v
Errors.v
GoTime.v
TelemetryStores.v
Registry.v
RegistrySpecs.v
Program.v
MemoryState.v
MemoryFleet.v
MemoryIntents.v
MemoryPublications.v
MemoryMissions.v
MemorySpatial.v
DurableStore.v
PgStatements.v
PostgresIntents.v
PostgresMissions.v
PostgresPublications.v
MemoryStore.v
MemoryInvariant.v
MemoryReachable.v
Scenario.v
IntentWrites.v
IntentSpecs.v
PublicationLeases.v
MissionPlans.v
FlightDeployments.v
ProgramLogic.v
PostgresTransactions.v
PostgresLocks.v
Influx.v
IntentService.v
IntentServiceCalls.v
IntentServiceRuns.v
Preflight.v
PreflightVerdict.v
Airspace.v
ScdMessages.v
Geometry.v
Deconfliction.v
DeconflictionRuns.v
Publishing.v
PublishingRuns.v
Coordinator.v
InterUSS.v
InterUSSPublisher.v
InterUSSRuns.v
InterUSSPublications.v
FleetCommands.v
FleetLive.v
FleetViews.v
FleetDashboards.v
FleetRuns.v
FleetOverlay.v
Conformance.v
AgentMessages.v
MissionParser.v
MissionImport.v
MissionDeployment.v
MissionDispatch.v
MissionOutcome.v
MissionTermination.v
RelayControl.v
HttpHandlers.v
HttpUss.v
Config.v
ConfigRules.v
Process.v
Seed.v
HttpRuns.v
