(* ===== verification/Prelude.v ===== *)
(** * A verification library for aero-arc-api

    The program keeps the operational record of a fleet of unmanned aircraft:
    operators, aircraft and batteries, operational intents with their volumes,
    flights, missions and their deployment, conformance and evidence.  This
    library models its Go packages and proves what makes them correct.

    ** Parts of the program, and where they are modelled

    The durable store (src/internal/store/durable) holds the record.  Its
    interface is the effect signature [Durable.storeE] (DurableStore.v,
    MemoryState.v), one constructor per method.  The in-memory implementation
    (store/durable/memory/durable.go, spatial.go) is the state record of
    MemoryState.v with one pure function per method, of type [Store → outcome A *
    Store]: MemoryFleet.v (operators, aircraft, batteries, profiles, limits,
    maintenance, authorizations, personnel), MemoryIntents.v (intents, volumes),
    MemoryPublications.v (the outbox of publications and peer notifications),
    MemoryMissions.v (flights, missions, deployments, checks, findings,
    conformance, evidence), MemorySpatial.v (candidate volumes, and whether a
    polygon covers a mission).  Every method holds
    the store's lock from its first read to its last write, so it is one atomic
    step; MemoryStore.v puts the methods together ([memory_store]) and defines
    the states that can be reached.  The implementation over PostgreSQL
    (store/durable/postgres) is, method by method, the program of the SQL
    statements it sends in the transactions it opens: PostgresIntents.v and
    PostgresMissions.v (store.go, spatial.go, mission_deployment.go, fleet.go),
    PostgresPublications.v (publication.go, and [postgres_method], which sends a
    call of the interface to its method or to the in-memory store that the type
    embeds).  PgStatements.v has the statements, one constructor each with the
    values of its parameters, indexed by what is scanned of the reply; the reply
    of the database is arbitrary.

    The services call the store and each other, and other clients act between
    two calls.  A service operation is a program over an effect signature
    (Program.v): store calls, readings of the clock, and calls of its own
    collaborators.  Program.v gives a program three readings (a sequential run; a
    run among other clients; the calls it can make) and ProgramLogic.v a fourth,
    a weakest precondition over all replies, whose postcondition sees the history
    of calls and replies.
    - IntentService.v: service/intent_service.go, with the deconfliction
      coordinator behind an interface; Preflight.v: service/preflight.
    - Airspace.v: the interfaces of airspaceprovider/provider.go, and
      airspaceprovider/local; InterUSS.v, InterUSSPublisher.v:
      airspaceprovider/interuss (discovery among the peers; publication of own
      intents), over the calls of the generated client, whose messages are
      seen through the accessors of ScdMessages.v.
    - Geometry.v, Deconfliction.v, Publishing.v:
      service/deconfliction (conflict.go, deconfliction.go, publication.go);
      Coordinator.v discharges the interface that IntentService.v uses.
    - MissionParser.v, MissionImport.v: service/mission_import.go;
      MissionDeployment.v: service/mission_deployment.go; RelayControl.v:
      relaycontrol, the implementation of the interface by which a mission
      leaves; AgentMessages.v: the messages to and from the agents.
    - FleetCommands.v, FleetLive.v, FleetViews.v, FleetDashboards.v:
      service/fleet_service.go; Conformance.v: service/conformance_service.go and
      conformance_history.go.
    - Registry.v: registry/memory.go and its messages; TelemetryStores.v:
      store/telemetry/memory and store/replay/memory; Influx.v:
      store/telemetry/influxdb, over the queries that the database answers.
    - HttpHandlers.v, HttpUss.v: httpapi.  A handler is a program over the
      calls of the services; what it reads of a request and what it answers are
      values.
    - Config.v: config, and of cmd/aero-arc-api/main.go what turns flags and
      environment into stores, providers and services; Process.v: the run of
      main.go, with the resources it opens and the deferred calls that close
      them, the credentials of relaycontrol/tls.go and httpapi/uss_auth.go,
      registry/client.go and grpc.go, and the loop of the publication worker;
      Seed.v: seed.
    Domain.v and LiveDomain.v have the structs of packages domain and readmodel
    field by field; Errors.v the error values with their wrapping.  GoRuntime.v,
    GoStrings.v, GoFloat.v, GoJson.v, GoStrconv.v, GoTime.v, GoNet.v,
    GoSha256.v and GoRange.v have the parts of Go and its standard library that the code relies on: times and
    durations with their arithmetic and texts, strings as bytes, IEEE doubles
    (arithmetic of SpecFloat), decoding of JSON, parsing and printing of numbers,
    addresses and prefixes of package netip, headers and status codes of package
    net/http, SHA-256, the order of map iteration
    and [sort.Slice] (both a parameter, [Runtime], with its contract).  What is
    neither the program's nor Go's (generated clients, the parser of URLs, the
    library of tokens, the database) is a class of operations, with a concrete
    instance wherever a theorem needs one to apply to something.

    ** What the theorems show

    - The stored data: IntentWrites.v (one active intent per aircraft, one
      accepted version per intent, a revision is consumed once),
      IntentSpecs.v, MemoryInvariant.v and MemoryReachable.v (well-formedness of
      every reachable state; a failed call changes nothing).
    - Leases and outbox: PublicationLeases.v.
    - The store over PostgreSQL, whatever the database answers:
      PostgresTransactions.v (transactions are begun and ended; a method that
      fails has written nothing, or possibly everything when a commit was not
      acknowledged; locks are asked for in one order; what is written was
      checked under the locks that protect it, or is fenced by a revision; a row
      is read back as the record that was written) and PostgresLocks.v (concurrent methods do not wait for
      each other for ever: every schedule of them ends with all of them done).
    - Flights, missions, deployments in the store: MissionPlans.v,
      FlightDeployments.v.
    - Services among other clients: ProgramLogic.v, IntentServiceCalls.v (the
      lifecycle invariants survive any number of concurrent service operations),
      IntentServiceRuns.v (an operation that succeeds took effect at one moment),
      PreflightVerdict.v (a blocking check stops the activation, also with a
      coordinator and among clients that leave the evidence alone), Airspace.v, DeconflictionRuns.v (a clear verdict
      separates the intent from every volume that was found), PublishingRuns.v
      (nothing is published that was not cleared; every outcome is recorded,
      under the revision that was claimed and as the only change),
      Coordinator.v (refinement of the coordinator's contract).
    - Peers: InterUSSRuns.v (exactly the valid intents of the peers are reported,
      and without leave for insecure peers no address is dialed that is not
      public), InterUSSPublications.v (what
      is sent is what the intent says; a published volume is read back as one
      that contains it), HttpUss.v, HttpRuns.v (whom the endpoints for peers
      believe).
    - Missions: MissionParser.v (what the parser accepts), MissionImport.v,
      MissionDispatch.v (when a mission leaves), MissionOutcome.v (a final
      outcome stays), MissionTermination.v (the loop that records it ends),
      RelayControl.v (where commands go, and what counts as delivered).
    - Live state: RegistrySpecs.v (projections only advance and are read back),
      TelemetryStores.v (the latest states agree with the samples), FleetRuns.v
      (what a ready aircraft rests on; the schedule of the goroutines does not
      show), FleetOverlay.v (no assessment and no summary is lost, and a live
      assessment is shown over the summary of its version),
      Conformance.v (the verdict on a sample).
    - Telemetry in InfluxDB: Influx.v (the same window of samples as in
      memory, column by column; malformed rows do not spoil others).
    - The API and the start of the process: HttpRuns.v (without the token no mission
      is imported, deployed or reconciled, and no deployment read; an activation goes through the preflight evaluation),
      ConfigRules.v (what a configuration that passes guarantees, which services
      it gives, and how durations are read), Process.v (what is opened is closed
      again on every path, in reverse order; a valid configuration is served,
      when nothing outside fails), Seed.v (what seeding leaves, also
      when it is repeated).
    - Scenario.v, Coordinator.v and MissionTermination.v run the model on
      concrete operations.

    ** Fuel and bounds

    Loops of the code are structural recursion wherever they run over data.
    Fuel is used by the JSON decoder (the length of the text; [json_decode_fuel]
    shows that more changes nothing), by SHA-256 (the number of blocks), by the
    batches of the conformance overlay (the length of the list; [batches_cover])
    and by the loop that records a deployment's result, whose fuel is what the
    termination theorem bounds: two rounds and one for every change that others
    make.  The batches of 20 publications and notifications, and of 250
    assignments, are those of the code.  Integers have the width of the code
    where they can overflow: revisions ([int64_succ]), shifts of durations.  The
    theorems about runs of any length whose meaning would be lost when a revision
    or a version wraps around are stated for stores in which they stay below
    2^63-1 ([no_wrap], [bounded_step] of IntentWrites.v, [publications_room] of
    PublicationLeases.v).

    ** Not modelled

    - store/durable/postgres: what the database does with a statement (the
      schema with its constraints, PostGIS, isolation) and what encoding/json
      does with a column ([Json], [StoredJson], a parameter with its law).  The
      locks in the theorem about concurrent methods are the advisory locks and
      those of SELECT ... FOR UPDATE, which the code asks for; those that the
      database takes for itself (of rows that are updated, of unique indexes and
      foreign keys) are not.  No theorem says that a run of this store is one of
      the store in memory: the services are proved against the interface where
      they can be, and against the store in memory where a theorem needs its
      contents.
    - The clients of other services: the generated client of the coordination
      service, the client of InfluxDB and of gRPC, the parser of URLs, of tokens
      and of keys and certificates; they are parameters, or calls with an
      arbitrary reply.
    - In cmd: the declarations of the flags, which the library for commands
      reads; the debug log, and the encoding of answers as JSON.
    - testsupport: containers for tests.
    - Cancellation of contexts, except in the registry's methods that look at it:
      a call that is cancelled shows as an error reply, which the programs here
      are proved for. *)

From stdpp Require Export base tactics option list gmap fin_maps sets strings pretty sorting.
From Stdlib Require Export ZArith Lia.
From stdpp Require Import options.

(** ** Scope of the development's notations *)

Declare Scope go_scope.
Delimit Scope go_scope with go.
#[global] Open Scope Z_scope.
#[global] Open Scope go_scope.

(** Go's [==] on strings, on 64-bit integers and its boolean negation. *)
Infix "=s=" := String.eqb (at level 70, no associativity) : go_scope.
Notation "a <>s b" := (negb (String.eqb a b)) (at level 70, no associativity) : go_scope.
Notation "a <>z b" := (negb (Z.eqb a b)) (at level 70, no associativity) : go_scope.

(** ** Record update

    [r <| f := v |>] is Go's [r.f = v] on a struct value.  A struct declares
    its [Eta] expansion once; the setter of each of its fields is found by
    type class resolution, which abstracts the projection in the expansion. *)

Class Eta (R : Type) := eta_expand : R → R.
Class Setter {R F : Type} (field : R → F) := with_field : F → R → R.

Ltac find_setter :=
  lazymatch goal with
  | |- @Setter ?R ?F ?field =>
      let inst := constr:(_ : Eta R) in
      let expansion := eval red in inst in
      let abstracted := eval pattern field in expansion in
      lazymatch abstracted with
      | ?body _ =>
          let setter := eval cbv beta in (λ (v : F) (r : R), body (λ _ : R, v) r) in
          exact setter
      end
  end.

#[export] Hint Extern 0 (Setter _) => find_setter : typeclass_instances.

Notation "r <| f := v |>" := (with_field (field := f) v r)
  (at level 1, left associativity, f at next level, v at level 200,
   format "r  <| f  :=  v |>") : go_scope.

(** ** Automation *)

Create HintDb go discriminated.

(** Splits every conditional and every match of the goal, or of a hypothesis. *)
Ltac branches := repeat (case_match; simplify_eq/=).

Ltac branches_in H :=
  repeat match type of H with
  | context [match ?x with _ => _ end] =>
      let E := fresh "Hbr" in destruct x eqn:E; simplify_eq/=
  end.

(** Turns the boolean tests of the source into propositions. *)
Ltac to_prop :=
  repeat match goal with
  | H : _ && _ = true |- _ => apply andb_true_iff in H as [? ?]
  | H : _ || _ = false |- _ => apply orb_false_iff in H as [? ?]
  | H : _ && _ = false |- _ => apply andb_false_iff in H
  | H : _ || _ = true |- _ => apply orb_true_iff in H
  | H : negb _ = true |- _ => apply negb_true_iff in H
  | H : negb _ = false |- _ => apply negb_false_iff in H
  | H : String.eqb _ _ = true |- _ => apply String.eqb_eq in H
  | H : String.eqb _ _ = false |- _ => apply String.eqb_neq in H
  | H : Z.eqb _ _ = true |- _ => apply Z.eqb_eq in H
  | H : Z.eqb _ _ = false |- _ => apply Z.eqb_neq in H
  | H : Z.ltb _ _ = true |- _ => apply Z.ltb_lt in H
  | H : Z.ltb _ _ = false |- _ => apply Z.ltb_ge in H
  | H : Z.leb _ _ = true |- _ => apply Z.leb_le in H
  | H : Z.leb _ _ = false |- _ => apply Z.leb_gt in H
  end.

(** Opens conjunctions and existentials of the context. *)
Ltac open :=
  repeat match goal with
  | H : _ ∧ _ |- _ => destruct H
  | H : ∃ x, _ |- _ => destruct H
  end.

(** ** Generic lemmas on lists and maps *)

Lemma existsb_elem {A} (P : A → bool) (l : list A) :
  existsb P l = true ↔ ∃ x, x ∈ l ∧ P x = true.
Proof. rewrite existsb_exists. by setoid_rewrite <- list_elem_of_In. Qed.

Lemma existsb_none {A} (P : A → bool) (l : list A) :
  existsb P l = false ↔ ∀ x, x ∈ l → P x = false.
Proof.
  rewrite <- not_true_iff_false, existsb_elem. split.
  - intros Hn x Hx. destruct (P x) eqn:E; [|done]. exfalso. eauto.
  - intros H [x [Hx HP]]. rewrite H in HP; done.
Qed.

#[global] Instance existsb_perm {A} (P : A → bool) : Proper ((≡ₚ) ==> (=)) (existsb P).
Proof.
  intros l l' Hl. apply eq_true_iff_eq. rewrite !existsb_elem. by setoid_rewrite Hl.
Qed.

Lemma forallb_elem {A} (P : A → bool) (l : list A) :
  forallb P l = true ↔ ∀ x, x ∈ l → P x = true.
Proof. rewrite forallb_forall. by setoid_rewrite <- list_elem_of_In. Qed.

Create Rewrite HintDb go_rw.
#[export] Hint Rewrite @existsb_elem @existsb_none @forallb_elem : go_rw.

(** [p == nil] *)
Definition is_nil {A} (p : option A) : bool := match p with None => true | Some _ => false end.

Lemma is_nil_true {A} (p : option A) : is_nil p = true ↔ p = None.
Proof. by destruct p. Qed.

Lemma concat_nil {A} (ls : list (list A)) : concat ls = [] ↔ ∀ l, l ∈ ls → l = [].
Proof.
  induction ls as [|l ls IH]; cbn; [split; [by intros _ ? ?%elem_of_nil|done]|].
  rewrite app_nil, IH. setoid_rewrite elem_of_cons. naive_solver.
Qed.

Lemma elem_of_map_list {A B} (f : A → B) l y : y ∈ map f l ↔ ∃ x, x ∈ l ∧ f x = y.
Proof.
  rewrite list_elem_of_In, in_map_iff. setoid_rewrite list_elem_of_In. naive_solver.
Qed.

(** [for _, x := range l { if P(x) { out = append(out, x) } }] *)
Definition select {A} (P : A → bool) (l : list A) : list A := List.filter P l.

Lemma elem_of_select {A} (P : A → bool) l x : x ∈ select P l ↔ x ∈ l ∧ P x = true.
Proof. unfold select. rewrite !list_elem_of_In. apply List.filter_In. Qed.

Lemma select_cons {A} (P : A → bool) x l :
  select P (x :: l) = if P x then x :: select P l else select P l.
Proof. done. Qed.

Lemma select_app {A} (P : A → bool) l k : select P (l ++ k) = select P l ++ select P k.
Proof. apply List.filter_app. Qed.

Lemma select_ext {A} (P Q : A → bool) l :
  (∀ x, x ∈ l → P x = Q x) → select P l = select Q l.
Proof.
  intros H. apply List.filter_ext_in. intros x Hx. apply H. by apply list_elem_of_In.
Qed.

Lemma select_all {A} (P : A → bool) l : (∀ x, x ∈ l → P x = true) → select P l = l.
Proof.
  induction l as [|x l IH]; intros H; [done|]. rewrite select_cons, H by (by left).
  f_equal. apply IH. intros y Hy. apply H. by right.
Qed.

Lemma select_nil {A} (P : A → bool) l : (∀ x, x ∈ l → P x = false) → select P l = [].
Proof.
  induction l as [|x l IH]; intros H; [done|]. rewrite select_cons, H by (by left).
  apply IH. intros y Hy. apply H. by right.
Qed.

Lemma select_sublist {A} (P : A → bool) l : select P l `sublist_of` l.
Proof.
  induction l as [|x l IH]; [done|]. rewrite select_cons.
  destruct (P x); [by apply sublist_skip|by apply sublist_cons].
Qed.

Lemma NoDup_fmap_select {A B} (f : A → B) (P : A → bool) l : NoDup (f <$> l) → NoDup (f <$> select P l).
Proof. intros Hl. eapply sublist_NoDup; [exact Hl|]. apply fmap_sublist, select_sublist. Qed.

Lemma NoDup_select {A} (P : A → bool) l : NoDup l → NoDup (select P l).
Proof.
  induction 1 as [|x l Hx Hl IH]; [constructor|]. rewrite select_cons.
  destruct (P x); [|done]. constructor; [|done]. rewrite elem_of_select. tauto.
Qed.

#[global] Instance select_perm {A} (P : A → bool) : Proper ((≡ₚ) ==> (≡ₚ)) (select P).
Proof.
  intros l l' Hl. induction Hl as [|x l l' Hl IH|x y l|l l' l'' _ IH1 _ IH2];
    rewrite ?select_cons; [done| | |by rewrite IH1].
  - destruct (P x); [by rewrite IH|done].
  - destruct (P x), (P y); try done. apply perm_swap.
Qed.

#[export] Hint Rewrite @elem_of_select : go_rw.

(** [for i, old := range l { if key(old) == key(x) { l[i] = x; return } };
    l = append(l, x)] *)
Fixpoint replace_or_append {A} (same : A → A → bool) (x : A) (l : list A) : list A :=
  match l with
  | [] => [x]
  | old :: l' => if same old x then x :: l' else old :: replace_or_append same x l'
  end.

Lemma StronglySorted_impl {A} (R R' : relation A) l :
  (∀ x y, R x y → R' x y) → StronglySorted R l → StronglySorted R' l.
Proof.
  intros HR. induction 1 as [|x l Hl IH Hx]; constructor; [done|].
  eapply Forall_impl; [done|]. auto.
Qed.

(** A property of all the values of a map, decided by enumeration. *)
Lemma map_check {V} (P : V → bool) (m : gmap string V) :
  forallb (λ e : string * V, P e.2) (map_to_list m) = true → ∀ k v, m !! k = Some v → P v = true.
Proof.
  rewrite forallb_elem. intros H k v Hk. by apply (H (k, v)), elem_of_map_to_list.
Qed.
