(* ===== verification/GoRuntime.v ===== *)
(** * The parts of Go the program relies on

    64-bit integers with wrap-around, instants, IEEE 754 doubles, the string
    functions and the error values of the standard library, and the two
    sources of nondeterminism of the runtime: the order in which [range]
    visits a map, and the order in which [sort.Slice] leaves equal elements. *)

From S2P Require Import Prelude.
From Stdlib Require Import Floats.SpecFloat.
From stdpp Require Import options.

(** ** Fixed-width integers

    A Go [int], [int64] or [uint64] is an integer of [Z] in the range of its
    width; arithmetic wraps around (an [int] has 64 bits on the platforms the
    program is built for). *)

Definition wrap_int64 (z : Z) : Z := (z + 2 ^ 63) mod 2 ^ 64 - 2 ^ 63.
Definition wrap_uint64 (z : Z) : Z := z mod 2 ^ 64.

(** The conversions [uint32(x)] and [int32(x)] of an integer. *)
Definition wrap_uint32 (z : Z) : Z := z mod 2 ^ 32.
Definition wrap_int32 (z : Z) : Z := (z + 2 ^ 31) mod 2 ^ 32 - 2 ^ 31.

(** [x++] and [x + 1] on an [int64] or [int], and on a [uint64]. *)
Definition int64_succ (z : Z) : Z := wrap_int64 (z + 1).
Definition uint64_succ (z : Z) : Z := wrap_uint64 (z + 1).

Definition in_int64 (z : Z) : Prop := - 2 ^ 63 ≤ z < 2 ^ 63.

Lemma wrap_int64_id z : in_int64 z → wrap_int64 z = z.
Proof. unfold in_int64, wrap_int64. intros. rewrite Z.mod_small; lia. Qed.

Lemma wrap_int64_range z : in_int64 (wrap_int64 z).
Proof. unfold in_int64, wrap_int64. pose proof (Z.mod_pos_bound (z + 2 ^ 63) (2 ^ 64)). lia. Qed.

Lemma int64_succ_small z : - 2 ^ 63 ≤ z < 2 ^ 63 - 1 → int64_succ z = z + 1.
Proof. intros. apply wrap_int64_id. unfold in_int64. lia. Qed.

Lemma int64_succ_max : int64_succ (2 ^ 63 - 1) = - 2 ^ 63.
Proof. reflexivity. Qed.

(** A revision is never its own successor, wrapped or not: what the
    compare-and-set of the stores relies on. *)
Lemma int64_succ_ne z : int64_succ z ≠ z.
Proof.
  intros H. assert (in_int64 z) as Hz by (rewrite <- H; apply wrap_int64_range).
  unfold in_int64 in Hz. destruct (decide (z = 2 ^ 63 - 1)) as [->|].
  - rewrite int64_succ_max in H. lia.
  - rewrite int64_succ_small in H; lia.
Qed.

Lemma int64_succ_inj z z' :
  in_int64 z → in_int64 z' → int64_succ z = int64_succ z' → z = z'.
Proof.
  unfold in_int64. intros Hz Hz' H.
  destruct (decide (z = 2 ^ 63 - 1)) as [->|], (decide (z' = 2 ^ 63 - 1)) as [->|]; try done;
    rewrite ?int64_succ_max, ?int64_succ_small in H; lia.
Qed.

Lemma uint64_succ_small z : 0 ≤ z < 2 ^ 64 - 1 → uint64_succ z = z + 1.
Proof. intros. unfold uint64_succ, wrap_uint64. rewrite Z.mod_small; lia. Qed.

#[export] Hint Resolve wrap_int64_range int64_succ_ne : go.

(** ** Instants

    A [time.Time] is the number of nanoseconds since Go's zero time
    (1 January of year 1, UTC).  The location and the monotonic reading play
    no part in the comparisons the program makes, so [UTC] is the identity. *)

Definition Time := Z.
Definition Duration := Z.

Definition zero_Time : Time := 0.
Definition IsZero (t : Time) : bool := t =? 0.
Definition Before (t u : Time) : bool := t <? u.
Definition After (t u : Time) : bool := u <? t.
Definition TimeEqual (t u : Time) : bool := t =? u.
Definition UTC (t : Time) : Time := t.
Definition TimeAdd (t : Time) (d : Duration) : Time := t + d.

Definition Second : Duration := 1000000000.
Definition Minute : Duration := 60 * Second.

(** Nanoseconds from the zero time to the Unix epoch. *)
Definition unix_epoch : Time := 62135596800 * Second.

Definition UnixNano (t : Time) : Z := wrap_int64 (t - unix_epoch).

(** The method [t.UnixMilli()], and the function [time.UnixMilli(ms)]. *)
Definition Millisecond : Duration := 1000000.
Definition UnixMilli (t : Time) : Z := wrap_int64 ((t - unix_epoch) / Millisecond).
Definition time_UnixMilli (ms : Z) : Time := unix_epoch + ms * Millisecond.

(** ** Doubles

    A [float64] is a binary64 datum of the IEEE 754 specification that comes
    with the kernel: 53 bits of precision, exponents below 1024. *)

Definition float64 := spec_float.

#[global] Instance spec_float_eq_dec : EqDecision spec_float.
Proof. solve_decision. Defined.

Definition float_of_Z (z : Z) : float64 := binary_normalize 53 1024 z 0 false.
Definition float_zero : float64 := S754_zero false.
Definition f_lt (x y : float64) : bool := SFltb x y.
Definition f_le (x y : float64) : bool := SFleb x y.

(** ** Strings

    A Go string is a sequence of bytes, compared byte by byte. *)

Definition string_lt (a b : string) : bool := String.ltb a b.

(** [strconv.Itoa], and [%d] of [fmt]. *)
Definition Itoa (z : Z) : string := pretty z.

Fixpoint string_has (c : Ascii.ascii) (s : string) : bool :=
  match s with
  | EmptyString => false
  | String a s' => Ascii.eqb a c || string_has c s'
  end.

Definition byte_of (c : Ascii.ascii) : N := Ascii.N_of_ascii c.

(** The white space of [strings.TrimSpace]: the ASCII one, and the UTF-8
    encodings of the other code points with the Unicode White_Space property
    (U+0085, U+00A0, U+1680, U+2000 to U+200A, U+2028, U+2029, U+202F, U+205F
    and U+3000). *)
Definition is_ascii_space (b : N) : bool := ((9 <=? b) && (b <=? 13) || (b =? 32))%N.
Definition is_space2 (a b : N) : bool := ((a =? 194) && ((b =? 133) || (b =? 160)))%N.
Definition is_space3 (a b c : N) : bool :=
  ((a =? 225) && (b =? 154) && (c =? 128)
   || (a =? 226) && (b =? 128)
      && ((128 <=? c) && (c <=? 138) || (c =? 168) || (c =? 169) || (c =? 175))
   || (a =? 226) && (b =? 129) && (c =? 159)
   || (a =? 227) && (b =? 128) && (c =? 128))%N.

Fixpoint trim_left (l : list Ascii.ascii) : list Ascii.ascii :=
  match l with
  | [] => []
  | a :: l1 =>
      if is_ascii_space (byte_of a) then trim_left l1 else
      match l1 with
      | [] => l
      | b :: l2 =>
          if is_space2 (byte_of a) (byte_of b) then trim_left l2 else
          match l2 with
          | [] => l
          | c :: l3 =>
              if is_space3 (byte_of a) (byte_of b) (byte_of c) then trim_left l3 else l
          end
      end
  end.

(** The same from the end, on the reversed bytes. *)
Fixpoint trim_right_rev (l : list Ascii.ascii) : list Ascii.ascii :=
  match l with
  | [] => []
  | c :: l1 =>
      if is_ascii_space (byte_of c) then trim_right_rev l1 else
      match l1 with
      | [] => l
      | b :: l2 =>
          if is_space2 (byte_of b) (byte_of c) then trim_right_rev l2 else
          match l2 with
          | [] => l
          | a :: l3 =>
              if is_space3 (byte_of a) (byte_of b) (byte_of c) then trim_right_rev l3 else l
          end
      end
  end.

Definition TrimSpace (s : string) : string :=
  String.string_of_list_ascii
    (rev (trim_right_rev (rev (trim_left (String.list_ascii_of_string s))))).

Example TrimSpace_ex : TrimSpace "  a b	" = "a b".
Proof. reflexivity. Qed.

(** *** The order on strings *)

Lemma string_lt_leb a b : string_lt a b = negb (String.leb b a).
Proof.
  unfold string_lt, String.ltb, String.leb. rewrite (String.compare_antisym a b).
  by destruct (String.compare b a).
Qed.

Lemma string_lt_irrefl a : string_lt a a = false.
Proof.
  rewrite string_lt_leb. pose proof (reflexivity (R := String.le) a) as H.
  unfold String.le in H. by apply Is_true_true in H as ->.
Qed.

Lemma string_lt_trans a b c : string_lt a b = true → string_lt b c = true → string_lt a c = true.
Proof.
  rewrite !string_lt_leb, !negb_true_iff. intros Hab Hbc.
  destruct (String.leb c a) eqn:E; [|done].
  assert (String.le b c) as Hle.
  { destruct (total String.le b c) as [|H]; [done|]. unfold String.le in H. by rewrite Hbc in H. }
  assert (String.le c a) by (unfold String.le; by rewrite E).
  assert (String.le b a) as H' by (by trans c). unfold String.le in H'. by rewrite Hab in H'.
Qed.

Lemma string_lt_total a b : string_lt a b = false → string_lt b a = false → a = b.
Proof.
  rewrite !string_lt_leb, !negb_false_iff. intros. by apply String.leb_antisym.
Qed.

(** [%q] of [fmt] on a string: quotes, backslashes and control characters are
    escaped, the bytes of printable characters are kept.  (Code points that
    are not printable, above U+007F, are kept too, where Go would write an
    escape; only the text of an error message depends on it.) *)
Definition hex_digit (n : N) : Ascii.ascii :=
  Ascii.ascii_of_N (if (n <? 10)%N then 48 + n else 87 + n).

Definition quote_byte (c : Ascii.ascii) : string :=
  let b := byte_of c in
  let escaped d := String (Ascii.ascii_of_N 92) (String d EmptyString) in
  if (b =? 34)%N || (b =? 92)%N then escaped c
  else if (b =? 7)%N then escaped (Ascii.ascii_of_N 97)
  else if (b =? 8)%N then escaped (Ascii.ascii_of_N 98)
  else if (b =? 12)%N then escaped (Ascii.ascii_of_N 102)
  else if (b =? 10)%N then escaped (Ascii.ascii_of_N 110)
  else if (b =? 13)%N then escaped (Ascii.ascii_of_N 114)
  else if (b =? 9)%N then escaped (Ascii.ascii_of_N 116)
  else if (b =? 11)%N then escaped (Ascii.ascii_of_N 118)
  else if (b <? 32)%N || (b =? 127)%N then
    escaped (Ascii.ascii_of_N 120)
      +:+ String (hex_digit (b / 16)) (String (hex_digit (b mod 16)) EmptyString)
  else String c EmptyString.

Definition double_quote : string := String (Ascii.ascii_of_N 34) EmptyString.

Fixpoint quote_bytes (s : string) : string :=
  match s with
  | EmptyString => EmptyString
  | String c s' => quote_byte c +:+ quote_bytes s'
  end.

Definition quote (s : string) : string := double_quote +:+ quote_bytes s +:+ double_quote.
