(* ===== verification/GoStrings.v ===== *)
(** * Strings as keys

    Lemmas on concatenation, on decimal numerals inside a key, and on keys
    that join fields with a separator. *)

From S2P Require Import Prelude GoRuntime.
From stdpp Require Import options.

Lemma string_app_nil t : "" +:+ t = t.
Proof. done. Qed.

Lemma string_app_cons c s t : String c s +:+ t = String c (s +:+ t).
Proof. done. Qed.

Lemma string_app_assoc s1 s2 s3 : s1 +:+ s2 +:+ s3 = (s1 +:+ s2) +:+ s3.
Proof. induction s1 as [|c s1 IH]; [done|]. rewrite !string_app_cons. by rewrite IH. Qed.

Lemma string_has_app c s t : string_has c (s +:+ t) = string_has c s || string_has c t.
Proof.
  induction s as [|a s IH]; [done|]. rewrite string_app_cons. cbn. by rewrite IH, orb_assoc.
Qed.

Lemma list_ascii_app s t :
  String.list_ascii_of_string (s +:+ t)
  = String.list_ascii_of_string s ++ String.list_ascii_of_string t.
Proof. induction s as [|c s IH]; [done|]. rewrite string_app_cons. cbn. by rewrite IH. Qed.

(** Strings that end in as many bytes end in the same bytes. *)
Lemma string_app_inj_2 s1 s2 t1 t2 :
  String.length t1 = String.length t2 → s1 +:+ t1 = s2 +:+ t2 → s1 = s2 ∧ t1 = t2.
Proof.
  intros Hlen Heq. apply (f_equal String.list_ascii_of_string) in Heq. rewrite !list_ascii_app in Heq.
  assert (∀ s, length (String.list_ascii_of_string s) = String.length s) as Hl
    by (intros s; induction s; cbn; congruence).
  apply app_inj_2 in Heq as [H1 H2]; [|by rewrite !Hl].
  apply (f_equal String.string_of_list_ascii) in H1, H2.
  by rewrite !String.string_of_list_ascii_of_string in H1, H2.
Qed.

(** ** Separators

    A character that is no digit and no sign does not occur in a numeral. *)
Definition separator (c : Ascii.ascii) : Prop :=
  Ascii.eqb (Ascii.ascii_of_N 45) c = false ∧ ∀ x, Ascii.eqb (pretty_N_char x) c = false.

Definition colon : Ascii.ascii := Ascii.ascii_of_N 58.
Definition nul : Ascii.ascii := Ascii.ascii_of_N 0.

Lemma separator_colon : separator colon.
Proof. split; [done|]. intros x. unfold pretty_N_char. by repeat case_match. Qed.

Lemma separator_nul : separator nul.
Proof. split; [done|]. intros x. unfold pretty_N_char. by repeat case_match. Qed.

Lemma Itoa_separator c z : separator c → string_has c (Itoa z) = false.
Proof.
  intros [Hsign Hdigit].
  assert (∀ x s, string_has c s = false → string_has c (pretty_N_go x s) = false) as Hgo.
  { intros x. induction (N.lt_wf_0 x) as [x _ IH]; intros s Hs.
    destruct (decide (x = 0%N)) as [->|Hx]; [by rewrite pretty_N_go_0|].
    rewrite pretty_N_go_step by lia. apply IH.
    - apply N.div_lt; lia.
    - change (Ascii.eqb (pretty_N_char (x `mod` 10)) c || string_has c s = false).
      by rewrite Hdigit, Hs. }
  assert (∀ p, string_has c (pretty (N.pos p)) = false) as Hpos.
  { intros p. unfold pretty, pretty_N. case_decide; [done|]. by apply Hgo. }
  unfold Itoa, pretty, pretty_Z. destruct z as [|p|p].
  - change (Ascii.eqb (pretty_N_char 0) c || false = false). by rewrite Hdigit.
  - apply Hpos.
  - rewrite string_has_app. change (Ascii.eqb (Ascii.ascii_of_N 45) c || false || string_has c (pretty (N.pos p)) = false).
    by rewrite Hsign, Hpos.
Qed.

(** Splitting at the last separator is unambiguous. *)
Lemma split_last c s1 s2 t1 t2 :
  string_has c t1 = false → string_has c t2 = false →
  s1 +:+ String c t1 = s2 +:+ String c t2 → s1 = s2 ∧ t1 = t2.
Proof.
  intros H1 H2. revert s2.
  induction s1 as [|a s1 IH]; intros [|b s2];
    repeat rewrite string_app_cons; repeat rewrite string_app_nil.
  - intros [= ->]. done.
  - intros [= <- H]. subst t1. rewrite string_has_app in H1. cbn in H1.
    by rewrite Ascii.eqb_refl, orb_true_r in H1.
  - intros [= -> H]. subst t2. rewrite string_has_app in H2. cbn in H2.
    by rewrite Ascii.eqb_refl, orb_true_r in H2.
  - intros [= -> H]. destruct (IH _ H) as [-> ->]. done.
Qed.

Lemma Itoa_inj z z' : Itoa z = Itoa z' → z = z'.
Proof. unfold Itoa. apply pretty_Z_inj. Qed.

(** An identity and a numeral joined by a separator can be told apart. *)
Lemma joined_inj c id v id' v' :
  separator c → id +:+ String c (Itoa v) = id' +:+ String c (Itoa v') → id = id' ∧ v = v'.
Proof.
  intros Hc [-> ?%Itoa_inj]%split_last; auto using Itoa_separator.
Qed.

(** ** Letters without case

    Folding a text for the comparison with an ASCII constant: letters without
    case, the long s as s and the Kelvin sign as k; no other character folds to
    an ASCII letter. *)
Fixpoint fold_bytes (s : list Ascii.ascii) : list N :=
  match s with
  | [] => []
  | a :: s1 =>
      let x := byte_of a in
      let plain_byte := if ((65 <=? x) && (x <=? 90))%N then (x + 32)%N else x in
      match s1 with
      | b :: s2 =>
          if ((x =? 197) && (byte_of b =? 191))%N then 115%N :: fold_bytes s2
          else
            match s2 with
            | c :: s3 =>
                if ((x =? 226) && (byte_of b =? 132) && (byte_of c =? 170))%N then 107%N :: fold_bytes s3
                else plain_byte :: fold_bytes s1
            | [] => plain_byte :: fold_bytes s1
            end
      | [] => [plain_byte]
      end
  end.

(** [strings.EqualFold(s, constant)] for an ASCII constant. *)
Definition EqualFold (s constant : string) : bool :=
  bool_decide (fold_bytes (String.list_ascii_of_string s) = fold_bytes (String.list_ascii_of_string constant)).

(** [strings.ToLower] of an ASCII text. *)
Definition lower_byte (a : Ascii.ascii) : Ascii.ascii :=
  if ((65 <=? byte_of a) && (byte_of a <=? 90))%N then Ascii.ascii_of_N (byte_of a + 32) else a.

Fixpoint ToLower (s : string) : string :=
  match s with
  | "" => ""
  | String c rest => String (lower_byte c) (ToLower rest)
  end.

(** [strings.TrimPrefix] *)
Fixpoint cut_prefix (s prefix : string) : option string :=
  match prefix, s with
  | "", _ => Some s
  | String p prefix, String c s => if Ascii.eqb p c then cut_prefix s prefix else None
  | _, _ => None
  end.

Definition TrimPrefix (s prefix : string) : string := default s (cut_prefix s prefix).

Example folded_ex :
  EqualFold "CRITical" "critical" = true ∧ EqualFold "critic" "critical" = false
  ∧ ToLower (TrimPrefix "KIND_Of_Thing" "KIND_") = "of_thing" ∧ TrimPrefix "KIN" "KIND_" = "KIN".
Proof. vm_compute. done. Qed.
