(* ===== verification/GoFloat.v ===== *)
(** * Doubles: arithmetic, order, decimal literals

    The operations of Go on [float64] are those of IEEE 754 in round-to-nearest
    even, as specified by the kernel's [SpecFloat]. *)

From S2P Require Import Prelude GoRuntime.
From Stdlib Require Import Floats.SpecFloat.
From stdpp Require Import options.

Definition f_add : float64 → float64 → float64 := SFadd 53 1024.
Definition f_sub : float64 → float64 → float64 := SFsub 53 1024.
Definition f_mul : float64 → float64 → float64 := SFmul 53 1024.
Definition f_div : float64 → float64 → float64 := SFdiv 53 1024.
Definition f_neg : float64 → float64 := SFopp.
Definition f_eq : float64 → float64 → bool := SFeqb.

(** [math.Abs], [math.IsNaN], [math.IsInf(x, 0)] *)
Definition f_abs : float64 → float64 := SFabs.
Definition f_is_nan (x : float64) : bool := match x with S754_nan => true | _ => false end.
Definition f_is_inf (x : float64) : bool := match x with S754_infinity _ => true | _ => false end.

(** [math.Max] and [math.Min]: infinities first, then NaN, then the signs of
    two zeros. *)
Definition f_max (x y : float64) : float64 :=
  match x, y with
  | S754_infinity false, _ | _, S754_infinity false => S754_infinity false
  | S754_nan, _ | _, S754_nan => S754_nan
  | S754_zero sx, S754_zero _ => if sx then y else x
  | _, _ => if f_lt y x then x else y
  end.

Definition f_min (x y : float64) : float64 :=
  match x, y with
  | S754_infinity true, _ | _, S754_infinity true => S754_infinity true
  | S754_nan, _ | _, S754_nan => S754_nan
  | S754_zero sx, S754_zero _ => if sx then x else y
  | _, _ => if f_lt x y then x else y
  end.

(** [math.MaxFloat64] *)
Definition float_max : float64 := SFmax_float 53 1024.

(** ** Decimal literals

    The double nearest to [n * 10 ^ k] ([n] a natural number), as
    [strconv.ParseFloat] and the compiler compute it.  A fraction is divided
    to at least 64 significant bits, and a last bit records whether a
    remainder is left, so that one rounding follows. *)
Definition float_of_quotient (n d : Z) : float64 :=
  let shift := Z.max 0 (65 + Z.log2 d - Z.log2 n) in
  let '(q, r) := Z.div_eucl (Z.shiftl n shift) d in
  binary_normalize 53 1024 (2 * q + (if r =? 0 then 0 else 1)) (- shift - 1) false.

Definition float_of_decimal (n k : Z) : float64 :=
  if n =? 0 then float_zero
  else if 0 <=? k then binary_normalize 53 1024 (n * 10 ^ k) 0 false
  else float_of_quotient n (10 ^ (- k)).

Example decimal_half : float_of_decimal 5 (-1) = binary_normalize 53 1024 1 (-1) false.
Proof. vm_compute. reflexivity. Qed.

Example decimal_hundredth : float_of_decimal 1 (-2) = S754_finite false 5764607523034235 (-59).
Proof. vm_compute. reflexivity. Qed.

Example decimal_least : float_of_decimal 49 (-325) = S754_finite false 1 (-1074).
Proof. vm_compute. reflexivity. Qed.

Example decimal_largest : float_of_decimal 17976931348623157 292 = float_max.
Proof. vm_compute. reflexivity. Qed.

(** [math.Pi] *)
Definition float_pi : float64 := S754_finite false 7074237752028440 (-51).

(** ** The order

    Comparison is lexicographic on a class and, for finite numbers, on the
    exponent and the mantissa. *)
Definition rank (x : float64) : Z * Z * Z :=
  match x with
  | S754_nan => (3, 0, 0)
  | S754_infinity true => (-2, 0, 0)
  | S754_finite true m e => (-1, - e, Z.neg m)
  | S754_zero _ => (0, 0, 0)
  | S754_finite false m e => (1, e, Z.pos m)
  | S754_infinity false => (2, 0, 0)
  end.

Definition rank_lt (a b : Z * Z * Z) : Prop :=
  a.1.1 < b.1.1 ∨ a.1.1 = b.1.1 ∧ (a.1.2 < b.1.2 ∨ a.1.2 = b.1.2 ∧ a.2 < b.2).

Lemma f_lt_rank x y :
  f_is_nan x = false → f_is_nan y = false → f_lt x y = true ↔ rank_lt (rank x) (rank y).
Proof.
  unfold f_lt, SFltb, rank_lt.
  destruct x as [sx|sx| |sx mx ex], y as [sy|sy| |sy my ey]; try done; intros _ _;
    destruct sx, sy; cbn [SFcompare rank fst snd];
    try change (PosDef.Pos.compare_cont Eq mx my) with (Pos.compare mx my);
    try (destruct (Z.compare_spec ex ey); [destruct (Pos.compare_spec mx my)|..]); cbn;
    split; intros Hlt; first [done|lia|discriminate Hlt|exfalso; lia].
Qed.

Lemma f_le_lt x y :
  f_is_nan x = false → f_is_nan y = false → f_le x y = negb (f_lt y x).
Proof.
  unfold f_lt, f_le, SFltb, SFleb.
  destruct x as [sx|sx| |sx mx ex], y as [sy|sy| |sy my ey]; try done; intros _ _;
    destruct sx, sy; try done; cbn [SFcompare];
    change (PosDef.Pos.compare_cont Eq mx my) with (Pos.compare mx my);
    change (PosDef.Pos.compare_cont Eq my mx) with (Pos.compare my mx);
    rewrite (Z.compare_antisym ex ey), (Pos.compare_antisym mx my);
    by destruct (Z.compare ex ey), (Pos.compare mx my).
Qed.

Lemma f_le_rank x y :
  f_is_nan x = false → f_is_nan y = false → f_le x y = true ↔ ¬ rank_lt (rank y) (rank x).
Proof.
  intros Hx Hy. rewrite f_le_lt, negb_true_iff by done. rewrite <- (f_lt_rank y x) by done.
  by destruct (f_lt y x).
Qed.

Lemma f_lt_not_nan x y : f_lt x y = true → f_is_nan x = false ∧ f_is_nan y = false.
Proof. by destruct x, y. Qed.

Lemma f_le_not_nan x y : f_le x y = true → f_is_nan x = false ∧ f_is_nan y = false.
Proof. by destruct x, y. Qed.

Lemma f_le_trans x y z : f_le x y = true → f_le y z = true → f_le x z = true.
Proof.
  intros Hxy Hyz. pose proof (f_le_not_nan _ _ Hxy) as [Hx Hy]. pose proof (f_le_not_nan _ _ Hyz) as [_ Hz].
  rewrite f_le_rank in * by done. unfold rank_lt in *. lia.
Qed.

Lemma f_le_refl x : f_is_nan x = false → f_le x x = true.
Proof. intros Hx. rewrite f_le_rank by done. unfold rank_lt. lia. Qed.

Lemma f_not_le x y : f_is_nan x = false → f_is_nan y = false → f_le x y = false → f_lt y x = true.
Proof. intros Hx Hy. rewrite f_le_lt by done. by rewrite negb_false_iff. Qed.

Lemma f_lt_le x y : f_lt x y = true → f_le x y = true.
Proof.
  intros H. pose proof (f_lt_not_nan _ _ H) as [Hx Hy]. rewrite f_lt_rank in H by done.
  rewrite f_le_rank by done. unfold rank_lt in *. lia.
Qed.

Lemma f_lt_irrefl_le x y : f_lt x y = true → f_le y x = false.
Proof.
  intros H. pose proof (f_lt_not_nan _ _ H) as [Hx Hy]. rewrite f_le_lt by done. by rewrite H.
Qed.

#[export] Hint Resolve f_le_refl f_lt_le : go.

(** *** The greater and the lesser *)

Lemma f_max_spec x y :
  f_is_nan x = false → f_is_nan y = false →
  f_is_nan (f_max x y) = false ∧ f_le x (f_max x y) = true ∧ f_le y (f_max x y) = true
  ∧ (f_max x y = x ∨ f_max x y = y).
Proof.
  intros Hx Hy.
  assert (f_max x y = x ∧ f_le y x = true ∨ f_max x y = y ∧ f_le x y = true) as [[-> H]|[-> H]].
  { pose proof (f_le_lt x y Hx Hy) as H1. pose proof (f_lt_le y x) as H2.
    destruct x as [sx|[]| |sx mx ex], y as [sy|[]| |sy my ey]; try done; cbn [f_max];
      try (by right); try (by left); try (destruct sx, sy; by first [by left|by right]);
      (match goal with |- context [f_lt ?b ?a] => destruct (f_lt b a) end); auto. }
  - repeat split; auto using f_le_refl.
  - repeat split; auto using f_le_refl.
Qed.

Lemma f_min_spec x y :
  f_is_nan x = false → f_is_nan y = false →
  f_is_nan (f_min x y) = false ∧ f_le (f_min x y) x = true ∧ f_le (f_min x y) y = true
  ∧ (f_min x y = x ∨ f_min x y = y).
Proof.
  intros Hx Hy.
  assert (f_min x y = x ∧ f_le x y = true ∨ f_min x y = y ∧ f_le y x = true) as [[-> H]|[-> H]].
  { pose proof (f_le_lt y x Hy Hx) as H1. pose proof (f_lt_le x y) as H2.
    destruct x as [sx|[]| |sx mx ex], y as [sy|[]| |sy my ey]; try done; cbn [f_min];
      try (by right); try (by left); try (destruct sx, sy; by first [by left|by right]);
      (match goal with |- context [f_lt ?b ?a] => destruct (f_lt b a) end); auto. }
  - repeat split; auto using f_le_refl.
  - repeat split; auto using f_le_refl.
Qed.
