(* ===== verification/GoJson.v ===== *)
(** * Decoding JSON

    [json.Unmarshal] into [any] and into [map[string]any], as the geometry of
    the volumes is decoded: the grammar of encoding/json, its limit of nesting,
    strings with their escapes and the repair of invalid UTF-8, numbers as
    doubles. *)

From S2P Require Import Prelude GoRuntime GoFloat.
From Stdlib Require Import Floats.SpecFloat.
From stdpp Require Import options.

#[warnings="-register-all"]
Inductive json : Type :=
  | Jnull
  | Jbool (b : bool)
  | Jnumber (x : float64)
  | Jstring (s : string)
  | Jarray (l : list json)
  | Jobject (m : list (string * json)).

(** [Overflow]: the text is valid JSON, but a number in it is out of the range
    of a double, which is an error too. *)
Inductive parsed (A : Type) : Type :=
  | Parsed (a : A) (rest : list Ascii.ascii)
  | Malformed
  | OutOfFuel.
Arguments Parsed {A}.
Arguments Malformed {A}.
Arguments OutOfFuel {A}.

Abbreviation bytes := (list Ascii.ascii).

Definition is_char (n : N) (c : Ascii.ascii) : bool := (byte_of c =? n)%N.

Definition is_json_space (c : Ascii.ascii) : bool :=
  is_char 32 c || is_char 9 c || is_char 13 c || is_char 10 c.

Fixpoint skip_space (s : bytes) : bytes :=
  match s with
  | c :: s' => if is_json_space c then skip_space s' else s
  | [] => []
  end.

(** The literal [l] is at the head of [s]. *)
Fixpoint expect (l : string) (s : bytes) : option bytes :=
  match l, s with
  | EmptyString, _ => Some s
  | String a l', b :: s' => if Ascii.eqb a b then expect l' s' else None
  | String _ _, [] => None
  end.

(** ** Numbers *)

Definition digit (c : Ascii.ascii) : option Z :=
  let b := byte_of c in
  if ((48 <=? b) && (b <=? 57))%N then Some (Z.of_N b - 48) else None.

(** The digits at the head: their value after [acc], how many, and the rest. *)
Fixpoint digits (acc count : Z) (s : bytes) : Z * Z * bytes :=
  match s with
  | c :: s' => match digit c with Some d => digits (acc * 10 + d) (count + 1) s' | None => (acc, count, s) end
  | [] => (acc, count, [])
  end.

(** The double nearest to [n * 10 ^ k], infinite when out of range.  The number
    of binary digits of [n] tells the extreme cases, whose power of ten is not
    computed. *)
Definition decimal (n k : Z) : float64 :=
  if n =? 0 then float_zero
  else if 400 <? k + Z.log2 n / 4 then S754_infinity false
  else if k + Z.log2 n / 3 + 1 <? -400 then float_zero
  else float_of_decimal n k.

Definition parse_fraction (n count : Z) (s : bytes) : option (Z * Z * Z * bytes) :=
  match s with
  | c :: s' =>
      if is_char 46 c then
        let '(n', count', rest) := digits n 0 s' in
        if count' =? 0 then None else Some (n', count + count', - count', rest)
      else Some (n, count, 0, s)
  | [] => Some (n, count, 0, [])
  end.

Definition parse_exponent (s : bytes) : option (Z * bytes) :=
  match s with
  | c :: s' =>
      if is_char 101 c || is_char 69 c then
        let '(sign, s') :=
          match s' with
          | d :: s'' => if is_char 45 d then (-1, s'') else if is_char 43 d then (1, s'') else (1, s')
          | [] => (1, s')
          end in
        let '(e, count, rest) := digits 0 0 s' in
        if count =? 0 then None else Some (sign * e, rest)
      else Some (0, s)
  | [] => Some (0, [])
  end.

(** A number without its sign. *)
Definition parse_magnitude (s : bytes) : option (float64 * bytes) :=
  let '(n, count, rest) := digits 0 0 s in
  if (count =? 0) || (1 <? count) && (match s with c :: _ => is_char 48 c | [] => false end) then None else
  match parse_fraction n count rest with
  | None => None
  | Some (n, count, scale, rest) =>
      match parse_exponent rest with
      | None => None
      | Some (e, rest) => Some (decimal n (e + scale), rest)
      end
  end.

Definition parse_number (s : bytes) : option (float64 * bytes) :=
  match s with
  | c :: s' =>
      if is_char 45 c then
        match parse_magnitude s' with Some (x, rest) => Some (f_neg x, rest) | None => None end
      else parse_magnitude s
  | [] => None
  end.

(** ** Strings *)

Definition hex_value (c : Ascii.ascii) : option N :=
  let b := byte_of c in
  if ((48 <=? b) && (b <=? 57))%N then Some (b - 48)%N
  else if ((97 <=? b) && (b <=? 102))%N then Some (b - 87)%N
  else if ((65 <=? b) && (b <=? 70))%N then Some (b - 55)%N
  else None.

(** Four hexadecimal digits. *)
Definition hex4 (s : bytes) : option (N * bytes) :=
  match s with
  | a :: b :: c :: d :: rest =>
      match hex_value a, hex_value b, hex_value c, hex_value d with
      | Some a, Some b, Some c, Some d => Some ((((a * 16 + b) * 16 + c) * 16 + d)%N, rest)
      | _, _, _, _ => None
      end
  | _ => None
  end.

Definition replacement_char : N := 65533.

(** The UTF-8 encoding of a code point. *)
Definition utf8 (r : N) : bytes :=
  let byte n := Ascii.ascii_of_N n in
  (if r <? 128 then [byte r]
   else if r <? 2048 then [byte (192 + r / 64); byte (128 + r mod 64)]
   else if r <? 65536 then [byte (224 + r / 4096); byte (128 + (r / 64) mod 64); byte (128 + r mod 64)]
   else [byte (240 + r / 262144); byte (128 + (r / 4096) mod 64); byte (128 + (r / 64) mod 64);
         byte (128 + r mod 64)])%N.

Definition between (lo hi : N) (c : Ascii.ascii) : bool := ((lo <=? byte_of c) && (byte_of c <=? hi))%N.
Definition continuation : Ascii.ascii → bool := between 128 191.

(** The well-formed UTF-8 sequence that starts with a byte above 127, if any. *)
Definition utf8_head (c : Ascii.ascii) (s : bytes) : option (bytes * bytes) :=
  match s with
  | c1 :: s1 =>
      if between 194 223 c && continuation c1 then Some ([c; c1], s1) else
      match s1 with
      | c2 :: s2 =>
          if ((is_char 224 c && between 160 191 c1)
              || (between 225 236 c && continuation c1)
              || (is_char 237 c && between 128 159 c1)
              || (between 238 239 c && continuation c1)) && continuation c2
          then Some ([c; c1; c2], s2) else
          match s2 with
          | c3 :: s3 =>
              if ((is_char 240 c && between 144 191 c1)
                  || (between 241 243 c && continuation c1)
                  || (is_char 244 c && between 128 143 c1)) && continuation c2 && continuation c3
              then Some ([c; c1; c2; c3], s3) else None
          | [] => None
          end
      | [] => None
      end
  | [] => None
  end.

Definition simple_escape (c : Ascii.ascii) : option Ascii.ascii :=
  (if (byte_of c =? 34) || (byte_of c =? 92) || (byte_of c =? 47) then Some c
   else if byte_of c =? 98 then Some (Ascii.ascii_of_N 8)
   else if byte_of c =? 102 then Some (Ascii.ascii_of_N 12)
   else if byte_of c =? 110 then Some (Ascii.ascii_of_N 10)
   else if byte_of c =? 114 then Some (Ascii.ascii_of_N 13)
   else if byte_of c =? 116 then Some (Ascii.ascii_of_N 9)
   else None)%N.

Definition surrogate (r : N) : bool := ((55296 <=? r) && (r <? 57344))%N.

(** [\uXXXX] at the head of [s], after its backslash and [u]: one code point,
    of one escape or of a pair of surrogates. *)
Definition unicode_escape (s : bytes) : option (bytes * bytes) :=
  match hex4 s with
  | None => None
  | Some (r, rest) =>
      if surrogate r then
        match rest with
        | b :: u :: rest' =>
            if is_char 92 b && is_char 117 u then
              match hex4 rest' with
              | Some (r', rest'') =>
                  if ((r <? 56320) && (56320 <=? r') && (r' <? 57344))%N
                  then Some (utf8 ((r - 55296) * 1024 + (r' - 56320) + 65536)%N, rest'')
                  else Some (utf8 replacement_char, rest)
              | None => Some (utf8 replacement_char, rest)
              end
            else Some (utf8 replacement_char, rest)
        | _ => Some (utf8 replacement_char, rest)
        end
      else Some (utf8 r, rest)
  end.

(** The body of a string, after its opening quote. *)
Fixpoint parse_string (fuel : nat) (s : bytes) : parsed bytes :=
  match fuel with
  | O => OutOfFuel
  | S fuel =>
      let continue head rest :=
        match parse_string fuel rest with
        | Parsed tail rest' => Parsed (head ++ tail) rest'
        | r => r
        end in
      match s with
      | [] => Malformed
      | c :: s' =>
          if is_char 34 c then Parsed [] s'
          else if is_char 92 c then
            match s' with
            | [] => Malformed
            | e :: s'' =>
                if is_char 117 e then
                  match unicode_escape s'' with
                  | Some (head, rest) => continue head rest
                  | None => Malformed
                  end
                else match simple_escape e with Some b => continue [b] s'' | None => Malformed end
            end
          else if (byte_of c <? 32)%N then Malformed
          else if (byte_of c <? 128)%N then continue [c] s'
          else match utf8_head c s' with
               | Some (head, rest) => continue head rest
               | None => continue (utf8 replacement_char) s'
               end
      end
  end.

(** ** Values

    [depth] is the nesting still allowed. *)
Fixpoint parse_value (fuel : nat) (depth : nat) (s : bytes) {struct fuel} : parsed json :=
  match fuel with
  | O => OutOfFuel
  | S fuel =>
      match skip_space s with
      | [] => Malformed
      | c :: s' =>
          if is_char 123 c then
            match depth with
            | O => Malformed
            | S depth =>
                match skip_space s' with
                | d :: rest => if is_char 125 d then Parsed (Jobject []) rest
                               else parse_members fuel depth [] s'
                | [] => Malformed
                end
            end
          else if is_char 91 c then
            match depth with
            | O => Malformed
            | S depth =>
                match skip_space s' with
                | d :: rest => if is_char 93 d then Parsed (Jarray []) rest
                               else parse_elements fuel depth [] s'
                | [] => Malformed
                end
            end
          else if is_char 34 c then
            match parse_string fuel s' with
            | Parsed str rest => Parsed (Jstring (String.string_of_list_ascii str)) rest
            | Malformed => Malformed
            | OutOfFuel => OutOfFuel
            end
          else
            match expect "null" (c :: s'), expect "true" (c :: s'), expect "false" (c :: s') with
            | Some rest, _, _ => Parsed Jnull rest
            | _, Some rest, _ => Parsed (Jbool true) rest
            | _, _, Some rest => Parsed (Jbool false) rest
            | None, None, None =>
                match parse_number (c :: s') with
                | Some (x, rest) => Parsed (Jnumber x) rest
                | None => Malformed
                end
            end
      end
  end

(** The members of an object, up to its closing brace; the values so far come
    in reverse order. *)
with parse_members (fuel : nat) (depth : nat) (acc : list (string * json)) (s : bytes) {struct fuel}
    : parsed json :=
  match fuel with
  | O => OutOfFuel
  | S fuel =>
      match skip_space s with
      | [] => Malformed
      | c :: s' =>
          if is_char 34 c then
            match parse_string fuel s' with
            | Parsed key rest =>
                match skip_space rest with
                | d :: rest' =>
                    if is_char 58 d then
                      match parse_value fuel depth rest' with
                      | Parsed v rest'' =>
                          let acc := (String.string_of_list_ascii key, v) :: acc in
                          match skip_space rest'' with
                          | e :: rest''' =>
                              if is_char 44 e then parse_members fuel depth acc rest'''
                              else if is_char 125 e then Parsed (Jobject (rev acc)) rest'''
                              else Malformed
                          | [] => Malformed
                          end
                      | r => r
                      end
                    else Malformed
                | [] => Malformed
                end
            | Malformed => Malformed
            | OutOfFuel => OutOfFuel
            end
          else Malformed
      end
  end

with parse_elements (fuel : nat) (depth : nat) (acc : list json) (s : bytes) {struct fuel} : parsed json :=
  match fuel with
  | O => OutOfFuel
  | S fuel =>
      match parse_value fuel depth s with
      | Parsed v rest =>
          match skip_space rest with
          | e :: rest' =>
              if is_char 44 e then parse_elements fuel depth (v :: acc) rest'
              else if is_char 93 e then Parsed (Jarray (rev (v :: acc))) rest'
              else Malformed
          | [] => Malformed
          end
      | r => r
      end
  end.

(** ** [json.Unmarshal] *)

Fixpoint in_range (v : json) : bool :=
  match v with
  | Jnumber x => negb (f_is_inf x)
  | Jarray l => forallb in_range l
  | Jobject m => forallb (λ e, in_range e.2) m
  | _ => true
  end.

(** The whole text is one value; [None] is an error.  Only the numbers that
    are decoded have to be in range. *)
Definition json_value (text : string) : option json :=
  let s := String.list_ascii_of_string text in
  match parse_value (S (2 * length s)) (N.to_nat 10000) s with
  | Parsed v rest => match skip_space rest with [] => Some v | _ => None end
  | _ => None
  end.

(** Decoding into [any]. *)
Definition json_decode (text : string) : option json :=
  match json_value text with
  | Some v => if in_range v then Some v else None
  | None => None
  end.

(** [v[key]] of a decoded object: the last member of the name. *)
Definition member (m : list (string * json)) (key : string) : option json :=
  snd <$> List.find (λ e, e.1 =s= key) (rev m).

(** Unmarshalling into a nil [map[string]any]: [null] leaves it nil. *)
Definition json_unmarshal_map (text : string) : option (list (string * json)) :=
  match json_decode text with
  | Some (Jobject m) => Some m
  | Some Jnull => Some []
  | _ => None
  end.

(** ** Decoding terminates

    Every step consumes input, so the fuel that [json_decode] supplies is
    never used up. *)

Lemma skip_space_length s : (length (skip_space s) ≤ length s)%nat.
Proof. induction s as [|c s IH]; cbn; [lia|]. case_match; cbn; lia. Qed.

Lemma expect_length l s rest : expect l s = Some rest → length s = (String.length l + length rest)%nat.
Proof.
  revert s. induction l as [|a l IH]; intros s; cbn; [by intros [= ->]|].
  destruct s as [|b s]; [done|]. case_match; [|done]. intros Hr%IH. cbn. lia.
Qed.

Lemma digits_length acc count s n count' rest :
  digits acc count s = (n, count', rest) →
  Z.of_nat (length s) - Z.of_nat (length rest) = count' - count.
Proof.
  revert acc count. induction s as [|c s IH]; intros acc count; cbn [digits].
  - intros [= <- <- <-]. lia.
  - destruct (digit c); [|intros [= <- <- <-]; lia]. intros Hd%IH. cbn [length]. lia.
Qed.

Lemma digits_rest acc count s : (length (digits acc count s).2 ≤ length s)%nat.
Proof.
  revert acc count. induction s as [|c s IH]; intros; cbn; [lia|]. case_match; [|cbn; lia].
  etrans; [apply IH|]. lia.
Qed.

Lemma parse_fraction_length n count s r rest :
  parse_fraction n count s = Some (r, rest) → (length rest ≤ length s)%nat.
Proof.
  unfold parse_fraction. destruct s as [|c s]; [by intros [= <- <-]|].
  case_match; [|by intros [= <- <-]].
  pose proof (digits_rest n 0 s) as Hr. destruct (digits n 0 s) as [[n' count'] rest'].
  destruct (count' =? 0); [done|]. intros [= <- <-]. cbn in *. lia.
Qed.

Lemma parse_exponent_length s e rest :
  parse_exponent s = Some (e, rest) → (length rest ≤ length s)%nat.
Proof.
  unfold parse_exponent. destruct s as [|c s]; [by intros [= <- <-]|].
  case_match; [|by intros [= <- <-]].
  assert (∀ sign s', (length s' ≤ length s)%nat →
    (let '(e, count, rest) := digits 0 0 s' in
     if count =? 0 then None else Some (sign * e, rest)) = Some (e, rest) →
    (length rest ≤ length (c :: s))%nat) as Hdig.
  { intros sign s' Hs'. pose proof (digits_rest 0 0 s') as Hr.
    destruct (digits 0 0 s') as [[e' count] rest']. destruct (count =? 0); [done|].
    intros [= <- <-]. cbn in *. lia. }
  destruct s as [|d s]; [by apply Hdig|].
  destruct (is_char 45 d); [apply Hdig; cbn; lia|]. destruct (is_char 43 d); apply Hdig; cbn; lia.
Qed.

Lemma parse_magnitude_length s x rest :
  parse_magnitude s = Some (x, rest) → (length rest < length s)%nat.
Proof.
  unfold parse_magnitude. pose proof (digits_rest 0 0 s) as Hr. destruct (digits 0 0 s) as [[n count] r] eqn:Hd.
  destruct (Z.eqb_spec count 0) as [|Hc]; [done|]. cbn [orb]. case_match; [done|].
  apply digits_length in Hd.
  destruct (parse_fraction n count r) as [[[[n1 c1] scale] r1]|] eqn:Hf; [|done].
  apply parse_fraction_length in Hf.
  destruct (parse_exponent r1) as [[e r2]|] eqn:He; [|done]. apply parse_exponent_length in He.
  intros [= <- <-]. cbn in Hr. lia.
Qed.

Lemma parse_number_length s x rest : parse_number s = Some (x, rest) → (length rest < length s)%nat.
Proof.
  unfold parse_number. destruct s as [|c s]; [done|]. case_match.
  - destruct (parse_magnitude s) as [[y r]|] eqn:Hm; [|done]. intros [= <- <-].
    apply parse_magnitude_length in Hm. cbn. lia.
  - apply parse_magnitude_length.
Qed.

Lemma hex4_length s r rest : hex4 s = Some (r, rest) → length s = S (S (S (S (length rest)))).
Proof.
  unfold hex4. destruct s as [|a [|b [|c [|d s]]]]; try done.
  destruct (hex_value a), (hex_value b), (hex_value c), (hex_value d); try done. by intros [= _ <-].
Qed.

Lemma unicode_escape_length s head rest :
  unicode_escape s = Some (head, rest) → (length rest ≤ length s)%nat.
Proof.
  unfold unicode_escape. destruct (hex4 s) as [[r r0]|] eqn:H4; [|done]. apply hex4_length in H4.
  destruct (surrogate r); [|intros [= <- <-]; lia].
  destruct r0 as [|b [|u r1]]; try (intros [= <- <-]; cbn in *; lia).
  destruct (_ && _); [|intros [= <- <-]; cbn in *; lia].
  destruct (hex4 r1) as [[r' r2]|] eqn:H4'; [|intros [= <- <-]; cbn in *; lia].
  apply hex4_length in H4'. case_match; intros [= <- <-]; cbn in *; lia.
Qed.

Lemma utf8_head_length c s head rest :
  utf8_head c s = Some (head, rest) → (length rest ≤ length s)%nat.
Proof.
  unfold utf8_head. destruct s as [|c1 [|c2 [|c3 s]]]; repeat case_match; try done;
    intros [= <- <-]; cbn; lia.
Qed.

(** The parse neither runs out of fuel nor gains input. *)
Definition consumes {A} (s : bytes) (r : parsed A) : Prop :=
  match r with Parsed _ rest => (length rest < length s)%nat | Malformed => True | OutOfFuel => False end.

Lemma consumes_weaken {A} (s s' : bytes) (r : parsed A) :
  (length s' ≤ length s)%nat → consumes s' r → consumes s r.
Proof. destruct r; cbn; lia. Qed.

Lemma parse_string_consumes fuel s : (length s < fuel)%nat → consumes s (parse_string fuel s).
Proof.
  revert s. induction fuel as [|fuel IH]; intros s Hf; [lia|].
  assert (∀ head rest, (length rest < length s)%nat →
    consumes s match parse_string fuel rest with
               | Parsed tail rest' => Parsed (head ++ tail) rest' | r => r end) as Hgo.
  { intros head rest Hr. pose proof (IH rest) as IHr.
    destruct (parse_string fuel rest); cbn in *; lia. }
  cbn [parse_string]. destruct s as [|c s]; [done|]. cbn [length] in *.
  case_match; [cbn; lia|]. case_match.
  - destruct s as [|e s]; [done|]. cbn [length] in *. case_match.
    + destruct (unicode_escape s) as [[head rest]|] eqn:Hu; [|done].
      apply unicode_escape_length in Hu. apply Hgo. lia.
    + destruct (simple_escape e); [|done]. apply Hgo. lia.
  - case_match; [done|]. case_match; [apply Hgo; lia|].
    destruct (utf8_head c s) as [[head rest]|] eqn:Hu; [apply utf8_head_length in Hu|]; apply Hgo; lia.
Qed.

Lemma parse_consumes fuel :
  (∀ depth s, (2 * length s < fuel)%nat → consumes s (parse_value fuel depth s))
  ∧ (∀ depth acc s, (2 * length s < fuel)%nat → consumes s (parse_members fuel depth acc s))
  ∧ (∀ depth acc s, (2 * length s + 1 < fuel)%nat → consumes s (parse_elements fuel depth acc s)).
Proof.
  induction fuel as [|fuel (IHv & IHm & IHe)]; [split; [|split]; intros; lia|].
  split; [|split]; intros depth.
  - intros s Hf. cbn [parse_value]. pose proof (skip_space_length s) as Hs.
    destruct (skip_space s) as [|c s'] eqn:Hsp; [done|]. cbn [length] in Hs.
    case_match.
    { destruct depth as [|depth]; [done|]. pose proof (skip_space_length s') as Hs'.
      destruct (skip_space s') as [|d rest]; [done|]. cbn [length] in Hs'. case_match; [cbn; lia|].
      apply (consumes_weaken s s'); [lia|]. apply IHm. lia. }
    case_match.
    { destruct depth as [|depth]; [done|]. pose proof (skip_space_length s') as Hs'.
      destruct (skip_space s') as [|d rest]; [done|]. cbn [length] in Hs'. case_match; [cbn; lia|].
      apply (consumes_weaken s s'); [lia|]. apply IHe. lia. }
    case_match.
    { pose proof (parse_string_consumes fuel s' ltac:(lia)) as Hstr.
      destruct (parse_string fuel s'); cbn in *; lia. }
    destruct (expect "null" (c :: s')) eqn:E1; [apply expect_length in E1; cbn in *; lia|].
    destruct (expect "true" (c :: s')) eqn:E2; [apply expect_length in E2; cbn in *; lia|].
    destruct (expect "false" (c :: s')) eqn:E3; [apply expect_length in E3; cbn in *; lia|].
    destruct (parse_number (c :: s')) as [[x rest]|] eqn:E4; [|done].
    apply parse_number_length in E4. cbn in *. lia.
  - intros acc s Hf. cbn [parse_members]. pose proof (skip_space_length s) as Hs.
    destruct (skip_space s) as [|c s']; [done|]. cbn [length] in Hs. case_match; [|done].
    pose proof (parse_string_consumes fuel s' ltac:(lia)) as Hstr.
    destruct (parse_string fuel s') as [key rest| |]; [|done..]. cbn in Hstr.
    pose proof (skip_space_length rest) as Hr. destruct (skip_space rest) as [|d rest']; [done|].
    cbn [length] in Hr. case_match; [|done].
    pose proof (IHv depth rest' ltac:(lia)) as Hv.
    destruct (parse_value fuel depth rest') as [v rest2| |]; [|done..]. cbn in Hv. cbn zeta.
    pose proof (skip_space_length rest2) as Hr2. destruct (skip_space rest2) as [|e rest3]; [done|].
    cbn [length] in Hr2. case_match; [|case_match; [cbn; lia|done]].
    apply (consumes_weaken s rest3); [lia|]. apply IHm. lia.
  - intros acc s Hf. cbn [parse_elements]. pose proof (IHv depth s ltac:(lia)) as Hv.
    destruct (parse_value fuel depth s) as [v rest| |]; [|done..]. cbn in Hv.
    pose proof (skip_space_length rest) as Hr. destruct (skip_space rest) as [|e rest']; [done|].
    cbn [length] in Hr. case_match; [|case_match; [cbn; lia|done]].
    apply (consumes_weaken s rest'); [lia|]. apply IHe. lia.
Qed.

Lemma json_decode_fuel depth s : parse_value (S (2 * length s)) depth s ≠ OutOfFuel.
Proof.
  pose proof (proj1 (parse_consumes (S (2 * length s))) depth s ltac:(lia)) as H.
  intros Heq. by rewrite Heq in H.
Qed.

(** Apostrophes for quotation marks, to write JSON in examples. *)
Definition quoted_text (s : string) : string :=
  String.string_of_list_ascii
    ((λ c, if is_char 39 c then Ascii.ascii_of_N 34 else c) <$> String.list_ascii_of_string s).

Example decode_object :
  json_decode (quoted_text " {'a': [1, -2.5e1, true], 'b': {'c': null}} ")
  = Some (Jobject [("a", Jarray [Jnumber (float_of_Z 1); Jnumber (float_of_Z (-25)); Jbool true]);
                   ("b", Jobject [("c", Jnull)])]).
Proof. vm_compute. reflexivity. Qed.

Example decode_trailing : json_decode "[1,]" = None ∧ json_decode "01" = None ∧ json_decode "1e999" = None.
Proof. vm_compute. done. Qed.
