(* ===== verification/GoStrconv.v ===== *)
(** * Numbers and lines of a text

    [strconv.Atoi], [strconv.ParseFloat], [%.3f] of [fmt], the type [float32],
    [strings.Split] and the lines of a [bufio.Scanner], as the parser of
    missions uses them. *)

From S2P Require Import Prelude GoRuntime GoFloat GoJson.
From Stdlib Require Import Floats.SpecFloat.
From stdpp Require Import options.

(** ** [float32]: 24 bits of precision, exponents below 128 *)

Definition float32 := spec_float.

(** The value of a finite datum in another format. *)
Definition normalize (prec emax : Z) (x : spec_float) : spec_float :=
  match x with
  | S754_finite sign m e => binary_normalize prec emax (if sign then Z.neg m else Z.pos m) e sign
  | _ => x
  end.

(** The conversions [float32(x)] and [float64(x)]. *)
Definition to_float32 : float64 → float32 := normalize 24 128.
Definition to_float64 : float32 → float64 := normalize 53 1024.

Definition f32_mul : float32 → float32 → float32 := SFmul 24 128.
Definition float32_of_Z (z : Z) : float32 := binary_normalize 24 128 z 0 false.

(** [n / d] rounded to a [float32], for constants. *)
Definition float32_of_quotient (n d : Z) : float32 :=
  let shift := Z.max 0 (65 + Z.log2 d - Z.log2 n) in
  let '(q, r) := Z.div_eucl (Z.shiftl n shift) d in
  binary_normalize 24 128 (2 * q + (if r =? 0 then 0 else 1)) (- shift - 1) false.

(** The integer part of a finite datum, towards zero. *)
Definition truncate (x : spec_float) : Z :=
  match x with
  | S754_finite sign m e =>
      let n := if 0 <=? e then Z.shiftl (Z.pos m) e else Z.shiftr (Z.pos m) (- e) in
      if sign then - n else n
  | _ => 0
  end.

(** [math.Round] as an integer: halves away from zero. *)
Definition round_half_away (x : spec_float) : Z :=
  match x with
  | S754_finite sign m e =>
      let n := if 0 <=? e then Z.shiftl (Z.pos m) e
               else Z.shiftr (Z.pos m + Z.shiftl 1 (- e - 1)) (- e) in
      if sign then - n else n
  | _ => 0
  end.

(** ** Integers *)

(** The sign of a numeral, and what follows it. *)
Definition numeral_sign (s : bytes) : bool * bytes :=
  match s with
  | c :: s' => if is_char 43 c then (false, s') else if is_char 45 c then (true, s') else (false, s)
  | [] => (false, [])
  end.

(** [strconv.Atoi]; [None] is an error. *)
Definition Atoi (text : string) : option Z :=
  let '(negative, s) := numeral_sign (String.list_ascii_of_string text) in
  let '(n, count, rest) := digits 0 0 s in
  match rest with
  | _ :: _ => None
  | [] =>
      if count =? 0 then None
      else
        let z := if negative then - n else n in
        if (- 2 ^ 63 <=? z) && (z <? 2 ^ 63) then Some z else None
  end.

Example Atoi_ex :
  map Atoi ["16"; "+7"; "-0"; ""; "-"; "1_0"; "9223372036854775807"; "9223372036854775808"]
  = [Some 16; Some 7; Some 0; None; None; None; Some 9223372036854775807; None].
Proof. vm_compute. reflexivity. Qed.

(** ** Doubles *)

(** A digit of the base: 10 or 16. *)
Definition base_digit (base : Z) (c : Ascii.ascii) : option Z :=
  match digit c with
  | Some d => Some d
  | None => if base =? 16 then option_map Z.of_N (hex_value c) else None
  end.

(** The digits of the mantissa, with a point and underscores: their value, how
    many come after the point, whether there was any, and the rest. *)
Fixpoint mantissa_digits (base : Z) (point some : bool) (n scale : Z) (s : bytes)
    : Z * Z * bool * bytes :=
  match s with
  | c :: s' =>
      if is_char 95 c then mantissa_digits base point some n scale s'
      else if is_char 46 c then
        if point then (n, scale, some, s) else mantissa_digits base true some n scale s'
      else
        match base_digit base c with
        | Some d => mantissa_digits base point true (n * base + d) (if point then scale + 1 else scale) s'
        | None => (n, scale, some, s)
        end
  | [] => (n, scale, some, [])
  end.

(** The digits of the exponent; from 10000 on further ones are skipped. *)
Fixpoint exponent_digits (e : Z) (s : bytes) : Z * bytes :=
  match s with
  | c :: s' =>
      if is_char 95 c then exponent_digits e s'
      else match digit c with
           | Some d => exponent_digits (if e <? 10000 then e * 10 + d else e) s'
           | None => (e, s)
           end
  | [] => (e, [])
  end.

(** The exponent after its letter; [None] when it has no digit. *)
Definition signed_exponent (s : bytes) : option (Z * bytes) :=
  let '(negative, s) := numeral_sign s in
  match s with
  | c :: _ =>
      match digit c with
      | Some _ => let '(e, rest) := exponent_digits 0 s in Some (if negative then - e else e, rest)
      | None => None
      end
  | [] => None
  end.

(** Underscores stand between digits, or between the prefix and a digit. *)
Inductive saw : Set := SawStart | SawDigit | SawUnderscore | SawOther.

Fixpoint underscores_from (hex : bool) (last : saw) (s : bytes) : bool :=
  match s with
  | [] => match last with SawUnderscore => false | _ => true end
  | c :: s' =>
      match base_digit (if hex then 16 else 10) c with
      | Some _ => underscores_from hex SawDigit s'
      | None =>
          if is_char 95 c then
            match last with SawDigit => underscores_from hex SawUnderscore s' | _ => false end
          else match last with SawUnderscore => false | _ => underscores_from hex SawOther s' end
      end
  end.

Definition is_letter (upper : N) (c : Ascii.ascii) : bool := is_char upper c || is_char (upper + 32) c.

Definition underscoreOK (s : bytes) : bool :=
  let s := (numeral_sign s).2 in
  match s with
  | a :: b :: s' =>
      if is_char 48 a && (is_letter 66 b || is_letter 79 b || is_letter 88 b)
      then underscores_from (is_letter 88 b) SawDigit s'
      else underscores_from false SawStart s
  | _ => underscores_from false SawStart s
  end.

(** A literal without its sign: the value of the mantissa and a power of the base. *)
Definition parse_unsigned (s : bytes) : option float64 :=
  let '(base, s) :=
    match s with
    | a :: b :: c :: s' => if is_char 48 a && is_letter 88 b then (16, c :: s') else (10, s)
    | _ => (10, s)
    end in
  let '(n, scale, some, rest) := mantissa_digits base false false 0 0 s in
  if negb some then None
  else
    let value e := if base =? 16 then binary_normalize 53 1024 n (e - 4 * scale) false else decimal n (e - scale) in
    match rest with
    | [] => if base =? 16 then None else Some (value 0)
    | c :: rest =>
        if is_letter (if base =? 16 then 80 else 69) c then
          match signed_exponent rest with
          | Some (e, []) => Some (value e)
          | _ => None
          end
        else None
    end.

(** [strconv.ParseFloat(text, 64)] with a finite result; [None] for an error
    (malformed or out of range), an infinity or a NaN. *)
Definition ParseFinite (text : string) : option float64 :=
  let s := String.list_ascii_of_string text in
  if existsb (is_char 95) s && negb (underscoreOK s) then None
  else
    let '(negative, s) := numeral_sign s in
    match parse_unsigned s with
    | Some x => if f_is_inf x || f_is_nan x then None else Some (if negative then f_neg x else x)
    | None => None
    end.

Example ParseFinite_ex :
  map ParseFinite ["1.5"; "-.5e+1"; "1_2.5"; "_1"; "0x1.8p1"; "0x1"; "1e400"; "Inf"; "nan"; "1e-400"; "5."; "1e"]
  = [Some (float_of_decimal 15 (-1)); Some (float_of_Z (-5)); Some (float_of_decimal 125 (-1)); None;
     Some (float_of_Z 3); None; None; None; None; Some float_zero; Some (float_of_Z 5); None].
Proof. vm_compute. reflexivity. Qed.

(** ** [%.0f], [%.1f], [%.3f] *)

Definition digit_char (z : Z) : string := String (hex_digit (Z.to_N z)) EmptyString.

(** The last digits of a number. *)
Fixpoint last_digits (count : nat) (n : Z) : string :=
  match count with
  | O => ""
  | S count => last_digits count (n / 10) +:+ digit_char (n mod 10)
  end.

(** [n / 10 ^ decimals] with that many decimals. *)
Definition fixed_point (decimals : nat) (n : Z) : string :=
  Itoa (n / 10 ^ Z.of_nat decimals)
    +:+ match decimals with O => "" | _ => "." +:+ last_digits decimals n end.

(** The nearest integer to [n / 2 ^ k], halves to even. *)
Definition round_half_even (n k : Z) : Z :=
  let '(q, r) := Z.div_eucl n (2 ^ k) in
  match 2 * r ?= 2 ^ k with
  | Lt => q
  | Gt => q + 1
  | Eq => if Z.even q then q else q + 1
  end.

Definition format_f (decimals : nat) (x : float64) : string :=
  let signed (sign : bool) t := if sign then "-" +:+ t else t in
  let scale := 10 ^ Z.of_nat decimals in
  match x with
  | S754_nan => "NaN"
  | S754_infinity sign => if sign then "-Inf" else "+Inf"
  | S754_zero sign => signed sign (fixed_point decimals 0)
  | S754_finite sign m e =>
      signed sign (fixed_point decimals (if 0 <=? e then Z.shiftl (Z.pos m * scale) e
                                         else round_half_even (Z.pos m * scale) (- e)))
  end.

Definition format_f3 : float64 → string := format_f 3.

Example format_f3_ex :
  map format_f3 [float_of_decimal 12345 (-1); float_of_decimal (1) (-1); f_neg (float_of_decimal 5 (-4));
                 float_of_decimal 15625 (-7); S754_zero true]
  = ["1234.500"; "0.100"; "-0.001"; "0.002"; "-0.000"]
  ∧ map (format_f 1) [float_of_decimal 9725 (-2); float_of_Z 100] = ["97.2"; "100.0"]
  ∧ map (format_f 0) [float_of_decimal 915 (-1); float_of_decimal 25 (-1)] = ["92"; "2"].
Proof. vm_compute. done. Qed.

(** ** Lines and fields *)

(** [strings.Split] by one byte. *)
Fixpoint split_bytes (separator : Ascii.ascii) (field s : bytes) : list bytes :=
  match s with
  | [] => [rev field]
  | c :: s' => if Ascii.eqb c separator then rev field :: split_bytes separator [] s'
               else split_bytes separator (c :: field) s'
  end.

Definition Split (separator : Ascii.ascii) (text : string) : list string :=
  map String.string_of_list_ascii (split_bytes separator [] (String.list_ascii_of_string text)).

(** A trailing carriage return, dropped. *)
Definition drop_return (line : bytes) : bytes :=
  match last line with
  | Some c => if is_char 13 c then removelast line else line
  | None => line
  end.

(** What [Scan] finds of a text: the lines, up to the first one that does not
    fit into the buffer together with its newline ([None]). *)
Fixpoint fitting_lines (limit : nat) (lines : list bytes) : list (option string) :=
  match lines with
  | [] => []
  | line :: rest =>
      if (limit <=? length line)%nat then [None]
      else Some (String.string_of_list_ascii (drop_return line)) :: fitting_lines limit rest
  end.

Definition newline : Ascii.ascii := Ascii.ascii_of_N 10.
Definition tab : Ascii.ascii := Ascii.ascii_of_N 9.

(** The lines of a text; nothing comes after a final newline. *)
Definition text_lines (s : bytes) : list bytes :=
  let lines := split_bytes newline [] s in
  match last lines with
  | Some [] => removelast lines
  | _ => lines
  end.

(** [bufio.NewScanner] with a buffer of at most [limit] bytes. *)
Definition scanned_lines (limit : nat) (text : string) : list (option string) :=
  fitting_lines limit (text_lines (String.list_ascii_of_string text)).

(** [strings.TrimSuffix(line, "\r")] *)
Definition trim_return (line : string) : string :=
  String.string_of_list_ascii (drop_return (String.list_ascii_of_string line)).

Example scanned_ex :
  scanned_lines 3 ("a" +:+ String newline (String newline ("bc" +:+ String newline "def")))
  = [Some "a"; Some ""; Some "bc"; None].
Proof. vm_compute. reflexivity. Qed.

(** ** Facts *)

Lemma Atoi_in_int64 text z : Atoi text = Some z → in_int64 z.
Proof.
  unfold Atoi, in_int64. destruct (numeral_sign _) as [negative s].
  destruct (digits 0 0 s) as [[n count] [|c rest]]; [|done]. destruct (count =? 0); [done|].
  case_match eqn:E; [|done]. intros [= <-]. to_prop. lia.
Qed.

Lemma ParseFinite_finite text x : ParseFinite text = Some x → f_is_inf x = false ∧ f_is_nan x = false.
Proof.
  unfold ParseFinite. destruct (_ && _); [done|]. destruct (numeral_sign _) as [[] s];
    destruct (parse_unsigned s) as [y|]; try done; destruct (_ || _) eqn:E; try done; intros [= <-];
    by destruct y.
Qed.

(** ** Whole numbers as [float64] *)

Lemma digits_size p : digits2_pos p = Pos.size p.
Proof. induction p as [p IH|p IH|]; cbn; by rewrite ?IH. Qed.

Lemma size_iter_xO d p : Z.pos (Pos.size (Pos.iter xO p d)) = Z.pos (Pos.size p) + Z.pos d.
Proof. induction d as [|d IH] using Pos.peano_ind; [cbn; lia|]. rewrite Pos.iter_succ. cbn [Pos.size]. lia. Qed.

Lemma pos_iter_xO d p : Z.pos (Pos.iter xO p d) = Z.shiftl (Z.pos p) (Z.pos d).
Proof.
  rewrite Z.shiftl_mul_pow2 by lia. induction d as [|d IH] using Pos.peano_ind; [cbn; lia|].
  rewrite Pos.iter_succ, Pos2Z.inj_succ, Z.pow_succ_r by lia. lia.
Qed.

Lemma size_bound p k : Z.pos p < 2 ^ k → 0 ≤ k → Z.pos (Pos.size p) ≤ k.
Proof.
  intros Hp Hk. pose proof (Pos.size_le p) as H. apply Z.nlt_ge. intros Hlt.
  assert (2 ^ (k + 1) ≤ 2 ^ Z.pos (Pos.size p)) by (apply Z.pow_le_mono_r; lia).
  assert (2 ^ Z.pos (Pos.size p) ≤ Z.pos p~0) by (rewrite <- Pos2Z.inj_pow; lia).
  rewrite Z.pow_add_r in * by lia. lia.
Qed.

(** A mantissa of 53 bits is not rounded. *)
Lemma round_exact m e :
  Z.pos (digits2_pos m) = 53 → - 1074 ≤ e ≤ 971 → binary_round_aux 53 1024 false (Z.pos m) e loc_Exact = S754_finite false m e.
Proof.
  intros Hm He. unfold binary_round_aux, shr_fexp. cbn [Zdigits2]. rewrite Hm.
  assert (fexp 53 1024 (53 + e) - e = 0) as -> by (unfold fexp, emin; lia). cbn [shr shr_record_of_loc shr_m loc_of_shr_record round_nearest_even Zdigits2].
  rewrite Hm. assert (fexp 53 1024 (53 + e) - e = 0) as -> by (unfold fexp, emin; lia). cbn [shr shr_m].
  by rewrite (proj2 (Z.leb_le _ _)) by lia.
Qed.

(** The whole numbers below [2 ^ 53] are read back from a [float64]. *)
Lemma float_of_Z_exact z : 0 ≤ z < 2 ^ 53 →
  truncate (float_of_Z z) = z ∧ f_is_nan (float_of_Z z) = false ∧ f_is_inf (float_of_Z z) = false.
Proof.
  intros [H0 Hz]. destruct z as [|p|p]; [done| |lia]. unfold float_of_Z, binary_normalize, binary_round.
  pose proof (size_bound p 53 Hz ltac:(lia)) as Hsize. rewrite digits_size, Z.add_0_r.
  assert (fexp 53 1024 (Z.pos (Pos.size p)) = Z.pos (Pos.size p) - 53) as -> by (unfold fexp, emin; lia).
  unfold shl_align. destruct (Z.pos (Pos.size p) - 53 - 0) as [|d|d] eqn:Hd; [|lia|].
  - rewrite round_exact by (rewrite ?digits_size; lia). done.
  - rewrite round_exact by (rewrite ?digits_size, ?size_iter_xO; lia). split; [|done]. unfold truncate.
    rewrite (proj2 (Z.leb_gt _ _)) by lia. rewrite pos_iter_xO, Z.shiftr_shiftl_l by lia.
    replace (Z.pos d - - (Z.pos (Pos.size p) - 53)) with 0 by lia. apply Z.shiftl_0_r.
Qed.
