(* ===== verification/GoSha256.v ===== *)
(** * SHA-256 and hexadecimal digits

    crypto/sha256 (FIPS 180-4) and hex.EncodeToString of the Go standard
    library, on strings of bytes.  Words are integers modulo 2^32. *)

From S2P Require Import Prelude GoRuntime.
From Stdlib Require Import Ascii.
From stdpp Require Import options.

Module Sha256.

Definition wrap32 (x : Z) : Z := x mod 2 ^ 32.
Definition add32 (x y : Z) : Z := wrap32 (x + y).
Definition rotr (x n : Z) : Z := Z.lor (Z.shiftr x n) (wrap32 (Z.shiftl x (32 - n))).
Definition not32 (x : Z) : Z := Z.lxor x (2 ^ 32 - 1).

Definition ch (x y z : Z) : Z := Z.lxor (Z.land x y) (Z.land (not32 x) z).
Definition maj (x y z : Z) : Z := Z.lxor (Z.lxor (Z.land x y) (Z.land x z)) (Z.land y z).
Definition bsig0 (x : Z) : Z := Z.lxor (Z.lxor (rotr x 2) (rotr x 13)) (rotr x 22).
Definition bsig1 (x : Z) : Z := Z.lxor (Z.lxor (rotr x 6) (rotr x 11)) (rotr x 25).
Definition ssig0 (x : Z) : Z := Z.lxor (Z.lxor (rotr x 7) (rotr x 18)) (Z.shiftr x 3).
Definition ssig1 (x : Z) : Z := Z.lxor (Z.lxor (rotr x 17) (rotr x 19)) (Z.shiftr x 10).

(** The constants are the first 32 bits of the fractional parts of the cube
    roots and of the square roots of the first primes. *)
Definition is_prime (n : nat) : bool :=
  (1 <? n)%nat && forallb (λ k, negb (n mod k =? 0)%nat) (seq 2 (n - 2)).
Definition primes : list Z := Z.of_nat <$> select is_prime (seq 2 310).

(** The cube root rounded down, one bit at a time. *)
Fixpoint cube_root (bits : nat) (root n : Z) : Z :=
  match bits with
  | O => root
  | S bits' =>
      let next := root + 2 ^ Z.of_nat bits' in
      cube_root bits' (if next * next * next <=? n then next else root) n
  end.

Definition round_constants : list Z :=
  Eval vm_compute in map (λ p, wrap32 (cube_root 36 0 (Z.shiftl p 96))) primes.

Definition initial_words : list Z :=
  Eval vm_compute in map (λ p, wrap32 (Z.sqrt (Z.shiftl p 64))) (take 8 primes).

Example round_constants_64 : length round_constants = 64%nat.
Proof. reflexivity. Qed.

Record state : Set := mkState { a : Z; b : Z; c : Z; d : Z; e : Z; f : Z; g : Z; h : Z }.

Definition initial : state :=
  let w i := nth i initial_words 0 in mkState (w 0%nat) (w 1%nat) (w 2%nat) (w 3%nat) (w 4%nat) (w 5%nat) (w 6%nat) (w 7%nat).

Definition round (s : state) (kw : Z * Z) : state :=
  let t1 := wrap32 (h s + bsig1 (e s) + ch (e s) (f s) (g s) + kw.1 + kw.2) in
  let t2 := add32 (bsig0 (a s)) (maj (a s) (b s) (c s)) in
  mkState (add32 t1 t2) (a s) (b s) (c s) (add32 (d s) t1) (e s) (f s) (g s).

(** The message schedule; the last sixteen words, the newest first. *)
Fixpoint schedule (n : nat) (window : list Z) : list Z :=
  match n with
  | O => []
  | S n' =>
      let w := wrap32 (ssig1 (nth 1 window 0) + nth 6 window 0 + ssig0 (nth 14 window 0) + nth 15 window 0) in
      w :: schedule n' (w :: window)
  end.

Definition compress (s : state) (block : list Z) : state :=
  let s' := foldl round s (zip round_constants (block ++ schedule 48 (rev block))) in
  mkState (add32 (a s) (a s')) (add32 (b s) (b s')) (add32 (c s) (c s')) (add32 (d s) (d s'))
    (add32 (e s) (e s')) (add32 (f s) (f s')) (add32 (g s) (g s')) (add32 (h s) (h s')).

(** Bytes to big-endian words, sixteen to a block; the length of a padded
    message is a multiple of 64. *)
Fixpoint words (bytes : list Z) : list Z :=
  match bytes with
  | b0 :: b1 :: b2 :: b3 :: rest => (b0 * 2 ^ 24 + b1 * 2 ^ 16 + b2 * 2 ^ 8 + b3) :: words rest
  | _ => []
  end.

Fixpoint compress_all (fuel : nat) (s : state) (ws : list Z) : state :=
  match fuel, ws with
  | O, _ | _, [] => s
  | S fuel', _ => compress_all fuel' (compress s (take 16 ws)) (drop 16 ws)
  end.

Definition word_bytes (w : Z) : list Z :=
  [w / 2 ^ 24 mod 256; w / 2 ^ 16 mod 256; w / 2 ^ 8 mod 256; w mod 256].

Definition padding (length : Z) : list Z :=
  128 :: replicate (Z.to_nat ((55 - length) mod 64)) 0
    ++ word_bytes (wrap32 (length * 8 / 2 ^ 32)) ++ word_bytes (wrap32 (length * 8)).

Definition bytes_of (text : string) : list Z :=
  map (λ x, Z.of_N (Ascii.N_of_ascii x)) (String.list_ascii_of_string text).

(** [sha256.Sum256([]byte(text))]: one round of fuel per block suffices, and
    there are fewer blocks than words. *)
Definition Sum256 (text : string) : list Z :=
  let bytes := bytes_of text in
  let ws := words (bytes ++ padding (Z.of_nat (length bytes))) in
  let s := compress_all (length ws) initial ws in
  concat (map word_bytes [a s; b s; c s; d s; e s; f s; g s; h s]).

End Sha256.

(** [hex.EncodeToString]: two lower-case digits a byte. *)
Definition hex_byte (x : Z) : string :=
  String (hex_digit (Z.to_N (x / 16 mod 16))) (String (hex_digit (Z.to_N (x mod 16))) EmptyString).

Definition EncodeToString (bytes : list Z) : string := String.concat "" (map hex_byte bytes).

Definition sha256_hex (text : string) : string := EncodeToString (Sha256.Sum256 text).

Example sha256_abc :
  sha256_hex "abc" = "ba7816bf8f01cfea414140de5dae2223b00361a396177a9cb410ff61f20015ad".
Proof. vm_compute. reflexivity. Qed.

Example sha256_empty :
  sha256_hex "" = "e3b0c44298fc1c149afbf4c8996fb92427ae41e4649b934ca495991b7852b855".
Proof. vm_compute. reflexivity. Qed.

(** Two blocks. *)
Example sha256_two_blocks :
  sha256_hex "abcdbcdecdefdefgefghfghighijhijkijkljklmklmnlmnomnopnopq"
  = "248d6a61d20638b8e5c026930c3e6039a33ce45964ff2167f6ecedd419db06c1".
Proof. vm_compute. reflexivity. Qed.
