(* ===== verification/GoNet.v ===== *)
(** * Network addresses

    Package net/netip: parsing of addresses and prefixes, and the classes of
    addresses that the program tells apart.  An address is its number, in 32 or
    128 bits; an IPv6 address can carry a zone. *)

From S2P Require Import Prelude GoRuntime GoStrings GoJson GoStrconv.
From stdpp Require Import options.

Inductive Addr : Set :=
  | IPv4 (n : Z)
  | IPv6 (n : Z) (zone : string).

#[global] Instance Addr_eq_dec : EqDecision Addr.
Proof. solve_decision. Defined.

(** ** Parsing *)

(** One octet: digits, no leading zero, at most 255. *)
Definition octet (field : bytes) : option Z :=
  match mapM digit field with
  | None | Some [] => None
  | Some [d] => Some d
  | Some (0 :: _) => None
  | Some ds => let n := foldl (λ acc d, acc * 10 + d) 0 ds in if n <=? 255 then Some n else None
  end.

Definition parse_ipv4 (s : bytes) : option Z :=
  match mapM octet (split_bytes (Ascii.ascii_of_N 46) [] s) with
  | Some [a; b; c; d] => Some (a * 2 ^ 24 + b * 2 ^ 16 + c * 2 ^ 8 + d)
  | _ => None
  end.

(** The hexadecimal digits at the start, and the rest. *)
Fixpoint hex_prefix (s : bytes) : list Z * bytes :=
  match s with
  | c :: s' =>
      match hex_value c with
      | Some d => let '(ds, rest) := hex_prefix s' in (Z.of_N d :: ds, rest)
      | None => ([], s)
      end
  | [] => ([], [])
  end.

Definition group_value (ds : list Z) : Z := foldl (λ acc d, acc * 16 + d) 0 ds.

(** The groups of 16 bits, with the place of the ellipsis; at most [left] more. *)
Fixpoint v6_groups (left_ : nat) (groups : list Z) (ellipsis : option nat) (s : bytes)
    : option (list Z * option nat) :=
  match left_ with
  | O => match s with [] => Some (groups, ellipsis) | _ => None end
  | S left_ =>
      let '(ds, rest) := hex_prefix s in
      if (4 <? length ds)%nat || (length ds =? 0)%nat then None
      else
        let groups' := groups ++ [group_value ds] in
        match rest with
        | [] => Some (groups', ellipsis)
        | c :: rest =>
            if is_char 46 c then
              if is_nil ellipsis && negb (length groups =? 6)%nat || (6 <? length groups)%nat then None
              else
                match parse_ipv4 s with
                | Some n => Some (groups ++ [n / 2 ^ 16; n mod 2 ^ 16], ellipsis)
                | None => None
                end
            else if is_char 58 c then
              match rest with
              | [] => None
              | d :: rest' =>
                  if is_char 58 d then
                    if negb (is_nil ellipsis) then None
                    else
                      match rest' with
                      | [] => Some (groups', Some (length groups'))
                      | _ => v6_groups left_ groups' (Some (length groups')) rest'
                      end
                  else v6_groups left_ groups' ellipsis rest
              end
            else None
        end
  end.

(** The ellipsis stands for one group of zeros at least. *)
Definition expand_groups (groups : list Z) (ellipsis : option nat) : option (list Z) :=
  if (length groups <? 8)%nat then
    match ellipsis with
    | None => None
    | Some at_ => Some (take at_ groups ++ replicate (8 - length groups) 0 ++ drop at_ groups)
    end
  else if is_nil ellipsis then Some groups else None.

Definition v6_number (groups : list Z) : Z := foldl (λ acc g, acc * 2 ^ 16 + g) 0 groups.

(** The text before the first byte [n], and after it if there is one. *)
Fixpoint cut_at (n : N) (s : bytes) : bytes * option bytes :=
  match s with
  | [] => ([], None)
  | c :: s' => if is_char n c then ([], Some s') else let '(a, b) := cut_at n s' in (c :: a, b)
  end.

Definition parse_ipv6 (s : bytes) : option Addr :=
  let '(s, zone) := cut_at 37 s in
  match zone with
  | Some [] => None
  | _ =>
      let zone := default "" (String.string_of_list_ascii <$> zone) in
      let '(ellipsis, s) :=
        match s with
        | c :: d :: s' => if is_char 58 c && is_char 58 d then (Some 0%nat, s') else (None, s)
        | _ => (None, s)
        end in
      match ellipsis, s with
      | Some _, [] => Some (IPv6 0 zone)
      | _, _ =>
          match v6_groups 8 [] ellipsis s with
          | None => None
          | Some (groups, ellipsis) => (λ groups, IPv6 (v6_number groups) zone) <$> expand_groups groups ellipsis
          end
      end
  end.

(** The first of a point, a colon and a percent sign decides. *)
Fixpoint address_kind (s : bytes) : option bool :=
  match s with
  | [] => None
  | c :: s' =>
      if is_char 46 c then Some true else if is_char 58 c then Some false
      else if is_char 37 c then None else address_kind s'
  end.

Definition ParseAddr (text : string) : option Addr :=
  let s := String.list_ascii_of_string text in
  match address_kind s with
  | Some true => IPv4 <$> parse_ipv4 s
  | Some false => parse_ipv6 s
  | None => None
  end.

(** ** Classes *)

(** An IPv4 address inside of IPv6 is the IPv4 address. *)
Definition Unmap (address : Addr) : Addr :=
  match address with
  | IPv6 n _ => if n / 2 ^ 32 =? 65535 then IPv4 (n mod 2 ^ 32) else address
  | IPv4 _ => address
  end.

Definition Is6 (address : Addr) : bool := match address with IPv6 _ _ => true | IPv4 _ => false end.

Definition IsLoopback (address : Addr) : bool :=
  match address with IPv4 n => n / 2 ^ 24 =? 127 | IPv6 n _ => n =? 1 end.

Definition IsMulticast (address : Addr) : bool :=
  match address with IPv4 n => n / 2 ^ 28 =? 14 | IPv6 n _ => n / 2 ^ 120 =? 255 end.

Definition IsLinkLocalUnicast (address : Addr) : bool :=
  match address with IPv4 n => n / 2 ^ 16 =? 43518 | IPv6 n _ => n / 2 ^ 118 =? 1018 end.

Definition IsGlobalUnicast (address : Addr) : bool :=
  match address with
  | IPv4 n => negb (n =? 0) && negb (n =? 2 ^ 32 - 1)
  | IPv6 n zone => negb ((n =? 0) && (zone =s= ""))
  end && negb (IsLoopback address) && negb (IsMulticast address) && negb (IsLinkLocalUnicast address).

(** ** Prefixes *)

Record Prefix : Set := mkPrefix { prefix_addr : Addr; prefix_bits : Z }.

(** A prefix has no zone, and contains no address with one. *)
Definition Contains (p : Prefix) (address : Addr) : bool :=
  match prefix_addr p, address with
  | IPv4 a, IPv4 n => a / 2 ^ (32 - prefix_bits p) =? n / 2 ^ (32 - prefix_bits p)
  | IPv6 a _, IPv6 n zone => (zone =s= "") && (a / 2 ^ (128 - prefix_bits p) =? n / 2 ^ (128 - prefix_bits p))
  | _, _ => false
  end.

Definition ParsePrefix (text : string) : option Prefix :=
  let '(address, size) := cut_at 47 (String.list_ascii_of_string text) in
  match ParseAddr (String.string_of_list_ascii address), size ≫= λ size, Atoi (String.string_of_list_ascii size) with
  | Some (IPv6 n zone), Some size =>
      if (zone =s= "") && (0 <=? size) && (size <=? 128) then Some (mkPrefix (IPv6 n "") size) else None
  | Some (IPv4 n), Some size => if (0 <=? size) && (size <=? 32) then Some (mkPrefix (IPv4 n) size) else None
  | _, _ => None
  end.

Example ParseAddr_ex :
  map ParseAddr ["10.0.0.1"; "1.2.3"; "01.2.3.4"; "256.1.1.1"; "::1"; "fe80::1%eth0"; "::ffff:10.1.2.3"; "1::2::3";
                 "2001:db8::"; "1:2:3:4:5:6:7:8"; "1:2:3:4:5:6:7"; "1:2:3:4:5:6:7::"; "1:2:3:4:5:6:7:8::"; "12345::"; "example.org"]
  = [Some (IPv4 167772161); None; None; None; Some (IPv6 1 ""); Some (IPv6 (65152 * 2 ^ 112 + 1) "eth0");
     Some (IPv6 (65535 * 2 ^ 32 + 167838211) ""); None; Some (IPv6 (8193 * 2 ^ 112 + 3512 * 2 ^ 96) "");
     Some (IPv6 5192455318486707404433266433261576 ""); None; Some (IPv6 5192455318486707404433266433261568 ""); None; None; None].
Proof. vm_compute. reflexivity. Qed.

(** ** Bytes *)

Definition bytes_number (bs : list Z) : Z := foldl (λ acc b, acc * 256 + b) 0 bs.

(** [netip.AddrFromSlice] *)
Definition AddrFromSlice (ip : list Z) : option Addr :=
  if (length ip =? 4)%nat then Some (IPv4 (bytes_number ip))
  else if (length ip =? 16)%nat then Some (IPv6 (bytes_number ip) "") else None.

(** ** Addresses: [net.SplitHostPort] and [net.JoinHostPort] *)

Definition is_byte (n : N) (c : Ascii.ascii) : bool := (byte_of c =? n)%N.
Definition has_byte (n : N) (s : bytes) : bool := existsb (is_byte n) s.

(** The bytes before the first occurrence of a byte, and after it. *)
Fixpoint cut (n : N) (s : bytes) : option (bytes * bytes) :=
  match s with
  | [] => None
  | c :: s' => if is_byte n c then Some ([], s')
               else match cut n s' with Some (a, b) => Some (c :: a, b) | None => None end
  end.

(** The same at the last occurrence. *)
Definition cut_last (n : N) (s : bytes) : option (bytes * bytes) :=
  match cut n (rev s) with Some (b, a) => Some (rev a, rev b) | None => None end.

(** Host and port; brackets around the host are dropped ([58] is the colon, [91]
    and [93] are the brackets). *)
Definition split_host_port (s : bytes) : option (bytes * bytes) :=
  match cut_last 58 s with
  | None => None
  | Some (before, port) =>
      match s with
      | c :: s' =>
          if is_byte 91 c then
            match cut 93 s' with
            | None => None
            | Some (host, after) =>
                match after with
                | [] => None
                | d :: rest =>
                    if is_byte 58 d && negb (has_byte 58 rest) then
                      if has_byte 91 s' || has_byte 93 after then None else Some (host, port)
                    else None
                end
            end
          else if has_byte 58 before then None
          else if has_byte 91 s || has_byte 93 s then None
          else Some (before, port)
      | [] => None
      end
  end.

Definition join_host_port (host port : string) : string :=
  if has_byte 58 (String.list_ascii_of_string host) then "[" +:+ host +:+ "]:" +:+ port
  else host +:+ ":" +:+ port.

(** * Statuses of HTTP

    The constants of package net/http that the program uses. *)

Definition StatusOK : Z := 200.
Definition StatusCreated : Z := 201.
Definition StatusAccepted : Z := 202.
Definition StatusNoContent : Z := 204.
Definition StatusBadRequest : Z := 400.
Definition StatusUnauthorized : Z := 401.
Definition StatusForbidden : Z := 403.
Definition StatusNotFound : Z := 404.
Definition StatusConflict : Z := 409.
Definition StatusRequestEntityTooLarge : Z := 413.
Definition StatusInternalServerError : Z := 500.
Definition StatusServiceUnavailable : Z := 503.
