(* ===== verification/GoRange.v ===== *)
(** * Map iteration and sorting

    The runtime is free to visit the entries of a map in any order, and
    [sort.Slice] to leave equivalent elements in any order.  Both are the
    methods of a class whose laws say what Go promises, so that every
    definition that ranges over a map or sorts a slice is stated for every
    behaviour of the runtime, and [reference_runtime] computes one. *)

From S2P Require Import Prelude GoRuntime.
From stdpp Require Import options.

(** ** Strict weak orders, the contract of a [less] function *)

Record strict_weak {A} (less : A → A → bool) : Prop := {
  sw_irrefl x : less x x = false;
  sw_trans x y z : less x y = true → less y z = true → less x z = true;
  sw_split x y z : less x z = true → less x y = true ∨ less y z = true;
}.

(** [y] need not come before [x]. *)
Definition not_after {A} (less : A → A → bool) (x y : A) : Prop := less y x = false.

Section strict_weak.
Context {A : Type} (less : A → A → bool) (Hless : strict_weak less).

Lemma sw_asym x y : less x y = true → less y x = false.
Proof using Hless.
  intros Hxy. destruct (less y x) eqn:Hyx; [|done].
  rewrite <- (sw_irrefl _ Hless x). symmetry. by eapply (sw_trans _ Hless).
Qed.

Lemma not_after_trans x y z : not_after less x y → not_after less y z → not_after less x z.
Proof using Hless.
  unfold not_after. intros Hyx Hzy. destruct (less z x) eqn:Hzx; [|done].
  destruct (sw_split _ Hless z y x Hzx); congruence.
Qed.

Lemma not_after_total x y : not_after less x y ∨ not_after less y x.
Proof using Hless.
  unfold not_after. destruct (less y x) eqn:E; [|by left]. right. by apply sw_asym.
Qed.
End strict_weak.

(** The orders the program sorts by. *)
Definition by_Z {A} (key : A → Z) (x y : A) : bool := key x <? key y.
Definition by_string {A} (key : A → string) (x y : A) : bool := string_lt (key x) (key y).

(** First by an integer key, ties broken by a second order. *)
Definition by_Z_then {A} (key : A → Z) (tie : A → A → bool) (x y : A) : bool :=
  if key x =? key y then tie x y else key x <? key y.

Definition reversed {A} (less : A → A → bool) (x y : A) : bool := less y x.

Lemma by_Z_weak {A} (key : A → Z) : strict_weak (by_Z key).
Proof. split; unfold by_Z; intros; lia. Qed.

Lemma by_string_weak {A} (key : A → string) : strict_weak (by_string key).
Proof.
  split; unfold by_string; intros.
  - apply string_lt_irrefl.
  - by eapply string_lt_trans.
  - destruct (string_lt (key x) (key y)) eqn:Exy; [by left|].
    destruct (string_lt (key y) (key z)) eqn:Eyz; [by right|]. exfalso.
    destruct (string_lt (key y) (key x)) eqn:Eyx.
    + rewrite (string_lt_trans _ _ _ Eyx H) in Eyz. done.
    + rewrite (string_lt_total _ _ Exy Eyx) in H. congruence.
Qed.

Lemma by_Z_then_weak {A} (key : A → Z) tie : strict_weak tie → strict_weak (by_Z_then key tie).
Proof.
  intros [I T S]. split; unfold by_Z_then; intros *.
  - by rewrite Z.eqb_refl.
  - destruct (Z.eqb_spec (key x) (key y)), (Z.eqb_spec (key y) (key z)),
      (Z.eqb_spec (key x) (key z)); intros; eauto; lia.
  - destruct (Z.eqb_spec (key x) (key y)), (Z.eqb_spec (key y) (key z)),
      (Z.eqb_spec (key x) (key z)); intros; eauto; lia.
Qed.

Lemma reversed_weak {A} (less : A → A → bool) : strict_weak less → strict_weak (reversed less).
Proof.
  intros [I T S]. split; unfold reversed; intros; eauto.
  destruct (S z y x H); auto.
Qed.

#[export] Hint Resolve by_Z_weak by_string_weak by_Z_then_weak reversed_weak : go.

(** ** The runtime *)

Class Runtime := {
  (** The wording of the error of decoding a text into a struct. *)
  json_struct_error : string → string;
  map_range {V : Type} : gmap string V → list (string * V);
  map_range_perm {V : Type} (m : gmap string V) : map_range m ≡ₚ map_to_list m;
  sort_slice {A : Type} : (A → A → bool) → list A → list A;
  sort_slice_perm {A : Type} (less : A → A → bool) l : sort_slice less l ≡ₚ l;
  sort_slice_sorted {A : Type} (less : A → A → bool) l :
    strict_weak less → StronglySorted (not_after less) (sort_slice less l);
}.

#[global] Instance not_after_dec {A} (less : A → A → bool) : RelDecision (not_after less).
Proof. unfold not_after. intros x y. apply _. Defined.

(** A runtime that visits maps in the order of their representation and
    sorts by merging. *)
Definition reference_sort {A} (less : A → A → bool) (l : list A) : list A :=
  merge_sort (not_after less) l.

Lemma reference_sort_sorted {A} (less : A → A → bool) l :
  strict_weak less → StronglySorted (not_after less) (reference_sort less l).
Proof.
  intros Hless. assert (Transitive (not_after less)).
  { intros x y z. by apply not_after_trans. }
  assert (Total (not_after less)).
  { intros x y. by apply not_after_total. }
  by apply StronglySorted_merge_sort.
Qed.

Definition reference_runtime : Runtime := {|
  json_struct_error _ := "json";
  map_range _ m := map_to_list m;
  map_range_perm _ _ := reflexivity _;
  sort_slice _ less l := reference_sort less l;
  sort_slice_perm _ less l := merge_sort_Permutation (not_after less) l;
  sort_slice_sorted _ less l := reference_sort_sorted less l;
|}.

(** ** The loop idioms of the program *)

(** [var best *T; for ... { if best == nil || better(x, best) { best = &x } }] *)
Definition scan_step {A} (better : A → A → bool) (best : option A) (x : A) : option A :=
  match best with
  | None => Some x
  | Some b => if better x b then Some x else best
  end.

Definition scan_best {A} (better : A → A → bool) (l : list A) : option A :=
  foldl (scan_step better) None l.

Section range.
Context {RT : Runtime}.

(** The values of a map, in the order the runtime visits them. *)
Definition range_values {V} (m : gmap string V) : list V := (map_range m).*2.

Lemma elem_of_range {V} (m : gmap string V) k v : (k, v) ∈ map_range m ↔ m !! k = Some v.
Proof. rewrite map_range_perm. apply elem_of_map_to_list. Qed.

Lemma NoDup_range {V} (m : gmap string V) : NoDup (map_range m).*1.
Proof. rewrite map_range_perm. apply NoDup_fst_map_to_list. Qed.

Lemma elem_of_range_values {V} (m : gmap string V) v : v ∈ range_values m ↔ ∃ k, m !! k = Some v.
Proof.
  unfold range_values. rewrite list_elem_of_fmap. split.
  - intros [[k v'] [-> H]]. exists k. by apply elem_of_range.
  - intros [k H]. exists (k, v). split; [done|]. by apply elem_of_range.
Qed.

Lemma length_range_values {V} (m : gmap string V) : length (range_values m) = size m.
Proof. unfold range_values. by rewrite length_fmap, map_range_perm, length_map_to_list. Qed.

(** [for _, x := range m { if P(x) { return true } }; return false] *)
Definition range_any {V} (P : V → bool) (m : gmap string V) : bool := existsb P (range_values m).

Lemma range_any_true {V} P (m : gmap string V) :
  range_any P m = true ↔ ∃ k v, m !! k = Some v ∧ P v = true.
Proof.
  unfold range_any. rewrite existsb_elem. split.
  - intros [v [[k Hk]%elem_of_range_values HP]]. eauto.
  - intros (k & v & Hk & HP). exists v. split; [|done]. apply elem_of_range_values. eauto.
Qed.

Lemma range_any_false {V} P (m : gmap string V) :
  range_any P m = false ↔ ∀ k v, m !! k = Some v → P v = false.
Proof.
  rewrite <- not_true_iff_false, range_any_true. split.
  - intros Hn k v Hk. destruct (P v) eqn:E; [|done]. exfalso. eauto 10.
  - intros H (k & v & Hk & HP). by rewrite (H k v Hk) in HP.
Qed.

(** [for k, x := range m { if !P(x) { continue }; m[k] = f(x) }]: the loop
    writes only keys that exist, so every entry is visited once, with the
    value it had at the start. *)
Definition range_update {V} (P : V → bool) (f : V → V) (m : gmap string V) : gmap string V :=
  foldl (λ acc '(k, v), if P v then <[k := f v]> acc else acc) m (map_range m).

Lemma foldl_update_lookup {V} (P : V → bool) (f : V → V) (l : list (string * V)) acc k :
  NoDup l.*1 →
  foldl (λ acc '(k, v), if P v then <[k := f v]> acc else acc) acc l !! k =
    match (list_to_map l : gmap string V) !! k with
    | Some v => if P v then Some (f v) else acc !! k
    | None => (acc : gmap string V) !! k
    end.
Proof.
  revert acc. induction l as [|[k' v'] l IH]; intros acc Hnd; [by cbn; rewrite lookup_empty|].
  cbn in Hnd |- *. apply NoDup_cons in Hnd as [Hk' Hnd]. rewrite (IH _ Hnd). clear IH.
  destruct (decide (k = k')) as [->|Hne].
  - rewrite lookup_insert_eq. apply not_elem_of_list_to_map_1 in Hk'. rewrite Hk'.
    destruct (P v'); [by rewrite lookup_insert_eq|done].
  - rewrite lookup_insert_ne by done.
    destruct (P v'); rewrite ?lookup_insert_ne by done; done.
Qed.

Lemma lookup_range_update {V} (P : V → bool) (f : V → V) (m : gmap string V) k :
  range_update P f m !! k = (λ v, if P v then f v else v) <$> m !! k.
Proof.
  unfold range_update. rewrite foldl_update_lookup by apply NoDup_range.
  assert ((list_to_map (map_range m) : gmap string V) = m) as ->.
  { rewrite <- (list_to_map_to_list m) at 2. apply list_to_map_proper; [apply NoDup_range|].
    apply map_range_perm. }
  destruct (m !! k) as [v|] eqn:E; cbn; [|done]. by destruct (P v).
Qed.

(** [for k, x := range m { if P(x) { delete(m, k) } }] *)
Definition range_delete {V} (P : V → bool) (m : gmap string V) : gmap string V :=
  foldl (λ acc '(k, v), if P v then delete k acc else acc) m (map_range m).

Lemma foldl_delete_lookup {V} (P : V → bool) (l : list (string * V)) (acc : gmap string V) k :
  foldl (λ acc '(k, v), if P v then delete k acc else acc) acc l !! k =
    if existsb (λ '(k', v), String.eqb k k' && P v) l then None else acc !! k.
Proof.
  revert acc. induction l as [|[k' v'] l IH]; intros acc; cbn; [done|]. rewrite IH.
  destruct (String.eqb_spec k k') as [->|Hne]; cbn.
  - destruct (P v'); cbn; [|done]. rewrite lookup_delete_eq. by case_match.
  - destruct (existsb _ l); [done|]. destruct (P v'); [by rewrite lookup_delete_ne|done].
Qed.

Lemma lookup_range_delete {V} (P : V → bool) (m : gmap string V) k :
  range_delete P m !! k = match m !! k with Some v => if P v then None else Some v | None => None end.
Proof.
  unfold range_delete. rewrite foldl_delete_lookup.
  destruct (existsb _ _) eqn:E.
  - apply existsb_elem in E as [[k' v] [Hin HP]]. apply andb_true_iff in HP as [Hk HP].
    apply String.eqb_eq in Hk as <-. apply elem_of_range in Hin. by rewrite Hin, HP.
  - destruct (m !! k) as [v|] eqn:Hk; [|done]. destruct (P v) eqn:HP; [|done].
    rewrite existsb_none in E. specialize (E (k, v)).
    rewrite elem_of_range, String.eqb_refl, HP in E. specialize (E Hk). done.
Qed.
End range.

(** ** Stable sorting

    [sort.SliceStable] leaves equivalent elements in their order, so its result
    is determined: every element goes before the first one that it is not after. *)
Fixpoint stable_insert {A} (less : A → A → bool) (x : A) (l : list A) : list A :=
  match l with
  | [] => [x]
  | y :: l' => if less y x then y :: stable_insert less x l' else x :: l
  end.

Definition stable_sort {A} (less : A → A → bool) (l : list A) : list A := foldr (stable_insert less) [] l.

Lemma stable_insert_perm {A} (less : A → A → bool) x l : stable_insert less x l ≡ₚ x :: l.
Proof.
  induction l as [|y l IH]; cbn; [done|]. destruct (less y x); [|done]. rewrite IH. apply Permutation_swap.
Qed.

Lemma stable_sort_perm {A} (less : A → A → bool) l : stable_sort less l ≡ₚ l.
Proof. induction l as [|x l IH]; cbn; [done|]. by rewrite stable_insert_perm, IH. Qed.

Lemma stable_insert_sorted {A} (less : A → A → bool) x l :
  strict_weak less → StronglySorted (not_after less) l → StronglySorted (not_after less) (stable_insert less x l).
Proof.
  intros Hless. induction 1 as [|y l Hl IH Hy]; cbn; [by repeat constructor|]. destruct (less y x) eqn:Hyx.
  - constructor; [done|]. rewrite stable_insert_perm. constructor; [|done]. by apply sw_asym.
  - constructor; [by constructor|]. constructor; [done|]. rewrite Forall_forall in *. intros z Hz.
    by eapply not_after_trans; [| |apply Hy].
Qed.

Lemma stable_sort_sorted {A} (less : A → A → bool) l :
  strict_weak less → StronglySorted (not_after less) (stable_sort less l).
Proof. intros Hless. induction l as [|x l IH]; cbn; [constructor|]. by apply stable_insert_sorted. Qed.

(** ** Correctness of the scan *)

Section scan.
Context {A : Type} (better : A → A → bool) (Hbetter : strict_weak better).

Lemma scan_from b l :
  ∃ r, foldl (scan_step better) (Some b) l = Some r ∧ r ∈ b :: l ∧
       ∀ x, x ∈ b :: l → better x r = false.
Proof using Hbetter.
  revert b. induction l as [|y l IH]; intros b; cbn.
  - exists b. split; [done|]. split; [by left|]. intros x.
    rewrite list_elem_of_singleton. intros ->. apply (sw_irrefl _ Hbetter).
  - destruct (better y b) eqn:E.
    + destruct (IH y) as (r & Hr & Hin & Hmax). exists r. split; [done|].
      split; [by right|]. intros x [->|Hx]%elem_of_cons; [|auto].
      apply (not_after_trans _ Hbetter r y b); [|by apply sw_asym].
      apply Hmax. by left.
    + destruct (IH b) as (r & Hr & Hin & Hmax). exists r. split; [done|].
      assert (not_after better r b) as Hrb by (apply Hmax; by left).
      split; [rewrite !elem_of_cons in *; tauto|]. intros x.
      rewrite !elem_of_cons. intros [->|[->|Hx]]; [done| |apply Hmax; by right].
      by apply (not_after_trans _ Hbetter r b y).
Qed.

Lemma scan_best_Some l r :
  scan_best better l = Some r → r ∈ l ∧ ∀ x, x ∈ l → better x r = false.
Proof using Hbetter.
  unfold scan_best. destruct l as [|b l]; [done|]. cbn. intros H.
  destruct (scan_from b l) as (r' & Hr' & ?). rewrite H in Hr'. by simplify_eq.
Qed.

Lemma scan_best_None l : scan_best better l = None ↔ l = [].
Proof using Hbetter.
  split; [|by intros ->]. unfold scan_best. destruct l as [|b l]; [done|]. cbn.
  destruct (scan_from b l) as (r & -> & _). done.
Qed.

(** When ties are equal elements the result does not depend on the order. *)
Lemma scan_best_perm l l' :
  (∀ x y, x ∈ l → y ∈ l → better x y = false → better y x = false → x = y) →
  l ≡ₚ l' → scan_best better l = scan_best better l'.
Proof using Hbetter.
  intros Htie Hl. destruct (scan_best better l) as [r|] eqn:E.
  - destruct (scan_best better l') as [r'|] eqn:E'.
    + apply scan_best_Some in E as [Hr Hmax], E' as [Hr' Hmax'].
      f_equal. apply Htie; [done|by rewrite Hl| |].
      * apply Hmax'. by rewrite <- Hl.
      * apply Hmax. by rewrite Hl.
    + apply scan_best_None in E' as ->. apply Permutation_nil_r in Hl. by subst l.
  - apply scan_best_None in E as ->. apply Permutation_nil_l in Hl. by subst l'.
Qed.
End scan.

(** ** Sorting *)

Section sort.
Context {RT : Runtime}.

Lemma elem_of_sort_slice {A} (less : A → A → bool) l x : x ∈ sort_slice less l ↔ x ∈ l.
Proof. by rewrite sort_slice_perm. Qed.

(** [sort.Strings] *)
Definition sort_strings (l : list string) : list string := sort_slice (by_string id) l.

(** On a set of strings the order of the input does not show. *)
Lemma sort_strings_perm l l' : l ≡ₚ l' → sort_strings l = sort_strings l'.
Proof.
  intros Hl. unfold sort_strings.
  assert (AntiSymm (=) (not_after (by_string (@id string)))).
  { intros x y. unfold not_after, by_string, id. intros. by apply string_lt_total. }
  apply (StronglySorted_unique (not_after (by_string id))); [apply sort_slice_sorted; auto with go..|].
  by rewrite !sort_slice_perm.
Qed.
End sort.

#[export] Hint Resolve elem_of_range elem_of_range_values : go.
