(* ===== verification/Domain.v ===== *)
(** * Domain data

    The structs and string enumerations of package domain, field by field and
    in the order of the source.  A field [F] of a struct [T] is the projection
    [P_F], where [P] is [T] or a shorter name for the structs the program uses
    most (Intent for OperationalIntent, Volume, Publication, Notification,
    Deployment, Flight, and so on).  A pointer field is an [option]; an
    enumeration is a string type with its constants, as in Go, so that a value
    that came from a request may be none of them.  [zero_T] is the zero value
    of [T], on which composite literals are built. *)

From S2P Require Import Prelude GoRuntime.
From stdpp Require Import options.

(** ** Enumerations *)

Definition AircraftStatus : Set := string.
Definition AcceptanceStatus : Set := string.
Definition RemoteIDStatus : Set := string.
Definition MaintenanceStatus : Set := string.
Definition Severity : Set := string.
Definition ReadinessStatus : Set := string.
Definition FlightStatus : Set := string.
Definition IntentStatus : Set := string.
Definition AuthorizationPath : Set := string.
Definition PopulationCategory : Set := string.
Definition PreflightStatus : Set := string.
Definition PreflightCheckCategory : Set := string.
Definition EvidenceRecordType : Set := string.
Definition EvidenceStatus : Set := string.
Definition ConformanceStatus : Set := string.
Definition ReportabilityStatus : Set := string.
Definition PersonnelRole : Set := string.
Definition SecurityAssessmentStatus : Set := string.
Definition AltitudeReference : Set := string.
Definition OperationalVolumeType : Set := string.
Definition ConformanceEventCode : Set := string.
Definition ComplianceFindingStatus : Set := string.
Definition DeconflictionPosture : Set := string.
Definition ConflictFindingStatus : Set := string.
Definition ConflictFindingSourceType : Set := string.
Definition OperationalIntentExternalState : Set := string.
Definition PublicationSyncStatus : Set := string.
Definition MissionSourceFormat : Set := string.
Definition MissionDeploymentStatus : Set := string.

Definition AircraftStatusActive : AircraftStatus := "active".
Definition AircraftStatusInactive : AircraftStatus := "inactive".
Definition AircraftStatusMaintenance : AircraftStatus := "maintenance".
Definition AircraftStatusReview : AircraftStatus := "review".

Definition AcceptanceStatusDraft : AcceptanceStatus := "draft".
Definition AcceptanceStatusReview : AcceptanceStatus := "review".
Definition AcceptanceStatusAccepted : AcceptanceStatus := "accepted".
Definition AcceptanceStatusRejected : AcceptanceStatus := "rejected".
Definition AcceptanceStatusExpired : AcceptanceStatus := "expired".

Definition RemoteIDStatusUnknown : RemoteIDStatus := "unknown".
Definition RemoteIDStatusBroadcasting : RemoteIDStatus := "broadcasting".
Definition RemoteIDStatusOffline : RemoteIDStatus := "offline".
Definition RemoteIDStatusDegraded : RemoteIDStatus := "degraded".

Definition MaintenanceStatusCurrent : MaintenanceStatus := "current".
Definition MaintenanceStatusDueSoon : MaintenanceStatus := "due_soon".
Definition MaintenanceStatusOpen : MaintenanceStatus := "open".
Definition MaintenanceStatusOverdue : MaintenanceStatus := "overdue".
Definition MaintenanceStatusClosed : MaintenanceStatus := "closed".

Definition SeverityInfo : Severity := "info".
Definition SeverityAdvisory : Severity := "advisory".
Definition SeverityWarning : Severity := "warning".
Definition SeverityCritical : Severity := "critical".

Definition ReadinessStatusReady : ReadinessStatus := "ready".
Definition ReadinessStatusReview : ReadinessStatus := "review".
Definition ReadinessStatusWarning : ReadinessStatus := "warning".
Definition ReadinessStatusBlocked : ReadinessStatus := "blocked".
Definition ReadinessStatusUnknown : ReadinessStatus := "unknown".

Definition FlightStatusPlanned : FlightStatus := "planned".
Definition FlightStatusActive : FlightStatus := "active".
Definition FlightStatusComplete : FlightStatus := "complete".
Definition FlightStatusAborted : FlightStatus := "aborted".
Definition FlightStatusInterrupted : FlightStatus := "interrupted".

Definition IntentStatusDraft : IntentStatus := "draft".
Definition IntentStatusSubmitted : IntentStatus := "submitted".
Definition IntentStatusReview : IntentStatus := "review".
Definition IntentStatusAccepted : IntentStatus := "accepted".
Definition IntentStatusRejected : IntentStatus := "rejected".
Definition IntentStatusActive : IntentStatus := "active".
Definition IntentStatusComplete : IntentStatus := "complete".
Definition IntentStatusCanceled : IntentStatus := "canceled".
Definition IntentStatusSuperseded : IntentStatus := "superseded".

Definition AuthorizationPathPermit : AuthorizationPath := "permit".
Definition AuthorizationPathCertificate : AuthorizationPath := "certificate".
Definition AuthorizationPathWaiver : AuthorizationPath := "waiver".
Definition AuthorizationPathExemption : AuthorizationPath := "exemption".
Definition AuthorizationPathDemo : AuthorizationPath := "demo".
Definition AuthorizationPathUnknown : AuthorizationPath := "unknown".

Definition PopulationCategoryOne : PopulationCategory := "cat_1".
Definition PopulationCategoryTwo : PopulationCategory := "cat_2".
Definition PopulationCategoryThree : PopulationCategory := "cat_3".
Definition PopulationCategoryFour : PopulationCategory := "cat_4".
Definition PopulationCategoryFive : PopulationCategory := "cat_5".
Definition PopulationCategoryUnknown : PopulationCategory := "unknown".

Definition PreflightStatusClear : PreflightStatus := "clear".
Definition PreflightStatusReview : PreflightStatus := "review".
Definition PreflightStatusAction : PreflightStatus := "action".
Definition PreflightStatusBlocked : PreflightStatus := "blocked".

Definition PreflightCheckWeather : PreflightCheckCategory := "weather".
Definition PreflightCheckNOTAM : PreflightCheckCategory := "notam".
Definition PreflightCheckAirspace : PreflightCheckCategory := "airspace".
Definition PreflightCheckPopulation : PreflightCheckCategory := "population".
Definition PreflightCheckObstacle : PreflightCheckCategory := "obstacle".
Definition PreflightCheckBattery : PreflightCheckCategory := "battery".
Definition PreflightCheckMaintenance : PreflightCheckCategory := "maintenance".
Definition PreflightCheckRemoteID : PreflightCheckCategory := "remote_id".
Definition PreflightCheckPersonnel : PreflightCheckCategory := "personnel".
Definition PreflightCheckCybersecurity : PreflightCheckCategory := "cybersecurity".

Definition EvidenceRecordFlight : EvidenceRecordType := "flight_record".
Definition EvidenceRecordPreflight : EvidenceRecordType := "preflight_package".
Definition EvidenceRecordMaintenance : EvidenceRecordType := "maintenance_release".
Definition EvidenceRecordConformance : EvidenceRecordType := "conformance_record".
Definition EvidenceRecordReportability : EvidenceRecordType := "reportability_review".
Definition EvidenceRecordSecurity : EvidenceRecordType := "security_report".
Definition EvidenceRecordMonthlyExport : EvidenceRecordType := "monthly_export".

Definition EvidenceStatusOpen : EvidenceStatus := "open".
Definition EvidenceStatusReview : EvidenceStatus := "review".
Definition EvidenceStatusComplete : EvidenceStatus := "complete".
Definition EvidenceStatusExported : EvidenceStatus := "exported".

Definition ConformanceStatusUnknown : ConformanceStatus := "unknown".
Definition ConformanceStatusConforming : ConformanceStatus := "conforming".
Definition ConformanceStatusNonConforming : ConformanceStatus := "non_conforming".
Definition ConformanceStatusContingent : ConformanceStatus := "contingent".
Definition ConformanceStatusEmergency : ConformanceStatus := "emergency".
Definition ConformanceStatusComplete : ConformanceStatus := "complete".

Definition ReportabilityStatusNo : ReportabilityStatus := "no".
Definition ReportabilityStatusReview : ReportabilityStatus := "review".
Definition ReportabilityStatusReportable : ReportabilityStatus := "reportable".
Definition ReportabilityStatusClosed : ReportabilityStatus := "closed".

Definition PersonnelRoleSupervisor : PersonnelRole := "operations_supervisor".
Definition PersonnelRoleFlightCoordinator : PersonnelRole := "flight_coordinator".
Definition PersonnelRoleMaintenance : PersonnelRole := "maintenance".
Definition PersonnelRoleGroundHandler : PersonnelRole := "ground_handler".
Definition PersonnelRoleSecurity : PersonnelRole := "security".

Definition SecurityAssessmentUnknown : SecurityAssessmentStatus := "unknown".
Definition SecurityAssessmentPending : SecurityAssessmentStatus := "pending".
Definition SecurityAssessmentCleared : SecurityAssessmentStatus := "cleared".
Definition SecurityAssessmentExpired : SecurityAssessmentStatus := "expired".
Definition SecurityAssessmentDenied : SecurityAssessmentStatus := "denied".

Definition AltitudeReferenceAGL : AltitudeReference := "agl".
Definition AltitudeReferenceMSL : AltitudeReference := "msl".
Definition AltitudeReferenceWGS84 : AltitudeReference := "wgs84".
Definition AltitudeReferenceRelative : AltitudeReference := "relative".
Definition AltitudeReferenceBaro : AltitudeReference := "barometric".

Definition OperationalVolumeRoute : OperationalVolumeType := "route".
Definition OperationalVolumeLoiter : OperationalVolumeType := "loiter".
Definition OperationalVolumeContingency : OperationalVolumeType := "contingency".
Definition OperationalVolumeEmergency : OperationalVolumeType := "emergency".

Definition ConformanceEventIntentExit : ConformanceEventCode := "intent_exit".
Definition ConformanceEventAltitudeDeviation : ConformanceEventCode := "altitude_deviation".
Definition ConformanceEventTelemetryLoss : ConformanceEventCode := "telemetry_loss".
Definition ConformanceEventC2Degraded : ConformanceEventCode := "c2_degraded".
Definition ConformanceEventRemoteIDDegraded : ConformanceEventCode := "remote_id_degraded".

Definition ComplianceFindingPass : ComplianceFindingStatus := "pass".
Definition ComplianceFindingReview : ComplianceFindingStatus := "review".
Definition ComplianceFindingFail : ComplianceFindingStatus := "fail".
Definition ComplianceFindingWaived : ComplianceFindingStatus := "waived".

Definition DeconflictionPostureClear : DeconflictionPosture := "clear".
Definition DeconflictionPostureConflict : DeconflictionPosture := "conflict".
Definition DeconflictionPosturePotentialConflict : DeconflictionPosture := "potential_conflict".
Definition DeconflictionPostureIndeterminate : DeconflictionPosture := "indeterminate".

Definition ConflictFindingStatusClear : ConflictFindingStatus := "clear".
Definition ConflictFindingStatusConflict : ConflictFindingStatus := "conflict".
Definition ConflictFindingStatusPotentialConflict : ConflictFindingStatus := "potential_conflict".
Definition ConflictFindingStatusIndeterminate : ConflictFindingStatus := "indeterminate".

Definition ConflictFindingSourceLocal : ConflictFindingSourceType := "local".
Definition ConflictFindingSourceExternal : ConflictFindingSourceType := "external".

Definition OperationalIntentExternalStateAccepted : OperationalIntentExternalState := "Accepted".
Definition OperationalIntentExternalStateActivated : OperationalIntentExternalState := "Activated".
Definition OperationalIntentExternalStateWithdrawn : OperationalIntentExternalState := "Withdrawn".

Definition PublicationSyncPending : PublicationSyncStatus := "pending".
Definition PublicationSyncProcessing : PublicationSyncStatus := "processing".
Definition PublicationSyncConfirmed : PublicationSyncStatus := "confirmed".
Definition PublicationSyncRetrying : PublicationSyncStatus := "retrying".
Definition PublicationSyncBlocked : PublicationSyncStatus := "blocked".
Definition PublicationSyncWithdrawn : PublicationSyncStatus := "withdrawn".

Definition MissionSourceFormatQGCWPL110 : MissionSourceFormat := "qgc_wpl_110".

Definition MissionDeploymentPending : MissionDeploymentStatus := "pending".
Definition MissionDeploymentApplied : MissionDeploymentStatus := "applied".
Definition MissionDeploymentAlreadyApplied : MissionDeploymentStatus := "already_applied".
Definition MissionDeploymentRejected : MissionDeploymentStatus := "rejected".
Definition MissionDeploymentTemporaryError : MissionDeploymentStatus := "temporary_error".
Definition MissionDeploymentOutcomeUnknown : MissionDeploymentStatus := "outcome_unknown".
Definition MissionDeploymentBindingMismatch : MissionDeploymentStatus := "binding_mismatch".
Definition MissionDeploymentOnboardMissionMismatch : MissionDeploymentStatus :=
    "onboard_mission_mismatch".

(** ** Structs *)

Record Operator : Set := mkOperator {
  Operator_ID : string;
  Operator_Name : string;
  Operator_LegalName : string;
  Operator_CreatedAt : Time;
  Operator_UpdatedAt : Time;
}.

Record Aircraft : Set := mkAircraft {
  Aircraft_ID : string;
  Aircraft_OperatorID : string;
  Aircraft_AgentID : string;
  Aircraft_TailNumber : string;
  Aircraft_Registration : string;
  Aircraft_SerialNumber : string;
  Aircraft_Name : string;
  Aircraft_Model : string;
  Aircraft_Manufacturer : string;
  Aircraft_Status : AircraftStatus;
  Aircraft_AcceptanceStatus : AcceptanceStatus;
  Aircraft_RemoteIDSerial : string;
  Aircraft_RemoteIDStatus : RemoteIDStatus;
  Aircraft_ConfigVersion : string;
  Aircraft_SoftwareVersion : string;
  Aircraft_HardwareVersion : string;
  Aircraft_CreatedAt : Time;
  Aircraft_UpdatedAt : Time;
}.

#[global] Instance Aircraft_eta : Eta Aircraft := λ r,
  mkAircraft (Aircraft_ID r) (Aircraft_OperatorID r) (Aircraft_AgentID r) (Aircraft_TailNumber r)
    (Aircraft_Registration r) (Aircraft_SerialNumber r) (Aircraft_Name r) (Aircraft_Model r)
    (Aircraft_Manufacturer r) (Aircraft_Status r) (Aircraft_AcceptanceStatus r)
    (Aircraft_RemoteIDSerial r) (Aircraft_RemoteIDStatus r) (Aircraft_ConfigVersion r)
    (Aircraft_SoftwareVersion r) (Aircraft_HardwareVersion r) (Aircraft_CreatedAt r)
    (Aircraft_UpdatedAt r).

Definition zero_Aircraft : Aircraft :=
  mkAircraft "" "" "" "" "" "" "" "" "" "" "" "" "" "" "" "" zero_Time zero_Time.

Record Battery : Set := mkBattery {
  Battery_ID : string;
  Battery_OperatorID : string;
  Battery_SerialNumber : string;
  Battery_Model : string;
  Battery_StateOfHealth : option float64;
  Battery_CycleCount : Z;
  Battery_Status : MaintenanceStatus;
  Battery_ManufacturedAt : option Time;
  Battery_CreatedAt : Time;
  Battery_UpdatedAt : Time;
}.

#[global] Instance Battery_eta : Eta Battery := λ r,
  mkBattery (Battery_ID r) (Battery_OperatorID r) (Battery_SerialNumber r) (Battery_Model r)
    (Battery_StateOfHealth r) (Battery_CycleCount r) (Battery_Status r)
    (Battery_ManufacturedAt r) (Battery_CreatedAt r) (Battery_UpdatedAt r).

Definition zero_Battery : Battery :=
  mkBattery "" "" "" "" None 0 "" None zero_Time zero_Time.

Record BatteryInstallation : Set := mkBatteryInstallation {
  Installation_ID : string;
  Installation_OperatorID : string;
  Installation_AircraftID : string;
  Installation_BatteryID : string;
  Installation_InstalledAt : Time;
  Installation_RemovedAt : option Time;
}.

#[global] Instance BatteryInstallation_eta : Eta BatteryInstallation := λ r,
  mkBatteryInstallation (Installation_ID r) (Installation_OperatorID r)
    (Installation_AircraftID r) (Installation_BatteryID r) (Installation_InstalledAt r)
    (Installation_RemovedAt r).

Definition zero_BatteryInstallation : BatteryInstallation :=
  mkBatteryInstallation "" "" "" "" zero_Time None.

Record OperatingLimit : Set := mkOperatingLimit {
  Limit_ID : string;
  Limit_OperatorID : string;
  Limit_AircraftID : string;
  Limit_Name : string;
  Limit_Unit : string;
  Limit_Minimum : option float64;
  Limit_Maximum : option float64;
}.

Record AircraftOperatingProfile : Set := mkAircraftOperatingProfile {
  Profile_AircraftID : string;
  Profile_OperatorID : string;
  Profile_MaxGroundspeedKt : option float64;
  Profile_MaxTakeoffWeightLb : option float64;
  Profile_MaxAltitudeFtAGL : option float64;
  Profile_WeatherEnvelope : string;
  Profile_DAACapability : string;
  Profile_LightingStatus : string;
  Profile_PNTIntegrity : string;
  Profile_ManufacturerLimitsURI : string;
  Profile_UpdatedAt : Time;
}.

Record Readiness : Set := mkReadiness {
  Readiness_Status : ReadinessStatus;
  Readiness_Reasons : list string;
}.

Record MaintenanceEvent : Set := mkMaintenanceEvent {
  Maintenance_ID : string;
  Maintenance_OperatorID : string;
  Maintenance_AircraftID : string;
  Maintenance_IntentID : string;
  Maintenance_EventType : string;
  Maintenance_Severity : Severity;
  Maintenance_Status : MaintenanceStatus;
  Maintenance_Title : string;
  Maintenance_Notes : string;
  Maintenance_Owner : string;
  Maintenance_DueAt : option Time;
  Maintenance_CorrectiveAction : string;
  Maintenance_OpenedAt : Time;
  Maintenance_ResolvedAt : option Time;
  Maintenance_ReturnToServiceAt : option Time;
  Maintenance_ReturnToServiceBy : string;
}.

#[global] Instance MaintenanceEvent_eta : Eta MaintenanceEvent := λ r,
  mkMaintenanceEvent (Maintenance_ID r) (Maintenance_OperatorID r) (Maintenance_AircraftID r)
    (Maintenance_IntentID r) (Maintenance_EventType r) (Maintenance_Severity r)
    (Maintenance_Status r) (Maintenance_Title r) (Maintenance_Notes r) (Maintenance_Owner r)
    (Maintenance_DueAt r) (Maintenance_CorrectiveAction r) (Maintenance_OpenedAt r)
    (Maintenance_ResolvedAt r) (Maintenance_ReturnToServiceAt r) (Maintenance_ReturnToServiceBy r).

Definition zero_MaintenanceEvent : MaintenanceEvent :=
  mkMaintenanceEvent "" "" "" "" "" "" "" "" "" "" None "" zero_Time None None "".

Record OperationsPersonnel : Set := mkOperationsPersonnel {
  Personnel_ID : string;
  Personnel_OperatorID : string;
  Personnel_Name : string;
  Personnel_Role : PersonnelRole;
  Personnel_QualificationStatus : ReadinessStatus;
  Personnel_SecurityAssessmentStatus : SecurityAssessmentStatus;
  Personnel_RecentExperienceHours : option float64;
  Personnel_DutyStartedAt : option Time;
  Personnel_RestedAt : option Time;
  Personnel_UpdatedAt : Time;
}.

Record PersonnelAssignment : Set := mkPersonnelAssignment {
  Assignment_ID : string;
  Assignment_OperatorID : string;
  Assignment_IntentID : string;
  Assignment_IntentVersion : Z;
  Assignment_PersonnelID : string;
  Assignment_Role : PersonnelRole;
  Assignment_AssignedAt : Time;
  Assignment_ReleasedAt : option Time;
}.

Definition zero_PersonnelAssignment : PersonnelAssignment :=
  mkPersonnelAssignment "" "" "" 0 "" "" zero_Time None.

Record OperationalIntent : Set := mkOperationalIntent {
  Intent_ID : string;
  Intent_Revision : Z;
  Intent_OperatorID : string;
  Intent_AircraftID : string;
  Intent_AuthorizationID : string;
  Intent_Version : Z;
  Intent_Name : string;
  Intent_Summary : string;
  Intent_UseCase : string;
  Intent_AuthorizationPath : AuthorizationPath;
  Intent_PopulationCategory : PopulationCategory;
  Intent_Status : IntentStatus;
  Intent_ConformanceRequired : bool;
  Intent_OperatingAreaID : string;
  Intent_RouteSummary : string;
  Intent_PlannedStartAt : Time;
  Intent_PlannedEndAt : Time;
  Intent_MinAltitudeFtAGL : option float64;
  Intent_MaxAltitudeFtAGL : option float64;
  Intent_SupervisorID : string;
  Intent_FlightCoordinatorID : string;
  Intent_SubmittedAt : option Time;
  Intent_AcceptedAt : option Time;
  Intent_ActivatedAt : option Time;
  Intent_CompletedAt : option Time;
  Intent_CanceledAt : option Time;
  Intent_SupersededAt : option Time;
  Intent_UpdatedAt : Time;
}.

#[global] Instance OperationalIntent_eta : Eta OperationalIntent := λ r,
  mkOperationalIntent (Intent_ID r) (Intent_Revision r) (Intent_OperatorID r)
    (Intent_AircraftID r) (Intent_AuthorizationID r) (Intent_Version r) (Intent_Name r)
    (Intent_Summary r) (Intent_UseCase r) (Intent_AuthorizationPath r)
    (Intent_PopulationCategory r) (Intent_Status r) (Intent_ConformanceRequired r)
    (Intent_OperatingAreaID r) (Intent_RouteSummary r) (Intent_PlannedStartAt r)
    (Intent_PlannedEndAt r) (Intent_MinAltitudeFtAGL r) (Intent_MaxAltitudeFtAGL r)
    (Intent_SupervisorID r) (Intent_FlightCoordinatorID r) (Intent_SubmittedAt r)
    (Intent_AcceptedAt r) (Intent_ActivatedAt r) (Intent_CompletedAt r) (Intent_CanceledAt r)
    (Intent_SupersededAt r) (Intent_UpdatedAt r).

Definition zero_OperationalIntent : OperationalIntent :=
  mkOperationalIntent "" 0 "" "" "" 0 "" "" "" "" "" "" false "" "" zero_Time zero_Time None None
    "" "" None None None None None None zero_Time.

Record RegulatoryAuthorization : Set := mkRegulatoryAuthorization {
  Authorization_ID : string;
  Authorization_OperatorID : string;
  Authorization_Path : AuthorizationPath;
  Authorization_Reference : string;
  Authorization_Scope : string;
  Authorization_ValidFrom : Time;
  Authorization_ValidUntil : option Time;
  Authorization_EvidenceRecordID : string;
  Authorization_CreatedAt : Time;
  Authorization_UpdatedAt : Time;
}.

Record OperationalVolume : Set := mkOperationalVolume {
  Volume_ID : string;
  Volume_OperatorID : string;
  Volume_IntentID : string;
  Volume_IntentVersion : Z;
  Volume_Sequence : Z;
  Volume_GeometryURI : string;
  Volume_GeoJSON : string;
  Volume_MinAltitudeM : float64;
  Volume_MaxAltitudeM : float64;
  Volume_AltitudeRef : AltitudeReference;
  Volume_StartsAt : Time;
  Volume_EndsAt : Time;
  Volume_BufferMeters : option float64;
  Volume_VolumeType : OperationalVolumeType;
  Volume_CreatedAt : Time;
  Volume_UpdatedAt : Time;
}.

#[global] Instance OperationalVolume_eta : Eta OperationalVolume := λ r,
  mkOperationalVolume (Volume_ID r) (Volume_OperatorID r) (Volume_IntentID r)
    (Volume_IntentVersion r) (Volume_Sequence r) (Volume_GeometryURI r) (Volume_GeoJSON r)
    (Volume_MinAltitudeM r) (Volume_MaxAltitudeM r) (Volume_AltitudeRef r) (Volume_StartsAt r)
    (Volume_EndsAt r) (Volume_BufferMeters r) (Volume_VolumeType r) (Volume_CreatedAt r)
    (Volume_UpdatedAt r).

Definition zero_OperationalVolume : OperationalVolume :=
  mkOperationalVolume "" "" "" 0 0 "" "" float_zero float_zero "" zero_Time zero_Time None ""
    zero_Time zero_Time.

Record OperationalIntentPublication : Set := mkOperationalIntentPublication {
  Publication_IntentID : string;
  Publication_Revision : Z;
  Publication_DesiredIntentVersion : Z;
  Publication_PublishedIntentVersion : Z;
  Publication_DesiredState : OperationalIntentExternalState;
  Publication_ConfirmedState : OperationalIntentExternalState;
  Publication_SyncStatus : PublicationSyncStatus;
  Publication_DSSVersion : Z;
  Publication_OVN : string;
  Publication_SubscriptionID : string;
  Publication_Manager : string;
  Publication_USSBaseURL : string;
  Publication_ReferenceJSON : list Byte.byte;
  Publication_AttemptCount : Z;
  Publication_NextAttemptAt : Time;
  Publication_LeaseUntil : option Time;
  Publication_LastAttemptAt : option Time;
  Publication_ConfirmedAt : option Time;
  Publication_LastError : string;
  Publication_UpdatedAt : Time;
}.

#[global] Instance OperationalIntentPublication_eta : Eta OperationalIntentPublication := λ r,
  mkOperationalIntentPublication (Publication_IntentID r) (Publication_Revision r)
    (Publication_DesiredIntentVersion r) (Publication_PublishedIntentVersion r)
    (Publication_DesiredState r) (Publication_ConfirmedState r) (Publication_SyncStatus r)
    (Publication_DSSVersion r) (Publication_OVN r) (Publication_SubscriptionID r)
    (Publication_Manager r) (Publication_USSBaseURL r) (Publication_ReferenceJSON r)
    (Publication_AttemptCount r) (Publication_NextAttemptAt r) (Publication_LeaseUntil r)
    (Publication_LastAttemptAt r) (Publication_ConfirmedAt r) (Publication_LastError r)
    (Publication_UpdatedAt r).

Definition zero_OperationalIntentPublication : OperationalIntentPublication :=
  mkOperationalIntentPublication "" 0 0 0 "" "" "" 0 "" "" "" "" [] 0 zero_Time None None None ""
    zero_Time.

Record PeerNotification : Set := mkPeerNotification {
  Notification_ID : string;
  Notification_Revision : Z;
  Notification_IntentID : string;
  Notification_IntentVersion : Z;
  Notification_USSBaseURL : string;
  Notification_Payload : list Byte.byte;
  Notification_AttemptCount : Z;
  Notification_NextAttemptAt : Time;
  Notification_LeaseUntil : option Time;
  Notification_DeliveredAt : option Time;
  Notification_LastError : string;
  Notification_CreatedAt : Time;
  Notification_UpdatedAt : Time;
}.

#[global] Instance PeerNotification_eta : Eta PeerNotification := λ r,
  mkPeerNotification (Notification_ID r) (Notification_Revision r) (Notification_IntentID r)
    (Notification_IntentVersion r) (Notification_USSBaseURL r) (Notification_Payload r)
    (Notification_AttemptCount r) (Notification_NextAttemptAt r) (Notification_LeaseUntil r)
    (Notification_DeliveredAt r) (Notification_LastError r) (Notification_CreatedAt r)
    (Notification_UpdatedAt r).

Definition zero_PeerNotification : PeerNotification :=
  mkPeerNotification "" 0 "" 0 "" [] 0 zero_Time None None "" zero_Time zero_Time.

Record ReceivedPeerNotification : Set := mkReceivedPeerNotification {
  Received_ID : string;
  Received_IntentID : string;
  Received_Manager : string;
  Received_IntentVersion : Z;
  Received_OVN : string;
  Received_Deleted : bool;
  Received_Payload : list Byte.byte;
  Received_ReceivedAt : Time;
}.

#[global] Instance ReceivedPeerNotification_eta : Eta ReceivedPeerNotification := λ r,
  mkReceivedPeerNotification (Received_ID r) (Received_IntentID r) (Received_Manager r)
    (Received_IntentVersion r) (Received_OVN r) (Received_Deleted r) (Received_Payload r)
    (Received_ReceivedAt r).

Record GeoBounds : Set := mkGeoBounds {
  GeoBounds_MinLat : float64;
  GeoBounds_MinLon : float64;
  GeoBounds_MaxLat : float64;
  GeoBounds_MaxLon : float64;
}.

Record ConflictFinding : Set := mkConflictFinding {
  ConflictFinding_ID : string;
  ConflictFinding_OperatorID : string;
  ConflictFinding_IntentID : string;
  ConflictFinding_IntentVersion : Z;
  ConflictFinding_AircraftID : string;
  ConflictFinding_VolumeID : string;
  ConflictFinding_ConflictingIntentID : string;
  ConflictFinding_ConflictingVersion : Z;
  ConflictFinding_ConflictingVolumeID : string;
  ConflictFinding_SourceType : ConflictFindingSourceType;
  ConflictFinding_SourceID : string;
  ConflictFinding_Status : ConflictFindingStatus;
  ConflictFinding_Severity : Severity;
  ConflictFinding_Blocking : bool;
  ConflictFinding_Message : string;
  ConflictFinding_TimeOverlapStart : option Time;
  ConflictFinding_TimeOverlapEnd : option Time;
  ConflictFinding_AltitudeOverlapMin : option float64;
  ConflictFinding_AltitudeOverlapMax : option float64;
  ConflictFinding_OwnBounds : option GeoBounds;
  ConflictFinding_ConflictingBounds : option GeoBounds;
  ConflictFinding_RuleVersion : string;
  ConflictFinding_Provenance : string;
  ConflictFinding_EvaluatedAt : Time;
}.

#[global] Instance ConflictFinding_eta : Eta ConflictFinding := λ r,
  mkConflictFinding (ConflictFinding_ID r) (ConflictFinding_OperatorID r)
    (ConflictFinding_IntentID r) (ConflictFinding_IntentVersion r) (ConflictFinding_AircraftID r)
    (ConflictFinding_VolumeID r) (ConflictFinding_ConflictingIntentID r)
    (ConflictFinding_ConflictingVersion r) (ConflictFinding_ConflictingVolumeID r)
    (ConflictFinding_SourceType r) (ConflictFinding_SourceID r) (ConflictFinding_Status r)
    (ConflictFinding_Severity r) (ConflictFinding_Blocking r) (ConflictFinding_Message r)
    (ConflictFinding_TimeOverlapStart r) (ConflictFinding_TimeOverlapEnd r)
    (ConflictFinding_AltitudeOverlapMin r) (ConflictFinding_AltitudeOverlapMax r)
    (ConflictFinding_OwnBounds r) (ConflictFinding_ConflictingBounds r)
    (ConflictFinding_RuleVersion r) (ConflictFinding_Provenance r) (ConflictFinding_EvaluatedAt r).

Definition zero_ConflictFinding : ConflictFinding :=
  mkConflictFinding "" "" "" 0 "" "" "" 0 "" "" "" "" "" false "" None None None None None None
    "" "" zero_Time.

Record DeconflictionResult : Set := mkDeconflictionResult {
  DeconflictionResult_Intent : OperationalIntent;
  DeconflictionResult_Posture : DeconflictionPosture;
  DeconflictionResult_Findings : list ConflictFinding;
  DeconflictionResult_CheckedAt : Time;
  DeconflictionResult_RuleVersion : string;
}.

#[global] Instance DeconflictionResult_eta : Eta DeconflictionResult := λ r,
  mkDeconflictionResult (DeconflictionResult_Intent r) (DeconflictionResult_Posture r)
    (DeconflictionResult_Findings r) (DeconflictionResult_CheckedAt r)
    (DeconflictionResult_RuleVersion r).

Record PreflightCheck : Set := mkPreflightCheck {
  PreflightCheck_ID : string;
  PreflightCheck_OperatorID : string;
  PreflightCheck_IntentID : string;
  PreflightCheck_IntentVersion : Z;
  PreflightCheck_AircraftID : string;
  PreflightCheck_Category : PreflightCheckCategory;
  PreflightCheck_Source : string;
  PreflightCheck_Status : PreflightStatus;
  PreflightCheck_Summary : string;
  PreflightCheck_RequirementCode : string;
  PreflightCheck_RuleVersion : string;
  PreflightCheck_Blocking : bool;
  PreflightCheck_ValidUntil : option Time;
  PreflightCheck_RawDataURI : string;
  PreflightCheck_EvidenceRecordID : string;
  PreflightCheck_CapturedAt : Time;
}.

#[global] Instance PreflightCheck_eta : Eta PreflightCheck := λ r,
  mkPreflightCheck (PreflightCheck_ID r) (PreflightCheck_OperatorID r)
    (PreflightCheck_IntentID r) (PreflightCheck_IntentVersion r) (PreflightCheck_AircraftID r)
    (PreflightCheck_Category r) (PreflightCheck_Source r) (PreflightCheck_Status r)
    (PreflightCheck_Summary r) (PreflightCheck_RequirementCode r) (PreflightCheck_RuleVersion r)
    (PreflightCheck_Blocking r) (PreflightCheck_ValidUntil r) (PreflightCheck_RawDataURI r)
    (PreflightCheck_EvidenceRecordID r) (PreflightCheck_CapturedAt r).

Definition zero_PreflightCheck : PreflightCheck :=
  mkPreflightCheck "" "" "" 0 "" "" "" "" "" "" "" false None "" "" zero_Time.

Record ComplianceFinding : Set := mkComplianceFinding {
  ComplianceFinding_ID : string;
  ComplianceFinding_OperatorID : string;
  ComplianceFinding_IntentID : string;
  ComplianceFinding_IntentVersion : Z;
  ComplianceFinding_SubjectType : string;
  ComplianceFinding_SubjectID : string;
  ComplianceFinding_RequirementCode : string;
  ComplianceFinding_Status : ComplianceFindingStatus;
  ComplianceFinding_Severity : Severity;
  ComplianceFinding_Blocking : bool;
  ComplianceFinding_RuleVersion : string;
  ComplianceFinding_Remediation : string;
  ComplianceFinding_Message : string;
  ComplianceFinding_EvidenceRecordID : string;
  ComplianceFinding_EvaluatedAt : Time;
}.

#[global] Instance ComplianceFinding_eta : Eta ComplianceFinding := λ r,
  mkComplianceFinding (ComplianceFinding_ID r) (ComplianceFinding_OperatorID r)
    (ComplianceFinding_IntentID r) (ComplianceFinding_IntentVersion r)
    (ComplianceFinding_SubjectType r) (ComplianceFinding_SubjectID r)
    (ComplianceFinding_RequirementCode r) (ComplianceFinding_Status r)
    (ComplianceFinding_Severity r) (ComplianceFinding_Blocking r)
    (ComplianceFinding_RuleVersion r) (ComplianceFinding_Remediation r)
    (ComplianceFinding_Message r) (ComplianceFinding_EvidenceRecordID r)
    (ComplianceFinding_EvaluatedAt r).

Definition zero_ComplianceFinding : ComplianceFinding :=
  mkComplianceFinding "" "" "" 0 "" "" "" "" "" false "" "" "" "" zero_Time.

Record FlightRecord : Set := mkFlightRecord {
  Flight_ID : string;
  Flight_OperatorID : string;
  Flight_AircraftID : string;
  Flight_IntentID : string;
  Flight_IntentVersion : Z;
  Flight_StartedAt : Time;
  Flight_EndedAt : option Time;
  Flight_Origin : string;
  Flight_Destination : string;
  Flight_Status : FlightStatus;
  Flight_MissionType : string;
  Flight_TelemetryURI : string;
  Flight_SampleCount : Z;
}.

#[global] Instance FlightRecord_eta : Eta FlightRecord := λ r,
  mkFlightRecord (Flight_ID r) (Flight_OperatorID r) (Flight_AircraftID r) (Flight_IntentID r)
    (Flight_IntentVersion r) (Flight_StartedAt r) (Flight_EndedAt r) (Flight_Origin r)
    (Flight_Destination r) (Flight_Status r) (Flight_MissionType r) (Flight_TelemetryURI r)
    (Flight_SampleCount r).

Definition zero_FlightRecord : FlightRecord :=
  mkFlightRecord "" "" "" "" 0 zero_Time None "" "" "" "" "" 0.

Record ConformanceEvent : Set := mkConformanceEvent {
  ConformanceEvent_ID : string;
  ConformanceEvent_OperatorID : string;
  ConformanceEvent_IntentID : string;
  ConformanceEvent_IntentVersion : Z;
  ConformanceEvent_FlightID : string;
  ConformanceEvent_AircraftID : string;
  ConformanceEvent_Severity : Severity;
  ConformanceEvent_EventCode : ConformanceEventCode;
  ConformanceEvent_ExpectedVolumeID : string;
  ConformanceEvent_Message : string;
  ConformanceEvent_Latitude : option float64;
  ConformanceEvent_Longitude : option float64;
  ConformanceEvent_AltitudeM : option float64;
  ConformanceEvent_AltitudeRef : AltitudeReference;
  ConformanceEvent_ObservedValue : option float64;
  ConformanceEvent_ThresholdValue : option float64;
  ConformanceEvent_DeviationMeters : option float64;
  ConformanceEvent_DeviationSeconds : option float64;
  ConformanceEvent_OccurredAt : Time;
}.

#[global] Instance ConformanceEvent_eta : Eta ConformanceEvent := λ r,
  mkConformanceEvent (ConformanceEvent_ID r) (ConformanceEvent_OperatorID r)
    (ConformanceEvent_IntentID r) (ConformanceEvent_IntentVersion r)
    (ConformanceEvent_FlightID r) (ConformanceEvent_AircraftID r) (ConformanceEvent_Severity r)
    (ConformanceEvent_EventCode r) (ConformanceEvent_ExpectedVolumeID r)
    (ConformanceEvent_Message r) (ConformanceEvent_Latitude r) (ConformanceEvent_Longitude r)
    (ConformanceEvent_AltitudeM r) (ConformanceEvent_AltitudeRef r)
    (ConformanceEvent_ObservedValue r) (ConformanceEvent_ThresholdValue r)
    (ConformanceEvent_DeviationMeters r) (ConformanceEvent_DeviationSeconds r)
    (ConformanceEvent_OccurredAt r).

Definition zero_ConformanceEvent : ConformanceEvent :=
  mkConformanceEvent "" "" "" 0 "" "" "" "" "" "" None None None "" None None None None zero_Time.

Record ConformanceViolationSummary : Set := mkConformanceViolationSummary {
  Violation_ViolationType : string;
  Violation_Phase : string;
  Violation_OpeningFrameID : string;
  Violation_OpenedAt : option Time;
  Violation_LastObservedAt : option Time;
  Violation_WorstDeviationM : float64;
}.

Record ConformanceSummary : Set := mkConformanceSummary {
  ConformanceSummary_ID : string;
  ConformanceSummary_OperatorID : string;
  ConformanceSummary_IntentID : string;
  ConformanceSummary_IntentVersion : Z;
  ConformanceSummary_FlightID : string;
  ConformanceSummary_AircraftID : string;
  ConformanceSummary_Status : ConformanceStatus;
  ConformanceSummary_Score : option float64;
  ConformanceSummary_AlertCount : Z;
  ConformanceSummary_ReportabilityStatus : ReportabilityStatus;
  ConformanceSummary_UpdatedAt : Time;
  ConformanceSummary_AssignmentID : string;
  ConformanceSummary_AssignmentGeneration : Z;
  ConformanceSummary_EvaluationRevision : Z;
  ConformanceSummary_EvaluationID : string;
  ConformanceSummary_Condition : string;
  ConformanceSummary_MonitoringStatus : string;
  ConformanceSummary_RecordingStatus : string;
  ConformanceSummary_ObservedAt : option Time;
  ConformanceSummary_FrameID : string;
  ConformanceSummary_Violations : list ConformanceViolationSummary;
}.

#[global] Instance ConformanceSummary_eta : Eta ConformanceSummary := λ r,
  mkConformanceSummary (ConformanceSummary_ID r) (ConformanceSummary_OperatorID r)
    (ConformanceSummary_IntentID r) (ConformanceSummary_IntentVersion r)
    (ConformanceSummary_FlightID r) (ConformanceSummary_AircraftID r)
    (ConformanceSummary_Status r) (ConformanceSummary_Score r) (ConformanceSummary_AlertCount r)
    (ConformanceSummary_ReportabilityStatus r) (ConformanceSummary_UpdatedAt r)
    (ConformanceSummary_AssignmentID r) (ConformanceSummary_AssignmentGeneration r)
    (ConformanceSummary_EvaluationRevision r) (ConformanceSummary_EvaluationID r)
    (ConformanceSummary_Condition r) (ConformanceSummary_MonitoringStatus r)
    (ConformanceSummary_RecordingStatus r) (ConformanceSummary_ObservedAt r)
    (ConformanceSummary_FrameID r) (ConformanceSummary_Violations r).

Definition zero_ConformanceSummary : ConformanceSummary :=
  mkConformanceSummary "" "" "" 0 "" "" "" None 0 "" zero_Time "" 0 0 "" "" "" "" None "" [].

Record EvidenceRecord : Set := mkEvidenceRecord {
  EvidenceRecord_ID : string;
  EvidenceRecord_OperatorID : string;
  EvidenceRecord_Type : EvidenceRecordType;
  EvidenceRecord_IntentID : string;
  EvidenceRecord_IntentVersion : Z;
  EvidenceRecord_FlightID : string;
  EvidenceRecord_AircraftID : string;
  EvidenceRecord_Status : EvidenceStatus;
  EvidenceRecord_Title : string;
  EvidenceRecord_Summary : string;
  EvidenceRecord_ObjectURI : string;
  EvidenceRecord_Hash : string;
  EvidenceRecord_HashAlgorithm : string;
  EvidenceRecord_SchemaVersion : string;
  EvidenceRecord_GeneratedBy : string;
  EvidenceRecord_SourceSystem : string;
  EvidenceRecord_RetentionUntil : option Time;
  EvidenceRecord_CreatedAt : Time;
  EvidenceRecord_UpdatedAt : Time;
}.

Definition zero_EvidenceRecord : EvidenceRecord :=
  mkEvidenceRecord "" "" "" "" 0 "" "" "" "" "" "" "" "" "" "" "" None zero_Time zero_Time.

Record ReportabilityReview : Set := mkReportabilityReview {
  ReportabilityReview_ID : string;
  ReportabilityReview_OperatorID : string;
  ReportabilityReview_IntentID : string;
  ReportabilityReview_IntentVersion : Z;
  ReportabilityReview_FlightID : string;
  ReportabilityReview_AircraftID : string;
  ReportabilityReview_Trigger : string;
  ReportabilityReview_Status : ReportabilityStatus;
  ReportabilityReview_Decision : string;
  ReportabilityReview_EvidenceRecordID : string;
  ReportabilityReview_CreatedAt : Time;
  ReportabilityReview_ResolvedAt : option Time;
}.

Definition zero_ReportabilityReview : ReportabilityReview :=
  mkReportabilityReview "" "" "" 0 "" "" "" "" "" "" zero_Time None.

Record MissionValidationFinding : Set := mkMissionValidationFinding {
  MissionFinding_Severity : string;
  MissionFinding_Code : string;
  MissionFinding_Message : string;
  MissionFinding_Sequence : option Z;
}.

Record MissionItem : Set := mkMissionItem {
  MissionItem_Sequence : Z;
  MissionItem_Current : bool;
  MissionItem_Frame : Z;
  MissionItem_Command : Z;
  MissionItem_Param1 : float64;
  MissionItem_Param2 : float64;
  MissionItem_Param3 : float64;
  MissionItem_Param4 : float64;
  MissionItem_LatitudeE7 : Z;
  MissionItem_LongitudeE7 : Z;
  MissionItem_AltitudeM : float64;
  MissionItem_Autocontinue : bool;
}.

#[global] Instance MissionItem_eta : Eta MissionItem := λ r,
  mkMissionItem (MissionItem_Sequence r) (MissionItem_Current r) (MissionItem_Frame r)
    (MissionItem_Command r) (MissionItem_Param1 r) (MissionItem_Param2 r) (MissionItem_Param3 r)
    (MissionItem_Param4 r) (MissionItem_LatitudeE7 r) (MissionItem_LongitudeE7 r)
    (MissionItem_AltitudeM r) (MissionItem_Autocontinue r).

Definition zero_MissionItem : MissionItem :=
  mkMissionItem 0 false 0 0 float_zero float_zero float_zero float_zero 0 0 float_zero false.

Record Mission : Set := mkMission {
  Mission_ID : string;
  Mission_Version : Z;
  Mission_OperatorID : string;
  Mission_FlightID : string;
  Mission_AircraftID : string;
  Mission_IntentID : string;
  Mission_IntentVersion : Z;
  Mission_SourceFormat : MissionSourceFormat;
  Mission_SourceSHA256 : string;
  Mission_MissionDigest : string;
  Mission_IdempotencyKey : string;
  Mission_IdempotencyRequest : string;
  Mission_ValidationFindings : list MissionValidationFinding;
  Mission_Items : list MissionItem;
  Mission_CreatedAt : Time;
}.

#[global] Instance Mission_eta : Eta Mission := λ r,
  mkMission (Mission_ID r) (Mission_Version r) (Mission_OperatorID r) (Mission_FlightID r)
    (Mission_AircraftID r) (Mission_IntentID r) (Mission_IntentVersion r)
    (Mission_SourceFormat r) (Mission_SourceSHA256 r) (Mission_MissionDigest r)
    (Mission_IdempotencyKey r) (Mission_IdempotencyRequest r) (Mission_ValidationFindings r)
    (Mission_Items r) (Mission_CreatedAt r).

Definition zero_Mission : Mission :=
  mkMission "" 0 "" "" "" "" 0 "" "" "" "" "" [] [] zero_Time.

Record MissionDeployment : Set := mkMissionDeployment {
  Deployment_ID : string;
  Deployment_Revision : Z;
  Deployment_OperatorID : string;
  Deployment_FlightID : string;
  Deployment_AircraftID : string;
  Deployment_AgentID : string;
  Deployment_IntentID : string;
  Deployment_IntentVersion : Z;
  Deployment_MissionID : string;
  Deployment_MissionVersion : Z;
  Deployment_MissionDigest : string;
  Deployment_CommandID : string;
  Deployment_DispatchStarted : bool;
  Deployment_OperationContextCommandID : string;
  Deployment_ReconciliationClearCommandID : string;
  Deployment_IdempotencyKey : string;
  Deployment_IdempotencyRequest : string;
  Deployment_Status : MissionDeploymentStatus;
  Deployment_Message : string;
  Deployment_UploadedItemCount : Z;
  Deployment_OnboardMissionDigest : string;
  Deployment_MAVLinkMissionAckType : option Z;
  Deployment_IssuedAt : Time;
  Deployment_ExpiresAt : Time;
  Deployment_ReconcileUntil : Time;
  Deployment_CompletedAt : option Time;
  Deployment_AttemptCount : Z;
  Deployment_CreatedAt : Time;
  Deployment_UpdatedAt : Time;
}.

#[global] Instance MissionDeployment_eta : Eta MissionDeployment := λ r,
  mkMissionDeployment (Deployment_ID r) (Deployment_Revision r) (Deployment_OperatorID r)
    (Deployment_FlightID r) (Deployment_AircraftID r) (Deployment_AgentID r)
    (Deployment_IntentID r) (Deployment_IntentVersion r) (Deployment_MissionID r)
    (Deployment_MissionVersion r) (Deployment_MissionDigest r) (Deployment_CommandID r)
    (Deployment_DispatchStarted r) (Deployment_OperationContextCommandID r)
    (Deployment_ReconciliationClearCommandID r) (Deployment_IdempotencyKey r)
    (Deployment_IdempotencyRequest r) (Deployment_Status r) (Deployment_Message r)
    (Deployment_UploadedItemCount r) (Deployment_OnboardMissionDigest r)
    (Deployment_MAVLinkMissionAckType r) (Deployment_IssuedAt r) (Deployment_ExpiresAt r)
    (Deployment_ReconcileUntil r) (Deployment_CompletedAt r) (Deployment_AttemptCount r)
    (Deployment_CreatedAt r) (Deployment_UpdatedAt r).

Definition zero_MissionDeployment : MissionDeployment :=
  mkMissionDeployment "" 0 "" "" "" "" "" 0 "" 0 "" "" false "" "" "" "" "" "" 0 "" None
    zero_Time zero_Time zero_Time None 0 zero_Time zero_Time.
