(* ===== verification/LiveDomain.v ===== *)
(** * Telemetry and read models

    The structs of package domain about telemetry and live state
    (src/internal/domain/telemetry.go, live_telemetry.go), and of package
    readmodel, field by field, with the conventions of Domain.v; an embedded
    struct is a field of its name. *)

From S2P Require Import Prelude GoRuntime Domain.
From stdpp Require Import options.

(** ** Enumerations *)

Definition ConnectionStatus : Set := string.
Definition DataFreshness : Set := string.

Definition ConnectionStatusConnected : ConnectionStatus := "connected".
Definition ConnectionStatusStale : ConnectionStatus := "stale".
Definition ConnectionStatusOffline : ConnectionStatus := "offline".
Definition ConnectionStatusUnmapped : ConnectionStatus := "unmapped".
Definition ConnectionStatusUnavailable : ConnectionStatus := "unavailable".

Definition DataFreshnessFresh : DataFreshness := "fresh".
Definition DataFreshnessStale : DataFreshness := "stale".
Definition DataFreshnessMissing : DataFreshness := "missing".
Definition DataFreshnessUnavailable : DataFreshness := "unavailable".

(** ** Structs *)

Record TelemetrySample : Set := mkTelemetrySample {
  Sample_ID : string;
  Sample_OperatorID : string;
  Sample_AircraftID : string;
  Sample_IntentID : string;
  Sample_IntentVersion : Z;
  Sample_FlightID : string;
  Sample_RecordedAt : Time;
  Sample_Latitude : float64;
  Sample_Longitude : float64;
  Sample_AltitudeM : float64;
  Sample_VelocityMPS : float64;
  Sample_HeadingDeg : float64;
  Sample_BatteryPct : option float64;
}.

#[global] Instance TelemetrySample_eta : Eta TelemetrySample := λ r,
  mkTelemetrySample (Sample_ID r) (Sample_OperatorID r) (Sample_AircraftID r) (Sample_IntentID r)
    (Sample_IntentVersion r) (Sample_FlightID r) (Sample_RecordedAt r) (Sample_Latitude r)
    (Sample_Longitude r) (Sample_AltitudeM r) (Sample_VelocityMPS r) (Sample_HeadingDeg r)
    (Sample_BatteryPct r).

Definition zero_TelemetrySample : TelemetrySample :=
  mkTelemetrySample "" "" "" "" 0 "" zero_Time float_zero float_zero float_zero float_zero
    float_zero None.

Record ReplayManifest : Set := mkReplayManifest {
  Manifest_OperatorID : string;
  Manifest_FlightID : string;
  Manifest_IntentID : string;
  Manifest_IntentVersion : Z;
  Manifest_ObjectURI : string;
  Manifest_ChunkURIs : list string;
  Manifest_CreatedAt : Time;
  Manifest_ByteLength : Z;
}.

Record LiveAircraftState : Set := mkLiveAircraftState {
  Live_AircraftID : string;
  Live_OperatorID : string;
  Live_AgentID : string;
  Live_RelayID : string;
  Live_Connected : bool;
  Live_ConnectionStatus : ConnectionStatus;
  Live_LastConnectedAt : Time;
  Live_LastHeartbeatAt : Time;
  Live_PlacementLastUpdatedAt : Time;
}.

#[global] Instance LiveAircraftState_eta : Eta LiveAircraftState := λ r,
  mkLiveAircraftState (Live_AircraftID r) (Live_OperatorID r) (Live_AgentID r) (Live_RelayID r)
    (Live_Connected r) (Live_ConnectionStatus r) (Live_LastConnectedAt r)
    (Live_LastHeartbeatAt r) (Live_PlacementLastUpdatedAt r).

Definition zero_LiveAircraftState : LiveAircraftState :=
  mkLiveAircraftState "" "" "" "" false "" zero_Time zero_Time zero_Time.

Record TelemetryObservation : Set := mkTelemetryObservation {
  Observation_Status : DataFreshness;
  Observation_RecordedAt : Time;
  Observation_FrameID : string;
  Observation_RelayID : string;
  Observation_SessionID : string;
  Observation_TimestampSource : string;
  Observation_OperatorID : string;
  Observation_IntentID : string;
  Observation_IntentVersion : Z;
  Observation_FlightID : string;
}.

#[global] Instance TelemetryObservation_eta : Eta TelemetryObservation := λ r,
  mkTelemetryObservation (Observation_Status r) (Observation_RecordedAt r)
    (Observation_FrameID r) (Observation_RelayID r) (Observation_SessionID r)
    (Observation_TimestampSource r) (Observation_OperatorID r) (Observation_IntentID r)
    (Observation_IntentVersion r) (Observation_FlightID r).

Definition zero_TelemetryObservation : TelemetryObservation :=
  mkTelemetryObservation "" zero_Time "" "" "" "" "" "" 0 "".

Record PositionTelemetry : Set := mkPositionTelemetry {
  Position_TelemetryObservation : TelemetryObservation;
  Position_LatitudeDeg : float64;
  Position_LongitudeDeg : float64;
  Position_AltitudeMSLM : option float64;
  Position_RelativeAltitudeM : option float64;
  Position_VelocityNorthMPS : option float64;
  Position_VelocityEastMPS : option float64;
  Position_VelocityDownMPS : option float64;
  Position_GroundspeedMPS : option float64;
  Position_HeadingDeg : option float64;
}.

#[global] Instance PositionTelemetry_eta : Eta PositionTelemetry := λ r,
  mkPositionTelemetry (Position_TelemetryObservation r) (Position_LatitudeDeg r)
    (Position_LongitudeDeg r) (Position_AltitudeMSLM r) (Position_RelativeAltitudeM r)
    (Position_VelocityNorthMPS r) (Position_VelocityEastMPS r) (Position_VelocityDownMPS r)
    (Position_GroundspeedMPS r) (Position_HeadingDeg r).

Definition zero_PositionTelemetry : PositionTelemetry :=
  mkPositionTelemetry zero_TelemetryObservation float_zero float_zero None None None None None
    None None.

Record BatteryTelemetry : Set := mkBatteryTelemetry {
  BatteryTelemetry_TelemetryObservation : TelemetryObservation;
  BatteryTelemetry_BatteryID : Z;
  BatteryTelemetry_BatteryFunction : string;
  BatteryTelemetry_BatteryType : string;
  BatteryTelemetry_BatteryChargeState : string;
  BatteryTelemetry_BatteryMode : string;
  BatteryTelemetry_BatteryTemperatureC : option float64;
  BatteryTelemetry_BatteryVoltageV : option float64;
  BatteryTelemetry_BatteryCurrentA : option float64;
  BatteryTelemetry_BatteryConsumedMAH : option Z;
  BatteryTelemetry_BatteryConsumedWH : option float64;
  BatteryTelemetry_BatteryRemainingPct : option float64;
  BatteryTelemetry_BatteryTimeRemainingS : option Z;
}.

#[global] Instance BatteryTelemetry_eta : Eta BatteryTelemetry := λ r,
  mkBatteryTelemetry (BatteryTelemetry_TelemetryObservation r) (BatteryTelemetry_BatteryID r)
    (BatteryTelemetry_BatteryFunction r) (BatteryTelemetry_BatteryType r)
    (BatteryTelemetry_BatteryChargeState r) (BatteryTelemetry_BatteryMode r)
    (BatteryTelemetry_BatteryTemperatureC r) (BatteryTelemetry_BatteryVoltageV r)
    (BatteryTelemetry_BatteryCurrentA r) (BatteryTelemetry_BatteryConsumedMAH r)
    (BatteryTelemetry_BatteryConsumedWH r) (BatteryTelemetry_BatteryRemainingPct r)
    (BatteryTelemetry_BatteryTimeRemainingS r).

Definition zero_BatteryTelemetry : BatteryTelemetry :=
  mkBatteryTelemetry zero_TelemetryObservation 0 "" "" "" "" None None None None None None None.

Record VehicleTelemetry : Set := mkVehicleTelemetry {
  Vehicle_TelemetryObservation : TelemetryObservation;
  Vehicle_VehicleType : string;
  Vehicle_AutopilotType : string;
  Vehicle_BaseMode : string;
  Vehicle_CustomMode : option Z;
  Vehicle_SystemStatus : string;
  Vehicle_MAVLinkVersion : option Z;
}.

#[global] Instance VehicleTelemetry_eta : Eta VehicleTelemetry := λ r,
  mkVehicleTelemetry (Vehicle_TelemetryObservation r) (Vehicle_VehicleType r)
    (Vehicle_AutopilotType r) (Vehicle_BaseMode r) (Vehicle_CustomMode r)
    (Vehicle_SystemStatus r) (Vehicle_MAVLinkVersion r).

Record SystemTelemetry : Set := mkSystemTelemetry {
  System_TelemetryObservation : TelemetryObservation;
  System_MainloopLoadPct : option float64;
  System_CommunicationDropRatePct : option float64;
  System_CommunicationErrorCount : option Z;
  System_AutopilotErrorCount1 : option Z;
  System_AutopilotErrorCount2 : option Z;
  System_AutopilotErrorCount3 : option Z;
  System_AutopilotErrorCount4 : option Z;
  System_SensorsPresent : string;
  System_SensorsEnabled : string;
  System_SensorsHealth : string;
  System_SensorsPresentExtended : string;
  System_SensorsEnabledExtended : string;
  System_SensorsHealthExtended : string;
}.

#[global] Instance SystemTelemetry_eta : Eta SystemTelemetry := λ r,
  mkSystemTelemetry (System_TelemetryObservation r) (System_MainloopLoadPct r)
    (System_CommunicationDropRatePct r) (System_CommunicationErrorCount r)
    (System_AutopilotErrorCount1 r) (System_AutopilotErrorCount2 r)
    (System_AutopilotErrorCount3 r) (System_AutopilotErrorCount4 r) (System_SensorsPresent r)
    (System_SensorsEnabled r) (System_SensorsHealth r) (System_SensorsPresentExtended r)
    (System_SensorsEnabledExtended r) (System_SensorsHealthExtended r).

Record HUDTelemetry : Set := mkHUDTelemetry {
  HUD_TelemetryObservation : TelemetryObservation;
  HUD_AirspeedMPS : option float64;
  HUD_GroundspeedMPS : option float64;
  HUD_HeadingDeg : option float64;
  HUD_ThrottlePct : option float64;
  HUD_AltitudeMSLM : option float64;
  HUD_ClimbRateMPS : option float64;
}.

#[global] Instance HUDTelemetry_eta : Eta HUDTelemetry := λ r,
  mkHUDTelemetry (HUD_TelemetryObservation r) (HUD_AirspeedMPS r) (HUD_GroundspeedMPS r)
    (HUD_HeadingDeg r) (HUD_ThrottlePct r) (HUD_AltitudeMSLM r) (HUD_ClimbRateMPS r).

Record ExtendedStateTelemetry : Set := mkExtendedStateTelemetry {
  ExtendedState_TelemetryObservation : TelemetryObservation;
  ExtendedState_VTOLState : string;
  ExtendedState_LandedState : string;
}.

#[global] Instance ExtendedStateTelemetry_eta : Eta ExtendedStateTelemetry := λ r,
  mkExtendedStateTelemetry (ExtendedState_TelemetryObservation r) (ExtendedState_VTOLState r)
    (ExtendedState_LandedState r).

Record GPSTelemetry : Set := mkGPSTelemetry {
  GPS_TelemetryObservation : TelemetryObservation;
  GPS_FixType : string;
  GPS_LatitudeDeg : option float64;
  GPS_LongitudeDeg : option float64;
  GPS_AltitudeMSLM : option float64;
  GPS_AltitudeEllipsoidM : option float64;
  GPS_HDOP : option float64;
  GPS_VDOP : option float64;
  GPS_GroundspeedMPS : option float64;
  GPS_CourseOverGroundDeg : option float64;
  GPS_SatellitesVisible : option Z;
  GPS_HorizontalAccuracyM : option float64;
  GPS_VerticalAccuracyM : option float64;
  GPS_SpeedAccuracyMPS : option float64;
  GPS_HeadingAccuracyDeg : option float64;
  GPS_YawDeg : option float64;
}.

#[global] Instance GPSTelemetry_eta : Eta GPSTelemetry := λ r,
  mkGPSTelemetry (GPS_TelemetryObservation r) (GPS_FixType r) (GPS_LatitudeDeg r)
    (GPS_LongitudeDeg r) (GPS_AltitudeMSLM r) (GPS_AltitudeEllipsoidM r) (GPS_HDOP r)
    (GPS_VDOP r) (GPS_GroundspeedMPS r) (GPS_CourseOverGroundDeg r) (GPS_SatellitesVisible r)
    (GPS_HorizontalAccuracyM r) (GPS_VerticalAccuracyM r) (GPS_SpeedAccuracyMPS r)
    (GPS_HeadingAccuracyDeg r) (GPS_YawDeg r).

Record AircraftTelemetryState : Set := mkAircraftTelemetryState {
  TelemetryState_Status : DataFreshness;
  TelemetryState_LastObservedAt : option Time;
  TelemetryState_Position : option PositionTelemetry;
  TelemetryState_Battery : option BatteryTelemetry;
  TelemetryState_Vehicle : option VehicleTelemetry;
  TelemetryState_System : option SystemTelemetry;
  TelemetryState_HUD : option HUDTelemetry;
  TelemetryState_ExtendedState : option ExtendedStateTelemetry;
  TelemetryState_GPS : option GPSTelemetry;
}.

#[global] Instance AircraftTelemetryState_eta : Eta AircraftTelemetryState := λ r,
  mkAircraftTelemetryState (TelemetryState_Status r) (TelemetryState_LastObservedAt r)
    (TelemetryState_Position r) (TelemetryState_Battery r) (TelemetryState_Vehicle r)
    (TelemetryState_System r) (TelemetryState_HUD r) (TelemetryState_ExtendedState r)
    (TelemetryState_GPS r).

Definition zero_AircraftTelemetryState : AircraftTelemetryState :=
  mkAircraftTelemetryState "" None None None None None None None None.

Record AircraftDashboard : Set := mkAircraftDashboard {
  Dashboard_Aircraft : Aircraft;
  Dashboard_OperatingProfile : option AircraftOperatingProfile;
  Dashboard_ActiveBattery : option Battery;
  Dashboard_MaintenanceEvents : list MaintenanceEvent;
  Dashboard_LatestTelemetry : option TelemetrySample;
  Dashboard_Telemetry : AircraftTelemetryState;
  Dashboard_LiveState : option LiveAircraftState;
  Dashboard_LiveStateAvailable : bool;
  Dashboard_Readiness : Readiness;
  Dashboard_CurrentIntent : option OperationalIntent;
}.

Record DashboardMetric : Set := mkDashboardMetric {
  Metric_Label : string;
  Metric_Value : string;
  Metric_Detail : string;
  Metric_Status : string;
}.

Record OverviewDashboard : Set := mkOverviewDashboard {
  Overview_Metrics : list DashboardMetric;
  Overview_Aircraft : list AircraftDashboard;
  Overview_OperationalIntents : list OperationalIntent;
  Overview_EvidenceRecords : list EvidenceRecord;
  Overview_ReportabilityReview : list ReportabilityReview;
}.

Record AircraftLiveState : Set := mkAircraftLiveState {
  AircraftLive_AircraftID : string;
  AircraftLive_OperatorID : string;
  AircraftLive_AgentID : string;
  AircraftLive_Connection : LiveAircraftState;
  AircraftLive_Telemetry : AircraftTelemetryState;
}.

Record OperationsDashboard : Set := mkOperationsDashboard {
  Operations_Metrics : list DashboardMetric;
  Operations_OperationalIntents : list OperationalIntent;
  Operations_Conformance : list ConformanceSummary;
  Operations_LiveAircraft : list AircraftLiveState;
}.

Record PreflightDashboard : Set := mkPreflightDashboard {
  PreflightDashboard_Metrics : list DashboardMetric;
  PreflightDashboard_Checks : list PreflightCheck;
}.

Record ConformanceDashboard : Set := mkConformanceDashboard {
  ConformanceDashboard_Metrics : list DashboardMetric;
  ConformanceDashboard_Summaries : list ConformanceSummary;
  ConformanceDashboard_Events : list ConformanceEvent;
}.

Record MaintenanceDashboard : Set := mkMaintenanceDashboard {
  MaintenanceDashboard_Metrics : list DashboardMetric;
  MaintenanceDashboard_Events : list MaintenanceEvent;
  MaintenanceDashboard_Batteries : list Battery;
}.

Record RecordsDashboard : Set := mkRecordsDashboard {
  RecordsDashboard_Metrics : list DashboardMetric;
  RecordsDashboard_EvidenceRecords : list EvidenceRecord;
  RecordsDashboard_ReportabilityReview : list ReportabilityReview;
}.

Record AircraftMapView : Set := mkAircraftMapView {
  MapView_Aircraft : Aircraft;
  MapView_LiveState : option LiveAircraftState;
  MapView_LiveStateAvailable : bool;
  MapView_LatestTelemetry : option TelemetrySample;
  MapView_Telemetry : AircraftTelemetryState;
  MapView_ReplaySamples : list TelemetrySample;
  MapView_ActiveIntent : option OperationalIntent;
  MapView_OperationalVolumes : list OperationalVolume;
  MapView_CommandedMission : option Mission;
  MapView_ConformanceSummary : option ConformanceSummary;
  MapView_ConformanceEvents : list ConformanceEvent;
}.

#[global] Instance AircraftMapView_eta : Eta AircraftMapView := λ r,
  mkAircraftMapView (MapView_Aircraft r) (MapView_LiveState r) (MapView_LiveStateAvailable r)
    (MapView_LatestTelemetry r) (MapView_Telemetry r) (MapView_ReplaySamples r)
    (MapView_ActiveIntent r) (MapView_OperationalVolumes r) (MapView_CommandedMission r)
    (MapView_ConformanceSummary r) (MapView_ConformanceEvents r).
