(* ===== verification/Errors.v ===== *)
(** * Error values

    The sentinel errors of the durable store and of the services, the errors
    that wrap them with [fmt.Errorf("...%w...")] or [errors.Join], and
    [errors.Is]; of the errors of other libraries, those that the program looks
    at.  A call that returns a value and an error has an [outcome]. *)

From S2P Require Import Prelude GoRuntime Domain.
From stdpp Require Import options.

(** The package variables initialised with [errors.New], compared by identity. *)
Inductive sentinel :=
  | ErrNotFound
  | ErrAlreadyExists
  | ErrVersionConflict
  | ErrActiveIntent
  | ErrIdempotencyConflict
  | ErrInvalidMissionCoverageGeometry
  | ErrInvalidTransition
  | ErrActivationBlocked
  | ErrValidation
  | ErrMissionDeploymentUnavailable
  | ErrConformanceHistoryUnavailable.

#[global] Instance sentinel_eq_dec : EqDecision sentinel.
Proof. solve_decision. Defined.

(** The texts given to [errors.New]: first those of package durable, then
    those of package service. *)
Definition durable_error_text (s : sentinel) : string :=
  match s with
  | ErrNotFound => "not found"
  | ErrAlreadyExists => "already exists"
  | ErrVersionConflict => "version conflict"
  | ErrActiveIntent => "aircraft already has an active operational intent"
  | ErrIdempotencyConflict => "idempotency key was already used for a different request"
  | ErrInvalidMissionCoverageGeometry => "invalid mission coverage geometry"
  | _ => ""
  end.

Definition sentinel_text (s : sentinel) : string :=
  match s with
  | ErrInvalidTransition => "invalid intent lifecycle transition"
  | ErrActivationBlocked => "intent activation blocked"
  | ErrValidation => "validation failed"
  | ErrMissionDeploymentUnavailable => "mission deployment unavailable"
  | ErrConformanceHistoryUnavailable => "durable conformance history is unavailable"
  | _ => durable_error_text s
  end.

Inductive error :=
  | New (s : sentinel)
  | Errorf (text : string) (wrapped : list error)
  | ActiveIntentModificationError (IntentID Status : string) (Version : Z)
  | SCDResponseError (StatusCode : Z) (text : string)
  | MissionValidationError (Findings : list MissionValidationFinding)
  | StatusError (Code : Z) (text : string)
  | PgError (Code ConstraintName : string) (text : string).

Coercion New : sentinel >-> error.

(** The method [Error]: the message. *)
Definition Error (e : error) : string :=
  match e with
  | New s => sentinel_text s
  | Errorf text _ => text
  | ActiveIntentModificationError _ _ _ =>
      sentinel_text ErrInvalidTransition +:+ ": active intent modification blocked"
  | SCDResponseError _ text => text
  | MissionValidationError findings =>
      sentinel_text ErrValidation +:+ ": mission validation produced "
        +:+ Itoa (Z.of_nat (length findings)) +:+ " blocking finding(s)"
  | StatusError _ text => text
  | PgError _ _ text => text
  end.

(** [errors.Is(err, target)] follows the wrapped errors. *)
Fixpoint errors_Is (e : error) (target : sentinel) : bool :=
  match e with
  | New s => bool_decide (s = target)
  | Errorf _ wrapped => existsb (λ e', errors_Is e' target) wrapped
  | ActiveIntentModificationError _ _ _ => bool_decide (ErrInvalidTransition = target)
  | SCDResponseError _ _ => false
  | MissionValidationError _ => bool_decide (ErrValidation = target)
  | StatusError _ _ | PgError _ _ _ => false
  end.

(** [errors.As(err, &responseErr)] for the answers of the coordination service
    with a status that is not a success: the status code of the first one. *)
Fixpoint errors_As_SCD (e : error) : option Z :=
  match e with
  | SCDResponseError code _ => Some code
  | Errorf _ wrapped => head (omap errors_As_SCD wrapped)
  | _ => None
  end.

(** [status.Code(err)] of an error of a gRPC call, itself or wrapped; errors of
    other kinds have the code Unknown. *)
Fixpoint errors_As_Status (e : error) : option Z :=
  match e with
  | StatusError code _ => Some code
  | Errorf _ wrapped => head (omap errors_As_Status wrapped)
  | _ => None
  end.

(** [errors.As(err, &pgErr)] for the errors of PostgreSQL: the code and the name
    of the constraint of the first one. *)
Fixpoint errors_As_Pg (e : error) : option (string * string) :=
  match e with
  | PgError code constraint _ => Some (code, constraint)
  | Errorf _ wrapped => head (omap errors_As_Pg wrapped)
  | _ => None
  end.

Definition codes_Unknown : Z := 2.
Definition codes_Unavailable : Z := 14.

Definition status_Code (e : error) : Z := default codes_Unknown (errors_As_Status e).

(** [fmt.Errorf] without a wrapped error, and [errors.New] outside a package
    variable. *)
Definition plain (text : string) : error := Errorf text [].

(** [fmt.Errorf("context: %w", err)] *)
Definition wrap (context : string) (err : error) : error :=
  Errorf (context +:+ ": " +:+ Error err) [err].

(** [fmt.Errorf("%w: detail", sentinel)] *)
Definition because (s : error) (detail : string) : error :=
  Errorf (Error s +:+ ": " +:+ detail) [s].

(** [errors.Join] of two errors that are not nil. *)
Definition errors_Join (e1 e2 : error) : error :=
  Errorf (Error e1 +:+ String (Ascii.ascii_of_N 10) (Error e2)) [e1; e2].

(** [errors.Join] of a list of errors that are not nil; nil for none. *)
Definition errors_Join_all (errs : list error) : option error :=
  match errs with
  | [] => None
  | _ => Some (Errorf (String.concat (String (Ascii.ascii_of_N 10) EmptyString) (map Error errs)) errs)
  end.

Lemma errors_Is_wrap c e s : errors_Is (wrap c e) s = errors_Is e s.
Proof. cbn. by rewrite orb_false_r. Qed.

Lemma errors_Is_because e d s : errors_Is (because e d) s = errors_Is e s.
Proof. cbn. by rewrite orb_false_r. Qed.

Lemma errors_Is_Join e1 e2 s : errors_Is (errors_Join e1 e2) s = errors_Is e1 s || errors_Is e2 s.
Proof. cbn. by rewrite orb_false_r. Qed.

(** ** Outcomes *)

Inductive outcome (A : Type) : Type :=
  | Ok (value : A)
  | Err (err : error).
Arguments Ok {A} value.
Arguments Err {A} err.

Definition is_ok {A} (o : outcome A) : bool := match o with Ok _ => true | Err _ => false end.

Create Rewrite HintDb errors.
#[export] Hint Rewrite errors_Is_wrap errors_Is_because errors_Is_Join : errors.
