(* ===== verification/GoTime.v ===== *)
(** * Dates and durations

    The calendar of package [time]: the date of a day, [Time.AddDate],
    [Time.Truncate] and the layout [time.RFC3339Nano], for instants in UTC.  A
    day is counted from the first of January of the year 1. *)

From S2P Require Import Prelude GoRuntime GoStrings GoFloat GoJson GoStrconv Errors.
From stdpp Require Import options.

Definition Hour : Duration := 60 * Minute.
Definition Day : Duration := 24 * Hour.

(** Year, month and day of a month. *)
Record date : Set := mkDate { year : Z; month : Z; day : Z }.

#[global] Instance date_eq_dec : EqDecision date.
Proof. solve_decision. Defined.

(** Years are counted from March here, so that the leap day is the last one; 400
    of them are an era. *)
Definition days_of_era : Z := 146097.

(** The date of a day of an era: the year in the era, and month and day. *)
Definition era_date (doe : Z) : Z * Z * Z :=
  let yoe := (doe - doe / 1460 + doe / 36524 - doe / 146096) / 365 in
  let doy := doe - (365 * yoe + yoe / 4 - yoe / 100) in
  let mp := (5 * doy + 2) / 153 in
  (yoe, if mp <? 10 then mp + 3 else mp - 9, doy - (153 * mp + 2) / 5 + 1).

Definition date_of_day (days : Z) : date :=
  let z := days + 306 in
  let '(yoe, m, d) := era_date (z mod days_of_era) in
  mkDate (yoe + 400 * (z / days_of_era) + (if m <=? 2 then 1 else 0)) m d.

(** The day of an era, of a year in it that starts in March. *)
Definition era_day (yoe m d : Z) : Z :=
  let doy := (153 * (if 2 <? m then m - 3 else m + 9) + 2) / 5 + d - 1 in
  yoe * 365 + yoe / 4 - yoe / 100 + doy.

Definition day_of_date (v : date) : Z :=
  let y := if month v <=? 2 then year v - 1 else year v in
  days_of_era * (y / 400) + era_day (y mod 400) (month v) (day v) - 306.

Example date_ex :
  date_of_day 0 = mkDate 1 1 1 ∧ date_of_day 719162 = mkDate 1970 1 1 ∧ date_of_day 739675 = mkDate 2026 3 1
  ∧ day_of_date (mkDate 2024 2 29) = 738944.
Proof. vm_compute. done. Qed.

(** [time.Date] with a month and a day that may be out of range. *)
Definition normal_month (v : date) : date :=
  mkDate (year v + (month v - 1) / 12) ((month v - 1) mod 12 + 1) (day v).

Definition day_of_any (v : date) : Z :=
  let v := normal_month v in day_of_date (mkDate (year v) (month v) 1) + (day v - 1).

Definition AddDate (t : Time) (years months days : Z) : Time :=
  let v := date_of_day (t / Day) in
  day_of_any (mkDate (year v + years) (month v + months) (day v + days)) * Day + t mod Day.

Example AddDate_ex :
  AddDate (day_of_date (mkDate 2026 3 31) * Day + 7) 0 (-8) 0 = day_of_date (mkDate 2025 7 31) * Day + 7
  ∧ AddDate (day_of_date (mkDate 2026 3 31) * Day) 0 (-1) 0 = day_of_date (mkDate 2026 3 3) * Day.
Proof. vm_compute. done. Qed.

(** [t.Truncate(d)] for a positive [d]. *)
Definition Truncate (t : Time) (d : Duration) : Time := t - t mod d.

(** ** The layout [time.RFC3339Nano] *)

(** At least [width] digits, of a number that may be negative. *)
Definition padded (width : nat) (n : Z) : string :=
  let digits := Itoa (Z.abs n) in
  (if n <? 0 then "-" else "")
    +:+ String.concat "" (repeat "0" (width - String.length digits)) +:+ digits.

Fixpoint drop_zeros (s : bytes) : bytes :=
  match s with c :: s' => if is_char 48 c then drop_zeros s' else s | [] => [] end.

(** The fraction of a second, without the zeros at its end. *)
Definition fraction (ns : Z) : string :=
  match rev (drop_zeros (rev (String.list_ascii_of_string (padded 9 ns)))) with
  | [] => ""
  | digits => "." +:+ String.string_of_list_ascii digits
  end.

Definition Format_RFC3339Nano (t : Time) : string :=
  let v := date_of_day (t / Day) in
  let clock := t mod Day in
  padded 4 (year v) +:+ "-" +:+ padded 2 (month v) +:+ "-" +:+ padded 2 (day v)
    +:+ "T" +:+ padded 2 (clock / Hour) +:+ ":" +:+ padded 2 (clock / Minute mod 60)
    +:+ ":" +:+ padded 2 (clock / Second mod 60) +:+ fraction (clock mod Second) +:+ "Z".

Example Format_ex :
  Format_RFC3339Nano (739675 * Day + 7 * Hour + 5 * Minute + 9 * Second + 120000000) = "2026-03-01T07:05:09.12Z"
  ∧ Format_RFC3339Nano unix_epoch = "1970-01-01T00:00:00Z".
Proof. vm_compute. done. Qed.

(** * Durations and booleans as texts

    [time.ParseDuration] and [strconv.ParseBool], as the configuration reads
    them.  The arithmetic is that of the library: unsigned integers of 64 bits
    before the point, a double for what comes after it. *)

(** ** [time.ParseDuration] *)

(** The quotation of the package: control characters and bytes above 127 are
    escaped. *)
Definition time_quote_byte (c : Ascii.ascii) : string :=
  let b := byte_of c in
  let escaped t := String (Ascii.ascii_of_N 92) t in
  if (128 <=? b)%N || (b <? 32)%N
  then escaped (String (Ascii.ascii_of_N 120) (String (hex_digit (b / 16)) (String (hex_digit (b mod 16)) EmptyString)))
  else if (b =? 34)%N || (b =? 92)%N then escaped (String c EmptyString)
  else String c EmptyString.

Definition time_quote (s : bytes) : string := double_quote +:+ String.concat "" (map time_quote_byte s) +:+ double_quote.

(** The integer at the start; [None] when it exceeds 2^63. *)
Fixpoint leadingInt (x : Z) (s : bytes) : option (Z * bytes) :=
  match s with
  | c :: s' =>
      match digit c with
      | None => Some (x, s)
      | Some d =>
          if 2 ^ 63 / 10 <? x then None
          else let x := x * 10 + d in if 2 ^ 63 <? x then None else leadingInt x s'
      end
  | [] => Some (x, [])
  end.

(** The digits after the point: their value, the power of ten it is divided by,
    and the rest; digits that do not fit are skipped. *)
Fixpoint leadingFraction (overflow : bool) (x : Z) (scale : float64) (s : bytes) : Z * float64 * bytes :=
  match s with
  | c :: s' =>
      match digit c with
      | None => (x, scale, s)
      | Some d =>
          if overflow || ((2 ^ 63 - 1) / 10 <? x) then leadingFraction true x scale s'
          else
            let y := x * 10 + d in
            if 2 ^ 63 <? y then leadingFraction true x scale s'
            else leadingFraction false y (f_mul scale (float_of_Z 10)) s'
      end
  | [] => (x, scale, [])
  end.

(** A byte of a number. *)
Definition numeric (c : Ascii.ascii) : bool := is_char 46 c || negb (is_nil (digit c)).

(** The unit at the start, and the rest. *)
Fixpoint leadingUnit (s : bytes) : bytes * bytes :=
  match s with
  | c :: s' => if numeric c then ([], s) else let '(unit, rest) := leadingUnit s' in (c :: unit, rest)
  | [] => ([], [])
  end.

Definition micro_sign : string := String (Ascii.ascii_of_N 194) (String (Ascii.ascii_of_N 181) "s").
Definition greek_mu : string := String (Ascii.ascii_of_N 206) (String (Ascii.ascii_of_N 188) "s").

Definition unitMap (unit : string) : option Z :=
  if unit =s= "ns" then Some 1
  else if (unit =s= "us") || (unit =s= micro_sign) || (unit =s= greek_mu) then Some 1000
  else if unit =s= "ms" then Some Millisecond
  else if unit =s= "s" then Some Second
  else if unit =s= "m" then Some Minute
  else if unit =s= "h" then Some (60 * Minute)
  else None.

Definition invalid_duration (orig : bytes) : error := plain ("time: invalid duration " +:+ time_quote orig).

(** One number with its unit: its nanoseconds, and the rest. *)
Definition duration_part (orig s : bytes) : outcome (Z * bytes) :=
  match s with
  | [] => Err (invalid_duration orig)
  | c :: _ =>
      if negb (numeric c) then Err (invalid_duration orig)
      else
        match leadingInt 0 s with
        | None => Err (invalid_duration orig)
        | Some (v, s1) =>
            let pre := negb (length s =? length s1)%nat in
            let '(f, scale, s2, post) :=
              match s1 with
              | point :: s1' =>
                  if is_char 46 point
                  then let '(f, scale, s2) := leadingFraction false 0 (float_of_Z 1) s1' in
                       (f, scale, s2, negb (length s1' =? length s2)%nat)
                  else (0, float_of_Z 1, s1, false)
              | [] => (0, float_of_Z 1, s1, false)
              end in
            if negb pre && negb post then Err (invalid_duration orig)
            else
              let '(unit, rest) := leadingUnit s2 in
              match unit with
              | [] => Err (plain ("time: missing unit in duration " +:+ time_quote orig))
              | _ =>
                  match unitMap (String.string_of_list_ascii unit) with
                  | None => Err (plain ("time: unknown unit " +:+ time_quote unit +:+ " in duration " +:+ time_quote orig))
                  | Some unit =>
                      if 2 ^ 63 / unit <? v then Err (invalid_duration orig)
                      else
                        let v := v * unit in
                        let v := if 0 <? f
                                 then wrap_uint64 (v + truncate (f_mul (float_of_Z f) (f_div (float_of_Z unit) scale)))
                                 else v in
                        if 2 ^ 63 <? v then Err (invalid_duration orig) else Ok (v, rest)
                  end
              end
        end
  end.

(** The parts added up, one at a time. *)
Fixpoint duration_parts (fuel : nat) (orig : bytes) (d : Z) (s : bytes) : outcome Z :=
  match fuel, s with
  | _, [] => Ok d
  | O, _ => Err (plain "out of fuel")
  | S fuel, _ =>
      match duration_part orig s with
      | Err err => Err err
      | Ok (v, rest) =>
          let d := wrap_uint64 (d + v) in
          if 2 ^ 63 <? d then Err (invalid_duration orig) else duration_parts fuel orig d rest
      end
  end.

Definition ParseDuration (text : string) : outcome Duration :=
  let orig := String.list_ascii_of_string text in
  let '(negative, s) := numeral_sign orig in
  if String.string_of_list_ascii s =s= "0" then Ok 0
  else if (length s =? 0)%nat then Err (invalid_duration orig)
  else
    match duration_parts (length s) orig 0 s with
    | Err err => Err err
    | Ok d =>
        if negative then Ok (wrap_int64 (- d))
        else if 2 ^ 63 - 1 <? d then Err (invalid_duration orig) else Ok d
    end.

Example ParseDuration_ex :
  map ParseDuration ["35s"; "1h15m30.918ms"; "-1.5h"; "+0"; "1.000000001s"; "9223372036854775807ns"]
  = [Ok (35 * Second); Ok (75 * Minute + 30918000); Ok (- 90 * Minute); Ok 0; Ok 1000000001; Ok (2 ^ 63 - 1)]
  ∧ map (λ text, is_ok (ParseDuration text)) ["9223372036854775808ns"; ""; "3"; ".s"; "1d"; "2562048h"]
    = [false; false; false; false; false; false]
  ∧ ParseDuration "1d" = Err (plain ("time: unknown unit " +:+ quote "d" +:+ " in duration " +:+ quote "1d"))
  ∧ ParseDuration ("2" +:+ micro_sign) = Ok 2000.
Proof. vm_compute. done. Qed.

(** ** [strconv.ParseBool] *)

Definition ParseBool (text : string) : outcome bool :=
  if existsb (String.eqb text) ["1"; "t"; "T"; "true"; "TRUE"; "True"] then Ok true
  else if existsb (String.eqb text) ["0"; "f"; "F"; "false"; "FALSE"; "False"] then Ok false
  else Err (plain ("strconv.ParseBool: parsing " +:+ quote text +:+ ": invalid syntax")).

(** ** Facts *)

(** Every part takes a byte at least, so that there is fuel for all of them. *)
Lemma leadingInt_shorter x s v rest : leadingInt x s = Some (v, rest) → (length rest ≤ length s)%nat.
Proof.
  revert x. induction s as [|c s IH]; intros x; cbn [leadingInt]; [by intros [= _ <-]|].
  destruct (digit c); [|by intros [= _ <-]]. repeat case_match; try done. intros Hrest%IH. cbn. lia.
Qed.

Lemma leadingFraction_shorter overflow x scale s :
  (length (leadingFraction overflow x scale s).2 ≤ length s)%nat.
Proof.
  revert overflow x scale. induction s as [|c s IH]; intros; cbn [leadingFraction]; [done|].
  destruct (digit c); [|done]. repeat case_match; (etransitivity; [apply IH|cbn; lia]).
Qed.

Lemma leadingUnit_app s : s = (leadingUnit s).1 ++ (leadingUnit s).2.
Proof.
  induction s as [|c s IH]; cbn; [done|]. destruct (numeric c); [done|].
  destruct (leadingUnit s) as [unit rest]. cbn in *. congruence.
Qed.

Lemma duration_part_shorter orig s v rest : duration_part orig s = Ok (v, rest) → (length rest < length s)%nat.
Proof.
  unfold duration_part. destruct s as [|c s0]; [done|]. set (s := c :: s0).
  destruct (negb (numeric c)); [done|]. destruct (leadingInt 0 s) as [[n s1]|] eqn:Hint; [|done].
  apply leadingInt_shorter in Hint.
  destruct (match s1 with [] => _ | _ => _ end) as [[[f scale] s2] post] eqn:Hfraction.
  assert (length s2 ≤ length s1)%nat as Hle.
  { destruct s1 as [|point s1']; [by simplify_eq|]. destruct (is_char 46 point); [|by simplify_eq].
    pose proof (leadingFraction_shorter false 0 (float_of_Z 1) s1') as Hle.
    destruct (leadingFraction _ _ _ s1') as [[f' scale'] s2']. simplify_eq. cbn in *. lia. }
  destruct (negb _ && negb post); [done|]. pose proof (f_equal length (leadingUnit_app s2)) as Happ.
  destruct (leadingUnit s2) as [[|u unit] rest']; [done|]. rewrite length_app in Happ. cbn in Happ.
  repeat case_match; try done; intros [= _ <-]; lia.
Qed.

Lemma duration_parts_fuel fuel orig d s :
  (length s ≤ fuel)%nat → duration_parts fuel orig d s = duration_parts (length s) orig d s.
Proof.
  revert d s. induction (lt_wf fuel) as [fuel _ IH]; intros d s Hfuel.
  destruct s as [|c s]; [by destruct fuel|]. destruct fuel as [|fuel]; [cbn in Hfuel; lia|].
  cbn [length duration_parts]. destruct (duration_part orig (c :: s)) as [[v rest]|err] eqn:Hpart; [|done].
  apply duration_part_shorter in Hpart. cbn [length] in *. case_match; [done|].
  rewrite (IH fuel) by lia. destruct (decide (length s = fuel)) as [<-|].
  - rewrite (IH (length s)) by lia. done.
  - rewrite (IH (length s)) by lia. done.
Qed.

(** ** Numerals *)

Lemma digit_char (x : N) : digit (pretty_N_char (x mod 10)) = Some (Z.of_N (x mod 10)).
Proof.
  assert (x mod 10 < 10)%N as Hlt by (apply N.mod_lt; done). revert Hlt. generalize (x mod 10)%N as d. intros d Hd.
  destruct d as [|p]; [done|]. do 4 (destruct p as [p|p|]; try done; try lia).
Qed.

Lemma digit_plain c d : digit c = Some d → is_char 43 c = false ∧ is_char 45 c = false ∧ numeric c = true.
Proof. destruct c as [[] [] [] [] [] [] [] []]; by vm_compute. Qed.

(** The bytes of a numeral, and of what follows it. *)
Lemma numeral_step x (s : string) : (0 < x)%N →
  String.list_ascii_of_string (pretty_N_go x s)
  = String.list_ascii_of_string (pretty_N_go (x / 10) (String (pretty_N_char (x mod 10)) s)).
Proof. intros Hx. by rewrite pretty_N_go_step. Qed.

Lemma numeral_first x s : (0 < x)%N →
  ∃ c l d, String.list_ascii_of_string (pretty_N_go x s) = c :: l ∧ digit c = Some d.
Proof.
  revert s. induction (N.lt_wf_0 x) as [x _ IH]; intros s Hx. rewrite numeral_step by done.
  destruct (decide (x / 10 = 0)%N) as [->|Hne].
  - rewrite pretty_N_go_0. cbn. eauto using digit_char.
  - apply IH; [apply N.div_lt; lia|by apply N.neq_0_lt_0].
Qed.

Lemma leadingInt_numeral x s :
  leadingInt 0 (String.list_ascii_of_string (pretty_N_go x s))
  = if Z.of_N x <=? 2 ^ 63 then leadingInt (Z.of_N x) (String.list_ascii_of_string s) else None.
Proof.
  revert s. induction (N.lt_wf_0 x) as [x _ IH]; intros s.
  destruct (decide (x = 0)%N) as [->|Hne]; [done|]. rewrite numeral_step by lia.
  rewrite IH by (apply N.div_lt; lia). cbn [String.list_ascii_of_string leadingInt]. rewrite digit_char.
  assert (Z.of_N x = Z.of_N (x / 10) * 10 + Z.of_N (x mod 10)) as Heq.
  { pose proof (N.div_mod x 10). lia. }
  rewrite <- Heq. pose proof (N.mod_lt x 10) as H. change (2 ^ 63 / 10) with 922337203685477580.
  change (2 ^ 63) with 9223372036854775808 in *. revert Heq H. generalize (x / 10)%N (x mod 10)%N. intros q r Heq Hr. repeat case_match; to_prop; try done; lia.
Qed.

Lemma digits_numeral x s :
  ∃ k, 0 ≤ k ∧ (x ≠ 0%N → 0 < k) ∧
    digits 0 0 (String.list_ascii_of_string (pretty_N_go x s)) = digits (Z.of_N x) k (String.list_ascii_of_string s).
Proof.
  revert s. induction (N.lt_wf_0 x) as [x _ IH]; intros s.
  destruct (decide (x = 0)%N) as [->|Hne]; [by exists 0|]. rewrite numeral_step by lia.
  destruct (IH (x / 10)%N (N.div_lt x 10 (proj1 (N.neq_0_lt_0 x) Hne) eq_refl) (String (pretty_N_char (x mod 10)) s)) as (k & Hk & _ & ->).
  exists (k + 1). split_and!; [lia..|]. cbn [String.list_ascii_of_string digits]. rewrite digit_char.
  f_equal. pose proof (N.div_mod x 10). lia.
Qed.

Lemma pretty_N_go_app x s t : pretty_N_go x s +:+ t = pretty_N_go x (s +:+ t).
Proof.
  revert s. induction (N.lt_wf_0 x) as [x _ IH]; intros s.
  destruct (decide (x = 0)%N) as [->|Hne]; [by rewrite !pretty_N_go_0|].
  rewrite !(pretty_N_go_step x) by lia. rewrite IH by (apply N.div_lt; lia). by rewrite string_app_cons.
Qed.

Lemma Itoa_numeral z : 0 < z → Itoa z = pretty_N_go (Z.to_N z) "".
Proof.
  intros Hz. destruct z as [|p|p]; [lia| |lia]. change (Itoa (Z.pos p)) with (pretty (N.pos p)).
  unfold pretty, pretty_N. by case_decide.
Qed.

Lemma Atoi_Itoa z : 0 ≤ z < 2 ^ 63 → Atoi (Itoa z) = Some z.
Proof.
  intros Hz. destruct (decide (z = 0)) as [->|Hne]; [done|]. rewrite Itoa_numeral by lia. unfold Atoi.
  destruct (numeral_first (Z.to_N z) "") as (c & l & d & Hl & Hd); [lia|].
  apply digit_plain in Hd as (Hplus & Hminus & _).
  destruct (digits_numeral (Z.to_N z) "") as (k & _ & Hk & Hdigits). rewrite Hl in *. cbn [numeral_sign].
  rewrite Hplus, Hminus, Hdigits. cbn [String.list_ascii_of_string digits].
  rewrite (proj2 (Z.eqb_neq k 0)) by (specialize (Hk ltac:(lia)); lia). rewrite Z2N.id by lia.
  change (2 ^ 63) with 9223372036854775808 in *.
  by rewrite (proj2 (Z.leb_le _ _)), (proj2 (Z.ltb_lt _ _)) by lia.
Qed.

(** A numeral that does not fit is no [int], *)
Lemma Atoi_large z : 2 ^ 63 ≤ z → Atoi (Itoa z) = None.
Proof.
  change (2 ^ 63) with 9223372036854775808. intros Hz. rewrite Itoa_numeral by lia. unfold Atoi.
  destruct (numeral_first (Z.to_N z) "") as (c & l & d & Hl & Hd); [lia|].
  apply digit_plain in Hd as (Hplus & Hminus & _).
  destruct (digits_numeral (Z.to_N z) "") as (k & _ & _ & Hdigits). rewrite Hl in *. cbn [numeral_sign].
  rewrite Hplus, Hminus, Hdigits. cbn [String.list_ascii_of_string digits]. destruct (k =? 0); [done|].
  rewrite Z2N.id by lia. change (2 ^ 63) with 9223372036854775808. by rewrite (proj2 (Z.ltb_ge _ _)), andb_false_r by lia.
Qed.

(** and no numeral by itself is the text of a duration, but 0. *)
Lemma ParseDuration_numeral z : 0 < z → ∃ err, ParseDuration (Itoa z) = Err err.
Proof.
  intros Hz. unfold ParseDuration.
  destruct (numeral_first (Z.to_N z) "") as (c & l & d & Hl & Hd); [lia|]. rewrite <- Itoa_numeral in Hl by done.
  pose proof (leadingInt_numeral (Z.to_N z) "") as Hint. rewrite <- Itoa_numeral, Z2N.id in Hint by lia.
  rewrite Hl in *. destruct (digit_plain c d Hd) as (Hplus & Hminus & Hnumeric). cbn [numeral_sign]. rewrite Hplus, Hminus.
  destruct (String.eqb_spec (String.string_of_list_ascii (c :: l)) "0") as [Hzero|_].
  { rewrite <- Hl, String.string_of_list_ascii_of_string in Hzero. apply (Itoa_inj z 0) in Hzero. lia. }
  cbn [length Nat.eqb duration_parts]. unfold duration_part. rewrite Hnumeric, Hint. cbn [negb].
  destruct (z <=? 2 ^ 63); [|eauto]. cbn [String.list_ascii_of_string leadingInt length Nat.eqb negb andb leadingUnit]. eauto.
Qed.

(** A numeral with a unit is not an integer. *)
Lemma Atoi_unit z unit : 0 ≤ z → (∃ c l, String.list_ascii_of_string unit = c :: l ∧ digit c = None) →
  Atoi (Itoa z +:+ unit) = None.
Proof.
  intros Hz (c0 & l0 & Hunit & Hc0). destruct (decide (z = 0)) as [->|Hne].
  - change (Itoa 0 +:+ unit) with (String (Ascii.ascii_of_N 48) ("" +:+ unit)). rewrite string_app_nil. unfold Atoi.
    cbn [String.list_ascii_of_string]. rewrite Hunit.
    change (numeral_sign (Ascii.ascii_of_N 48 :: c0 :: l0)) with (false, Ascii.ascii_of_N 48 :: c0 :: l0). cbn [digits].
    change (digit (Ascii.ascii_of_N 48)) with (Some 0). by rewrite Hc0.
  - rewrite Itoa_numeral, pretty_N_go_app, string_app_nil by lia. unfold Atoi.
    destruct (numeral_first (Z.to_N z) unit) as (c & l & d & Hl & Hd); [lia|].
    apply digit_plain in Hd as (Hplus & Hminus & _).
    destruct (digits_numeral (Z.to_N z) unit) as (k & _ & _ & Hdigits). rewrite Hl in *. cbn [numeral_sign].
    rewrite Hplus, Hminus, Hdigits, Hunit. cbn [digits]. by rewrite Hc0.
Qed.

(** The bytes of a unit. *)
Lemma unit_bytes unit u : unitMap unit = Some u →
  ∃ c l, String.list_ascii_of_string unit = c :: l ∧ digit c = None ∧ is_char 46 c = false
    ∧ leadingUnit (c :: l) = (c :: l, []).
Proof.
  unfold unitMap. repeat case_match; try done; to_prop; intros _;
    repeat match goal with
      | H : (_ || _) = true |- _ => apply orb_true_iff in H as [H|H]
      | H : (unit =s= _) = true |- _ => apply String.eqb_eq in H
      | H : _ ∨ _ |- _ => destruct H
      end; subst; by do 2 eexists.
Qed.

Lemma unit_positive unit u : unitMap unit = Some u → 0 < u ≤ 3600000000000.
Proof. unfold unitMap. repeat case_match; by intros [= <-]. Qed.

(** A number and its unit. *)
Lemma duration_part_unit orig c s d n unit u :
  digit c = Some d → unitMap unit = Some u →
  leadingInt 0 (c :: s) = (if n <=? 2 ^ 63 then Some (n, String.list_ascii_of_string unit) else None) →
  duration_part orig (c :: s)
  = if n * u <=? 2 ^ 63 then Ok (n * u, []) else Err (invalid_duration orig).
Proof.
  intros Hd Hu Hint. pose proof (unit_positive unit u Hu) as Hpositive.
  destruct (unit_bytes unit u Hu) as (c0 & l0 & Hunit & Hc0 & Hpoint & Hlead).
  destruct (digit_plain c d Hd) as (_ & _ & Hnumeric). unfold duration_part. rewrite Hnumeric, Hint. cbn [negb].
  destruct (Z.leb_spec n (2 ^ 63)) as [Hn|Hn].
  - rewrite Hunit in *. assert (length (c0 :: l0) ≤ length s)%nat as Hshorter.
    { cbn [leadingInt] in Hint. rewrite Hd in Hint. cbn zeta in Hint. repeat case_match; try done.
      by apply leadingInt_shorter in Hint. }
    rewrite (proj2 (Nat.eqb_neq _ _)) by (cbn in *; lia). rewrite Hpoint. cbn [negb andb]. rewrite Hlead.
    rewrite <- Hunit, String.string_of_list_ascii_of_string, Hu. cbn [Z.ltb Z.compare].
    destruct (Z.ltb_spec (2 ^ 63 / u) n) as [Hbig|Hsmall]; destruct (Z.leb_spec (n * u) (2 ^ 63)) as [Hle|Hlt]; try done.
    + exfalso. apply Z.lt_nge in Hbig. apply Hbig, Z.div_le_lower_bound; lia.
    + by rewrite (proj2 (Z.ltb_ge _ _)) by done.
    + exfalso. pose proof (Z.mul_div_le (2 ^ 63) u). nia.
  - rewrite (proj2 (Z.leb_gt _ _)); [done|nia].
Qed.

(** The text of a count of a unit is read as that many of them, or refused when
    they do not fit. *)
Lemma ParseDuration_unit n unit u : 0 ≤ n → unitMap unit = Some u →
  ParseDuration (Itoa n +:+ unit)
  = if n * u <? 2 ^ 63 then Ok (n * u)
    else Err (invalid_duration (String.list_ascii_of_string (Itoa n +:+ unit))).
Proof.
  intros Hn Hu. set (text := Itoa n +:+ unit).
  destruct (unit_bytes unit u Hu) as (c0 & l0 & Hunit & Hc0 & _).
  assert (∃ c s d, String.list_ascii_of_string text = c :: s ∧ digit c = Some d
    ∧ leadingInt 0 (c :: s) = if n <=? 2 ^ 63 then Some (n, String.list_ascii_of_string unit) else None)
    as (c & s & d & Htext & Hd & Hint).
  { assert (leadingInt n (String.list_ascii_of_string unit) = Some (n, String.list_ascii_of_string unit)) as Hstop
      by (rewrite Hunit; cbn [leadingInt]; by rewrite Hc0).
    subst text. destruct (decide (n = 0)) as [->|Hne].
    - exists (Ascii.ascii_of_N 48), (String.list_ascii_of_string unit), 0. by split_and!.
    - rewrite Itoa_numeral, pretty_N_go_app, string_app_nil by lia.
      destruct (numeral_first (Z.to_N n) unit) as (c & l & d & Hl & Hd); [lia|]. exists c, l, d.
      split_and!; [done..|]. rewrite <- Hl, leadingInt_numeral, Z2N.id by lia. by rewrite Hstop. }
  unfold ParseDuration. rewrite Htext. destruct (digit_plain c d Hd) as (Hplus & Hminus & _).
  cbn [numeral_sign]. rewrite Hplus, Hminus.
  destruct (String.eqb_spec (String.string_of_list_ascii (c :: s)) "0") as [Hzero|_].
  { apply (f_equal String.list_ascii_of_string) in Hzero. rewrite String.list_ascii_of_string_of_list_ascii in Hzero.
    rewrite Hzero, Hunit in Hint.
    change (leadingInt 0 (String.list_ascii_of_string "0")) with (Some (0, @nil Ascii.ascii)) in Hint.
    by destruct (n <=? 2 ^ 63). }
  cbn [length Nat.eqb duration_parts].
  rewrite (duration_part_unit (c :: s) c s d n unit u Hd Hu Hint). pose proof (unit_positive unit u Hu).
  destruct (Z.leb_spec (n * u) (2 ^ 63)) as [Hle|Hlt].
  - unfold wrap_uint64. rewrite Z.add_0_l, Z.mod_small by lia. rewrite (proj2 (Z.ltb_ge _ _)) by done.
    destruct (length s); cbn [duration_parts]; destruct (Z.ltb_spec (2 ^ 63 - 1) (n * u));
      destruct (Z.ltb_spec (n * u) (2 ^ 63)); try done; lia.
  - by rewrite (proj2 (Z.ltb_ge _ _)) by lia.
Qed.
