(* ===== verification/TelemetryStores.v ===== *)
(** * The in-memory telemetry and replay stores

    src/internal/store/telemetry/memory/telemetry.go and
    src/internal/store/replay/memory/replay.go, and the interfaces they
    implement (src/internal/store/telemetry/telemetry.go,
    src/internal/store/replay/replay.go).  Each method holds the lock of its
    store, so it is one atomic step. *)

From S2P Require Import Prelude GoRuntime GoRange Domain LiveDomain Errors.
From stdpp Require Import options.

(** ** The interfaces *)

Definition DefaultSampleLimit : Z := 1000.

Module Telemetry.
Inductive telemetryE : Type → Type :=
  | AddSample (sample : TelemetrySample) : telemetryE unit
  | GetLatestAircraftStates (aircraftIDs : list string) : telemetryE (gmap string AircraftTelemetryState)
  | GetLatestSample (aircraftID : string) : telemetryE (option TelemetrySample)
  | QueryAircraftSamples (aircraftID : string) (limit : Z) : telemetryE (list TelemetrySample)
  | QueryFlightSamples (flightID : string) (limit : Z) : telemetryE (list TelemetrySample).
End Telemetry.

(** ** Samples *)

Record TelemetryStore : Set := mkTelemetryStore { samples : list TelemetrySample }.

Definition AddSample (sample : TelemetrySample) (s : TelemetryStore) : TelemetryStore :=
  mkTelemetryStore (samples s ++ [sample]).

(** The observation made of a sample. *)
Definition sample_observation (sample : TelemetrySample) : TelemetryObservation :=
  zero_TelemetryObservation
    <| Observation_RecordedAt := Sample_RecordedAt sample |>
    <| Observation_FrameID := Sample_ID sample |>
    <| Observation_OperatorID := Sample_OperatorID sample |>
    <| Observation_IntentID := Sample_IntentID sample |>
    <| Observation_IntentVersion := Sample_IntentVersion sample |>
    <| Observation_FlightID := Sample_FlightID sample |>.

Definition sample_position (sample : TelemetrySample) : PositionTelemetry :=
  zero_PositionTelemetry
    <| Position_TelemetryObservation := sample_observation sample |>
    <| Position_LatitudeDeg := Sample_Latitude sample |>
    <| Position_LongitudeDeg := Sample_Longitude sample |>
    <| Position_AltitudeMSLM := Some (Sample_AltitudeM sample) |>
    <| Position_GroundspeedMPS := Some (Sample_VelocityMPS sample) |>
    <| Position_HeadingDeg := Some (Sample_HeadingDeg sample) |>.

Definition sample_battery (sample : TelemetrySample) (remaining : float64) : BatteryTelemetry :=
  zero_BatteryTelemetry
    <| BatteryTelemetry_TelemetryObservation := sample_observation sample |>
    <| BatteryTelemetry_BatteryRemainingPct := Some remaining |>.

(** The position and the battery are those of the latest sample that has them;
    of samples recorded at the same time, the first. *)
Definition newer_position (sample : TelemetrySample) (position : option PositionTelemetry) : bool :=
  match position with
  | None => true
  | Some position => After (Sample_RecordedAt sample) (Observation_RecordedAt (Position_TelemetryObservation position))
  end.

Definition newer_battery (sample : TelemetrySample) (battery : option BatteryTelemetry) : bool :=
  match battery with
  | None => true
  | Some battery =>
      After (Sample_RecordedAt sample) (Observation_RecordedAt (BatteryTelemetry_TelemetryObservation battery))
  end.

Definition sampled_state (sample : TelemetrySample) (state : AircraftTelemetryState) : AircraftTelemetryState :=
  let state :=
    if newer_position sample (TelemetryState_Position state)
    then state <| TelemetryState_Position := Some (sample_position sample) |> else state in
  match Sample_BatteryPct sample with
  | Some remaining =>
      if newer_battery sample (TelemetryState_Battery state)
      then state <| TelemetryState_Battery := Some (sample_battery sample remaining) |> else state
  | None => state
  end.

(** One round of the loop over the samples; only the aircraft asked for are in
    [states]. *)
Definition sampled_states (states : gmap string AircraftTelemetryState) (sample : TelemetrySample)
    : gmap string AircraftTelemetryState :=
  match states !! Sample_AircraftID sample with
  | None => states
  | Some state => <[Sample_AircraftID sample := sampled_state sample state]> states
  end.

Definition GetLatestAircraftStates (aircraftIDs : list string) (s : TelemetryStore)
    : gmap string AircraftTelemetryState :=
  foldl sampled_states
    (foldl (λ states aircraftID, <[aircraftID := zero_AircraftTelemetryState]> states) ∅ aircraftIDs)
    (samples s).

Definition GetLatestSample (aircraftID : string) (s : TelemetryStore) : option TelemetrySample :=
  scan_best (λ item latest, After (Sample_RecordedAt item) (Sample_RecordedAt latest))
    (select (λ sample, Sample_AircraftID sample =s= aircraftID) (samples s)).

Definition effective_limit (limit : Z) : Z := if limit <=? 0 then DefaultSampleLimit else limit.

Section queries.
Context {RT : Runtime}.

Definition by_time (l : list TelemetrySample) : list TelemetrySample :=
  sort_slice (λ a b, Before (Sample_RecordedAt a) (Sample_RecordedAt b)) l.

(** The latest samples of an aircraft, *)
Definition QueryAircraftSamples (aircraftID : string) (limit : Z) (s : TelemetryStore) : list TelemetrySample :=
  let limit := effective_limit limit in
  let found := by_time (select (λ sample, Sample_AircraftID sample =s= aircraftID) (samples s)) in
  if (0 <? limit) && (limit <? Z.of_nat (length found))
  then drop (length found - Z.to_nat limit) found else found.

(** and the first ones of a flight. *)
Definition QueryFlightSamples (flightID : string) (limit : Z) (s : TelemetryStore) : list TelemetrySample :=
  let limit := effective_limit limit in
  let found := by_time (select (λ sample, Sample_FlightID sample =s= flightID) (samples s)) in
  if (0 <? limit) && (limit <? Z.of_nat (length found))
  then take (Z.to_nat limit) found else found.

Definition telemetry_step {A} (e : Telemetry.telemetryE A) (s : TelemetryStore) : outcome A * TelemetryStore :=
  match e in Telemetry.telemetryE A return outcome A * TelemetryStore with
  | Telemetry.AddSample sample => (Ok tt, AddSample sample s)
  | Telemetry.GetLatestAircraftStates aircraftIDs => (Ok (GetLatestAircraftStates aircraftIDs s), s)
  | Telemetry.GetLatestSample aircraftID => (Ok (GetLatestSample aircraftID s), s)
  | Telemetry.QueryAircraftSamples aircraftID limit => (Ok (QueryAircraftSamples aircraftID limit s), s)
  | Telemetry.QueryFlightSamples flightID limit => (Ok (QueryFlightSamples flightID limit s), s)
  end.
End queries.

(** ** Replay manifests *)

Definition ReplayStore : Set := gmap string ReplayManifest.

Definition PutReplayManifest (manifest : ReplayManifest) (s : ReplayStore) : ReplayStore :=
  <[Manifest_FlightID manifest := manifest]> s.

Definition GetReplayManifest (flightID : string) (s : ReplayStore) : option ReplayManifest := s !! flightID.

Module Replay.
Inductive replayE : Type → Type :=
  | GetReplayManifest (flightID : string) : replayE (option ReplayManifest).
End Replay.

(** ** The latest states

    What the loop over the samples computes, aircraft by aircraft. *)

Definition latest_of (l : list TelemetrySample) : option TelemetrySample :=
  scan_best (λ item latest, After (Sample_RecordedAt item) (Sample_RecordedAt latest)) l.

Definition has_battery (sample : TelemetrySample) : bool := negb (is_nil (Sample_BatteryPct sample)).

Definition battery_of (sample : TelemetrySample) : option BatteryTelemetry :=
  sample_battery sample <$> Sample_BatteryPct sample.

Definition state_of_samples (own : list TelemetrySample) : AircraftTelemetryState :=
  zero_AircraftTelemetryState
    <| TelemetryState_Position := sample_position <$> latest_of own |>
    <| TelemetryState_Battery := latest_of (select has_battery own) ≫= battery_of |>.

Lemma latest_of_snoc l x :
  latest_of (l ++ [x]) = scan_step (λ item latest, After (Sample_RecordedAt item) (Sample_RecordedAt latest)) (latest_of l) x.
Proof. unfold latest_of, scan_best. by rewrite foldl_app. Qed.

Lemma latest_of_elem l x : latest_of l = Some x → x ∈ l.
Proof.
  revert x. induction l as [|y l IH] using rev_ind; intros x; [done|]. rewrite latest_of_snoc, elem_of_app, list_elem_of_singleton.
  destruct (latest_of l) as [z|]; cbn; [case_match|]; intros [= <-]; auto.
Qed.

Lemma latest_position own sample :
  (if newer_position sample (sample_position <$> latest_of own) then Some (sample_position sample)
   else sample_position <$> latest_of own) = sample_position <$> latest_of (own ++ [sample]).
Proof. rewrite latest_of_snoc. destruct (latest_of own) as [b|]; [|done]. cbn. by destruct (After _ _). Qed.

Lemma latest_battery own sample :
  match Sample_BatteryPct sample with
  | Some remaining =>
      if newer_battery sample (latest_of (select has_battery own) ≫= battery_of)
      then Some (sample_battery sample remaining) else latest_of (select has_battery own) ≫= battery_of
  | None => latest_of (select has_battery own) ≫= battery_of
  end = latest_of (select has_battery (own ++ [sample])) ≫= battery_of.
Proof.
  rewrite select_app, select_cons. unfold has_battery at 5.
  destruct (Sample_BatteryPct sample) as [remaining|] eqn:Hremaining; cbn [negb is_nil]; [|by rewrite app_nil_r].
  change (select has_battery []) with (@nil TelemetrySample). rewrite latest_of_snoc.
  destruct (latest_of (select has_battery own)) as [b|] eqn:Hb.
  - apply latest_of_elem, elem_of_select in Hb as [_ Hb]. unfold has_battery in Hb.
    unfold scan_step. cbn [mbind option_bind]. unfold battery_of at 1 2. destruct (Sample_BatteryPct b) as [pct|] eqn:Hp; [|done].
    cbn [fmap option_fmap option_map newer_battery]. cbn. destruct (After _ _); cbn; unfold battery_of; rewrite ?Hp, ?Hremaining; done.
  - cbn. unfold battery_of. by rewrite Hremaining.
Qed.

Lemma sampled_state_of_samples own sample :
  sampled_state sample (state_of_samples own) = state_of_samples (own ++ [sample]).
Proof.
  unfold state_of_samples. rewrite <- latest_position, <- latest_battery. unfold sampled_state.
  cbn [TelemetryState_Position TelemetryState_Battery with_field].
  destruct (newer_position _ _), (Sample_BatteryPct sample); cbn; try done; by destruct (newer_battery _ _).
Qed.

Lemma sampled_states_lookup l states id :
  (∀ state, states !! id = Some state → state = zero_AircraftTelemetryState) →
  foldl sampled_states states l !! id =
  (λ _, state_of_samples (select (λ sample, Sample_AircraftID sample =s= id) l)) <$> states !! id.
Proof.
  intros Hzero. induction l as [|x l IH] using rev_ind; cbn.
  { destruct (states !! id) as [state|]; [|done]. cbn. by rewrite (Hzero state eq_refl). }
  rewrite foldl_app. cbn. unfold sampled_states at 1.
  rewrite select_app, select_cons. destruct (Sample_AircraftID x =s= id) eqn:Hx.
  - apply String.eqb_eq in Hx as ->. rewrite IH. destruct (states !! id) as [state|]; cbn.
    + by rewrite lookup_insert_eq, sampled_state_of_samples.
    + by rewrite IH.
  - apply String.eqb_neq in Hx. change (select _ []) with (@nil TelemetrySample). rewrite app_nil_r.
    case_match; [by rewrite lookup_insert_ne|done].
Qed.

Lemma requested_lookup ids (states : gmap string AircraftTelemetryState) id :
  foldl (λ states aircraftID, <[aircraftID := zero_AircraftTelemetryState]> states) states ids !! id
  = if decide (id ∈ ids) then Some zero_AircraftTelemetryState else states !! id.
Proof.
  induction ids as [|x ids IH] using rev_ind; [by rewrite decide_False by apply not_elem_of_nil|].
  rewrite foldl_app. cbn. destruct (decide (x = id)) as [->|Hx].
  - rewrite lookup_insert_eq, decide_True; [done|]. rewrite elem_of_app. right. by left.
  - rewrite lookup_insert_ne, IH by done. destruct (decide (id ∈ ids)) as [Hin|Hin].
    + rewrite decide_True; [done|]. rewrite elem_of_app. by left.
    + rewrite decide_False; [done|]. rewrite elem_of_app, list_elem_of_singleton. naive_solver.
Qed.

(** The one pass over all samples that computes the latest states computes,
    for every aircraft that was asked for and no other, the position of the
    sample that GetLatestSample returns for it, and the battery of the latest of
    its samples that carries one; of samples recorded at the same time both take
    the first. *)
Theorem latest_states_agree ids s id :
  GetLatestAircraftStates ids s !! id =
  if decide (id ∈ ids) then
    let own := select (λ sample, Sample_AircraftID sample =s= id) (samples s) in
    Some (zero_AircraftTelemetryState
            <| TelemetryState_Position := sample_position <$> GetLatestSample id s |>
            <| TelemetryState_Battery := latest_of (select has_battery own) ≫= battery_of |>)
  else None.
Proof.
  unfold GetLatestAircraftStates. rewrite sampled_states_lookup; rewrite requested_lookup; rewrite lookup_empty.
  - by case_decide.
  - intros state. case_decide; [by intros [= <-]|done].
Qed.

(** ** Queries *)

Section spec.
Context {RT : Runtime}.

Abbreviation recorded_in_order := (StronglySorted (λ a b, Sample_RecordedAt a ≤ Sample_RecordedAt b)).

Lemma by_time_sorted l : recorded_in_order (by_time l).
Proof using Type.
  eapply StronglySorted_impl; [|apply sort_slice_sorted].
  - intros a b. unfold not_after, Before. cbn. lia.
  - split; unfold Before; intros; lia.
Qed.

(** A part of the samples in order, what is before it and what is after. *)
Definition window (own older result newer : list TelemetrySample) : Prop :=
  older ++ result ++ newer ≡ₚ own ∧ recorded_in_order result
  ∧ (∀ a b, a ∈ older → b ∈ result → Sample_RecordedAt a ≤ Sample_RecordedAt b)
  ∧ (∀ a b, a ∈ result → b ∈ newer → Sample_RecordedAt a ≤ Sample_RecordedAt b).

Lemma window_of own older result newer : by_time own = older ++ result ++ newer → window own older result newer.
Proof using Type.
  intros Hown. pose proof (by_time_sorted own) as H.
  pose proof (sort_slice_perm (λ a b, Before (Sample_RecordedAt a) (Sample_RecordedAt b)) own) as Hperm.
  fold (by_time own) in Hperm. rewrite Hown in Hperm, H. apply StronglySorted_app in H as (Ho & H1 & H2).
  apply StronglySorted_app in H2 as (Hn & H2 & _). split_and!; auto.
  intros a b Ha Hb. apply Ho; [done|]. rewrite elem_of_app. by left.
Qed.

Lemma length_by_time own : length (by_time own) = length own.
Proof using Type. apply Permutation_length, sort_slice_perm. Qed.

Lemma effective_limit_pos limit : 0 < effective_limit limit.
Proof using Type. unfold effective_limit, DefaultSampleLimit. case_match; lia. Qed.

(** A query returns as many samples as there are, at most the limit (1000
    when none is given), in the order they were recorded, and only samples of
    the aircraft or flight.  What an aircraft's query leaves out is older than
    everything it returns; what a flight's query leaves out is newer. *)
Theorem query_returns_window id limit s :
  let of_aircraft := select (λ sample, Sample_AircraftID sample =s= id) (samples s) in
  let of_flight := select (λ sample, Sample_FlightID sample =s= id) (samples s) in
  let bounded result own :=
    Z.of_nat (length result) = Z.min (effective_limit limit) (Z.of_nat (@length TelemetrySample own)) in
  (∃ older, window of_aircraft older (QueryAircraftSamples id limit s) []
     ∧ bounded (QueryAircraftSamples id limit s) of_aircraft)
  ∧ (∃ newer, window of_flight [] (QueryFlightSamples id limit s) newer
       ∧ bounded (QueryFlightSamples id limit s) of_flight).
Proof using Type.
  intros of_aircraft of_flight bounded. pose proof (effective_limit_pos limit) as Hpos. split.
  - unfold QueryAircraftSamples. fold of_aircraft. destruct (_ && _) eqn:Hmany; rewrite length_by_time in Hmany; to_prop.
    + eexists. split; [apply window_of; rewrite app_nil_r; symmetry; apply take_drop|].
      unfold bounded. rewrite length_drop, length_by_time. lia.
    + exists []. split; [apply window_of; by rewrite app_nil_r|]. unfold bounded. rewrite length_by_time. destruct Hmany; lia.
  - unfold QueryFlightSamples. fold of_flight. destruct (_ && _) eqn:Hmany; rewrite length_by_time in Hmany; to_prop.
    + eexists. split; [apply window_of; symmetry; apply (take_drop (Z.to_nat (effective_limit limit)))|].
      unfold bounded. rewrite length_take, length_by_time. lia.
    + exists []. split; [apply window_of; by rewrite app_nil_r|]. unfold bounded. rewrite length_by_time. destruct Hmany; lia.
Qed.
End spec.
