(* ===== verification/Registry.v ===== *)
(** * Messages of the agent registry

    The protobuf messages of the packages registryv1 and conformancev1
    (generated, outside the repository) as records of the fields the program
    reads or writes; an absent message is [None].  Values of the enumerations
    are numbers, zero the unspecified one.  Comparing two messages, reading
    timestamps and the names of enumeration values belong to those packages
    and to protobuf, so they are parameters. *)

From S2P Require Import Prelude GoRuntime GoRange LiveDomain Errors.
From stdpp Require Import options.

Record AgentPlacement : Set := mkAgentPlacement {
  Placement_AgentId : string;
  Placement_RelayId : string;
  Placement_LastUpdatedUnixMs : Z;
}.

Record Relay : Set := mkRelay {
  Relay_RelayId : string;
  Relay_Address : string;
  Relay_GrpcPort : Z;
  Relay_LastHeartbeatUnixMs : Z;
}.

#[global] Instance Relay_eta : Eta Relay := λ r,
  mkRelay (Relay_RelayId r) (Relay_Address r) (Relay_GrpcPort r) (Relay_LastHeartbeatUnixMs r).

Record Agent : Set := mkAgent {
  Agent_AgentId : string;
  Agent_LastHeartbeatUnixMs : Z;
}.

#[global] Instance Agent_eta : Eta Agent := λ a, mkAgent (Agent_AgentId a) (Agent_LastHeartbeatUnixMs a).

Record Timestamp : Set := mkTimestamp {
  Timestamp_Seconds : Z;
  Timestamp_Nanos : Z;
}.

Record ViolationMessage : Set := mkViolationMessage {
  ViolationM_ViolationType : Z;
  ViolationM_Phase : Z;
  ViolationM_OpeningFrameId : string;
  ViolationM_OpenedAt : option Timestamp;
  ViolationM_LastObservedAt : option Timestamp;
  ViolationM_WorstDeviationM : float64;
}.

(** [Summary_Rest] is whatever else the message carries. *)
Record SummaryMessage : Set := mkSummaryMessage {
  Summary_AssignmentId : string;
  Summary_AssignmentGeneration : Z;
  Summary_EvaluationRevision : Z;
  Summary_EvaluationId : string;
  Summary_OperatorId : string;
  Summary_IntentId : string;
  Summary_IntentVersion : Z;
  Summary_FlightId : string;
  Summary_AircraftId : string;
  Summary_Condition : Z;
  Summary_MonitoringStatus : Z;
  Summary_RecordingStatus : Z;
  Summary_ObservedAt : option Timestamp;
  Summary_FrameId : string;
  Summary_Violations : list (option ViolationMessage);
  Summary_Rest : string;
}.

#[global] Instance Timestamp_eq_dec : EqDecision Timestamp.
Proof. solve_decision. Defined.

#[global] Instance ViolationMessage_eq_dec : EqDecision ViolationMessage.
Proof. solve_decision. Defined.

#[global] Instance SummaryMessage_eq_dec : EqDecision SummaryMessage.
Proof. solve_decision. Defined.

Record ConformanceProjection : Set := mkConformanceProjection {
  Projection_Summary : option SummaryMessage;
  Projection_StoredAt : option Timestamp;
}.

(** *** The history of conformance events *)

Record HistoryRequest : Set := mkHistoryRequest {
  HistoryRequest_AssignmentId : string;
  HistoryRequest_AssignmentGeneration : Z;
  HistoryRequest_From : option Timestamp;
  HistoryRequest_Until : option Timestamp;
  HistoryRequest_PageSize : Z;
  HistoryRequest_PageToken : string;
}.

Record HistoryEventMessage : Set := mkHistoryEventMessage {
  EventM_EventId : string;
  EventM_AssignmentId : string;
  EventM_AssignmentGeneration : Z;
  EventM_IntentId : string;
  EventM_IntentVersion : Z;
  EventM_AircraftId : string;
  EventM_FlightId : string;
  EventM_IncidentId : string;
  EventM_Transition : string;
  EventM_ViolationType : Z;
  EventM_ObservedAt : option Timestamp;
  EventM_DeviationM : option float64;
  EventM_FrameId : string;
  EventM_EvaluationRevision : Z;
  EventM_PlannedStartAt : option Timestamp;
  EventM_PlannedEndAt : option Timestamp;
}.

Record HistoryResponse : Set := mkHistoryResponse {
  HistoryResponse_Events : list (option HistoryEventMessage);
  HistoryResponse_NextPageToken : string;
}.

(** What the program uses of the packages besides their messages. *)
Class ProtoLibrary := {
  proto_Equal : SummaryMessage → SummaryMessage → bool;
  Timestamp_CheckValid : Timestamp → bool;
  Timestamp_AsTime : Timestamp → Time;
  timestamppb_New : Time → Timestamp;
  condition_name : Z → string;
  monitoring_status_name : Z → string;
  recording_status_name : Z → string;
  violation_type_name : Z → string;
  incident_phase_name : Z → string;
}.

(** Equality of messages is an equivalence. *)
Class ProtoLaws (PL : ProtoLibrary) := {
  proto_Equal_refl m : proto_Equal m m = true;
  proto_Equal_sym m m' : proto_Equal m m' = true → proto_Equal m' m = true;
  proto_Equal_trans m m' m'' : proto_Equal m m' = true → proto_Equal m' m'' = true → proto_Equal m m'' = true;
}.

(** [status.Error]: the codes the registry uses, and the text of the error. *)
Definition codes_Canceled : Z := 1.
Definition codes_InvalidArgument : Z := 3.
Definition codes_DeadlineExceeded : Z := 4.
Definition codes_NotFound : Z := 5.
Definition codes_FailedPrecondition : Z := 9.

Definition code_name (code : Z) : string :=
  if code =? codes_Canceled then "Canceled"
  else if code =? codes_InvalidArgument then "InvalidArgument"
  else if code =? codes_DeadlineExceeded then "DeadlineExceeded"
  else if code =? codes_NotFound then "NotFound"
  else if code =? codes_FailedPrecondition then "FailedPrecondition"
  else if code =? codes_Unavailable then "Unavailable"
  else "Code(" +:+ Itoa code +:+ ")".

Definition status_Error (code : Z) (description : string) : error :=
  StatusError code ("rpc error: code = " +:+ code_name code +:+ " desc = " +:+ description).

(** A library for examples: timestamps of whole seconds after 1970, and names as
    the generated code has them for the values used there. *)
Definition reference_proto_library : ProtoLibrary := {|
  proto_Equal m m' := bool_decide (m = m');
  Timestamp_CheckValid t := (0 <=? Timestamp_Nanos t) && (Timestamp_Nanos t <? Second);
  Timestamp_AsTime t := unix_epoch + Timestamp_Seconds t * Second + Timestamp_Nanos t;
  timestamppb_New t := mkTimestamp ((t - unix_epoch) / Second) ((t - unix_epoch) mod Second);
  condition_name value :=
    if value =? 1 then "CONFORMANCE_CONDITION_CONFORMING"
    else if value =? 2 then "CONFORMANCE_CONDITION_NON_CONFORMING" else "CONFORMANCE_CONDITION_UNSPECIFIED";
  monitoring_status_name value := "MONITORING_STATUS_ACTIVE";
  recording_status_name value := "RECORDING_STATUS_RECORDING";
  violation_type_name value := "VIOLATION_TYPE_VOLUME_EXIT";
  incident_phase_name value := if value =? 0 then "INCIDENT_PHASE_UNSPECIFIED" else "INCIDENT_PHASE_CONFIRMED";
|}.

#[global] Instance reference_proto_laws : ProtoLaws reference_proto_library.
Proof.
  split; cbn.
  - intros m. by apply bool_decide_eq_true.
  - intros m m' H%bool_decide_eq_true. by apply bool_decide_eq_true.
  - intros m m' m'' H%bool_decide_eq_true H'%bool_decide_eq_true. apply bool_decide_eq_true. congruence.
Qed.

(** * The in-memory agent registry

    src/internal/registry/memory.go: relays, agents, their placements, and the
    current conformance projection of every assignment.  Each method holds the
    lock, so it is one step; records are cloned on the way in and out, so they
    are values.  The methods that look at their context are given what it is
    done with, if it is. *)

Record MemoryClient : Set := mkMemoryClient {
  relays : gmap string Relay;
  agents : gmap string Agent;
  placements : gmap string AgentPlacement;
  conformance : gmap string ConformanceProjection;
}.

#[global] Instance MemoryClient_eta : Eta MemoryClient := λ c,
  mkMemoryClient (relays c) (agents c) (placements c) (conformance c).

Definition NewMemoryClient : MemoryClient := mkMemoryClient ∅ ∅ ∅ ∅.

(** [ctx.Err()], and [status.FromContextError]. *)
Inductive context_error : Set := Canceled | DeadlineExceeded.

Definition FromContextError (e : context_error) : error :=
  match e with
  | Canceled => status_Error codes_Canceled "context canceled"
  | DeadlineExceeded => status_Error codes_DeadlineExceeded "context deadline exceeded"
  end.

(** ** Messages of the methods *)

Inductive ConformancePublishDisposition : Set := DISPOSITION_APPLIED | DISPOSITION_IDEMPOTENT.

Record PublishConformanceSummaryResponse : Set := mkPublishConformanceSummaryResponse {
  PublishResponse_Disposition : ConformancePublishDisposition;
  PublishResponse_Projection : ConformanceProjection;
}.

Record BatchGetConformanceSummariesResponse : Set := mkBatchGetConformanceSummariesResponse {
  Batch_Projections : list ConformanceProjection;
  Batch_MissingAssignmentIds : list string;
}.

Section registry.
Context {RT : Runtime} {PL : ProtoLibrary}.

(** ** Conformance projections *)

Definition validateConformanceSummary (summary : option SummaryMessage) : outcome SummaryMessage :=
  match summary with
  | None => Err (status_Error codes_InvalidArgument "conformance summary identity and cursor are required")
  | Some m =>
      if (TrimSpace (Summary_AssignmentId m) =s= "") || (Summary_AssignmentGeneration m =? 0)
         || (Summary_EvaluationRevision m =? 0) || (TrimSpace (Summary_EvaluationId m) =s= "")
         || (TrimSpace (Summary_IntentId m) =s= "") || (TrimSpace (Summary_AircraftId m) =s= "")
         || (TrimSpace (Summary_FlightId m) =s= "") || (Summary_IntentVersion m =? 0)
         || match Summary_ObservedAt m with Some t => negb (Timestamp_CheckValid t) | None => true end
         || (TrimSpace (Summary_FrameId m) =s= "")
      then Err (status_Error codes_InvalidArgument "conformance summary identity and cursor are required")
      else if (Summary_Condition m =? 0) || (Summary_MonitoringStatus m =? 0) || (Summary_RecordingStatus m =? 0)
      then Err (status_Error codes_InvalidArgument "conformance status axes are required")
      else Ok m
  end.

(** The summary is behind the current one, *)
Definition stale (summary current : SummaryMessage) : bool :=
  (Summary_AssignmentGeneration summary <? Summary_AssignmentGeneration current)
  || (Summary_AssignmentGeneration summary =? Summary_AssignmentGeneration current)
     && (Summary_EvaluationRevision summary <? Summary_EvaluationRevision current).

(** or at the same cursor. *)
Definition same_cursor (summary current : SummaryMessage) : bool :=
  (Summary_AssignmentGeneration summary =? Summary_AssignmentGeneration current)
  && (Summary_EvaluationRevision summary =? Summary_EvaluationRevision current).

(** What a summary does to the current one of its assignment. *)
Definition disposition (summary : SummaryMessage) (current : option SummaryMessage)
    : outcome ConformancePublishDisposition :=
  match current with
  | None => Ok DISPOSITION_APPLIED
  | Some current =>
      if stale summary current then Err (status_Error codes_FailedPrecondition "conformance cursor is stale")
      else if same_cursor summary current then
        if negb (proto_Equal summary current)
        then Err (status_Error codes_FailedPrecondition "conformance cursor content changed")
        else Ok DISPOSITION_IDEMPOTENT
      else Ok DISPOSITION_APPLIED
  end.

(** [t] is the reading of the clock. *)
Definition PublishConformanceSummary (ctx_Err : option context_error) (summary : option SummaryMessage) (t : Time)
    (c : MemoryClient) : outcome PublishConformanceSummaryResponse * MemoryClient :=
  match ctx_Err with
  | Some e => (Err (FromContextError e), c)
  | None =>
      match validateConformanceSummary summary with
      | Err err => (Err err, c)
      | Ok summary =>
          match disposition summary (conformance c !! Summary_AssignmentId summary ≫= Projection_Summary) with
          | Err err => (Err err, c)
          | Ok d =>
              let projection := mkConformanceProjection (Some summary) (Some (timestamppb_New t)) in
              (Ok (mkPublishConformanceSummaryResponse d projection),
               c <| conformance := <[Summary_AssignmentId summary := projection]> (conformance c) |>)
          end
      end
  end.

Definition GetConformanceSummary (ctx_Err : option context_error) (assignmentID : string) (c : MemoryClient)
    : outcome ConformanceProjection :=
  match ctx_Err with
  | Some e => Err (FromContextError e)
  | None =>
      let assignmentID := TrimSpace assignmentID in
      if assignmentID =s= "" then Err (status_Error codes_InvalidArgument "assignment_id is required")
      else
        match conformance c !! assignmentID with
        | None => Err (status_Error codes_NotFound "conformance summary not found")
        | Some projection => Ok projection
        end
  end.

(** The set of identifiers, or an error. *)
Fixpoint unique_ids (rawIDs : list string) (unique : gmap string unit) : outcome (gmap string unit) :=
  match rawIDs with
  | [] => Ok unique
  | rawID :: rest =>
      let assignmentID := TrimSpace rawID in
      if assignmentID =s= ""
      then Err (status_Error codes_InvalidArgument "assignment_ids cannot contain an empty value")
      else unique_ids rest (<[assignmentID := tt]> unique)
  end.

(** The loop over the identifiers. *)
Definition batch_response (assignmentIDs : list string) (c : MemoryClient) : BatchGetConformanceSummariesResponse :=
  mkBatchGetConformanceSummariesResponse
    (omap (λ assignmentID, conformance c !! assignmentID) assignmentIDs)
    (select (λ assignmentID, is_nil (conformance c !! assignmentID)) assignmentIDs).

Definition BatchGetConformanceSummaries (ctx_Err : option context_error) (rawIDs : list string) (c : MemoryClient)
    : outcome BatchGetConformanceSummariesResponse :=
  match ctx_Err with
  | Some e => Err (FromContextError e)
  | None =>
      if (length rawIDs =? 0)%nat || (250 <? length rawIDs)%nat
      then Err (status_Error codes_InvalidArgument "one to 250 assignment_ids are required")
      else
        match unique_ids rawIDs ∅ with
        | Err err => Err err
        | Ok unique => Ok (batch_response (sort_strings (map_range unique).*1) c)
        end
  end.

(** ** Agents and relays *)

Definition unixMillis (t : Time) : Z := if IsZero t then 0 else UnixMilli t.

(** [t] is the reading of the clock that is taken when the state has none. *)
Definition SetLiveAircraftState (state : LiveAircraftState) (t : Time) (c : MemoryClient)
    : outcome unit * MemoryClient :=
  let agentID := Live_AgentID state in
  if agentID =s= "" then (Err (status_Error codes_InvalidArgument "agent_id is required"), c)
  else
    let heartbeatAt :=
      if IsZero (Live_LastHeartbeatAt state) && Live_Connected state then UTC t else Live_LastHeartbeatAt state in
    let c := c <| agents := <[agentID := mkAgent agentID (unixMillis heartbeatAt)]> (agents c) |> in
    if Live_RelayID state <>s "" then
      let placementAt :=
        if IsZero (Live_PlacementLastUpdatedAt state) then heartbeatAt else Live_PlacementLastUpdatedAt state in
      (Ok tt, c <| placements := <[agentID := mkAgentPlacement agentID (Live_RelayID state) (unixMillis placementAt)]>
                                   (placements c) |>)
    else (Ok tt, c <| placements := delete agentID (placements c) |>).

Definition RegisterRelay (relay : option Relay) (c : MemoryClient) : outcome unit * MemoryClient :=
  match relay with
  | None => (Err (status_Error codes_InvalidArgument "relay_id is required"), c)
  | Some relay =>
      if Relay_RelayId relay =s= "" then (Err (status_Error codes_InvalidArgument "relay_id is required"), c)
      else (Ok tt, c <| relays := <[Relay_RelayId relay := relay]> (relays c) |>)
  end.

Definition HeartbeatRelay (relayID : string) (timestampUnixMs : Z) (c : MemoryClient) : outcome unit * MemoryClient :=
  match relays c !! relayID with
  | None => (Err (status_Error codes_NotFound "relay not found"), c)
  | Some relay =>
      (Ok tt, c <| relays := <[relayID := relay <| Relay_LastHeartbeatUnixMs := timestampUnixMs |>]> (relays c) |>)
  end.

(** The values of a map in the order of its keys. *)
Definition sorted_values {V} (m : gmap string V) : list V :=
  omap (λ id, m !! id) (sort_strings (map_range m).*1).

Definition ListRelays (c : MemoryClient) : list Relay := sorted_values (relays c).

Definition RegisterAgent (agent : option Agent) (relayID : string) (c : MemoryClient) : outcome unit * MemoryClient :=
  match agent with
  | None => (Err (status_Error codes_InvalidArgument "agent_id is required"), c)
  | Some agent =>
      let agentID := Agent_AgentId agent in
      if agentID =s= "" then (Err (status_Error codes_InvalidArgument "agent_id is required"), c)
      else
        let c := c <| agents := <[agentID := agent]> (agents c) |> in
        if relayID <>s "" then
          (Ok tt, c <| placements :=
                         <[agentID := mkAgentPlacement agentID relayID (Agent_LastHeartbeatUnixMs agent)]>
                           (placements c) |>)
        else (Ok tt, c)
  end.

Definition HeartbeatAgent (agentID : string) (timestampUnixMs : Z) (c : MemoryClient) : outcome unit * MemoryClient :=
  match agents c !! agentID with
  | None => (Err (status_Error codes_NotFound "agent not found"), c)
  | Some agent =>
      (Ok tt, c <| agents := <[agentID := agent <| Agent_LastHeartbeatUnixMs := timestampUnixMs |>]> (agents c) |>)
  end.

Definition ListAgents (c : MemoryClient) : list Agent := sorted_values (agents c).

Definition GetAgentPlacement (agentID : string) (c : MemoryClient) : outcome AgentPlacement :=
  match placements c !! agentID with
  | None => Err (status_Error codes_NotFound "agent placement not found")
  | Some placement => Ok placement
  end.

(** ** The steps of the registry: one write of one of its clients *)
Inductive registry_step (c : MemoryClient) : MemoryClient → Prop :=
  | StepPublish ctx_Err summary t : registry_step c (PublishConformanceSummary ctx_Err summary t c).2
  | StepSetLive state t : registry_step c (SetLiveAircraftState state t c).2
  | StepRegisterRelay relay : registry_step c (RegisterRelay relay c).2
  | StepHeartbeatRelay relayID t : registry_step c (HeartbeatRelay relayID t c).2
  | StepRegisterAgent agent relayID : registry_step c (RegisterAgent agent relayID c).2
  | StepHeartbeatAgent agentID t : registry_step c (HeartbeatAgent agentID t c).2.
End registry.
