(* ===== verification/RegistrySpecs.v ===== *)
(** * What the registry promises about conformance projections *)

From S2P Require Import Prelude GoRuntime GoStrings GoRange LiveDomain Errors Registry.
From stdpp Require Import options.

Section specs.
Context {RT : Runtime} {PL : ProtoLibrary}.

(** ** The cursor *)

(** [m'] may stand where [m] stood. *)
Definition advances (m m' : SummaryMessage) : Prop :=
  stale m' m = false ∧ (same_cursor m' m = true → proto_Equal m' m = true).

Lemma advances_refl `{!ProtoLaws PL} m : advances m m.
Proof using Type. split; [unfold stale; lia|]. intros _. apply proto_Equal_refl. Qed.

Lemma advances_trans `{!ProtoLaws PL} m m' m'' : advances m m' → advances m' m'' → advances m m''.
Proof using Type.
  unfold advances, stale, same_cursor. intros [Hs Heq] [Hs' Heq']. split; [lia|]. intros Hcursor.
  eapply proto_Equal_trans; [apply Heq'|apply Heq]; lia.
Qed.

Lemma publish_advances `{!ProtoLaws PL} ctx_Err summary t c id p m :
  conformance c !! id = Some p → Projection_Summary p = Some m →
  ∃ p' m', conformance (PublishConformanceSummary ctx_Err summary t c).2 !! id = Some p'
    ∧ Projection_Summary p' = Some m' ∧ advances m m'.
Proof using Type.
  intros Hp Hm. unfold PublishConformanceSummary.
  assert (∃ p' m', conformance c !! id = Some p' ∧ Projection_Summary p' = Some m' ∧ advances m m') as Hsame.
  { exists p, m. split_and!; [done..|apply advances_refl]. }
  destruct ctx_Err; [done|]. destruct (validateConformanceSummary summary) as [m1|err]; [|done].
  destruct (disposition m1 _) as [d|err] eqn:Hd; [|done]. cbn.
  destruct (decide (Summary_AssignmentId m1 = id)) as [<-|Hid]; [|by rewrite lookup_insert_ne].
  rewrite lookup_insert_eq. eexists _, m1. split; [done|]. split; [done|].
  rewrite Hp in Hd. cbn in Hd. rewrite Hm in Hd. cbn in Hd. unfold advances.
  destruct (stale m1 m); [done|]. split; [done|]. intros Hcursor. rewrite Hcursor in Hd.
  by destruct (proto_Equal m1 m).
Qed.

Lemma other_steps_conformance c c' :
  registry_step c c' → conformance c' = conformance c
  ∨ ∃ ctx_Err summary t, c' = (PublishConformanceSummary ctx_Err summary t c).2.
Proof using Type.
  intros [ctx_Err summary t|state t|relay|relayID t|agent relayID|agentID t].
  { right. eauto. }
  all: left; unfold SetLiveAircraftState, RegisterRelay, HeartbeatRelay, RegisterAgent, HeartbeatAgent;
    repeat case_match; done.
Qed.

(** C39: A conformance projection only advances.  Whatever the registry's clients
    do, a stored projection stays stored for its assignment, and its summary is
    replaced only by one with a later assignment generation, or the same
    generation and a later evaluation revision, or by an equal summary at the
    very same cursor. *)
Theorem projection_only_advances `{!ProtoLaws PL} c c' id p m :
  rtc registry_step c c' → conformance c !! id = Some p → Projection_Summary p = Some m →
  ∃ p' m', conformance c' !! id = Some p' ∧ Projection_Summary p' = Some m'
    ∧ (Summary_AssignmentGeneration m < Summary_AssignmentGeneration m'
       ∨ Summary_AssignmentGeneration m = Summary_AssignmentGeneration m'
         ∧ (Summary_EvaluationRevision m < Summary_EvaluationRevision m'
            ∨ Summary_EvaluationRevision m = Summary_EvaluationRevision m' ∧ proto_Equal m' m = true)).
Proof using Type.
  intros Hsteps Hp Hm.
  assert (∃ p' m', conformance c' !! id = Some p' ∧ Projection_Summary p' = Some m' ∧ advances m m')
    as (p' & m' & ? & ? & Hstale & Hequal).
  { revert p m Hp Hm. induction Hsteps as [c|c c1 c' Hstep _ IH]; intros p m Hp Hm.
    - exists p, m. split_and!; [done..|apply advances_refl].
    - assert (∃ p1 m1, conformance c1 !! id = Some p1 ∧ Projection_Summary p1 = Some m1 ∧ advances m m1)
        as (p1 & m1 & Hp1 & Hm1 & Hadv).
      { apply other_steps_conformance in Hstep as [->|(ctx_Err & summary & t & ->)].
        - exists p, m. split_and!; [done..|apply advances_refl].
        - by eapply publish_advances. }
      destruct (IH _ _ Hp1 Hm1) as (p' & m' & ? & ? & ?). exists p', m'. split_and!; [done..|by eapply advances_trans]. }
  exists p', m'. split_and!; [done..|]. unfold stale, same_cursor in *.
  destruct (decide (Summary_AssignmentGeneration m = Summary_AssignmentGeneration m')); [right|left; lia].
  split; [done|]. destruct (decide (Summary_EvaluationRevision m = Summary_EvaluationRevision m')); [right|left; lia].
  split; [done|]. apply Hequal. lia.
Qed.

(** ** Publishing and reading back *)

Lemma unique_ids_spec rawIDs unique :
  match unique_ids rawIDs unique with
  | Ok ids => (∀ id, is_Some (ids !! id) ↔ is_Some (unique !! id) ∨ ∃ rawID, rawID ∈ rawIDs ∧ TrimSpace rawID = id)
  | Err _ => ∃ rawID, rawID ∈ rawIDs ∧ TrimSpace rawID = ""
  end.
Proof using Type.
  revert unique. induction rawIDs as [|rawID rest IH]; intros unique; cbn [unique_ids].
  - intros id. split; [by left|]. intros [?|(? & ?%elem_of_nil & _)]; done.
  - destruct (_ =s= "") eqn:Hempty.
    { exists rawID. apply String.eqb_eq in Hempty. split; [by left|done]. }
    specialize (IH (<[TrimSpace rawID := tt]> unique)). destruct (unique_ids rest _) as [ids|err].
    + intros id. rewrite IH, lookup_insert_is_Some'. split.
      * intros [[<-|?]|(x & ? & ?)]; [right; exists rawID; split; [by left|done]|by left|].
        right. exists x. split; [by right|done].
      * intros [?|(x & [->|Hx]%elem_of_cons & Htrim)]; [by left; right|by left; left|]. right. by exists x.
    + destruct IH as (x & ? & ?). exists x. split; [by right|done].
Qed.

Lemma batch_projection rawIDs c id p :
  (0 < length rawIDs ≤ 250)%nat → (∀ rawID, rawID ∈ rawIDs → TrimSpace rawID ≠ "") →
  (∃ rawID, rawID ∈ rawIDs ∧ TrimSpace rawID = id) → conformance c !! id = Some p →
  ∃ response, BatchGetConformanceSummaries None rawIDs c = Ok response ∧ p ∈ Batch_Projections response.
Proof using Type.
  intros Hlength Hnonempty Hid Hp. unfold BatchGetConformanceSummaries.
  destruct (_ || _) eqn:Hbad.
  { apply orb_true_iff in Hbad as [Hb%Nat.eqb_eq|Hb%Nat.ltb_lt]; lia. }
  pose proof (unique_ids_spec rawIDs ∅) as Hspec. destruct (unique_ids rawIDs ∅) as [unique|err].
  - eexists. split; [done|]. cbn. apply list_elem_of_omap. exists id. split; [|done].
    unfold sort_strings. apply elem_of_sort_slice. apply list_elem_of_fmap.
    destruct (proj2 (Hspec id)) as [[] Hu]; [by right|]. exists (id, ()). split; [done|]. by apply elem_of_range.
  - destruct Hspec as (rawID & ? & ?). by destruct (Hnonempty rawID).
Qed.

(** What was published is read back.  After a publication that succeeds, for
    an assignment identifier without surrounding space, the projection of the
    response holds the published summary, every request that names the
    assignment is answered with it (surrounding space in the request is
    ignored), and so is every valid batch that names it; publishing the same
    summary again succeeds and is reported as a repetition. *)
Theorem published_projection_read_back `{!ProtoLaws PL} summary t c response c' :
  PublishConformanceSummary None summary t c = (Ok response, c') →
  (∀ m, summary = Some m → TrimSpace (Summary_AssignmentId m) = Summary_AssignmentId m) →
  ∃ m, summary = Some m
    ∧ Projection_Summary (PublishResponse_Projection response) = Some m
    ∧ (∀ rawID, TrimSpace rawID = Summary_AssignmentId m →
         GetConformanceSummary None rawID c' = Ok (PublishResponse_Projection response))
    ∧ (∀ rawIDs, (0 < length rawIDs ≤ 250)%nat → (∀ rawID, rawID ∈ rawIDs → TrimSpace rawID ≠ "") →
         (∃ rawID, rawID ∈ rawIDs ∧ TrimSpace rawID = Summary_AssignmentId m) →
         ∃ batch, BatchGetConformanceSummaries None rawIDs c' = Ok batch
           ∧ PublishResponse_Projection response ∈ Batch_Projections batch)
    ∧ (∀ t', ∃ again, (PublishConformanceSummary None summary t' c').1 = Ok again
         ∧ PublishResponse_Disposition again = DISPOSITION_IDEMPOTENT).
Proof using Type.
  intros Hpublish Htrimmed. unfold PublishConformanceSummary in *.
  destruct (validateConformanceSummary summary) as [m|err] eqn:Hvalid; [|done].
  destruct (disposition m _) as [d|err]; [|done]. injection Hpublish as <- <-.
  assert (summary = Some m ∧ TrimSpace (Summary_AssignmentId m) ≠ "") as [-> Hid].
  { unfold validateConformanceSummary in Hvalid. destruct summary as [m1|]; [|done].
    destruct (_ || _) eqn:Hbad in Hvalid; [done|]. destruct (_ || _) in Hvalid; [done|]. injection Hvalid as ->.
    to_prop. done. }
  specialize (Htrimmed m eq_refl). exists m. cbn. split_and!; [done|done| | |].
  - intros rawID Hraw. unfold GetConformanceSummary. rewrite Hraw.
    destruct (_ =s= "") eqn:Hempty; [apply String.eqb_eq in Hempty; congruence|]. cbn. by rewrite lookup_insert_eq.
  - intros rawIDs ? ? ?. eapply batch_projection; [done..|]. cbn. by rewrite lookup_insert_eq.
  - intros t'. cbn. rewrite lookup_insert_eq. cbn.
    unfold stale, same_cursor. rewrite !Z.eqb_refl, !Z.ltb_irrefl, proto_Equal_refl. cbn. eauto.
Qed.

(** ** Identifiers with surrounding space

    A publication is stored under the identifier as it came, and read under the
    trimmed one. *)
Lemma trim_left_head l c rest : trim_left l = c :: rest → is_ascii_space (byte_of c) = false.
Proof using Type.
  remember (length l) as n eqn:Hn. revert l Hn. induction (lt_wf n) as [n _ IH]. intros l ->.
  destruct l as [|a l1]; [done|]. cbn [trim_left]. destruct (is_ascii_space (byte_of a)) eqn:Ha.
  { apply (IH (length l1)); [cbn; lia|done]. }
  destruct l1 as [|b l2]; [by intros [= <- _]|]. destruct (is_space2 _ _).
  { apply (IH (length l2)); [cbn; lia|done]. }
  destruct l2 as [|d l3]; [by intros [= <- _]|]. destruct (is_space3 _ _ _).
  { apply (IH (length l3)); [cbn; lia|done]. }
  by intros [= <- _].
Qed.

Lemma trim_right_suffix l : trim_right_rev l `suffix_of` l.
Proof using Type.
  remember (length l) as n eqn:Hn. revert l Hn. induction (lt_wf n) as [n _ IH]. intros l ->.
  destruct l as [|a l1]; [done|]. cbn [trim_right_rev]. destruct (is_ascii_space (byte_of a)).
  { etrans; [apply (IH (length l1)); [cbn; lia|done]|by exists [a]]. }
  destruct l1 as [|b l2]; [done|]. destruct (is_space2 _ _).
  { etrans; [apply (IH (length l2)); [cbn; lia|done]|by exists [a; b]]. }
  destruct l2 as [|d l3]; [done|]. destruct (is_space3 _ _ _); [|done].
  etrans; [apply (IH (length l3)); [cbn; lia|done]|by exists [a; b; d]].
Qed.

Lemma TrimSpace_head s c rest : TrimSpace s = String c rest → is_ascii_space (byte_of c) = false.
Proof using Type.
  unfold TrimSpace. intros H. apply (f_equal String.list_ascii_of_string) in H.
  rewrite String.list_ascii_of_string_of_list_ascii in H. cbn in H.
  pose proof (trim_right_suffix (rev (trim_left (String.list_ascii_of_string s)))) as [hs Hsuffix].
  apply (f_equal (@rev _)) in Hsuffix. rewrite rev_involutive, rev_app_distr, H in Hsuffix.
  by eapply trim_left_head.
Qed.

(** A summary whose assignment identifier starts with a space is taken, and no
    request reads it. *)
Theorem untrimmed_assignment_unread ctx_Err summary t c c0 rest rawID :
  summary = String c0 rest → is_ascii_space (byte_of c0) = true →
  ∀ m, Summary_AssignmentId m = summary →
  GetConformanceSummary None rawID (PublishConformanceSummary ctx_Err (Some m) t c).2
  = GetConformanceSummary None rawID c.
Proof using Type.
  intros -> Hspace m Hm. unfold PublishConformanceSummary. destruct ctx_Err; [done|].
  destruct (validateConformanceSummary (Some m)) as [m1|err] eqn:Hvalid; [|done].
  assert (m1 = m) as ->.
  { unfold validateConformanceSummary in Hvalid. by repeat case_match; simplify_eq. }
  destruct (disposition _ _); [|done]. cbn.
  unfold GetConformanceSummary. destruct (_ =s= ""); [done|]. cbn.
  rewrite lookup_insert_ne; [done|]. rewrite Hm. intros Heq. symmetry in Heq. apply TrimSpace_head in Heq. congruence.
Qed.
End specs.

(** ** Examples *)

#[local] Existing Instance reference_runtime.
#[local] Existing Instance reference_proto_library.

Definition demo_summary (assignmentID : string) (revision : Z) : SummaryMessage :=
  mkSummaryMessage assignmentID 1 revision "e1" "op" assignmentID 1 "f1" "a1" 1 1 1 (Some (mkTimestamp 100 0)) "frame" [] "".

Definition published (revision : Z) (c : MemoryClient) : MemoryClient :=
  (PublishConformanceSummary None (Some (demo_summary "i1" revision)) unix_epoch c).2.

Example untrimmed_publication_accepted :
  is_ok (PublishConformanceSummary None (Some (demo_summary " i1" 1)) unix_epoch NewMemoryClient).1 = true.
Proof. vm_compute. reflexivity. Qed.

Example stale_publication_refused :
  is_ok (PublishConformanceSummary None (Some (demo_summary "i1" 1)) unix_epoch (published 2 NewMemoryClient)).1 = false.
Proof. vm_compute. reflexivity. Qed.

Definition stored_at (revision : Z) : ConformanceProjection :=
  mkConformanceProjection (Some (demo_summary "i1" revision)) (Some (mkTimestamp 0 0)).

Lemma projection_only_advances_witness :
  ∃ p' m', conformance (published 5 (published 2 NewMemoryClient)) !! "i1" = Some p' ∧ Projection_Summary p' = Some m'
    ∧ (Summary_AssignmentGeneration (demo_summary "i1" 2) < Summary_AssignmentGeneration m'
       ∨ Summary_AssignmentGeneration (demo_summary "i1" 2) = Summary_AssignmentGeneration m'
         ∧ (Summary_EvaluationRevision (demo_summary "i1" 2) < Summary_EvaluationRevision m'
            ∨ Summary_EvaluationRevision (demo_summary "i1" 2) = Summary_EvaluationRevision m'
              ∧ proto_Equal m' (demo_summary "i1" 2) = true)).
Proof.
  apply (projection_only_advances (published 2 NewMemoryClient) _ "i1" (stored_at 2)).
  - eapply rtc_l; [apply (StepPublish _ None (Some (demo_summary "i1" 5)) unix_epoch)|apply rtc_refl].
  - vm_compute. reflexivity.
  - reflexivity.
Defined.

Lemma published_projection_read_back_witness :
  ∃ m, Some (demo_summary "i1" 1) = Some m
    ∧ Projection_Summary (stored_at 1) = Some m
    ∧ (∀ rawID, TrimSpace rawID = Summary_AssignmentId m →
         GetConformanceSummary None rawID (published 1 NewMemoryClient) = Ok (stored_at 1))
    ∧ (∀ rawIDs, (0 < length rawIDs ≤ 250)%nat → (∀ rawID, rawID ∈ rawIDs → TrimSpace rawID ≠ "") →
         (∃ rawID, rawID ∈ rawIDs ∧ TrimSpace rawID = Summary_AssignmentId m) →
         ∃ batch, BatchGetConformanceSummaries None rawIDs (published 1 NewMemoryClient) = Ok batch
           ∧ stored_at 1 ∈ Batch_Projections batch)
    ∧ (∀ t', ∃ again, (PublishConformanceSummary None (Some (demo_summary "i1" 1)) t' (published 1 NewMemoryClient)).1 = Ok again
         ∧ PublishResponse_Disposition again = DISPOSITION_IDEMPOTENT).
Proof.
  apply (published_projection_read_back (Some (demo_summary "i1" 1)) unix_epoch NewMemoryClient
           (mkPublishConformanceSummaryResponse DISPOSITION_APPLIED (stored_at 1)) (published 1 NewMemoryClient)).
  - vm_compute. reflexivity.
  - intros m [= <-]. vm_compute. reflexivity.
Defined.
