(* ===== verification/Program.v ===== *)
(** * Programs over an interface

    A service is written against interfaces (the durable store, the clock,
    the deconfliction coordinator).  It is modelled as a program that calls
    the operations of an effect signature [E]; a handler of [E] runs it.
    Three readings of one program are used: a sequential run, a run in which
    other clients of the same state act between its calls, and the set of
    calls it can make whatever the replies are. *)

From S2P Require Import Prelude Errors.
From stdpp Require Import options.

Inductive prog (E : Type → Type) (A : Type) : Type :=
  | Ret (a : A)
  | Call (X : Type) (e : E X) (k : X → prog E A).
Arguments Ret {E A} a.
Arguments Call {E A X} e k.

Fixpoint prog_bind {E A B} (p : prog E A) (f : A → prog E B) : prog E B :=
  match p with
  | Ret a => f a
  | Call e k => Call e (λ x, prog_bind (k x) f)
  end.

Definition call {E X} (e : E X) : prog E X := Call e Ret.

(** [x := p; q] *)
Notation "'let!' x := p 'in' q" := (prog_bind p (λ x, q))
  (at level 10, x binder, p at level 100, q at level 200) : go_scope.

(** [x, err := p; if err != nil { return ..., f(err) }; q] *)
Notation "'try!' x := p 'orelse' f 'in' q" :=
  (prog_bind p (λ r, match r with Ok x => q | Err e => Ret (Err (f e)) end))
  (at level 10, x binder, p at level 100, f at level 100, q at level 200) : go_scope.

(** Two goroutines and the wait for both: the schedule tells which one makes the
    next call ([true] the first); what it leaves over runs one after the other. *)
Fixpoint par {E A B} (schedule : list bool) (p : prog E A) (q : prog E B) : prog E (A * B) :=
  match schedule with
  | [] => prog_bind p (λ a, prog_bind q (λ b, Ret (a, b)))
  | first :: schedule =>
      match first, p, q with
      | true, Call e k, _ => Call e (λ x, par schedule (k x) q)
      | false, _, Call e k => Call e (λ x, par schedule p (k x))
      | _, _, _ => par schedule p q
      end
  end.

Section run.
Context {E : Type → Type} {S : Type} (handle : ∀ X, E X → S → X * S).
Arguments handle {X}.

(** ** Sequential run *)
Fixpoint run {A} (p : prog E A) (s : S) : A * S :=
  match p with
  | Ret a => (a, s)
  | Call e k => let '(x, s') := handle e s in run (k x) s'
  end.

Lemma run_bind {A B} (p : prog E A) (f : A → prog E B) s :
  run (prog_bind p f) s = let '(a, s') := run p s in run (f a) s'.
Proof.
  revert s. induction p as [a|X e k IH]; intros s; cbn; [done|].
  destruct (handle e s) as [x s']. apply IH.
Qed.

(** ** Concurrent run

    Every call is atomic; before each of them, and at the end, the other
    clients take any number of steps of [env]. *)
Fixpoint crun (env : S → S → Prop) {A} (p : prog E A) (s : S) (a : A) (s' : S) : Prop :=
  match p with
  | Ret b => a = b ∧ rtc env s s'
  | Call e k => ∃ s1, rtc env s s1 ∧ crun env (k (handle e s1).1) (handle e s1).2 a s'
  end.

Lemma run_crun env {A} (p : prog E A) s : crun env p s (run p s).1 (run p s).2.
Proof.
  revert s. induction p as [a|X e k IH]; intros s; cbn; [done|].
  exists s. split; [done|]. destruct (handle e s) as [x s'] eqn:He. apply IH.
Qed.

(** The interference before the first call can be told apart. *)
Lemma crun_bind env {A B} (p : prog E A) (f : A → prog E B) s b s' :
  crun env (prog_bind p f) s b s' → ∃ a s1, crun env p s a s1 ∧ crun env (f a) s1 b s'.
Proof.
  revert s. induction p as [a|X e k IH]; intros s; cbn.
  - intros H. exists a, s. done.
  - intros (s1 & Hs & Hrun). destruct (IH _ _ Hrun) as (a & s2 & Hk & Hf). eauto 10.
Qed.
End run.

(** ** The calls a program can make, for every reply *)

Fixpoint calls_in {E A} (P : ∀ X, E X → Prop) (p : prog E A) : Prop :=
  match p with
  | Ret _ => True
  | Call e k => P _ e ∧ ∀ x, calls_in P (k x)
  end.

Lemma calls_in_bind {E A B} (P : ∀ X, E X → Prop) (p : prog E A) (f : A → prog E B) :
  calls_in P p → (∀ a, calls_in P (f a)) → calls_in P (prog_bind p f).
Proof. induction p as [a|X e k IH]; cbn; [auto|]. intros [He Hk] Hf. split; auto. Qed.

(** What the calls of a program preserve one by one, the program preserves,
    under any interference that preserves it too. *)
Lemma crun_invariant {E S A} (handle : ∀ X, E X → S → X * S) (env : S → S → Prop)
    (P : ∀ X, E X → Prop) (I : S → Prop) (p : prog E A) s a s' :
  (∀ X (e : E X) s, P X e → I s → I (handle X e s).2) →
  (∀ s1 s2, env s1 s2 → I s1 → I s2) →
  calls_in P p → crun handle env p s a s' → I s → I s'.
Proof.
  intros Hop Henv.
  assert (∀ s1 s2, rtc env s1 s2 → I s1 → I s2) as Hrtc.
  { induction 1; eauto. }
  revert s. induction p as [b|X e k IH]; intros s; cbn.
  - intros _ [_ Hs]. eauto.
  - intros [He Hk] (s1 & Hs & Hrun) HI. eapply IH; eauto.
Qed.

(** ** Replies that do not change

    When the reply to a call depends on the call only, so does the result of a
    program, and two goroutines do not see each other. *)

Fixpoint answer {E A} (reply : ∀ X, E X → X) (p : prog E A) : A :=
  match p with
  | Ret a => a
  | Call e k => answer reply (k (reply _ e))
  end.

Lemma answer_bind {E A B} (reply : ∀ X, E X → X) (p : prog E A) (f : A → prog E B) :
  answer reply (prog_bind p f) = answer reply (f (answer reply p)).
Proof. induction p as [a|X e k IH]; cbn; auto. Qed.

Lemma answer_par {E A B} (reply : ∀ X, E X → X) schedule (p : prog E A) (q : prog E B) :
  answer reply (par schedule p q) = (answer reply p, answer reply q).
Proof.
  revert p q. induction schedule as [|first schedule IH]; intros p q; cbn.
  - by rewrite !answer_bind.
  - destruct first, p, q; cbn; by rewrite IH.
Qed.
