(* ===== verification/MemoryState.v ===== *)
(** * The queries of the durable store

    The records of src/internal/store/durable/durable.go that the spatial
    queries of the interface take and return. *)

From S2P Require Import Prelude GoRuntime GoStrings GoRange Domain Errors.
From stdpp Require Import options.

Record CandidateQuery : Set := mkCandidateQuery {
  Query_ExcludeIntentID : string;
  Query_Volumes : list OperationalVolume;
}.

Record Candidate : Set := mkCandidate {
  Candidate_IntentID : string;
  Candidate_IntentVersion : Z;
}.

Record MissionCoverageResult : Set := mkMissionCoverageResult {
  Coverage_UncoveredItems : list Z;
  Coverage_UncoveredSegments : list Z;
}.

#[global] Instance Candidate_eq_dec : EqDecision Candidate.
Proof. solve_decision. Defined.

(** * The in-memory durable store: state and keys

    Module src/internal/store/durable/memory/durable.go.  [Store] has the maps
    and slices of the Go struct; its mutex is held by every exported method
    from entry to return, so a method is one atomic transition and the lock
    itself is not part of the state. *)

Record Store : Type := mkStore {
  operators : gmap string Operator;
  aircraft : gmap string Aircraft;
  batteries : gmap string Battery;
  batteryInstallations : list BatteryInstallation;
  operatingProfiles : gmap string AircraftOperatingProfile;
  operatingLimits : gmap string OperatingLimit;
  maintenanceEvents : list MaintenanceEvent;
  operationalIntents : gmap string OperationalIntent;
  operationalVolumes : gmap string OperationalVolume;
  authorizations : gmap string RegulatoryAuthorization;
  preflightChecks : list PreflightCheck;
  flightRecords : gmap string FlightRecord;
  missions : gmap string Mission;
  missionByIdempotencyKey : gmap string string;
  missionDeployments : gmap string MissionDeployment;
  deploymentByIdempotencyKey : gmap string string;
  deploymentCreationOrder : gmap string Z;
  nextDeploymentOrder : Z;
  conformanceEvents : list ConformanceEvent;
  conformanceSummaries : gmap string ConformanceSummary;
  evidenceRecords : gmap string EvidenceRecord;
  reportabilityReviews : list ReportabilityReview;
  complianceFindings : list ComplianceFinding;
  conflictFindings : list ConflictFinding;
  personnel : gmap string OperationsPersonnel;
  personnelAssignments : list PersonnelAssignment;
  publications : gmap string OperationalIntentPublication;
  peerNotifications : gmap string PeerNotification;
  receivedPeerNotifications : gmap string ReceivedPeerNotification;
}.

#[global] Instance Store_eta : Eta Store := λ s,
  mkStore (operators s) (aircraft s) (batteries s) (batteryInstallations s)
    (operatingProfiles s) (operatingLimits s) (maintenanceEvents s) (operationalIntents s)
    (operationalVolumes s) (authorizations s) (preflightChecks s) (flightRecords s)
    (missions s) (missionByIdempotencyKey s) (missionDeployments s)
    (deploymentByIdempotencyKey s) (deploymentCreationOrder s) (nextDeploymentOrder s)
    (conformanceEvents s) (conformanceSummaries s) (evidenceRecords s)
    (reportabilityReviews s) (complianceFindings s) (conflictFindings s) (personnel s)
    (personnelAssignments s) (publications s) (peerNotifications s)
    (receivedPeerNotifications s).

Definition NewStore : Store :=
  mkStore ∅ ∅ ∅ [] ∅ ∅ [] ∅ ∅ ∅ [] ∅ ∅ ∅ ∅ ∅ ∅ 0 [] ∅ ∅ [] [] [] ∅ [] ∅ ∅ ∅.

(** A method that changes the store returns its outcome and the new store. *)
Definition update (A : Type) : Type := outcome A * Store.

Definition fail {A} (s : Store) (e : error) : update A := (Err e, s).
Definition done_with {A} (s : Store) (a : A) : update A := (Ok a, s).

(** [v, ok := m[k]; if !ok { return zero, ErrNotFound }; return v, nil] *)
Definition get_or_not_found {V} (m : gmap string V) (k : string) : outcome V :=
  match m !! k with Some v => Ok v | None => Err ErrNotFound end.

(** ** Keys *)

Definition operationalVolumeKey (volume : OperationalVolume) : string :=
  Volume_IntentID volume +:+ ":" +:+ Itoa (Volume_IntentVersion volume) +:+ ":" +:+ Volume_ID volume.

Definition operationalIntentKey (intentID : string) (version : Z) : string :=
  intentID +:+ ":" +:+ Itoa version.

Definition conformanceSummaryKey (summary : ConformanceSummary) : string :=
  ConformanceSummary_IntentID summary +:+ ":" +:+ Itoa (ConformanceSummary_IntentVersion summary).

Lemma operationalIntentKey_inj' id v id' v' :
  operationalIntentKey id v = operationalIntentKey id' v' → id = id' ∧ v = v'.
Proof. apply (joined_inj colon), separator_colon. Qed.
