(* ===== verification/MemoryFleet.v ===== *)
(** * The in-memory store: shared queries

    The helpers the methods of the store share: the latest version of an
    intent, and the deployments whose outcome is still outstanding. *)

From S2P Require Import Prelude GoRuntime GoRange Domain Errors MemoryState.
From stdpp Require Import options.

(** The two branches of the version comparison of the scans over versions. *)
Definition newer_intent (intent latest : OperationalIntent) : bool :=
  (Intent_Version latest <? Intent_Version intent)
  || (Intent_Version intent =? Intent_Version latest)
     && After (Intent_UpdatedAt intent) (Intent_UpdatedAt latest).

Lemma newer_intent_weak : strict_weak newer_intent.
Proof. split; unfold newer_intent, After; intros; lia. Qed.

#[export] Hint Resolve newer_intent_weak : go.

Definition missionDeploymentOutstanding (status : MissionDeploymentStatus) : bool :=
  (status =s= MissionDeploymentPending) || (status =s= MissionDeploymentTemporaryError)
  || (status =s= MissionDeploymentOutcomeUnknown).

Section core.
Context {RT : Runtime}.

Definition latestOperationalIntent (s : Store) (intentID : string) : option OperationalIntent :=
  scan_best newer_intent
    (select (λ intent, negb (Intent_ID intent <>s intentID)) (range_values (operationalIntents s))).

Definition hasOutstandingMissionDeploymentForFlightLocked (s : Store) (flightID : string) : bool :=
  range_any (λ deployment, (Deployment_FlightID deployment =s= flightID)
                           && missionDeploymentOutstanding (Deployment_Status deployment))
    (missionDeployments s).

Definition hasOutstandingMissionDeploymentForIntentLocked (s : Store) (intentID : string) : bool :=
  range_any (λ flight, (Flight_IntentID flight =s= intentID)
                       && hasOutstandingMissionDeploymentForFlightLocked s (Flight_ID flight))
    (flightRecords s).

(** ** Well-formed keys

    Every entry of a map is stored under the key of its record. *)
Definition keyed {V} (key : V → string) (m : gmap string V) : Prop :=
  ∀ k v, m !! k = Some v → k = key v.

Definition intent_key (intent : OperationalIntent) : string :=
  operationalIntentKey (Intent_ID intent) (Intent_Version intent).

Lemma keyed_empty {V} (key : V → string) : keyed key ∅.
Proof. intros k v. by rewrite lookup_empty. Qed.

Lemma keyed_insert {V} (key : V → string) m k v :
  keyed key m → k = key v → keyed key (<[k := v]> m).
Proof. intros Hm Hk k' v'. rewrite lookup_insert_Some. intros [[<- <-]|[_ ?]]; auto. Qed.

Lemma keyed_range_update {V} (key : V → string) P f (m : gmap string V) :
  keyed key m → (∀ v, key (f v) = key v) → keyed key (range_update P f m).
Proof.
  intros Hm Hf k v. rewrite lookup_range_update, fmap_Some.
  intros (v' & Hv' & ->). apply Hm in Hv' as ->. by destruct (P v').
Qed.

Lemma keyed_range_delete {V} (key : V → string) P (m : gmap string V) :
  keyed key m → keyed key (range_delete P m).
Proof.
  intros Hm k v. rewrite lookup_range_delete. intros H. branches; eauto.
Qed.

Lemma keyed_inj {V} (key : V → string) (m : gmap string V) k k' v v' :
  keyed key m → m !! k = Some v → m !! k' = Some v' → key v = key v' → k = k' ∧ v = v'.
Proof.
  intros Hm Hk Hk' Heq. pose proof (Hm _ _ Hk). pose proof (Hm _ _ Hk').
  subst. rewrite Heq in Hk. rewrite Hk in Hk'. by simplify_eq.
Qed.

(** ** The latest version of an intent *)
Lemma latestOperationalIntent_Some s id i :
  keyed intent_key (operationalIntents s) →
  latestOperationalIntent s id = Some i →
  operationalIntents s !! operationalIntentKey id (Intent_Version i) = Some i ∧
  Intent_ID i = id ∧
  ∀ k j, operationalIntents s !! k = Some j → Intent_ID j = id →
         Intent_Version j ≤ Intent_Version i.
Proof.
  intros Hkey H. apply scan_best_Some in H as [Hin Hmax]; [|auto with go].
  apply elem_of_select in Hin as [[k Hk]%elem_of_range_values Hid].
  rewrite negb_involutive in Hid. apply String.eqb_eq in Hid.
  pose proof (Hkey _ _ Hk) as Hkk. unfold intent_key in Hkk. rewrite Hid in Hkk.
  rewrite <- Hkk. split; [done|]. split; [done|].
  intros k' j Hj Hjd. specialize (Hmax j).
  rewrite elem_of_select, elem_of_range_values, negb_involutive, String.eqb_eq in Hmax.
  assert (newer_intent j i = false) as Hn by (apply Hmax; split; eauto).
  unfold newer_intent in Hn. apply orb_false_iff in Hn as [Hn _]. lia.
Qed.

Lemma latestOperationalIntent_None s id :
  latestOperationalIntent s id = None ↔
  ∀ k j, operationalIntents s !! k = Some j → Intent_ID j ≠ id.
Proof.
  unfold latestOperationalIntent. rewrite scan_best_None by auto with go. split.
  - intros Hnil k j Hj Hid. assert (j ∈ []) as Hj0; [|by apply elem_of_nil in Hj0].
    rewrite <- Hnil, elem_of_select, elem_of_range_values, negb_involutive, String.eqb_eq.
    eauto.
  - intros H. apply select_nil. intros j [k Hk]%elem_of_range_values.
    apply negb_false_iff, negb_true_iff, String.eqb_neq. eauto.
Qed.

(** It is the stored version with the highest number: the order in which
    the map is visited plays no part. *)
Lemma latestOperationalIntent_iff s id i :
  keyed intent_key (operationalIntents s) →
  latestOperationalIntent s id = Some i ↔
  operationalIntents s !! operationalIntentKey id (Intent_Version i) = Some i ∧
  Intent_ID i = id ∧
  ∀ k j, operationalIntents s !! k = Some j → Intent_ID j = id →
         Intent_Version j ≤ Intent_Version i.
Proof.
  intros Hkey. split; [by apply latestOperationalIntent_Some|]. intros (Hi & Hid & Hmax).
  destruct (latestOperationalIntent s id) as [j|] eqn:Hj.
  - apply latestOperationalIntent_Some in Hj as (Hj & Hjd & Hjmax); [|done].
    assert (Intent_Version j = Intent_Version i) as Hv.
    { pose proof (Hmax _ _ Hj Hjd). pose proof (Hjmax _ _ Hi Hid). lia. }
    rewrite Hv in Hj. rewrite Hj in Hi. done.
  - rewrite latestOperationalIntent_None in Hj. by destruct (Hj _ _ Hi).
Qed.

(** Only the stored intents matter. *)
Lemma latestOperationalIntent_frame s s' id :
  operationalIntents s = operationalIntents s' →
  latestOperationalIntent s id = latestOperationalIntent s' id.
Proof. unfold latestOperationalIntent. by intros ->. Qed.

(** ** Outstanding deployments *)
Lemma outstanding_flight s flightID :
  hasOutstandingMissionDeploymentForFlightLocked s flightID = true ↔
  ∃ k d, missionDeployments s !! k = Some d ∧ Deployment_FlightID d = flightID ∧
         missionDeploymentOutstanding (Deployment_Status d) = true.
Proof.
  unfold hasOutstandingMissionDeploymentForFlightLocked. rewrite range_any_true.
  setoid_rewrite andb_true_iff. setoid_rewrite String.eqb_eq. done.
Qed.

Lemma outstanding_intent s intentID :
  hasOutstandingMissionDeploymentForIntentLocked s intentID = true ↔
  ∃ kf f kd d, flightRecords s !! kf = Some f ∧ Flight_IntentID f = intentID ∧
    missionDeployments s !! kd = Some d ∧ Deployment_FlightID d = Flight_ID f ∧
    missionDeploymentOutstanding (Deployment_Status d) = true.
Proof.
  unfold hasOutstandingMissionDeploymentForIntentLocked. rewrite range_any_true.
  setoid_rewrite andb_true_iff. setoid_rewrite String.eqb_eq.
  setoid_rewrite outstanding_flight. split.
  - intros (k & f & Hf & Hi & kd & d & Hd). open. eauto 10.
  - intros (kf & f & kd & d & Hf & Hi & Hd & Hfd & Ho). eauto 10.
Qed.
End core.

#[export] Hint Resolve keyed_empty keyed_insert keyed_range_update keyed_range_delete : go.

(** * The in-memory store: fleet registry

    Operators, aircraft, batteries and their installations, operating
    profiles and limits, maintenance, authorizations and personnel. *)

Section fleet.
Context {RT : Runtime}.

(** ** Operators *)

Definition UpsertOperator (operator : Operator) (s : Store) : update unit :=
  done_with (s <| operators := <[Operator_ID operator := operator]> (operators s) |>) tt.

Definition GetOperator (operatorID : string) (s : Store) : outcome Operator :=
  get_or_not_found (operators s) operatorID.

Definition ListOperators (s : Store) : outcome (list Operator) :=
  Ok (sort_slice (by_string Operator_Name) (range_values (operators s))).

(** ** Aircraft *)

Definition CreateAircraft (item : Aircraft) (s : Store) : update unit :=
  done_with (s <| aircraft := <[Aircraft_ID item := item]> (aircraft s) |>) tt.

Definition GetAircraft (aircraftID : string) (s : Store) : outcome Aircraft :=
  get_or_not_found (aircraft s) aircraftID.

Definition ListAircraft (s : Store) : outcome (list Aircraft) :=
  Ok (sort_slice (by_string Aircraft_ID) (range_values (aircraft s))).

(** ** Batteries *)

Definition CreateBattery (battery : Battery) (s : Store) : update unit :=
  done_with (s <| batteries := <[Battery_ID battery := battery]> (batteries s) |>) tt.

Definition GetBattery (batteryID : string) (s : Store) : outcome Battery :=
  get_or_not_found (batteries s) batteryID.

Definition ListBatteries (s : Store) : outcome (list Battery) :=
  Ok (sort_slice (by_string Battery_ID) (range_values (batteries s))).

(** The scan returns at the first installation that conflicts, so an
    identifier met before an active installation decides the error. *)
Fixpoint installation_conflict (l : list BatteryInstallation) (installation : BatteryInstallation)
    : option error :=
  match l with
  | [] => None
  | existing :: l' =>
      if Installation_ID existing =s= Installation_ID installation
      then Some (New ErrAlreadyExists)
      else if (Installation_AircraftID existing =s= Installation_AircraftID installation)
              && is_nil (Installation_RemovedAt existing)
      then Some (New ErrVersionConflict)
      else installation_conflict l' installation
  end.

Definition RecordBatteryInstallation (installation : BatteryInstallation) (s : Store) : update unit :=
  match installation_conflict (batteryInstallations s) installation with
  | Some e => fail s e
  | None => done_with (s <| batteryInstallations := batteryInstallations s ++ [installation] |>) tt
  end.

Definition GetActiveBatteryInstallation (aircraftID : string) (s : Store)
    : outcome (option BatteryInstallation) :=
  Ok (scan_best (λ item active, After (Installation_InstalledAt item) (Installation_InstalledAt active))
        (select (λ i, negb ((Installation_AircraftID i <>s aircraftID)
                            || negb (is_nil (Installation_RemovedAt i))))
           (batteryInstallations s))).

(** ** Operating profiles and limits *)

Definition UpsertAircraftOperatingProfile (profile : AircraftOperatingProfile) (s : Store)
    : update unit :=
  done_with (s <| operatingProfiles := <[Profile_AircraftID profile := profile]> (operatingProfiles s) |>) tt.

Definition GetAircraftOperatingProfile (aircraftID : string) (s : Store)
    : outcome (option AircraftOperatingProfile) :=
  Ok (operatingProfiles s !! aircraftID).

Definition ListOperatingLimits (aircraftID : string) (s : Store) : outcome (list OperatingLimit) :=
  Ok (sort_slice (by_string Limit_Name)
        (select (λ limit, Limit_AircraftID limit =s= aircraftID) (range_values (operatingLimits s)))).

Definition UpsertOperatingLimit (limit : OperatingLimit) (s : Store) : update unit :=
  done_with (s <| operatingLimits := <[Limit_ID limit := limit]> (operatingLimits s) |>) tt.

(** ** Maintenance *)

Definition RecordMaintenanceEvent (event : MaintenanceEvent) (s : Store) : update unit :=
  done_with (s <| maintenanceEvents := maintenanceEvents s ++ [event] |>) tt.

Definition ListMaintenanceEvents (aircraftID : string) (s : Store) : outcome (list MaintenanceEvent) :=
  Ok (sort_slice (λ a b, After (Maintenance_OpenedAt a) (Maintenance_OpenedAt b))
        (select (λ event, (aircraftID =s= "") || (Maintenance_AircraftID event =s= aircraftID))
           (maintenanceEvents s))).

(** ** Authorizations and personnel *)

Definition UpsertRegulatoryAuthorization (authorization : RegulatoryAuthorization) (s : Store)
    : update unit :=
  done_with (s <| authorizations := <[Authorization_ID authorization := authorization]> (authorizations s) |>) tt.

Definition GetRegulatoryAuthorization (authorizationID : string) (s : Store)
    : outcome RegulatoryAuthorization :=
  get_or_not_found (authorizations s) authorizationID.

Definition ListRegulatoryAuthorizations (operatorID : string) (s : Store)
    : outcome (list RegulatoryAuthorization) :=
  Ok (sort_slice (λ a b, Before (Authorization_ValidFrom a) (Authorization_ValidFrom b))
        (select (λ a, (operatorID =s= "") || (Authorization_OperatorID a =s= operatorID))
           (range_values (authorizations s)))).

Definition UpsertOperationsPersonnel (person : OperationsPersonnel) (s : Store) : update unit :=
  done_with (s <| personnel := <[Personnel_ID person := person]> (personnel s) |>) tt.

Definition GetOperationsPersonnel (personID : string) (s : Store) : outcome OperationsPersonnel :=
  get_or_not_found (personnel s) personID.

Definition RecordPersonnelAssignment (assignment : PersonnelAssignment) (s : Store) : update unit :=
  done_with (s <| personnelAssignments := personnelAssignments s ++ [assignment] |>) tt.

Definition ListPersonnelAssignments (intentID : string) (s : Store)
    : outcome (list PersonnelAssignment) :=
  Ok (sort_slice (λ a b, Before (Assignment_AssignedAt a) (Assignment_AssignedAt b))
        (select (λ a, (intentID =s= "") || (Assignment_IntentID a =s= intentID))
           (personnelAssignments s))).
End fleet.
