(* ===== verification/MemoryIntents.v ===== *)
(** * The in-memory store: operational intents and volumes

    Versions of an intent are rows of their own under the key of identity and
    version; a row carries a revision, which every write of the row
    advances and every writer must quote. *)

From S2P Require Import Prelude GoRuntime GoRange Domain Errors MemoryState MemoryFleet.
From stdpp Require Import options.

Section intents.
Context {RT : Runtime}.

(** ** Creation and update *)

Definition CreateOperationalIntent (intent : OperationalIntent) (s : Store) : update unit :=
  if hasOutstandingMissionDeploymentForIntentLocked s (Intent_ID intent)
  then fail s ErrVersionConflict else
  let key := operationalIntentKey (Intent_ID intent) (Intent_Version intent) in
  match operationalIntents s !! key with
  | Some _ => fail s ErrAlreadyExists
  | None =>
      let intent := intent <| Intent_Revision := 0 |> in
      done_with (s <| operationalIntents := <[key := intent]> (operationalIntents s) |>) tt
  end.

(** The earlier accepted versions of [intent], which its completion,
    cancellation or acceptance also ends. *)
Definition prior_accepted (intent prior : OperationalIntent) : bool :=
  negb ((Intent_ID prior <>s Intent_ID intent)
        || (Intent_Version intent <=? Intent_Version prior)
        || (Intent_Status prior <>s IntentStatusAccepted)).

Definition close_prior (intent prior : OperationalIntent) : OperationalIntent :=
  prior <| Intent_Status := Intent_Status intent |>
        <| Intent_CanceledAt := Intent_CanceledAt intent |>
        <| Intent_CompletedAt := Intent_CompletedAt intent |>
        <| Intent_UpdatedAt := Intent_UpdatedAt intent |>
        <| Intent_Revision := int64_succ (Intent_Revision prior) |>.

Definition updateOperationalIntentLocked (intent : OperationalIntent) (expectedRevision : Z)
    (s : Store) : update unit :=
  match latestOperationalIntent s (Intent_ID intent) with
  | None => fail s ErrNotFound
  | Some current =>
      if (Intent_Version current <>z Intent_Version intent)
         || (Intent_Revision current <>z expectedRevision)
      then fail s ErrVersionConflict
      else if hasOutstandingMissionDeploymentForIntentLocked s (Intent_ID intent)
      then fail s ErrVersionConflict
      else
        let intent := intent <| Intent_Revision := int64_succ expectedRevision |> in
        let intents := <[intent_key intent := intent]> (operationalIntents s) in
        let intents :=
          if (Intent_Status intent =s= IntentStatusCanceled)
             || (Intent_Status intent =s= IntentStatusComplete)
          then range_update (prior_accepted intent) (close_prior intent) intents
          else intents in
        done_with (s <| operationalIntents := intents |>) tt
  end.

Definition UpdateOperationalIntent (intent : OperationalIntent) (expectedRevision : Z)
    (s : Store) : update unit :=
  updateOperationalIntentLocked intent expectedRevision s.

(** ** Activation: one active intent per aircraft *)

Definition other_active (intent existing : OperationalIntent) : bool :=
  ((Intent_ID existing <>s Intent_ID intent)
   || (Intent_Version existing <>z Intent_Version intent))
  && (Intent_AircraftID existing =s= Intent_AircraftID intent)
  && (Intent_Status existing =s= IntentStatusActive).

Definition ActivateOperationalIntent (intent : OperationalIntent) (expectedRevision : Z)
    (s : Store) : update unit :=
  match latestOperationalIntent s (Intent_ID intent) with
  | None => fail s ErrNotFound
  | Some current =>
      if (Intent_Version current <>z Intent_Version intent)
         || (Intent_Revision current <>z expectedRevision)
      then fail s ErrVersionConflict
      else if range_any (other_active intent) (operationalIntents s)
      then fail s ErrActiveIntent
      else updateOperationalIntentLocked intent expectedRevision s
  end.

(** ** Acceptance supersedes the earlier accepted versions *)

Definition supersede_prior (intent prior : OperationalIntent) : OperationalIntent :=
  prior <| Intent_Status := IntentStatusSuperseded |>
        <| Intent_SupersededAt := Intent_AcceptedAt intent |>
        <| Intent_UpdatedAt := Intent_UpdatedAt intent |>
        <| Intent_Revision := int64_succ (Intent_Revision prior) |>.

Definition acceptOperationalIntentLocked (intent : OperationalIntent) (expectedRevision : Z)
    (s : Store) : update unit :=
  match latestOperationalIntent s (Intent_ID intent) with
  | None => fail s ErrNotFound
  | Some current =>
      if (Intent_Version current <>z Intent_Version intent)
         || (Intent_Revision current <>z expectedRevision)
      then fail s ErrVersionConflict
      else if hasOutstandingMissionDeploymentForIntentLocked s (Intent_ID intent)
      then fail s ErrVersionConflict
      else
        let intent := intent <| Intent_Revision := int64_succ expectedRevision |> in
        let intents := <[intent_key intent := intent]> (operationalIntents s) in
        done_with (s <| operationalIntents :=
          range_update (prior_accepted intent) (supersede_prior intent) intents |>) tt
  end.

Definition AcceptOperationalIntent (intent : OperationalIntent) (expectedRevision : Z)
    (s : Store) : update unit :=
  acceptOperationalIntentLocked intent expectedRevision s.

(** ** Queries *)

Definition GetOperationalIntent (intentID : string) (s : Store) : outcome OperationalIntent :=
  match latestOperationalIntent s intentID with
  | Some intent => Ok intent
  | None => Err ErrNotFound
  end.

Definition GetOperationalIntentVersion (intentID : string) (version : Z) (s : Store)
    : outcome OperationalIntent :=
  get_or_not_found (operationalIntents s) (operationalIntentKey intentID version).

Definition latest_by_id_step (latestByID : gmap string OperationalIntent)
    (intent : OperationalIntent) : gmap string OperationalIntent :=
  match latestByID !! Intent_ID intent with
  | None => <[Intent_ID intent := intent]> latestByID
  | Some current =>
      if newer_intent intent current then <[Intent_ID intent := intent]> latestByID
      else latestByID
  end.

Definition ListOperationalIntents (aircraftID : string) (s : Store)
    : outcome (list OperationalIntent) :=
  let latestByID := foldl latest_by_id_step ∅ (range_values (operationalIntents s)) in
  Ok (sort_slice (λ a b, Before (Intent_PlannedStartAt a) (Intent_PlannedStartAt b))
        (select (λ intent, (aircraftID =s= "") || (Intent_AircraftID intent =s= aircraftID))
           (range_values latestByID))).

Definition ListOperationalIntentVersions (intentID : string) (s : Store)
    : outcome (list OperationalIntent) :=
  Ok (sort_slice (by_Z_then Intent_Version (λ a b, Before (Intent_UpdatedAt a) (Intent_UpdatedAt b)))
        (select (λ intent, Intent_ID intent =s= intentID) (range_values (operationalIntents s)))).

(** ** Volumes *)

Definition insert_volumes (volumes : list OperationalVolume) (m : gmap string OperationalVolume)
    : gmap string OperationalVolume :=
  foldl (λ acc volume, <[operationalVolumeKey volume := volume]> acc) m volumes.

Definition volume_in_scope (intentID : string) (intentVersion : Z) (volume : OperationalVolume) : bool :=
  (Volume_IntentID volume =s= intentID) && (Volume_IntentVersion volume =? intentVersion).

(** The first volume outside the scope of a replacement, as an error. *)
Definition volume_outside_scope (intentID : string) (intentVersion : Z)
    (volumes : list OperationalVolume) : option error :=
  match List.find (λ volume, (Volume_IntentID volume <>s intentID)
                             || (Volume_IntentVersion volume <>z intentVersion)) volumes with
  | Some volume =>
      Some (Errorf ("operational volume " +:+ quote (Volume_ID volume)
                      +:+ " is outside replacement scope") [])
  | None => None
  end.

Definition RecordOperationalVolume (volume : OperationalVolume) (s : Store) : update unit :=
  if hasOutstandingMissionDeploymentForIntentLocked s (Volume_IntentID volume)
  then fail s ErrVersionConflict
  else done_with (s <| operationalVolumes :=
                    <[operationalVolumeKey volume := volume]> (operationalVolumes s) |>) tt.

Definition ReplaceOperationalVolumes (intentID : string) (intentVersion : Z)
    (volumes : list OperationalVolume) (s : Store) : update unit :=
  if hasOutstandingMissionDeploymentForIntentLocked s intentID
  then fail s ErrVersionConflict else
  match volume_outside_scope intentID intentVersion volumes with
  | Some e => fail s e
  | None =>
      let kept := range_delete (volume_in_scope intentID intentVersion) (operationalVolumes s) in
      done_with (s <| operationalVolumes := insert_volumes volumes kept |>) tt
  end.

(** [expectedVersion+1] wraps around like any [int]. *)
Definition ReplaceOperationalIntent (expectedVersion expectedRevision : Z)
    (intent : OperationalIntent) (volumes : list OperationalVolume) (s : Store) : update unit :=
  if (Intent_Version intent <>z expectedVersion)
     && (Intent_Version intent <>z int64_succ expectedVersion)
  then fail s ErrVersionConflict else
  match volume_outside_scope (Intent_ID intent) (Intent_Version intent) volumes with
  | Some e => fail s e
  | None =>
      match latestOperationalIntent s (Intent_ID intent) with
      | None => fail s ErrNotFound
      | Some current =>
          if Intent_Version current <>z expectedVersion then fail s ErrVersionConflict
          else if Intent_Revision current <>z expectedRevision then fail s ErrVersionConflict
          else if hasOutstandingMissionDeploymentForIntentLocked s (Intent_ID intent)
          then fail s ErrVersionConflict
          else
            let intent :=
              if Intent_Version intent =? Intent_Version current
              then intent <| Intent_Revision := int64_succ expectedRevision |>
              else intent <| Intent_Revision := 0 |> in
            let kept := range_delete (volume_in_scope (Intent_ID intent) (Intent_Version intent))
                          (operationalVolumes s) in
            done_with
              (s <| operationalIntents := <[intent_key intent := intent]> (operationalIntents s) |>
                 <| operationalVolumes := insert_volumes volumes kept |>) tt
      end
  end.

Definition ListOperationalVolumes (intentID : string) (s : Store)
    : outcome (list OperationalVolume) :=
  Ok (sort_slice (by_Z_then Volume_Sequence (λ a b, Before (Volume_StartsAt a) (Volume_StartsAt b)))
        (select (λ volume, (intentID =s= "") || (Volume_IntentID volume =s= intentID))
           (range_values (operationalVolumes s)))).
End intents.
