(* ===== verification/MemoryPublications.v ===== *)
(** * The in-memory store: publication outbox and peer notifications

    One publication record per intent is both the desired state and a
    coalescing outbox entry; workers lease it, and every write of a worker
    quotes the revision its claim returned (the fence). *)

From S2P Require Import Prelude GoRuntime GoRange Domain Errors MemoryState MemoryFleet MemoryIntents.
From stdpp Require Import options.

(** [append([]byte(nil), b...)]: a fresh copy of the bytes. *)
Definition clone_bytes (b : list Byte.byte) : list Byte.byte := [] ++ b.

Definition clonePublication (publication : OperationalIntentPublication)
    : OperationalIntentPublication :=
  publication <| Publication_ReferenceJSON := clone_bytes (Publication_ReferenceJSON publication) |>.

(** [t != nil && t.After(now)]: the lease is still held. *)
Definition lease_held (lease : option Time) (now : Time) : bool :=
  match lease with Some until => After until now | None => false end.

Section publications.
Context {RT : Runtime}.

(** ** Requests *)

(** What a request takes over from the record it replaces. *)
Definition carry_over (current request : OperationalIntentPublication)
    : OperationalIntentPublication :=
  let request :=
    request <| Publication_Revision := int64_succ (Publication_Revision current) |>
            <| Publication_PublishedIntentVersion := Publication_PublishedIntentVersion current |>
            <| Publication_ConfirmedState := Publication_ConfirmedState current |>
            <| Publication_DSSVersion := Publication_DSSVersion current |>
            <| Publication_OVN := Publication_OVN current |>
            <| Publication_SubscriptionID := Publication_SubscriptionID current |>
            <| Publication_Manager := Publication_Manager current |>
            <| Publication_USSBaseURL := Publication_USSBaseURL current |>
            <| Publication_ReferenceJSON := clone_bytes (Publication_ReferenceJSON current) |>
            <| Publication_ConfirmedAt := Publication_ConfirmedAt current |>
            <| Publication_LeaseUntil := Publication_LeaseUntil current |>
            <| Publication_LastAttemptAt := Publication_LastAttemptAt current |> in
  if (Publication_SyncStatus current =s= PublicationSyncWithdrawn)
     && (Publication_DesiredState request <>s OperationalIntentExternalStateWithdrawn)
  then request <| Publication_PublishedIntentVersion := 0 |>
               <| Publication_DSSVersion := 0 |>
               <| Publication_OVN := "" |>
               <| Publication_ReferenceJSON := [] |>
               <| Publication_ConfirmedAt := None |>
  else request.

Definition requestPublicationLocked (request : OperationalIntentPublication) (s : Store) : Store :=
  let request := request <| Publication_LeaseUntil := None |> in
  let request :=
    match publications s !! Publication_IntentID request with
    | Some current => carry_over current request
    | None => request
    end in
  let request :=
    request <| Publication_SyncStatus := PublicationSyncPending |>
            <| Publication_AttemptCount := 0 |>
            <| Publication_LastError := "" |> in
  s <| publications :=
    <[Publication_IntentID request := clonePublication request]> (publications s) |>.

Definition AcceptOperationalIntentAndRequestPublication (intent : OperationalIntent)
    (expectedRevision : Z) (publication : OperationalIntentPublication) (s : Store) : update unit :=
  match acceptOperationalIntentLocked intent expectedRevision s with
  | (Err e, s') => fail s' e
  | (Ok _, s') => done_with (requestPublicationLocked publication s') tt
  end.

Definition UpdateOperationalIntentAndRequestPublication (intent : OperationalIntent)
    (expectedRevision : Z) (publication : OperationalIntentPublication) (s : Store) : update unit :=
  match updateOperationalIntentLocked intent expectedRevision s with
  | (Err e, s') => fail s' e
  | (Ok _, s') => done_with (requestPublicationLocked publication s') tt
  end.

Definition desired_version_key (publication : OperationalIntentPublication) : string :=
  operationalIntentKey (Publication_IntentID publication) (Publication_DesiredIntentVersion publication).

Definition RequestOperationalIntentPublication (publication : OperationalIntentPublication)
    (s : Store) : update unit :=
  match operationalIntents s !! desired_version_key publication with
  | None => fail s ErrNotFound
  | Some _ => done_with (requestPublicationLocked publication s) tt
  end.

Definition RequestOperationalIntentPublicationIfCurrent (publication : OperationalIntentPublication)
    (expectedIntentVersion expectedIntentRevision : Z) (expectedStatus : IntentStatus)
    (s : Store) : update unit :=
  match latestOperationalIntent s (Publication_IntentID publication) with
  | None => fail s ErrNotFound
  | Some current =>
      if (Intent_Version current <>z expectedIntentVersion)
         || (Intent_Revision current <>z expectedIntentRevision)
         || (Intent_Status current <>s expectedStatus)
      then fail s ErrVersionConflict
      else match operationalIntents s !! desired_version_key publication with
      | None => fail s ErrNotFound
      | Some _ => done_with (requestPublicationLocked publication s) tt
      end
  end.

Definition GetOperationalIntentPublication (intentID : string) (s : Store)
    : outcome OperationalIntentPublication :=
  match publications s !! intentID with
  | Some publication => Ok (clonePublication publication)
  | None => Err ErrNotFound
  end.

(** ** Leases *)

Definition claim_publication (now leaseUntil : Time) (publication : OperationalIntentPublication)
    : OperationalIntentPublication :=
  publication <| Publication_Revision := int64_succ (Publication_Revision publication) |>
              <| Publication_SyncStatus := PublicationSyncProcessing |>
              <| Publication_LeaseUntil := Some leaseUntil |>
              <| Publication_LastAttemptAt := Some now |>
              <| Publication_AttemptCount := int64_succ (Publication_AttemptCount publication) |>
              <| Publication_UpdatedAt := now |>.

Definition ClaimOperationalIntentPublication (intentID : string) (now leaseUntil : Time)
    (s : Store) : update OperationalIntentPublication :=
  match publications s !! intentID with
  | None => fail s ErrNotFound
  | Some publication =>
      if lease_held (Publication_LeaseUntil publication) now then fail s ErrVersionConflict
      else
        let publication := claim_publication now leaseUntil publication in
        done_with (s <| publications := <[intentID := clonePublication publication]> (publications s) |>)
          (clonePublication publication)
  end.

(** Neither skipped by the time and lease test, nor by the status test. *)
Definition publication_due (now : Time) (publication : OperationalIntentPublication) : bool :=
  negb (After (Publication_NextAttemptAt publication) now
        || lease_held (Publication_LeaseUntil publication) now)
  && negb ((Publication_SyncStatus publication <>s PublicationSyncPending)
           && (Publication_SyncStatus publication <>s PublicationSyncRetrying)
           && (Publication_SyncStatus publication <>s PublicationSyncProcessing)).

Definition claim_publication_step (now leaseUntil : Time)
    (acc : gmap string OperationalIntentPublication * list OperationalIntentPublication) (id : string)
    : gmap string OperationalIntentPublication * list OperationalIntentPublication :=
  let '(m, claimed) := acc in
  let publication :=
    claim_publication now leaseUntil (default zero_OperationalIntentPublication (m !! id)) in
  (<[id := clonePublication publication]> m, claimed ++ [clonePublication publication]).

Definition due_publication_ids (now : Time) (s : Store) : list string :=
  sort_strings (select (λ '(id, publication), publication_due now publication)
                  (map_range (publications s))).*1.

Definition ClaimDueOperationalIntentPublications (now leaseUntil : Time) (limit : Z) (s : Store)
    : update (list OperationalIntentPublication) :=
  if limit <=? 0 then done_with s [] else
  let ids := due_publication_ids now s in
  let ids := if limit <? Z.of_nat (length ids) then take (Z.to_nat limit) ids else ids in
  let '(m, claimed) := foldl (claim_publication_step now leaseUntil) (publications s, []) ids in
  done_with (s <| publications := m |>) claimed.

Definition RenewOperationalIntentPublicationLease (intentID : string) (expectedRevision : Z)
    (leaseUntil : Time) (s : Store) : update unit :=
  match publications s !! intentID with
  | None => fail s ErrNotFound
  | Some publication =>
      if Publication_Revision publication <>z expectedRevision then fail s ErrVersionConflict
      else
        let publication := publication <| Publication_LeaseUntil := Some leaseUntil |> in
        done_with (s <| publications := <[intentID := clonePublication publication]> (publications s) |>) tt
  end.

(** ** Outcomes *)

(** The record a worker writes back: next revision, no lease. *)
Definition settle_publication (publication : OperationalIntentPublication) (expectedRevision : Z)
    : OperationalIntentPublication :=
  publication <| Publication_Revision := int64_succ expectedRevision |>
              <| Publication_LeaseUntil := None |>.

Definition UpdateOperationalIntentPublication (publication : OperationalIntentPublication)
    (expectedRevision : Z) (s : Store) : update unit :=
  match publications s !! Publication_IntentID publication with
  | None => fail s ErrNotFound
  | Some current =>
      if Publication_Revision current <>z expectedRevision then fail s ErrVersionConflict
      else
        let publication := settle_publication publication expectedRevision in
        done_with (s <| publications :=
          <[Publication_IntentID publication := clonePublication publication]> (publications s) |>) tt
  end.

Definition enqueue_step (m : gmap string PeerNotification) (notification : PeerNotification)
    : gmap string PeerNotification :=
  match m !! Notification_ID notification with
  | Some _ => m
  | None =>
      let copy := notification <| Notification_Revision := 0 |>
                    <| Notification_Payload := clone_bytes (Notification_Payload notification) |> in
      <[Notification_ID notification := copy]> m
  end.

Definition enqueuePeerNotificationsLocked (notifications : list PeerNotification) (s : Store) : Store :=
  s <| peerNotifications := foldl enqueue_step (peerNotifications s) notifications |>.

Definition ConfirmOperationalIntentPublication (publication : OperationalIntentPublication)
    (expectedRevision : Z) (notifications : list PeerNotification) (s : Store) : update unit :=
  match publications s !! Publication_IntentID publication with
  | None => fail s ErrNotFound
  | Some current =>
      if Publication_Revision current <>z expectedRevision then fail s ErrVersionConflict
      else
        let publication := settle_publication publication expectedRevision in
        let s := s <| publications :=
          <[Publication_IntentID publication := clonePublication publication]> (publications s) |> in
        done_with (enqueuePeerNotificationsLocked notifications s) tt
  end.

(** ** Peer notifications *)

Definition notification_due (now : Time) (notification : PeerNotification) : bool :=
  is_nil (Notification_DeliveredAt notification)
  && negb (After (Notification_NextAttemptAt notification) now)
  && negb (lease_held (Notification_LeaseUntil notification) now).

Definition claim_notification (now leaseUntil : Time) (notification : PeerNotification)
    : PeerNotification :=
  notification <| Notification_Revision := int64_succ (Notification_Revision notification) |>
               <| Notification_LeaseUntil := Some leaseUntil |>
               <| Notification_AttemptCount := int64_succ (Notification_AttemptCount notification) |>
               <| Notification_UpdatedAt := now |>.

Definition claim_notification_step (now leaseUntil : Time)
    (acc : gmap string PeerNotification * list PeerNotification) (id : string)
    : gmap string PeerNotification * list PeerNotification :=
  let '(m, claimed) := acc in
  let notification := claim_notification now leaseUntil (default zero_PeerNotification (m !! id)) in
  (<[id := notification]> m, claimed ++ [notification]).

Definition due_notification_ids (now : Time) (s : Store) : list string :=
  sort_strings (select (λ '(id, notification), notification_due now notification)
                  (map_range (peerNotifications s))).*1.

Definition ClaimDuePeerNotifications (now leaseUntil : Time) (limit : Z) (s : Store)
    : update (list PeerNotification) :=
  let ids := due_notification_ids now s in
  let ids := if limit <? Z.of_nat (length ids) then take (Z.to_nat (Z.max limit 0)) ids else ids in
  let '(m, claimed) := foldl (claim_notification_step now leaseUntil) (peerNotifications s, []) ids in
  done_with (s <| peerNotifications := m |>) claimed.

Definition UpdatePeerNotification (notification : PeerNotification) (expectedRevision : Z)
    (s : Store) : update unit :=
  match peerNotifications s !! Notification_ID notification with
  | None => fail s ErrNotFound
  | Some current =>
      if Notification_Revision current <>z expectedRevision then fail s ErrVersionConflict
      else
        let notification :=
          notification <| Notification_Revision := int64_succ expectedRevision |>
                       <| Notification_LeaseUntil := None |> in
        done_with (s <| peerNotifications :=
          <[Notification_ID notification := notification]> (peerNotifications s) |>) tt
  end.

Definition RecordReceivedPeerNotification (notification : ReceivedPeerNotification) (s : Store)
    : update unit :=
  let copy := notification <| Received_Payload := clone_bytes (Received_Payload notification) |> in
  done_with (s <| receivedPeerNotifications :=
    <[Received_ID notification := copy]> (receivedPeerNotifications s) |>) tt.

Definition ListReceivedPeerNotifications (intentID : string) (s : Store)
    : outcome (list ReceivedPeerNotification) :=
  Ok (sort_slice (λ a b, Before (Received_ReceivedAt a) (Received_ReceivedAt b))
        ((λ notification, notification <| Received_Payload := clone_bytes (Received_Payload notification) |>) <$>
           select (λ n, (intentID =s= "") || (Received_IntentID n =s= intentID))
             (range_values (receivedPeerNotifications s)))).
End publications.
