(* ===== verification/MemoryMissions.v ===== *)
(** * The in-memory store: flights, missions and mission deployments

    A mission plan is an immutable version for one flight; a deployment is
    one attempt to put a version on an aircraft.  Both are created at most
    once per idempotency key.  Flights change only while no deployment of
    theirs is outstanding, and start only with the current mission applied. *)

From S2P Require Import Prelude GoRuntime GoRange Domain Errors MemoryState MemoryFleet.
From stdpp Require Import options.

Section missions.
Context {RT : Runtime}.

(** ** Flights *)

Definition CreateFlightRecord (flight : FlightRecord) (s : Store) : update unit :=
  match flightRecords s !! Flight_ID flight with
  | Some _ => fail s ErrAlreadyExists
  | None => done_with (s <| flightRecords := <[Flight_ID flight := flight]> (flightRecords s) |>) tt
  end.

Definition UpdateFlightRecord (flight : FlightRecord) (expectedStatus : FlightStatus) (s : Store)
    : update unit :=
  match flightRecords s !! Flight_ID flight with
  | None => fail s ErrNotFound
  | Some current =>
      if Flight_Status current <>s expectedStatus then fail s ErrVersionConflict
      else if hasOutstandingMissionDeploymentForFlightLocked s (Flight_ID current)
      then fail s ErrVersionConflict
      else done_with (s <| flightRecords := <[Flight_ID flight := flight]> (flightRecords s) |>) tt
  end.

Definition GetFlightRecord (flightID : string) (s : Store) : outcome FlightRecord :=
  get_or_not_found (flightRecords s) flightID.

Definition ListFlightRecords (aircraftID : string) (s : Store) : outcome (list FlightRecord) :=
  Ok (sort_slice (λ a b, After (Flight_StartedAt a) (Flight_StartedAt b))
        (select (λ flight, (aircraftID =s= "") || (Flight_AircraftID flight =s= aircraftID))
           (range_values (flightRecords s)))).

(** ** Mission versions *)

(** The slices are copied, their contents are the same. *)
Definition cloneMission (mission : Mission) : Mission :=
  mission <| Mission_Items := [] ++ Mission_Items mission |>
          <| Mission_ValidationFindings := [] ++ Mission_ValidationFindings mission |>.

Definition next_version_step (flightID : string) (version : Z) (existing : Mission) : Z :=
  if (Mission_FlightID existing =s= flightID) && (version <=? Mission_Version existing)
  then int64_succ (Mission_Version existing) else version.

Definition next_mission_version (s : Store) (flightID : string) : Z :=
  foldl (next_version_step flightID) 1 (range_values (missions s)).

Definition createMissionLocked (mission : Mission) (s : Store) : update Mission :=
  match missionByIdempotencyKey s !! Mission_IdempotencyKey mission with
  | Some id =>
      let existing := default zero_Mission (missions s !! id) in
      if Mission_IdempotencyRequest existing <>s Mission_IdempotencyRequest mission
      then fail s ErrIdempotencyConflict
      else done_with s (cloneMission existing)
  | None =>
      match missions s !! Mission_ID mission with
      | Some _ => fail s ErrAlreadyExists
      | None =>
          let version := next_mission_version s (Mission_FlightID mission) in
          let mission := cloneMission (mission <| Mission_Version := version |>) in
          done_with
            (s <| missions := <[Mission_ID mission := mission]> (missions s) |>
               <| missionByIdempotencyKey :=
                    <[Mission_IdempotencyKey mission := Mission_ID mission]>
                      (missionByIdempotencyKey s) |>)
            (cloneMission mission)
      end
  end.

Definition CreateMission (mission : Mission) (s : Store) : update Mission :=
  createMissionLocked mission s.

(** The mission is not the one the flight and its intent call for. *)
Definition mission_scope_mismatch (mission : Mission) (flight : FlightRecord)
    (intent : OperationalIntent) : bool :=
  (Mission_FlightID mission <>s Flight_ID flight)
  || (Mission_OperatorID mission <>s Flight_OperatorID flight)
  || (Mission_AircraftID mission <>s Flight_AircraftID flight)
  || (Mission_IntentID mission <>s Flight_IntentID flight)
  || (Mission_IntentVersion mission <>z Flight_IntentVersion flight)
  || (Intent_Version intent <>z Flight_IntentVersion flight)
  || (Intent_OperatorID intent <>s Flight_OperatorID flight)
  || (Intent_AircraftID intent <>s Flight_AircraftID flight)
  || ((Intent_Status intent <>s IntentStatusAccepted)
      && (Intent_Status intent <>s IntentStatusActive)).

Definition CreateMissionForPlannedFlight (mission : Mission) (s : Store) : update Mission :=
  match missionByIdempotencyKey s !! Mission_IdempotencyKey mission with
  | Some id =>
      let existing := default zero_Mission (missions s !! id) in
      if Mission_IdempotencyRequest existing <>s Mission_IdempotencyRequest mission
      then fail s ErrIdempotencyConflict
      else done_with s (cloneMission existing)
  | None =>
      match flightRecords s !! Mission_FlightID mission with
      | None => fail s ErrNotFound
      | Some flight =>
          if Flight_Status flight <>s FlightStatusPlanned then fail s ErrVersionConflict else
          match latestOperationalIntent s (Flight_IntentID flight) with
          | None => fail s ErrNotFound
          | Some intent =>
              if mission_scope_mismatch mission flight intent then fail s ErrVersionConflict
              else if hasOutstandingMissionDeploymentForFlightLocked s (Flight_ID flight)
              then fail s ErrVersionConflict
              else createMissionLocked mission s
          end
      end
  end.

Definition GetMissionByIdempotencyKey (key : string) (s : Store) : outcome Mission :=
  match missionByIdempotencyKey s !! key with
  | None => Err ErrNotFound
  | Some id => Ok (cloneMission (default zero_Mission (missions s !! id)))
  end.

Definition GetMission (missionID : string) (s : Store) : outcome Mission :=
  match missions s !! missionID with
  | None => Err ErrNotFound
  | Some mission => Ok (cloneMission mission)
  end.

Definition mission_of_flight (flightID : string) (mission : Mission) : bool :=
  Mission_FlightID mission =s= flightID.

Definition newer_mission (mission current : Mission) : bool :=
  Mission_Version current <? Mission_Version mission.

Definition currentMissionForFlightLocked (s : Store) (flightID : string) : option Mission :=
  scan_best newer_mission (select (mission_of_flight flightID) (range_values (missions s))).

Definition GetCurrentMissionForFlight (flightID : string) (s : Store) : outcome Mission :=
  match currentMissionForFlightLocked s flightID with
  | None => Err ErrNotFound
  | Some current => Ok (cloneMission current)
  end.

Definition GetCurrentMissionForIntent (aircraftID intentID : string) (intentVersion : Z) (s : Store)
    : outcome Mission :=
  match scan_best
          (λ mission current, After (Mission_CreatedAt mission) (Mission_CreatedAt current)
             || TimeEqual (Mission_CreatedAt mission) (Mission_CreatedAt current)
                && (Mission_Version current <? Mission_Version mission))
          (select (λ mission, negb ((Mission_AircraftID mission <>s aircraftID)
                                    || (Mission_IntentID mission <>s intentID)
                                    || (Mission_IntentVersion mission <>z intentVersion)))
             (range_values (missions s))) with
  | None => Err ErrNotFound
  | Some current => Ok (cloneMission current)
  end.

Definition applied (status : MissionDeploymentStatus) : bool :=
  (status =s= MissionDeploymentApplied) || (status =s= MissionDeploymentAlreadyApplied).

Definition deploys (mission : Mission) (deployment : MissionDeployment) : bool :=
  (Deployment_MissionID deployment =s= Mission_ID mission)
  && (Deployment_MissionDigest deployment =s= Mission_MissionDigest mission).

Definition active_flight_of (aircraftID intentID : string) (intentVersion : Z)
    (flight : FlightRecord) : bool :=
  negb ((Flight_Status flight <>s FlightStatusActive)
        || (Flight_AircraftID flight <>s aircraftID)
        || (Flight_IntentID flight <>s intentID)
        || (Flight_IntentVersion flight <>z intentVersion)).

Definition GetDeployedMissionForActiveFlight (aircraftID intentID : string) (intentVersion : Z)
    (s : Store) : outcome Mission :=
  match select (active_flight_of aircraftID intentID intentVersion) (range_values (flightRecords s)) with
  | [] => Err ErrNotFound
  | _ :: _ :: _ => Err ErrVersionConflict
  | [activeFlight] =>
      match currentMissionForFlightLocked s (Flight_ID activeFlight) with
      | None => Err ErrNotFound
      | Some current =>
          if range_any (λ deployment, (Deployment_FlightID deployment =s= Flight_ID activeFlight)
                          && deploys current deployment && applied (Deployment_Status deployment))
               (missionDeployments s)
          then Ok (cloneMission current) else Err ErrNotFound
      end
  end.

(** ** Deployments *)

Definition createMissionDeploymentLocked (deployment : MissionDeployment) (s : Store)
    : update MissionDeployment :=
  match deploymentByIdempotencyKey s !! Deployment_IdempotencyKey deployment with
  | Some id =>
      let existing := default zero_MissionDeployment (missionDeployments s !! id) in
      if Deployment_IdempotencyRequest existing <>s Deployment_IdempotencyRequest deployment
      then fail s ErrIdempotencyConflict
      else done_with s existing
  | None =>
      match missionDeployments s !! Deployment_ID deployment with
      | Some _ => fail s ErrAlreadyExists
      | None =>
          let deployment := deployment <| Deployment_Revision := 0 |> in
          let order := uint64_succ (nextDeploymentOrder s) in
          done_with
            (s <| nextDeploymentOrder := order |>
               <| missionDeployments :=
                    <[Deployment_ID deployment := deployment]> (missionDeployments s) |>
               <| deploymentByIdempotencyKey :=
                    <[Deployment_IdempotencyKey deployment := Deployment_ID deployment]>
                      (deploymentByIdempotencyKey s) |>
               <| deploymentCreationOrder :=
                    <[Deployment_ID deployment := order]> (deploymentCreationOrder s) |>)
            deployment
      end
  end.

Definition CreateMissionDeployment (deployment : MissionDeployment) (s : Store)
    : update MissionDeployment :=
  createMissionDeploymentLocked deployment s.

Definition deployment_scope_mismatch (deployment : MissionDeployment) (flight : FlightRecord)
    (intent : OperationalIntent) : bool :=
  (Deployment_OperatorID deployment <>s Flight_OperatorID flight)
  || (Deployment_IntentID deployment <>s Flight_IntentID flight)
  || (Deployment_IntentVersion deployment <>z Flight_IntentVersion flight)
  || (Intent_Version intent <>z Flight_IntentVersion flight)
  || (Intent_OperatorID intent <>s Flight_OperatorID flight)
  || (Intent_AircraftID intent <>s Flight_AircraftID flight)
  || ((Intent_Status intent <>s IntentStatusAccepted)
      && (Intent_Status intent <>s IntentStatusActive)).

(** [deployment] is outstanding for a planned flight of the aircraft. *)
Definition outstanding_planned (s : Store) (aircraftID : string) (deployment : MissionDeployment)
    : bool :=
  match flightRecords s !! Deployment_FlightID deployment with
  | None => false
  | Some flight =>
      negb ((Flight_AircraftID flight <>s aircraftID)
            || (Flight_Status flight <>s FlightStatusPlanned)
            || negb (missionDeploymentOutstanding (Deployment_Status deployment)))
  end.

(** The same, unless it is the deployment that is being replayed. *)
Definition blocks_deployment (s : Store) (aircraftID : string) (replay : option MissionDeployment)
    (existing : MissionDeployment) : bool :=
  match replay with
  | Some r => (Deployment_ID existing <>s Deployment_ID r) && outstanding_planned s aircraftID existing
  | None => outstanding_planned s aircraftID existing
  end.

(** The guards that a deployment for a planned flight passes, replayed or new. *)
Definition planned_flight_guard (deployment : MissionDeployment) (replay : option MissionDeployment)
    (s : Store) : option error :=
  match flightRecords s !! Deployment_FlightID deployment with
  | None => Some (New ErrNotFound)
  | Some flight =>
      if (Flight_Status flight <>s FlightStatusPlanned)
         || (Deployment_AircraftID deployment <>s Flight_AircraftID flight)
      then Some (New ErrVersionConflict) else
      match latestOperationalIntent s (Flight_IntentID flight) with
      | None => Some (New ErrNotFound)
      | Some intent =>
          if deployment_scope_mismatch deployment flight intent then Some (New ErrVersionConflict)
          else if range_any (λ candidate, (Flight_AircraftID candidate =s= Flight_AircraftID flight)
                               && (Flight_Status candidate =s= FlightStatusActive)) (flightRecords s)
          then Some (New ErrVersionConflict) else
          match currentMissionForFlightLocked s (Deployment_FlightID deployment) with
          | None => Some (New ErrVersionConflict)
          | Some currentMission =>
              if (Mission_ID currentMission <>s Deployment_MissionID deployment)
                 || (Mission_MissionDigest currentMission <>s Deployment_MissionDigest deployment)
              then Some (New ErrVersionConflict)
              else if range_any (blocks_deployment s (Flight_AircraftID flight) replay)
                        (missionDeployments s)
              then Some (New ErrVersionConflict)
              else None
          end
      end
  end.

(** A key that was used resolves at once unless its deployment is still
    outstanding: that one is returned if the guards still hold. *)
Definition CreateMissionDeploymentForPlannedFlight (deployment : MissionDeployment) (s : Store)
    : update MissionDeployment :=
  match deploymentByIdempotencyKey s !! Deployment_IdempotencyKey deployment with
  | Some id =>
      let existing := default zero_MissionDeployment (missionDeployments s !! id) in
      if Deployment_IdempotencyRequest existing <>s Deployment_IdempotencyRequest deployment
      then fail s ErrIdempotencyConflict
      else if negb (missionDeploymentOutstanding (Deployment_Status existing))
      then done_with s existing
      else match planned_flight_guard deployment (Some existing) s with
      | Some e => fail s e
      | None => done_with s existing
      end
  | None =>
      match planned_flight_guard deployment None s with
      | Some e => fail s e
      | None => createMissionDeploymentLocked deployment s
      end
  end.

Definition creation_order (s : Store) (deployment : MissionDeployment) : Z :=
  default 0 (deploymentCreationOrder s !! Deployment_ID deployment).

Definition deployment_of_aircraft (s : Store) (aircraftID : string) (deployment : MissionDeployment)
    : bool :=
  match flightRecords s !! Deployment_FlightID deployment with
  | None => false
  | Some flight => negb (Flight_AircraftID flight <>s aircraftID)
  end.

Definition latest_deployment (s : Store) (aircraftID : string) : option MissionDeployment :=
  scan_best (λ deployment latest, creation_order s latest <? creation_order s deployment)
    (select (deployment_of_aircraft s aircraftID) (range_values (missionDeployments s))).

Definition StartFlightWithCurrentMissionDeployment (flight : FlightRecord)
    (expectedStatus : FlightStatus) (s : Store) : update unit :=
  match flightRecords s !! Flight_ID flight with
  | None => fail s ErrNotFound
  | Some currentFlight =>
      let aircraftID := Flight_AircraftID currentFlight in
      if Flight_Status currentFlight <>s expectedStatus then fail s ErrVersionConflict
      else if existsb (λ '(id, existing), (id <>s Flight_ID flight)
                        && (Flight_AircraftID existing =s= aircraftID)
                        && (Flight_Status existing =s= FlightStatusActive))
                (map_range (flightRecords s))
      then fail s ErrVersionConflict else
      match latestOperationalIntent s (Flight_IntentID currentFlight) with
      | None => fail s ErrNotFound
      | Some intent =>
          if (Intent_Status intent <>s IntentStatusActive)
             || (Intent_Version intent <>z Flight_IntentVersion currentFlight)
             || (Intent_AircraftID intent <>s aircraftID)
          then fail s ErrVersionConflict else
          match currentMissionForFlightLocked s (Flight_ID flight) with
          | None => fail s ErrVersionConflict
          | Some currentMission =>
              if range_any (outstanding_planned s aircraftID) (missionDeployments s)
              then fail s ErrVersionConflict else
              match latest_deployment s aircraftID with
              | None => fail s ErrVersionConflict
              | Some latest =>
                  if (Deployment_FlightID latest <>s Flight_ID flight)
                     || (Deployment_MissionID latest <>s Mission_ID currentMission)
                     || (Deployment_MissionDigest latest <>s Mission_MissionDigest currentMission)
                     || ((Deployment_Status latest <>s MissionDeploymentApplied)
                         && (Deployment_Status latest <>s MissionDeploymentAlreadyApplied))
                  then fail s ErrVersionConflict
                  else done_with
                         (s <| flightRecords := <[Flight_ID flight := flight]> (flightRecords s) |>) tt
              end
          end
      end
  end.

Definition GetMissionDeployment (deploymentID : string) (s : Store) : outcome MissionDeployment :=
  get_or_not_found (missionDeployments s) deploymentID.

Definition GetMissionDeploymentByIdempotencyKey (key : string) (s : Store)
    : outcome MissionDeployment :=
  match deploymentByIdempotencyKey s !! key with
  | None => Err ErrNotFound
  | Some id => Ok (default zero_MissionDeployment (missionDeployments s !! id))
  end.

(** The last deployment to the aircraft created before the given one. *)
Definition GetPreviousMissionDeploymentForAircraft (aircraftID deploymentID : string) (s : Store)
    : outcome MissionDeployment :=
  let order id := default 0 (deploymentCreationOrder s !! id) in
  match missionDeployments s !! deploymentID with
  | None => Err ErrNotFound
  | Some current =>
      if Deployment_AircraftID current <>s aircraftID then Err ErrNotFound else
      let currentOrder := order deploymentID in
      match scan_best (λ a b, negb (order a.1 <=? order b.1))
              (select (λ '(id, deployment), negb ((Deployment_AircraftID deployment <>s aircraftID)
                                                  || (currentOrder <=? order id)))
                 (map_range (missionDeployments s))) with
      | None => Err ErrNotFound
      | Some (_, previous) => Ok previous
      end
  end.

(** ** Which deployment to restore after a reconnect *)

Definition missionDeploymentRestorePriority (status : MissionDeploymentStatus) : Z :=
  if status =s= MissionDeploymentOutcomeUnknown then 0
  else if (status =s= MissionDeploymentPending) || (status =s= MissionDeploymentTemporaryError)
  then 1 else 2.

Definition deploymentPreferredForRestore (s : Store) (candidate current : MissionDeployment) : bool :=
  let candidatePriority := missionDeploymentRestorePriority (Deployment_Status candidate) in
  let currentPriority := missionDeploymentRestorePriority (Deployment_Status current) in
  if candidatePriority <>z currentPriority then candidatePriority <? currentPriority else
  let candidateOrder := creation_order s candidate in
  let currentOrder := creation_order s current in
  if candidateOrder <>z currentOrder then currentOrder <? candidateOrder
  else string_lt (Deployment_ID current) (Deployment_ID candidate).

Definition restorable (currentMission : option Mission) (flightID : string)
    (deployment : MissionDeployment) : bool :=
  negb (Deployment_FlightID deployment <>s flightID)
  && (missionDeploymentOutstanding (Deployment_Status deployment)
      || match currentMission with Some m => deploys m deployment | None => false end).

Definition GetCurrentMissionDeploymentForFlight (flightID : string) (s : Store)
    : outcome MissionDeployment :=
  let currentMission := currentMissionForFlightLocked s flightID in
  match scan_best (deploymentPreferredForRestore s)
          (select (restorable currentMission flightID) (range_values (missionDeployments s))) with
  | None => Err ErrNotFound
  | Some current => Ok current
  end.

Definition UpdateMissionDeployment (deployment : MissionDeployment) (expectedRevision : Z) (s : Store)
    : update unit :=
  match missionDeployments s !! Deployment_ID deployment with
  | None => fail s ErrNotFound
  | Some existing =>
      if Deployment_Revision existing <>z expectedRevision then fail s ErrVersionConflict
      else if (Deployment_IdempotencyKey existing <>s Deployment_IdempotencyKey deployment)
              || (Deployment_IdempotencyRequest existing <>s Deployment_IdempotencyRequest deployment)
              || (Deployment_CommandID existing <>s Deployment_CommandID deployment)
              || (Deployment_MissionID existing <>s Deployment_MissionID deployment)
      then fail s ErrVersionConflict
      else
        let deployment := deployment <| Deployment_Revision := int64_succ expectedRevision |> in
        done_with (s <| missionDeployments :=
          <[Deployment_ID deployment := deployment]> (missionDeployments s) |>) tt
  end.
End missions.

(** * The in-memory store: checks, findings, conformance and evidence

    Append-only and upserted records of the evaluations of an intent.  A
    check, an event or a finding recorded again under its identifier replaces
    the earlier one in place. *)

Section evidence.
Context {RT : Runtime}.

(** ** Preflight checks *)

Definition same_check (existing check : PreflightCheck) : bool :=
  PreflightCheck_ID existing =s= PreflightCheck_ID check.

Definition RecordPreflightCheck (check : PreflightCheck) (s : Store) : update unit :=
  done_with (s <| preflightChecks := replace_or_append same_check check (preflightChecks s) |>) tt.

Definition ListPreflightChecks (intentID : string) (s : Store) : outcome (list PreflightCheck) :=
  Ok (sort_slice (λ a b, Before (PreflightCheck_CapturedAt a) (PreflightCheck_CapturedAt b))
        (select (λ check, (intentID =s= "") || (PreflightCheck_IntentID check =s= intentID))
           (preflightChecks s))).

(** ** Conformance *)

Definition same_event (existing event : ConformanceEvent) : bool :=
  ConformanceEvent_ID existing =s= ConformanceEvent_ID event.

Definition RecordConformanceEvent (event : ConformanceEvent) (s : Store) : update unit :=
  done_with (s <| conformanceEvents := replace_or_append same_event event (conformanceEvents s) |>) tt.

Definition ListConformanceEvents (flightID : string) (s : Store) : outcome (list ConformanceEvent) :=
  Ok (sort_slice (λ a b, Before (ConformanceEvent_OccurredAt a) (ConformanceEvent_OccurredAt b))
        (select (λ event, (flightID =s= "") || (ConformanceEvent_FlightID event =s= flightID))
           (conformanceEvents s))).

Definition UpsertConformanceSummary (summary : ConformanceSummary) (s : Store) : update unit :=
  done_with (s <| conformanceSummaries :=
    <[conformanceSummaryKey summary := summary]> (conformanceSummaries s) |>) tt.

Definition newer_summary (candidate selected : ConformanceSummary) : bool :=
  (ConformanceSummary_IntentVersion selected <? ConformanceSummary_IntentVersion candidate)
  || (ConformanceSummary_IntentVersion candidate =? ConformanceSummary_IntentVersion selected)
     && After (ConformanceSummary_UpdatedAt candidate) (ConformanceSummary_UpdatedAt selected).

Definition GetConformanceSummary (intentID : string) (s : Store)
    : outcome (option ConformanceSummary) :=
  Ok (scan_best newer_summary
        (select (λ summary, negb (ConformanceSummary_IntentID summary <>s intentID))
           (range_values (conformanceSummaries s)))).

Definition ListConformanceSummaries (intentID : string) (s : Store)
    : outcome (list ConformanceSummary) :=
  Ok (sort_slice (λ a b, After (ConformanceSummary_UpdatedAt a) (ConformanceSummary_UpdatedAt b))
        (select (λ summary, (intentID =s= "") || (ConformanceSummary_IntentID summary =s= intentID))
           (range_values (conformanceSummaries s)))).

(** ** Evidence and reportability *)

Definition RecordEvidence (record : EvidenceRecord) (s : Store) : update unit :=
  done_with (s <| evidenceRecords := <[EvidenceRecord_ID record := record]> (evidenceRecords s) |>) tt.

Definition ListEvidence (intentID : string) (s : Store) : outcome (list EvidenceRecord) :=
  Ok (sort_slice (λ a b, After (EvidenceRecord_CreatedAt a) (EvidenceRecord_CreatedAt b))
        (select (λ record, (intentID =s= "") || (EvidenceRecord_IntentID record =s= intentID))
           (range_values (evidenceRecords s)))).

Definition RecordReportabilityReview (review : ReportabilityReview) (s : Store) : update unit :=
  done_with (s <| reportabilityReviews := reportabilityReviews s ++ [review] |>) tt.

Definition ListReportabilityReviews (intentID : string) (s : Store)
    : outcome (list ReportabilityReview) :=
  Ok (sort_slice (λ a b, After (ReportabilityReview_CreatedAt a) (ReportabilityReview_CreatedAt b))
        (select (λ review, (intentID =s= "") || (ReportabilityReview_IntentID review =s= intentID))
           (reportabilityReviews s))).

(** ** Compliance findings *)

Definition same_compliance (existing finding : ComplianceFinding) : bool :=
  ComplianceFinding_ID existing =s= ComplianceFinding_ID finding.

Definition RecordComplianceFinding (finding : ComplianceFinding) (s : Store) : update unit :=
  done_with (s <| complianceFindings :=
    replace_or_append same_compliance finding (complianceFindings s) |>) tt.

Definition ListComplianceFindings (subjectType subjectID : string) (s : Store)
    : outcome (list ComplianceFinding) :=
  Ok (sort_slice (λ a b, After (ComplianceFinding_EvaluatedAt a) (ComplianceFinding_EvaluatedAt b))
        (select (λ finding,
           negb ((subjectType <>s "") && (ComplianceFinding_SubjectType finding <>s subjectType))
           && negb ((subjectID <>s "") && (ComplianceFinding_SubjectID finding <>s subjectID)))
           (complianceFindings s))).

Definition ListComplianceFindingsForIntent (intentID : string) (s : Store)
    : outcome (list ComplianceFinding) :=
  Ok (sort_slice (λ a b, After (ComplianceFinding_EvaluatedAt a) (ComplianceFinding_EvaluatedAt b))
        (select (λ finding,
           (ComplianceFinding_IntentID finding =s= intentID)
           || (ComplianceFinding_SubjectType finding =s= "operational_intent")
              && (ComplianceFinding_SubjectID finding =s= intentID))
           (complianceFindings s))).

(** ** Conflict findings *)

Definition same_conflict (existing finding : ConflictFinding) : bool :=
  ConflictFinding_ID existing =s= ConflictFinding_ID finding.

Definition RecordConflictFinding (finding : ConflictFinding) (s : Store) : update unit :=
  done_with (s <| conflictFindings :=
    replace_or_append same_conflict finding (conflictFindings s) |>) tt.

(** By evaluation time, the latest first, then by identifier. *)
Definition conflict_order (a b : ConflictFinding) : bool :=
  if TimeEqual (ConflictFinding_EvaluatedAt a) (ConflictFinding_EvaluatedAt b)
  then string_lt (ConflictFinding_ID a) (ConflictFinding_ID b)
  else After (ConflictFinding_EvaluatedAt a) (ConflictFinding_EvaluatedAt b).

Definition ListConflictFindings (intentID : string) (intentVersion : Z) (s : Store)
    : outcome (list ConflictFinding) :=
  Ok (sort_slice conflict_order
        (select (λ finding,
           negb ((intentID <>s "") && (ConflictFinding_IntentID finding <>s intentID))
           && negb ((intentVersion <>z 0) && (ConflictFinding_IntentVersion finding <>z intentVersion)))
           (conflictFindings s))).

Definition outside_conflict_scope (intentID : string) (intentVersion : Z) (ruleVersion : string)
    (finding : ConflictFinding) : bool :=
  (ConflictFinding_IntentID finding <>s intentID)
  || (ConflictFinding_IntentVersion finding <>z intentVersion)
  || (ConflictFinding_RuleVersion finding <>s ruleVersion).

Definition ReplaceConflictFindings (intentID : string) (intentVersion : Z) (ruleVersion : string)
    (findings : list ConflictFinding) (s : Store) : update unit :=
  match List.find (outside_conflict_scope intentID intentVersion ruleVersion) findings with
  | Some finding =>
      fail s (Errorf ("conflict finding " +:+ quote (ConflictFinding_ID finding)
                        +:+ " is outside replacement scope") [])
  | None =>
      let next := select (outside_conflict_scope intentID intentVersion ruleVersion)
                    (conflictFindings s) in
      done_with (s <| conflictFindings := next ++ findings |>) tt
  end.
End evidence.
