(* ===== verification/MemorySpatial.v ===== *)
(** * The in-memory store: candidate volumes

    src/internal/store/durable/memory/spatial.go, FindCandidates: the intents
    with a volume that could overlap one of the given volumes in time and
    altitude. *)

From S2P Require Import Prelude GoRuntime GoStrings GoFloat GoJson GoRange Domain Errors MemoryState.
From stdpp Require Import options.

Definition dimensionsUsable (volume : OperationalVolume) : bool :=
  negb (IsZero (Volume_StartsAt volume)) && negb (IsZero (Volume_EndsAt volume))
  && Before (Volume_StartsAt volume) (Volume_EndsAt volume)
  && f_le float_zero (Volume_MinAltitudeM volume) && f_lt float_zero (Volume_MaxAltitudeM volume)
  && f_le (Volume_MinAltitudeM volume) (Volume_MaxAltitudeM volume)
  && (Volume_AltitudeRef volume <>s "").

(** The test of the loop over the targets. *)
Definition target_matches (candidate target : OperationalVolume) : bool :=
  negb (dimensionsUsable target)
  || (Before (Volume_StartsAt target) (Volume_EndsAt candidate)
      && Before (Volume_StartsAt candidate) (Volume_EndsAt target)
      && ((Volume_AltitudeRef target <>s Volume_AltitudeRef candidate)
          || f_le (Volume_MinAltitudeM target) (Volume_MaxAltitudeM candidate)
             && f_le (Volume_MinAltitudeM candidate) (Volume_MaxAltitudeM target))).

Definition couldOverlap (targets : list OperationalVolume) (candidate : OperationalVolume) : bool :=
  match targets with
  | [] => true
  | _ => negb (dimensionsUsable candidate) || existsb (target_matches candidate) targets
  end.

Definition candidateKey (candidate : Candidate) : string :=
  Candidate_IntentID candidate +:+ String nul (Itoa (Candidate_IntentVersion candidate)).

Definition volume_candidate (volume : OperationalVolume) : Candidate :=
  mkCandidate (Volume_IntentID volume) (Volume_IntentVersion volume).

Definition candidate_step (query : CandidateQuery) (unique : gmap string Candidate)
    (volume : OperationalVolume) : gmap string Candidate :=
  if (Volume_IntentID volume =s= Query_ExcludeIntentID query) || negb (couldOverlap (Query_Volumes query) volume)
  then unique
  else <[candidateKey (volume_candidate volume) := volume_candidate volume]> unique.

Definition candidate_less (a b : Candidate) : bool :=
  if Candidate_IntentID a =s= Candidate_IntentID b
  then Candidate_IntentVersion a <? Candidate_IntentVersion b
  else string_lt (Candidate_IntentID a) (Candidate_IntentID b).

Section spatial.
Context {RT : Runtime}.

Definition FindCandidates (query : CandidateQuery) (s : Store) : outcome (list Candidate) :=
  let unique := foldl (candidate_step query) ∅ (range_values (operationalVolumes s)) in
  Ok (sort_slice candidate_less (range_values unique)).

(** ** The candidates are those of the volumes that could overlap *)

Lemma candidateKey_inj c c' : candidateKey c = candidateKey c' → c = c'.
Proof using Type.
  destruct c, c'. unfold candidateKey. cbn. by intros [-> ->]%(joined_inj nul _ _ _ _ separator_nul).
Qed.

Definition is_candidate (query : CandidateQuery) (s : Store) (c : Candidate) : Prop :=
  ∃ k v, operationalVolumes s !! k = Some v ∧ volume_candidate v = c
    ∧ Volume_IntentID v ≠ Query_ExcludeIntentID query ∧ couldOverlap (Query_Volumes query) v = true.

Lemma candidate_fold query vs m c :
  (∀ k c, m !! k = Some c → k = candidateKey c) →
  let m' := foldl (candidate_step query) m vs in
  (∀ k c, m' !! k = Some c → k = candidateKey c)
  ∧ (m' !! candidateKey c = Some c ↔
     m !! candidateKey c = Some c
     ∨ ∃ v, v ∈ vs ∧ volume_candidate v = c ∧ Volume_IntentID v ≠ Query_ExcludeIntentID query
            ∧ couldOverlap (Query_Volumes query) v = true).
Proof using Type.
  cbn zeta. revert m. induction vs as [|v vs IH]; intros m Hm; cbn [foldl].
  - split; [done|]. split; [by left|]. intros [?|(v & Hv & _)]; [done|by apply elem_of_nil in Hv].
  - assert (∀ k c, candidate_step query m v !! k = Some c → k = candidateKey c) as Hm'.
    { unfold candidate_step. destruct (_ || _); [done|].
      intros k d [[<- <-]|[_ ?]]%lookup_insert_Some; auto. }
    destruct (IH _ Hm') as [H1 H2]. split; [done|]. rewrite H2. unfold candidate_step.
    destruct (_ || _) eqn:Htest.
    + apply orb_true_iff in Htest. rewrite String.eqb_eq, negb_true_iff in Htest. split.
      * intros [?|(x & Hx & ?)]; [by left|]. right. exists x. split; [by right|done].
      * intros [?|(x & [->|Hx]%elem_of_cons & ? & ? & ?)]; [by left| |right; by exists x].
        destruct Htest; congruence.
    + to_prop. split.
      * intros [[[Hk <-]|[_ ?]]%lookup_insert_Some|(x & Hx & ?)]; [|by left|].
        -- right. exists v. split; [by left|done].
        -- right. exists x. split; [by right|done].
      * intros [Hc|(x & [->|Hx]%elem_of_cons & <- & ? & ?)].
        -- left. destruct (decide (candidateKey (volume_candidate v) = candidateKey c)) as [Heq|Hne].
           ++ rewrite Heq, lookup_insert_eq. f_equal. by apply candidateKey_inj.
           ++ by rewrite lookup_insert_ne.
        -- left. by rewrite lookup_insert_eq.
        -- right. by exists x.
Qed.

Lemma elem_of_FindCandidates query s candidates c :
  FindCandidates query s = Ok candidates → c ∈ candidates ↔ is_candidate query s c.
Proof using Type.
  unfold FindCandidates. intros [= <-]. rewrite elem_of_sort_slice, elem_of_range_values.
  destruct (candidate_fold query (range_values (operationalVolumes s)) ∅ c) as [H1 H2];
    [intros k d; by rewrite lookup_empty|]. rewrite lookup_empty in H2. unfold is_candidate. split.
  - intros [k Hk]. pose proof Hk as Hkey. apply H1 in Hkey as ->.
    apply H2 in Hk as [?|(v & [k Hv]%elem_of_range_values & ?)]; [done|]. by exists k, v.
  - intros (k & v & Hv & ?). exists (candidateKey c). apply H2. right. exists v.
    split; [|done]. apply elem_of_range_values. by exists k.
Qed.
End spatial.

(** * The in-memory store: coverage of a mission

    src/internal/store/durable/memory/spatial.go, CheckMissionCoverage: the
    points of a mission, and the segments between them, against the polygon of
    one volume, in doubles as the code computes them (every operation rounds). *)

(** ** Decoding into a struct

    encoding/json matches the name of a member with the name of a field when
    they are the same after folding. *)
Definition members_of (m : list (string * json)) (field : string) : list json :=
  map snd (select (λ e, EqualFold e.1 field) m).

(** A field of type [string]: the last text; [null] changes nothing; a value of
    another type is an error. *)
Definition string_step (r : option string) (v : json) : option string :=
  match r, v with
  | Some _, Jstring t => Some t
  | Some t, Jnull => Some t
  | _, _ => None
  end.

Definition string_field (m : list (string * json)) (field : string) : option string :=
  foldl string_step (Some "") (members_of m field).

(** A field of type [json.RawMessage]: the last value, whatever it is. *)
Definition raw_field (m : list (string * json)) (field : string) : option json :=
  last (members_of m field).

(** The members an object has for a struct; [null] leaves the struct as it was. *)
Definition object_members (v : option json) : option (list (string * json)) :=
  match v with
  | Some (Jobject m) => Some m
  | Some Jnull => Some []
  | _ => None
  end.

(** Decoding into [float64] and into a slice. *)
Definition decode_float (v : json) : option float64 :=
  match v with
  | Jnumber x => if f_is_inf x then None else Some x
  | Jnull => Some float_zero
  | _ => None
  end.

Definition decode_slice {A} (decode : json → option A) (v : json) : option (list A) :=
  match v with
  | Jarray l => mapM decode l
  | Jnull => Some []
  | _ => None
  end.

(** ** The polygon *)

Record missionPoint : Set := mkPoint { point_x : float64; point_y : float64 }.

Definition float_1e_12 : float64 := float_of_decimal 1 (-12).
Definition float_1e_24 : float64 := float_of_decimal 1 (-24).
Definition float_1e_10 : float64 := float_of_decimal 1 (-10).
Definition float_one : float64 := float_of_Z 1.
Definition float_two : float64 := float_of_Z 2.

Definition missionPointsEqual (a b : missionPoint) : bool :=
  f_lt (f_abs (f_sub (point_x a) (point_x b))) float_1e_12
  && f_lt (f_abs (f_sub (point_y a) (point_y b))) float_1e_12.

(** The loop over the positions of a ring. *)
Definition decode_position (coordinates : list float64) : option missionPoint :=
  match coordinates with
  | x :: y :: _ =>
      if f_is_nan x || f_is_nan y || f_is_inf x || f_is_inf y then None else Some (mkPoint x y)
  | _ => None
  end.

Definition not_closed (ringIndex : nat) : error :=
  plain ("mission volume polygon ring " +:+ Itoa (Z.of_nat ringIndex) +:+ " is not closed").

Definition decode_ring (ringIndex : nat) (ring : list (list float64)) : outcome (list missionPoint) :=
  if (length ring <? 4)%nat then Err (not_closed ringIndex)
  else
    match mapM decode_position ring with
    | None => Err (plain "mission volume polygon contains invalid coordinates")
    | Some points =>
        match head points, last points with
        | Some first, Some final =>
            if missionPointsEqual first final then Ok points else Err (not_closed ringIndex)
        | _, _ => Ok points
        end
    end.

(** The loop over the rings. *)
Fixpoint decode_rings (ringIndex : nat) (decoded : list (list (list float64)))
    : outcome (list (list missionPoint)) :=
  match decoded with
  | [] => Ok []
  | ring :: rest =>
      match decode_ring ringIndex ring with
      | Err e => Err e
      | Ok points =>
          match decode_rings (S ringIndex) rest with
          | Err e => Err e
          | Ok polygon => Ok (points :: polygon)
          end
      end
  end.

Definition polygon_of_coordinates (coordinates : option json) : outcome (list (list missionPoint)) :=
  match coordinates ≫= decode_slice (decode_slice (decode_slice decode_float)) with
  | None | Some [] => Err (plain "mission coverage requires valid Polygon coordinates")
  | Some decoded => decode_rings 0 decoded
  end.

(** ** Points and segments *)

Definition missionPointOnSegment (point start finish : missionPoint) : bool :=
  let cross := f_sub (f_mul (f_sub (point_x point) (point_x start)) (f_sub (point_y finish) (point_y start)))
                     (f_mul (f_sub (point_y point) (point_y start)) (f_sub (point_x finish) (point_x start))) in
  if f_lt float_1e_10 (f_abs cross) then false
  else
    let dot := f_add (f_mul (f_sub (point_x point) (point_x start)) (f_sub (point_x finish) (point_x start)))
                     (f_mul (f_sub (point_y point) (point_y start)) (f_sub (point_y finish) (point_y start))) in
    if f_lt dot (f_neg float_1e_10) then false
    else
      let lengthSquared :=
        f_add (f_mul (f_sub (point_x finish) (point_x start)) (f_sub (point_x finish) (point_x start)))
              (f_mul (f_sub (point_y finish) (point_y start)) (f_sub (point_y finish) (point_y start))) in
      f_le dot (f_add lengthSquared float_1e_10).

(** [ring[index-1], ring[index]] for [index] from 1. *)
Definition edges (ring : list missionPoint) : list (missionPoint * missionPoint) :=
  zip ring (tail ring).

Definition missionPointOnRing (ring : list missionPoint) (point : missionPoint) : bool :=
  existsb (λ edge, missionPointOnSegment point edge.1 edge.2) (edges ring).

(** One crossing of the ray to the east of the point; [j] is the point before
    [i], and the last point before the first. *)
Definition crosses (point pi pj : missionPoint) : bool :=
  negb (Bool.eqb (f_lt (point_y point) (point_y pi)) (f_lt (point_y point) (point_y pj)))
  && f_lt (point_x point)
       (f_add (f_div (f_mul (f_sub (point_x pj) (point_x pi)) (f_sub (point_y point) (point_y pi)))
                     (f_sub (point_y pj) (point_y pi)))
              (point_x pi)).

Definition missionPointStrictlyInRing (ring : list missionPoint) (point : missionPoint) : bool :=
  match last ring with
  | None => false
  | Some final =>
      (foldl (λ '(inside, pj) pi, (if crosses point pi pj then negb inside else inside, pi)) (false, final) ring).1
  end.

Definition missionRingCoversPoint (ring : list missionPoint) (point : missionPoint) : bool :=
  missionPointOnRing ring point || missionPointStrictlyInRing ring point.

(** The loop over the holes. *)
Fixpoint outside_holes (holes : list (list missionPoint)) (point : missionPoint) : bool :=
  match holes with
  | [] => true
  | hole :: rest =>
      if missionPointOnRing hole point then true
      else if missionPointStrictlyInRing hole point then false
      else outside_holes rest point
  end.

Definition missionPolygonCoversPoint (polygon : list (list missionPoint)) (point : missionPoint) : bool :=
  match polygon with
  | [] => false
  | exterior :: holes =>
      if negb (missionRingCoversPoint exterior point) then false else outside_holes holes point
  end.

Definition in_unit (x : float64) : bool := f_le float_zero x && f_le x float_one.

Definition missionSegmentIntersectionParameters (a b c d : missionPoint) : list float64 :=
  let rx := f_sub (point_x b) (point_x a) in
  let ry := f_sub (point_y b) (point_y a) in
  let sx := f_sub (point_x d) (point_x c) in
  let sy := f_sub (point_y d) (point_y c) in
  let cax := f_sub (point_x c) (point_x a) in
  let cay := f_sub (point_y c) (point_y a) in
  let denominator := f_sub (f_mul rx sy) (f_mul ry sx) in
  let numerator := f_sub (f_mul cax ry) (f_mul cay rx) in
  if f_lt (f_abs denominator) float_1e_12 then
    if f_le float_1e_12 (f_abs numerator) then []
    else
      let lengthSquared := f_add (f_mul rx rx) (f_mul ry ry) in
      if f_lt lengthSquared float_1e_24 then []
      else
        select in_unit
          [f_div (f_add (f_mul cax rx) (f_mul cay ry)) lengthSquared;
           f_div (f_add (f_mul (f_sub (point_x d) (point_x a)) rx)
                        (f_mul (f_sub (point_y d) (point_y a)) ry)) lengthSquared]
  else
    let t := f_div (f_sub (f_mul cax sy) (f_mul cay sx)) denominator in
    let u := f_div (f_sub (f_mul cax ry) (f_mul cay rx)) denominator in
    if in_unit t && in_unit u then [t] else [].

(** The point of the segment at a parameter. *)
Definition along (start finish : missionPoint) (t : float64) : missionPoint :=
  mkPoint (f_add (point_x start) (f_mul (f_sub (point_x finish) (point_x start)) t))
          (f_add (point_y start) (f_mul (f_sub (point_y finish) (point_y start)) t)).

(** The point of an item. *)
Definition float_1e7 : float64 := float_of_Z 10000000.
Definition item_point (item : MissionItem) : missionPoint :=
  mkPoint (f_div (float_of_Z (MissionItem_LongitudeE7 item)) float_1e7)
          (f_div (float_of_Z (MissionItem_LatitudeE7 item)) float_1e7).

Section coverage.
Context {RT : Runtime}.

Definition decodeMissionPolygon (raw : string) : outcome (list (list missionPoint)) :=
  match object_members (json_value raw) with
  | None => Err (plain ("decode mission volume GeoJSON: " +:+ json_struct_error raw))
  | Some payload =>
      match string_field payload "type" with
      | None => Err (plain ("decode mission volume GeoJSON: " +:+ json_struct_error raw))
      | Some type =>
          if type =s= "Feature" then
            let failure := plain ("decode mission volume feature geometry: " +:+ json_struct_error raw) in
            match object_members (raw_field payload "geometry") with
            | None => Err failure
            | Some geometry =>
                match string_field geometry "type" with
                | None => Err failure
                | Some type =>
                    if type <>s "Polygon" then Err (plain "mission coverage requires Polygon geometry")
                    else polygon_of_coordinates (raw_field geometry "coordinates")
                end
            end
          else if type <>s "Polygon" then Err (plain "mission coverage requires Polygon geometry")
          else polygon_of_coordinates (raw_field payload "coordinates")
      end
  end.

(** The parameters at which the segment meets the edges, sorted. *)
Definition segment_breaks (polygon : list (list missionPoint)) (start finish : missionPoint) : list float64 :=
  sort_slice f_lt ([float_zero; float_one] ++
    concat (map (λ ring, concat (map (λ edge,
      missionSegmentIntersectionParameters start finish edge.1 edge.2) (edges ring))) polygon)).

Definition missionPolygonCoversSegment (polygon : list (list missionPoint)) (start finish : missionPoint)
    : bool :=
  if negb (missionPolygonCoversPoint polygon start) || negb (missionPolygonCoversPoint polygon finish)
  then false
  else
    let breaks := segment_breaks polygon start finish in
    forallb (λ gap : float64 * float64,
      missionPolygonCoversPoint polygon (along start finish (f_div (f_add gap.1 gap.2) float_two)))
      (zip breaks (tail breaks)).

(** The loop over the items. *)
Fixpoint coverage_of (polygon : list (list missionPoint)) (items : list MissionItem) : MissionCoverageResult :=
  match items with
  | [] => mkMissionCoverageResult [] []
  | item :: rest =>
      let result := coverage_of polygon rest in
      let point := item_point item in
      mkMissionCoverageResult
        (if missionPolygonCoversPoint polygon point then Coverage_UncoveredItems result
         else MissionItem_Sequence item :: Coverage_UncoveredItems result)
        (match rest with
         | [] => Coverage_UncoveredSegments result
         | next :: _ =>
             if missionPolygonCoversSegment polygon point (item_point next)
             then Coverage_UncoveredSegments result
             else MissionItem_Sequence item :: Coverage_UncoveredSegments result
         end)
  end.

Definition CheckMissionCoverage (volume : OperationalVolume) (items : list MissionItem)
    : outcome MissionCoverageResult :=
  match decodeMissionPolygon (Volume_GeoJSON volume) with
  | Err err => Err (because ErrInvalidMissionCoverageGeometry (Error err))
  | Ok polygon => Ok (coverage_of polygon items)
  end.
End coverage.

(** ** Examples *)

#[local] Existing Instance reference_runtime.

Definition square_with_hole : string :=
  quoted_text "{'TYPE': 'Feature', 'geometry': {'type': 'Polygon', 'coordinates':
    [[[0,0],[10,0],[10,10],[0,10],[0,0]], [[4,4],[6,4],[6,6],[4,6],[4,4]]]}}".

Definition item_at (sequence lon lat : Z) : MissionItem :=
  mkMissionItem sequence false 0 16 float_zero float_zero float_zero float_zero
    (lat * 10000000) (lon * 10000000) float_zero true.

(** A point in the hole, a segment through the hole, one along its border. *)
Example coverage_of_route :
  CheckMissionCoverage (zero_OperationalVolume <| Volume_GeoJSON := square_with_hole |>)
    [item_at 0 1 1; item_at 1 5 5; item_at 2 9 5; item_at 3 1 5; item_at 4 1 4; item_at 5 9 4; item_at 6 11 4]
  = Ok (mkMissionCoverageResult [1; 6] [0; 1; 2; 5]).
Proof. vm_compute. reflexivity. Qed.

Example coverage_of_point :
  is_ok (CheckMissionCoverage (zero_OperationalVolume <| Volume_GeoJSON :=
    quoted_text "{'type': 'Point', 'coordinates': [0, 0]}" |>) []) = false.
Proof. vm_compute. reflexivity. Qed.
