(* ===== verification/DurableStore.v ===== *)
(** * The interfaces between the services and the stores

    [Durable.storeE] is the Go interface durable.Store: one constructor per
    method, indexed by the type of the value the method returns beside its
    error.  A service is a program over [apiE]: calls of the store, readings of its clock, and fresh UUIDs. *)

From S2P Require Import Prelude GoRuntime Domain Errors Program MemoryState.
From stdpp Require Import options.

Module Durable.

Inductive storeE : Type → Type :=
  | FindCandidates (query : CandidateQuery) : storeE (list Candidate)
  | CreateOperationalIntent (intent : OperationalIntent) : storeE unit
  | UpdateOperationalIntent (intent : OperationalIntent) (expectedRevision : Z) : storeE unit
  | ActivateOperationalIntent (intent : OperationalIntent) (expectedRevision : Z) : storeE unit
  | AcceptOperationalIntent (intent : OperationalIntent) (expectedRevision : Z) : storeE unit
  | GetOperationalIntent (intentID : string) : storeE OperationalIntent
  | GetOperationalIntentVersion (intentID : string) (version : Z) : storeE OperationalIntent
  | ListOperationalIntents (aircraftID : string) : storeE (list OperationalIntent)
  | ListOperationalIntentVersions (intentID : string) : storeE (list OperationalIntent)
  | RecordOperationalVolume (volume : OperationalVolume) : storeE unit
  | ReplaceOperationalVolumes (intentID : string) (intentVersion : Z)
      (volumes : list OperationalVolume) : storeE unit
  | ReplaceOperationalIntent (expectedVersion : Z) (expectedRevision : Z)
      (intent : OperationalIntent) (volumes : list OperationalVolume) : storeE unit
  | ListOperationalVolumes (intentID : string) : storeE (list OperationalVolume)
  | RecordConflictFinding (finding : ConflictFinding) : storeE unit
  | ListConflictFindings (intentID : string) (intentVersion : Z) : storeE (list ConflictFinding)
  | ReplaceConflictFindings (intentID : string) (intentVersion : Z)
      (ruleVersion : string) (findings : list ConflictFinding) : storeE unit
  | AcceptOperationalIntentAndRequestPublication (intent : OperationalIntent) (expectedRevision : Z)
      (publication : OperationalIntentPublication) : storeE unit
  | UpdateOperationalIntentAndRequestPublication (intent : OperationalIntent) (expectedRevision : Z)
      (publication : OperationalIntentPublication) : storeE unit
  | RequestOperationalIntentPublication (publication : OperationalIntentPublication) : storeE unit
  | RequestOperationalIntentPublicationIfCurrent (publication : OperationalIntentPublication) (expectedIntentVersion : Z)
      (expectedIntentRevision : Z) (expectedStatus : IntentStatus) : storeE unit
  | GetOperationalIntentPublication (intentID : string) : storeE OperationalIntentPublication
  | ClaimOperationalIntentPublication (intentID : string) (now : Time) (leaseUntil : Time)
      : storeE OperationalIntentPublication
  | ClaimDueOperationalIntentPublications (now : Time) (leaseUntil : Time) (limit : Z)
      : storeE (list OperationalIntentPublication)
  | RenewOperationalIntentPublicationLease (intentID : string) (expectedRevision : Z)
      (leaseUntil : Time) : storeE unit
  | UpdateOperationalIntentPublication (publication : OperationalIntentPublication) (expectedRevision : Z)
       : storeE unit
  | ConfirmOperationalIntentPublication (publication : OperationalIntentPublication) (expectedRevision : Z)
      (notifications : list PeerNotification) : storeE unit
  | ClaimDuePeerNotifications (now : Time) (leaseUntil : Time) (limit : Z)
      : storeE (list PeerNotification)
  | UpdatePeerNotification (notification : PeerNotification) (expectedRevision : Z) : storeE unit
  | RecordReceivedPeerNotification (notification : ReceivedPeerNotification) : storeE unit
  | UpsertOperator (operator : Operator) : storeE unit
  | GetOperator (operatorID : string) : storeE Operator
  | ListOperators : storeE (list Operator)
  | CreateAircraft (item : Aircraft) : storeE unit
  | GetAircraft (aircraftID : string) : storeE Aircraft
  | ListAircraft : storeE (list Aircraft)
  | CreateBattery (battery : Battery) : storeE unit
  | GetBattery (batteryID : string) : storeE Battery
  | ListBatteries : storeE (list Battery)
  | RecordBatteryInstallation (installation : BatteryInstallation) : storeE unit
  | GetActiveBatteryInstallation (aircraftID : string) : storeE (option BatteryInstallation)
  | UpsertAircraftOperatingProfile (profile : AircraftOperatingProfile) : storeE unit
  | GetAircraftOperatingProfile (aircraftID : string) : storeE (option AircraftOperatingProfile)
  | ListOperatingLimits (aircraftID : string) : storeE (list OperatingLimit)
  | UpsertOperatingLimit (limit : OperatingLimit) : storeE unit
  | RecordMaintenanceEvent (event : MaintenanceEvent) : storeE unit
  | ListMaintenanceEvents (aircraftID : string) : storeE (list MaintenanceEvent)
  | UpsertRegulatoryAuthorization (authorization : RegulatoryAuthorization) : storeE unit
  | GetRegulatoryAuthorization (authorizationID : string) : storeE RegulatoryAuthorization
  | ListRegulatoryAuthorizations (operatorID : string) : storeE (list RegulatoryAuthorization)
  | RecordPreflightCheck (check : PreflightCheck) : storeE unit
  | ListPreflightChecks (intentID : string) : storeE (list PreflightCheck)
  | CreateFlightRecord (flight : FlightRecord) : storeE unit
  | UpdateFlightRecord (flight : FlightRecord) (expectedStatus : FlightStatus) : storeE unit
  | GetFlightRecord (flightID : string) : storeE FlightRecord
  | ListFlightRecords (aircraftID : string) : storeE (list FlightRecord)
  | CreateMission (mission : Mission) : storeE Mission
  | CreateMissionForPlannedFlight (mission : Mission) : storeE Mission
  | GetMission (missionID : string) : storeE Mission
  | GetMissionByIdempotencyKey (key : string) : storeE Mission
  | GetCurrentMissionForFlight (flightID : string) : storeE Mission
  | GetCurrentMissionForIntent (aircraftID : string) (intentID : string) (intentVersion : Z)
      : storeE Mission
  | GetDeployedMissionForActiveFlight (aircraftID : string) (intentID : string) (intentVersion : Z)
      : storeE Mission
  | CheckMissionCoverage (volume : OperationalVolume) (items : list MissionItem)
      : storeE MissionCoverageResult
  | CreateMissionDeployment (deployment : MissionDeployment) : storeE MissionDeployment
  | CreateMissionDeploymentForPlannedFlight (deployment : MissionDeployment)
      : storeE MissionDeployment
  | GetMissionDeployment (deploymentID : string) : storeE MissionDeployment
  | GetMissionDeploymentByIdempotencyKey (key : string) : storeE MissionDeployment
  | GetPreviousMissionDeploymentForAircraft (aircraftID : string) (deploymentID : string)
      : storeE MissionDeployment
  | GetCurrentMissionDeploymentForFlight (flightID : string) : storeE MissionDeployment
  | UpdateMissionDeployment (deployment : MissionDeployment) (expectedRevision : Z) : storeE unit
  | StartFlightWithCurrentMissionDeployment (flight : FlightRecord) (expectedStatus : FlightStatus)
      : storeE unit
  | RecordConformanceEvent (event : ConformanceEvent) : storeE unit
  | ListConformanceEvents (flightID : string) : storeE (list ConformanceEvent)
  | UpsertConformanceSummary (summary : ConformanceSummary) : storeE unit
  | GetConformanceSummary (intentID : string) : storeE (option ConformanceSummary)
  | ListConformanceSummaries (intentID : string) : storeE (list ConformanceSummary)
  | RecordEvidence (record : EvidenceRecord) : storeE unit
  | ListEvidence (intentID : string) : storeE (list EvidenceRecord)
  | RecordReportabilityReview (review : ReportabilityReview) : storeE unit
  | ListReportabilityReviews (intentID : string) : storeE (list ReportabilityReview)
  | RecordComplianceFinding (finding : ComplianceFinding) : storeE unit
  | ListComplianceFindings (subjectType : string) (subjectID : string)
      : storeE (list ComplianceFinding)
  | ListComplianceFindingsForIntent (intentID : string) : storeE (list ComplianceFinding)
  | UpsertOperationsPersonnel (person : OperationsPersonnel) : storeE unit
  | GetOperationsPersonnel (personID : string) : storeE OperationsPersonnel
  | RecordPersonnelAssignment (assignment : PersonnelAssignment) : storeE unit
  | ListPersonnelAssignments (intentID : string) : storeE (list PersonnelAssignment).

End Durable.

(** ** The effects of a service

    [s.now()], [uuid.NewString()], the methods of [s.durable], and the calls
    that leave the process, of a signature [externalE] that the model keeps
    open (the airspace provider's network client). *)

Section effects.
Context {externalE : Type → Type}.

Inductive apiE : Type → Type :=
  | Now : apiE Time
  | NewString : apiE string
  | OfStore {A} (e : Durable.storeE A) : apiE (outcome A)
  | OfExternal {A} (e : externalE A) : apiE A.

(** [s.durable.Method(...)] *)
Definition durable {A} (e : Durable.storeE A) : prog apiE (outcome A) := call (OfStore e).
Definition now : prog apiE Time := call Now.
Definition external {A} (e : externalE A) : prog apiE A := call (OfExternal e).

(** The calls of the store that a program makes, all of them allowed by [P]. *)
Definition store_calls_in (P : ∀ A, Durable.storeE A → Prop) {A} (p : prog apiE A) : Prop :=
  calls_in (λ X (e : apiE X), match e with OfStore e => P _ e | _ => True end) p.

Lemma store_calls_in_bind P {A B} (p : prog apiE A) (f : A → prog apiE B) :
  store_calls_in P p → (∀ a, store_calls_in P (f a)) → store_calls_in P (prog_bind p f).
Proof. apply calls_in_bind. Qed.
End effects.
Arguments apiE : clear implicits.

(** ** A store that implements the interface

    Every method runs under the lock of the store, so it is one transition. *)

Class DurableStore (S : Type) := handle_store : ∀ A, Durable.storeE A → S → outcome A * S.
Arguments handle_store {S _ A}.

(** What answers the external calls, with a state of its own. *)
Class Outside (externalE : Type → Type) (O : Type) := respond : ∀ A, externalE A → O → A * O.
Arguments respond {externalE O _ A}.

(** A service runs in a world: the readings its clock and its supply of UUIDs
    will give, the store, and what lies outside. *)
Record world (S O : Type) := mkWorld {
  clock : nat → Time;
  uuids : nat → string;
  ticks : nat;
  drawn : nat;
  store : S;
  outside : O;
}.
Arguments mkWorld {S O}.
Arguments clock {S O}.
Arguments uuids {S O}.
Arguments ticks {S O}.
Arguments drawn {S O}.
Arguments store {S O}.
Arguments outside {S O}.

#[global] Instance world_eta S O : Eta (world S O) := λ w,
  mkWorld (clock w) (uuids w) (ticks w) (drawn w) (store w) (outside w).

Definition handle_api {externalE S O} `{DurableStore S} `{Outside externalE O}
    X (e : apiE externalE X) (w : world S O) : X * world S O :=
  match e in apiE _ X return X * world S O with
  | Now => (clock w (ticks w), w <| ticks := Datatypes.S (ticks w) |>)
  | NewString => (uuids w (drawn w), w <| drawn := Datatypes.S (drawn w) |>)
  | OfStore e => let '(r, s) := handle_store e (store w) in (r, w <| store := s |>)
  | OfExternal e => let '(r, o) := respond e (outside w) in (r, w <| outside := o |>)
  end.

(** No external calls: for services that make none. *)
Inductive no_external : Type → Type := .
#[global] Instance no_outside : Outside no_external unit := λ A e o, match e with end.
