(* ===== verification/PgStatements.v ===== *)
(** * The statements of the PostgreSQL store

    src/internal/store/durable/postgres: the SQL statements that the store
    sends, the replies that it scans, and the transactions it runs them in.
    What the driver and the database do with a statement is outside; a
    statement is a constructor of [Sql.stmt] with the values of its parameters,
    indexed by the type of what is scanned of its reply. *)

From S2P Require Import Prelude GoRuntime GoFloat Domain Errors Program MemoryState.
From stdpp Require Import options.

(** ** What is stored beside the domain records *)

(** A deployment with the fields that its own JSON leaves out. *)
Record missionDeploymentData : Set := mkMissionDeploymentData {
  data_Deployment : MissionDeployment;
  data_AgentID : string;
  data_DispatchStarted : bool;
  data_OperationContextCommandID : string;
  data_ReconciliationClearCommandID : string;
}.

(** A point of the route that is checked for coverage. *)
Record routePoint : Set := mkRoutePoint {
  routePoint_Sequence : Z;
  routePoint_Longitude : float64;
  routePoint_Latitude : float64;
}.

(** ** Replies *)

(** [encoding/json] for the columns named data: the text of a value, and the
    value of a text. *)
Class Json (T : Type) := {
  json_Marshal : T → outcome string;
  json_Unmarshal : string → outcome T;
}.

(** The types that the columns hold. *)
Class StoredJson := {
  #[global] intent_json :: Json OperationalIntent;
  #[global] volume_json :: Json OperationalVolume;
  #[global] volumes_json :: Json (list OperationalVolume);
  #[global] route_json :: Json (list routePoint);
  #[global] finding_json :: Json ConflictFinding;
  #[global] publication_json :: Json OperationalIntentPublication;
  #[global] time_json :: Json Time;
  #[global] notification_json :: Json PeerNotification;
  #[global] received_json :: Json ReceivedPeerNotification;
  #[global] aircraft_json :: Json Aircraft;
  #[global] flight_json :: Json FlightRecord;
  #[global] mission_json :: Json Mission;
  #[global] item_json :: Json MissionItem;
  #[global] deployment_json :: Json missionDeploymentData;
}.

(** The rows of a query, each scanned into an [A] or the error of scanning it,
    and the error that ended them. *)
Record rows (A : Type) := mkRows {
  delivered : list (outcome A);
  rows_Err : option error;
}.
Arguments mkRows {A}.
Arguments delivered {A}.
Arguments rows_Err {A}.

(** [errors.As(err, &pgErr) && pgErr.Code == "23505"], and the same with the name
    of a constraint. *)
Definition unique_violation (err : error) : bool :=
  match errors_As_Pg err with Some (code, _) => code =s= "23505" | None => false end.

Definition violates (err : error) (constraint : string) : bool :=
  match errors_As_Pg err with
  | Some (code, name) => (code =s= "23505") && (name =s= constraint)
  | None => false
  end.

(** ** Statements

    An [Exec] is scanned into the number of rows it affected.  A [QueryRow] whose
    absence of a row is told apart ([pgx.ErrNoRows]) is scanned into an option;
    the others always have a row. *)

Module Sql.

(** The end of the queries for missions. *)
Inductive mission_clause : Set :=
  (* WHERE id = $1 *)
  | MissionByID (id : string)
  (* WHERE idempotency_key = $1 *)
  | MissionByKey (key : string)
  (* WHERE flight_id = $1 ORDER BY version DESC LIMIT 1 *)
  | CurrentMissionOfFlight (flightID : string)
  (* WHERE aircraft_id = $1 AND intent_id = $2 AND intent_version = $3
     ORDER BY created_at DESC, version DESC LIMIT 1 *)
  | NewestMissionOfIntent (aircraftID intentID : string) (intentVersion : Z)
  (* WHERE id = (SELECT mission.id FROM missions AS mission
       JOIN flight_records AS flight ON flight.id = mission.flight_id
       WHERE flight.aircraft_id=$1 AND flight.intent_id=$2 AND flight.intent_version=$3 AND flight.status=$4
         AND mission.version=(SELECT MAX(current.version) FROM missions AS current WHERE current.flight_id=flight.id)
         AND EXISTS (SELECT 1 FROM mission_deployments AS deployment
           WHERE deployment.flight_id=flight.id AND deployment.mission_id=mission.id
             AND deployment.status IN ($5,$6)
             AND deployment.data->'deployment'->>'mission_digest'=mission.mission_digest) LIMIT 1) *)
  | DeployedMissionOfFlight (aircraftID intentID : string) (intentVersion : Z) (status : FlightStatus)
      (applied alreadyApplied : MissionDeploymentStatus).

(** The end of the queries for deployments. *)
Inductive deployment_clause : Set :=
  (* WHERE id = $1 *)
  | DeploymentByID (id : string)
  (* WHERE idempotency_key = $1 *)
  | DeploymentByKey (key : string)
  (* WHERE flight_id IN (SELECT id FROM flight_records WHERE aircraft_id=$1)
       AND creation_order < (SELECT current.creation_order FROM mission_deployments AS current
         JOIN flight_records AS current_flight ON current_flight.id=current.flight_id
         WHERE current.id=$2 AND current_flight.aircraft_id=$1)
     ORDER BY creation_order DESC LIMIT 1 *)
  | PreviousDeploymentOfAircraft (aircraftID deploymentID : string)
  (* WHERE flight_id=$1 AND (status IN ($2,$3,$4)
       OR mission_id=(SELECT id FROM missions WHERE flight_id=$1 ORDER BY version DESC LIMIT 1))
     ORDER BY CASE WHEN status=$4 THEN 0 WHEN status IN ($2,$3) THEN 1 ELSE 2 END,
       creation_order DESC, id DESC LIMIT 1 *)
  | CurrentDeploymentOfFlight (flightID : string) (pending temporaryError outcomeUnknown : MissionDeploymentStatus)
  (* WHERE flight_id IN (SELECT id FROM flight_records WHERE aircraft_id=$1)
     ORDER BY creation_order DESC LIMIT 1 *)
  | LatestDeploymentOfAircraft (aircraftID : string).

Inductive stmt : Type → Type :=
  (** *** Locks *)
  (* SELECT pg_advisory_xact_lock(hashtextextended($1, seed)) *)
  | LockIntent (intentID : string) : stmt Z (* seed 0 *)
  | LockAircraftLifecycle (aircraftID : string) : stmt Z (* seed 0 *)
  | LockMissionKey (key : string) : stmt Z (* seed 1 *)
  | LockMissionFlight (flightID : string) : stmt Z (* seed 2 *)
  | LockDeploymentKey (key : string) : stmt Z (* seed 3 *)
  | LockMissionAircraft (aircraftID : string) : stmt Z (* seed 4 *)
  (** *** Operational intents *)
  (* INSERT INTO operational_intents (id, version, revision, aircraft_id, planned_start_at, planned_end_at,
       updated_at, data) VALUES ($1, $2, 0, $3, $4, $5, $6, $7) *)
  | InsertIntent (intent : OperationalIntent) (raw : string) : stmt Z
  (* INSERT INTO operational_intents (...) VALUES ($1, $2, $3, $4, $5, $6, $7, $8)
     ON CONFLICT (id, version) DO UPDATE SET revision = EXCLUDED.revision, ... *)
  | UpsertIntent (intent : OperationalIntent) (revision : Z) (raw : string) : stmt Z
  (* UPDATE operational_intents SET revision = revision + 1, aircraft_id = $3, ..., data = $7
     WHERE id = $1 AND version = $2 AND revision = $8 AND NOT EXISTS (SELECT 1 FROM operational_intents newer
       WHERE newer.id = $1 AND newer.version > $2) *)
  | UpdateIntent (intent : OperationalIntent) (raw : string) (expectedRevision : Z) : stmt Z
  (* SELECT id FROM operational_intents
     WHERE aircraft_id = $1 AND (id <> $2 OR version <> $3) AND data->>'status' = $4 LIMIT 1 *)
  | SelectOtherActive (aircraftID intentID : string) (version : Z) (status : IntentStatus) : stmt (option string)
  (* SELECT EXISTS (SELECT 1 FROM operational_intents WHERE id = $1) *)
  | IntentExists (intentID : string) : stmt bool
  (* SELECT EXISTS (SELECT 1 FROM operational_intents WHERE id = $1 AND version = $2) *)
  | IntentVersionExists (intentID : string) (version : Z) : stmt bool
  (* SELECT version, revision FROM operational_intents WHERE id = $1 ORDER BY version DESC LIMIT 1 *)
  | SelectCurrentVersion (intentID : string) : stmt (option (Z * Z))
  (* SELECT version, revision, data->>'status' FROM operational_intents WHERE id = $1 ORDER BY version DESC LIMIT 1 *)
  | SelectCurrentState (intentID : string) : stmt (option (Z * Z * IntentStatus))
  (* SELECT version,data->>'operator_id',aircraft_id,data->>'status' FROM operational_intents
     WHERE id=$1 ORDER BY version DESC LIMIT 1 FOR UPDATE *)
  | LockCurrentIntent (intentID : string) : stmt (option (Z * string * string * string))
  (* SELECT version,aircraft_id,data->>'status' FROM operational_intents
     WHERE id=$1 ORDER BY version DESC LIMIT 1 FOR UPDATE *)
  | LockIntentOfFlight (intentID : string) : stmt (option (Z * string * string))
  (* SELECT data, revision FROM operational_intents
     WHERE id = $1 AND version < $2 AND data->>'status' = $3 ORDER BY version *)
  | SelectPriorIntents (intentID : string) (version : Z) (status : IntentStatus) : stmt (rows (string * Z))
  (* SELECT data, revision FROM operational_intents WHERE id = $1 ORDER BY version DESC, updated_at DESC LIMIT 1 *)
  | SelectIntent (intentID : string) : stmt (option (string * Z))
  (* SELECT data, revision FROM operational_intents WHERE id = $1 AND version = $2 *)
  | SelectIntentVersion (intentID : string) (version : Z) : stmt (option (string * Z))
  (* SELECT DISTINCT ON (id) data, revision FROM operational_intents
     WHERE $1 = '' OR aircraft_id = $1 ORDER BY id, version DESC, updated_at DESC *)
  | SelectIntents (aircraftID : string) : stmt (rows (string * Z))
  (* SELECT data, revision FROM operational_intents WHERE id = $1 ORDER BY version, updated_at *)
  | SelectIntentVersions (intentID : string) : stmt (rows (string * Z))
  (** *** Volumes and conflict findings *)
  (* DELETE FROM operational_volumes WHERE intent_id = $1 AND intent_version = $2 *)
  | DeleteVolumes (intentID : string) (version : Z) : stmt Z
  (* INSERT INTO operational_volumes (..., buffer_meters, footprint, data) VALUES (...,
       CASE WHEN NULLIF($11, '') IS NULL THEN NULL ELSE ST_SetSRID(ST_GeomFromGeoJSON($11), 4326) END, $12)
     ON CONFLICT (intent_id, intent_version, id) DO UPDATE SET sequence = EXCLUDED.sequence, ... *)
  | UpsertVolume (volume : OperationalVolume) (buffer : float64) (geometry raw : string) : stmt Z
  (* SELECT data FROM operational_volumes WHERE $1 = '' OR intent_id = $1 ORDER BY sequence, starts_at *)
  | SelectVolumes (intentID : string) : stmt (rows string)
  (* WITH targets AS (... jsonb_to_recordset($2::jsonb) ...) SELECT DISTINCT volume.intent_id, volume.intent_version
     FROM operational_volumes volume WHERE volume.intent_id <> $1 AND EXISTS (SELECT 1 FROM targets target
       WHERE volume.starts_at < target.ends_at AND target.starts_at < volume.ends_at AND ... ST_DWithin(...))
     ORDER BY volume.intent_id, volume.intent_version *)
  | SelectCandidates (excludeIntentID targets : string) : stmt (rows (string * Z))
  (* WITH route_points AS (... $4 ...), route AS (...), volume AS (SELECT footprint FROM operational_volumes
       WHERE intent_id = $1 AND intent_version = $2 AND id = $3)
     SELECT route.sequence, COALESCE(ST_Covers(volume.footprint, route.point), false), ... ORDER BY route.sequence *)
  | SelectCoverage (intentID : string) (version : Z) (volumeID route : string) : stmt (rows (Z * bool * bool))
  (* INSERT INTO conflict_findings (id, intent_id, intent_version, rule_version, evaluated_at, data)
     VALUES ($1, $2, $3, $4, $5, $6) ON CONFLICT (id) DO UPDATE SET intent_id = EXCLUDED.intent_id, ... *)
  | UpsertFinding (finding : ConflictFinding) (raw : string) : stmt Z
  (* DELETE FROM conflict_findings WHERE intent_id = $1 AND intent_version = $2 AND rule_version = $3 *)
  | DeleteFindings (intentID : string) (version : Z) (ruleVersion : string) : stmt Z
  (* SELECT data FROM conflict_findings WHERE ($1 = '' OR intent_id = $1) AND ($2 = 0 OR intent_version = $2)
     ORDER BY evaluated_at DESC, id *)
  | SelectFindings (intentID : string) (version : Z) : stmt (rows string)
  (** *** Publications and notifications *)
  (* SELECT data, revision FROM operational_intent_publications WHERE intent_id = $1 FOR UPDATE *)
  | LockPublication (intentID : string) : stmt (option (string * Z))
  (* SELECT data, revision FROM operational_intent_publications WHERE intent_id = $1 *)
  | SelectPublication (intentID : string) : stmt (option (string * Z))
  (* SELECT data, revision FROM operational_intent_publications
     WHERE sync_status IN ('pending', 'processing', 'retrying') AND next_attempt_at <= $1
       AND (lease_until IS NULL OR lease_until <= $1)
     ORDER BY next_attempt_at, intent_id FOR UPDATE SKIP LOCKED LIMIT $2 *)
  | SelectDuePublications (now : Time) (limit : Z) : stmt (rows (string * Z))
  (* INSERT INTO operational_intent_publications (...) VALUES ($1,$2,$3,NULLIF($4,0),...)
     ON CONFLICT (intent_id) DO UPDATE SET revision=EXCLUDED.revision, ... *)
  | UpsertPublication (publication : OperationalIntentPublication) (raw : string) : stmt Z
  (* UPDATE operational_intent_publications SET lease_until = $3,
       data = jsonb_set(data, '{lease_until}', $4::jsonb, true) WHERE intent_id = $1 AND revision = $2 *)
  | RenewLease (intentID : string) (expectedRevision : Z) (leaseUntil : Time) (rawLease : string) : stmt Z
  (* UPDATE operational_intent_publications SET revision = $3, ..., lease_until = NULL, updated_at = $9, data = $10
     WHERE intent_id = $1 AND revision = $2 *)
  | UpdatePublication (publication : OperationalIntentPublication) (expectedRevision : Z) (raw : string) : stmt Z
  (* INSERT INTO peer_notifications (...) VALUES ($1,0,$2,$3,$4,$5,$6,$7,$8,$9) ON CONFLICT (id) DO NOTHING *)
  | InsertNotification (notification : PeerNotification) (raw : string) : stmt Z
  (* SELECT data, revision FROM peer_notifications WHERE delivered_at IS NULL AND next_attempt_at <= $1
       AND (lease_until IS NULL OR lease_until <= $1)
     ORDER BY next_attempt_at, id FOR UPDATE SKIP LOCKED LIMIT $2 *)
  | SelectDueNotifications (now : Time) (limit : Z) : stmt (rows (string * Z))
  (* UPDATE peer_notifications SET revision=$3, next_attempt_at=$4, delivered_at=$5, lease_until=NULL,
       updated_at=$6, data=$7 WHERE id=$1 AND revision=$2 *)
  | UpdateNotification (notification : PeerNotification) (expectedRevision : Z) (raw : string) : stmt Z
  (* UPDATE peer_notifications SET revision=$2, next_attempt_at=$3, delivered_at=$4, lease_until=$5,
       updated_at=$6, data=$7 WHERE id=$1 *)
  | WriteNotification (notification : PeerNotification) (raw : string) : stmt Z
  (* INSERT INTO received_peer_notifications (id, intent_id, manager, intent_version, received_at, data)
     VALUES ($1,$2,$3,NULLIF($4,0),$5,$6) ON CONFLICT (id) DO NOTHING *)
  | InsertReceived (notification : ReceivedPeerNotification) (raw : string) : stmt Z
  (* SELECT data FROM received_peer_notifications WHERE $1 = '' OR intent_id = $1 ORDER BY received_at, id *)
  | SelectReceived (intentID : string) : stmt (rows string)
  (** *** Aircraft and flights *)
  (* INSERT INTO aircraft (id,operator_id,agent_id,created_at,updated_at,data) VALUES ($1,$2,$3,$4,$5,$6) *)
  | InsertAircraft (aircraft : Aircraft) (raw : string) : stmt Z
  (* SELECT data FROM aircraft WHERE id=$1 *)
  | SelectAircraft (aircraftID : string) : stmt (option string)
  (* SELECT data FROM aircraft ORDER BY id *)
  | SelectAllAircraft : stmt (rows string)
  (* INSERT INTO flight_records (id,operator_id,aircraft_id,intent_id,intent_version,status,started_at,data)
     VALUES ($1,$2,$3,$4,$5,$6,$7,$8) *)
  | InsertFlight (flight : FlightRecord) (raw : string) : stmt Z
  (* UPDATE flight_records SET operator_id=$1,aircraft_id=$2,intent_id=$3,intent_version=$4,status=$5,
       started_at=$6,data=$7 WHERE id=$8 AND status=$9 *)
  | UpdateFlight (flight : FlightRecord) (raw : string) (expectedStatus : FlightStatus) : stmt Z
  (* UPDATE flight_records SET status=$1,started_at=$2,data=$3 WHERE id=$4 AND status=$5 *)
  | ActivateFlight (flight : FlightRecord) (raw : string) (expectedStatus : FlightStatus) : stmt Z
  (* SELECT data FROM flight_records WHERE id=$1 *)
  | SelectFlight (flightID : string) : stmt (option string)
  (* SELECT data FROM flight_records ORDER BY started_at DESC,id *)
  | SelectAllFlights : stmt (rows string)
  (* SELECT data FROM flight_records WHERE aircraft_id=$1 ORDER BY started_at DESC,id *)
  | SelectFlightsOf (aircraftID : string) : stmt (rows string)
  (* SELECT status,operator_id,aircraft_id,intent_id,intent_version FROM flight_records WHERE id=$1 FOR UPDATE *)
  | LockFlight (flightID : string) : stmt (option (FlightStatus * string * string * string * Z))
  (* SELECT status,aircraft_id,intent_id FROM flight_records WHERE id=$1 FOR UPDATE *)
  | LockFlightForUpdate (flightID : string) : stmt (option (FlightStatus * string * string))
  (* SELECT status,intent_id,intent_version,aircraft_id FROM flight_records WHERE id=$1 FOR UPDATE *)
  | LockFlightForStart (flightID : string) : stmt (option (FlightStatus * string * Z * string))
  (* SELECT COUNT( * ) FROM flight_records WHERE aircraft_id=$1 AND intent_id=$2 AND intent_version=$3 AND status=$4 *)
  | CountFlights (aircraftID intentID : string) (intentVersion : Z) (status : FlightStatus) : stmt Z
  (* SELECT EXISTS(SELECT 1 FROM flight_records WHERE aircraft_id=$1 AND status=$2) *)
  | FlightExists (aircraftID : string) (status : FlightStatus) : stmt bool
  (* SELECT EXISTS(SELECT 1 FROM flight_records WHERE aircraft_id=$1 AND id<>$2 AND status=$3) *)
  | OtherFlightExists (aircraftID flightID : string) (status : FlightStatus) : stmt bool
  (** *** Missions and deployments *)
  (* SELECT COALESCE(MAX(version), 0) + 1 FROM missions WHERE flight_id = $1 *)
  | NextMissionVersion (flightID : string) : stmt Z
  (* INSERT INTO missions (id, operator_id, ..., created_at, data) VALUES ($1,...,$14) *)
  | InsertMission (mission : Mission) (raw : string) : stmt Z
  (* INSERT INTO mission_items (mission_id, sequence, data) VALUES ($1,$2,$3) *)
  | InsertMissionItem (missionID : string) (sequence : Z) (raw : string) : stmt Z
  (* SELECT id, operator_id, flight_id, aircraft_id, intent_id, intent_version, version, source_format,
       source_sha256, mission_digest, idempotency_key, idempotency_request_hash, created_at, data FROM missions ... *)
  | SelectMission (clause : mission_clause) : stmt (option (Mission * string))
  (* SELECT data FROM mission_items WHERE mission_id = $1 ORDER BY sequence *)
  | SelectMissionItems (missionID : string) : stmt (rows string)
  (* SELECT id,mission_digest FROM missions WHERE flight_id=$1 ORDER BY version DESC LIMIT 1 *)
  | SelectCurrentMission (flightID : string) : stmt (option (string * string))
  (* INSERT INTO mission_deployments (id, flight_id, mission_id, idempotency_key, idempotency_request_hash, revision,
       status, created_at, updated_at, data) VALUES ($1,...,$10) *)
  | InsertDeployment (deployment : MissionDeployment) (raw : string) : stmt Z
  (* UPDATE mission_deployments SET revision=$1, status=$2, updated_at=$3, data=$4
     WHERE id=$5 AND revision=$6 AND idempotency_key=$7 AND idempotency_request_hash=$8 AND mission_id=$9 *)
  | UpdateDeployment (deployment : MissionDeployment) (raw : string) (expectedRevision : Z) : stmt Z
  (* SELECT idempotency_key, idempotency_request_hash, revision, data FROM mission_deployments ... *)
  | SelectDeployment (clause : deployment_clause) : stmt (option (string * string * Z * string))
  (* SELECT EXISTS(SELECT 1 FROM mission_deployments AS deployment
       JOIN flight_records AS flight ON flight.id=deployment.flight_id
       WHERE flight.intent_id=$1 AND deployment.status IN ($2,$3,$4)) *)
  | OutstandingForIntent (intentID : string) (pending temporaryError outcomeUnknown : MissionDeploymentStatus) : stmt bool
  (* SELECT EXISTS(SELECT 1 FROM mission_deployments WHERE flight_id=$1 AND status IN ($2,$3,$4)) *)
  | OutstandingForFlight (flightID : string) (pending temporaryError outcomeUnknown : MissionDeploymentStatus) : stmt bool
  (* SELECT EXISTS(SELECT 1 FROM mission_deployments AS deployment
       JOIN flight_records AS flight ON flight.id=deployment.flight_id
       WHERE flight.aircraft_id=$1 AND flight.status=$2 AND deployment.id<>$3 AND deployment.status IN ($4,$5,$6)) *)
  | OtherOutstandingForAircraft (aircraftID : string) (status : FlightStatus) (replayID : string)
      (pending temporaryError outcomeUnknown : MissionDeploymentStatus) : stmt bool
  (* SELECT EXISTS(SELECT 1 FROM mission_deployments AS deployment
       JOIN flight_records AS candidate ON candidate.id=deployment.flight_id
       WHERE candidate.aircraft_id=$1 AND candidate.status=$2 AND deployment.status IN ($3,$4,$5)) *)
  | OutstandingForAircraft (aircraftID : string) (status : FlightStatus)
      (pending temporaryError outcomeUnknown : MissionDeploymentStatus) : stmt bool.

End Sql.

(** ** Sessions

    A method runs its statements on the pool, where each is a transaction of
    its own, or in a transaction that it begins and commits; the deferred
    rollback ends a transaction that was not committed, and its error is
    dropped. *)

Inductive session : Set := Pool | Tx.

Inductive pgE : Type → Type :=
  | Begin : pgE (outcome unit)
  | Commit : pgE (outcome unit)
  | Rollback : pgE unit
  | Statement {A} (db : session) (q : Sql.stmt A) : pgE (outcome A).

Definition send {A} (db : session) (q : Sql.stmt A) : prog pgE (outcome A) := call (Statement db q).

(** [tx, err := s.pool.Begin(ctx); ...; defer func() { _ = tx.Rollback(ctx) }()] around
    [body], which commits. *)
Definition transaction {A} (beginning : string) (body : prog pgE (outcome A)) : prog pgE (outcome A) :=
  try! _ := call Begin orelse wrap beginning in
  let! result := body in
  let! _ := call Rollback in
  Ret result.

(** [if err := tx.Commit(ctx); err != nil { ... }; return a] *)
Definition commit {A} (committing : string) (a : A) : prog pgE (outcome A) :=
  try! _ := call Commit orelse wrap committing in
  Ret (Ok a).

(** [for rows.Next() { rows.Scan(...); ... }; rows.Err()]: each row is scanned and
    then read. *)
Fixpoint read_rows_from {A B} (scanning : string) (iterating : error → error) (read : A → outcome B)
    (l : list (outcome A)) (ended : option error) : outcome (list B) :=
  match l with
  | [] => match ended with Some err => Err (iterating err) | None => Ok [] end
  | Err err :: _ => Err (wrap scanning err)
  | Ok row :: l =>
      match read row with
      | Err err => Err err
      | Ok b => match read_rows_from scanning iterating read l ended with Ok bs => Ok (b :: bs) | Err err => Err err end
      end
  end.

Definition read_rows {A B} (scanning : string) (iterating : error → error) (read : A → outcome B) (rows : rows A)
    : outcome (list B) :=
  read_rows_from scanning iterating read (delivered rows) (rows_Err rows).

(** [json.Unmarshal(raw, &a)] with the text of its error. *)
Definition decode_column {A} `{Json A} (decoding raw : string) : outcome A :=
  match json_Unmarshal raw with Ok a => Ok a | Err err => Err (wrap decoding err) end.

(** [for _, a := range l { if err := f(a); err != nil { return err } }] *)
Fixpoint for_each {A} (f : A → prog pgE (outcome unit)) (l : list A) : prog pgE (outcome unit) :=
  match l with
  | [] => Ret (Ok tt)
  | a :: l => try! _ := f a orelse id in for_each f l
  end.
