(* ===== verification/PostgresIntents.v ===== *)
(** * The PostgreSQL store: intents, volumes and findings

    src/internal/store/durable/postgres/store.go and spatial.go: each method
    as the program of the statements it sends, in the transactions it opens.
    The methods of the interface have the prefix [pg_], since the in-memory
    store has the same names. *)

From S2P Require Import Prelude GoRuntime GoStrings GoFloat GoJson GoRange Domain Errors Program MemoryState MemorySpatial PgStatements.
From stdpp Require Import options.

(** ** The geometry of a volume *)

(** The members of an object with the text of each value, after the opening
    brace; the object is one that decodes. *)
Fixpoint member_texts (fuel : nat) (s : bytes) : list (string * string) :=
  match fuel with
  | O => []
  | S fuel =>
      match skip_space s with
      | c :: s' =>
          if negb (is_char 34 c) then [] else
          match parse_string fuel s' with
          | Parsed key rest =>
              match skip_space rest with
              | _ :: rest' =>
                  let value := skip_space rest' in
                  match parse_value fuel (N.to_nat 10000) value with
                  | Parsed _ rest'' =>
                      let text := take (length value - length rest'') value in
                      (String.string_of_list_ascii key, String.string_of_list_ascii text)
                        :: match skip_space rest'' with
                           | e :: rest''' => if is_char 44 e then member_texts fuel rest''' else []
                           | [] => []
                           end
                  | _ => []
                  end
              | [] => []
              end
          | _ => []
          end
      | [] => []
      end
  end.

Definition object_texts (text : string) : list (string * string) :=
  match skip_space (String.list_ascii_of_string text) with
  | c :: s => if is_char 123 c then member_texts (S (2 * length s)) s else []
  | [] => []
  end.

(** A field of type [json.RawMessage]: the text of the last value. *)
Definition raw_text (text field : string) : option string :=
  last (map snd (select (λ e, EqualFold e.1 field) (object_texts text))).

(** Decoding into a field of type [string] that has a value. *)
Definition string_field_from (type : string) (m : list (string * json)) (field : string) : option string :=
  foldl string_step (Some type) (members_of m field).

Definition unsupported_geometry (type : string) : error :=
  plain ("GeoJSON type " +:+ quote type +:+ " is not supported").

Section intents.
Context {RT : Runtime} {JS : StoredJson}.

Definition geometryJSON (raw : string) : outcome string :=
  if TrimSpace raw =s= "" then Ok "" else
  match object_members (json_value raw) with
  | None => Err (plain ("decode GeoJSON: " +:+ json_struct_error raw))
  | Some value =>
      match string_field value "type" with
      | None => Err (plain ("decode GeoJSON: " +:+ json_struct_error raw))
      | Some type =>
          if type =s= "Feature" then
            match raw_text raw "geometry" with
            | None => Err (plain "GeoJSON feature has no geometry")
            | Some geometry =>
                if geometry =s= "null" then Err (plain "GeoJSON feature has no geometry") else
                match object_members (json_value geometry) ≫= (λ m, string_field_from type m "type") with
                | None => Err (plain ("decode GeoJSON feature geometry: " +:+ json_struct_error geometry))
                | Some type => if type <>s "Polygon" then Err (unsupported_geometry type) else Ok geometry
                end
            end
          else if type <>s "Polygon" then Err (unsupported_geometry type)
          else Ok raw
      end
  end.

(** ** Locks and fences *)

Definition lockIntent (intentID : string) : prog pgE (outcome unit) :=
  try! _ := send Tx (Sql.LockIntent intentID)
    orelse wrap ("lock operational intent " +:+ quote intentID) in
  Ret (Ok tt).

Definition lockMissionAircraftLifecycle (aircraftID : string) : prog pgE (outcome unit) :=
  try! _ := send Tx (Sql.LockMissionAircraft aircraftID)
    orelse wrap ("lock aircraft mission lifecycle " +:+ quote aircraftID) in
  Ret (Ok tt).

Definition rejectOutstandingMissionDeploymentForIntent (intentID : string) : prog pgE (outcome unit) :=
  try! outstanding := send Tx (Sql.OutstandingForIntent intentID MissionDeploymentPending
      MissionDeploymentTemporaryError MissionDeploymentOutcomeUnknown)
    orelse wrap "check operational intent mission deployment fence" in
  Ret (if outstanding then Err ErrVersionConflict else Ok tt).

Definition rejectOutstandingMissionDeploymentForFlight (flightID : string) : prog pgE (outcome unit) :=
  try! outstanding := send Tx (Sql.OutstandingForFlight flightID MissionDeploymentPending
      MissionDeploymentTemporaryError MissionDeploymentOutcomeUnknown)
    orelse wrap "check flight mission deployment fence" in
  Ret (if outstanding then Err ErrVersionConflict else Ok tt).

(** ** Rows of intents *)

Definition read_intent (row : string * Z) : outcome OperationalIntent :=
  match decode_column "decode operational intent" row.1 with
  | Ok intent => Ok (intent <| Intent_Revision := row.2 |>)
  | Err err => Err err
  end.

Definition scanIntent (row : outcome (option (string * Z))) : outcome OperationalIntent :=
  match row with
  | Ok None => Err ErrNotFound
  | Err err => Err (wrap "read operational intent" err)
  | Ok (Some row) => read_intent row
  end.

Definition readIntents (rows : rows (string * Z)) : outcome (list OperationalIntent) :=
  read_rows "scan operational intent" (wrap "iterate operational intents") read_intent rows.

Definition upsertIntent (intent : OperationalIntent) (revision : Z) : prog pgE (outcome unit) :=
  match json_Marshal intent with
  | Err err => Ret (Err (wrap "encode operational intent" err))
  | Ok raw =>
      try! _ := send Tx (Sql.UpsertIntent intent revision raw) orelse wrap "write operational intent" in
      Ret (Ok tt)
  end.

(** ** Intents *)

Definition pg_CreateOperationalIntent (intent : OperationalIntent) : prog pgE (outcome unit) :=
  transaction "begin operational intent create" (
    try! _ := lockIntent (Intent_ID intent) orelse id in
    try! _ := rejectOutstandingMissionDeploymentForIntent (Intent_ID intent) orelse id in
    let intent := intent <| Intent_Revision := 0 |> in
    match json_Marshal intent with
    | Err err => Ret (Err (wrap "encode operational intent" err))
    | Ok raw =>
        try! _ := send Tx (Sql.InsertIntent intent raw)
          orelse (λ err, if unique_violation err then New ErrAlreadyExists
                         else wrap "create operational intent" err) in
        commit "commit operational intent create" tt
    end).

Definition retired (terminal prior : OperationalIntent) : OperationalIntent :=
  prior <| Intent_Status := Intent_Status terminal |>
        <| Intent_CanceledAt := Intent_CanceledAt terminal |>
        <| Intent_CompletedAt := Intent_CompletedAt terminal |>
        <| Intent_UpdatedAt := Intent_UpdatedAt terminal |>.

Definition retirePriorAcceptedIntentsTx (terminal : OperationalIntent) : prog pgE (outcome unit) :=
  try! rows := send Tx (Sql.SelectPriorIntents (Intent_ID terminal) (Intent_Version terminal) IntentStatusAccepted)
    orelse wrap "list accepted operational intent versions for terminal transition" in
  match readIntents rows with
  | Err err => Ret (Err err)
  | Ok priorIntents =>
      for_each (λ prior, upsertIntent (retired terminal prior) (int64_succ (Intent_Revision prior))) priorIntents
  end.

Definition updateOperationalIntentTx (intent : OperationalIntent) (expectedRevision : Z) : prog pgE (outcome unit) :=
  try! _ := rejectOutstandingMissionDeploymentForIntent (Intent_ID intent) orelse id in
  match json_Marshal intent with
  | Err err => Ret (Err (wrap "encode operational intent" err))
  | Ok raw =>
      try! tag := send Tx (Sql.UpdateIntent intent raw expectedRevision) orelse wrap "update operational intent" in
      if tag =? 0 then
        try! exists_ := send Tx (Sql.IntentExists (Intent_ID intent))
          orelse wrap "check operational intent after update conflict" in
        Ret (Err (if negb exists_ then New ErrNotFound else New ErrVersionConflict))
      else if (Intent_Status intent =s= IntentStatusCanceled) || (Intent_Status intent =s= IntentStatusComplete) then
        try! _ := retirePriorAcceptedIntentsTx intent orelse id in
        Ret (Ok tt)
      else Ret (Ok tt)
  end.

Definition pg_UpdateOperationalIntent (intent : OperationalIntent) (expectedRevision : Z) : prog pgE (outcome unit) :=
  transaction "begin operational intent update" (
    try! _ := lockIntent (Intent_ID intent) orelse id in
    try! _ := updateOperationalIntentTx intent expectedRevision orelse id in
    commit "commit operational intent update" tt).

Definition pg_ActivateOperationalIntent (intent : OperationalIntent) (expectedRevision : Z) : prog pgE (outcome unit) :=
  transaction "begin operational intent activation" (
    try! _ := send Tx (Sql.LockAircraftLifecycle (Intent_AircraftID intent))
      orelse wrap "lock aircraft operational lifecycle" in
    try! _ := lockIntent (Intent_ID intent) orelse id in
    try! active := send Tx (Sql.SelectOtherActive (Intent_AircraftID intent) (Intent_ID intent) (Intent_Version intent)
        IntentStatusActive)
      orelse wrap "check active aircraft operational intent" in
    match active with
    | Some _ => Ret (Err ErrActiveIntent)
    | None =>
        try! _ := updateOperationalIntentTx intent expectedRevision
          orelse (λ err, if violates err "operational_intents_one_active_aircraft_idx" then New ErrActiveIntent
                         else err) in
        commit "commit operational intent activation" tt
    end).

Definition superseded (intent prior : OperationalIntent) : OperationalIntent :=
  prior <| Intent_Status := IntentStatusSuperseded |>
        <| Intent_SupersededAt := Intent_AcceptedAt intent |>
        <| Intent_UpdatedAt := Intent_UpdatedAt intent |>.

Definition acceptOperationalIntentTx (intent : OperationalIntent) (expectedRevision : Z) : prog pgE (outcome unit) :=
  try! _ := rejectOutstandingMissionDeploymentForIntent (Intent_ID intent) orelse id in
  try! row := send Tx (Sql.SelectCurrentVersion (Intent_ID intent))
    orelse wrap "read current operational intent before acceptance" in
  match row with
  | None => Ret (Err ErrNotFound)
  | Some (currentVersion, currentRevision) =>
      if (currentVersion <>z Intent_Version intent) || (currentRevision <>z expectedRevision)
      then Ret (Err ErrVersionConflict)
      else
        try! _ := upsertIntent intent (int64_succ expectedRevision) orelse id in
        try! rows := send Tx (Sql.SelectPriorIntents (Intent_ID intent) (Intent_Version intent) IntentStatusAccepted)
          orelse wrap "list accepted operational intent versions" in
        match readIntents rows with
        | Err err => Ret (Err err)
        | Ok priorIntents =>
            for_each (λ prior, upsertIntent (superseded intent prior) (int64_succ (Intent_Revision prior))) priorIntents
        end
  end.

Definition pg_AcceptOperationalIntent (intent : OperationalIntent) (expectedRevision : Z) : prog pgE (outcome unit) :=
  transaction "begin operational intent acceptance" (
    try! _ := lockIntent (Intent_ID intent) orelse id in
    try! _ := acceptOperationalIntentTx intent expectedRevision orelse id in
    commit "commit operational intent acceptance" tt).

Definition pg_GetOperationalIntent (intentID : string) : prog pgE (outcome OperationalIntent) :=
  let! row := send Pool (Sql.SelectIntent intentID) in Ret (scanIntent row).

Definition pg_GetOperationalIntentVersion (intentID : string) (version : Z) : prog pgE (outcome OperationalIntent) :=
  let! row := send Pool (Sql.SelectIntentVersion intentID version) in Ret (scanIntent row).

Definition pg_ListOperationalIntents (aircraftID : string) : prog pgE (outcome (list OperationalIntent)) :=
  try! rows := send Pool (Sql.SelectIntents aircraftID) orelse wrap "list operational intents" in
  match readIntents rows with
  | Err err => Ret (Err err)
  | Ok intents =>
      Ret (Ok (sort_slice (λ a b, Before (Intent_PlannedStartAt a) (Intent_PlannedStartAt b)) intents))
  end.

Definition pg_ListOperationalIntentVersions (intentID : string) : prog pgE (outcome (list OperationalIntent)) :=
  try! rows := send Pool (Sql.SelectIntentVersions intentID) orelse wrap "list operational intent versions" in
  Ret (readIntents rows).

(** ** Volumes *)

Definition validateVolumeScope (intentID : string) (intentVersion : Z) (volumes : list OperationalVolume)
    : option error :=
  match List.find (λ volume, (Volume_IntentID volume <>s intentID)
                             || (Volume_IntentVersion volume <>z intentVersion)) volumes with
  | Some volume =>
      Some (plain ("operational volume " +:+ quote (Volume_ID volume) +:+ " belongs to intent "
        +:+ quote (Volume_IntentID volume) +:+ " version " +:+ Itoa (Volume_IntentVersion volume)
        +:+ ", not intent " +:+ quote intentID +:+ " version " +:+ Itoa intentVersion))
  | None => None
  end.

Definition upsertVolume (volume : OperationalVolume) : prog pgE (outcome unit) :=
  match geometryJSON (Volume_GeoJSON volume) with
  | Err err => Ret (Err (wrap "read operational volume geometry" err))
  | Ok geometry =>
      match json_Marshal volume with
      | Err err => Ret (Err (wrap "encode operational volume" err))
      | Ok raw =>
          let buffer := default float_zero (Volume_BufferMeters volume) in
          try! _ := send Tx (Sql.UpsertVolume volume buffer geometry raw) orelse wrap "write operational volume" in
          Ret (Ok tt)
      end
  end.

Definition replaceVolumes (intentID : string) (version : Z) (volumes : list OperationalVolume)
    : prog pgE (outcome unit) :=
  try! _ := send Tx (Sql.DeleteVolumes intentID version) orelse wrap "clear operational volumes" in
  for_each upsertVolume volumes.

Definition pg_RecordOperationalVolume (volume : OperationalVolume) : prog pgE (outcome unit) :=
  transaction "begin operational volume write" (
    try! _ := lockIntent (Volume_IntentID volume) orelse id in
    try! _ := rejectOutstandingMissionDeploymentForIntent (Volume_IntentID volume) orelse id in
    try! _ := upsertVolume volume orelse id in
    commit "commit operational volume write" tt).

Definition pg_ReplaceOperationalVolumes (intentID : string) (version : Z) (volumes : list OperationalVolume)
    : prog pgE (outcome unit) :=
  match validateVolumeScope intentID version volumes with
  | Some err => Ret (Err err)
  | None =>
      transaction "begin operational volume replacement" (
        try! _ := lockIntent intentID orelse id in
        try! _ := rejectOutstandingMissionDeploymentForIntent intentID orelse id in
        try! _ := replaceVolumes intentID version volumes orelse id in
        commit "commit operational volume replacement" tt)
  end.

Definition pg_ReplaceOperationalIntent (expectedVersion expectedRevision : Z) (intent : OperationalIntent)
    (volumes : list OperationalVolume) : prog pgE (outcome unit) :=
  if (Intent_Version intent <>z expectedVersion) && (Intent_Version intent <>z int64_succ expectedVersion)
  then Ret (Err ErrVersionConflict)
  else
  match validateVolumeScope (Intent_ID intent) (Intent_Version intent) volumes with
  | Some err => Ret (Err err)
  | None =>
      transaction "begin operational intent replacement" (
        try! _ := lockIntent (Intent_ID intent) orelse id in
        try! _ := rejectOutstandingMissionDeploymentForIntent (Intent_ID intent) orelse id in
        try! row := send Tx (Sql.SelectCurrentVersion (Intent_ID intent))
          orelse wrap "read current operational intent version" in
        match row with
        | None => Ret (Err ErrNotFound)
        | Some (currentVersion, currentRevision) =>
            if (currentVersion <>z expectedVersion) || (currentRevision <>z expectedRevision)
            then Ret (Err ErrVersionConflict)
            else
              let nextRevision := if Intent_Version intent =? currentVersion then int64_succ currentRevision else 0 in
              try! _ := upsertIntent intent nextRevision orelse id in
              try! _ := replaceVolumes (Intent_ID intent) (Intent_Version intent) volumes orelse id in
              commit "commit operational intent replacement" tt
        end)
  end.

Definition pg_ListOperationalVolumes (intentID : string) : prog pgE (outcome (list OperationalVolume)) :=
  try! rows := send Pool (Sql.SelectVolumes intentID) orelse wrap "list operational volumes" in
  Ret (read_rows "scan operational volume" (wrap "iterate operational volumes")
         (decode_column "decode operational volume") rows).

(** ** Conflict findings *)

Definition upsertFinding (finding : ConflictFinding) : prog pgE (outcome unit) :=
  match json_Marshal finding with
  | Err err => Ret (Err (wrap "encode conflict finding" err))
  | Ok raw =>
      try! _ := send Tx (Sql.UpsertFinding finding raw) orelse wrap "write conflict finding" in
      Ret (Ok tt)
  end.

Definition validateFindingScope (intentID : string) (intentVersion : Z) (ruleVersion : string)
    (findings : list ConflictFinding) : option error :=
  match List.find (λ finding, (ConflictFinding_IntentID finding <>s intentID)
                              || (ConflictFinding_IntentVersion finding <>z intentVersion)
                              || (ConflictFinding_RuleVersion finding <>s ruleVersion)) findings with
  | Some finding =>
      Some (plain ("conflict finding " +:+ quote (ConflictFinding_ID finding) +:+ " is outside intent " +:+ quote intentID
        +:+ " version " +:+ Itoa intentVersion +:+ " rule " +:+ quote ruleVersion +:+ " replacement scope"))
  | None => None
  end.

Definition pg_RecordConflictFinding (finding : ConflictFinding) : prog pgE (outcome unit) :=
  transaction "begin conflict finding write" (
    try! _ := lockIntent (ConflictFinding_IntentID finding) orelse id in
    try! _ := upsertFinding finding orelse id in
    commit "commit conflict finding write" tt).

Definition pg_ListConflictFindings (intentID : string) (intentVersion : Z) : prog pgE (outcome (list ConflictFinding)) :=
  try! rows := send Pool (Sql.SelectFindings intentID intentVersion) orelse wrap "list conflict findings" in
  Ret (read_rows "scan conflict finding" (wrap "iterate conflict findings")
         (decode_column "decode conflict finding") rows).

Definition pg_ReplaceConflictFindings (intentID : string) (intentVersion : Z) (ruleVersion : string)
    (findings : list ConflictFinding) : prog pgE (outcome unit) :=
  match validateFindingScope intentID intentVersion ruleVersion findings with
  | Some err => Ret (Err err)
  | None =>
      transaction "begin conflict finding replacement" (
        try! _ := lockIntent intentID orelse id in
        try! _ := send Tx (Sql.DeleteFindings intentID intentVersion ruleVersion)
          orelse wrap "clear conflict findings" in
        try! _ := for_each upsertFinding findings orelse id in
        commit "commit conflict finding replacement" tt)
  end.

(** ** Spatial queries *)

Fixpoint target_geometries (volumes : list OperationalVolume) : outcome (list OperationalVolume) :=
  match volumes with
  | [] => Ok []
  | volume :: volumes =>
      match geometryJSON (Volume_GeoJSON volume) with
      | Err err => Err (wrap ("read target volume " +:+ quote (Volume_ID volume) +:+ " geometry") err)
      | Ok geometry =>
          match target_geometries volumes with
          | Err err => Err err
          | Ok targets => Ok (volume <| Volume_GeoJSON := geometry |> :: targets)
          end
      end
  end.

Definition pg_FindCandidates (query : CandidateQuery) : prog pgE (outcome (list Candidate)) :=
  match target_geometries (Query_Volumes query) with
  | Err err => Ret (Err err)
  | Ok targetVolumes =>
      match json_Marshal targetVolumes with
      | Err err => Ret (Err (wrap "encode target volumes" err))
      | Ok targets =>
          try! rows := send Pool (Sql.SelectCandidates (Query_ExcludeIntentID query) targets)
            orelse wrap "query PostGIS candidates" in
          Ret (read_rows "scan PostGIS candidate" (wrap "iterate PostGIS candidates")
                 (λ row, Ok (mkCandidate row.1 row.2)) rows)
      end
  end.

Definition route_point (item : MissionItem) : routePoint :=
  mkRoutePoint (MissionItem_Sequence item)
    (f_div (float_of_Z (MissionItem_LongitudeE7 item)) float_1e7)
    (f_div (float_of_Z (MissionItem_LatitudeE7 item)) float_1e7).

Definition coverage_of_rows (covered : list (Z * bool * bool)) : MissionCoverageResult :=
  mkMissionCoverageResult
    (map (λ row, row.1.1) (select (λ row, negb row.1.2) covered))
    (map (λ row, row.1.1) (select (λ row, negb row.2) covered)).

Definition pg_CheckMissionCoverage (volume : OperationalVolume) (items : list MissionItem)
    : prog pgE (outcome MissionCoverageResult) :=
  match json_Marshal (map route_point items) with
  | Err err => Ret (Err (wrap "encode mission route" err))
  | Ok raw =>
      try! rows := send Pool (Sql.SelectCoverage (Volume_IntentID volume) (Volume_IntentVersion volume)
          (Volume_ID volume) raw)
        orelse wrap "check PostGIS mission coverage" in
      match read_rows "scan PostGIS mission coverage" (wrap "iterate PostGIS mission coverage") Ok rows with
      | Err err => Ret (Err err)
      | Ok covered =>
          Ret (if negb (length covered =? length items)%nat then Err ErrNotFound else Ok (coverage_of_rows covered))
      end
  end.
End intents.
