(* ===== verification/PostgresMissions.v ===== *)
(** * The PostgreSQL store: aircraft, flights, missions and deployments

    src/internal/store/durable/postgres: the missions of store.go, and
    mission_deployment.go and fleet.go, each method as the program of the
    statements it sends. *)

From S2P Require Import Prelude GoRuntime Domain Errors Program MemoryState PgStatements PostgresIntents.
From stdpp Require Import options.

Section missions.
Context {JS : StoredJson}.

(** ** Missions *)

Definition getMission (query : session) (clause : Sql.mission_clause) : prog pgE (outcome Mission) :=
  try! row := send query (Sql.SelectMission clause) orelse wrap "get mission" in
  match row with
  | None => Ret (Err ErrNotFound)
  | Some (mission, raw) =>
      match decode_column (A:=Mission) "decode mission metadata" raw with
      | Err err => Ret (Err err)
      | Ok metadata =>
          let mission := mission <| Mission_ValidationFindings := Mission_ValidationFindings metadata |> in
          try! rows := send query (Sql.SelectMissionItems (Mission_ID mission)) orelse wrap "list mission items" in
          match read_rows "scan mission item" (wrap "iterate mission items")
                  (decode_column "decode mission item") rows with
          | Err err => Ret (Err err)
          | Ok items => Ret (Ok (mission <| Mission_Items := items |>))
          end
      end
  end.

Definition getMissionByIdempotencyKey (query : session) (key : string) : prog pgE (outcome Mission) :=
  getMission query (Sql.MissionByKey key).

Definition insertMissionItem (missionID : string) (item : MissionItem) : prog pgE (outcome unit) :=
  let number := Itoa (MissionItem_Sequence item) in
  match json_Marshal item with
  | Err err => Ret (Err (wrap ("encode mission item " +:+ number) err))
  | Ok rawItem =>
      try! _ := send Tx (Sql.InsertMissionItem missionID (MissionItem_Sequence item) rawItem)
        orelse wrap ("insert mission item " +:+ number) in
      Ret (Ok tt)
  end.

Definition createMission (mission : Mission) : prog pgE (outcome Mission) :=
  try! _ := send Tx (Sql.LockMissionKey (Mission_IdempotencyKey mission)) orelse wrap "lock mission idempotency key" in
  let! existing := getMissionByIdempotencyKey Tx (Mission_IdempotencyKey mission) in
  match existing with
  | Ok existing =>
      Ret (if Mission_IdempotencyRequest existing <>s Mission_IdempotencyRequest mission
           then Err ErrIdempotencyConflict else Ok existing)
  | Err err =>
      if negb (errors_Is err ErrNotFound) then Ret (Err err) else
      try! _ := send Tx (Sql.LockMissionFlight (Mission_FlightID mission)) orelse wrap "lock mission flight" in
      try! version := send Tx (Sql.NextMissionVersion (Mission_FlightID mission)) orelse wrap "assign mission version" in
      let mission := mission <| Mission_Version := version |> in
      let metadata := mission <| Mission_Items := [] |> in
      match json_Marshal metadata with
      | Err err => Ret (Err (wrap "encode mission metadata" err))
      | Ok raw =>
          try! _ := send Tx (Sql.InsertMission mission raw)
            orelse (λ err, if unique_violation err then New ErrAlreadyExists else wrap "insert mission" err) in
          try! _ := for_each (insertMissionItem (Mission_ID mission)) (Mission_Items mission) orelse id in
          Ret (Ok mission)
      end
  end.

Definition pg_CreateMission (mission : Mission) : prog pgE (outcome Mission) :=
  transaction "begin mission create" (
    try! mission := createMission mission orelse id in
    commit "commit mission create" mission).

(** The binding of a mission or a deployment is the one of its flight, which is planned. *)
Definition bound_to_planned_flight (operatorID aircraftID intentID : string) (intentVersion : Z)
    (flight : FlightStatus * string * string * string * Z) : bool :=
  let '(status, flightOperator, flightAircraft, flightIntent, flightIntentVersion) := flight in
  negb ((status <>s FlightStatusPlanned) || (operatorID <>s flightOperator) || (aircraftID <>s flightAircraft)
        || (intentID <>s flightIntent) || (intentVersion <>z flightIntentVersion)).

(** The current version of the intent is the one of the flight, and it is accepted or active. *)
Definition current_for_mission (operatorID aircraftID : string) (intentVersion : Z)
    (intent : Z * string * string * string) : bool :=
  let '(currentVersion, currentOperator, currentAircraft, currentStatus) := intent in
  negb ((currentVersion <>z intentVersion) || (currentOperator <>s operatorID) || (currentAircraft <>s aircraftID)
        || ((currentStatus <>s IntentStatusAccepted) && (currentStatus <>s IntentStatusActive))).

Definition pg_CreateMissionForPlannedFlight (mission : Mission) : prog pgE (outcome Mission) :=
  transaction "begin planned-flight mission create" (
    try! _ := send Tx (Sql.LockMissionKey (Mission_IdempotencyKey mission))
      orelse wrap "lock mission idempotency key" in
    let! existing := getMissionByIdempotencyKey Tx (Mission_IdempotencyKey mission) in
    match existing with
    | Ok existing =>
        Ret (if Mission_IdempotencyRequest existing <>s Mission_IdempotencyRequest mission
             then Err ErrIdempotencyConflict else Ok existing)
    | Err err =>
        if negb (errors_Is err ErrNotFound) then Ret (Err err) else
        try! flight := send Tx (Sql.LockFlight (Mission_FlightID mission)) orelse wrap "lock mission flight" in
        match flight with
        | None => Ret (Err ErrNotFound)
        | Some (status, operatorID, aircraftID, intentID, intentVersion) =>
            if negb (bound_to_planned_flight (Mission_OperatorID mission) (Mission_AircraftID mission)
                       (Mission_IntentID mission) (Mission_IntentVersion mission)
                       (status, operatorID, aircraftID, intentID, intentVersion))
            then Ret (Err ErrVersionConflict)
            else
              try! _ := lockIntent intentID orelse id in
              try! intent := send Tx (Sql.LockCurrentIntent intentID)
                orelse wrap "lock current operational intent for mission import" in
              match intent with
              | None => Ret (Err ErrNotFound)
              | Some intent =>
                  if negb (current_for_mission operatorID aircraftID intentVersion intent)
                  then Ret (Err ErrVersionConflict)
                  else
                    try! _ := rejectOutstandingMissionDeploymentForFlight (Mission_FlightID mission) orelse id in
                    try! mission := createMission mission orelse id in
                    commit "commit planned-flight mission create" mission
              end
        end
    end).

Definition pg_GetMissionByIdempotencyKey (key : string) : prog pgE (outcome Mission) :=
  getMissionByIdempotencyKey Pool key.

Definition pg_GetMission (missionID : string) : prog pgE (outcome Mission) :=
  getMission Pool (Sql.MissionByID missionID).

Definition pg_GetCurrentMissionForFlight (flightID : string) : prog pgE (outcome Mission) :=
  getMission Pool (Sql.CurrentMissionOfFlight flightID).

Definition pg_GetCurrentMissionForIntent (aircraftID intentID : string) (intentVersion : Z)
    : prog pgE (outcome Mission) :=
  getMission Pool (Sql.NewestMissionOfIntent aircraftID intentID intentVersion).

Definition pg_GetDeployedMissionForActiveFlight (aircraftID intentID : string) (intentVersion : Z)
    : prog pgE (outcome Mission) :=
  try! activeFlightCount := send Pool (Sql.CountFlights aircraftID intentID intentVersion FlightStatusActive)
    orelse wrap "count active flights for commanded mission" in
  if activeFlightCount =? 0 then Ret (Err ErrNotFound)
  else if 1 <? activeFlightCount then Ret (Err ErrVersionConflict)
  else getMission Pool (Sql.DeployedMissionOfFlight aircraftID intentID intentVersion FlightStatusActive
         MissionDeploymentApplied MissionDeploymentAlreadyApplied).

(** ** What is stored of a deployment *)

Definition deployment_data (deployment : MissionDeployment) : missionDeploymentData :=
  mkMissionDeploymentData deployment (Deployment_AgentID deployment)
    (Deployment_DispatchStarted deployment) (Deployment_OperationContextCommandID deployment)
    (Deployment_ReconciliationClearCommandID deployment).

Definition encodeMissionDeployment (deployment : MissionDeployment) : outcome string :=
  json_Marshal (deployment_data deployment).

Definition decodeMissionDeployment (raw : string) : outcome MissionDeployment :=
  match json_Unmarshal (T:=missionDeploymentData) raw with
  | Err err => Err err
  | Ok data =>
      Ok ((data_Deployment data)
            <| Deployment_AgentID := data_AgentID data |>
            <| Deployment_DispatchStarted := data_DispatchStarted data |>
            <| Deployment_OperationContextCommandID := data_OperationContextCommandID data |>
            <| Deployment_ReconciliationClearCommandID := data_ReconciliationClearCommandID data |>)
  end.

(** A row, its columns over its data. *)
Definition read_deployment (row : string * string * Z * string) : outcome MissionDeployment :=
  let '(key, requestHash, revision, raw) := row in
  match decodeMissionDeployment raw with
  | Err err => Err (wrap "decode mission deployment" err)
  | Ok deployment =>
      Ok (deployment <| Deployment_IdempotencyKey := key |>
                     <| Deployment_IdempotencyRequest := requestHash |>
                     <| Deployment_Revision := revision |>)
  end.

Definition getMissionDeployment (query : session) (clause : Sql.deployment_clause)
    : prog pgE (outcome MissionDeployment) :=
  try! row := send query (Sql.SelectDeployment clause) orelse wrap "get mission deployment" in
  match row with
  | None => Ret (Err ErrNotFound)
  | Some row => Ret (read_deployment row)
  end.

Definition getMissionDeploymentByIdempotencyKey (query : session) (key : string)
    : prog pgE (outcome MissionDeployment) :=
  getMissionDeployment query (Sql.DeploymentByKey key).

(** ** Deployments *)

Definition createMissionDeployment (deployment : MissionDeployment) : prog pgE (outcome MissionDeployment) :=
  try! _ := send Tx (Sql.LockDeploymentKey (Deployment_IdempotencyKey deployment))
    orelse wrap "lock mission deployment idempotency key" in
  let! existing := getMissionDeploymentByIdempotencyKey Tx (Deployment_IdempotencyKey deployment) in
  match existing with
  | Ok existing =>
      Ret (if Deployment_IdempotencyRequest existing <>s Deployment_IdempotencyRequest deployment
           then Err ErrIdempotencyConflict else Ok existing)
  | Err err =>
      if negb (errors_Is err ErrNotFound) then Ret (Err err) else
      let deployment := deployment <| Deployment_Revision := 0 |> in
      match encodeMissionDeployment deployment with
      | Err err => Ret (Err (wrap "encode mission deployment" err))
      | Ok raw =>
          try! _ := send Tx (Sql.InsertDeployment deployment raw)
            orelse (λ err, if unique_violation err then New ErrAlreadyExists
                           else wrap "insert mission deployment" err) in
          Ret (Ok deployment)
      end
  end.

Definition pg_CreateMissionDeployment (deployment : MissionDeployment) : prog pgE (outcome MissionDeployment) :=
  transaction "begin mission deployment create" (
    try! deployment := createMissionDeployment deployment orelse id in
    commit "commit mission deployment create" deployment).

Definition pg_missionDeploymentOutstanding (status : MissionDeploymentStatus) : bool :=
  (status =s= MissionDeploymentPending) || (status =s= MissionDeploymentTemporaryError)
  || (status =s= MissionDeploymentOutcomeUnknown).

(** From the lock of the flight on; [replay] is an outstanding deployment with the same key. *)
Definition deploy_to_planned_flight (deployment : MissionDeployment) (replay : option MissionDeployment)
    : prog pgE (outcome MissionDeployment) :=
  try! flight := send Tx (Sql.LockFlight (Deployment_FlightID deployment)) orelse wrap "lock deployment flight" in
  match flight with
  | None => Ret (Err ErrNotFound)
  | Some (status, operatorID, aircraftID, intentID, intentVersion) =>
  if negb (bound_to_planned_flight (Deployment_OperatorID deployment) (Deployment_AircraftID deployment)
             (Deployment_IntentID deployment) (Deployment_IntentVersion deployment)
             (status, operatorID, aircraftID, intentID, intentVersion))
  then Ret (Err ErrVersionConflict)
  else
  try! _ := lockMissionAircraftLifecycle aircraftID orelse id in
  try! _ := lockIntent intentID orelse id in
  try! intent := send Tx (Sql.LockCurrentIntent intentID)
    orelse wrap "lock current operational intent for mission deployment" in
  match intent with
  | None => Ret (Err ErrNotFound)
  | Some intent =>
  if negb (current_for_mission operatorID aircraftID intentVersion intent) then Ret (Err ErrVersionConflict) else
  try! activeFlight := send Tx (Sql.FlightExists aircraftID FlightStatusActive)
    orelse wrap "check active aircraft flight before deployment" in
  if (activeFlight : bool) then Ret (Err ErrVersionConflict) else
  try! current := send Tx (Sql.SelectCurrentMission (Deployment_FlightID deployment))
    orelse wrap "get current mission for deployment" in
  match current with
  | None => Ret (Err ErrVersionConflict)
  | Some (currentMissionID, currentMissionDigest) =>
  if (currentMissionID <>s Deployment_MissionID deployment) || (currentMissionDigest <>s Deployment_MissionDigest deployment)
  then Ret (Err ErrVersionConflict)
  else
  let replayID := match replay with Some replay => Deployment_ID replay | None => "" end in
  try! outstanding := send Tx (Sql.OtherOutstandingForAircraft aircraftID FlightStatusPlanned replayID
      MissionDeploymentPending MissionDeploymentTemporaryError MissionDeploymentOutcomeUnknown)
    orelse wrap "check outstanding aircraft mission deployment" in
  if (outstanding : bool) then Ret (Err ErrVersionConflict) else
  match replay with
  | Some replay => Ret (Ok replay)
  | None =>
      try! deployment := createMissionDeployment deployment orelse id in
      commit "commit planned-flight mission deployment" deployment
  end
  end
  end
  end.

Definition pg_CreateMissionDeploymentForPlannedFlight (deployment : MissionDeployment)
    : prog pgE (outcome MissionDeployment) :=
  transaction "begin planned-flight mission deployment" (
    try! _ := send Tx (Sql.LockDeploymentKey (Deployment_IdempotencyKey deployment))
      orelse wrap "lock mission deployment idempotency key" in
    let! existing := getMissionDeploymentByIdempotencyKey Tx (Deployment_IdempotencyKey deployment) in
    match existing with
    | Ok existing =>
        if Deployment_IdempotencyRequest existing <>s Deployment_IdempotencyRequest deployment
        then Ret (Err ErrIdempotencyConflict)
        else if negb (pg_missionDeploymentOutstanding (Deployment_Status existing)) then Ret (Ok existing)
        else deploy_to_planned_flight deployment (Some existing)
    | Err err =>
        if negb (errors_Is err ErrNotFound) then Ret (Err err)
        else deploy_to_planned_flight deployment None
    end).

Definition pg_GetMissionDeployment (deploymentID : string) : prog pgE (outcome MissionDeployment) :=
  getMissionDeployment Pool (Sql.DeploymentByID deploymentID).

Definition pg_GetMissionDeploymentByIdempotencyKey (key : string) : prog pgE (outcome MissionDeployment) :=
  getMissionDeploymentByIdempotencyKey Pool key.

Definition pg_GetPreviousMissionDeploymentForAircraft (aircraftID deploymentID : string)
    : prog pgE (outcome MissionDeployment) :=
  getMissionDeployment Pool (Sql.PreviousDeploymentOfAircraft aircraftID deploymentID).

Definition pg_GetCurrentMissionDeploymentForFlight (flightID : string) : prog pgE (outcome MissionDeployment) :=
  getMissionDeployment Pool (Sql.CurrentDeploymentOfFlight flightID MissionDeploymentPending
    MissionDeploymentTemporaryError MissionDeploymentOutcomeUnknown).

Definition pg_UpdateMissionDeployment (deployment : MissionDeployment) (expectedRevision : Z)
    : prog pgE (outcome unit) :=
  let deployment := deployment <| Deployment_Revision := int64_succ expectedRevision |> in
  match encodeMissionDeployment deployment with
  | Err err => Ret (Err (wrap "encode mission deployment" err))
  | Ok raw =>
      try! tag := send Pool (Sql.UpdateDeployment deployment raw expectedRevision)
        orelse wrap "update mission deployment" in
      if tag =? 0 then
        let! got := pg_GetMissionDeployment (Deployment_ID deployment) in
        match got with
        | Err getErr => Ret (Err (if errors_Is getErr ErrNotFound then New ErrNotFound else New ErrVersionConflict))
        | Ok _ => Ret (Err ErrVersionConflict)
        end
      else Ret (Ok tt)
  end.

(** ** Aircraft and flights *)

Definition pg_CreateAircraft (aircraft : Aircraft) : prog pgE (outcome unit) :=
  match json_Marshal aircraft with
  | Err err => Ret (Err (wrap "encode aircraft" err))
  | Ok raw =>
      try! _ := send Pool (Sql.InsertAircraft aircraft raw)
        orelse (λ err, if unique_violation err then New ErrAlreadyExists else wrap "insert aircraft" err) in
      Ret (Ok tt)
  end.

Definition pg_GetAircraft (aircraftID : string) : prog pgE (outcome Aircraft) :=
  try! raw := send Pool (Sql.SelectAircraft aircraftID) orelse wrap "get aircraft" in
  Ret (match raw with None => Err ErrNotFound | Some raw => decode_column "decode aircraft" raw end).

Definition pg_ListAircraft : prog pgE (outcome (list Aircraft)) :=
  try! rows := send Pool Sql.SelectAllAircraft orelse wrap "list aircraft" in
  Ret (read_rows "scan aircraft" id (decode_column "decode aircraft") rows).

Definition pg_CreateFlightRecord (flight : FlightRecord) : prog pgE (outcome unit) :=
  match json_Marshal flight with
  | Err err => Ret (Err (wrap "encode flight record" err))
  | Ok raw =>
      try! _ := send Pool (Sql.InsertFlight flight raw)
        orelse (λ err, if unique_violation err then New ErrAlreadyExists else wrap "insert flight record" err) in
      Ret (Ok tt)
  end.

Definition one_active_flight_error (failing : string) (err : error) : error :=
  if violates err "flight_records_one_active_aircraft_idx" then New ErrVersionConflict else wrap failing err.

Definition pg_UpdateFlightRecord (flight : FlightRecord) (expectedStatus : FlightStatus) : prog pgE (outcome unit) :=
  transaction "begin flight record update" (
    try! current := send Tx (Sql.LockFlightForUpdate (Flight_ID flight))
      orelse wrap "lock flight record for update" in
    match current with
    | None => Ret (Err ErrNotFound)
    | Some (currentStatus, currentAircraftID, currentIntentID) =>
        if currentStatus <>s expectedStatus then Ret (Err ErrVersionConflict) else
        try! _ := lockMissionAircraftLifecycle currentAircraftID orelse id in
        try! _ := lockIntent currentIntentID orelse id in
        try! _ := rejectOutstandingMissionDeploymentForFlight (Flight_ID flight) orelse id in
        match json_Marshal flight with
        | Err err => Ret (Err (wrap "encode flight record" err))
        | Ok raw =>
            try! tag := send Tx (Sql.UpdateFlight flight raw expectedStatus)
              orelse one_active_flight_error "update flight record" in
            if tag =? 0 then Ret (Err ErrVersionConflict)
            else commit "commit flight record update" tt
        end
    end).

Definition pg_GetFlightRecord (flightID : string) : prog pgE (outcome FlightRecord) :=
  try! raw := send Pool (Sql.SelectFlight flightID) orelse wrap "get flight record" in
  Ret (match raw with None => Err ErrNotFound | Some raw => decode_column "decode flight record" raw end).

Definition pg_ListFlightRecords (aircraftID : string) : prog pgE (outcome (list FlightRecord)) :=
  try! rows := send Pool (if aircraftID <>s "" then Sql.SelectFlightsOf aircraftID else Sql.SelectAllFlights)
    orelse wrap "list flight records" in
  Ret (read_rows "scan flight record" id (decode_column "decode flight record") rows).

(** The newest deployment of the aircraft is the verified one of the current mission. *)
Definition verified_deployment (flight : FlightRecord) (missionID missionDigest : string) (latest : MissionDeployment)
    : bool :=
  negb ((Deployment_FlightID latest <>s Flight_ID flight) || (Deployment_MissionID latest <>s missionID)
        || (Deployment_MissionDigest latest <>s missionDigest)
        || ((Deployment_Status latest <>s MissionDeploymentApplied)
            && (Deployment_Status latest <>s MissionDeploymentAlreadyApplied))).

Definition pg_StartFlightWithCurrentMissionDeployment (flight : FlightRecord) (expectedStatus : FlightStatus)
    : prog pgE (outcome unit) :=
  transaction "begin flight start" (
    try! current := send Tx (Sql.LockFlightForStart (Flight_ID flight)) orelse wrap "lock flight record" in
    match current with
    | None => Ret (Err ErrNotFound)
    | Some (currentStatus, intentID, intentVersion, aircraftID) =>
    if currentStatus <>s expectedStatus then Ret (Err ErrVersionConflict) else
    try! _ := lockMissionAircraftLifecycle aircraftID orelse id in
    try! anotherActive := send Tx (Sql.OtherFlightExists aircraftID (Flight_ID flight) FlightStatusActive)
      orelse wrap "check active aircraft flight" in
    if (anotherActive : bool) then Ret (Err ErrVersionConflict) else
    try! _ := lockIntent intentID orelse id in
    try! intent := send Tx (Sql.LockIntentOfFlight intentID) orelse wrap "lock current operational intent" in
    match intent with
    | None => Ret (Err ErrNotFound)
    | Some (currentIntentVersion, currentIntentAircraft, currentIntentStatus) =>
    if (currentIntentVersion <>z intentVersion) || (currentIntentAircraft <>s aircraftID)
       || (currentIntentStatus <>s IntentStatusActive)
    then Ret (Err ErrVersionConflict)
    else
    try! mission := send Tx (Sql.SelectCurrentMission (Flight_ID flight))
      orelse wrap "get current mission for flight start" in
    match mission with
    | None => Ret (Err ErrVersionConflict)
    | Some (missionID, missionDigest) =>
    try! outstanding := send Tx (Sql.OutstandingForAircraft aircraftID FlightStatusPlanned
        MissionDeploymentPending MissionDeploymentTemporaryError MissionDeploymentOutcomeUnknown)
      orelse wrap "check uncertain aircraft mission deployment" in
    if (outstanding : bool) then Ret (Err ErrVersionConflict) else
    try! latest := getMissionDeployment Tx (Sql.LatestDeploymentOfAircraft aircraftID)
      orelse (λ err, if errors_Is err ErrNotFound then New ErrVersionConflict
                     else wrap "get latest aircraft mission deployment" err) in
    if negb (verified_deployment flight missionID missionDigest latest) then Ret (Err ErrVersionConflict) else
    match json_Marshal flight with
    | Err err => Ret (Err (wrap "encode active flight" err))
    | Ok raw =>
        try! tag := send Tx (Sql.ActivateFlight flight raw expectedStatus)
          orelse one_active_flight_error "activate flight" in
        if tag <>z 1 then Ret (Err ErrVersionConflict)
        else commit "commit flight start" tt
    end
    end
    end
    end).
End missions.
