(* ===== verification/PostgresPublications.v ===== *)
(** * The PostgreSQL store: publications and peer notifications

    src/internal/store/durable/postgres/publication.go, each method as the
    program of the statements it sends, and the methods of [durable.Store]
    that the type overrides; it has the others from the in-memory store that
    it embeds. *)

From S2P Require Import Prelude GoRuntime GoRange Domain Errors Program MemoryState MemoryPublications DurableStore PgStatements PostgresIntents PostgresMissions.
From stdpp Require Import options.

Section publications.
Context {JS : StoredJson}.

(** ** Rows *)

Definition read_publication (row : string * Z) : outcome OperationalIntentPublication :=
  match decode_column "decode publication" row.1 with
  | Ok publication => Ok (publication <| Publication_Revision := row.2 |>)
  | Err err => Err err
  end.

Definition scanPublication (row : outcome (option (string * Z))) : outcome OperationalIntentPublication :=
  match row with
  | Ok None => Err ErrNotFound
  | Err err => Err (wrap "read publication" err)
  | Ok (Some row) => read_publication row
  end.

Definition readPublications (rows : rows (string * Z)) : outcome (list OperationalIntentPublication) :=
  read_rows "read publication" (wrap "iterate publications") read_publication rows.

Definition writePublication (publication : OperationalIntentPublication) : prog pgE (outcome unit) :=
  match json_Marshal publication with
  | Err err => Ret (Err (wrap "encode publication" err))
  | Ok raw =>
      try! _ := send Tx (Sql.UpsertPublication publication raw) orelse wrap "write publication" in
      Ret (Ok tt)
  end.

(** ** Requests *)

Definition requestPublicationTx (request : OperationalIntentPublication) : prog pgE (outcome unit) :=
  try! exists_ := send Tx (Sql.IntentVersionExists (Publication_IntentID request)
      (Publication_DesiredIntentVersion request))
    orelse wrap "check publication intent version" in
  if negb exists_ then Ret (Err ErrNotFound) else
  let request := request <| Publication_LeaseUntil := None |> in
  let! row := send Tx (Sql.LockPublication (Publication_IntentID request)) in
  let pending request :=
    writePublication (request <| Publication_SyncStatus := PublicationSyncPending |>
                              <| Publication_AttemptCount := 0 |>
                              <| Publication_LastError := "" |>) in
  match scanPublication row with
  | Err err => if negb (errors_Is err ErrNotFound) then Ret (Err err) else pending request
  | Ok current => pending (carry_over current request)
  end.

Definition pg_AcceptOperationalIntentAndRequestPublication (intent : OperationalIntent) (expectedRevision : Z)
    (publication : OperationalIntentPublication) : prog pgE (outcome unit) :=
  transaction "begin intent acceptance and publication" (
    try! _ := lockIntent (Intent_ID intent) orelse id in
    try! _ := acceptOperationalIntentTx intent expectedRevision orelse id in
    try! _ := requestPublicationTx publication orelse id in
    commit "commit intent acceptance and publication" tt).

Definition pg_UpdateOperationalIntentAndRequestPublication (intent : OperationalIntent) (expectedRevision : Z)
    (publication : OperationalIntentPublication) : prog pgE (outcome unit) :=
  transaction "begin intent update and publication" (
    try! _ := lockIntent (Intent_ID intent) orelse id in
    try! _ := updateOperationalIntentTx intent expectedRevision orelse id in
    try! _ := requestPublicationTx publication orelse id in
    commit "commit intent update and publication" tt).

Definition pg_RequestOperationalIntentPublication (publication : OperationalIntentPublication)
    : prog pgE (outcome unit) :=
  transaction "begin publication request" (
    try! _ := lockIntent (Publication_IntentID publication) orelse id in
    try! _ := requestPublicationTx publication orelse id in
    commit "commit publication request" tt).

Definition pg_RequestOperationalIntentPublicationIfCurrent (publication : OperationalIntentPublication)
    (expectedIntentVersion expectedIntentRevision : Z) (expectedStatus : IntentStatus) : prog pgE (outcome unit) :=
  transaction "begin guarded publication request" (
    try! _ := lockIntent (Publication_IntentID publication) orelse id in
    try! row := send Tx (Sql.SelectCurrentState (Publication_IntentID publication))
      orelse wrap "read current operational intent for publication" in
    match row with
    | None => Ret (Err ErrNotFound)
    | Some (version, revision, status) =>
        if (version <>z expectedIntentVersion) || (revision <>z expectedIntentRevision) || (status <>s expectedStatus)
        then Ret (Err ErrVersionConflict)
        else
          try! _ := requestPublicationTx publication orelse id in
          commit "commit guarded publication request" tt
    end).

Definition pg_GetOperationalIntentPublication (intentID : string) : prog pgE (outcome OperationalIntentPublication) :=
  let! row := send Pool (Sql.SelectPublication intentID) in Ret (scanPublication row).

(** ** Leases *)

Definition pg_ClaimOperationalIntentPublication (intentID : string) (now leaseUntil : Time)
    : prog pgE (outcome OperationalIntentPublication) :=
  transaction "begin publication claim" (
    let! row := send Tx (Sql.LockPublication intentID) in
    match scanPublication row with
    | Err err => Ret (Err err)
    | Ok publication =>
        if lease_held (Publication_LeaseUntil publication) now then Ret (Err ErrVersionConflict) else
        let publication := claim_publication now leaseUntil publication in
        try! _ := writePublication publication orelse id in
        commit "commit publication claim" publication
    end).

Definition pg_ClaimDueOperationalIntentPublications (now leaseUntil : Time) (limit : Z)
    : prog pgE (outcome (list OperationalIntentPublication)) :=
  if limit <=? 0 then Ret (Ok []) else
  transaction "begin due publication claim" (
    try! rows := send Tx (Sql.SelectDuePublications now limit) orelse wrap "select due publications" in
    match readPublications rows with
    | Err err => Ret (Err err)
    | Ok publications =>
        let publications := map (claim_publication now leaseUntil) publications in
        try! _ := for_each writePublication publications orelse id in
        commit "commit due publication claims" publications
    end).

Definition pg_RenewOperationalIntentPublicationLease (intentID : string) (expectedRevision : Z) (leaseUntil : Time)
    : prog pgE (outcome unit) :=
  match json_Marshal leaseUntil with
  | Err err => Ret (Err (wrap "encode publication lease" err))
  | Ok rawLease =>
      try! tag := send Pool (Sql.RenewLease intentID expectedRevision leaseUntil rawLease)
        orelse wrap "renew publication lease" in
      Ret (if tag =? 0 then Err ErrVersionConflict else Ok tt)
  end.

(** ** Outcomes *)

Definition updateOperationalIntentPublication (db : session) (publication : OperationalIntentPublication)
    (expectedRevision : Z) : prog pgE (outcome unit) :=
  let publication := settle_publication publication expectedRevision in
  match json_Marshal publication with
  | Err err => Ret (Err (wrap "encode publication" err))
  | Ok raw =>
      try! tag := send db (Sql.UpdatePublication publication expectedRevision raw) orelse wrap "update publication" in
      Ret (if tag =? 0 then Err ErrVersionConflict else Ok tt)
  end.

Definition pg_UpdateOperationalIntentPublication (publication : OperationalIntentPublication) (expectedRevision : Z)
    : prog pgE (outcome unit) :=
  updateOperationalIntentPublication Pool publication expectedRevision.

Definition enqueuePeerNotification (notification : PeerNotification) : prog pgE (outcome unit) :=
  match json_Marshal notification with
  | Err err => Ret (Err (wrap "encode peer notification" err))
  | Ok raw =>
      try! _ := send Tx (Sql.InsertNotification notification raw) orelse wrap "enqueue peer notification" in
      Ret (Ok tt)
  end.

Definition enqueuePeerNotifications (notifications : list PeerNotification) : prog pgE (outcome unit) :=
  for_each enqueuePeerNotification notifications.

Definition pg_ConfirmOperationalIntentPublication (publication : OperationalIntentPublication) (expectedRevision : Z)
    (notifications : list PeerNotification) : prog pgE (outcome unit) :=
  transaction "begin publication confirmation" (
    try! _ := updateOperationalIntentPublication Tx publication expectedRevision orelse id in
    try! _ := enqueuePeerNotifications notifications orelse id in
    commit "commit publication confirmation" tt).

(** ** Peer notifications *)

Definition writePeerNotification (notification : PeerNotification) : prog pgE (outcome unit) :=
  match json_Marshal notification with
  | Err err => Ret (Err (wrap "encode peer notification" err))
  | Ok raw =>
      try! _ := send Tx (Sql.WriteNotification notification raw) orelse wrap "write peer notification" in
      Ret (Ok tt)
  end.

Definition read_notification (row : string * Z) : outcome PeerNotification :=
  match decode_column "decode peer notification" row.1 with
  | Ok notification => Ok (notification <| Notification_Revision := row.2 |>)
  | Err err => Err err
  end.

Definition readPeerNotifications (rows : rows (string * Z)) : outcome (list PeerNotification) :=
  read_rows "scan peer notification" (wrap "iterate peer notifications") read_notification rows.

Definition pg_ClaimDuePeerNotifications (now leaseUntil : Time) (limit : Z)
    : prog pgE (outcome (list PeerNotification)) :=
  if limit <=? 0 then Ret (Ok []) else
  transaction "begin peer notification claim" (
    try! rows := send Tx (Sql.SelectDueNotifications now limit) orelse wrap "select due peer notifications" in
    match readPeerNotifications rows with
    | Err err => Ret (Err err)
    | Ok notifications =>
        let notifications := map (claim_notification now leaseUntil) notifications in
        try! _ := for_each writePeerNotification notifications orelse id in
        commit "commit peer notification claim" notifications
    end).

Definition pg_UpdatePeerNotification (notification : PeerNotification) (expectedRevision : Z)
    : prog pgE (outcome unit) :=
  let notification := notification <| Notification_Revision := int64_succ expectedRevision |>
                                   <| Notification_LeaseUntil := None |> in
  match json_Marshal notification with
  | Err err => Ret (Err (wrap "encode peer notification" err))
  | Ok raw =>
      try! tag := send Pool (Sql.UpdateNotification notification expectedRevision raw)
        orelse wrap "update peer notification" in
      Ret (if tag =? 0 then Err ErrVersionConflict else Ok tt)
  end.

Definition pg_RecordReceivedPeerNotification (notification : ReceivedPeerNotification) : prog pgE (outcome unit) :=
  match json_Marshal notification with
  | Err err => Ret (Err (wrap "encode received peer notification" err))
  | Ok raw =>
      try! _ := send Pool (Sql.InsertReceived notification raw) orelse wrap "record received peer notification" in
      Ret (Ok tt)
  end.

Definition pg_ListReceivedPeerNotifications (intentID : string)
    : prog pgE (outcome (list ReceivedPeerNotification)) :=
  try! rows := send Pool (Sql.SelectReceived intentID) orelse wrap "list received peer notifications" in
  Ret (read_rows "scan received peer notification" (wrap "iterate received peer notifications")
         (decode_column "decode received peer notification") rows).
End publications.

(** ** The methods that the type overrides *)

Section methods.
Context {RT : Runtime} {JS : StoredJson}.

Definition postgres_method {A} (e : Durable.storeE A) : option (prog pgE (outcome A)) :=
  match e in Durable.storeE A return option (prog pgE (outcome A)) with
  | Durable.FindCandidates query => Some (pg_FindCandidates query)
  | Durable.CreateOperationalIntent intent => Some (pg_CreateOperationalIntent intent)
  | Durable.UpdateOperationalIntent intent revision => Some (pg_UpdateOperationalIntent intent revision)
  | Durable.ActivateOperationalIntent intent revision => Some (pg_ActivateOperationalIntent intent revision)
  | Durable.AcceptOperationalIntent intent revision => Some (pg_AcceptOperationalIntent intent revision)
  | Durable.GetOperationalIntent intentID => Some (pg_GetOperationalIntent intentID)
  | Durable.GetOperationalIntentVersion intentID version => Some (pg_GetOperationalIntentVersion intentID version)
  | Durable.ListOperationalIntents aircraftID => Some (pg_ListOperationalIntents aircraftID)
  | Durable.ListOperationalIntentVersions intentID => Some (pg_ListOperationalIntentVersions intentID)
  | Durable.RecordOperationalVolume volume => Some (pg_RecordOperationalVolume volume)
  | Durable.ReplaceOperationalVolumes intentID version volumes =>
      Some (pg_ReplaceOperationalVolumes intentID version volumes)
  | Durable.ReplaceOperationalIntent version revision intent volumes =>
      Some (pg_ReplaceOperationalIntent version revision intent volumes)
  | Durable.ListOperationalVolumes intentID => Some (pg_ListOperationalVolumes intentID)
  | Durable.RecordConflictFinding finding => Some (pg_RecordConflictFinding finding)
  | Durable.ListConflictFindings intentID version => Some (pg_ListConflictFindings intentID version)
  | Durable.ReplaceConflictFindings intentID version ruleVersion findings =>
      Some (pg_ReplaceConflictFindings intentID version ruleVersion findings)
  | Durable.AcceptOperationalIntentAndRequestPublication intent revision publication =>
      Some (pg_AcceptOperationalIntentAndRequestPublication intent revision publication)
  | Durable.UpdateOperationalIntentAndRequestPublication intent revision publication =>
      Some (pg_UpdateOperationalIntentAndRequestPublication intent revision publication)
  | Durable.RequestOperationalIntentPublication publication =>
      Some (pg_RequestOperationalIntentPublication publication)
  | Durable.RequestOperationalIntentPublicationIfCurrent publication version revision status =>
      Some (pg_RequestOperationalIntentPublicationIfCurrent publication version revision status)
  | Durable.GetOperationalIntentPublication intentID => Some (pg_GetOperationalIntentPublication intentID)
  | Durable.ClaimOperationalIntentPublication intentID now leaseUntil =>
      Some (pg_ClaimOperationalIntentPublication intentID now leaseUntil)
  | Durable.ClaimDueOperationalIntentPublications now leaseUntil limit =>
      Some (pg_ClaimDueOperationalIntentPublications now leaseUntil limit)
  | Durable.RenewOperationalIntentPublicationLease intentID revision leaseUntil =>
      Some (pg_RenewOperationalIntentPublicationLease intentID revision leaseUntil)
  | Durable.UpdateOperationalIntentPublication publication revision =>
      Some (pg_UpdateOperationalIntentPublication publication revision)
  | Durable.ConfirmOperationalIntentPublication publication revision notifications =>
      Some (pg_ConfirmOperationalIntentPublication publication revision notifications)
  | Durable.ClaimDuePeerNotifications now leaseUntil limit =>
      Some (pg_ClaimDuePeerNotifications now leaseUntil limit)
  | Durable.UpdatePeerNotification notification revision => Some (pg_UpdatePeerNotification notification revision)
  | Durable.RecordReceivedPeerNotification notification => Some (pg_RecordReceivedPeerNotification notification)
  | Durable.CreateAircraft item => Some (pg_CreateAircraft item)
  | Durable.GetAircraft aircraftID => Some (pg_GetAircraft aircraftID)
  | Durable.ListAircraft => Some pg_ListAircraft
  | Durable.CreateFlightRecord flight => Some (pg_CreateFlightRecord flight)
  | Durable.UpdateFlightRecord flight status => Some (pg_UpdateFlightRecord flight status)
  | Durable.GetFlightRecord flightID => Some (pg_GetFlightRecord flightID)
  | Durable.ListFlightRecords aircraftID => Some (pg_ListFlightRecords aircraftID)
  | Durable.CreateMission mission => Some (pg_CreateMission mission)
  | Durable.CreateMissionForPlannedFlight mission => Some (pg_CreateMissionForPlannedFlight mission)
  | Durable.GetMission missionID => Some (pg_GetMission missionID)
  | Durable.GetMissionByIdempotencyKey key => Some (pg_GetMissionByIdempotencyKey key)
  | Durable.GetCurrentMissionForFlight flightID => Some (pg_GetCurrentMissionForFlight flightID)
  | Durable.GetCurrentMissionForIntent aircraftID intentID version =>
      Some (pg_GetCurrentMissionForIntent aircraftID intentID version)
  | Durable.GetDeployedMissionForActiveFlight aircraftID intentID version =>
      Some (pg_GetDeployedMissionForActiveFlight aircraftID intentID version)
  | Durable.CheckMissionCoverage volume items => Some (pg_CheckMissionCoverage volume items)
  | Durable.CreateMissionDeployment deployment => Some (pg_CreateMissionDeployment deployment)
  | Durable.CreateMissionDeploymentForPlannedFlight deployment =>
      Some (pg_CreateMissionDeploymentForPlannedFlight deployment)
  | Durable.GetMissionDeployment deploymentID => Some (pg_GetMissionDeployment deploymentID)
  | Durable.GetMissionDeploymentByIdempotencyKey key => Some (pg_GetMissionDeploymentByIdempotencyKey key)
  | Durable.GetPreviousMissionDeploymentForAircraft aircraftID deploymentID =>
      Some (pg_GetPreviousMissionDeploymentForAircraft aircraftID deploymentID)
  | Durable.GetCurrentMissionDeploymentForFlight flightID => Some (pg_GetCurrentMissionDeploymentForFlight flightID)
  | Durable.UpdateMissionDeployment deployment revision => Some (pg_UpdateMissionDeployment deployment revision)
  | Durable.StartFlightWithCurrentMissionDeployment flight status =>
      Some (pg_StartFlightWithCurrentMissionDeployment flight status)
  | _ => None
  end.
End methods.
