(* ===== verification/MemoryStore.v ===== *)
(** * The in-memory store as an implementation of the interface *)

From S2P Require Import Prelude GoRuntime GoRange Domain Errors Program MemoryState MemoryFleet MemoryIntents MemoryPublications MemoryMissions MemorySpatial DurableStore.
From stdpp Require Import options.

Section store.
Context {RT : Runtime}.

#[global] Instance memory_store : DurableStore Store := λ A e s,
  match e in Durable.storeE A return outcome A * Store with
  | Durable.FindCandidates query => (FindCandidates query s, s)
  | Durable.CreateOperationalIntent intent => CreateOperationalIntent intent s
  | Durable.UpdateOperationalIntent intent expectedRevision =>
      UpdateOperationalIntent intent expectedRevision s
  | Durable.ActivateOperationalIntent intent expectedRevision =>
      ActivateOperationalIntent intent expectedRevision s
  | Durable.AcceptOperationalIntent intent expectedRevision =>
      AcceptOperationalIntent intent expectedRevision s
  | Durable.GetOperationalIntent intentID => (GetOperationalIntent intentID s, s)
  | Durable.GetOperationalIntentVersion intentID version =>
      (GetOperationalIntentVersion intentID version s, s)
  | Durable.ListOperationalIntents aircraftID => (ListOperationalIntents aircraftID s, s)
  | Durable.ListOperationalIntentVersions intentID =>
      (ListOperationalIntentVersions intentID s, s)
  | Durable.RecordOperationalVolume volume => RecordOperationalVolume volume s
  | Durable.ReplaceOperationalVolumes intentID intentVersion volumes =>
      ReplaceOperationalVolumes intentID intentVersion volumes s
  | Durable.ReplaceOperationalIntent expectedVersion expectedRevision intent volumes =>
      ReplaceOperationalIntent expectedVersion expectedRevision intent volumes s
  | Durable.ListOperationalVolumes intentID => (ListOperationalVolumes intentID s, s)
  | Durable.RecordConflictFinding finding => RecordConflictFinding finding s
  | Durable.ListConflictFindings intentID intentVersion =>
      (ListConflictFindings intentID intentVersion s, s)
  | Durable.ReplaceConflictFindings intentID intentVersion ruleVersion findings =>
      ReplaceConflictFindings intentID intentVersion ruleVersion findings s
  | Durable.AcceptOperationalIntentAndRequestPublication intent expectedRevision publication =>
      AcceptOperationalIntentAndRequestPublication intent expectedRevision publication s
  | Durable.UpdateOperationalIntentAndRequestPublication intent expectedRevision publication =>
      UpdateOperationalIntentAndRequestPublication intent expectedRevision publication s
  | Durable.RequestOperationalIntentPublication publication =>
      RequestOperationalIntentPublication publication s
  | Durable.RequestOperationalIntentPublicationIfCurrent publication expectedIntentVersion expectedIntentRevision expectedStatus =>
      RequestOperationalIntentPublicationIfCurrent publication expectedIntentVersion expectedIntentRevision expectedStatus s
  | Durable.GetOperationalIntentPublication intentID =>
      (GetOperationalIntentPublication intentID s, s)
  | Durable.ClaimOperationalIntentPublication intentID now leaseUntil =>
      ClaimOperationalIntentPublication intentID now leaseUntil s
  | Durable.ClaimDueOperationalIntentPublications now leaseUntil limit =>
      ClaimDueOperationalIntentPublications now leaseUntil limit s
  | Durable.RenewOperationalIntentPublicationLease intentID expectedRevision leaseUntil =>
      RenewOperationalIntentPublicationLease intentID expectedRevision leaseUntil s
  | Durable.UpdateOperationalIntentPublication publication expectedRevision =>
      UpdateOperationalIntentPublication publication expectedRevision s
  | Durable.ConfirmOperationalIntentPublication publication expectedRevision notifications =>
      ConfirmOperationalIntentPublication publication expectedRevision notifications s
  | Durable.ClaimDuePeerNotifications now leaseUntil limit =>
      ClaimDuePeerNotifications now leaseUntil limit s
  | Durable.UpdatePeerNotification notification expectedRevision =>
      UpdatePeerNotification notification expectedRevision s
  | Durable.RecordReceivedPeerNotification notification =>
      RecordReceivedPeerNotification notification s
  | Durable.UpsertOperator operator => UpsertOperator operator s
  | Durable.GetOperator operatorID => (GetOperator operatorID s, s)
  | Durable.ListOperators => (ListOperators s, s)
  | Durable.CreateAircraft item => CreateAircraft item s
  | Durable.GetAircraft aircraftID => (GetAircraft aircraftID s, s)
  | Durable.ListAircraft => (ListAircraft s, s)
  | Durable.CreateBattery battery => CreateBattery battery s
  | Durable.GetBattery batteryID => (GetBattery batteryID s, s)
  | Durable.ListBatteries => (ListBatteries s, s)
  | Durable.RecordBatteryInstallation installation => RecordBatteryInstallation installation s
  | Durable.GetActiveBatteryInstallation aircraftID =>
      (GetActiveBatteryInstallation aircraftID s, s)
  | Durable.UpsertAircraftOperatingProfile profile => UpsertAircraftOperatingProfile profile s
  | Durable.GetAircraftOperatingProfile aircraftID =>
      (GetAircraftOperatingProfile aircraftID s, s)
  | Durable.ListOperatingLimits aircraftID => (ListOperatingLimits aircraftID s, s)
  | Durable.UpsertOperatingLimit limit => UpsertOperatingLimit limit s
  | Durable.RecordMaintenanceEvent event => RecordMaintenanceEvent event s
  | Durable.ListMaintenanceEvents aircraftID => (ListMaintenanceEvents aircraftID s, s)
  | Durable.UpsertRegulatoryAuthorization authorization =>
      UpsertRegulatoryAuthorization authorization s
  | Durable.GetRegulatoryAuthorization authorizationID =>
      (GetRegulatoryAuthorization authorizationID s, s)
  | Durable.ListRegulatoryAuthorizations operatorID =>
      (ListRegulatoryAuthorizations operatorID s, s)
  | Durable.RecordPreflightCheck check => RecordPreflightCheck check s
  | Durable.ListPreflightChecks intentID => (ListPreflightChecks intentID s, s)
  | Durable.CreateFlightRecord flight => CreateFlightRecord flight s
  | Durable.UpdateFlightRecord flight expectedStatus => UpdateFlightRecord flight expectedStatus s
  | Durable.GetFlightRecord flightID => (GetFlightRecord flightID s, s)
  | Durable.ListFlightRecords aircraftID => (ListFlightRecords aircraftID s, s)
  | Durable.CreateMission mission => CreateMission mission s
  | Durable.CreateMissionForPlannedFlight mission => CreateMissionForPlannedFlight mission s
  | Durable.GetMission missionID => (GetMission missionID s, s)
  | Durable.GetMissionByIdempotencyKey key => (GetMissionByIdempotencyKey key s, s)
  | Durable.GetCurrentMissionForFlight flightID => (GetCurrentMissionForFlight flightID s, s)
  | Durable.GetCurrentMissionForIntent aircraftID intentID intentVersion =>
      (GetCurrentMissionForIntent aircraftID intentID intentVersion s, s)
  | Durable.GetDeployedMissionForActiveFlight aircraftID intentID intentVersion =>
      (GetDeployedMissionForActiveFlight aircraftID intentID intentVersion s, s)
  | Durable.CheckMissionCoverage volume items => (CheckMissionCoverage volume items, s)
  | Durable.CreateMissionDeployment deployment => CreateMissionDeployment deployment s
  | Durable.CreateMissionDeploymentForPlannedFlight deployment =>
      CreateMissionDeploymentForPlannedFlight deployment s
  | Durable.GetMissionDeployment deploymentID => (GetMissionDeployment deploymentID s, s)
  | Durable.GetMissionDeploymentByIdempotencyKey key =>
      (GetMissionDeploymentByIdempotencyKey key s, s)
  | Durable.GetPreviousMissionDeploymentForAircraft aircraftID deploymentID =>
      (GetPreviousMissionDeploymentForAircraft aircraftID deploymentID s, s)
  | Durable.GetCurrentMissionDeploymentForFlight flightID =>
      (GetCurrentMissionDeploymentForFlight flightID s, s)
  | Durable.UpdateMissionDeployment deployment expectedRevision =>
      UpdateMissionDeployment deployment expectedRevision s
  | Durable.StartFlightWithCurrentMissionDeployment flight expectedStatus =>
      StartFlightWithCurrentMissionDeployment flight expectedStatus s
  | Durable.RecordConformanceEvent event => RecordConformanceEvent event s
  | Durable.ListConformanceEvents flightID => (ListConformanceEvents flightID s, s)
  | Durable.UpsertConformanceSummary summary => UpsertConformanceSummary summary s
  | Durable.GetConformanceSummary intentID => (GetConformanceSummary intentID s, s)
  | Durable.ListConformanceSummaries intentID => (ListConformanceSummaries intentID s, s)
  | Durable.RecordEvidence record => RecordEvidence record s
  | Durable.ListEvidence intentID => (ListEvidence intentID s, s)
  | Durable.RecordReportabilityReview review => RecordReportabilityReview review s
  | Durable.ListReportabilityReviews intentID => (ListReportabilityReviews intentID s, s)
  | Durable.RecordComplianceFinding finding => RecordComplianceFinding finding s
  | Durable.ListComplianceFindings subjectType subjectID =>
      (ListComplianceFindings subjectType subjectID s, s)
  | Durable.ListComplianceFindingsForIntent intentID =>
      (ListComplianceFindingsForIntent intentID s, s)
  | Durable.UpsertOperationsPersonnel person => UpsertOperationsPersonnel person s
  | Durable.GetOperationsPersonnel personID => (GetOperationsPersonnel personID s, s)
  | Durable.RecordPersonnelAssignment assignment => RecordPersonnelAssignment assignment s
  | Durable.ListPersonnelAssignments intentID => (ListPersonnelAssignments intentID s, s)
  end.

(** One call of one method. *)
Definition step (s s' : Store) : Prop := ∃ A (e : Durable.storeE A), (handle_store e s).2 = s'.

Definition reachable (s : Store) : Prop := rtc step NewStore s.

Lemma handled_step A (e : Durable.storeE A) s r s' : handle_store e s = (r, s') → step s s'.
Proof. intros Hok. exists A, e. by rewrite Hok. Qed.

(** The store after a list of calls. *)
Inductive store_call : Type :=
  | StoreCall (A : Type) (e : Durable.storeE A).

Definition after (calls : list store_call) (s : Store) : Store :=
  foldl (λ s c, match c with StoreCall _ e => (handle_store e s).2 end) s calls.

Lemma after_steps calls s : rtc step s (after calls s).
Proof.
  revert s. induction calls as [|[A e] calls IH]; intros s; cbn; [done|].
  eapply rtc_l; [by exists A, e|]. apply IH.
Qed.
End store.

Arguments StoreCall {A} e.
