(* ===== verification/MemoryInvariant.v ===== *)
(** * The in-memory store: its data invariant

    What holds of every store the methods can build: records lie under their
    own key, the idempotency indexes list exactly the records they index,
    deployments are numbered in order of creation, the plans of a flight are
    numbered 1, 2, 3, ..., and an aircraft has at most one installed battery. *)

From S2P Require Import Prelude GoRuntime GoRange Domain Errors Program MemoryState MemoryFleet MemoryIntents MemoryPublications MemoryMissions DurableStore MemoryStore.
From stdpp Require Import options.

(** ** The invariant, component by component *)

(** The index lists exactly the records of [m], under their idempotency key. *)
Definition indexed {V} (key : V → string) (index : gmap string string) (m : gmap string V) : Prop :=
  ∀ k id, index !! k = Some id ↔ ∃ v, m !! id = Some v ∧ key v = k.

(** The plans of one flight have distinct versions, without a gap from 1. *)
Record versioned (m : gmap string Mission) : Prop := {
  versioned_range id v : m !! id = Some v → 1 ≤ Mission_Version v ≤ Z.of_nat (size m);
  versioned_unique id id' v v' :
    m !! id = Some v → m !! id' = Some v' →
    Mission_FlightID v = Mission_FlightID v' → Mission_Version v = Mission_Version v' → id = id';
  versioned_prev id v :
    m !! id = Some v → Mission_Version v ≠ 1 →
    ∃ id' v', m !! id' = Some v' ∧ Mission_FlightID v' = Mission_FlightID v
              ∧ Mission_Version v' = Mission_Version v - 1;
}.

Record missions_wf (m : gmap string Mission) (index : gmap string string) : Prop := {
  missions_keyed : keyed Mission_ID m;
  missions_indexed : indexed Mission_IdempotencyKey index m;
  missions_versioned : Z.of_nat (size m) < 2 ^ 63 → versioned m;
}.

(** Deployments are numbered in order of creation. *)
Record ordered (m : gmap string MissionDeployment) (order : gmap string Z) : Prop := {
  ordered_range id o : order !! id = Some o → 1 ≤ o ≤ Z.of_nat (size m);
  ordered_inj id id' o : order !! id = Some o → order !! id' = Some o → id = id';
}.

Record deployments_wf (m : gmap string MissionDeployment) (index : gmap string string)
    (order : gmap string Z) (next : Z) : Prop := {
  deployments_keyed : keyed Deployment_ID m;
  deployments_indexed : indexed Deployment_IdempotencyKey index m;
  deployments_order_dom id : is_Some (order !! id) ↔ is_Some (m !! id);
  deployments_next : next = wrap_uint64 (Z.of_nat (size m));
  deployments_ordered : Z.of_nat (size m) < 2 ^ 64 → ordered m order;
}.

(** An identifier is recorded once; one battery is in an aircraft at a time. *)
Record installations_wf (l : list BatteryInstallation) : Prop := {
  installations_nodup : NoDup (Installation_ID <$> l);
  installations_one x y :
    x ∈ l → y ∈ l → Installation_AircraftID x = Installation_AircraftID y →
    Installation_RemovedAt x = None → Installation_RemovedAt y = None → x = y;
}.

Record fleet_wf (s : Store) : Prop := {
  operators_keyed : keyed Operator_ID (operators s);
  aircraft_keyed : keyed Aircraft_ID (aircraft s);
  batteries_keyed : keyed Battery_ID (batteries s);
  profiles_keyed : keyed Profile_AircraftID (operatingProfiles s);
  limits_keyed : keyed Limit_ID (operatingLimits s);
  authorizations_keyed : keyed Authorization_ID (authorizations s);
  personnel_keyed : keyed Personnel_ID (personnel s);
}.

Record records_wf (s : Store) : Prop := {
  checks_nodup : NoDup (PreflightCheck_ID <$> preflightChecks s);
  events_nodup : NoDup (ConformanceEvent_ID <$> conformanceEvents s);
  compliance_nodup : NoDup (ComplianceFinding_ID <$> complianceFindings s);
  summaries_keyed : keyed conformanceSummaryKey (conformanceSummaries s);
  evidence_keyed : keyed EvidenceRecord_ID (evidenceRecords s);
}.

Record outbox_wf (s : Store) : Prop := {
  publications_keyed : keyed Publication_IntentID (publications s);
  notifications_keyed : keyed Notification_ID (peerNotifications s);
  received_keyed : keyed Received_ID (receivedPeerNotifications s);
}.

Record store_wf (s : Store) : Prop := {
  wf_fleet : fleet_wf s;
  wf_installations : installations_wf (batteryInstallations s);
  wf_intents : keyed intent_key (operationalIntents s);
  wf_volumes : keyed operationalVolumeKey (operationalVolumes s);
  wf_flights : keyed Flight_ID (flightRecords s);
  wf_missions : missions_wf (missions s) (missionByIdempotencyKey s);
  wf_deployments :
    deployments_wf (missionDeployments s) (deploymentByIdempotencyKey s)
      (deploymentCreationOrder s) (nextDeploymentOrder s);
  wf_records : records_wf s;
  wf_outbox : outbox_wf s;
}.

(** ** Lemmas *)

Lemma keyed_foldl {V X} (key : V → string) (f : gmap string V → X → gmap string V) l m :
  (∀ m x, keyed key m → keyed key (f m x)) → keyed key m → keyed key (foldl f m l).
Proof. intros Hf. revert m. induction l as [|x l IH]; cbn; auto. Qed.

(** An existing record rewritten under its own key. *)
Lemma keyed_alter {V} (key : V → string) (m : gmap string V) k v v' :
  keyed key m → m !! k = Some v → key v' = key v → keyed key (<[k := v']> m).
Proof. intros Hm Hk Heq. apply keyed_insert; [done|]. rewrite Heq. by apply Hm in Hk. Qed.

Lemma clonePublication_id p : clonePublication p = p.
Proof. by destruct p. Qed.

Lemma cloneMission_id m : cloneMission m = m.
Proof. by destruct m. Qed.

(** *** Replacing or appending under an identifier *)

Section replace_or_append.
Context {A : Type} (key : A → string).
Let same (x y : A) : bool := key x =s= key y.

Lemma replace_or_append_keys x l :
  key <$> replace_or_append same x l
    = if bool_decide (key x ∈ key <$> l) then key <$> l else (key <$> l) ++ [key x].
Proof using Type.
  induction l as [|y l IH]; [done|]. cbn [replace_or_append]. unfold same at 1.
  destruct (String.eqb_spec (key y) (key x)) as [Hyx|Hyx].
  - rewrite bool_decide_true by (rewrite fmap_cons, Hyx; by left). by rewrite !fmap_cons, Hyx.
  - rewrite !fmap_cons, IH. repeat case_bool_decide; try done.
    + exfalso. match goal with H : ¬ _ |- _ => apply H end. by right.
    + exfalso. match goal with H : key x ∈ _ :: _ |- _ => apply elem_of_cons in H as [?|?] end;
        [congruence|done].
Qed.

Lemma NoDup_replace_or_append x l :
  NoDup (key <$> l) → NoDup (key <$> replace_or_append same x l).
Proof using Type.
  intros Hl. rewrite replace_or_append_keys. case_bool_decide as Hx; [done|].
  apply NoDup_app. split; [done|]. split; [|apply NoDup_singleton].
  intros k Hk ->%list_elem_of_singleton. done.
Qed.

(** The recorded value is the one found under its identifier; the others stay. *)
Lemma elem_of_replace_or_append x y l :
  NoDup (key <$> l) →
  y ∈ replace_or_append same x l ↔ y = x ∨ y ∈ l ∧ key y ≠ key x.
Proof using Type.
  induction l as [|z l IH]; cbn [replace_or_append]; intros Hl.
  - rewrite list_elem_of_singleton, elem_of_nil. tauto.
  - rewrite fmap_cons in Hl. apply NoDup_cons in Hl as [Hz Hl]. unfold same at 1.
    destruct (String.eqb_spec (key z) (key x)) as [Hzx|Hzx].
    + rewrite !elem_of_cons. split; [|naive_solver]. intros [->|Hy]; [by left|]. right.
      split; [by right|]. rewrite <- Hzx. intros Hyz. apply Hz. rewrite <- Hyz.
      by apply list_elem_of_fmap_2.
    + rewrite elem_of_cons, IH by done. rewrite elem_of_cons. naive_solver.
Qed.
End replace_or_append.

(** *** Indexes *)

Lemma indexed_fresh {V} (key : V → string) index (m : gmap string V) k :
  indexed key index m → index !! k = None → ∀ id v, m !! id = Some v → key v ≠ k.
Proof.
  intros Hix Hk id v Hv Heq. assert (index !! k = Some id) as H by (apply Hix; eauto). congruence.
Qed.

Lemma indexed_insert {V} (key : V → string) index (m : gmap string V) id k0 v :
  indexed key index m → m !! id = None → index !! k0 = None → key v = k0 →
  indexed key (<[k0 := id]> index) (<[id := v]> m).
Proof.
  intros Hix Hid Hk <- k id'. rewrite lookup_insert_Some. split.
  - intros [[<- <-]|[Hne H]]; [exists v; by rewrite lookup_insert_eq|].
    apply Hix in H as (v' & Hv' & <-). exists v'. split; [|done].
    rewrite lookup_insert_ne; [done|]. intros ->. congruence.
  - intros (v' & Hv' & <-). apply lookup_insert_Some in Hv' as [[-> ->]|[Hne Hv']]; [by left|].
    right. split; [|apply Hix; eauto]. intros Heq.
    by eapply (indexed_fresh key index m (key v)) in Hv'.
Qed.

(** A record rewritten without changing its key keeps its place in the index. *)
Lemma indexed_alter {V} (key : V → string) index (m : gmap string V) id v v' :
  indexed key index m → m !! id = Some v → key v' = key v → indexed key index (<[id := v']> m).
Proof.
  intros Hix Hid Heq k id'. rewrite (Hix k id'). split.
  - intros (w & Hw & <-). destruct (decide (id' = id)) as [->|Hne].
    + exists v'. rewrite lookup_insert_eq. by simplify_eq.
    + exists w. by rewrite lookup_insert_ne.
  - intros (w & Hw & <-). apply lookup_insert_Some in Hw as [[<- <-]|[Hne Hw]]; eauto.
Qed.

Section invariant.
Context {RT : Runtime}.

(** ** Numbering of the plans of a flight *)

Lemma next_version_fold flightID l v0 :
  1 ≤ v0 →
  (∀ m, m ∈ l → in_int64 (Mission_Version m + 1)) →
  let v := foldl (next_version_step flightID) v0 l in
  v0 ≤ v ∧ (∀ m, m ∈ l → Mission_FlightID m = flightID → Mission_Version m < v)
  ∧ (v = v0 ∨ ∃ m, m ∈ l ∧ Mission_FlightID m = flightID ∧ v = Mission_Version m + 1).
Proof using Type.
  revert v0. induction l as [|m l IH]; intros v0 Hv0 Hb; cbn.
  { split; [lia|]. split; [|by left]. intros m Hm. by apply elem_of_nil in Hm. }
  assert (in_int64 (Mission_Version m + 1)) as Hm by (apply Hb; by left).
  set (v1 := next_version_step flightID v0 m).
  assert (v0 ≤ v1 ∧ (Mission_FlightID m = flightID → Mission_Version m < v1)
          ∧ (v1 = v0 ∨ Mission_FlightID m = flightID ∧ v1 = Mission_Version m + 1)) as (H0 & Hlt & Heq).
  { unfold v1, next_version_step. unfold in_int64 in Hm.
    destruct (String.eqb_spec (Mission_FlightID m) flightID); cbn;
      [destruct (Z.leb_spec v0 (Mission_Version m))|]; rewrite ?int64_succ_small by lia;
      repeat split; try lia; auto; congruence. }
  destruct (IH v1) as (IH1 & IH2 & IH3); [lia|intros ? ?; apply Hb; by right|].
  split; [lia|]. split.
  - intros m' [->|Hm']%elem_of_cons Hf; [specialize (Hlt Hf); lia|auto].
  - destruct IH3 as [IH3|(m' & Hm' & Hf & Hv)].
    + destruct Heq as [Heq|[Hf Heq]]; [left; congruence|]. right. exists m.
      split; [by left|]. split; [done|]. congruence.
    + right. exists m'. split; [by right|]. done.
Qed.

(** The next version is one more than every version of the flight. *)
Lemma next_mission_version_spec s flightID :
  (∀ id m, missions s !! id = Some m → 1 ≤ Mission_Version m ≤ Z.of_nat (size (missions s))) →
  Z.of_nat (size (missions s)) < 2 ^ 63 - 1 →
  let v := next_mission_version s flightID in
  1 ≤ v
  ∧ (∀ id m, missions s !! id = Some m → Mission_FlightID m = flightID → Mission_Version m < v)
  ∧ (v = 1 ∨ ∃ id m, missions s !! id = Some m ∧ Mission_FlightID m = flightID
                      ∧ v = Mission_Version m + 1).
Proof using Type.
  intros Hr Hsz.
  destruct (next_version_fold flightID (range_values (missions s)) 1) as (H1 & H2 & H3); [lia| |].
  { intros m [id Hm]%elem_of_range_values. apply Hr in Hm. unfold in_int64. lia. }
  split; [done|]. split.
  - intros id m Hm Hf. apply H2; [|done]. apply elem_of_range_values. eauto.
  - destruct H3 as [|(m & [id Hm]%elem_of_range_values & Hf & Hv)]; [by left|]. right. eauto 10.
Qed.

Lemma versioned_insert s m id :
  versioned (missions s) → missions s !! id = None →
  Z.of_nat (size (missions s)) < 2 ^ 63 - 1 →
  Mission_Version m = next_mission_version s (Mission_FlightID m) →
  versioned (<[id := m]> (missions s)).
Proof using Type.
  intros [Hr Hu Hp] Hid Hsz Hv.
  pose proof (next_mission_version_spec s (Mission_FlightID m) Hr Hsz) as (H1 & Hmax & Hlast).
  rewrite <- Hv in H1, Hmax, Hlast.
  split; rewrite ?map_size_insert_None by done.
  - intros id' v [[<- <-]|[Hne Hv']]%lookup_insert_Some; [|specialize (Hr _ _ Hv'); lia].
    destruct Hlast as [->|(id' & v & Hv' & _ & ->)]; [lia|]. specialize (Hr _ _ Hv'). lia.
  - intros id1 id2 v1 v2 [[<- <-]|[Hne1 Hv1]]%lookup_insert_Some
      [[<- <-]|[Hne2 Hv2]]%lookup_insert_Some Hf Hvv; [done| | |eauto].
    + specialize (Hmax _ _ Hv2 (eq_sym Hf)). lia.
    + specialize (Hmax _ _ Hv1 Hf). lia.
  - intros id' v [[<- <-]|[Hne Hv']]%lookup_insert_Some Hn1.
    + destruct Hlast as [Hl|(id' & v & Hv' & Hf & Hl)]; [lia|]. exists id', v.
      rewrite lookup_insert_ne by congruence. split; [done|]. split; [done|lia].
    + destruct (Hp _ _ Hv' Hn1) as (id2 & v2 & Hv2 & Hf & Hvv). exists id2, v2.
      rewrite lookup_insert_ne by congruence. done.
Qed.

Lemma createMissionLocked_wf mission s :
  missions_wf (missions s) (missionByIdempotencyKey s) →
  let s' := (createMissionLocked mission s).2 in
  missions_wf (missions s') (missionByIdempotencyKey s').
Proof using Type.
  intros [Hk Hix Hv]. unfold createMissionLocked. rewrite !cloneMission_id.
  destruct (missionByIdempotencyKey s !! _) eqn:Hkey; [by branches|].
  destruct (missions s !! Mission_ID mission) eqn:Hid; [by branches|]. cbn. split.
  - by apply keyed_insert.
  - by apply indexed_insert.
  - rewrite map_size_insert_None by done. intros Hsz. apply versioned_insert; [|done|lia|done].
    apply Hv. lia.
Qed.

(** ** Order of deployments *)

Lemma ordered_insert (m : gmap string MissionDeployment) order id d :
  ordered m order → m !! id = None → (is_Some (order !! id) ↔ is_Some (m !! id)) →
  ordered (<[id := d]> m) (<[id := Z.of_nat (size m) + 1]> order).
Proof using Type.
  intros [Hr Hi] Hid Hdom. split; rewrite ?map_size_insert_None by done.
  - intros id' o [[<- <-]|[_ Ho]]%lookup_insert_Some; [lia|]. specialize (Hr _ _ Ho). lia.
  - intros id1 id2 o [[<- <-]|[Hne1 Ho1]]%lookup_insert_Some
      [[<- Ho]|[Hne2 Ho2]]%lookup_insert_Some; [done| | |eauto].
    + specialize (Hr _ _ Ho2). lia.
    + subst o. specialize (Hr _ _ Ho1). lia.
Qed.

Lemma createMissionDeploymentLocked_wf deployment s :
  deployments_wf (missionDeployments s) (deploymentByIdempotencyKey s)
    (deploymentCreationOrder s) (nextDeploymentOrder s) →
  let s' := (createMissionDeploymentLocked deployment s).2 in
  deployments_wf (missionDeployments s') (deploymentByIdempotencyKey s')
    (deploymentCreationOrder s') (nextDeploymentOrder s').
Proof using Type.
  intros [Hk Hix Hdom Hnext Hord]. unfold createMissionDeploymentLocked.
  destruct (deploymentByIdempotencyKey s !! _) eqn:Hkey; [by branches|].
  destruct (missionDeployments s !! Deployment_ID deployment) eqn:Hid; [by branches|]. cbn.
  set (d := deployment <| Deployment_Revision := 0 |>).
  assert (uint64_succ (nextDeploymentOrder s)
          = wrap_uint64 (Z.of_nat (size (missionDeployments s)) + 1)) as Hsucc.
  { rewrite Hnext. unfold uint64_succ, wrap_uint64. by rewrite Zplus_mod_idemp_l. }
  split.
  - by apply keyed_insert.
  - by apply indexed_insert.
  - intros id. rewrite !lookup_insert_is_Some'. by rewrite Hdom.
  - rewrite map_size_insert_None by done. rewrite Hsucc. f_equal. lia.
  - rewrite map_size_insert_None by done. intros Hsz. rewrite Hsucc.
    assert (wrap_uint64 (Z.of_nat (size (missionDeployments s)) + 1)
            = Z.of_nat (size (missionDeployments s)) + 1) as ->
      by (unfold wrap_uint64; apply Z.mod_small; lia).
    apply ordered_insert; [apply Hord; lia|done|apply Hdom].
Qed.

Lemma UpdateMissionDeployment_wf deployment expectedRevision s :
  deployments_wf (missionDeployments s) (deploymentByIdempotencyKey s)
    (deploymentCreationOrder s) (nextDeploymentOrder s) →
  let s' := (UpdateMissionDeployment deployment expectedRevision s).2 in
  deployments_wf (missionDeployments s') (deploymentByIdempotencyKey s')
    (deploymentCreationOrder s') (nextDeploymentOrder s').
Proof using Type.
  intros [Hk Hix Hdom Hnext Hord]. unfold UpdateMissionDeployment.
  destruct (missionDeployments s !! Deployment_ID deployment) as [d|] eqn:Hd; [|done].
  destruct (_ <>z _); [done|]. destruct (_ || _) eqn:Heq; [done|]. to_prop. cbn.
  assert (size (<[Deployment_ID deployment := deployment <| Deployment_Revision := int64_succ expectedRevision |>]>
            (missionDeployments s)) = size (missionDeployments s)) as Hsz.
  { apply map_size_insert_Some. eauto. }
  split; rewrite ?Hsz; try done.
  - by apply keyed_insert.
  - by eapply indexed_alter.
  - intros id. rewrite Hdom, lookup_insert_is_Some'. naive_solver.
  - intros Hsz'. destruct (Hord Hsz'). split; [|done]. by rewrite Hsz.
Qed.

(** ** Battery installations *)

Lemma installation_conflict_None l x :
  installation_conflict l x = None →
  ∀ y, y ∈ l → Installation_ID y ≠ Installation_ID x
               ∧ (Installation_AircraftID y = Installation_AircraftID x →
                  Installation_RemovedAt y ≠ None).
Proof using Type.
  induction l as [|z l IH]; cbn; [by intros _ y ?%elem_of_nil|]. intros H.
  destruct (String.eqb_spec (Installation_ID z) (Installation_ID x)); [done|].
  destruct (String.eqb_spec (Installation_AircraftID z) (Installation_AircraftID x)); cbn in H.
  - destruct (Installation_RemovedAt z) eqn:Hr; [|done]. cbn in H.
    intros y [->|Hy]%elem_of_cons; [|auto]. split; [done|]. by rewrite Hr.
  - intros y [->|Hy]%elem_of_cons; [|auto]. split; [done|]. done.
Qed.

Lemma RecordBatteryInstallation_wf x s :
  installations_wf (batteryInstallations s) →
  installations_wf (batteryInstallations (RecordBatteryInstallation x s).2).
Proof using Type.
  intros [Hnd Hone]. unfold RecordBatteryInstallation.
  destruct (installation_conflict (batteryInstallations s) x) eqn:Hc; [done|]. cbn.
  pose proof (installation_conflict_None _ _ Hc) as Hfree. split.
  - rewrite fmap_app. apply NoDup_app. split; [done|]. split; [|apply NoDup_singleton].
    intros i (y & -> & Hy)%list_elem_of_fmap Hi%list_elem_of_singleton.
    by destruct (Hfree _ Hy).
  - intros y z Hy Hz Ha Hry Hrz.
    apply elem_of_app in Hy as [Hy|Hy%list_elem_of_singleton],
      Hz as [Hz|Hz%list_elem_of_singleton]; subst; eauto.
    + by destruct (Hfree _ Hy) as [_ []].
    + by destruct (Hfree _ Hz) as [_ []].
Qed.
End invariant.
