(* ===== verification/MemoryReachable.v ===== *)
(** * The in-memory store: reachable states

    Every method preserves the data invariant, whatever its arguments; a call
    that returns an error has not changed the store; a query never does. *)

From S2P Require Import Prelude GoRuntime GoRange Domain Errors Program MemoryState MemoryFleet MemoryIntents MemoryPublications MemoryMissions DurableStore MemoryStore MemoryInvariant.
From stdpp Require Import options.

(** Unfolds the method at the head of the goal. *)
Ltac unfold_method :=
  unfold CreateOperationalIntent, ActivateOperationalIntent, RecordOperationalVolume,
    ReplaceOperationalVolumes, ReplaceOperationalIntent, ReplaceConflictFindings,
    AcceptOperationalIntentAndRequestPublication, UpdateOperationalIntentAndRequestPublication,
    RequestOperationalIntentPublication, RequestOperationalIntentPublicationIfCurrent,
    ClaimOperationalIntentPublication, ClaimDueOperationalIntentPublications,
    RenewOperationalIntentPublicationLease, UpdateOperationalIntentPublication,
    ConfirmOperationalIntentPublication, ClaimDuePeerNotifications, UpdatePeerNotification,
    RecordBatteryInstallation, CreateFlightRecord, UpdateFlightRecord,
    CreateMissionForPlannedFlight, CreateMissionDeploymentForPlannedFlight,
    UpdateMissionDeployment, StartFlightWithCurrentMissionDeployment.

(** Opens the invariant and proves that of the new store part by part: the
    parts the method does not touch are hypotheses. *)
Ltac open_wf :=
  match goal with H : store_wf _ |- _ => destruct H as [[] Hin Hi Hv Hf Hm Hd [] []] end.
Ltac prove_wf := open_wf; repeat (split; cbn; try assumption); auto using keyed_insert with go.

Section reachable.
Context {RT : Runtime}.

(** ** Intents and volumes *)

Lemma keyed_insert_volumes volumes m :
  keyed operationalVolumeKey m → keyed operationalVolumeKey (insert_volumes volumes m).
Proof. apply keyed_foldl. intros. by apply keyed_insert. Qed.

Lemma updateOperationalIntentLocked_wf intent r s :
  store_wf s → store_wf (updateOperationalIntentLocked intent r s).2.
Proof.
  intros Hs. unfold updateOperationalIntentLocked. branches; try done; prove_wf.
Qed.

Lemma acceptOperationalIntentLocked_wf intent r s :
  store_wf s → store_wf (acceptOperationalIntentLocked intent r s).2.
Proof.
  intros Hs. unfold acceptOperationalIntentLocked. branches; try done; prove_wf.
Qed.

Lemma ReplaceOperationalVolumes_wf id v volumes s :
  store_wf s → store_wf (ReplaceOperationalVolumes id v volumes s).2.
Proof.
  intros Hs. unfold ReplaceOperationalVolumes. branches; try done; prove_wf.
  by apply keyed_insert_volumes, keyed_range_delete.
Qed.

Lemma ReplaceOperationalIntent_wf v r intent volumes s :
  store_wf s → store_wf (ReplaceOperationalIntent v r intent volumes s).2.
Proof.
  intros Hs. unfold ReplaceOperationalIntent. branches; try done; prove_wf;
    by apply keyed_insert_volumes, keyed_range_delete.
Qed.

(** ** The outbox *)

Lemma requestPublicationLocked_wf request s :
  store_wf s → store_wf (requestPublicationLocked request s).
Proof.
  intros Hs. unfold requestPublicationLocked, carry_over. branches; prove_wf.
Qed.

Lemma keyed_publication_insert (m : gmap string OperationalIntentPublication) k p p' :
  keyed Publication_IntentID m → m !! k = Some p → Publication_IntentID p' = Publication_IntentID p →
  keyed Publication_IntentID (<[k := clonePublication p']> m).
Proof. intros. rewrite clonePublication_id. by eapply keyed_alter. Qed.

Lemma elem_of_due_publication_ids now s id :
  id ∈ due_publication_ids now s ↔ ∃ p, publications s !! id = Some p ∧ publication_due now p = true.
Proof.
  unfold due_publication_ids, sort_strings. rewrite elem_of_sort_slice, list_elem_of_fmap. split.
  - intros ([k p] & -> & [Hin Hd]%elem_of_select). apply elem_of_range in Hin. eauto.
  - intros (p & Hp & Hd). exists (id, p). split; [done|]. apply elem_of_select.
    split; [by apply elem_of_range|done].
Qed.

Lemma elem_of_due_notification_ids now s id :
  id ∈ due_notification_ids now s ↔
  ∃ n, peerNotifications s !! id = Some n ∧ notification_due now n = true.
Proof.
  unfold due_notification_ids, sort_strings. rewrite elem_of_sort_slice, list_elem_of_fmap. split.
  - intros ([k n] & -> & [Hin Hd]%elem_of_select). apply elem_of_range in Hin. eauto.
  - intros (n & Hn & Hd). exists (id, n). split; [done|]. apply elem_of_select.
    split; [by apply elem_of_range|done].
Qed.
(** The claim loops visit identifiers of the map only. *)
Lemma claim_publications_keyed now leaseUntil ids m l :
  keyed Publication_IntentID m → (∀ id, id ∈ ids → is_Some (m !! id)) →
  keyed Publication_IntentID (foldl (claim_publication_step now leaseUntil) (m, l) ids).1.
Proof using Type.
  revert m l. induction ids as [|id ids IH]; intros m l Hm Hids; cbn; [done|].
  destruct (Hids id) as [p Hp]; [by left|]. rewrite Hp. apply IH.
  - by eapply keyed_publication_insert.
  - intros id' Hid'. rewrite lookup_insert_is_Some'. right. apply Hids. by right.
Qed.

Lemma claim_notifications_keyed now leaseUntil ids m l :
  keyed Notification_ID m → (∀ id, id ∈ ids → is_Some (m !! id)) →
  keyed Notification_ID (foldl (claim_notification_step now leaseUntil) (m, l) ids).1.
Proof using Type.
  revert m l. induction ids as [|id ids IH]; intros m l Hm Hids; cbn; [done|].
  destruct (Hids id) as [n Hn]; [by left|]. rewrite Hn. apply IH.
  - by eapply keyed_alter.
  - intros id' Hid'. rewrite lookup_insert_is_Some'. right. apply Hids. by right.
Qed.

Lemma claimed_is_Some {V} (m : gmap string V) (ids : list string) limit :
  (∀ id, id ∈ ids → is_Some (m !! id)) →
  ∀ id, id ∈ (if limit <? Z.of_nat (length ids) then take (Z.to_nat limit) ids else ids) →
        is_Some (m !! id).
Proof using Type.
  intros H id. case_match; [|auto]. intros Hid%elem_of_take. destruct Hid as (i & Hi & _).
  apply H. by eapply list_elem_of_lookup_2.
Qed.

Lemma ClaimDueOperationalIntentPublications_wf now leaseUntil limit s :
  store_wf s → store_wf (ClaimDueOperationalIntentPublications now leaseUntil limit s).2.
Proof using Type.
  intros Hs. unfold ClaimDueOperationalIntentPublications. case_match; [done|].
  match goal with |- context [foldl _ _ ?l] => set (ids := l) end.
  assert (keyed Publication_IntentID
            (foldl (claim_publication_step now leaseUntil) (publications s, []) ids).1) as Hk.
  { apply claim_publications_keyed; [apply Hs|]. apply claimed_is_Some.
    intros id (p & Hp & _)%elem_of_due_publication_ids. eauto. }
  destruct (foldl _ _ _) as [m claimed]. prove_wf.
Qed.

Lemma ClaimDuePeerNotifications_wf now leaseUntil limit s :
  store_wf s → store_wf (ClaimDuePeerNotifications now leaseUntil limit s).2.
Proof using Type.
  intros Hs. unfold ClaimDuePeerNotifications. match goal with |- context [foldl _ _ ?l] => set (ids := l) end.
  assert (keyed Notification_ID
            (foldl (claim_notification_step now leaseUntil) (peerNotifications s, []) ids).1) as Hk.
  { apply claim_notifications_keyed; [apply Hs|]. subst ids. intros id. case_match.
    - intros (i & Hi%list_elem_of_lookup_2 & _)%elem_of_take.
      apply elem_of_due_notification_ids in Hi as (n & Hn & _). eauto.
    - intros (n & Hn & _)%elem_of_due_notification_ids. eauto. }
  destruct (foldl _ _ _) as [m claimed]. prove_wf.
Qed.

Lemma enqueue_wf notifications s :
  store_wf s → store_wf (enqueuePeerNotificationsLocked notifications s).
Proof using Type.
  intros Hs. unfold enqueuePeerNotificationsLocked. prove_wf. apply keyed_foldl; [|done].
  intros m n Hmn. unfold enqueue_step. case_match; [done|]. by apply keyed_insert.
Qed.

Lemma AcceptAndRequest_wf intent r publication s :
  store_wf s → store_wf (AcceptOperationalIntentAndRequestPublication intent r publication s).2.
Proof using Type.
  intros Hs. unfold AcceptOperationalIntentAndRequestPublication.
  pose proof (acceptOperationalIntentLocked_wf intent r s Hs) as H.
  destruct (acceptOperationalIntentLocked intent r s) as [[] s']; cbn;
    auto using requestPublicationLocked_wf.
Qed.

Lemma UpdateAndRequest_wf intent r publication s :
  store_wf s → store_wf (UpdateOperationalIntentAndRequestPublication intent r publication s).2.
Proof using Type.
  intros Hs. unfold UpdateOperationalIntentAndRequestPublication.
  pose proof (updateOperationalIntentLocked_wf intent r s Hs) as H.
  destruct (updateOperationalIntentLocked intent r s) as [[] s']; cbn;
    auto using requestPublicationLocked_wf.
Qed.

Lemma ConfirmOperationalIntentPublication_wf publication r notifications s :
  store_wf s → store_wf (ConfirmOperationalIntentPublication publication r notifications s).2.
Proof using Type.
  intros Hs. unfold ConfirmOperationalIntentPublication. rewrite clonePublication_id.
  branches; try done. apply enqueue_wf. prove_wf.
Qed.

(** ** Missions, deployments, flights *)

Lemma createMissionLocked_store_wf mission s : store_wf s → store_wf (createMissionLocked mission s).2.
Proof using Type.
  intros Hs. pose proof (createMissionLocked_wf mission s (wf_missions _ Hs)) as Hwf.
  cbn in Hwf. revert Hwf. unfold createMissionLocked. branches; intros Hwf; try done. prove_wf.
Qed.

Lemma createMissionDeploymentLocked_store_wf deployment s :
  store_wf s → store_wf (createMissionDeploymentLocked deployment s).2.
Proof using Type.
  intros Hs. pose proof (createMissionDeploymentLocked_wf deployment s (wf_deployments _ Hs)) as Hwf.
  cbn in Hwf. revert Hwf. unfold createMissionDeploymentLocked. branches; intros Hwf; try done. prove_wf.
Qed.

Lemma UpdateMissionDeployment_store_wf deployment r s :
  store_wf s → store_wf (UpdateMissionDeployment deployment r s).2.
Proof using Type.
  intros Hs. pose proof (UpdateMissionDeployment_wf deployment r s (wf_deployments _ Hs)) as Hwf.
  cbn in Hwf. revert Hwf. unfold UpdateMissionDeployment. branches; intros Hwf; try done. prove_wf.
Qed.

Lemma CreateMissionForPlannedFlight_wf mission s :
  store_wf s → store_wf (CreateMissionForPlannedFlight mission s).2.
Proof using Type.
  intros Hs. unfold CreateMissionForPlannedFlight.
  repeat case_match; try done. by apply createMissionLocked_store_wf.
Qed.

Lemma CreateMissionDeploymentForPlannedFlight_wf deployment s :
  store_wf s → store_wf (CreateMissionDeploymentForPlannedFlight deployment s).2.
Proof using Type.
  intros Hs. unfold CreateMissionDeploymentForPlannedFlight.
  repeat case_match; try done. by apply createMissionDeploymentLocked_store_wf.
Qed.

Lemma RecordBatteryInstallation_store_wf x s :
  store_wf s → store_wf (RecordBatteryInstallation x s).2.
Proof using Type.
  intros Hs. pose proof (RecordBatteryInstallation_wf x s (wf_installations _ Hs)) as Hwf.
  revert Hwf. unfold RecordBatteryInstallation. branches; intros Hwf; try done. prove_wf.
Qed.

(** ** Every method *)

Lemma ActivateOperationalIntent_wf intent r s :
  store_wf s → store_wf (ActivateOperationalIntent intent r s).2.
Proof using Type.
  intros Hs. unfold ActivateOperationalIntent. repeat case_match; try done.
  by apply updateOperationalIntentLocked_wf.
Qed.

Lemma handle_wf A (e : Durable.storeE A) s : store_wf s → store_wf (handle_store e s).2.
Proof using Type.
  intros Hs. destruct e; cbn;
    try solve [done | auto using updateOperationalIntentLocked_wf, acceptOperationalIntentLocked_wf,
      ActivateOperationalIntent_wf, ReplaceOperationalVolumes_wf, ReplaceOperationalIntent_wf,
      AcceptAndRequest_wf, UpdateAndRequest_wf, ClaimDueOperationalIntentPublications_wf,
      ClaimDuePeerNotifications_wf, ConfirmOperationalIntentPublication_wf,
      createMissionLocked_store_wf, createMissionDeploymentLocked_store_wf,
      UpdateMissionDeployment_store_wf, CreateMissionForPlannedFlight_wf,
      CreateMissionDeploymentForPlannedFlight_wf, RecordBatteryInstallation_store_wf].
  all: unfold_method; rewrite ?clonePublication_id;
    repeat case_match; try done; try by apply requestPublicationLocked_wf.
  all: prove_wf.
  all: first [by eapply keyed_alter | by apply NoDup_replace_or_append].
Qed.

Lemma NewStore_wf : store_wf NewStore.
Proof using Type.
  repeat split; cbn; try apply keyed_empty; try apply NoDup_nil_2; try set_solver;
    try lia; intros; rewrite ?lookup_empty in *; try done; naive_solver.
Qed.

Lemma steps_wf s s' : rtc step s s' → store_wf s → store_wf s'.
Proof using Type.
  induction 1 as [|s1 s2 s3 [A [e <-]] _ IH]; [done|]. intros H1. by apply IH, handle_wf.
Qed.

Lemma after_wf calls : store_wf (after calls NewStore).
Proof using Type. apply (steps_wf NewStore); [apply after_steps|apply NewStore_wf]. Qed.

(** C21: Integrity of the store.  After any sequence of calls of any methods:
    every record that is kept in a map lies under the key of its own fields;
    the identifiers of the battery installations, of the preflight checks, of
    the conformance events and of the compliance findings occur once (the
    other lists, of maintenance events, reviews, conflict findings and
    assignments, are appended to without such a rule); an idempotency key
    leads to the plan or deployment that carries it, and only carried keys
    lead anywhere; exactly the deployments have creation numbers, distinct
    ones while there are fewer than 2^64 deployments; the versions of the
    plans of a flight are distinct and without a gap from 1 while there are
    fewer than 2^63 plans; and an aircraft has at most one battery
    installed. *)
Theorem reachable_wf s : reachable s → store_wf s.
Proof using Type. intros Hs. apply (steps_wf _ _ Hs NewStore_wf). Qed.

(** ** Errors *)

(** A method returned an error. *)
Definition failed {A} (r : update A) : bool := negb (is_ok r.1).

(** Errors.  A method that returns an error leaves the store as it was. *)
Theorem handle_failed A (e : Durable.storeE A) s :
  failed (handle_store e s) = true → (handle_store e s).2 = s.
Proof using Type.
  assert (∀ d, failed (createMissionDeploymentLocked d s) = true →
               (createMissionDeploymentLocked d s).2 = s) as Hd.
  { intros d. unfold createMissionDeploymentLocked. by repeat case_match. }
  assert (∀ m, failed (createMissionLocked m s) = true → (createMissionLocked m s).2 = s) as Hm.
  { intros m. unfold createMissionLocked. by repeat case_match. }
  assert (∀ i r, failed (updateOperationalIntentLocked i r s) = true →
                 (updateOperationalIntentLocked i r s).2 = s) as Hu.
  { intros i r. unfold updateOperationalIntentLocked. by repeat case_match. }
  assert (∀ i r, failed (acceptOperationalIntentLocked i r s) = true →
                 (acceptOperationalIntentLocked i r s).2 = s) as Ha.
  { intros i r. unfold acceptOperationalIntentLocked. by repeat case_match. }
  destruct e; cbn; try done; try solve [auto].
  all: unfold_method; try (match goal with |- context [foldl ?f ?x ?l] => destruct (foldl f x l) end);
    try solve [repeat case_match; try done; auto].
  - specialize (Ha intent expectedRevision).
    destruct (acceptOperationalIntentLocked intent expectedRevision s) as [[] s']; done.
  - specialize (Hu intent expectedRevision).
    destruct (updateOperationalIntentLocked intent expectedRevision s) as [[] s']; done.
Qed.
End reachable.
