(* ===== verification/Scenario.v ===== *)
(** * A concrete operation

    One intent on its way from submission to flight, on the reference runtime:
    the states on which the general theorems are exercised. *)

From S2P Require Import Prelude GoRuntime GoRange Domain Errors Program MemoryState MemoryFleet DurableStore MemoryStore MemoryInvariant MemoryReachable.
From stdpp Require Import options.

#[local] Existing Instance reference_runtime.

(** [reference_runtime] implicitly runs every call below. *)

Definition demo_draft : OperationalIntent :=
  zero_OperationalIntent <| Intent_ID := "i1" |> <| Intent_OperatorID := "op" |>
    <| Intent_AircraftID := "a1" |> <| Intent_Version := 1 |> <| Intent_Status := IntentStatusDraft |>
    <| Intent_PlannedStartAt := 10 |> <| Intent_PlannedEndAt := 20 |>.
Definition demo_submitted : OperationalIntent := demo_draft <| Intent_Status := IntentStatusSubmitted |>.
Definition demo_accepted : OperationalIntent :=
  demo_draft <| Intent_Status := IntentStatusAccepted |> <| Intent_AcceptedAt := Some 5 |>
             <| Intent_UpdatedAt := 5 |>.
Definition demo_active : OperationalIntent :=
  demo_accepted <| Intent_Status := IntentStatusActive |> <| Intent_ActivatedAt := Some 10 |>.

Definition demo_volume : OperationalVolume :=
  zero_OperationalVolume <| Volume_ID := "v1" |> <| Volume_IntentID := "i1" |> <| Volume_IntentVersion := 1 |>
    <| Volume_GeoJSON := "{}" |> <| Volume_AltitudeRef := "wgs84" |> <| Volume_StartsAt := 10 |>
    <| Volume_EndsAt := 20 |>.

Definition demo_flight : FlightRecord :=
  zero_FlightRecord <| Flight_ID := "f1" |> <| Flight_OperatorID := "op" |> <| Flight_AircraftID := "a1" |>
    <| Flight_IntentID := "i1" |> <| Flight_IntentVersion := 1 |> <| Flight_Status := FlightStatusPlanned |>.
Definition demo_flying : FlightRecord := demo_flight <| Flight_Status := FlightStatusActive |>.

Definition demo_mission : Mission :=
  zero_Mission <| Mission_ID := "m1" |> <| Mission_OperatorID := "op" |> <| Mission_FlightID := "f1" |>
    <| Mission_AircraftID := "a1" |> <| Mission_IntentID := "i1" |> <| Mission_IntentVersion := 1 |>
    <| Mission_MissionDigest := "digest" |> <| Mission_IdempotencyKey := "key" |>
    <| Mission_IdempotencyRequest := "request" |>.

Definition demo_deployment : MissionDeployment :=
  zero_MissionDeployment <| Deployment_ID := "d1" |> <| Deployment_OperatorID := "op" |>
    <| Deployment_FlightID := "f1" |> <| Deployment_AircraftID := "a1" |> <| Deployment_IntentID := "i1" |>
    <| Deployment_IntentVersion := 1 |> <| Deployment_MissionID := "m1" |>
    <| Deployment_MissionDigest := "digest" |> <| Deployment_IdempotencyKey := "dkey" |>
    <| Deployment_Status := MissionDeploymentPending |>.
Definition demo_applied : MissionDeployment := demo_deployment <| Deployment_Status := MissionDeploymentApplied |>.

Definition demo_publication : OperationalIntentPublication :=
  zero_OperationalIntentPublication <| Publication_IntentID := "i1" |> <| Publication_DesiredIntentVersion := 1 |>
    <| Publication_DesiredState := OperationalIntentExternalStateAccepted |>.

Definition demo_notification : PeerNotification :=
  zero_PeerNotification <| Notification_ID := "n1" |> <| Notification_IntentID := "i1" |>.

(** The states of the operation, one after the other. *)
Definition submitted_calls : list store_call :=
  [StoreCall (Durable.CreateOperationalIntent demo_submitted);
   StoreCall (Durable.RecordOperationalVolume demo_volume)].
Definition accepted_calls : list store_call :=
  submitted_calls ++ [StoreCall (Durable.AcceptOperationalIntent demo_accepted 0)].
Definition active_calls : list store_call :=
  accepted_calls ++ [StoreCall (Durable.ActivateOperationalIntent demo_active 1)].
Definition planned_calls : list store_call :=
  active_calls ++ [StoreCall (Durable.CreateFlightRecord demo_flight);
                   StoreCall (Durable.CreateMissionForPlannedFlight demo_mission)].
Definition deploying_calls : list store_call :=
  planned_calls ++ [StoreCall (Durable.CreateMissionDeploymentForPlannedFlight demo_deployment)].
Definition deployed_calls : list store_call :=
  deploying_calls ++ [StoreCall (Durable.UpdateMissionDeployment demo_applied 0)].
Definition published_calls : list store_call :=
  accepted_calls ++ [StoreCall (Durable.RequestOperationalIntentPublication demo_publication)].
Definition claimed_calls : list store_call :=
  published_calls ++ [StoreCall (Durable.ClaimOperationalIntentPublication "i1" 6 16)].
Definition confirmed_calls : list store_call :=
  claimed_calls
    ++ [StoreCall (Durable.ConfirmOperationalIntentPublication demo_publication 1 [demo_notification])].

Definition demo (calls : list store_call) : Store := after calls NewStore.

Lemma demo_wf calls : store_wf (demo calls).
Proof. apply after_wf. Qed.

(** No call of the operation fails. *)
Fixpoint all_succeed (calls : list store_call) (s : Store) : bool :=
  match calls with
  | [] => true
  | StoreCall e :: calls' => is_ok (handle_store e s).1 && all_succeed calls' (handle_store e s).2
  end.

Example deployed_succeeds : all_succeed deployed_calls NewStore = true.
Proof. vm_compute. reflexivity. Qed.

Example confirmed_succeeds : all_succeed confirmed_calls NewStore = true.
Proof. vm_compute. reflexivity. Qed.

(** A further version of the accepted intent. *)
Definition demo_redraft : OperationalIntent := demo_draft <| Intent_Version := 2 |>.
Definition demo_reaccepted : OperationalIntent :=
  demo_accepted <| Intent_Version := 2 |> <| Intent_AcceptedAt := Some 8 |>.
Definition redraft_calls : list store_call :=
  accepted_calls ++ [StoreCall (Durable.ReplaceOperationalIntent 1 1 demo_redraft [])].

Example redraft_succeeds : all_succeed redraft_calls NewStore = true.
Proof. vm_compute. reflexivity. Qed.

(** The stored row of [demo_accepted]. *)
Definition demo_row : OperationalIntent := demo_accepted <| Intent_Revision := 1 |>.

(** A world around a state of the store: the time is 10. *)
Definition demo_world (s : Store) : world Store unit := mkWorld (λ _, 10) (λ _, "u") 0 0 s tt.

(** A clear preflight check, and the state in which the intent can be activated. *)
Definition demo_check : PreflightCheck :=
  zero_PreflightCheck <| PreflightCheck_ID := "c1" |> <| PreflightCheck_IntentID := "i1" |>
    <| PreflightCheck_IntentVersion := 1 |> <| PreflightCheck_Status := PreflightStatusClear |>.
Definition ready_calls : list store_call :=
  accepted_calls ++ [StoreCall (Durable.RecordPreflightCheck demo_check)].

(** ** Witnesses *)

Lemma reachable_wf_witness : reachable (demo deployed_calls) ∧ store_wf (demo deployed_calls).
Proof. split; [apply after_steps|]. apply reachable_wf. apply after_steps. Defined.

Lemma handle_failed_witness :
  failed (handle_store (Durable.UpdateOperationalIntent demo_accepted 7) (demo submitted_calls)) = true
  ∧ (handle_store (Durable.UpdateOperationalIntent demo_accepted 7) (demo submitted_calls)).2
    = demo submitted_calls.
Proof. split; [|apply handle_failed]; vm_compute; reflexivity. Defined.
