(* ===== verification/IntentWrites.v ===== *)
(** * Lifecycle invariants of the stored intents

    What the compare-and-set of the store gives its clients: at most one
    active intent per aircraft and at most one accepted version of an intent,
    as long as only the dedicated methods write those two states; a revision
    that was written is never accepted again; acceptance supersedes. *)

From S2P Require Import Prelude GoRuntime GoRange Domain Errors Program MemoryState MemoryFleet MemoryIntents MemoryPublications MemoryMissions DurableStore MemoryStore MemoryInvariant MemoryReachable Scenario.
From stdpp Require Import options.

(** ** The invariant *)

Definition is_active (i : OperationalIntent) : Prop := Intent_Status i = IntentStatusActive.
Definition is_accepted (i : OperationalIntent) : Prop := Intent_Status i = IntentStatusAccepted.

#[global] Instance is_active_dec i : Decision (is_active i).
Proof. unfold is_active, IntentStatus. apply _. Defined.
#[global] Instance is_accepted_dec i : Decision (is_accepted i).
Proof. unfold is_accepted, IntentStatus. apply _. Defined.

Record lifecycle (m : gmap string OperationalIntent) : Prop := {
  lifecycle_keyed : keyed intent_key m;
  one_active k k' i i' :
    m !! k = Some i → m !! k' = Some i' → is_active i → is_active i' →
    Intent_AircraftID i = Intent_AircraftID i' → k = k';
  one_accepted k k' i i' :
    m !! k = Some i → m !! k' = Some i' → is_accepted i → is_accepted i' →
    Intent_ID i = Intent_ID i' → k = k';
}.

(** The calls that respect the roles of the methods: only activation writes
    an active intent, only acceptance an accepted one. *)
Definition inert (i : OperationalIntent) : Prop := ¬ is_active i ∧ ¬ is_accepted i.

Definition lifecycle_call {A} (e : Durable.storeE A) : Prop :=
  match e with
  | Durable.CreateOperationalIntent i => inert i
  | Durable.UpdateOperationalIntent i _ => inert i
  | Durable.UpdateOperationalIntentAndRequestPublication i _ _ => inert i
  | Durable.ReplaceOperationalIntent _ _ i _ => inert i
  | Durable.AcceptOperationalIntent i _ => is_accepted i
  | Durable.AcceptOperationalIntentAndRequestPublication i _ _ => is_accepted i
  | Durable.ActivateOperationalIntent i _ => is_active i
  | _ => True
  end.

(** The calls that leave the rows of the intents alone. *)
Definition touches_intents {A} (e : Durable.storeE A) : bool :=
  match e with
  | Durable.CreateOperationalIntent _ | Durable.UpdateOperationalIntent _ _
  | Durable.UpdateOperationalIntentAndRequestPublication _ _ _
  | Durable.ReplaceOperationalIntent _ _ _ _ | Durable.AcceptOperationalIntent _ _
  | Durable.AcceptOperationalIntentAndRequestPublication _ _ _
  | Durable.ActivateOperationalIntent _ _ => true
  | _ => false
  end.

Section lifecycle.
Context {RT : Runtime}.

(** ** Writing one row *)

Lemma lifecycle_insert m k i :
  lifecycle m → k = intent_key i →
  (∀ k' i', m !! k' = Some i' → k' ≠ k → is_active i → is_active i' →
            Intent_AircraftID i = Intent_AircraftID i' → False) →
  (∀ k' i', m !! k' = Some i' → k' ≠ k → is_accepted i → is_accepted i' →
            Intent_ID i = Intent_ID i' → False) →
  lifecycle (<[k := i]> m).
Proof using Type.
  intros [Hk Ha Hc] Hki Hna Hnc. split.
  - by apply keyed_insert.
  - intros k1 k2 i1 i2 [[<- <-]|[Hne1 H1]]%lookup_insert_Some
      [[<- <-]|[Hne2 H2]]%lookup_insert_Some A1 A2 Hac; [done| | |eauto]; exfalso; eauto.
  - intros k1 k2 i1 i2 [[<- <-]|[Hne1 H1]]%lookup_insert_Some
      [[<- <-]|[Hne2 H2]]%lookup_insert_Some A1 A2 Hac; [done| | |eauto]; exfalso; eauto.
Qed.

Lemma lifecycle_insert_inert m k i :
  lifecycle m → k = intent_key i → inert i → lifecycle (<[k := i]> m).
Proof using Type. intros Hm Hk [Ha Hc]. apply lifecycle_insert; naive_solver. Qed.

(** Rewriting rows to an inert status keeps the invariant. *)
Lemma lifecycle_range_update m P f :
  lifecycle m → (∀ i, P i = true → intent_key (f i) = intent_key i ∧ inert (f i)) →
  lifecycle (range_update P f m).
Proof using Type.
  intros [Hk Ha Hc] Hf.
  assert (∀ k i, range_update P f m !! k = Some i → ¬ inert i → m !! k = Some i) as Hback.
  { intros k i. rewrite lookup_range_update, fmap_Some. intros (j & Hj & ->) Hi.
    destruct (P j) eqn:HP; [|done]. destruct Hi. by apply Hf. }
  split.
  - intros k i. rewrite lookup_range_update, fmap_Some. intros (j & Hj & ->).
    apply Hk in Hj as ->. destruct (P j) eqn:HP; [|done]. by destruct (Hf _ HP) as [-> _].
  - intros k k' i i' Hi Hi' Ai Ai'. apply Hback in Hi, Hi'; [|by intros [? ?]..]. eauto.
  - intros k k' i i' Hi Hi' Ai Ai'. apply Hback in Hi, Hi'; [|by intros [? ?]..]. eauto.
Qed.

Lemma superseded_inert : ¬ IntentStatusSuperseded = IntentStatusActive
                         ∧ ¬ IntentStatusSuperseded = IntentStatusAccepted.
Proof using Type. done. Qed.

Lemma intent_key_inj i j : intent_key i = intent_key j ↔ Intent_ID i = Intent_ID j ∧ Intent_Version i = Intent_Version j.
Proof using Type.
  unfold intent_key. split; [apply operationalIntentKey_inj'|by intros [-> ->]].
Qed.

(** ** The methods that write rows *)

Lemma updateOperationalIntentLocked_lifecycle intent r s :
  lifecycle (operationalIntents s) → ¬ is_accepted intent →
  (is_active intent → ∀ k i, operationalIntents s !! k = Some i → k ≠ intent_key intent →
     is_active i → Intent_AircraftID intent ≠ Intent_AircraftID i) →
  lifecycle (operationalIntents (updateOperationalIntentLocked intent r s).2).
Proof using Type.
  intros Hm Hc Ha. unfold updateOperationalIntentLocked.
  destruct (latestOperationalIntent s (Intent_ID intent)) as [current|]; [|done].
  destruct (_ || _); [done|]. destruct (hasOutstandingMissionDeploymentForIntentLocked _ _); [done|].
  cbn. set (i' := intent <| Intent_Revision := int64_succ r |>).
  assert (lifecycle (<[intent_key i' := i']> (operationalIntents s))) as Hins.
  { apply lifecycle_insert; [done|done| |done].
    intros k i Hi Hk Hact Hact' Hac. by eapply Ha. }
  destruct (_ || _) eqn:Hst; [|done]. apply lifecycle_range_update; [done|].
  intros i _. split; [done|]. unfold inert, is_active, is_accepted. cbn.
  apply orb_true_iff in Hst as [->%String.eqb_eq| ->%String.eqb_eq]; done.
Qed.

Lemma acceptOperationalIntentLocked_lifecycle intent r s :
  lifecycle (operationalIntents s) → is_accepted intent →
  lifecycle (operationalIntents (acceptOperationalIntentLocked intent r s).2).
Proof using Type.
  intros Hm Hacc. unfold acceptOperationalIntentLocked.
  destruct (latestOperationalIntent s (Intent_ID intent)) as [current|] eqn:Hlatest; [|done].
  destruct (_ || _) eqn:Hcas; [done|]. to_prop.
  destruct (hasOutstandingMissionDeploymentForIntentLocked _ _); [done|]. cbn.
  set (i' := intent <| Intent_Revision := int64_succ r |>).
  apply latestOperationalIntent_Some in Hlatest as (Hcur & Hid & Hmax); [|apply Hm].
  (* first supersede, then insert: the two writes commute *)
  replace (range_update _ _ _) with
    (<[intent_key i' := i']> (range_update (prior_accepted i') (supersede_prior i') (operationalIntents s))).
  - apply lifecycle_insert; [|done| |].
    + apply lifecycle_range_update; [done|]. by intros i _.
    + intros k i _ _ Hact. unfold is_active in Hact. cbn in Hact.
      unfold is_accepted in Hacc. rewrite Hacc in Hact. done.
    + intros k i Hi Hk _ Hia Hids. rewrite lookup_range_update, fmap_Some in Hi.
      destruct Hi as (j & Hj & ->). destruct (prior_accepted i' j) eqn:Hp; [done|].
      pose proof (lifecycle_keyed _ Hm _ _ Hj) as ->. unfold prior_accepted in Hp.
      cbn in Hids. specialize (Hmax _ _ Hj (eq_sym Hids)).
      rewrite intent_key_inj in Hk. apply negb_false_iff in Hp.
      apply orb_true_iff in Hp as [[Hp|Hp]%orb_true_iff|Hp]; to_prop; cbn in *; [congruence| |done].
      apply Hk. split; [done|lia].
  - apply map_eq. intros k. rewrite lookup_range_update.
    destruct (decide (k = intent_key i')) as [->|Hne].
    + rewrite !lookup_insert_eq. cbn. unfold prior_accepted.
      by rewrite Z.leb_refl, String.eqb_refl.
    + rewrite !lookup_insert_ne by done. by rewrite lookup_range_update.
Qed.

Lemma ActivateOperationalIntent_lifecycle intent r s :
  lifecycle (operationalIntents s) → is_active intent →
  lifecycle (operationalIntents (ActivateOperationalIntent intent r s).2).
Proof using Type.
  intros Hm Hact. unfold ActivateOperationalIntent.
  destruct (latestOperationalIntent s (Intent_ID intent)) as [current|]; [|done].
  destruct (_ || _); [done|].
  destruct (range_any (other_active intent) (operationalIntents s)) eqn:Hother; [done|].
  apply updateOperationalIntentLocked_lifecycle; [done| |].
  - unfold is_active, is_accepted in *. by rewrite Hact.
  - intros _ k i Hi Hk Hai Hac. rewrite range_any_false in Hother. specialize (Hother _ _ Hi).
    unfold other_active in Hother. rewrite Hac, String.eqb_refl, andb_true_r in Hother.
    unfold is_active in Hai. rewrite Hai, String.eqb_refl, andb_true_r in Hother. to_prop.
    apply Hk. apply (lifecycle_keyed _ Hm) in Hi as ->. by apply intent_key_inj.
Qed.

Lemma intents_frame A (e : Durable.storeE A) s :
  touches_intents e = false → operationalIntents (handle_store e s).2 = operationalIntents s.
Proof using Type.
  destruct e; try done; intros _; cbn.
  all: unfold_method; try (match goal with |- context [foldl ?f ?x ?l] => destruct (foldl f x l) end);
    unfold CreateMission, createMissionLocked, CreateMissionDeployment, createMissionDeploymentLocked;
    repeat case_match; done.
Qed.

Lemma handle_lifecycle A (e : Durable.storeE A) s :
  lifecycle_call e → lifecycle (operationalIntents s) →
  lifecycle (operationalIntents (handle_store e s).2).
Proof using Type.
  destruct (touches_intents e) eqn:Ht; [|by rewrite intents_frame].
  destruct e; try done; cbn; intros Hcall Hm.
  - unfold CreateOperationalIntent. repeat case_match; try done.
    by apply lifecycle_insert_inert.
  - apply updateOperationalIntentLocked_lifecycle; [done|apply Hcall|]. intros Ha. by destruct Hcall.
  - by apply ActivateOperationalIntent_lifecycle.
  - by apply acceptOperationalIntentLocked_lifecycle.
  - unfold ReplaceOperationalIntent. repeat case_match; try done;
      by apply lifecycle_insert_inert.
  - unfold AcceptOperationalIntentAndRequestPublication.
    pose proof (acceptOperationalIntentLocked_lifecycle intent expectedRevision s Hm Hcall).
    by destruct (acceptOperationalIntentLocked intent expectedRevision s) as [[] s'].
  - unfold UpdateOperationalIntentAndRequestPublication.
    assert (lifecycle (operationalIntents (updateOperationalIntentLocked intent expectedRevision s).2)).
    { apply updateOperationalIntentLocked_lifecycle; [done|apply Hcall|]. intros Ha. by destruct Hcall. }
    by destruct (updateOperationalIntentLocked intent expectedRevision s) as [[] s'].
Qed.
End lifecycle.

(** * Writes of intents and volumes

    How the rows of the intents evolve: a row is never deleted, and every
    write of it advances its revision, so that a compare-and-set quoting a
    revision that was already consumed fails, whatever happened in between. *)

(** ** Evolution of the rows *)

Definition row_evolves (old new : option OperationalIntent) : Prop :=
  match old, new with
  | Some i, Some j => j = i ∨ Intent_Revision i < Intent_Revision j
  | Some _, None => False
  | None, _ => True
  end.

Definition intents_evolve (m m' : gmap string OperationalIntent) : Prop :=
  ∀ k, row_evolves (m !! k) (m' !! k).

(** No counter is at the end of its 64-bit range. *)
Definition room (z : Z) : Prop := - 2 ^ 63 ≤ z < 2 ^ 63 - 1.
Definition no_wrap (m : gmap string OperationalIntent) : Prop :=
  ∀ k i, m !! k = Some i → room (Intent_Version i) ∧ room (Intent_Revision i).

(** What a compare-and-set of an intent quotes: identity, version, revision. *)
Definition compare_and_set {A} (e : Durable.storeE A) : option (string * Z * Z) :=
  match e with
  | Durable.UpdateOperationalIntent i r
  | Durable.UpdateOperationalIntentAndRequestPublication i r _
  | Durable.AcceptOperationalIntent i r
  | Durable.AcceptOperationalIntentAndRequestPublication i r _
  | Durable.ActivateOperationalIntent i r => Some (Intent_ID i, Intent_Version i, r)
  | Durable.ReplaceOperationalIntent v r i _ => Some (Intent_ID i, v, r)
  | _ => None
  end.

(** A later version, or a later revision of the same version, is stored. *)
Definition spent (m : gmap string OperationalIntent) (id : string) (v r : Z) : Prop :=
  ∃ k i, m !! k = Some i ∧ Intent_ID i = id
         ∧ (v < Intent_Version i ∨ Intent_Version i = v ∧ r < Intent_Revision i).

Lemma row_evolves_refl o : row_evolves o o.
Proof. destruct o; cbn; auto. Qed.

Lemma intents_evolve_refl m : intents_evolve m m.
Proof. intros k. apply row_evolves_refl. Qed.

Lemma intents_evolve_trans m1 m2 m3 :
  intents_evolve m1 m2 → intents_evolve m2 m3 → intents_evolve m1 m3.
Proof.
  intros H12 H23 k. specialize (H12 k). specialize (H23 k). revert H12 H23.
  destruct (m1 !! k), (m2 !! k), (m3 !! k); cbn; try done.
  intros [->|?] [->|?]; auto. right. lia.
Qed.

#[global] Instance intents_evolve_preorder : PreOrder intents_evolve.
Proof. split; [exact intents_evolve_refl|exact intents_evolve_trans]. Qed.

Lemma spent_evolve m m' id v r :
  keyed intent_key m → keyed intent_key m' → intents_evolve m m' → spent m id v r → spent m' id v r.
Proof.
  intros Hk Hk' Hev (k & i & Hi & Hid & Hnew). specialize (Hev k). rewrite Hi in Hev.
  destruct (m' !! k) as [j|] eqn:Hj; [|done]. exists k, j. split; [done|].
  assert (intent_key j = intent_key i) as [Hjd Hjv]%intent_key_inj.
  { by rewrite <- (Hk' _ _ Hj), <- (Hk _ _ Hi). }
  rewrite Hjd, Hjv. split; [done|]. destruct Hev as [->|?]; [done|]. intuition lia.
Qed.

Section writes.
Context {RT : Runtime}.

Lemma evolve_insert m k i :
  (∀ j, m !! k = Some j → Intent_Revision j < Intent_Revision i) → intents_evolve m (<[k := i]> m).
Proof using Type.
  intros H k'. destruct (decide (k' = k)) as [->|Hne].
  - rewrite lookup_insert_eq. destruct (m !! k) eqn:E; cbn; auto.
  - rewrite lookup_insert_ne by done. apply row_evolves_refl.
Qed.

Lemma evolve_range_update m P f :
  (∀ k i, m !! k = Some i → Intent_Revision i < Intent_Revision (f i)) →
  intents_evolve m (range_update P f m).
Proof using Type.
  intros H k. rewrite lookup_range_update. destruct (m !! k) as [i|] eqn:E; cbn; [|done].
  destruct (P i); [|by left]. right. eauto.
Qed.

(** The row a compare-and-set writes is the one it quotes. *)
Lemma latest_row s id i :
  keyed intent_key (operationalIntents s) → latestOperationalIntent s id = Some i →
  operationalIntents s !! intent_key i = Some i ∧ Intent_ID i = id.
Proof using Type.
  intros Hk (Hi & Hid & _)%latestOperationalIntent_Some; [|done]. unfold intent_key. by rewrite Hid.
Qed.

Lemma no_wrap_insert_succ s current intent r :
  keyed intent_key (operationalIntents s) → no_wrap (operationalIntents s) →
  latestOperationalIntent s (Intent_ID intent) = Some current →
  Intent_Version current = Intent_Version intent → Intent_Revision current = r →
  let i' := intent <| Intent_Revision := int64_succ r |> in
  ∀ j, operationalIntents s !! intent_key i' = Some j → Intent_Revision j < Intent_Revision i'.
Proof using Type.
  intros Hk Hw Hlatest Hv Hr i' j Hj. apply latest_row in Hlatest as [Hcur Hid]; [|done].
  assert (intent_key i' = intent_key current) as Heq by (apply intent_key_inj; split; cbn; congruence).
  rewrite Heq, Hcur in Hj. injection Hj as <-. destruct (Hw _ _ Hcur) as [_ Hroom].
  cbn. rewrite <- Hr. unfold room in Hroom. rewrite int64_succ_small; lia.
Qed.

(** After the insertion the other rows still have room to be rewritten. *)
Lemma evolve_insert_update m k i P f :
  intents_evolve m (<[k := i]> m) → no_wrap m → P i = false →
  (∀ j, Intent_Revision (f j) = int64_succ (Intent_Revision j)) →
  intents_evolve m (range_update P f (<[k := i]> m)).
Proof using Type.
  intros Hins Hw HPi Hf k'. rewrite lookup_range_update. specialize (Hins k').
  destruct (decide (k' = k)) as [->|Hne].
  - rewrite lookup_insert_eq in *. cbn. by rewrite HPi.
  - rewrite lookup_insert_ne by done. destruct (m !! k') as [j|] eqn:E; cbn; [|done].
    destruct (P j); [|by left]. right. rewrite Hf. destruct (Hw _ _ E) as [_ Hr].
    unfold room in Hr. rewrite int64_succ_small; lia.
Qed.

Lemma prior_accepted_self i : prior_accepted i i = false.
Proof using Type. unfold prior_accepted. by rewrite Z.leb_refl, String.eqb_refl. Qed.

Lemma updateOperationalIntentLocked_evolve intent r s :
  keyed intent_key (operationalIntents s) → no_wrap (operationalIntents s) →
  intents_evolve (operationalIntents s) (operationalIntents (updateOperationalIntentLocked intent r s).2).
Proof using Type.
  intros Hk Hw. unfold updateOperationalIntentLocked.
  destruct (latestOperationalIntent s (Intent_ID intent)) as [current|] eqn:Hl; [|done].
  destruct (_ || _) eqn:Hcas; [done|]. to_prop.
  destruct (hasOutstandingMissionDeploymentForIntentLocked _ _); [done|]. cbn.
  set (i' := intent <| Intent_Revision := int64_succ r |>).
  assert (intents_evolve (operationalIntents s) (<[intent_key i' := i']> (operationalIntents s))).
  { apply evolve_insert. by eapply no_wrap_insert_succ. }
  case_match; [|done]. by apply evolve_insert_update; [|done|apply prior_accepted_self|].
Qed.

Lemma acceptOperationalIntentLocked_evolve intent r s :
  keyed intent_key (operationalIntents s) → no_wrap (operationalIntents s) →
  intents_evolve (operationalIntents s) (operationalIntents (acceptOperationalIntentLocked intent r s).2).
Proof using Type.
  intros Hk Hw. unfold acceptOperationalIntentLocked.
  destruct (latestOperationalIntent s (Intent_ID intent)) as [current|] eqn:Hl; [|done].
  destruct (_ || _) eqn:Hcas; [done|]. to_prop.
  destruct (hasOutstandingMissionDeploymentForIntentLocked _ _); [done|]. cbn.
  apply evolve_insert_update; [|done|apply prior_accepted_self|done].
  apply evolve_insert. by eapply no_wrap_insert_succ.
Qed.

Lemma ReplaceOperationalIntent_evolve v r intent volumes s :
  keyed intent_key (operationalIntents s) → no_wrap (operationalIntents s) →
  intents_evolve (operationalIntents s)
    (operationalIntents (ReplaceOperationalIntent v r intent volumes s).2).
Proof using Type.
  intros Hk Hw. unfold ReplaceOperationalIntent.
  destruct (_ && _) eqn:Hver; [done|]. destruct (volume_outside_scope _ _ _); [done|].
  destruct (latestOperationalIntent s (Intent_ID intent)) as [current|] eqn:Hl; [|done].
  destruct (Intent_Version current <>z v) eqn:Hv; [done|].
  destruct (Intent_Revision current <>z r) eqn:Hr; [done|].
  destruct (hasOutstandingMissionDeploymentForIntentLocked _ _); [done|]. to_prop. cbn.
  destruct (Z.eqb_spec (Intent_Version intent) (Intent_Version current)) as [Heq|Hne].
  - apply evolve_insert. by eapply no_wrap_insert_succ.
  - apply evolve_insert. intros j Hj. exfalso.
    pose proof (latest_row _ _ _ Hk Hl) as [Hcur _]. destruct (Hw _ _ Hcur) as [Hroom _].
    apply latestOperationalIntent_Some in Hl as (_ & _ & Hmax); [|done].
    pose proof (Hk _ _ Hj) as [Hjd Hjv]%intent_key_inj. cbn in Hjd, Hjv.
    specialize (Hmax _ _ Hj (eq_sym Hjd)). unfold room in Hroom.
    assert (Intent_Version intent = int64_succ v) as Hsucc.
    { destruct Hver as [Hver|Hver]; to_prop; congruence. }
    rewrite Hsucc, <- Hv, int64_succ_small in Hjv by lia. lia.
Qed.

Lemma handle_evolve A (e : Durable.storeE A) s :
  keyed intent_key (operationalIntents s) → no_wrap (operationalIntents s) →
  intents_evolve (operationalIntents s) (operationalIntents (handle_store e s).2).
Proof using Type.
  intros Hk Hw. destruct (touches_intents e) eqn:Ht; [|by rewrite intents_frame].
  destruct e; try done; cbn.
  - unfold CreateOperationalIntent. repeat case_match; try done. cbn. apply evolve_insert.
    intros j Hj. congruence.
  - by apply updateOperationalIntentLocked_evolve.
  - unfold ActivateOperationalIntent. repeat case_match; try done.
    by apply updateOperationalIntentLocked_evolve.
  - by apply acceptOperationalIntentLocked_evolve.
  - by apply ReplaceOperationalIntent_evolve.
  - unfold AcceptOperationalIntentAndRequestPublication.
    pose proof (acceptOperationalIntentLocked_evolve intent expectedRevision s Hk Hw).
    by destruct (acceptOperationalIntentLocked intent expectedRevision s) as [[] s'].
  - unfold UpdateOperationalIntentAndRequestPublication.
    pose proof (updateOperationalIntentLocked_evolve intent expectedRevision s Hk Hw).
    by destruct (updateOperationalIntentLocked intent expectedRevision s) as [[] s'].
Qed.

(** ** Optimistic concurrency *)

Lemma spent_latest s id v r current :
  keyed intent_key (operationalIntents s) → spent (operationalIntents s) id v r →
  latestOperationalIntent s id = Some current →
  Intent_Version current ≠ v ∨ Intent_Revision current ≠ r.
Proof using Type.
  intros Hk (k & i & Hi & Hid & Hnew) Hl.
  pose proof (latest_row _ _ _ Hk Hl) as [Hcur Hcd].
  apply latestOperationalIntent_Some in Hl as (_ & _ & Hmax); [|done].
  specialize (Hmax _ _ Hi Hid). destruct Hnew as [Hlt|[Hv Hlt]]; [left; lia|].
  destruct (decide (Intent_Version current = v)) as [Hcv|]; [right|by left].
  assert (intent_key i = intent_key current) as Heq by (apply intent_key_inj; split; congruence).
  apply Hk in Hi as Hki. subst k. rewrite Heq in Hi. assert (i = current) by congruence.
  subst. lia.
Qed.

Lemma stale_test (cv v cr r : Z) : cv ≠ v ∨ cr ≠ r → (cv <>z v) || (cr <>z r) = true.
Proof using Type.
  rewrite orb_true_iff, !negb_true_iff, !Z.eqb_neq. done.
Qed.

Lemma updateOperationalIntentLocked_spent intent r s :
  keyed intent_key (operationalIntents s) →
  spent (operationalIntents s) (Intent_ID intent) (Intent_Version intent) r →
  failed (updateOperationalIntentLocked intent r s) = true.
Proof using Type.
  intros Hk Hs. unfold updateOperationalIntentLocked.
  destruct (latestOperationalIntent s (Intent_ID intent)) as [current|] eqn:Hl; [|done].
  by rewrite (stale_test _ _ _ _ (spent_latest _ _ _ _ _ Hk Hs Hl)).
Qed.

Lemma acceptOperationalIntentLocked_spent intent r s :
  keyed intent_key (operationalIntents s) →
  spent (operationalIntents s) (Intent_ID intent) (Intent_Version intent) r →
  failed (acceptOperationalIntentLocked intent r s) = true.
Proof using Type.
  intros Hk Hs. unfold acceptOperationalIntentLocked.
  destruct (latestOperationalIntent s (Intent_ID intent)) as [current|] eqn:Hl; [|done].
  by rewrite (stale_test _ _ _ _ (spent_latest _ _ _ _ _ Hk Hs Hl)).
Qed.

Lemma spent_fails A (e : Durable.storeE A) s id v r :
  keyed intent_key (operationalIntents s) → compare_and_set e = Some (id, v, r) →
  spent (operationalIntents s) id v r → failed (handle_store e s) = true.
Proof using Type.
  intros Hk Hcas Hs. destruct e; simplify_eq/=; cbn.
  - by apply updateOperationalIntentLocked_spent.
  - unfold ActivateOperationalIntent.
    destruct (latestOperationalIntent s (Intent_ID intent)) as [current|] eqn:Hl; [|done].
    by rewrite (stale_test _ _ _ _ (spent_latest _ _ _ _ _ Hk Hs Hl)).
  - by apply acceptOperationalIntentLocked_spent.
  - unfold ReplaceOperationalIntent. destruct (_ && _); [done|].
    destruct (volume_outside_scope _ _ _); [done|].
    destruct (latestOperationalIntent s (Intent_ID intent)) as [current|] eqn:Hl; [|done].
    pose proof (stale_test _ _ _ _ (spent_latest _ _ _ _ _ Hk Hs Hl)) as Ht.
    destruct (Intent_Version current <>z v); [done|]. cbn in Ht. by rewrite Ht.
  - unfold AcceptOperationalIntentAndRequestPublication.
    pose proof (acceptOperationalIntentLocked_spent intent r s Hk Hs).
    by destruct (acceptOperationalIntentLocked intent r s) as [[] s'].
  - unfold UpdateOperationalIntentAndRequestPublication.
    pose proof (updateOperationalIntentLocked_spent intent r s Hk Hs).
    by destruct (updateOperationalIntentLocked intent r s) as [[] s'].
Qed.

(** The row of the latest version, rewritten under the next revision. *)
Lemma spent_insert s current intent r P f :
  keyed intent_key (operationalIntents s) → no_wrap (operationalIntents s) →
  latestOperationalIntent s (Intent_ID intent) = Some current →
  Intent_Version current = Intent_Version intent → Intent_Revision current = r →
  let i' := intent <| Intent_Revision := int64_succ r |> in
  P i' = false →
  spent (range_update P f (<[intent_key i' := i']> (operationalIntents s)))
    (Intent_ID intent) (Intent_Version intent) r.
Proof using Type.
  intros Hk Hw Hl Hv Hr i' HP. exists (intent_key i'), i'.
  rewrite lookup_range_update, lookup_insert_eq. cbn. rewrite HP.
  split; [done|]. split; [done|]. right. split; [done|].
  apply latest_row in Hl as [Hcur _]; [|done]. destruct (Hw _ _ Hcur) as [_ Hroom].
  unfold room in Hroom. rewrite <- Hr, int64_succ_small; lia.
Qed.

Lemma updateOperationalIntentLocked_spends intent r s s' :
  keyed intent_key (operationalIntents s) → no_wrap (operationalIntents s) →
  updateOperationalIntentLocked intent r s = (Ok tt, s') →
  spent (operationalIntents s') (Intent_ID intent) (Intent_Version intent) r.
Proof using Type.
  intros Hk Hw. unfold updateOperationalIntentLocked.
  destruct (latestOperationalIntent s (Intent_ID intent)) as [current|] eqn:Hl; [|done].
  destruct (_ || _) eqn:Hcas; [done|].
  destruct (hasOutstandingMissionDeploymentForIntentLocked _ _); [done|]. to_prop.
  intros [= <-]. cbn. case_match.
  - by eapply spent_insert; [| | | | |apply prior_accepted_self].
  - exists (intent_key (intent <| Intent_Revision := int64_succ r |>)), (intent <| Intent_Revision := int64_succ r |>).
    rewrite lookup_insert_eq. split; [done|]. split; [done|]. right. split; [done|]. cbn.
    apply latest_row in Hl as [Hcur _]; [|done]. destruct (Hw _ _ Hcur) as [_ Hroom].
    unfold room in Hroom. subst r. rewrite int64_succ_small; lia.
Qed.

Lemma acceptOperationalIntentLocked_spends intent r s s' :
  keyed intent_key (operationalIntents s) → no_wrap (operationalIntents s) →
  acceptOperationalIntentLocked intent r s = (Ok tt, s') →
  spent (operationalIntents s') (Intent_ID intent) (Intent_Version intent) r.
Proof using Type.
  intros Hk Hw. unfold acceptOperationalIntentLocked.
  destruct (latestOperationalIntent s (Intent_ID intent)) as [current|] eqn:Hl; [|done].
  destruct (_ || _) eqn:Hcas; [done|].
  destruct (hasOutstandingMissionDeploymentForIntentLocked _ _); [done|]. to_prop.
  intros [= <-]. cbn. by eapply spent_insert; [| | | | |apply prior_accepted_self].
Qed.

Lemma write_spends A (e : Durable.storeE A) s a s' id v r :
  keyed intent_key (operationalIntents s) → no_wrap (operationalIntents s) →
  compare_and_set e = Some (id, v, r) → handle_store e s = (Ok a, s') →
  spent (operationalIntents s') id v r.
Proof using Type.
  intros Hk Hw Hcas Hok. destruct e; simplify_eq/=; try destruct a; cbn in Hok.
  - by eapply updateOperationalIntentLocked_spends.
  - revert Hok. unfold ActivateOperationalIntent. repeat case_match; try done.
    by apply updateOperationalIntentLocked_spends.
  - by eapply acceptOperationalIntentLocked_spends.
  - revert Hok. unfold ReplaceOperationalIntent.
    destruct (_ && _) eqn:Hver; [done|]. destruct (volume_outside_scope _ _ _); [done|].
    destruct (latestOperationalIntent s (Intent_ID intent)) as [current|] eqn:Hl; [|done].
    destruct (Intent_Version current <>z v) eqn:Hv; [done|].
    destruct (Intent_Revision current <>z r) eqn:Hr; [done|].
    destruct (hasOutstandingMissionDeploymentForIntentLocked _ _); [done|]. to_prop.
    intros [= <-]. cbn.
    apply latest_row in Hl as [Hcur _]; [|done]. destruct (Hw _ _ Hcur) as [Hvr Hroom].
    unfold room in *. destruct (Z.eqb_spec (Intent_Version intent) (Intent_Version current)).
    + exists (intent_key (intent <| Intent_Revision := int64_succ r |>)), (intent <| Intent_Revision := int64_succ r |>).
      rewrite lookup_insert_eq. do 2 (split; [done|]). right. split; [cbn; congruence|]. cbn.
      subst r. rewrite int64_succ_small; lia.
    + exists (intent_key (intent <| Intent_Revision := 0 |>)), (intent <| Intent_Revision := 0 |>).
      rewrite lookup_insert_eq. do 2 (split; [done|]). left. cbn.
      destruct Hver as [Hver|Hver]; to_prop; [congruence|].
      rewrite Hver. subst v. rewrite int64_succ_small; lia.
  - revert Hok. unfold AcceptOperationalIntentAndRequestPublication.
    destruct (acceptOperationalIntentLocked intent r s) as [[[]|] s1] eqn:He; [|done].
    intros [= <-]. cbn. by eapply acceptOperationalIntentLocked_spends.
  - revert Hok. unfold UpdateOperationalIntentAndRequestPublication.
    destruct (updateOperationalIntentLocked intent r s) as [[[]|] s1] eqn:He; [|done].
    intros [= <-]. cbn. by eapply updateOperationalIntentLocked_spends.
Qed.

(** One call of any client; one that changes the intents finds room in their
    counters: versions and revisions below 2^63 - 1. *)
Definition bounded_step (s s' : Store) : Prop :=
  step s s' ∧ (no_wrap (operationalIntents s) ∨ operationalIntents s' = operationalIntents s).

Lemma bounded_steps_evolve s s' :
  rtc bounded_step s s' → store_wf s →
  store_wf s' ∧ intents_evolve (operationalIntents s) (operationalIntents s').
Proof using Type.
  induction 1 as [|s1 s2 s3 [[A [e <-]] Hw] _ IH]; intros Hs; [done|].
  destruct (IH (handle_wf _ e _ Hs)) as [Hs3 Hev]. split; [done|].
  etrans; [|done]. destruct Hw as [Hw|Heq]; [|by rewrite Heq]. apply handle_evolve; [apply Hs|done].
Qed.

(** C6: Optimistic concurrency.  Once a compare-and-set write of an intent
    (update, activation, acceptance, replacement) that quotes a version and a
    revision has succeeded, every later one that quotes the same version and
    revision fails, whatever calls of the store came in between, so long as no
    counter can wrap: the first write, and every call in between that changes
    an intent, find every stored version and revision below 2^63 - 1. *)
Theorem revision_consumed_once A (e : Durable.storeE A) s a s1 s2 B (e' : Durable.storeE B) id v r :
  store_wf s → no_wrap (operationalIntents s) →
  compare_and_set e = Some (id, v, r) → handle_store e s = (Ok a, s1) →
  rtc bounded_step s1 s2 →
  compare_and_set e' = Some (id, v, r) → failed (handle_store e' s2) = true.
Proof using Type.
  intros Hs Hw Hcas Hok Hsteps Hcas'.
  pose proof (handle_wf _ e _ Hs) as Hs1. rewrite Hok in Hs1. cbn in Hs1.
  destruct (bounded_steps_evolve _ _ Hsteps Hs1) as [Hs2 Hev].
  eapply spent_fails; [apply Hs2|done|].
  eapply spent_evolve; [apply Hs1|apply Hs2|done|].
  by eapply (write_spends _ e s); [apply Hs| | |].
Qed.
End writes.

(** ** Witnesses *)

#[local] Existing Instance reference_runtime.

Definition room_b (z : Z) : bool := (- 2 ^ 63 <=? z) && (z <? 2 ^ 63 - 1).

Lemma no_wrap_check (m : gmap string OperationalIntent) :
  forallb (λ e : string * OperationalIntent, room_b (Intent_Version e.2) && room_b (Intent_Revision e.2))
    (map_to_list m) = true → no_wrap m.
Proof.
  intros H k i Hk. pose proof (map_check (λ i, room_b (Intent_Version i) && room_b (Intent_Revision i)) m H k i Hk) as Hi. unfold room_b in Hi. to_prop.
  unfold room. lia.
Qed.

Lemma revision_consumed_once_witness :
  handle_store (Durable.AcceptOperationalIntent demo_accepted 0) (demo submitted_calls)
    = (Ok tt, demo accepted_calls)
  ∧ failed (handle_store (Durable.UpdateOperationalIntent demo_submitted 0) (demo active_calls)) = true.
Proof.
  split; [vm_compute; reflexivity|].
  apply (revision_consumed_once _ (Durable.AcceptOperationalIntent demo_accepted 0) (demo submitted_calls) tt
           (demo accepted_calls) (demo active_calls) _ _ "i1" 1 0).
  - apply demo_wf.
  - apply no_wrap_check. vm_compute. reflexivity.
  - reflexivity.
  - vm_compute. reflexivity.
  - apply rtc_once. split; [exists unit, (Durable.ActivateOperationalIntent demo_active 1); vm_compute; reflexivity|].
    left. apply no_wrap_check. vm_compute. reflexivity.
  - reflexivity.
Defined.
