(* ===== verification/IntentSpecs.v ===== *)
(** * What the methods on intents and volumes compute

    Acceptance and replacement as functions of the whole table, the queries
    as sets whatever the order in which the runtime visits the maps, the
    freeze of an intent under deployment, and the keys of the volumes. *)

From S2P Require Import Prelude GoRuntime GoStrings GoRange Domain Errors Program MemoryState MemoryFleet MemoryIntents MemoryPublications MemoryMissions DurableStore MemoryStore MemoryInvariant MemoryReachable Scenario IntentWrites.
From stdpp Require Import options.

Section specs.
Context {RT : Runtime}.

(** ** Acceptance *)

Lemma acceptOperationalIntentLocked_Ok intent r s s' :
  acceptOperationalIntentLocked intent r s = (Ok tt, s') →
  ∃ current,
    latestOperationalIntent s (Intent_ID intent) = Some current
    ∧ Intent_Version current = Intent_Version intent ∧ Intent_Revision current = r
    ∧ hasOutstandingMissionDeploymentForIntentLocked s (Intent_ID intent) = false
    ∧ let i' := intent <| Intent_Revision := int64_succ r |> in
      s' = s <| operationalIntents :=
        range_update (prior_accepted i') (supersede_prior i')
          (<[intent_key i' := i']> (operationalIntents s)) |>.
Proof using Type.
  unfold acceptOperationalIntentLocked.
  destruct (latestOperationalIntent s (Intent_ID intent)) as [current|]; [|done].
  destruct (_ || _) eqn:Hcas; [done|]. to_prop.
  destruct (hasOutstandingMissionDeploymentForIntentLocked _ _) eqn:Ho; [done|].
  intros [= <-]. eauto 10.
Qed.

Lemma prior_accepted_true i j :
  prior_accepted i j = true ↔
  Intent_ID j = Intent_ID i ∧ Intent_Version j < Intent_Version i ∧ is_accepted j.
Proof using Type.
  unfold prior_accepted, is_accepted.
  rewrite negb_true_iff, !orb_false_iff, !negb_false_iff, !String.eqb_eq, Z.leb_gt. tauto.
Qed.

(** Acceptance.  When a version is accepted, its row is the new one, every
    earlier accepted version of the intent becomes superseded at the time of
    the acceptance, no other row of the table changes, nothing else of the
    store changes, and it is the only accepted version of the intent left. *)
Theorem accept_supersedes intent r s s' :
  keyed intent_key (operationalIntents s) →
  AcceptOperationalIntent intent r s = (Ok tt, s') →
  let i' := intent <| Intent_Revision := int64_succ r |> in
  s' = s <| operationalIntents := operationalIntents s' |>
  ∧ operationalIntents s' !! intent_key intent = Some i'
  ∧ (∀ k p, k ≠ intent_key intent → operationalIntents s !! k = Some p →
       operationalIntents s' !! k
         = Some (if decide (Intent_ID p = Intent_ID intent ∧ is_accepted p)
                 then supersede_prior i' p else p))
  ∧ (∀ k, operationalIntents s !! k = None → operationalIntents s' !! k = None)
  ∧ (∀ k p, operationalIntents s' !! k = Some p → Intent_ID p = Intent_ID intent →
       is_accepted p → k = intent_key intent).
Proof using Type.
  intros Hk Hok i'. apply acceptOperationalIntentLocked_Ok in Hok
    as (current & Hl & Hv & Hr & _ & ->). fold i'. cbn [operationalIntents with_field].
  apply latestOperationalIntent_Some in Hl as (Hcur & Hid & Hmax); [|done].
  assert (∀ k p, k ≠ intent_key intent → operationalIntents s !! k = Some p →
            prior_accepted i' p = true ↔ Intent_ID p = Intent_ID intent ∧ is_accepted p) as Hprior.
  { intros k p Hne Hp. rewrite prior_accepted_true. cbn. split; [tauto|]. intros [Hpd Ha].
    split; [done|]. split; [|done]. specialize (Hmax _ _ Hp Hpd).
    assert (Intent_Version p ≠ Intent_Version intent); [|lia]. intros Hpv. apply Hne.
    rewrite (Hk _ _ Hp). by apply intent_key_inj. }
  split; [done|]. change (intent_key i') with (intent_key intent). cbn. repeat split.
  - rewrite lookup_range_update, lookup_insert_eq. cbn.
    destruct (prior_accepted i' i') eqn:E; [|done]. apply prior_accepted_true in E as (_ & ? & _). lia.
  - intros k p Hne Hp. rewrite lookup_range_update, lookup_insert_ne, Hp by done. cbn. f_equal.
    case_decide as Hd; [by rewrite (proj2 (Hprior _ _ Hne Hp) Hd)|].
    destruct (prior_accepted i' p) eqn:E; [|done]. destruct Hd. by apply (Hprior k p Hne Hp).
  - intros k Hn. rewrite lookup_range_update.
    destruct (decide (k = intent_key intent)) as [->|Hne].
    + exfalso. unfold intent_key in Hn. rewrite Hv in Hcur. congruence.
    + by rewrite lookup_insert_ne, Hn.
  - intros k p Hp Hpd Ha. rewrite lookup_range_update, fmap_Some in Hp.
    destruct Hp as (j & Hj & ->). destruct (decide (k = intent_key intent)) as [->|Hne]; [done|].
    rewrite lookup_insert_ne in Hj by done. destruct (prior_accepted i' j) eqn:E; [done|].
    rewrite (proj2 (Hprior _ _ Hne Hj)) in E; done.
Qed.

(** ** Queries *)

Lemma latest_by_id_fold l acc id :
  let better := newer_intent in
  foldl latest_by_id_step acc l !! id
    = foldl (scan_step newer_intent) (acc !! id) (select (λ i, Intent_ID i =s= id) l).
Proof using Type.
  cbn. revert acc. induction l as [|i l IH]; intros acc; [done|]. cbn [foldl]. rewrite IH, select_cons.
  destruct (String.eqb_spec (Intent_ID i) id) as [<-|Hne].
  - cbn. f_equal. unfold latest_by_id_step. destruct (acc !! Intent_ID i) as [j|] eqn:E; cbn.
    + destruct (newer_intent i j); [by rewrite lookup_insert_eq|done].
    + by rewrite lookup_insert_eq.
  - f_equal. unfold latest_by_id_step. repeat case_match; try done; by rewrite lookup_insert_ne.
Qed.

Lemma latest_by_id_lookup s id :
  foldl latest_by_id_step ∅ (range_values (operationalIntents s)) !! id = latestOperationalIntent s id.
Proof using Type.
  pose proof (latest_by_id_fold (range_values (operationalIntents s)) ∅ id) as H. cbn in H.
  rewrite H, lookup_empty. unfold latestOperationalIntent, scan_best. f_equal.
  apply select_ext. intros i _. by rewrite negb_involutive.
Qed.

(** Listing.  ListOperationalIntents returns the latest version of every
    intent of the aircraft (of all aircraft for the empty identifier), each
    once and in order of planned start. *)
Theorem list_intents_latest aircraftID s :
  ∃ l, ListOperationalIntents aircraftID s = Ok l
    ∧ NoDup (Intent_ID <$> l)
    ∧ StronglySorted (λ a b, Intent_PlannedStartAt a ≤ Intent_PlannedStartAt b) l
    ∧ ∀ i, i ∈ l ↔ latestOperationalIntent s (Intent_ID i) = Some i
                   ∧ (aircraftID = EmptyString ∨ Intent_AircraftID i = aircraftID).
Proof using Type.
  unfold ListOperationalIntents. eexists. split; [done|].
  set (m := foldl latest_by_id_step ∅ (range_values (operationalIntents s))).
  assert (∀ k i, m !! k = Some i → Intent_ID i = k) as Hm.
  { intros k i. subst m. rewrite latest_by_id_lookup. intros Hl.
    apply scan_best_Some in Hl as [[_ Hid]%elem_of_select _]; [|auto with go].
    rewrite negb_involutive in Hid. by apply String.eqb_eq. }
  split; [|split].
  - rewrite sort_slice_perm. unfold range_values.
    assert (NoDup (Intent_ID <$> (map_range m).*2)) as Hnd.
    { replace (Intent_ID <$> (map_range m).*2) with ((map_range m).*1); [apply NoDup_range|].
      rewrite <- list_fmap_compose. apply list_fmap_ext. intros n [k i] Hn.
      apply list_elem_of_lookup_2, elem_of_range in Hn. cbn. symmetry. eauto. }
    revert Hnd. generalize ((map_range m).*2). intros l. induction l as [|i l IH]; [done|].
    rewrite fmap_cons, NoDup_cons, select_cons. intros [Hi Hl]. case_match; [|auto].
    rewrite fmap_cons, NoDup_cons. split; [|auto]. intros (j & Hj & Hin)%list_elem_of_fmap.
    apply Hi. rewrite Hj. apply list_elem_of_fmap_2. by apply elem_of_select in Hin as [? _].
  - eapply StronglySorted_impl; [|apply sort_slice_sorted; apply by_Z_weak].
    intros a b. unfold not_after, Before. lia.
  - intros i. rewrite elem_of_sort_slice, elem_of_select, elem_of_range_values, orb_true_iff, !String.eqb_eq.
    split.
    + intros [[k Hk] Hac]. split; [|done]. pose proof (Hm _ _ Hk) as ->. by rewrite <- latest_by_id_lookup.
    + intros [Hl Hac]. split; [|done]. exists (Intent_ID i). subst m. by rewrite latest_by_id_lookup.
Qed.

(** ** Replacing the volumes of a version *)

Definition in_scope (id : string) (v : Z) (volume : OperationalVolume) : Prop :=
  Volume_IntentID volume = id ∧ Volume_IntentVersion volume = v.

Lemma volume_in_scope_true id v volume : volume_in_scope id v volume = true ↔ in_scope id v volume.
Proof using Type.
  unfold volume_in_scope, in_scope. by rewrite andb_true_iff, String.eqb_eq, Z.eqb_eq.
Qed.

Lemma volume_outside_scope_None id v volumes :
  volume_outside_scope id v volumes = None ↔ ∀ x, x ∈ volumes → in_scope id v x.
Proof using Type.
  unfold volume_outside_scope, in_scope. split.
  - intros H x Hx. destruct (List.find _ volumes) eqn:Hf; [done|].
    pose proof (List.find_none _ _ Hf x) as Hn. cbn in Hn. rewrite <- list_elem_of_In in Hn.
    specialize (Hn Hx). to_prop. done.
  - intros H. destruct (List.find _ volumes) as [x|] eqn:Hf; [|done].
    apply List.find_some in Hf as [Hx Hf]. apply list_elem_of_In in Hx. destruct (H x Hx) as [Hi Hv].
    cbn in Hf. by rewrite Hi, Hv, String.eqb_refl, Z.eqb_refl in Hf.
Qed.

(** Within one version the key determines the identifier of the volume. *)
Lemma operationalVolumeKey_scope id v x y :
  in_scope id v x → in_scope id v y →
  operationalVolumeKey x = operationalVolumeKey y ↔ Volume_ID x = Volume_ID y.
Proof using Type.
  intros [Hxi Hxv] [Hyi Hyv]. unfold operationalVolumeKey. rewrite Hxi, Hxv, Hyi, Hyv.
  split; [|by intros ->]. intros H%(inj (String.append id))%(inj (String.append ":"))%(inj (String.append (Itoa v))).
  by apply (inj (String.append ":")).
Qed.

(** Later volumes of the list overwrite earlier ones with the same key. *)
Lemma insert_volumes_lookup volumes m k :
  insert_volumes volumes m !! k
    = match List.find (λ x, operationalVolumeKey x =s= k) (rev volumes) with
      | Some x => Some x
      | None => m !! k
      end.
Proof using Type.
  unfold insert_volumes. revert m. induction volumes as [|x l IH]; intros m; [done|].
  cbn [foldl rev]. rewrite IH. clear IH. generalize (rev l) as l'. intros l'.
  induction l' as [|y l' IH]; cbn.
  - destruct (String.eqb_spec (operationalVolumeKey x) k) as [<-|]; [by rewrite lookup_insert_eq|].
    by rewrite lookup_insert_ne.
  - by destruct (_ =s= _).
Qed.

(** Replacement of volumes.  A successful replacement leaves under a
    version of an intent exactly the volumes given for it (their identifiers
    being distinct), drops every other volume of the version, and keeps each
    volume of another version whose key is not that of a given volume. *)
Theorem replace_volumes_exact id v volumes s s' :
  keyed operationalVolumeKey (operationalVolumes s) → NoDup (Volume_ID <$> volumes) →
  ReplaceOperationalVolumes id v volumes s = (Ok tt, s') →
  s' = s <| operationalVolumes := operationalVolumes s' |>
  ∧ (∀ x, in_scope id v x →
       (∃ k, operationalVolumes s' !! k = Some x) ↔ x ∈ volumes)
  ∧ (∀ x, ¬ in_scope id v x → operationalVolumeKey x ∉ operationalVolumeKey <$> volumes →
       operationalVolumes s !! operationalVolumeKey x = Some x →
       operationalVolumes s' !! operationalVolumeKey x = Some x).
Proof using Type.
  intros Hk Hnd. unfold ReplaceOperationalVolumes.
  destruct (hasOutstandingMissionDeploymentForIntentLocked _ _); [done|].
  destruct (volume_outside_scope id v volumes) eqn:Hscope; [done|]. intros [= <-].
  rewrite volume_outside_scope_None in Hscope. cbn. split; [done|].
  set (kept := range_delete (volume_in_scope id v) (operationalVolumes s)).
  assert (∀ k x, List.find (λ y, operationalVolumeKey y =s= k) (rev volumes) = Some x →
                 x ∈ volumes ∧ operationalVolumeKey x = k) as Hfound.
  { intros k x [Hx Hkx]%List.find_some. apply String.eqb_eq in Hkx.
    by rewrite <- in_rev, <- list_elem_of_In in Hx. }
  assert (∀ x, x ∈ volumes → List.find (λ y, operationalVolumeKey y =s= operationalVolumeKey x)
                               (rev volumes) = Some x) as Hfind.
  { intros x Hx. destruct (List.find _ (rev volumes)) as [y|] eqn:Hf.
    - apply Hfound in Hf as [Hy Hyx].
      rewrite (operationalVolumeKey_scope id v) in Hyx by auto. f_equal.
      apply list_elem_of_lookup in Hx as [i Hi], Hy as [j Hj].
      assert (i = j) as ->; [|congruence].
      eapply NoDup_lookup; [exact Hnd| |]; rewrite list_lookup_fmap; [by rewrite Hi|].
      rewrite Hj. cbn. congruence.
    - pose proof (List.find_none _ _ Hf x) as Hn. cbn in Hn.
      rewrite <- in_rev, <- list_elem_of_In, String.eqb_refl in Hn. by specialize (Hn Hx). }
  split.
  - intros x Hx. split.
    + intros [k Hin]. rewrite insert_volumes_lookup in Hin.
      destruct (List.find _ _) as [y|] eqn:Hf; [apply Hfound in Hf as [? _]; congruence|].
      exfalso. subst kept. rewrite lookup_range_delete in Hin.
      destruct (operationalVolumes s !! k) as [y|]; [|done].
      destruct (volume_in_scope id v y) eqn:E; [done|]. simplify_eq.
      by apply volume_in_scope_true in Hx; rewrite Hx in E.
    + intros Hin. exists (operationalVolumeKey x). by rewrite insert_volumes_lookup, Hfind.
  - intros x Hx Hfresh Hin. rewrite insert_volumes_lookup.
    destruct (List.find _ _) as [y|] eqn:Hf.
    + apply Hfound in Hf as [Hy Hyx]. destruct Hfresh. rewrite <- Hyx. by apply list_elem_of_fmap_2.
    + subst kept. rewrite lookup_range_delete, Hin.
      destruct (volume_in_scope id v x) eqn:E; [|done]. by apply volume_in_scope_true in E.
Qed.

(** ** The keys of the volumes *)

Lemma operationalVolumeKey_split x :
  operationalVolumeKey x
    = operationalIntentKey (Volume_IntentID x) (Volume_IntentVersion x) +:+ ":" +:+ Volume_ID x.
Proof using Type.
  unfold operationalVolumeKey, operationalIntentKey. by rewrite <- !string_app_assoc.
Qed.

Definition colon_free (s : string) : Prop := string_has colon s = false.

(** Volume keys.  Two volumes whose identifiers contain no colon have the
    same key only if they are the same volume of the same version. *)
Theorem volume_key_injective x y :
  colon_free (Volume_ID x) → colon_free (Volume_ID y) →
  operationalVolumeKey x = operationalVolumeKey y →
  Volume_IntentID x = Volume_IntentID y
  ∧ Volume_IntentVersion x = Volume_IntentVersion y ∧ Volume_ID x = Volume_ID y.
Proof using Type.
  intros Hx Hy. rewrite !operationalVolumeKey_split. intros [Hkey Hid]%(split_last colon); [|done..].
  by apply operationalIntentKey_inj' in Hkey as [? ?].
Qed.

(** Identifiers come from requests; nothing keeps them free of colons. *)
Definition colliding_volume_1 : OperationalVolume :=
  zero_OperationalVolume <| Volume_IntentID := "a" |> <| Volume_IntentVersion := 1 |>
                         <| Volume_ID := "2:c" |>.
Definition colliding_volume_2 : OperationalVolume :=
  zero_OperationalVolume <| Volume_IntentID := "a:1" |> <| Volume_IntentVersion := 2 |>
                         <| Volume_ID := "c" |>.

(** Collision of volume keys.  An identifier with a colon can give a
    volume the key of a volume of another intent: recording the one destroys
    the other, and the intent that owned it loses its airspace. *)
Theorem volume_key_collision :
  let s1 := (RecordOperationalVolume colliding_volume_1 NewStore).2 in
  let s2 := (RecordOperationalVolume colliding_volume_2 s1).2 in
  Volume_IntentID colliding_volume_1 ≠ Volume_IntentID colliding_volume_2
  ∧ operationalVolumeKey colliding_volume_1 = operationalVolumeKey colliding_volume_2
  ∧ (∃ k, operationalVolumes s1 !! k = Some colliding_volume_1)
  ∧ (∀ k v, operationalVolumes s2 !! k = Some v →
            Volume_IntentID v ≠ Volume_IntentID colliding_volume_1).
Proof using Type.
  cbn zeta. split; [done|]. split; [done|]. unfold RecordOperationalVolume.
  assert (∀ s id, flightRecords s = ∅ → hasOutstandingMissionDeploymentForIntentLocked s id = false) as Hno.
  { intros s id Hf. unfold hasOutstandingMissionDeploymentForIntentLocked. rewrite Hf.
    apply range_any_false. intros k v. by rewrite lookup_empty. }
  rewrite Hno by done. cbn [snd done_with]. rewrite Hno by done. cbn. split.
  - exists (operationalVolumeKey colliding_volume_1). by rewrite lookup_insert_eq.
  - intros k v. rewrite lookup_insert_Some. intros [[_ <-]|[Hne Hv]]; [done|].
    apply lookup_insert_Some in Hv as [[Hk _]|[_ Hv]]; [|by rewrite lookup_empty in Hv].
    destruct Hne. by rewrite <- Hk.
Qed.

(** ** An intent under deployment is frozen *)

(** The two tables hold the same versions of the intent. *)
Definition same_versions (id : string) (m m' : gmap string OperationalIntent) : Prop :=
  ∀ k i, Intent_ID i = id → m' !! k = Some i ↔ m !! k = Some i.

#[local] Instance same_versions_refl id : Reflexive (same_versions id).
Proof using Type. intros m k i _. done. Qed.

Lemma same_versions_insert id m k0 j :
  keyed intent_key m → k0 = intent_key j → Intent_ID j ≠ id → same_versions id m (<[k0 := j]> m).
Proof using Type.
  intros Hm -> Hne k i Hid. rewrite lookup_insert_Some. split; [naive_solver|].
  intros Hi. right. split; [|done]. apply Hm in Hi as ->. intros [? _]%intent_key_inj. congruence.
Qed.

Lemma same_versions_range_update id m m' j f :
  Intent_ID j ≠ id → (∀ p, Intent_ID (f p) = Intent_ID p) →
  same_versions id m m' → same_versions id m (range_update (prior_accepted j) f m').
Proof using Type.
  intros Hne Hf Hm k i Hid. rewrite <- (Hm k i Hid), lookup_range_update, fmap_Some. split.
  - intros (p & Hp & ->). destruct (prior_accepted j p) eqn:E; [|done].
    apply prior_accepted_true in E as [E _]. rewrite Hf in Hid. congruence.
  - intros Hi. exists i. split; [done|]. destruct (prior_accepted j i) eqn:E; [|done].
    apply prior_accepted_true in E as [E _]. congruence.
Qed.

Lemma updateOperationalIntentLocked_frozen intent r s id :
  keyed intent_key (operationalIntents s) →
  hasOutstandingMissionDeploymentForIntentLocked s id = true →
  same_versions id (operationalIntents s) (operationalIntents (updateOperationalIntentLocked intent r s).2).
Proof using Type.
  intros Hm Ho. unfold updateOperationalIntentLocked.
  destruct (latestOperationalIntent s (Intent_ID intent)); [|done]. destruct (_ || _); [done|].
  destruct (decide (Intent_ID intent = id)) as [->|Hne]; [by rewrite Ho|].
  destruct (hasOutstandingMissionDeploymentForIntentLocked s (Intent_ID intent)); [done|]. cbn.
  set (i' := intent <| Intent_Revision := int64_succ r |>).
  assert (same_versions id (operationalIntents s) (<[intent_key i' := i']> (operationalIntents s)))
    by by apply same_versions_insert.
  case_match; [|done]. by apply same_versions_range_update.
Qed.

Lemma acceptOperationalIntentLocked_frozen intent r s id :
  keyed intent_key (operationalIntents s) →
  hasOutstandingMissionDeploymentForIntentLocked s id = true →
  same_versions id (operationalIntents s) (operationalIntents (acceptOperationalIntentLocked intent r s).2).
Proof using Type.
  intros Hm Ho. unfold acceptOperationalIntentLocked.
  destruct (latestOperationalIntent s (Intent_ID intent)); [|done]. destruct (_ || _); [done|].
  destruct (decide (Intent_ID intent = id)) as [->|Hne]; [by rewrite Ho|].
  destruct (hasOutstandingMissionDeploymentForIntentLocked s (Intent_ID intent)); [done|]. cbn.
  apply same_versions_range_update; [done..|]. by apply same_versions_insert.
Qed.

(** Freeze.  While a deployment of a flight of an intent has no known
    outcome, no call of any method changes or removes a version of the
    intent, nor adds one. *)
Theorem outstanding_freezes_intent A (e : Durable.storeE A) s id :
  keyed intent_key (operationalIntents s) →
  hasOutstandingMissionDeploymentForIntentLocked s id = true →
  ∀ k i, Intent_ID i = id →
    operationalIntents (handle_store e s).2 !! k = Some i ↔ operationalIntents s !! k = Some i.
Proof using Type.
  intros Hm Ho. change (same_versions id (operationalIntents s) (operationalIntents (handle_store e s).2)).
  destruct (touches_intents e) eqn:Ht; [|by rewrite intents_frame].
  pose proof (updateOperationalIntentLocked_frozen) as Hu.
  pose proof (acceptOperationalIntentLocked_frozen) as Ha.
  destruct e; try done; cbn; try solve [auto].
  - unfold CreateOperationalIntent.
    destruct (decide (Intent_ID intent = id)) as [->|Hne]; [by rewrite Ho|].
    repeat case_match; try done. cbn. by apply same_versions_insert.
  - unfold ActivateOperationalIntent. repeat case_match; try done. by apply Hu.
  - unfold ReplaceOperationalIntent.
    destruct (decide (Intent_ID intent = id)) as [->|Hne].
    { rewrite Ho. by repeat case_match. }
    repeat case_match; try done; cbn; by apply same_versions_insert.
  - unfold AcceptOperationalIntentAndRequestPublication. specialize (Ha intent expectedRevision s id Hm Ho).
    by destruct (acceptOperationalIntentLocked intent expectedRevision s) as [[] s'].
  - unfold UpdateOperationalIntentAndRequestPublication. specialize (Hu intent expectedRevision s id Hm Ho).
    by destruct (updateOperationalIntentLocked intent expectedRevision s) as [[] s'].
Qed.
End specs.

(** ** Witnesses *)

#[local] Existing Instance reference_runtime.

Lemma accept_supersedes_witness :
  let s' := (AcceptOperationalIntent demo_reaccepted 0 (demo redraft_calls)).2 in
  AcceptOperationalIntent demo_reaccepted 0 (demo redraft_calls) = (Ok tt, s')
  ∧ ∃ p, operationalIntents s' !! intent_key demo_row = Some p
         ∧ Intent_Status p = IntentStatusSuperseded ∧ Intent_SupersededAt p = Some 8.
Proof.
  cbn zeta. split; [vm_compute; reflexivity|].
  destruct (accept_supersedes demo_reaccepted 0 (demo redraft_calls)
              (AcceptOperationalIntent demo_reaccepted 0 (demo redraft_calls)).2
              (wf_intents _ (demo_wf _))) as (_ & _ & Hprior & _); [vm_compute; reflexivity|].
  eexists. split; [apply (Hprior _ demo_row); vm_compute; [discriminate|reflexivity]|].
  vm_compute. split; reflexivity.
Defined.

Definition demo_volume_2 : OperationalVolume := demo_volume <| Volume_ID := "v2" |>.

Lemma replace_volumes_exact_witness :
  let s' := (ReplaceOperationalVolumes "i1" 1 [demo_volume_2] (demo submitted_calls)).2 in
  ReplaceOperationalVolumes "i1" 1 [demo_volume_2] (demo submitted_calls) = (Ok tt, s')
  ∧ ¬ (∃ k, operationalVolumes s' !! k = Some demo_volume)
  ∧ (∃ k, operationalVolumes s' !! k = Some demo_volume_2).
Proof.
  cbn zeta. split; [vm_compute; reflexivity|].
  destruct (replace_volumes_exact "i1" 1 [demo_volume_2] (demo submitted_calls)
              (ReplaceOperationalVolumes "i1" 1 [demo_volume_2] (demo submitted_calls)).2
              (wf_volumes _ (demo_wf _))) as (_ & Hin & _);
    [apply (bool_decide_unpack _); vm_compute; exact I|vm_compute; reflexivity|].
  split.
  - intros H. apply Hin in H; [|split; reflexivity]. apply list_elem_of_singleton in H. discriminate H.
  - apply Hin; [split; reflexivity|]. by left.
Defined.

Lemma volume_key_injective_witness :
  operationalVolumeKey demo_volume_2 = operationalVolumeKey (demo_volume <| Volume_ID := "v2" |>)
  ∧ Volume_ID demo_volume_2 = Volume_ID (demo_volume <| Volume_ID := "v2" |>).
Proof.
  split; [reflexivity|].
  apply (volume_key_injective demo_volume_2 (demo_volume <| Volume_ID := "v2" |>)); reflexivity.
Defined.

Lemma outstanding_freezes_intent_witness :
  hasOutstandingMissionDeploymentForIntentLocked (demo deploying_calls) "i1" = true
  ∧ operationalIntents (handle_store (Durable.UpdateOperationalIntent demo_active 2) (demo deploying_calls)).2
      !! intent_key demo_active = Some (demo_active <| Intent_Revision := 2 |>).
Proof.
  split; [vm_compute; reflexivity|].
  apply (outstanding_freezes_intent _ (Durable.UpdateOperationalIntent demo_active 2) (demo deploying_calls) "i1");
    [apply (wf_intents _ (demo_wf _))|vm_compute; reflexivity..].
Defined.
