(* ===== verification/PublicationLeases.v ===== *)
(** * Leases of the publication outbox

    A claim leases a record to one worker and returns the revision it wrote;
    a lease keeps the others out until it expires, and a worker whose lease
    was taken over cannot write any more.  The same for the notifications of
    peers. *)

From S2P Require Import Prelude GoRuntime GoRange Domain Errors Program MemoryState MemoryFleet MemoryIntents MemoryPublications MemoryMissions DurableStore MemoryStore MemoryInvariant MemoryReachable Scenario.
From stdpp Require Import options.

(** ** The claim loops *)

Section claim_loop.
Context {V : Type} (f : V → V) (zero : V).

Definition claim_loop_step (acc : gmap string V * list V) (id : string) : gmap string V * list V :=
  let x := f (default zero (acc.1 !! id)) in (<[id := x]> acc.1, acc.2 ++ [x]).

Lemma claim_loop ids m l :
  NoDup ids → (∀ id, id ∈ ids → is_Some (m !! id)) →
  let r := foldl claim_loop_step (m, l) ids in
  (∀ k, r.1 !! k = if decide (k ∈ ids) then f <$> m !! k else m !! k)
  ∧ r.2 = l ++ ((λ id, f (default zero (m !! id))) <$> ids).
Proof.
  revert m l. induction ids as [|id ids IH]; intros m l Hnd Hids; cbn.
  { split; [|by rewrite app_nil_r]. intros k. case_decide as H; [by apply elem_of_nil in H|done]. }
  apply NoDup_cons in Hnd as [Hid Hnd].
  destruct (IH (<[id := f (default zero (m !! id))]> m) (l ++ [f (default zero (m !! id))]) Hnd) as [H1 H2].
  { intros id' Hid'. apply lookup_insert_is_Some'. right. apply Hids. by right. }
  change (claim_loop_step (m, l) id)
    with (<[id := f (default zero (m !! id))]> m, l ++ [f (default zero (m !! id))]). split.
  - intros k. rewrite H1. destruct (decide (k = id)) as [->|Hne].
    + rewrite decide_False by done. rewrite decide_True by by left. rewrite lookup_insert_eq.
      destruct (Hids id) as [x Hx]; [by left|]. by rewrite Hx.
    + rewrite lookup_insert_ne by done. destruct (decide (k ∈ ids)) as [Hk|Hk].
      * rewrite decide_True; [done|by right].
      * rewrite decide_False; [done|]. rewrite elem_of_cons. tauto.
  - rewrite H2, <- (assoc app). cbn. do 2 f_equal. apply list_fmap_ext. intros i id' Hi.
    rewrite lookup_insert_ne; [done|]. intros ->. apply Hid. by eapply list_elem_of_lookup_2.
Qed.
End claim_loop.

Lemma claim_publication_step_loop now leaseUntil acc id :
  claim_publication_step now leaseUntil acc id
    = claim_loop_step (claim_publication now leaseUntil) zero_OperationalIntentPublication acc id.
Proof. destruct acc. unfold claim_publication_step. by rewrite clonePublication_id. Qed.

Lemma claim_notification_step_loop now leaseUntil acc id :
  claim_notification_step now leaseUntil acc id
    = claim_loop_step (claim_notification now leaseUntil) zero_PeerNotification acc id.
Proof. by destruct acc. Qed.

Lemma foldl_ext' {A B} (f g : A → B → A) l a : (∀ a b, f a b = g a b) → foldl f a l = foldl g a l.
Proof. intros H. revert a. induction l as [|b l IH]; intros a; cbn; [done|]. by rewrite H. Qed.

(** [if len(ids) > limit { ids = ids[:limit] }] *)
Definition limited (limit : Z) (ids : list string) : list string :=
  if limit <? Z.of_nat (length ids) then take (Z.to_nat limit) ids else ids.

Lemma limited_take limit ids : 0 ≤ limit → limited limit ids = take (Z.to_nat limit) ids.
Proof.
  intros Hl. unfold limited. destruct (Z.ltb_spec limit (Z.of_nat (length ids))); [done|].
  rewrite take_ge by lia. done.
Qed.

Section leases.
Context {RT : Runtime}.

Lemma NoDup_selected_keys {V} (P : string * V → bool) (m : gmap string V) :
  NoDup (select P (map_range m)).*1.
Proof using Type.
  pose proof (NoDup_range m) as H. revert H. generalize (map_range m). intros l.
  induction l as [|[k v] l IH]; [done|]. rewrite fmap_cons, NoDup_cons, select_cons.
  intros [Hk Hl]. case_match; [|auto]. rewrite fmap_cons, NoDup_cons. split; [|auto].
  intros (x & Hx & Hin)%list_elem_of_fmap. apply Hk. cbn. cbn in Hx. rewrite Hx.
  apply list_elem_of_fmap_2. by apply elem_of_select in Hin as [? _].
Qed.

Lemma NoDup_due_publication_ids now s : NoDup (due_publication_ids now s).
Proof using Type.
  unfold due_publication_ids, sort_strings. rewrite sort_slice_perm. apply NoDup_selected_keys.
Qed.

Lemma NoDup_due_notification_ids now s : NoDup (due_notification_ids now s).
Proof using Type.
  unfold due_notification_ids, sort_strings. rewrite sort_slice_perm. apply NoDup_selected_keys.
Qed.

Lemma sorted_sort_strings l : StronglySorted (λ a b, string_lt b a = false) (sort_strings l).
Proof using Type. apply (sort_slice_sorted (by_string id)). apply by_string_weak. Qed.

(** What a claim of due publications does, for a positive limit. *)
Lemma ClaimDue_publications now leaseUntil limit s :
  0 < limit →
  let ids := take (Z.to_nat limit) (due_publication_ids now s) in
  ClaimDueOperationalIntentPublications now leaseUntil limit s
    = let r := foldl (claim_loop_step (claim_publication now leaseUntil) zero_OperationalIntentPublication)
                 (publications s, []) ids in
      done_with (s <| publications := r.1 |>) r.2.
Proof using Type.
  intros Hl ids. unfold ClaimDueOperationalIntentPublications.
  destruct (Z.leb_spec limit 0); [lia|].
  change (if limit <? _ then _ else _) with (limited limit (due_publication_ids now s)).
  rewrite limited_take by lia.
  rewrite (foldl_ext' _ _ _ _ (claim_publication_step_loop now leaseUntil)).
  by destruct (foldl _ _ _).
Qed.

Lemma due_publications_claimable now s limit :
  let ids := take limit (due_publication_ids now s) in
  NoDup ids ∧ ∀ id, id ∈ ids → ∃ p, publications s !! id = Some p ∧ publication_due now p = true.
Proof using Type.
  cbn. split.
  - eapply sublist_NoDup; [apply NoDup_due_publication_ids|apply sublist_take].
  - intros id (i & Hi & _)%elem_of_take. apply list_elem_of_lookup_2 in Hi.
    by apply elem_of_due_publication_ids in Hi.
Qed.

(** Claiming due work.  With a positive limit [n] the claim takes the
    first [n] due publications in the order of their identifiers: each of
    them is rewritten as leased and returned in that order, and no other
    record changes. *)
Theorem claim_due_spec now leaseUntil limit s s' claimed :
  0 < limit →
  ClaimDueOperationalIntentPublications now leaseUntil limit s = (Ok claimed, s') →
  ∃ ids,
    ids = take (Z.to_nat limit) (due_publication_ids now s)
    ∧ StronglySorted (λ a b, string_lt b a = false) (due_publication_ids now s)
    ∧ (∀ id, id ∈ due_publication_ids now s ↔
             ∃ p, publications s !! id = Some p ∧ publication_due now p = true)
    ∧ Forall2 (λ id q, ∃ p, publications s !! id = Some p ∧ q = claim_publication now leaseUntil p)
        ids claimed
    ∧ (∀ id, publications s' !! id
             = if decide (id ∈ ids) then claim_publication now leaseUntil <$> publications s !! id
               else publications s !! id)
    ∧ s' = s <| publications := publications s' |>.
Proof using Type.
  intros Hl. rewrite ClaimDue_publications by done. intros [= <- <-].
  set (ids := take (Z.to_nat limit) (due_publication_ids now s)).
  pose proof (due_publications_claimable now s (Z.to_nat limit)) as [Hnd Hdue]. fold ids in Hnd, Hdue.
  destruct (claim_loop (claim_publication now leaseUntil) zero_OperationalIntentPublication ids
              (publications s) [] Hnd) as [H1 H2].
  { intros id Hid. destruct (Hdue id Hid) as (p & Hp & _). eauto. }
  exists ids. split; [done|]. split; [apply sorted_sort_strings|].
  split; [apply elem_of_due_publication_ids|]. split; [|done].
  rewrite H2. cbn. apply Forall2_fmap_r, Forall_Forall2_diag, Forall_forall.
  intros id Hid. destruct (Hdue id Hid) as (p & Hp & _). exists p. by rewrite Hp.
Qed.

(** ** The records a call can write *)

Definition touches_publications {A} (e : Durable.storeE A) : bool :=
  match e with
  | Durable.AcceptOperationalIntentAndRequestPublication _ _ _
  | Durable.UpdateOperationalIntentAndRequestPublication _ _ _
  | Durable.RequestOperationalIntentPublication _
  | Durable.RequestOperationalIntentPublicationIfCurrent _ _ _ _
  | Durable.ClaimOperationalIntentPublication _ _ _
  | Durable.ClaimDueOperationalIntentPublications _ _ _
  | Durable.RenewOperationalIntentPublicationLease _ _ _
  | Durable.UpdateOperationalIntentPublication _ _
  | Durable.ConfirmOperationalIntentPublication _ _ _ => true
  | _ => false
  end.

Lemma publications_frame A (e : Durable.storeE A) s :
  touches_publications e = false → publications (handle_store e s).2 = publications s.
Proof using Type.
  destruct e; try done; intros _; cbn.
  all: unfold_method; try (match goal with |- context [foldl ?f ?x ?l] => destruct (foldl f x l) end);
    unfold CreateMission, createMissionLocked, CreateMissionDeployment, createMissionDeploymentLocked,
      UpdateOperationalIntent, AcceptOperationalIntent, updateOperationalIntentLocked,
      acceptOperationalIntentLocked;
    repeat case_match; done.
Qed.

Lemma updateOperationalIntentLocked_publications intent r s :
  publications (updateOperationalIntentLocked intent r s).2 = publications s.
Proof using Type. unfold updateOperationalIntentLocked. by repeat case_match. Qed.

Lemma acceptOperationalIntentLocked_publications intent r s :
  publications (acceptOperationalIntentLocked intent r s).2 = publications s.
Proof using Type. unfold acceptOperationalIntentLocked. by repeat case_match. Qed.

(** A relation between the records before and after a call that holds of an
    untouched record, of a requested, claimed, renewed and settled one. *)
Record record_relation {A} (e : Durable.storeE A) (id : string)
    (R : option OperationalIntentPublication → option OperationalIntentPublication → Prop) : Prop := {
  record_same o : R o o;
  record_requested request o : Publication_IntentID request = id →
    R o (publications (requestPublicationLocked request
           (NewStore <| publications := match o with Some p => <[id := p]> ∅ | None => ∅ end |>)) !! id);
  record_claimed now until p :
    match e with
    | Durable.ClaimOperationalIntentPublication id' now' until' =>
        id' = id ∧ now' = now ∧ until' = until
    | Durable.ClaimDueOperationalIntentPublications now' until' _ => now' = now ∧ until' = until
    | _ => False
    end → lease_held (Publication_LeaseUntil p) now = false →
    R (Some p) (Some (claim_publication now until p));
  record_renewed r until p :
    match e with
    | Durable.RenewOperationalIntentPublicationLease id' r' until' => id' = id ∧ r' = r ∧ until' = until
    | _ => False
    end → Publication_Revision p = r →
    R (Some p) (Some (p <| Publication_LeaseUntil := Some until |>));
  record_settled q r p :
    match e with
    | Durable.UpdateOperationalIntentPublication q' r' => q' = q ∧ r' = r
    | Durable.ConfirmOperationalIntentPublication q' r' _ => q' = q ∧ r' = r
    | _ => False
    end → Publication_IntentID q = id → Publication_Revision p = r →
    R (Some p) (Some (settle_publication q r));
}.

Lemma requestPublicationLocked_local request s id :
  publications (requestPublicationLocked request s) !! id
    = if decide (Publication_IntentID request = id)
      then publications (requestPublicationLocked request
             (NewStore <| publications :=
                match publications s !! id with Some p => <[id := p]> ∅ | None => ∅ end |>)) !! id
      else publications s !! id.
Proof using Type.
  unfold requestPublicationLocked. rewrite !clonePublication_id. cbn.
  case_decide as Hid; [subst id|].
  - destruct (publications s !! Publication_IntentID request) as [p|] eqn:Hp.
    + rewrite lookup_insert_eq. unfold carry_over. by case_match; cbn; rewrite !lookup_insert_eq.
    + rewrite lookup_empty. cbn. by rewrite !lookup_insert_eq.
  - destruct (publications s !! Publication_IntentID request) as [p|] eqn:Hp.
    + unfold carry_over. by case_match; cbn; rewrite lookup_insert_ne.
    + cbn. by rewrite lookup_insert_ne.
Qed.

Lemma handle_record A (e : Durable.storeE A) s id R :
  record_relation e id R → R (publications s !! id) (publications (handle_store e s).2 !! id).
Proof using Type.
  intros [Hrefl Hreq Hclaim Hrenew Hsettle].
  assert (∀ request s', publications s' = publications s →
    R (publications s !! id) (publications (requestPublicationLocked request s') !! id)) as Hrequest.
  { intros request s' Hs'. rewrite requestPublicationLocked_local, Hs'. case_decide; auto. }
  destruct (touches_publications e) eqn:Ht; [|by rewrite publications_frame].
  destruct e; try done; cbn.
  - unfold AcceptOperationalIntentAndRequestPublication.
    pose proof (acceptOperationalIntentLocked_publications intent expectedRevision s) as Hp.
    destruct (acceptOperationalIntentLocked intent expectedRevision s) as [[] s']; cbn in *;
      [by apply Hrequest|by rewrite Hp].
  - unfold UpdateOperationalIntentAndRequestPublication.
    pose proof (updateOperationalIntentLocked_publications intent expectedRevision s) as Hp.
    destruct (updateOperationalIntentLocked intent expectedRevision s) as [[] s']; cbn in *;
      [by apply Hrequest|by rewrite Hp].
  - unfold RequestOperationalIntentPublication. case_match; [by apply Hrequest|done].
  - unfold RequestOperationalIntentPublicationIfCurrent. repeat case_match; try done.
    by apply Hrequest.
  - unfold ClaimOperationalIntentPublication.
    destruct (publications s !! intentID) as [p|] eqn:Hp; [|done].
    destruct (lease_held _ _) eqn:Hheld; [done|]. cbn. rewrite clonePublication_id.
    destruct (decide (intentID = id)) as [->|Hne]; [|by rewrite lookup_insert_ne].
    rewrite lookup_insert_eq, Hp. by apply Hclaim.
  - destruct (Z.leb_spec limit 0) as [Hl|Hl].
    { unfold ClaimDueOperationalIntentPublications. apply Z.leb_le in Hl. by rewrite Hl. }
    rewrite ClaimDue_publications by done. cbn.
    pose proof (due_publications_claimable now s (Z.to_nat limit)) as [Hnd Hdue].
    edestruct (claim_loop (claim_publication now leaseUntil) zero_OperationalIntentPublication
                _ (publications s) [] Hnd) as [H1 _].
    { intros id' Hid'. destruct (Hdue id' Hid') as (p & Hp & _). eauto. }
    cbn in H1. rewrite H1. case_decide as Hid; [|done].
    destruct (Hdue id Hid) as (p & Hp & Hpd). rewrite Hp. cbn. apply Hclaim.
    { done. } unfold publication_due in Hpd. by to_prop.
  - unfold RenewOperationalIntentPublicationLease.
    destruct (publications s !! intentID) as [p|] eqn:Hp; [|done].
    destruct (_ <>z _) eqn:Hr; [done|]. to_prop. cbn. rewrite clonePublication_id.
    destruct (decide (intentID = id)) as [->|Hne]; [|by rewrite lookup_insert_ne].
    rewrite lookup_insert_eq, Hp. by eapply Hrenew.
  - unfold UpdateOperationalIntentPublication.
    destruct (publications s !! Publication_IntentID publication) as [p|] eqn:Hp; [|done].
    destruct (_ <>z _) eqn:Hr; [done|]. to_prop. cbn [snd done_with publications with_field].
    rewrite clonePublication_id.
    change (Publication_IntentID (settle_publication publication expectedRevision))
      with (Publication_IntentID publication).
    destruct (decide (Publication_IntentID publication = id)) as [Hid|Hne].
    + rewrite Hid in *. rewrite lookup_insert_eq, Hp. by eapply Hsettle.
    + by rewrite lookup_insert_ne.
  - unfold ConfirmOperationalIntentPublication.
    destruct (publications s !! Publication_IntentID publication) as [p|] eqn:Hp; [|done].
    destruct (_ <>z _) eqn:Hr; [done|]. to_prop.
    cbn [snd done_with enqueuePeerNotificationsLocked publications with_field].
    rewrite clonePublication_id.
    change (Publication_IntentID (settle_publication publication expectedRevision))
      with (Publication_IntentID publication).
    destruct (decide (Publication_IntentID publication = id)) as [Hid|Hne].
    + rewrite Hid in *. rewrite lookup_insert_eq, Hp. by eapply Hsettle.
    + by rewrite lookup_insert_ne.
Qed.

(** A request over an existing record advances its revision and keeps its lease. *)
Lemma requested_record request p id :
  Publication_IntentID request = id →
  ∃ q, publications (requestPublicationLocked request (NewStore <| publications := <[id := p]> ∅ |>)) !! id
         = Some q
    ∧ Publication_Revision q = int64_succ (Publication_Revision p)
    ∧ Publication_LeaseUntil q = Publication_LeaseUntil p.
Proof using Type.
  intros <-. unfold requestPublicationLocked. rewrite clonePublication_id. cbn.
  rewrite lookup_insert_eq. unfold carry_over. case_match; cbn; rewrite lookup_insert_eq; eauto.
Qed.

(** ** Fencing *)

(** The revision a worker quotes when it renews, reports or confirms. *)
Definition worker_write {A} (e : Durable.storeE A) : option (string * Z) :=
  match e with
  | Durable.RenewOperationalIntentPublicationLease id r _ => Some (id, r)
  | Durable.UpdateOperationalIntentPublication p r
  | Durable.ConfirmOperationalIntentPublication p r _ => Some (Publication_IntentID p, r)
  | _ => None
  end.

Definition publications_room (m : gmap string OperationalIntentPublication) : Prop :=
  ∀ k p, m !! k = Some p → - 2 ^ 63 ≤ Publication_Revision p < 2 ^ 63 - 1.

Definition publication_step (s s' : Store) : Prop := step s s' ∧ publications_room (publications s).

(** The record keeps or advances its revision. *)
Definition advances (o o' : option OperationalIntentPublication) : Prop :=
  match o, o' with
  | Some p, Some q => Publication_Revision p ≤ Publication_Revision q
  | Some _, None => False
  | None, _ => True
  end.

Lemma handle_advances A (e : Durable.storeE A) s id :
  publications_room (publications s) →
  advances (publications s !! id) (publications (handle_store e s).2 !! id).
Proof using Type.
  intros Hroom.
  assert (∀ p, publications s !! id = Some p → int64_succ (Publication_Revision p) = Publication_Revision p + 1) as Hs.
  { intros p Hp. specialize (Hroom _ _ Hp). apply int64_succ_small. lia. }
  cut ((∀ p, publications s !! id = Some p → int64_succ (Publication_Revision p) = Publication_Revision p + 1) →
       advances (publications s !! id) (publications (handle_store e s).2 !! id)); [auto|].
  apply (handle_record A e s id (λ o o', (∀ p, o = Some p → int64_succ (Publication_Revision p) = Publication_Revision p + 1)
                                         → advances o o')).
  split.
  - intros [p|] _; cbn; [lia|done].
  - intros request [p|] Hid H; [|done]. destruct (requested_record request p id Hid) as (q & Hq & Hr & _).
    rewrite Hq. cbn. rewrite Hr, H by done. lia.
  - intros now until p _ _ H. cbn. rewrite H by done. lia.
  - intros r until p _ _ _. cbn. lia.
  - intros q r p _ _ Hr H. cbn. rewrite <- Hr, H by done. lia.
Qed.

Lemma publication_steps_advance s s' id :
  rtc publication_step s s' → advances (publications s !! id) (publications s' !! id).
Proof using Type.
  induction 1 as [s|s1 s2 s3 [[A [e <-]] Hroom] _ IH]; [destruct (publications s !! id); cbn; [lia|done]|].
  pose proof (handle_advances _ e s1 id Hroom) as H1. revert H1 IH. unfold advances.
  destruct (publications s1 !! id), (publications (handle_store e s1).2 !! id), (publications s3 !! id);
    try done. lia.
Qed.

Lemma worker_write_stale A (e : Durable.storeE A) s id r p :
  worker_write e = Some (id, r) → publications s !! id = Some p → Publication_Revision p ≠ r →
  handle_store e s = (match handle_store e s with (o, _) => o end, s)
  ∧ failed (handle_store e s) = true.
Proof using Type.
  intros Hw Hp Hr%Z.eqb_neq. destruct e; simplify_eq/=; cbn.
  - unfold RenewOperationalIntentPublicationLease. by rewrite Hp, Hr.
  - unfold UpdateOperationalIntentPublication. by rewrite Hp, Hr.
  - unfold ConfirmOperationalIntentPublication. by rewrite Hp, Hr.
Qed.

(** C12: Fencing.  Once another worker has claimed a publication whose record
    had revision [r], a worker that still quotes [r] can neither renew the
    lease nor report nor confirm, and its attempts change nothing: right
    after the claim and after any calls of the store that follow it, so long
    as no revision can wrap, that is, the claim and every later call find the
    revisions of all publications below 2^63 - 1. *)
Theorem stale_worker_fenced id p now leaseUntil s q s1 s2 A (e : Durable.storeE A) :
  publications_room (publications s) →
  publications s !! id = Some p →
  ClaimOperationalIntentPublication id now leaseUntil s = (Ok q, s1) →
  rtc publication_step s1 s2 →
  worker_write e = Some (id, Publication_Revision p) →
  failed (handle_store e s2) = true ∧ (handle_store e s2).2 = s2.
Proof using Type.
  intros Hroom Hp Hclaim Hsteps Hw. unfold ClaimOperationalIntentPublication in Hclaim.
  rewrite Hp in Hclaim. destruct (lease_held _ _); [done|]. injection Hclaim as <- <-.
  apply (publication_steps_advance _ _ id) in Hsteps. revert Hsteps. cbn.
  rewrite clonePublication_id, lookup_insert_eq. cbn. specialize (Hroom _ _ Hp).
  rewrite int64_succ_small by lia. destruct (publications s2 !! id) as [q|] eqn:Hq; [|done].
  intros Hadv. destruct (worker_write_stale _ e s2 id _ q Hw Hq) as [Hs Hf]; [lia|].
  split; [done|]. by rewrite Hs.
Qed.

(** ** Exclusion *)

(** Calls of clients other than the holder of a lease until [until], made
    before it expires. *)
Definition outsider {A} (id : string) (until : Time) (e : Durable.storeE A) : Prop :=
  match e with
  | Durable.ClaimOperationalIntentPublication id' now _ => id' = id → now < until
  | Durable.ClaimDueOperationalIntentPublications now _ _ => now < until
  | Durable.RenewOperationalIntentPublicationLease id' _ _ => id' ≠ id
  | Durable.UpdateOperationalIntentPublication p _
  | Durable.ConfirmOperationalIntentPublication p _ _ => Publication_IntentID p ≠ id
  | _ => True
  end.

Definition outsider_step (id : string) (until : Time) (s s' : Store) : Prop :=
  ∃ A (e : Durable.storeE A), outsider id until e ∧ (handle_store e s).2 = s'.

Definition leased (until : Time) (o : option OperationalIntentPublication) : Prop :=
  ∃ p, o = Some p ∧ Publication_LeaseUntil p = Some until.

Lemma handle_leased A (e : Durable.storeE A) s id until :
  outsider id until e → leased until (publications s !! id) →
  leased until (publications (handle_store e s).2 !! id).
Proof using Type.
  intros Ho. apply (handle_record A e s id (λ o o', leased until o → leased until o')). split.
  - done.
  - intros request o Hid (p & -> & Hp). destruct (requested_record request p id Hid) as (q & Hq & _ & Hl).
    exists q. split; [done|]. congruence.
  - intros now until' p He Hfree (p' & [= <-] & Hp). exfalso. rewrite Hp in Hfree. cbn in Hfree.
    unfold After in Hfree. apply Z.ltb_ge in Hfree.
    destruct e; try done; cbn in Ho; [destruct He as (-> & -> & ->); specialize (Ho eq_refl)|destruct He as [-> ->]];
      lia.
  - intros r until' p He _ _. destruct e; try done. by destruct He as (-> & _).
  - intros q r p He Hid _ _. destruct e; try done; destruct He as [-> _]; done.
Qed.

(** Exclusion.  From a successful claim until its lease expires, whatever
    the other clients call, neither a claim of the publication nor a claim
    of due work gives it to anyone else. *)
Theorem lease_exclusive id now leaseUntil s q s1 s2 :
  ClaimOperationalIntentPublication id now leaseUntil s = (Ok q, s1) →
  rtc (outsider_step id leaseUntil) s1 s2 →
  ∀ now' until' limit, now' < leaseUntil →
    ClaimOperationalIntentPublication id now' until' s2 = (Err ErrVersionConflict, s2)
    ∧ ∀ claimed s3, ClaimDueOperationalIntentPublications now' until' limit s2 = (Ok claimed, s3) →
                    publications s3 !! id = publications s2 !! id
                    ∧ id ∉ due_publication_ids now' s2.
Proof using Type.
  intros Hclaim Hsteps now' until' limit Hnow.
  assert (leased leaseUntil (publications s1 !! id)) as Hl.
  { revert Hclaim. unfold ClaimOperationalIntentPublication.
    destruct (publications s !! id); [|done]. destruct (lease_held _ _); [done|].
    intros [= <- <-]. cbn. rewrite clonePublication_id, lookup_insert_eq. eexists. by split. }
  assert (leased leaseUntil (publications s2 !! id)) as (p & Hp & Hu).
  { revert Hl. clear Hclaim. induction Hsteps as [|s1 s2 s3 (A & e & Ho & <-) _ IH]; [done|].
    intros Hl. apply IH. by apply handle_leased. }
  assert (lease_held (Publication_LeaseUntil p) now' = true) as Hheld.
  { rewrite Hu. cbn. unfold After. lia. }
  assert (id ∉ due_publication_ids now' s2) as Hnot.
  { intros (p' & Hp' & Hdue)%elem_of_due_publication_ids. assert (p' = p) as -> by congruence.
    unfold publication_due in Hdue. by rewrite Hheld, orb_true_r in Hdue. }
  split; [unfold ClaimOperationalIntentPublication; by rewrite Hp, Hheld|].
  intros claimed s3 Hdue. split; [|done]. destruct (Z.leb_spec limit 0) as [Hlim|Hlim].
  - unfold ClaimDueOperationalIntentPublications in Hdue. apply Z.leb_le in Hlim.
    rewrite Hlim in Hdue. by injection Hdue as <- <-.
  - rewrite ClaimDue_publications in Hdue by done. injection Hdue as <- <-. cbn.
    pose proof (due_publications_claimable now' s2 (Z.to_nat limit)) as [Hnd Hd].
    edestruct (claim_loop (claim_publication now' until') zero_OperationalIntentPublication
                _ (publications s2) [] Hnd) as [H1 _].
    { intros id' Hid'. destruct (Hd id' Hid') as (p' & Hp' & _). eauto. }
    cbn in H1. rewrite H1, decide_False; [done|]. intros Hin. apply Hnot.
    apply elem_of_take in Hin as (i & Hi & _). by eapply list_elem_of_lookup_2.
Qed.
End leases.

(** ** Witnesses *)

#[local] Existing Instance reference_runtime.

Definition demo_claim := ClaimOperationalIntentPublication "i1" 6 16 (demo published_calls).

Lemma claim_due_spec_witness :
  let r := ClaimDueOperationalIntentPublications 6 16 5 (demo published_calls) in
  (∃ claimed, r = (Ok claimed, r.2))
  ∧ publications r.2 !! "i1" = claim_publication 6 16 <$> publications (demo published_calls) !! "i1".
Proof.
  cbn zeta. split; [eexists; vm_compute; reflexivity|].
  edestruct (claim_due_spec 6 16 5 (demo published_calls)) as (ids & Hids & _ & Hdue & _ & Hpub & _);
    [lia|vm_compute; reflexivity|].
  specialize (Hpub "i1"). rewrite decide_True in Hpub; [exact Hpub|].
  rewrite Hids. vm_compute. apply list_elem_of_here.
Defined.

Lemma stale_worker_fenced_witness :
  let e := Durable.RenewOperationalIntentPublicationLease "i1" 0 99 in
  (∃ q, demo_claim = (Ok q, demo claimed_calls))
  ∧ failed (handle_store e (demo claimed_calls)) = true
  ∧ (handle_store e (demo claimed_calls)).2 = demo claimed_calls.
Proof.
  cbn zeta. split; [eexists; vm_compute; reflexivity|].
  eapply (stale_worker_fenced "i1" _ 6 16 (demo published_calls));
    [|vm_compute; reflexivity|vm_compute; reflexivity|apply rtc_refl|vm_compute; reflexivity].
  intros k p Hk.
  pose proof (map_check (λ p, (- 2 ^ 63 <=? Publication_Revision p) && (Publication_Revision p <? 2 ^ 63 - 1))
                (publications (demo published_calls)) ltac:(vm_compute; reflexivity) k p Hk) as Hp.
  cbv beta in Hp. to_prop. split; assumption.
Defined.

Lemma lease_exclusive_witness :
  (∃ q, demo_claim = (Ok q, demo claimed_calls))
  ∧ ClaimOperationalIntentPublication "i1" 15 30 (demo claimed_calls)
    = (Err ErrVersionConflict, demo claimed_calls).
Proof.
  split; [eexists; vm_compute; reflexivity|].
  refine (proj1 (lease_exclusive "i1" 6 16 (demo published_calls) _ (demo claimed_calls) (demo claimed_calls)
                   _ _ 15 30 0 _)); [vm_compute; reflexivity|apply rtc_refl|lia].
Defined.

(** * The outbox: coalescing requests and peer notifications

    Requests for the publication of an intent replace one another; a peer
    notification is enqueued once, claimed only while it is due, and never
    again after it was delivered. *)

Section notifications.
Context {RT : Runtime}.

(** ** Coalescing *)

(** The record apart from its revision. *)
Definition same_request (p q : OperationalIntentPublication) : Prop :=
  p <| Publication_Revision := 0 |> = q <| Publication_Revision := 0 |>.

Definition coalesced (p request : OperationalIntentPublication) : OperationalIntentPublication :=
  (carry_over p (request <| Publication_LeaseUntil := None |>))
    <| Publication_SyncStatus := PublicationSyncPending |>
    <| Publication_AttemptCount := 0 |> <| Publication_LastError := "" |>.

Lemma request_over request s p :
  publications s !! Publication_IntentID request = Some p →
  publications (requestPublicationLocked request s) !! Publication_IntentID request
    = Some (coalesced p request).
Proof using Type.
  intros Hp. unfold requestPublicationLocked. rewrite clonePublication_id. cbn. rewrite Hp.
  unfold coalesced, carry_over. by case_match; cbn; rewrite lookup_insert_eq.
Qed.

(** Coalescing.  A request made while an earlier one for the same intent is
    still waiting replaces it: apart from the revision, which counts both, the
    record is what the last request alone would have left, the external facts
    (version, OVN, manager, lease) included. *)
Theorem requests_coalesce request1 request2 s p :
  Publication_IntentID request1 = Publication_IntentID request2 →
  publications s !! Publication_IntentID request2 = Some p →
  Publication_SyncStatus p ≠ PublicationSyncWithdrawn →
  ∃ both last,
    publications (requestPublicationLocked request2 (requestPublicationLocked request1 s))
      !! Publication_IntentID request2 = Some both
    ∧ publications (requestPublicationLocked request2 s) !! Publication_IntentID request2 = Some last
    ∧ same_request both last
    ∧ Publication_Revision last = int64_succ (Publication_Revision p)
    ∧ Publication_Revision both = int64_succ (int64_succ (Publication_Revision p)).
Proof using Type.
  intros Hid Hp Hw. exists (coalesced (coalesced p request1) request2), (coalesced p request2).
  rewrite (request_over request2 s p Hp).
  rewrite (request_over request2 _ (coalesced p request1)).
  - apply String.eqb_neq in Hw. unfold coalesced, carry_over, same_request. cbn. by rewrite Hw.
  - rewrite <- Hid. apply request_over. by rewrite Hid.
Qed.

(** ** Enqueueing *)

Lemma enqueue_lookup l m id :
  foldl enqueue_step m l !! id
    = match m !! id with
      | Some n => Some n
      | None => (λ n, n <| Notification_Revision := 0 |>)
                  <$> List.find (λ n, Notification_ID n =s= id) l
      end.
Proof using Type.
  revert m. induction l as [|n l IH]; intros m; cbn; [by destruct (m !! id)|]. rewrite IH.
  assert (enqueue_step m n !! id = match m !! id with
            | Some n' => Some n'
            | None => if Notification_ID n =s= id then Some (n <| Notification_Revision := 0 |>) else None
            end) as ->; [|destruct (m !! id), (Notification_ID n =s= id); done].
  unfold enqueue_step.
  destruct (String.eqb_spec (Notification_ID n) id) as [Hid|Hne].
  - rewrite Hid. destruct (m !! id) eqn:E; [done|]. cbn.
    rewrite lookup_insert_eq. by destruct n.
  - destruct (m !! Notification_ID n) eqn:E; [by destruct (m !! id)|].
    rewrite lookup_insert_ne by done. by destruct (m !! id).
Qed.

(** Enqueueing.  Confirming a publication enqueues each notification not yet
    in the outbox, once and under revision 0; a notification that is there,
    delivered or not, is left as it is, so that confirming again with the same
    notifications adds nothing. *)
Theorem enqueue_once l s :
  let s' := enqueuePeerNotificationsLocked l s in
  (∀ id n, peerNotifications s !! id = Some n → peerNotifications s' !! id = Some n)
  ∧ (∀ id n, peerNotifications s !! id = None → peerNotifications s' !! id = Some n →
             Notification_Revision n = 0 ∧ Notification_ID n = id
             ∧ ∃ n', n' ∈ l ∧ n = n' <| Notification_Revision := 0 |>)
  ∧ (∀ n, n ∈ l → is_Some (peerNotifications s' !! Notification_ID n))
  ∧ enqueuePeerNotificationsLocked l s' = s'.
Proof using Type.
  cbn. repeat split.
  - intros id n Hn. by rewrite enqueue_lookup, Hn.
  - rewrite enqueue_lookup, H in H0. apply fmap_Some in H0 as (n' & _ & ->). done.
  - rewrite enqueue_lookup, H in H0. apply fmap_Some in H0 as (n' & Hf & ->).
    apply List.find_some in Hf as [_ Hf]. by apply String.eqb_eq in Hf.
  - rewrite enqueue_lookup, H in H0. apply fmap_Some in H0 as (n' & Hf & ->).
    apply List.find_some in Hf as [Hin _]. apply list_elem_of_In in Hin. eauto.
  - intros n Hn. rewrite enqueue_lookup. destruct (peerNotifications s !! _) eqn:E; [eauto|].
    destruct (List.find _ l) eqn:Hf; [eauto|].
    pose proof (List.find_none _ _ Hf n) as Hnone. cbn in Hnone.
    rewrite <- list_elem_of_In, String.eqb_refl in Hnone. by specialize (Hnone Hn).
  - unfold enqueuePeerNotificationsLocked at 1. cbn.
    assert (∀ m, foldl enqueue_step (foldl enqueue_step m l) l = foldl enqueue_step m l) as H.
    { intros m. apply map_eq. intros id. rewrite !enqueue_lookup.
      destruct (m !! id); [done|]. by destruct (List.find _ l). }
    by rewrite H.
Qed.

(** ** Claiming notifications *)

Lemma ClaimDue_notifications now leaseUntil limit s :
  let ids := take (Z.to_nat limit) (due_notification_ids now s) in
  ClaimDuePeerNotifications now leaseUntil limit s
    = let r := foldl (claim_loop_step (claim_notification now leaseUntil) zero_PeerNotification)
                 (peerNotifications s, []) ids in
      done_with (s <| peerNotifications := r.1 |>) r.2.
Proof using Type.
  cbn. unfold ClaimDuePeerNotifications.
  assert ((if limit <? Z.of_nat (length (due_notification_ids now s))
           then take (Z.to_nat (limit `max` 0)) (due_notification_ids now s)
           else due_notification_ids now s)
          = take (Z.to_nat limit) (due_notification_ids now s)) as ->.
  { case_match eqn:E; [f_equal; lia|]. to_prop. by rewrite take_ge by lia. }
  rewrite (foldl_ext' _ _ _ _ (claim_notification_step_loop now leaseUntil)).
  by destruct (foldl _ _ _).
Qed.

(** Claiming notifications.  A claim of due notifications returns at most
    [limit] of them, all undelivered, due and not leased to another worker,
    leases exactly those, and leaves the delivered ones for good. *)
Theorem claim_notifications_spec now leaseUntil limit s s' claimed :
  keyed Notification_ID (peerNotifications s) →
  ClaimDuePeerNotifications now leaseUntil limit s = (Ok claimed, s') →
  Z.of_nat (length claimed) ≤ Z.max 0 limit
  ∧ NoDup (Notification_ID <$> claimed)
  ∧ (∀ n, n ∈ claimed →
       Notification_LeaseUntil n = Some leaseUntil
       ∧ peerNotifications s' !! Notification_ID n = Some n
       ∧ ∃ old, peerNotifications s !! Notification_ID n = Some old
                ∧ n = claim_notification now leaseUntil old
                ∧ Notification_DeliveredAt old = None
                ∧ Notification_NextAttemptAt old ≤ now
                ∧ lease_held (Notification_LeaseUntil old) now = false)
  ∧ (∀ id, id ∉ Notification_ID <$> claimed → peerNotifications s' !! id = peerNotifications s !! id)
  ∧ (∀ id n, peerNotifications s !! id = Some n → Notification_DeliveredAt n ≠ None →
             peerNotifications s' !! id = Some n).
Proof using Type.
  intros Hk. rewrite ClaimDue_notifications. intros [= <- <-].
  set (ids := take (Z.to_nat limit) (due_notification_ids now s)).
  assert (NoDup ids) as Hnd.
  { eapply sublist_NoDup; [apply NoDup_due_notification_ids|apply sublist_take]. }
  assert (∀ id, id ∈ ids → ∃ n, peerNotifications s !! id = Some n ∧ notification_due now n = true) as Hdue.
  { intros id (i & Hi & _)%elem_of_take. apply list_elem_of_lookup_2 in Hi.
    by apply elem_of_due_notification_ids in Hi. }
  destruct (claim_loop (claim_notification now leaseUntil) zero_PeerNotification ids
              (peerNotifications s) [] Hnd) as [H1 H2].
  { intros id Hid. destruct (Hdue id Hid) as (n & Hn & _). eauto. }
  cbn. rewrite H2. cbn.
  set (claimed := (λ id, claim_notification now leaseUntil
                           (default zero_PeerNotification (peerNotifications s !! id))) <$> ids).
  assert (Notification_ID <$> claimed = ids) as Hids.
  { subst claimed. rewrite <- list_fmap_compose. rewrite <- (list_fmap_id ids) at 2.
    apply list_fmap_ext. intros i id Hi%list_elem_of_lookup_2.
    destruct (Hdue id Hi) as (n & Hn & _). cbn. rewrite Hn. cbn. symmetry. by apply Hk. }
  repeat split.
  - subst claimed. rewrite length_fmap. subst ids. rewrite length_take. lia.
  - by rewrite Hids.
  - apply list_elem_of_fmap in H as (id & -> & Hid). done.
  - apply list_elem_of_fmap in H as (id & -> & Hid). destruct (Hdue id Hid) as (old & Hold & _).
    rewrite Hold. cbn. rewrite <- (Hk _ _ Hold), H1, decide_True, Hold by done. done.
  - apply list_elem_of_fmap in H as (id & -> & Hid). destruct (Hdue id Hid) as (old & Hold & Hd).
    rewrite Hold. cbn. exists old. rewrite <- (Hk _ _ Hold). split; [done|]. split; [done|].
    unfold notification_due, After in Hd. to_prop. split; [by apply is_nil_true|]. split; [lia|done].
  - intros id Hid. rewrite Hids in Hid. by rewrite H1, decide_False.
  - intros id n Hn Hd. rewrite H1. case_decide as Hin; [|done]. exfalso.
    destruct (Hdue id Hin) as (n' & Hn' & Hnd'). simplify_eq.
    unfold notification_due in Hnd'. to_prop. by apply Hd, is_nil_true.
Qed.
End notifications.

(** ** Witnesses *)

#[local] Existing Instance reference_runtime.

Definition demo_publication_2 : OperationalIntentPublication :=
  demo_publication <| Publication_DesiredState := OperationalIntentExternalStateActivated |>.

Lemma requests_coalesce_witness :
  ∃ both last,
    publications (requestPublicationLocked demo_publication_2
                    (requestPublicationLocked demo_publication (demo published_calls))) !! "i1" = Some both
    ∧ publications (requestPublicationLocked demo_publication_2 (demo published_calls)) !! "i1" = Some last
    ∧ same_request both last.
Proof.
  edestruct (requests_coalesce demo_publication demo_publication_2 (demo published_calls))
    as (both & last & H1 & H2 & H3 & _); [reflexivity|vm_compute; reflexivity|vm_compute; discriminate|].
  exists both, last. split; [exact H1|]. split; [exact H2|exact H3].
Defined.

Lemma claim_notifications_spec_witness :
  let r := ClaimDuePeerNotifications 100 200 1 (demo confirmed_calls) in
  (∃ claimed, r = (Ok claimed, r.2)
              ∧ NoDup (Notification_ID <$> claimed) ∧ length claimed = 1%nat).
Proof.
  cbn zeta. eexists. split; [vm_compute; reflexivity|]. split; [|reflexivity].
  eapply (claim_notifications_spec 100 200 1 (demo confirmed_calls));
    [apply (notifications_keyed _ (wf_outbox _ (demo_wf _)))|vm_compute; reflexivity].
Defined.
