(* ===== verification/MissionPlans.v ===== *)
(** * Mission plans: immutability, idempotency, currency

    A stored plan never changes; an idempotency key resolves to the same plan
    for ever; a new plan is the current one of its flight. *)

From S2P Require Import Prelude GoRuntime GoRange Domain Errors Program MemoryState MemoryFleet MemoryIntents MemoryPublications MemoryMissions DurableStore MemoryStore MemoryInvariant MemoryReachable Scenario.
From stdpp Require Import options.

Section plans.
Context {RT : Runtime}.

(** ** What the calls do to the plans *)

Definition creates_mission {A} (e : Durable.storeE A) : bool :=
  match e with
  | Durable.CreateMission _ | Durable.CreateMissionForPlannedFlight _ => true
  | _ => false
  end.

Lemma missions_frame A (e : Durable.storeE A) s :
  creates_mission e = false →
  missions (handle_store e s).2 = missions s
  ∧ missionByIdempotencyKey (handle_store e s).2 = missionByIdempotencyKey s.
Proof using Type.
  destruct e; try done; intros _; cbn.
  all: unfold_method; try (match goal with |- context [foldl ?f ?x ?l] => destruct (foldl f x l) end);
    unfold CreateMissionDeployment, createMissionDeploymentLocked, UpdateOperationalIntent,
      AcceptOperationalIntent, updateOperationalIntentLocked, acceptOperationalIntentLocked,
      requestPublicationLocked, fail, done_with; cbn;
    repeat case_match; simplify_eq/=; done.
Qed.

(** The new plan, with the version the store gives it. *)
Definition new_mission (mission : Mission) (s : Store) : Mission :=
  mission <| Mission_Version := next_mission_version s (Mission_FlightID mission) |>.

Inductive creation (mission : Mission) (s : Store) : update Mission → Prop :=
  | creation_replay id existing :
      missionByIdempotencyKey s !! Mission_IdempotencyKey mission = Some id →
      missions s !! id = Some existing →
      Mission_IdempotencyRequest existing = Mission_IdempotencyRequest mission →
      creation mission s (Ok existing, s)
  | creation_conflict id existing :
      missionByIdempotencyKey s !! Mission_IdempotencyKey mission = Some id →
      missions s !! id = Some existing →
      Mission_IdempotencyRequest existing ≠ Mission_IdempotencyRequest mission →
      creation mission s (Err ErrIdempotencyConflict, s)
  | creation_refused err :
      missionByIdempotencyKey s !! Mission_IdempotencyKey mission = None →
      creation mission s (Err err, s)
  | creation_new :
      missionByIdempotencyKey s !! Mission_IdempotencyKey mission = None →
      missions s !! Mission_ID mission = None →
      creation mission s
        (Ok (new_mission mission s),
         s <| missions := <[Mission_ID mission := new_mission mission s]> (missions s) |>
           <| missionByIdempotencyKey :=
                <[Mission_IdempotencyKey mission := Mission_ID mission]> (missionByIdempotencyKey s) |>).

Lemma createMissionLocked_creation mission s :
  indexed Mission_IdempotencyKey (missionByIdempotencyKey s) (missions s) →
  creation mission s (createMissionLocked mission s).
Proof using Type.
  intros Hix. unfold createMissionLocked.
  destruct (missionByIdempotencyKey s !! Mission_IdempotencyKey mission) as [id|] eqn:Hk.
  - pose proof Hk as (existing & He & _)%Hix. rewrite He. cbn. rewrite cloneMission_id.
    destruct (String.eqb_spec (Mission_IdempotencyRequest existing) (Mission_IdempotencyRequest mission));
      [by eapply creation_replay|by eapply creation_conflict].
  - destruct (missions s !! Mission_ID mission) eqn:Hid; [by apply creation_refused|].
    rewrite !cloneMission_id. by apply creation_new.
Qed.

Lemma CreateMissionForPlannedFlight_creation mission s :
  indexed Mission_IdempotencyKey (missionByIdempotencyKey s) (missions s) →
  creation mission s (CreateMissionForPlannedFlight mission s).
Proof using Type.
  intros Hix. pose proof (createMissionLocked_creation mission s Hix) as Hc.
  unfold CreateMissionForPlannedFlight.
  destruct (missionByIdempotencyKey s !! Mission_IdempotencyKey mission) as [id|] eqn:Hk.
  - revert Hc. unfold createMissionLocked. by rewrite Hk.
  - repeat case_match; done || by apply creation_refused.
Qed.

Lemma missions_grow A (e : Durable.storeE A) s id m :
  store_wf s → missions s !! id = Some m → missions (handle_store e s).2 !! id = Some m.
Proof using Type.
  intros Hs Hm. destruct (creates_mission e) eqn:He.
  - assert (∀ mission r, creation mission s r → missions r.2 !! id = Some m) as Hc.
    { intros mission r []; try done. cbn. rewrite lookup_insert_ne; [done|]. congruence. }
    destruct e; try done; cbn.
    + eapply Hc, createMissionLocked_creation, Hs.
    + eapply Hc, CreateMissionForPlannedFlight_creation, Hs.
  - by destruct (missions_frame _ e s He) as [-> _].
Qed.

Lemma missions_grow_rtc s s' id m :
  rtc step s s' → store_wf s → missions s !! id = Some m → store_wf s' ∧ missions s' !! id = Some m.
Proof using Type.
  induction 1 as [|s1 s2 s3 [A [e <-]] _ IH]; [done|]. intros Hs Hm.
  apply IH; [by apply handle_wf|by apply missions_grow].
Qed.

(** The two methods that create plans: for a planned flight, or without its guards. *)
Definition create (planned : bool) (mission : Mission) : Durable.storeE Mission :=
  if planned then Durable.CreateMissionForPlannedFlight mission else Durable.CreateMission mission.

Lemma create_creation planned mission s :
  store_wf s → creation mission s (handle_store (create planned mission) s).
Proof using Type.
  intros Hs. destruct planned; [apply CreateMissionForPlannedFlight_creation|apply createMissionLocked_creation];
    apply Hs.
Qed.

(** Idempotency of plans.  Once a creation has returned a plan, every later
    creation under the same idempotency key returns that same plan when it
    carries the same request and a conflict when it carries another one,
    and changes nothing, whatever calls came in between. *)
Theorem create_mission_idempotent planned mission s m s1 s2 :
  store_wf s → handle_store (create planned mission) s = (Ok m, s1) → rtc step s1 s2 →
  ∀ planned' mission',
    Mission_IdempotencyKey mission' = Mission_IdempotencyKey mission →
    handle_store (create planned' mission') s2
      = if decide (Mission_IdempotencyRequest mission' = Mission_IdempotencyRequest mission)
        then (Ok m, s2) else (Err ErrIdempotencyConflict, s2).
Proof using Type.
  intros Hs Hok Hsteps planned' mission' Hkey.
  pose proof (handle_wf _ (create planned mission) s Hs) as Hs1. rewrite Hok in Hs1. cbn in Hs1.
  assert (∃ id, missions s1 !! id = Some m ∧ Mission_IdempotencyKey m = Mission_IdempotencyKey mission
                ∧ Mission_IdempotencyRequest m = Mission_IdempotencyRequest mission)
    as (id & Hm & Hmk & Hmr).
  { pose proof (create_creation planned mission s Hs) as Hc. rewrite Hok in Hc. inversion Hc; subst.
    - exists id. split; [done|]. split; [|done].
      match goal with H : missionByIdempotencyKey _ !! _ = Some _ |- _ =>
        apply (missions_indexed _ _ (wf_missions _ Hs)) in H as (v & Hv & Hvk) end. congruence.
    - exists (Mission_ID mission). cbn. by rewrite lookup_insert_eq. }
  destruct (missions_grow_rtc _ _ _ _ Hsteps Hs1 Hm) as [Hs2 Hm2].
  assert (missionByIdempotencyKey s2 !! Mission_IdempotencyKey mission' = Some id) as Hidx.
  { apply (missions_indexed _ _ (wf_missions _ Hs2)). exists m. split; [done|congruence]. }
  pose proof (create_creation planned' mission' s2 Hs2) as Hc. revert Hc.
  generalize (handle_store (create planned' mission') s2). intros r Hc.
  destruct Hc as [id' existing Hi He0 Hr|id' existing Hi He0 Hr|err Hi|Hi _]; simplify_eq.
  - rewrite decide_True by congruence. done.
  - rewrite decide_False by congruence. done.
Qed.

(** ** The current plan of a flight *)

Lemma newer_mission_weak : strict_weak newer_mission.
Proof using Type. split; unfold newer_mission; intros; lia. Qed.

Lemma current_mission_Some s flightID m :
  currentMissionForFlightLocked s flightID = Some m →
  (∃ id, missions s !! id = Some m) ∧ Mission_FlightID m = flightID
  ∧ ∀ id' m', missions s !! id' = Some m' → Mission_FlightID m' = flightID →
              Mission_Version m' ≤ Mission_Version m.
Proof using Type.
  unfold currentMissionForFlightLocked, mission_of_flight.
  intros [Hin Hmax]%scan_best_Some; [|apply newer_mission_weak].
  apply elem_of_select in Hin as [[id Hm]%elem_of_range_values Hf]. apply String.eqb_eq in Hf.
  split; [eauto|]. split; [done|]. intros id' m' Hm' Hf'.
  assert (newer_mission m' m = false) as Hn.
  { apply Hmax, elem_of_select. split; [apply elem_of_range_values; eauto|]. by apply String.eqb_eq. }
  unfold newer_mission in Hn. lia.
Qed.

Lemma current_mission_None s flightID :
  currentMissionForFlightLocked s flightID = None →
  ∀ id m, missions s !! id = Some m → Mission_FlightID m ≠ flightID.
Proof using Type.
  unfold currentMissionForFlightLocked. intros Hn%scan_best_None id m Hm Hf; [|apply newer_mission_weak].
  assert (m ∈ []) as Hin; [|by apply elem_of_nil in Hin]. rewrite <- Hn. apply elem_of_select.
  split; [apply elem_of_range_values; eauto|]. by apply String.eqb_eq.
Qed.

(** Currency of plans.  A plan that was created for a flight, and was not a
    replay, is the current plan of that flight, with a version one more than
    the one it replaces (1 for the first). *)
Theorem created_mission_is_current planned mission s m s' :
  store_wf s → Z.of_nat (size (missions s)) < 2 ^ 63 - 1 →
  missionByIdempotencyKey s !! Mission_IdempotencyKey mission = None →
  handle_store (create planned mission) s = (Ok m, s') →
  GetCurrentMissionForFlight (Mission_FlightID mission) s' = Ok m
  ∧ Mission_Version m
      = match currentMissionForFlightLocked s (Mission_FlightID mission) with
        | Some previous => Mission_Version previous + 1
        | None => 1
        end.
Proof using Type.
  intros Hs Hsz Hk Hok. pose proof (create_creation planned mission s Hs) as Hc. rewrite Hok in Hc.
  pose proof (missions_versioned _ _ (wf_missions _ Hs)) as [Hrange Huniq _]; [lia|].
  destruct (next_mission_version_spec s (Mission_FlightID mission) Hrange Hsz) as (_ & Hmax & Hlast).
  inversion Hc; subst; [congruence|]. clear Hc Hok. split.
  - unfold GetCurrentMissionForFlight.
    destruct (currentMissionForFlightLocked _ _) as [c|] eqn:Hc.
    + rewrite cloneMission_id. f_equal. apply current_mission_Some in Hc as ([id Hc] & Hcf & Hcmax).
      cbn in Hc, Hcmax. specialize (Hcmax (Mission_ID mission) (new_mission mission s)).
      rewrite lookup_insert_eq in Hcmax. specialize (Hcmax eq_refl eq_refl).
      apply lookup_insert_Some in Hc as [[_ <-]|[_ Hc]]; [done|].
      specialize (Hmax _ _ Hc Hcf). cbn in Hcmax. lia.
    + exfalso. apply (current_mission_None _ _ Hc (Mission_ID mission) (new_mission mission s)); [|done].
      cbn. by rewrite lookup_insert_eq.
  - cbn. destruct (currentMissionForFlightLocked s _) as [c|] eqn:Hc.
    + apply current_mission_Some in Hc as ([id Hc] & Hcf & Hcmax).
      destruct Hlast as [Hl|(id' & m' & Hm' & Hf' & Hl)].
      * specialize (Hmax _ _ Hc Hcf). specialize (Hrange _ _ Hc). lia.
      * specialize (Hcmax _ _ Hm' Hf'). specialize (Hmax _ _ Hc Hcf). lia.
    + destruct Hlast as [Hl|(id' & m' & Hm' & Hf' & Hl)]; [done|].
      by destruct (current_mission_None _ _ Hc _ _ Hm').
Qed.
End plans.

(** ** Witnesses *)

#[local] Existing Instance reference_runtime.

Lemma create_mission_idempotent_witness :
  handle_store (create true demo_mission) (demo deploying_calls)
  = (Ok (demo_mission <| Mission_Version := 1 |>), demo deploying_calls).
Proof.
  refine (create_mission_idempotent true demo_mission
            (demo (active_calls ++ [StoreCall (Durable.CreateFlightRecord demo_flight)]))
            (demo_mission <| Mission_Version := 1 |>) (demo planned_calls) (demo deploying_calls)
            (demo_wf _) _ _ true demo_mission _).
  - vm_compute. reflexivity.
  - apply rtc_once. exists MissionDeployment, (Durable.CreateMissionDeploymentForPlannedFlight demo_deployment).
    vm_compute. reflexivity.
  - reflexivity.
Defined.

Lemma created_mission_is_current_witness :
  GetCurrentMissionForFlight "f1" (demo planned_calls) = Ok (demo_mission <| Mission_Version := 1 |>).
Proof.
  refine (proj1 (created_mission_is_current true demo_mission
            (demo (active_calls ++ [StoreCall (Durable.CreateFlightRecord demo_flight)]))
            (demo_mission <| Mission_Version := 1 |>) (demo planned_calls) (demo_wf _) _ _ _));
    vm_compute; reflexivity.
Defined.
