(* ===== verification/FlightDeployments.v ===== *)
(** * Deployments and flights

    What a deployment for a planned flight and the start of a flight
    guarantee about the whole fleet, which deployment a reconnecting aircraft
    is given, and what an update of a deployment cannot change. *)

From S2P Require Import Prelude GoRuntime GoRange Domain Errors Program MemoryState MemoryFleet MemoryIntents MemoryPublications MemoryMissions DurableStore MemoryStore MemoryInvariant MemoryReachable Scenario MissionPlans.
From stdpp Require Import options.

Section deployments.
Context {RT : Runtime}.

(** ** Deploying to a planned flight *)

(** What the guards establish. *)
Record planned_flight_ready (s : Store) (deployment : MissionDeployment)
    (replay : option MissionDeployment) : Prop := {
  ready_flight : ∃ f, flightRecords s !! Deployment_FlightID deployment = Some f
    ∧ Flight_Status f = FlightStatusPlanned
    ∧ Flight_AircraftID f = Deployment_AircraftID deployment
    ∧ Flight_OperatorID f = Deployment_OperatorID deployment
    ∧ Flight_IntentID f = Deployment_IntentID deployment
    ∧ Flight_IntentVersion f = Deployment_IntentVersion deployment;
  ready_no_active k f : flightRecords s !! k = Some f →
    Flight_AircraftID f = Deployment_AircraftID deployment → Flight_Status f ≠ FlightStatusActive;
  ready_intent : ∃ i, latestOperationalIntent s (Deployment_IntentID deployment) = Some i
    ∧ Intent_Version i = Deployment_IntentVersion deployment
    ∧ Intent_AircraftID i = Deployment_AircraftID deployment
    ∧ (Intent_Status i = IntentStatusAccepted ∨ Intent_Status i = IntentStatusActive);
  ready_mission : ∃ m, currentMissionForFlightLocked s (Deployment_FlightID deployment) = Some m
    ∧ Mission_ID m = Deployment_MissionID deployment
    ∧ Mission_MissionDigest m = Deployment_MissionDigest deployment;
  ready_free k d : missionDeployments s !! k = Some d →
    outstanding_planned s (Deployment_AircraftID deployment) d = true →
    ∃ r, replay = Some r ∧ Deployment_ID d = Deployment_ID r;
}.

Lemma planned_flight_guard_None deployment replay s :
  planned_flight_guard deployment replay s = None → planned_flight_ready s deployment replay.
Proof using Type.
  unfold planned_flight_guard.
  destruct (flightRecords s !! Deployment_FlightID deployment) as [f|] eqn:Hf; [|done].
  destruct (_ || _) eqn:Hst; [done|]. to_prop.
  destruct (latestOperationalIntent s (Flight_IntentID f)) as [i|] eqn:Hi; [|done].
  destruct (deployment_scope_mismatch deployment f i) eqn:Hsc; [done|].
  destruct (range_any _ (flightRecords s)) eqn:Hact; [done|].
  destruct (currentMissionForFlightLocked s (Deployment_FlightID deployment)) as [m|] eqn:Hm; [|done].
  destruct (_ || _) eqn:Hmm; [done|].
  destruct (range_any _ (missionDeployments s)) eqn:Hbl; [done|]. intros _.
  unfold deployment_scope_mismatch in Hsc. to_prop.
  rewrite range_any_false in Hact. rewrite range_any_false in Hbl.
  assert (Deployment_AircraftID deployment = Flight_AircraftID f) as Hac by done. split.
  - exists f. repeat split; congruence.
  - intros k g Hg Hga Hgs. specialize (Hact _ _ Hg).
    by rewrite Hgs, Hga, Hac, String.eqb_refl in Hact.
  - exists i. split; [congruence|]. split; [congruence|]. split; [congruence|].
    match goal with H : _ ∨ _ |- _ => destruct H end; to_prop; auto.
  - eauto.
  - intros k d Hd Ho. specialize (Hbl _ _ Hd). unfold blocks_deployment in Hbl.
    rewrite <- Hac, Ho in Hbl. destruct replay as [r|]; [|done].
    rewrite andb_true_r in Hbl. to_prop. eauto.
Qed.

(** C10: Exclusive deployment.  When a request to deploy to a planned flight is
    answered with a deployment whose outcome is open, then at that instant the
    requested flight is planned and is that of the requested aircraft,
    operator and intent version, the aircraft flies nothing, the intent is
    accepted or active at that version and for that aircraft, and the
    requested plan is the current one of the flight.  The deployment returned
    is the requested one, newly stored under its unused key, or the stored one
    that was made under the same idempotency key for the same request; and no
    other deployment to a planned flight of the aircraft is open. *)
Theorem deployment_exclusive deployment s d s' :
  store_wf s →
  CreateMissionDeploymentForPlannedFlight deployment s = (Ok d, s') →
  missionDeploymentOutstanding (Deployment_Status d) = true →
  planned_flight_ready s deployment (Some d)
  ∧ missionDeployments s' !! Deployment_ID d = Some d
  ∧ match deploymentByIdempotencyKey s !! Deployment_IdempotencyKey deployment with
    | None => d = deployment <| Deployment_Revision := 0 |>
              ∧ missionDeployments s' = <[Deployment_ID d := d]> (missionDeployments s)
              ∧ missionDeployments s !! Deployment_ID d = None
    | Some id => id = Deployment_ID d ∧ s' = s
                 ∧ Deployment_IdempotencyKey d = Deployment_IdempotencyKey deployment
                 ∧ Deployment_IdempotencyRequest d = Deployment_IdempotencyRequest deployment
    end
  ∧ ∀ k d', missionDeployments s' !! k = Some d' →
      outstanding_planned s' (Deployment_AircraftID deployment) d' = true → d' = d.
Proof using Type.
  intros Hs Hok Hout. unfold CreateMissionDeploymentForPlannedFlight in Hok.
  pose proof (wf_deployments _ Hs) as [Hkeyed Hix _ _ _].
  destruct (deploymentByIdempotencyKey s !! _) as [id|] eqn:Hk.
  - pose proof Hk as (existing & He & Hkey)%Hix. rewrite He in Hok. cbn in Hok.
    destruct (_ <>s _) eqn:Hreq; [done|]. to_prop.
    destruct (missionDeploymentOutstanding (Deployment_Status existing)) eqn:Ho; cbn in Hok.
    2:{ injection Hok as <- <-. congruence. }
    destruct (planned_flight_guard deployment (Some existing) s) eqn:Hg; [done|].
    injection Hok as <- <-. apply planned_flight_guard_None in Hg. split; [done|].
    pose proof (Hkeyed _ _ He) as ->. split; [done|]. split; [done|]. intros k d' Hd' Ho'.
    destruct (ready_free _ _ _ Hg _ _ Hd' Ho') as (r & [= <-] & Hid).
    pose proof (Hkeyed _ _ Hd') as ->. congruence.
  - destruct (planned_flight_guard deployment None s) eqn:Hg; [done|].
    apply planned_flight_guard_None in Hg. unfold createMissionDeploymentLocked in Hok.
    rewrite Hk in Hok. destruct (missionDeployments s !! Deployment_ID deployment) eqn:Hid; [done|].
    injection Hok as <- <-. cbn. split; [|split; [by rewrite lookup_insert_eq|split; [done|]]].
    + destruct Hg. split; try done. intros k d' Hd' Ho'.
      by destruct (ready_free0 _ _ Hd' Ho') as (r & ? & _).
    + intros k d' [[_ <-]|[_ Hd']]%lookup_insert_Some Ho'; [done|].
      by destruct (ready_free _ _ _ Hg _ _ Hd' Ho') as (r & ? & _).
Qed.

(** ** Starting a flight *)

Lemma latest_deployment_Some s aircraftID d :
  latest_deployment s aircraftID = Some d →
  (∃ k, missionDeployments s !! k = Some d)
  ∧ ∀ k d' f, missionDeployments s !! k = Some d' →
      flightRecords s !! Deployment_FlightID d' = Some f → Flight_AircraftID f = aircraftID →
      creation_order s d' ≤ creation_order s d.
Proof using Type.
  unfold latest_deployment. intros [Hin Hmax]%scan_best_Some.
  2:{ split; intros; cbn in *; lia. }
  apply elem_of_select in Hin as [Hd%elem_of_range_values _]. split; [done|].
  intros k d' f Hd' Hf Ha.
  assert ((creation_order s d <? creation_order s d') = false) as Hlt; [|lia].
  apply Hmax, elem_of_select. split; [apply elem_of_range_values; eauto|].
  unfold deployment_of_aircraft. by rewrite Hf, Ha, String.eqb_refl.
Qed.

(** C9: Starting a flight.  A flight starts only if no other flight of the
    aircraft is active, the intent of the flight is active at the version of
    the flight and for this aircraft, no deployment to a planned flight of
    the aircraft has an open outcome, and the last deployment made to any
    flight of the aircraft put the current plan of this very flight on it;
    the start changes the record of the flight and nothing else. *)
Theorem start_flight_guarantees flight expectedStatus s s' :
  StartFlightWithCurrentMissionDeployment flight expectedStatus s = (Ok tt, s') →
  ∃ current intent mission latest,
    flightRecords s !! Flight_ID flight = Some current
    ∧ Flight_Status current = expectedStatus
    ∧ (∀ k f, flightRecords s !! k = Some f → k ≠ Flight_ID flight →
         Flight_AircraftID f = Flight_AircraftID current → Flight_Status f ≠ FlightStatusActive)
    ∧ latestOperationalIntent s (Flight_IntentID current) = Some intent
    ∧ Intent_Status intent = IntentStatusActive
    ∧ Intent_Version intent = Flight_IntentVersion current
    ∧ Intent_AircraftID intent = Flight_AircraftID current
    ∧ (∀ k d, missionDeployments s !! k = Some d →
         outstanding_planned s (Flight_AircraftID current) d = false)
    ∧ currentMissionForFlightLocked s (Flight_ID flight) = Some mission
    ∧ Deployment_FlightID latest = Flight_ID flight
    ∧ deploys mission latest = true ∧ applied (Deployment_Status latest) = true
    ∧ (∃ k, missionDeployments s !! k = Some latest)
    ∧ (∀ k d f, missionDeployments s !! k = Some d →
         flightRecords s !! Deployment_FlightID d = Some f →
         Flight_AircraftID f = Flight_AircraftID current →
         creation_order s d ≤ creation_order s latest)
    ∧ s' = s <| flightRecords := <[Flight_ID flight := flight]> (flightRecords s) |>.
Proof using Type.
  unfold StartFlightWithCurrentMissionDeployment. match goal with |- _ → ?G => set (C := G) end.
  destruct (flightRecords s !! Flight_ID flight) as [current|] eqn:Hc; [|done].
  destruct (_ <>s _) eqn:Hst; [done|]. destruct (existsb _ _) eqn:Hact; [done|].
  destruct (latestOperationalIntent s _) as [intent|] eqn:Hi; [|done].
  destruct (_ || _) eqn:Hint; [done|]. to_prop.
  destruct (currentMissionForFlightLocked s _) as [mission|] eqn:Hm; [|done].
  destruct (range_any _ _) eqn:Hout; [done|].
  destruct (latest_deployment s _) as [latest|] eqn:Hl; [|done].
  destruct (_ || _) eqn:Hla; [done|]. intros [= <-]. subst C. to_prop.
  apply latest_deployment_Some in Hl as [Hl Hmax].
  rewrite range_any_false in Hout. rewrite existsb_none in Hact.
  exists current, intent, mission, latest.
  do 2 (split; [done|]). split.
  { intros k f Hf Hk Ha Hs. specialize (Hact (k, f)). cbn in Hact.
    rewrite elem_of_range, Ha, Hs, !String.eqb_refl in Hact. apply String.eqb_neq in Hk.
    rewrite Hk in Hact. by specialize (Hact Hf). }
  do 7 (split; [done|]). split.
  { unfold deploys. apply andb_true_iff. by rewrite !String.eqb_eq. }
  split; [|done]. unfold applied. rewrite orb_true_iff, !String.eqb_eq.
  match goal with H : _ ∨ _ |- _ => destruct H end; to_prop; auto.
Qed.

(** ** One active flight per aircraft *)

Definition one_active_flight (m : gmap string FlightRecord) : Prop :=
  ∀ k k' f f', m !! k = Some f → m !! k' = Some f' →
    Flight_Status f = FlightStatusActive → Flight_Status f' = FlightStatusActive →
    Flight_AircraftID f = Flight_AircraftID f' → k = k'.

(** Only the start of a flight makes it active, and it keeps its aircraft. *)
Definition flight_call {A} (s : Store) (e : Durable.storeE A) : Prop :=
  match e with
  | Durable.CreateFlightRecord f | Durable.UpdateFlightRecord f _ => Flight_Status f ≠ FlightStatusActive
  | Durable.StartFlightWithCurrentMissionDeployment f _ =>
      ∀ current, flightRecords s !! Flight_ID f = Some current →
                 Flight_AircraftID f = Flight_AircraftID current
  | _ => True
  end.

Definition flight_step (s s' : Store) : Prop :=
  ∃ A (e : Durable.storeE A), flight_call s e ∧ (handle_store e s).2 = s'.

Lemma flights_frame A (e : Durable.storeE A) s :
  match e with
  | Durable.CreateFlightRecord _ | Durable.UpdateFlightRecord _ _
  | Durable.StartFlightWithCurrentMissionDeployment _ _ => False
  | _ => True
  end → flightRecords (handle_store e s).2 = flightRecords s.
Proof using Type.
  destruct e; try done; intros _; cbn.
  all: unfold_method; try (match goal with |- context [foldl ?f ?x ?l] => destruct (foldl f x l) end);
    unfold CreateMission, createMissionLocked, CreateMissionDeployment, createMissionDeploymentLocked,
      UpdateOperationalIntent, AcceptOperationalIntent, updateOperationalIntentLocked,
      acceptOperationalIntentLocked, requestPublicationLocked, fail, done_with; cbn;
    repeat case_match; simplify_eq/=; done.
Qed.

Lemma one_active_flight_insert m k f :
  one_active_flight m →
  (Flight_Status f = FlightStatusActive → ∀ k' f', m !! k' = Some f' → k' ≠ k →
     Flight_AircraftID f' = Flight_AircraftID f → Flight_Status f' ≠ FlightStatusActive) →
  one_active_flight (<[k := f]> m).
Proof using Type.
  intros Hm Hf k1 k2 f1 f2 [[<- <-]|[Hne1 H1]]%lookup_insert_Some
    [[<- <-]|[Hne2 H2]]%lookup_insert_Some A1 A2 Ha; [done| | |eauto]; exfalso.
  - by eapply (Hf A1).
  - by eapply (Hf A2).
Qed.

(** C22: One active flight.  If flights become active only by being started, each
    on the aircraft it was planned for, no sequence of calls makes two flights
    of one aircraft active at the same time. *)
Theorem one_active_flight_invariant s s' :
  one_active_flight (flightRecords s) → rtc flight_step s s' → one_active_flight (flightRecords s').
Proof using Type.
  intros Hone Hsteps. revert Hone. induction Hsteps as [|s1 s2 s3 (A & e & He & <-) _ IH]; [done|].
  intros Hone. apply IH. clear IH. destruct e; try (by rewrite flights_frame); cbn.
  - unfold CreateFlightRecord. case_match; [done|]. cbn in He. by apply one_active_flight_insert.
  - unfold UpdateFlightRecord. repeat case_match; try done. cbn in He.
    by apply one_active_flight_insert.
  - unfold StartFlightWithCurrentMissionDeployment. cbn in He.
    destruct (flightRecords s1 !! Flight_ID flight) as [current|] eqn:Hc; [|done].
    destruct (_ <>s _); [done|]. destruct (existsb _ _) eqn:Hact; [done|].
    repeat case_match; try done. apply one_active_flight_insert; [done|].
    intros _ k f Hf Hk Ha Hs. rewrite existsb_none in Hact. specialize (Hact (k, f)). cbn in Hact.
    rewrite (He current eq_refl) in Ha.
    rewrite elem_of_range, Ha, Hs, !String.eqb_refl in Hact. apply String.eqb_neq in Hk.
    rewrite Hk in Hact. by specialize (Hact Hf).
Qed.

(** ** The deployment to restore *)

Lemma deploymentPreferredForRestore_lex s candidate current :
  deploymentPreferredForRestore s candidate current
    = by_Z_then (λ d, missionDeploymentRestorePriority (Deployment_Status d))
        (by_Z_then (λ d, - creation_order s d) (reversed (by_string Deployment_ID))) candidate current.
Proof using Type.
  unfold deploymentPreferredForRestore, by_Z_then, reversed, by_string. cbn zeta.
  destruct (_ =? _); [|done].
  destruct (Z.eqb_spec (creation_order s candidate) (creation_order s current)) as [->|Hne];
    [by rewrite Z.eqb_refl|].
  cbn. destruct (Z.eqb_spec (- creation_order s candidate) (- creation_order s current)); lia.
Qed.

Lemma deploymentPreferredForRestore_weak s : strict_weak (deploymentPreferredForRestore s).
Proof using Type.
  assert (strict_weak (by_Z_then (λ d, missionDeploymentRestorePriority (Deployment_Status d))
            (by_Z_then (λ d, - creation_order s d) (reversed (by_string Deployment_ID))))) as [I T S]
    by auto with go.
  split; intros; rewrite ?deploymentPreferredForRestore_lex in *; eauto.
Qed.

(** Deployments that do not differ in preference have the same identifier. *)
Lemma deploymentPreferredForRestore_tie s d d' :
  deploymentPreferredForRestore s d d' = false → deploymentPreferredForRestore s d' d = false →
  Deployment_ID d = Deployment_ID d'.
Proof using Type.
  unfold deploymentPreferredForRestore. cbn zeta.
  rewrite (Z.eqb_sym (missionDeploymentRestorePriority (Deployment_Status d'))),
    (Z.eqb_sym (creation_order s d')).
  destruct (Z.eqb_spec (missionDeploymentRestorePriority (Deployment_Status d))
              (missionDeploymentRestorePriority (Deployment_Status d'))); cbn; [|lia].
  destruct (Z.eqb_spec (creation_order s d) (creation_order s d')); cbn; [|lia].
  intros. by apply string_lt_total.
Qed.

(** Restore after a reconnect.  The deployment given for a flight is one that
    is still open or that deployed the current plan, and it is strictly
    preferred to every other such deployment: an unknown outcome before a
    pending one before a final one, then the one created last.  None is found
    only when there is none. *)
Theorem restore_preference flightID s :
  store_wf s →
  let candidate d := restorable (currentMissionForFlightLocked s flightID) flightID d in
  match GetCurrentMissionDeploymentForFlight flightID s with
  | Ok d =>
      missionDeployments s !! Deployment_ID d = Some d ∧ candidate d = true
      ∧ ∀ k d', missionDeployments s !! k = Some d' → candidate d' = true → d' ≠ d →
                deploymentPreferredForRestore s d d' = true
  | Err e => e = ErrNotFound ∧ ∀ k d', missionDeployments s !! k = Some d' → candidate d' = false
  end.
Proof using Type.
  intros Hs candidate. pose proof (deployments_keyed _ _ _ _ (wf_deployments _ Hs)) as Hk.
  unfold GetCurrentMissionDeploymentForFlight. cbn zeta.
  destruct (scan_best _ _) as [d|] eqn:Hd.
  - apply scan_best_Some in Hd as [Hin Hmax]; [|apply deploymentPreferredForRestore_weak].
    apply elem_of_select in Hin as [[k Hd]%elem_of_range_values Hc].
    pose proof (Hk _ _ Hd) as ->. split; [done|]. split; [done|]. intros k' d' Hd' Hc' Hne.
    destruct (deploymentPreferredForRestore s d d') eqn:Hp; [done|]. exfalso. apply Hne.
    assert (Deployment_ID d = Deployment_ID d') as Hid.
    { apply (deploymentPreferredForRestore_tie s); [done|]. apply Hmax, elem_of_select.
      split; [apply elem_of_range_values; eauto|done]. }
    pose proof (Hk _ _ Hd') as ->. congruence.
  - apply scan_best_None in Hd; [|apply deploymentPreferredForRestore_weak]. split; [done|].
    intros k d' Hd'. destruct (candidate d') eqn:Hc; [|done]. exfalso.
    assert (d' ∈ []) as Hin; [|by apply elem_of_nil in Hin]. rewrite <- Hd. apply elem_of_select.
    split; [apply elem_of_range_values; eauto|done].
Qed.

(** ** The previous deployment to an aircraft *)

(** Previous deployment.  For a deployment of the aircraft, the one returned
    is the last created among the deployments of that aircraft created before
    it; none is found only when it was the first. *)
Theorem previous_deployment_spec aircraftID id s current :
  store_wf s → Z.of_nat (size (missionDeployments s)) < 2 ^ 64 →
  missionDeployments s !! id = Some current → Deployment_AircraftID current = aircraftID →
  let earlier d := Deployment_AircraftID d = aircraftID ∧ creation_order s d < creation_order s current in
  match GetPreviousMissionDeploymentForAircraft aircraftID id s with
  | Ok previous =>
      missionDeployments s !! Deployment_ID previous = Some previous ∧ earlier previous
      ∧ ∀ k d, missionDeployments s !! k = Some d → earlier d → d ≠ previous →
               creation_order s d < creation_order s previous
  | Err e => e = ErrNotFound ∧ ∀ k d, missionDeployments s !! k = Some d → ¬ earlier d
  end.
Proof using Type.
  intros Hs Hsz Hcur Hac earlier. destruct (wf_deployments _ Hs) as [Hk _ Hdom _ Hord].
  destruct (Hord Hsz) as [_ Hinj].
  unfold GetPreviousMissionDeploymentForAircraft. rewrite Hcur, Hac, String.eqb_refl. cbn [negb].
  set (order := λ id, default 0 (deploymentCreationOrder s !! id)).
  assert (∀ k d, missionDeployments s !! k = Some d → order k = creation_order s d) as Horder.
  { intros k d Hd. unfold creation_order. by rewrite <- (Hk _ _ Hd). }
  assert (strict_weak (λ a b : string * MissionDeployment, negb (order a.1 <=? order b.1))) as Hw.
  { split; intros; lia. }
  set (P := λ '(id, deployment), _ : bool).
  assert (∀ k d, (k, d) ∈ select P (map_range (missionDeployments s)) ↔
                 missionDeployments s !! k = Some d ∧ earlier d) as Hsel.
  { intros k d. rewrite elem_of_select, elem_of_range. 
    cut (missionDeployments s !! k = Some d → P (k, d) = true ↔ earlier d); [tauto|]. intros Hd. subst P. cbn beta iota. unfold earlier. fold order.
    rewrite <- (Horder _ _ Hd), <- (Horder _ _ Hcur), negb_true_iff, orb_false_iff, negb_false_iff,
      String.eqb_eq, Z.leb_gt. done. }
  destruct (scan_best _ _) as [[k previous]|] eqn:Hp.
  - apply (scan_best_Some _ Hw) in Hp as [[Hp He]%Hsel Hmax].
    pose proof (Hk _ _ Hp) as ->. split; [done|]. split; [done|]. intros k d Hd Hed Hne.
    specialize (Hmax (k, d)). rewrite Hsel in Hmax. specialize (Hmax (conj Hd Hed)). cbn in Hmax.
    rewrite (Horder _ _ Hd), (Horder _ _ Hp) in Hmax.
    assert (creation_order s d ≠ creation_order s previous); [|lia]. intros Heq. apply Hne.
    destruct (proj2 (Hdom (Deployment_ID d))) as [o Ho]; [rewrite <- (Hk _ _ Hd); eauto|].
    destruct (proj2 (Hdom (Deployment_ID previous))) as [o' Ho']; [eauto|].
    assert (o = o') as ->. { unfold creation_order in Heq. rewrite Ho, Ho' in Heq. done. }
    pose proof (Hinj _ _ _ Ho Ho') as Hid. pose proof (Hk _ _ Hd) as ->. congruence.
  - apply (scan_best_None _ Hw) in Hp. split; [done|]. intros k d Hd Hed.
    assert ((k, d) ∈ []) as Hin; [|by apply elem_of_nil in Hin]. rewrite <- Hp. by apply Hsel.
Qed.

(** ** The identity of a deployment *)

Definition same_identity (d d' : MissionDeployment) : Prop :=
  Deployment_ID d' = Deployment_ID d ∧ Deployment_IdempotencyKey d' = Deployment_IdempotencyKey d
  ∧ Deployment_IdempotencyRequest d' = Deployment_IdempotencyRequest d
  ∧ Deployment_CommandID d' = Deployment_CommandID d
  ∧ Deployment_MissionID d' = Deployment_MissionID d.

#[local] Instance same_identity_preorder : PreOrder same_identity.
Proof using Type.
  split; [by intros d|]. intros d1 d2 d3 (? & ? & ? & ? & ?) (? & ? & ? & ? & ?).
  repeat split; congruence.
Qed.

Lemma deployments_frame A (e : Durable.storeE A) s :
  match e with
  | Durable.CreateMissionDeployment _ | Durable.CreateMissionDeploymentForPlannedFlight _
  | Durable.UpdateMissionDeployment _ _ => False
  | _ => True
  end → missionDeployments (handle_store e s).2 = missionDeployments s.
Proof using Type.
  destruct e; try done; intros _; cbn.
  all: unfold_method; try (match goal with |- context [foldl ?f ?x ?l] => destruct (foldl f x l) end);
    unfold CreateMission, createMissionLocked, UpdateOperationalIntent, AcceptOperationalIntent,
      updateOperationalIntentLocked, acceptOperationalIntentLocked, requestPublicationLocked,
      fail, done_with; cbn;
    repeat case_match; simplify_eq/=; done.
Qed.

Lemma createMissionDeploymentLocked_grow deployment s k d :
  missionDeployments s !! k = Some d →
  missionDeployments (createMissionDeploymentLocked deployment s).2 !! k = Some d.
Proof using Type.
  intros Hd. unfold createMissionDeploymentLocked. repeat case_match; try done. cbn.
  rewrite lookup_insert_ne; [done|]. congruence.
Qed.

(** Identity of deployments.  No sequence of calls removes a deployment or
    changes its idempotency key and request, its command, or the plan it
    deploys. *)
Theorem deployment_identity_immutable s s' k d :
  store_wf s → rtc step s s' → missionDeployments s !! k = Some d →
  ∃ d', missionDeployments s' !! k = Some d' ∧ same_identity d d'.
Proof using Type.
  intros Hs Hsteps. revert d Hs. induction Hsteps as [|s1 s2 s3 (A & e & <-) _ IH]; intros d Hs Hd.
  { exists d. done. }
  assert (∃ d', missionDeployments (handle_store e s1).2 !! k = Some d' ∧ same_identity d d') as (d' & Hd' & Hdd').
  { pose proof (createMissionDeploymentLocked_grow) as Hgrow.
    destruct e; try (rewrite deployments_frame; [by exists d|done]); cbn.
    - exists d. split; [by apply Hgrow|done].
    - exists d. split; [|done]. unfold CreateMissionDeploymentForPlannedFlight.
      repeat case_match; try done. by apply Hgrow.
    - unfold UpdateMissionDeployment.
      destruct (missionDeployments s1 !! Deployment_ID deployment) as [existing|] eqn:He; [|by exists d].
      destruct (_ <>z _); [by exists d|]. destruct (_ || _) eqn:Hid; [by exists d|]. to_prop. cbn.
      destruct (decide (k = Deployment_ID deployment)) as [->|Hne].
      + eexists. rewrite lookup_insert_eq. split; [done|]. assert (d = existing) as -> by congruence.
        pose proof (deployments_keyed _ _ _ _ (wf_deployments _ Hs) _ _ He). by repeat split.
      + exists d. by rewrite lookup_insert_ne. }
  destruct (IH d' (handle_wf _ e _ Hs) Hd') as (d'' & Hd'' & Hdd''). exists d''.
  split; [done|]. by etrans.
Qed.
End deployments.

(** ** Witnesses *)

#[local] Existing Instance reference_runtime.

Lemma deployment_exclusive_witness :
  ∃ d, CreateMissionDeploymentForPlannedFlight demo_deployment (demo planned_calls) = (Ok d, demo deploying_calls)
  ∧ missionDeployments (demo deploying_calls) !! Deployment_ID d = Some d.
Proof.
  eexists. split; [vm_compute; reflexivity|].
  match goal with |- _ !! Deployment_ID ?d = _ =>
    destruct (deployment_exclusive demo_deployment (demo planned_calls) d (demo deploying_calls) (demo_wf _))
      as (_ & Hstored & _); [vm_compute; reflexivity..|exact Hstored]
  end.
Defined.

Lemma start_flight_guarantees_witness :
  let s' := (StartFlightWithCurrentMissionDeployment demo_flying FlightStatusPlanned (demo deployed_calls)).2 in
  StartFlightWithCurrentMissionDeployment demo_flying FlightStatusPlanned (demo deployed_calls) = (Ok tt, s')
  ∧ ∃ current intent,
      flightRecords (demo deployed_calls) !! "f1" = Some current
      ∧ latestOperationalIntent (demo deployed_calls) (Flight_IntentID current) = Some intent
      ∧ Intent_Status intent = IntentStatusActive.
Proof.
  cbn zeta. split; [vm_compute; reflexivity|].
  edestruct (start_flight_guarantees demo_flying FlightStatusPlanned (demo deployed_calls))
    as (current & intent & mission & latest & Hc & _ & _ & Hi & Ha & _); [vm_compute; reflexivity|].
  exists current, intent. split; [exact Hc|]. split; [exact Hi|exact Ha].
Defined.

Lemma one_active_flight_invariant_witness :
  one_active_flight (flightRecords
    (StartFlightWithCurrentMissionDeployment demo_flying FlightStatusPlanned (demo deployed_calls)).2).
Proof.
  apply (one_active_flight_invariant (demo deployed_calls)).
  - intros k k' f f' Hk _ Ha.
    pose proof (map_check (λ f, Flight_Status f <>s FlightStatusActive) (flightRecords (demo deployed_calls))
                  ltac:(vm_compute; reflexivity) k f Hk) as Hf.
    cbv beta in Hf. rewrite Ha in Hf. discriminate Hf.
  - apply rtc_once. exists unit, (Durable.StartFlightWithCurrentMissionDeployment demo_flying FlightStatusPlanned).
    split; [|reflexivity]. intros current Hc. vm_compute in Hc. injection Hc as <-. reflexivity.
Defined.

Lemma restore_preference_witness :
  GetCurrentMissionDeploymentForFlight "f1" (demo deploying_calls) = Ok demo_deployment
  ∧ missionDeployments (demo deploying_calls) !! "d1" = Some demo_deployment.
Proof.
  assert (GetCurrentMissionDeploymentForFlight "f1" (demo deploying_calls) = Ok demo_deployment) as Hd
    by (vm_compute; reflexivity).
  split; [exact Hd|]. pose proof (restore_preference "f1" (demo deploying_calls) (demo_wf _)) as H.
  cbn zeta in H. rewrite Hd in H. apply H.
Defined.

Lemma previous_deployment_spec_witness :
  GetPreviousMissionDeploymentForAircraft "a1" "d1" (demo deployed_calls) = Err ErrNotFound
  ∧ ∀ k d, missionDeployments (demo deployed_calls) !! k = Some d →
      ¬ (Deployment_AircraftID d = "a1" ∧ creation_order (demo deployed_calls) d < 1).
Proof.
  assert (GetPreviousMissionDeploymentForAircraft "a1" "d1" (demo deployed_calls) = Err ErrNotFound) as Hd
    by (vm_compute; reflexivity).
  split; [exact Hd|].
  epose proof (previous_deployment_spec "a1" "d1" (demo deployed_calls) (demo_applied <| Deployment_Revision := 1 |>)
                 (demo_wf _) ltac:(vm_compute; reflexivity) ltac:(vm_compute; reflexivity) eq_refl) as H.
  cbn zeta in H. rewrite Hd in H. intros k d Hk [H1 H2]. apply (proj2 H k d Hk). split; [exact H1|].
  vm_compute in H2 |- *. exact H2.
Defined.

Lemma deployment_identity_immutable_witness :
  ∃ d, missionDeployments (demo deployed_calls) !! "d1" = Some d ∧ same_identity demo_deployment d.
Proof.
  apply (deployment_identity_immutable (demo deploying_calls) (demo deployed_calls) "d1" demo_deployment (demo_wf _)).
  - apply rtc_once. exists unit, (Durable.UpdateMissionDeployment demo_applied 0). vm_compute. reflexivity.
  - vm_compute. reflexivity.
Defined.
