(* ===== verification/ProgramLogic.v ===== *)
(** * Runs of a service among other clients

    The rules that take the run of a program apart, call by call.  They hold
    for every implementation of the store and every behaviour [client] of the
    other clients; with [nobody] they describe a sequential run. *)

From S2P Require Import Prelude GoRuntime Domain Errors Program DurableStore.
From stdpp Require Import options.

(** No other client. *)
Definition nobody {S : Type} (s s' : S) : Prop := False.

Lemma nobody_steps {S : Type} (s s' : S) : rtc nobody s s' → s' = s.
Proof. by destruct 1 as [|s1 s2 s3 []]. Qed.

Section runs.
Context {S O : Type} {externalE : Type → Type} {HS : DurableStore S} {HO : Outside externalE O}.
Context (client : S → S → Prop).
Abbreviation program := (prog (apiE externalE)).

(** Another client changes the store as [client] allows, or acts outside it. *)
Definition other_client (w w' : world S O) : Prop :=
  store w' = store w ∨ client (store w) (store w').

Lemma other_clients_store w w' : rtc other_client w w' → rtc client (store w) (store w').
Proof using Type.
  induction 1 as [|w1 w2 w3 [Heq|H] _ IH]; [done|by rewrite <- Heq|]. by eapply rtc_l.
Qed.

(** A call of the store at some instant, and the rest. *)
Lemma crun_store A B (e : Durable.storeE A) (k : outcome A → program B) w b w' :
  crun handle_api other_client (prog_bind (durable e) k) w b w' →
  ∃ w1, rtc client (store w) (store w1)
    ∧ crun handle_api other_client (k (handle_store e (store w1)).1)
        (w1 <| store := (handle_store e (store w1)).2 |>) b w'.
Proof using Type.
  cbn. intros (w1 & Hw & Hrun). exists w1. split; [by apply other_clients_store|].
  by destruct (handle_store e (store w1)).
Qed.

(** A call that must have succeeded for the program to succeed. *)
Lemma crun_try A B (e : Durable.storeE A) (f : error → error) (k : A → program (outcome B)) w b w' :
  crun handle_api other_client
    (prog_bind (durable e) (λ r, match r with Ok x => k x | Err err => Ret (Err (f err)) end)) w (Ok b) w' →
  ∃ (w1 : world S O) a (w2 : world S O),
    rtc client (store w) (store w1) ∧ handle_store e (store w1) = (Ok a, store w2)
    ∧ crun handle_api other_client (k a) w2 (Ok b) w'.
Proof using Type.
  intros (w1 & Hw & Hrun)%crun_store. destruct (handle_store e (store w1)) as [[a|err] s2] eqn:He; cbn in Hrun.
  - exists w1, a, (w1 <| store := s2 |>). done.
  - by destruct Hrun as [? _].
Qed.

Lemma crun_now B (k : Time → program B) w b w' :
  crun handle_api other_client (prog_bind now k) w b w' →
  ∃ w1 t, rtc client (store w) (store w1) ∧ crun handle_api other_client (k t) w1 b w'.
Proof using Type.
  cbn. intros (w1 & Hw & Hrun).
  exists (w1 <| ticks := Datatypes.S (ticks w1) |>), (clock w1 (ticks w1)). split; [|done].
  by apply other_clients_store in Hw.
Qed.

Lemma crun_ret B (b b' : B) w w' :
  crun handle_api other_client (Ret b : program B) w b' w' → b' = b ∧ rtc client (store w) (store w').
Proof using Type. intros [-> Hw]. split; [done|]. by apply other_clients_store. Qed.

(** A sequential run is a run among no other clients. *)
Lemma run_alone A (p : program A) w a w' :
  run handle_api p w = (a, w') → crun handle_api other_client p w a w'.
Proof using Type.
  intros Hrun. pose proof (run_crun handle_api other_client p w) as H. by rewrite Hrun in H.
Qed.
End runs.

(** * Reasoning about all the runs of a program

    A weakest precondition with histories: whatever the replies to its calls
    are, every call of the program is allowed after the calls and replies that
    came before it, and its result satisfies a postcondition.  It makes no
    assumption about the store or about other clients. *)

(** A call that was made, and its reply. *)
Inductive event (E : Type → Type) : Type :=
  | Event (X : Type) (e : E X) (x : X).
Arguments Event {E X} e x.

Section logic.
Context {E : Type → Type}.
Abbreviation history := (list (event E)).
Context (allowed : history → ∀ X, E X → Prop).

(** The history comes last event first. *)
Fixpoint wp {A} (h : history) (p : prog E A) (Q : history → A → Prop) : Prop :=
  match p with
  | Ret a => Q h a
  | Call e k => allowed h _ e ∧ ∀ x, wp (Event e x :: h) (k x) Q
  end.

Lemma wp_ret {A} h (a : A) (Q : history → A → Prop) : Q h a → wp h (Ret a) Q.
Proof using Type. done. Qed.

Lemma wp_call {A X} h (e : E X) (k : X → prog E A) (Q : history → A → Prop) :
  allowed h X e → (∀ x, wp (Event e x :: h) (k x) Q) → wp h (prog_bind (call e) k) Q.
Proof using Type. done. Qed.

Lemma wp_bind {A B} h (p : prog E A) (f : A → prog E B) (Q : history → B → Prop) :
  wp h p (λ h' a, wp h' (f a) Q) → wp h (prog_bind p f) Q.
Proof using Type.
  revert h. induction p as [a|X e k IH]; intros h; cbn; [done|]. intros [He Hk]. split; [done|]. auto.
Qed.

Lemma wp_mono {A} h (p : prog E A) (Q Q' : history → A → Prop) :
  (∀ h' a, Q h' a → Q' h' a) → wp h p Q → wp h p Q'.
Proof using Type.
  intros HQ. revert h. induction p as [a|X e k IH]; intros h; cbn; [apply HQ|]. intros [He Hk]. auto.
Qed.

(** A history only grows. *)
Lemma wp_grows {A} h (p : prog E A) (Q : history → A → Prop) :
  wp h p Q → wp h p (λ h' a, h ⊆ h' ∧ Q h' a).
Proof using Type.
  revert h. induction p as [a|X e k IH]; intros h; cbn; [done|]. intros [He Hk]. split; [done|]. intros x.
  eapply wp_mono; [|by apply IH]. cbn. intros h' a [Hsub HQ]. split; [|done]. intros v Hv. apply Hsub. by right.
Qed.

(** A program whose result is passed on, whatever it is. *)
Lemma wp_end {A B} h (p : prog E A) (f : A → B) (Q : history → B → Prop) :
  (∀ h' a, Q h' (f a)) → wp h p (λ _ _, True) → wp h (prog_bind p (λ a, Ret (f a))) Q.
Proof using Type.
  intros HQ Hp. apply wp_bind. eapply wp_mono; [|exact Hp]. intros h' a _. apply HQ.
Qed.

(** A program that makes allowed calls only, after any history that extends [h]. *)
Lemma wp_extend {A} h (p : prog E A) (Q : history → A → Prop) :
  calls_in (λ X e, ∀ h', allowed (h' ++ h) X e) p → (∀ h' a, Q (h' ++ h) a) → wp h p Q.
Proof using Type.
  intros Hp HQ. change h with ([] ++ h) at 1. generalize (@nil (event E)) as h0. revert Hp.
  induction p as [a|X e k IH]; intros Hp h0; cbn; [apply HQ|]. destruct Hp as [He Hk]. split; [apply He|].
  intros x. apply (IH x (Hk x) (Event e x :: h0)).
Qed.

(** What a run keeps: an invariant of history and state that every allowed call
    preserves, and the other clients too. *)
Lemma wp_crun {S A} (handle : ∀ X, E X → S → X * S) (env : S → S → Prop) (I : history → S → Prop)
    (p : prog E A) h Q s a s' :
  (∀ h X (e : E X) s, allowed h X e → I h s → I (Event e (handle X e s).1 :: h) (handle X e s).2) →
  (∀ h s1 s2, env s1 s2 → I h s1 → I h s2) →
  wp h p Q → crun handle env p s a s' → I h s → ∃ h', Q h' a ∧ I h' s'.
Proof using Type.
  intros Hcall Henv.
  assert (∀ h s1 s2, rtc env s1 s2 → I h s1 → I h s2) as Hrtc by (induction 1; eauto).
  revert h s. induction p as [b|X e k IH]; intros h s; cbn.
  - intros HQ [-> Hs] HI. exists h. eauto.
  - intros [He Hk] (s1 & Hs & Hrun) HI. eapply IH; eauto.
Qed.
End logic.

(** What is allowed by one rule is allowed by a weaker one. *)
Lemma wp_allow {E : Type → Type} (allowed allowed' : list (event E) → ∀ X, E X → Prop) {A} h (p : prog E A) Q :
  (∀ h' X (e : E X), allowed h' X e → allowed' h' X e) → wp allowed h p Q → wp allowed' h p Q.
Proof.
  intros Hallow. revert h. induction p as [a|X e k IH]; intros h; cbn; [done|]. intros [He Hk]. auto.
Qed.

(** What is known of all runs, with the kinds of calls that are made. *)
Lemma wp_calls_in {E : Type → Type} (allowed : list (event E) → ∀ X, E X → Prop) (P : ∀ X, E X → Prop) {A} h
    (p : prog E A) Q :
  calls_in P p → wp allowed h p Q → wp (λ h' X e, allowed h' X e ∧ P X e) h p Q.
Proof.
  revert h. induction p as [a|X e k IH]; intros h; cbn; [done|]. intros [He Hp] [Ha Hk]. split; [done|]. auto.
Qed.

(** ** Calls of a service *)

Section service.
Context {externalE : Type → Type}.
Abbreviation history := (list (event (apiE externalE))).
Context (allowed : history → ∀ X, apiE externalE X → Prop).

Lemma wp_durable {A B} h (e : Durable.storeE A) (k : outcome A → prog (apiE externalE) B) Q :
  allowed h _ (OfStore e) → (∀ r, wp allowed (Event (OfStore e) r :: h) (k r) Q) →
  wp allowed h (prog_bind (durable e) k) Q.
Proof using Type. done. Qed.

Lemma wp_now {B} h (k : Time → prog (apiE externalE) B) Q :
  allowed h _ Now → (∀ t, wp allowed (Event Now t :: h) (k t) Q) → wp allowed h (prog_bind now k) Q.
Proof using Type. done. Qed.
End service.

(** ** Two goroutines

    Of two programs run together each has a history of its own, of which it
    satisfies what it satisfies alone; the events of both are in the history of
    the whole. *)

Definition any_call {E : Type → Type} (h : list (event E)) (X : Type) (e : E X) : Prop := True.

Section together.
Context {E : Type → Type}.
Abbreviation history := (list (event E)).

Lemma wp_weaken {A} (own h : history) (p : prog E A) (Q : history → A → Prop) :
  wp any_call own p Q → own ⊆ h →
  wp any_call h p (λ h' a, h ⊆ h' ∧ ∃ own', own' ⊆ h' ∧ Q own' a).
Proof.
  revert own h. induction p as [a|X e k IH]; intros own h; cbn; [eauto 10|].
  intros [_ Hk] Hsub. split; [done|]. intros x.
  eapply wp_mono; [|eapply IH; [apply Hk|set_solver]]. set_solver.
Qed.

Lemma wp_par {A B} schedule (own_p own_q h : history) (p : prog E A) (q : prog E B) (P : history → A → Prop)
    (Q : history → B → Prop) :
  wp any_call own_p p P → wp any_call own_q q Q → own_p ⊆ h → own_q ⊆ h →
  wp any_call h (par schedule p q) (λ h' ab, h ⊆ h' ∧
    ∃ own_p' own_q', own_p' ⊆ h' ∧ own_q' ⊆ h' ∧ P own_p' ab.1 ∧ Q own_q' ab.2).
Proof.
  revert own_p own_q h p q. induction schedule as [|first schedule IH]; intros own_p own_q h p q Hp Hq Hsub_p Hsub_q.
  - cbn. apply wp_bind. eapply wp_mono; [|by eapply wp_weaken]. intros h1 a (Hh1 & own_p' & Hown_p' & HP).
    apply wp_bind. eapply wp_mono; [|eapply wp_weaken; [exact Hq|set_solver]].
    intros h2 b (Hh2 & own_q' & Hown_q' & HQ). cbn. split; [set_solver|]. exists own_p', own_q'. set_solver.
  - destruct first, p as [a|X e k], q as [b|Y f l]; cbn; try by eapply IH.
    1,2: destruct Hp as [_ Hk]; split; [done|]; intros x;
      (eapply wp_mono; [|eapply (IH (Event e x :: own_p) own_q (Event e x :: h)); [apply Hk|done|set_solver..]]);
      set_solver.
    all: destruct Hq as [_ Hl]; split; [done|]; intros y;
      (eapply wp_mono; [|eapply (IH own_p (Event f y :: own_q) (Event f y :: h)); [done|apply Hl|set_solver..]]);
      set_solver.
Qed.
End together.
