(* ===== verification/PostgresTransactions.v ===== *)
(** * The PostgreSQL store: transactions and locks

    What every run of a method of the PostgreSQL store does, whatever the
    database answers: its transactions are begun and ended, a failed method
    leaves nothing written, or, when a commit was not acknowledged, possibly all
    of it; the locks it asks for come in one order; and what it writes it has
    checked under the locks that protect it, or fenced by a revision. *)

From S2P Require Import Prelude GoRuntime GoRange Domain Errors Program MemoryState MemoryPublications DurableStore PgStatements PostgresIntents PostgresMissions PostgresPublications ProgramLogic.
From stdpp Require Import options.

(** ** What the statements do to the tables *)

Inductive write : Type :=
  | Write (A : Type) (q : Sql.stmt A).

(** The reply to a statement that writes leaves it possible that it changed rows:
    the number of rows is not 0, or the statement was answered with an error, and
    the database may have executed it all the same. *)
Definition may_have_changed {A} (q : Sql.stmt A) : outcome A → bool :=
  match q in Sql.stmt A return outcome A → bool with
  | Sql.InsertIntent _ _ | Sql.UpsertIntent _ _ _ | Sql.UpdateIntent _ _ _
  | Sql.DeleteVolumes _ _ | Sql.UpsertVolume _ _ _ _ | Sql.UpsertFinding _ _ | Sql.DeleteFindings _ _ _
  | Sql.UpsertPublication _ _ | Sql.RenewLease _ _ _ _ | Sql.UpdatePublication _ _ _
  | Sql.InsertNotification _ _ | Sql.UpdateNotification _ _ _ | Sql.WriteNotification _ _ | Sql.InsertReceived _ _
  | Sql.InsertAircraft _ _ | Sql.InsertFlight _ _ | Sql.UpdateFlight _ _ _ | Sql.ActivateFlight _ _ _
  | Sql.InsertMission _ _ | Sql.InsertMissionItem _ _ _
  | Sql.InsertDeployment _ _ | Sql.UpdateDeployment _ _ _ =>
      λ r, match r with Ok n => n <>z 0 | Err _ => true end
  | _ => λ _, false
  end.

(** ** Locks *)

(** [pg_advisory_xact_lock] of a text and a seed, and rows that are selected
    [FOR UPDATE]. *)
Inductive lock : Set :=
  | MissionKey (key : string) (* seed 1 *)
  | DeploymentKey (key : string) (* seed 3 *)
  | FlightRow (flightID : string)
  | MissionAircraft (aircraftID : string) (* seed 4 *)
  | AircraftLifecycle (aircraftID : string) (* seed 0 *)
  | IntentLock (intentID : string) (* seed 0 *)
  | IntentRow (intentID : string)
  | MissionFlight (flightID : string) (* seed 2 *)
  | PublicationRow (intentID : string)
  | DuePublications
  | DueNotifications.

#[global] Instance lock_eq_dec : EqDecision lock.
Proof. solve_decision. Defined.

(** The lock that a statement waits for. *)
Definition awaits {A} (q : Sql.stmt A) : option lock :=
  match q with
  | Sql.LockMissionKey key => Some (MissionKey key)
  | Sql.LockDeploymentKey key => Some (DeploymentKey key)
  | Sql.LockFlight flightID | Sql.LockFlightForUpdate flightID | Sql.LockFlightForStart flightID =>
      Some (FlightRow flightID)
  | Sql.LockMissionAircraft aircraftID => Some (MissionAircraft aircraftID)
  | Sql.LockAircraftLifecycle aircraftID => Some (AircraftLifecycle aircraftID)
  | Sql.LockIntent intentID => Some (IntentLock intentID)
  | Sql.LockCurrentIntent intentID | Sql.LockIntentOfFlight intentID => Some (IntentRow intentID)
  | Sql.LockMissionFlight flightID => Some (MissionFlight flightID)
  | Sql.LockPublication intentID => Some (PublicationRow intentID)
  | _ => None
  end.

(** The lock that the transaction holds afterwards; [SKIP LOCKED] takes the locks
    that are free. *)
Definition takes {A} (q : Sql.stmt A) : option lock :=
  match q with
  | Sql.SelectDuePublications _ _ => Some DuePublications
  | Sql.SelectDueNotifications _ _ => Some DueNotifications
  | q => awaits q
  end.

(** The order in which the locks are asked for. *)
Definition rank (l : lock) : nat :=
  match l with
  | MissionKey _ | DeploymentKey _ => 0
  | FlightRow _ => 1
  | MissionAircraft _ => 2
  | AircraftLifecycle _ => 3
  | IntentLock _ => 4
  | IntentRow _ => 5
  | MissionFlight _ => 6
  | PublicationRow _ | DuePublications | DueNotifications => 7
  end%nat.

(** ** What the calls so far amount to *)

Abbreviation history := (list (event pgE)).

(** An open transaction with its locks and what it has written; what lasts; what
    may last, since the call that would have made it last was answered with an
    error; and all that was written. *)
Record ledger : Type := mkLedger {
  opened : bool;
  held : list lock;
  staged : list write;
  lasting : list write;
  doubtful : list write;
  wrote : list write;
}.

(** A commit makes what is staged last, and a statement on the pool is a
    transaction of its own.  When one of these is answered with an error, it may
    have taken effect nevertheless (the acknowledgement can be lost).  What is
    staged goes with a rollback. *)
Definition play (ev : event pgE) (t : ledger) : ledger :=
  match ev with
  | Event e x =>
      match e in pgE X return X → ledger with
      | Begin => λ r, if is_ok r then mkLedger true [] [] (lasting t) (doubtful t) (wrote t) else t
      | Commit => λ r,
          if is_ok r then mkLedger false [] [] (staged t ++ lasting t) (doubtful t) (wrote t)
          else mkLedger false [] [] (lasting t) (staged t ++ doubtful t) (wrote t)
      | Rollback => λ _, mkLedger false [] [] (lasting t) (doubtful t) (wrote t)
      | @Statement A db q => λ r,
          let w := if may_have_changed q r then [Write A q] else [] in
          match db with
          | Pool =>
              if is_ok r then mkLedger (opened t) (held t) (staged t) (w ++ lasting t) (doubtful t) (w ++ wrote t)
              else mkLedger (opened t) (held t) (staged t) (lasting t) (w ++ doubtful t) (w ++ wrote t)
          | Tx => mkLedger (opened t) (match takes q with Some l => l :: held t | None => held t end)
                    (w ++ staged t) (lasting t) (doubtful t) (w ++ wrote t)
          end
      end x
  end.

Definition tally (h : history) : ledger := foldr play (mkLedger false [] [] [] [] []) h.

Lemma tally_cons ev h : tally (ev :: h) = play ev (tally h).
Proof. done. Qed.

Arguments tally : simpl never.

Ltac tally := rewrite ?tally_cons; cbn [play is_ok may_have_changed takes awaits opened held staged lasting doubtful wrote app].

(** ** What a method may send *)

(** The pool while no transaction is open, the transaction while it is. *)
Definition legal (h : history) (X : Type) (e : pgE X) : Prop :=
  match e with
  | Begin | Statement Pool _ => opened (tally h) = false
  | Commit | Statement Tx _ => opened (tally h) = true
  | Rollback => True
  end.

(** A lock is asked for after those before it in the order; asking for one that is held does not wait. *)
Definition in_order (l : lock) (locks : list lock) : Prop :=
  l ∈ locks ∨ Forall (λ l', (rank l' < rank l)%nat) locks.

Definition ordered (h : history) (X : Type) (e : pgE X) : Prop :=
  match e with
  | Statement Tx q => match awaits q with Some l => in_order l (held (tally h)) | None => True end
  | _ => True
  end.

(** [q] was sent in the transaction and had the reply [r]. *)
Definition answered {A} (h : history) (q : Sql.stmt A) (r : A) : Prop := Event (Statement Tx q) (Ok r) ∈ h.

Definition holds (h : history) (l : lock) : Prop := l ∈ held (tally h).

(** Nobody is uploading a mission for the intent. *)
Definition intent_fenced (h : history) (intentID : string) : Prop :=
  holds h (IntentLock intentID)
  ∧ answered h (Sql.OutstandingForIntent intentID MissionDeploymentPending MissionDeploymentTemporaryError
      MissionDeploymentOutcomeUnknown) false.

Section fences.
Context {RT : Runtime} {JS : StoredJson}.

(** What the start of a flight rests on. *)
Definition start_fenced (h : history) (flight : FlightRecord) (expectedStatus : FlightStatus) : Prop :=
  ∃ intentID intentVersion aircraftID missionID missionDigest row latest,
    answered h (Sql.LockFlightForStart (Flight_ID flight))
      (Some (expectedStatus, intentID, intentVersion, aircraftID))
    ∧ holds h (MissionAircraft aircraftID) ∧ holds h (IntentLock intentID)
    ∧ answered h (Sql.OtherFlightExists aircraftID (Flight_ID flight) FlightStatusActive) false
    ∧ answered h (Sql.LockIntentOfFlight intentID) (Some (intentVersion, aircraftID, IntentStatusActive))
    ∧ answered h (Sql.SelectCurrentMission (Flight_ID flight)) (Some (missionID, missionDigest))
    ∧ answered h (Sql.OutstandingForAircraft aircraftID FlightStatusPlanned MissionDeploymentPending
        MissionDeploymentTemporaryError MissionDeploymentOutcomeUnknown) false
    ∧ answered h (Sql.SelectDeployment (Sql.LatestDeploymentOfAircraft aircraftID)) (Some row)
    ∧ read_deployment row = Ok latest ∧ verified_deployment flight missionID missionDigest latest = true.

(** What a mission of a planned flight rests on. *)
Definition import_fenced (h : history) (mission : Mission) : Prop :=
  ∃ operatorID aircraftID intentID intentVersion intent,
    answered h (Sql.LockFlight (Mission_FlightID mission))
      (Some (FlightStatusPlanned, operatorID, aircraftID, intentID, intentVersion))
    ∧ Mission_OperatorID mission = operatorID ∧ Mission_AircraftID mission = aircraftID
    ∧ Mission_IntentID mission = intentID ∧ Mission_IntentVersion mission = intentVersion
    ∧ holds h (IntentLock intentID)
    ∧ answered h (Sql.LockCurrentIntent intentID) (Some intent)
    ∧ current_for_mission operatorID aircraftID intentVersion intent = true
    ∧ answered h (Sql.OutstandingForFlight (Mission_FlightID mission) MissionDeploymentPending
        MissionDeploymentTemporaryError MissionDeploymentOutcomeUnknown) false.

(** What a deployment to a planned flight rests on. *)
Definition deployment_fenced (h : history) (deployment : MissionDeployment) : Prop :=
  ∃ operatorID aircraftID intentID intentVersion intent,
    answered h (Sql.LockFlight (Deployment_FlightID deployment))
      (Some (FlightStatusPlanned, operatorID, aircraftID, intentID, intentVersion))
    ∧ Deployment_OperatorID deployment = operatorID ∧ Deployment_AircraftID deployment = aircraftID
    ∧ Deployment_IntentID deployment = intentID ∧ Deployment_IntentVersion deployment = intentVersion
    ∧ holds h (MissionAircraft aircraftID) ∧ holds h (IntentLock intentID)
    ∧ answered h (Sql.LockCurrentIntent intentID) (Some intent)
    ∧ current_for_mission operatorID aircraftID intentVersion intent = true
    ∧ answered h (Sql.FlightExists aircraftID FlightStatusActive) false
    ∧ answered h (Sql.SelectCurrentMission (Deployment_FlightID deployment))
        (Some (Deployment_MissionID deployment, Deployment_MissionDigest deployment))
    ∧ answered h (Sql.OtherOutstandingForAircraft aircraftID FlightStatusPlanned EmptyString
        MissionDeploymentPending MissionDeploymentTemporaryError MissionDeploymentOutcomeUnknown) false.

(** [row] is among the rows that a query of the transaction was answered. *)
Definition among {A} (h : history) (q : Sql.stmt (rows A)) (row : A) : Prop :=
  ∃ rows, answered h q rows ∧ Ok row ∈ delivered rows.

(** The version of an intent that is written is one of the locked intent: the
    method's own, or an accepted one that was read under the lock, with the
    revision after the one that was read. *)
Definition version_fenced (h : history) (intent : OperationalIntent) (revision : Z) : Prop :=
  intent_fenced h (Intent_ID intent)
  ∨ ∃ intentID version row prior,
      intent_fenced h intentID ∧ among h (Sql.SelectPriorIntents intentID version IntentStatusAccepted) row
      ∧ read_intent row = Ok prior ∧ Intent_ID intent = Intent_ID prior
      ∧ Intent_Version intent = Intent_Version prior ∧ revision = int64_succ (Intent_Revision prior).

(** A publication that is written as a whole has its row locked, or is the next
    revision of the one that was read in the locked row. *)
Definition publication_fenced (h : history) (publication : OperationalIntentPublication) : Prop :=
  holds h (PublicationRow (Publication_IntentID publication))
  ∨ ∃ row current, read_publication row = Ok current
      ∧ Publication_IntentID publication = Publication_IntentID current
      ∧ Publication_Revision publication = int64_succ (Publication_Revision current)
      ∧ ((∃ intentID, answered h (Sql.LockPublication intentID) (Some row))
         ∨ ∃ now limit, among h (Sql.SelectDuePublications now limit) row).

(** The same of a notification. *)
Definition notification_fenced (h : history) (notification : PeerNotification) : Prop :=
  ∃ now limit row current, among h (Sql.SelectDueNotifications now limit) row ∧ read_notification row = Ok current
    ∧ Notification_ID notification = Notification_ID current
    ∧ Notification_Revision notification = int64_succ (Notification_Revision current).

(** What a statement that writes rests on; [planned] tells whether the method
    is one of those for planned flights. *)
Definition fence (planned : bool) (h : history) {A} (q : Sql.stmt A) : Prop :=
  match q with
  | Sql.InsertIntent intent _ | Sql.UpdateIntent intent _ _ => intent_fenced h (Intent_ID intent)
  | Sql.UpsertIntent intent revision _ => version_fenced h intent revision
  | Sql.DeleteVolumes intentID _ => intent_fenced h intentID
  | Sql.UpsertVolume volume _ _ _ => intent_fenced h (Volume_IntentID volume)
  | Sql.UpsertFinding finding _ => holds h (IntentLock (ConflictFinding_IntentID finding))
  | Sql.DeleteFindings intentID _ _ => holds h (IntentLock intentID)
  | Sql.UpsertPublication publication _ => publication_fenced h publication
  | Sql.WriteNotification notification _ => notification_fenced h notification
  | Sql.UpdatePublication publication expectedRevision _ =>
      Publication_Revision publication = int64_succ expectedRevision
  | Sql.UpdateNotification notification expectedRevision _ =>
      Notification_Revision notification = int64_succ expectedRevision
  | Sql.UpdateDeployment deployment _ expectedRevision =>
      Deployment_Revision deployment = int64_succ expectedRevision
  | Sql.InsertNotification _ _ =>
      ∃ publication expectedRevision raw n,
        answered h (Sql.UpdatePublication publication expectedRevision raw) n ∧ n ≠ 0
  | Sql.UpdateFlight flight _ expectedStatus =>
      ∃ aircraftID intentID,
        answered h (Sql.LockFlightForUpdate (Flight_ID flight)) (Some (expectedStatus, aircraftID, intentID))
        ∧ holds h (MissionAircraft aircraftID) ∧ holds h (IntentLock intentID)
        ∧ answered h (Sql.OutstandingForFlight (Flight_ID flight) MissionDeploymentPending
            MissionDeploymentTemporaryError MissionDeploymentOutcomeUnknown) false
  | Sql.ActivateFlight flight _ expectedStatus => start_fenced h flight expectedStatus
  | Sql.InsertMission mission _ =>
      holds h (MissionKey (Mission_IdempotencyKey mission)) ∧ holds h (MissionFlight (Mission_FlightID mission))
      ∧ answered h (Sql.NextMissionVersion (Mission_FlightID mission)) (Mission_Version mission)
      ∧ if planned then import_fenced h mission else True
  | Sql.InsertMissionItem missionID sequence raw =>
      ∃ mission raw' n item, answered h (Sql.InsertMission mission raw') n ∧ Mission_ID mission = missionID
        ∧ item ∈ Mission_Items mission ∧ MissionItem_Sequence item = sequence ∧ json_Marshal item = Ok raw
  | Sql.InsertDeployment deployment _ =>
      holds h (DeploymentKey (Deployment_IdempotencyKey deployment)) ∧ Deployment_Revision deployment = 0
      ∧ if planned then deployment_fenced h deployment else True
  | _ => True
  end.

Definition fenced (planned : bool) (h : history) (X : Type) (e : pgE X) : Prop :=
  match e with Statement _ q => fence planned h q | _ => True end.

(** The text of a column is the one of the record that the other columns come from. *)
Definition encoding {A} (q : Sql.stmt A) : Prop :=
  match q with
  | Sql.InsertIntent intent raw | Sql.UpsertIntent intent _ raw | Sql.UpdateIntent intent raw _ =>
      json_Marshal intent = Ok raw
  | Sql.UpsertVolume volume _ geometry raw =>
      json_Marshal volume = Ok raw ∧ geometryJSON (Volume_GeoJSON volume) = Ok geometry
  | Sql.UpsertFinding finding raw => json_Marshal finding = Ok raw
  | Sql.UpsertPublication publication raw | Sql.UpdatePublication publication _ raw => json_Marshal publication = Ok raw
  | Sql.InsertNotification notification raw | Sql.UpdateNotification notification _ raw
  | Sql.WriteNotification notification raw => json_Marshal notification = Ok raw
  | Sql.InsertReceived notification raw => json_Marshal notification = Ok raw
  | Sql.InsertAircraft aircraft raw => json_Marshal aircraft = Ok raw
  | Sql.InsertFlight flight raw | Sql.UpdateFlight flight raw _ | Sql.ActivateFlight flight raw _ =>
      json_Marshal flight = Ok raw
  | Sql.InsertMission mission raw => json_Marshal (mission <| Mission_Items := [] |>) = Ok raw
  | Sql.InsertMissionItem _ _ raw => ∃ item : MissionItem, json_Marshal item = Ok raw
  | Sql.RenewLease _ _ leaseUntil rawLease => json_Marshal leaseUntil = Ok rawLease
  | Sql.InsertDeployment deployment raw | Sql.UpdateDeployment deployment raw _ =>
      encodeMissionDeployment deployment = Ok raw
  | _ => True
  end.

Definition encoded (h : history) (X : Type) (e : pgE X) : Prop :=
  match e with Statement _ q => encoding q | _ => True end.

Definition allowed (planned : bool) (h : history) (X : Type) (e : pgE X) : Prop :=
  legal h X e ∧ ordered h X e ∧ fenced planned h X e ∧ encoded h X e.

(** ** Inside a transaction *)

(** The transaction is open, nothing lasts yet, and everything written is staged. *)
Definition working (h : history) : Prop :=
  opened (tally h) = true ∧ lasting (tally h) = [] ∧ doubtful (tally h) = [] ∧ staged (tally h) = wrote (tally h).

Definition clean (h : history) : Prop := working h ∧ wrote (tally h) = [].

(** All or nothing: all that was written lasts, or nothing does; or all of it may
    last, after an error. *)
Definition all_or_nothing {A} (h : history) (r : outcome A) : Prop :=
  match r with
  | Ok _ => lasting (tally h) = wrote (tally h) ∧ doubtful (tally h) = []
  | Err _ => lasting (tally h) = [] ∧ (doubtful (tally h) = [] ∨ doubtful (tally h) = wrote (tally h))
  end.

(** When the body of a transaction returns. *)
Definition body_post {A} (h : history) (r : outcome A) : Prop :=
  match r with
  | Ok _ => clean h ∨ all_or_nothing h r
  | Err _ => all_or_nothing h r
  end.

(** When a method returns. *)
Definition settled {A} (h : history) (r : outcome A) : Prop :=
  opened (tally h) = false ∧ held (tally h) = [] ∧ staged (tally h) = [] ∧ all_or_nothing h r.

Context (planned : bool).

Lemma wp_refused {A} err : wp (allowed planned) [] (Ret (Err err : outcome A)) settled.
Proof using Type. do 4 (split; [done|]). by left. Qed.

Lemma wp_transaction {A} beginning (body : prog pgE (outcome A)) :
  (∀ h, h = [Event Begin (Ok tt)] → clean h → wp (allowed planned) h body body_post) →
  wp (allowed planned) [] (transaction beginning body) settled.
Proof using Type.
  intros Hbody. unfold transaction. apply wp_call; [done|]. intros [[]|err]; [|do 4 (split; [done|]); by left].
  apply wp_bind. eapply wp_mono; [|by apply Hbody]. cbn [prog_bind call]. intros h r Hpost. split; [done|]. intros [].
  unfold settled, all_or_nothing. cbn [wp]. tally. split_and!; try done.
  destruct r as [a|err]; [|done]. destruct Hpost as [[(_ & H1 & H2 & _) H3]|H]; [split; congruence|exact H].
Qed.

Lemma wp_commit {A} h committing (a : A) : working h → wp (allowed planned) h (commit committing a) body_post.
Proof using Type.
  intros (H1 & H2 & H3 & H4). unfold commit. apply wp_call; [done|].
  intros [[]|err]; cbn [wp body_post]; unfold all_or_nothing; tally; rewrite H2, H3, H4, app_nil_r; auto.
Qed.

(** A statement in the transaction. *)
Lemma wp_tx {A B} h (q : Sql.stmt A) (k : outcome A → prog pgE B) Q locks :
  working h → held (tally h) = locks →
  match awaits q with Some l => in_order l locks | None => True end → fence planned h q → encoding q →
  (∀ r, working (Event (Statement Tx q) r :: h) →
    held (tally (Event (Statement Tx q) r :: h)) = match takes q with Some l => l :: locks | None => locks end →
    wp (allowed planned) (Event (Statement Tx q) r :: h) (k r) Q) →
  wp (allowed planned) h (prog_bind (send Tx q) k) Q.
Proof using Type.
  intros (H1 & H2 & H3 & H4) <- Horder Hfence Hencoding Hk.
  apply wp_call; [split_and!; [done..|exact Horder|exact Hfence|exact Hencoding]|].
  intros r. apply Hk; [|tally; by destruct (takes q)].
  unfold working. tally. rewrite H1, H2, H3, H4. done.
Qed.

Lemma working_nothing {A} h err : working h → all_or_nothing h (Err err : outcome A).
Proof using Type. intros (_ & H1 & H2 & _). split; [done|by left]. Qed.

(** A loop that stays in the transaction and takes no locks. *)
Lemma wp_for_each {X} (f : X → prog pgE (outcome unit)) l h Q :
  working h →
  (∀ a h', a ∈ l → working h' → held (tally h') = held (tally h) → h ⊆ h' →
    wp (allowed planned) h' (f a) (λ h'' _, working h'' ∧ held (tally h'') = held (tally h) ∧ h ⊆ h'')) →
  (∀ h' r, working h' → held (tally h') = held (tally h) → h ⊆ h' → Q h' r) →
  wp (allowed planned) h (for_each f l) Q.
Proof using Type.
  intros Hw Hf HQ. assert (∃ h0, h0 = h) as [h0 Heq] by eauto. rewrite <- Heq in Hf, HQ.
  assert (held (tally h) = held (tally h0) ∧ h0 ⊆ h) as [Hheld Hsub] by (by subst).
  clear Heq. revert h Hw Hheld Hsub Hf. induction l as [|a l IH]; intros h Hw Hheld Hsub Hf; cbn [for_each].
  - apply wp_ret. by apply HQ.
  - apply wp_bind. eapply wp_mono; [|apply Hf; [left|done..]]. intros h' [[]|err] (H1 & H2 & H3).
    + apply IH; [done..|]. intros b h'' Hb. apply Hf. by right.
    + by apply HQ.
Qed.
(** Queries that take no locks. *)
Definition queries (X : Type) (e : pgE X) : Prop :=
  match e with
  | Statement Tx q => takes q = None ∧ (∀ r, may_have_changed q r = false) ∧ (∀ h, fence planned h q) ∧ encoding q
  | _ => False
  end.

Lemma wp_queries {A} (p : prog pgE A) h Q :
  working h → calls_in queries p →
  (∀ h' r, working h' → held (tally h') = held (tally h) → h ⊆ h' → wrote (tally h') = wrote (tally h) → Q h' r) →
  wp (allowed planned) h p Q.
Proof using Type.
  revert h. induction p as [a|X e k IH]; intros h Hw Hp HQ; [by apply HQ|].
  destruct Hp as [He Hk]. destruct e as [| | |B [] q]; try done. destruct He as (H1 & H2 & H3 & H4).
  assert (awaits q = None) as Hnone by (by destruct q).
  change (Call (Statement Tx q) k) with (prog_bind (send Tx q) k).
  eapply wp_tx; [done|reflexivity|by rewrite Hnone|done|done|]. rewrite H1. intros r Hw' Hheld.
  apply IH; [done|apply Hk|]. intros h' b ? Hsame Hsub Hwrote. apply HQ; [done|by rewrite Hsame| |].
  - intros ev Hev. apply Hsub. by right.
  - rewrite Hwrote. tally. by rewrite H2.
Qed.

Lemma getMission_queries clause : calls_in queries (getMission Tx clause).
Proof using Type.
  unfold getMission. split; [done|]. intros [[[mission raw]|]|err]; cbn; [|done..].
  destruct (decode_column _ _); [|done]. split; [done|]. intros [rows|err]; [|done]. by destruct (read_rows _ _ _ _).
Qed.

Lemma getMissionDeployment_queries clause : calls_in queries (getMissionDeployment Tx clause).
Proof using Type. unfold getMissionDeployment. split; [done|]. by intros [[row|]|err]. Qed.
End fences.

(** ** Every method *)

Ltac in_history :=
  match goal with
  | |- answered _ _ _ => unfold answered; in_history
  | |- _ ∈ _ :: _ => first [apply list_elem_of_here | apply list_elem_of_further; in_history]
  | H : ?h ⊆ ?h' |- _ ∈ ?h' => apply H; in_history
  end.

Ltac is_held :=
  unfold holds; match goal with H : held (tally ?h) = _ |- _ ∈ held (tally ?h) => rewrite H end; clear;
  solve [repeat first [apply list_elem_of_here | apply list_elem_of_further]].

Ltac next_lock :=
  cbn [awaits]; first [exact I | left; clear; solve [repeat first [apply list_elem_of_here | apply list_elem_of_further]] | right; solve [repeat constructor]].

Ltac pg_split x :=
  match x with
  | match ?y with _ => _ end => pg_split y
  | _ => first [is_var x; destruct x | destruct x eqn:?]
  end.

Ltac encodes := cbn [encoding]; first [exact I | eassumption | split; eassumption | eexists; eassumption].

Ltac forget h :=
  repeat match goal with H : working h |- _ => clear H | H : held (tally h) = _ |- _ => clear H end.

Ltac same_locks h :=
  match goal with H : held (tally h) = _, H' : _ = held (tally h) |- _ => rewrite H in H' end.

Ltac nothing_written :=
  repeat match goal with H : wrote (tally ?h) = _ |- context [tally ?h] => rewrite H; tally end; subst; by tally.

Ltac pg_step :=
  match goal with
  | |- wp _ _ (Ret _) _ => apply wp_ret; cbv beta iota
  | |- wp _ _ (commit _ _) body_post => apply wp_commit; assumption
  | |- wp _ ?h (prog_bind (send Tx _) _) _ =>
      eapply wp_tx; [eassumption|eassumption|next_lock| |encodes|forget h; intros ?; cbn [takes awaits]; intros ? ?; cbv beta]
  | |- wp _ _ (prog_bind (send _ _) _) _ => fail 1
  | |- wp _ _ (prog_bind _ _) _ => apply wp_bind
  | |- wp _ ?h (getMission Tx _) _ =>
      eapply wp_queries; [eassumption|apply getMission_queries|intros ? ? ? ? ? ?; same_locks h]
  | |- wp _ ?h (getMissionDeployment Tx (Sql.DeploymentByKey _)) _ =>
      eapply wp_queries; [eassumption|apply getMissionDeployment_queries|intros ? ? ? ? ? ?; same_locks h]
  | |- wp _ _ (getMissionDeployment Tx (Sql.LatestDeploymentOfAircraft _)) _ => unfold getMissionDeployment at 1
  | |- wp _ ?h (for_each _ _) _ =>
      eapply wp_for_each; [eassumption|intros ? ? ? ? ? ?; same_locks h|intros ? ? ? ? ?; same_locks h]
  | |- working _ ∧ held _ = held _ ∧ _ ⊆ _ =>
      split_and!; [assumption|congruence|intros ? ?; repeat apply list_elem_of_further; auto]
  | |- wp _ _ (match ?x with _ => _ end) _ => pg_split x
  | |- body_post _ (Err _) => cbn [body_post]; match goal with H : working ?h |- all_or_nothing ?h _ => by apply working_nothing end
  | |- body_post _ (match ?x with _ => _ end) => pg_split x
  | |- body_post _ (Ok _) => left; split; [assumption|nothing_written]
  end.

Section methods.
Context {RT : Runtime} {JS : StoredJson}.

Lemma volume_scope intentID version volumes volume :
  validateVolumeScope intentID version volumes = None → volume ∈ volumes → Volume_IntentID volume = intentID.
Proof using Type.
  unfold validateVolumeScope. destruct (List.find _ _) eqn:Hfind; [done|]. intros _ Hin%list_elem_of_In.
  eapply List.find_none in Hfind; [|exact Hin]. cbn in Hfind. by to_prop.
Qed.

Lemma finding_scope intentID version ruleVersion findings finding :
  validateFindingScope intentID version ruleVersion findings = None → finding ∈ findings →
  ConflictFinding_IntentID finding = intentID.
Proof using Type.
  unfold validateFindingScope. destruct (List.find _ _) eqn:Hfind; [done|]. intros _ Hin%list_elem_of_In.
  eapply List.find_none in Hfind; [|exact Hin]. cbn in Hfind. by to_prop.
Qed.

(** What was read of the rows of a query was read of one of them. *)
Lemma read_rows_elem {A B} scanning iterating (read : A → outcome B) l l' b :
  read_rows scanning iterating read l = Ok l' → b ∈ l' → ∃ a, Ok a ∈ delivered l ∧ read a = Ok b.
Proof using Type.
  unfold read_rows. destruct l as [l ended]. cbn [delivered rows_Err]. revert l'.
  induction l as [|[a|err] l IH]; intros l'; cbn [read_rows_from].
  - destruct ended; [done|]. by intros [= <-] ?%elem_of_nil.
  - destruct (read a) as [b'|] eqn:Hread; [|done]. destruct (read_rows_from _ _ _ _ _) as [bs|]; [|done].
    intros [= <-] [->|Hb]%elem_of_cons; [exists a; split; [by left|done]|].
    destruct (IH bs eq_refl Hb) as (a' & Ha' & Hb'). exists a'. split; [by right|done].
  - done.
Qed.

Ltac read_row :=
  match goal with
  | Hread : scanPublication ?row = Ok _ |- _ => destruct row as [[?|]|]; [|discriminate Hread..]; cbn [scanPublication] in Hread
  | Hread : ?read ?rows = Ok ?l, Hin : ?a ∈ map ?f ?l |- _ =>
      apply (proj1 (list_elem_of_fmap f l a)) in Hin as (? & -> & Hin); unfold readIntents, readPublications, readPeerNotifications in Hread;
      destruct (read_rows_elem _ _ _ _ _ _ Hread Hin) as (? & ? & ?)
  | Hread : ?read ?rows = Ok ?l, Hin : ?a ∈ ?l |- _ =>
      unfold readIntents, readPublications, readPeerNotifications in Hread; destruct (read_rows_elem _ _ _ _ _ _ Hread Hin) as (? & ? & ?)
  end.

Lemma carried_over_id current request status attempts err :
  Publication_IntentID
    ((carry_over current request) <| Publication_SyncStatus := status |> <| Publication_AttemptCount := attempts |>
                                <| Publication_LastError := err |>) = Publication_IntentID request.
Proof using Type. unfold carry_over. by case_match. Qed.

Ltac fenced_row :=
  unfold version_fenced, publication_fenced, notification_fenced, among, intent_fenced; rewrite ?carried_over_id;
  first [left; is_held | left; split; [is_held|in_history] | right | idtac]; try read_row;
  repeat match goal with |- ∃ _, _ => eexists | |- _ ∧ _ => split end;
  first [is_held | in_history | eassumption | done | left; eexists; in_history
        | right; repeat match goal with |- ∃ _, _ => eexists | |- _ ∧ _ => split end; first [in_history | eassumption] | idtac].

Ltac fence :=
  cbn [fence]; unfold bound_to_planned_flight in *;
  repeat match goal with
  | H : validateVolumeScope _ _ ?l = None, H' : ?a ∈ ?l |- _ =>
      pose proof (volume_scope _ _ _ _ H H'); clear H'
  | H : validateFindingScope _ _ _ ?l = None, H' : ?a ∈ ?l |- _ =>
      pose proof (finding_scope _ _ _ _ _ H H'); clear H'
  end; to_prop; subst; unfold start_fenced, import_fenced, deployment_fenced;
  repeat match goal with H : Volume_IntentID ?a = _ |- context [Volume_IntentID ?a] => rewrite H end; unfold intent_fenced; repeat match goal with |- ∃ _, _ => eexists | |- _ ∧ _ => split end;
  first [exact I | is_held | left; is_held | right; eexists; is_held | in_history | eassumption | done | idtac].

Ltac run := repeat (pg_step; try match goal with |- @fence _ _ _ _ _ => solve [fence | cbn [fence]; fenced_row] end).

Ltac start :=
  apply wp_transaction; intros h Hh [Hw _]; assert (held (tally h) = []) as Hheld by (by subst).

Ltac helpers :=
  cbv delta [lockIntent lockMissionAircraftLifecycle rejectOutstandingMissionDeploymentForIntent
    rejectOutstandingMissionDeploymentForFlight upsertIntent updateOperationalIntentTx
    retirePriorAcceptedIntentsTx acceptOperationalIntentTx upsertVolume replaceVolumes upsertFinding
    createMission insertMissionItem getMissionByIdempotencyKey createMissionDeployment
    deploy_to_planned_flight getMissionDeploymentByIdempotencyKey
    requestPublicationTx writePublication updateOperationalIntentPublication enqueuePeerNotifications
    enqueuePeerNotification writePeerNotification]; cbv beta zeta.

Lemma create_intent_settled intent : wp (allowed false) [] (pg_CreateOperationalIntent intent) settled.
Proof using Type. start. helpers. run. Qed.

Lemma update_intent_settled intent revision : wp (allowed false) [] (pg_UpdateOperationalIntent intent revision) settled.
Proof using Type. start. helpers. run. Qed.

Lemma activate_intent_settled intent revision : wp (allowed false) [] (pg_ActivateOperationalIntent intent revision) settled.
Proof using Type. start. helpers. run. Qed.

Lemma accept_intent_settled intent revision : wp (allowed false) [] (pg_AcceptOperationalIntent intent revision) settled.
Proof using Type. start. helpers. run. Qed.

Lemma record_volume_settled volume : wp (allowed false) [] (pg_RecordOperationalVolume volume) settled.
Proof using Type. start. helpers. run. Qed.

Lemma record_finding_settled finding : wp (allowed false) [] (pg_RecordConflictFinding finding) settled.
Proof using Type. start. helpers. run. Qed.

Lemma create_mission_settled mission : wp (allowed false) [] (pg_CreateMission mission) settled.
Proof using Type. start. helpers. run. Qed.

Lemma create_mission_planned_settled mission : wp (allowed true) [] (pg_CreateMissionForPlannedFlight mission) settled.
Proof using Type. start. helpers. run. Qed.

Lemma create_deployment_settled deployment : wp (allowed false) [] (pg_CreateMissionDeployment deployment) settled.
Proof using Type. start. helpers. run. Qed.

Lemma create_deployment_planned_settled deployment : wp (allowed true) [] (pg_CreateMissionDeploymentForPlannedFlight deployment) settled.
Proof using Type. start. helpers. run. Qed.

Lemma update_flight_settled flight status : wp (allowed false) [] (pg_UpdateFlightRecord flight status) settled.
Proof using Type. start. helpers. run. Qed.

Lemma start_flight_settled flight status : wp (allowed false) [] (pg_StartFlightWithCurrentMissionDeployment flight status) settled.
Proof using Type. start. helpers. run. Qed.

Lemma accept_publish_settled intent revision publication : wp (allowed false) [] (pg_AcceptOperationalIntentAndRequestPublication intent revision publication) settled.
Proof using Type. start. helpers. run. Qed.

Lemma update_publish_settled intent revision publication : wp (allowed false) [] (pg_UpdateOperationalIntentAndRequestPublication intent revision publication) settled.
Proof using Type. start. helpers. run. Qed.

Lemma request_publication_settled publication : wp (allowed false) [] (pg_RequestOperationalIntentPublication publication) settled.
Proof using Type. start. helpers. run. Qed.

Lemma request_publication_if_current_settled publication version revision status : wp (allowed false) [] (pg_RequestOperationalIntentPublicationIfCurrent publication version revision status) settled.
Proof using Type. start. helpers. run. Qed.

Lemma claim_publication_settled intentID now leaseUntil : wp (allowed false) [] (pg_ClaimOperationalIntentPublication intentID now leaseUntil) settled.
Proof using Type. start. helpers. run. Qed.

Lemma confirm_publication_settled publication revision notifications : wp (allowed false) [] (pg_ConfirmOperationalIntentPublication publication revision notifications) settled.
Proof using Type. start. helpers. run. Qed.

Lemma replace_volumes_settled intentID version volumes :
  wp (allowed false) [] (pg_ReplaceOperationalVolumes intentID version volumes) settled.
Proof using Type.
  unfold pg_ReplaceOperationalVolumes. destruct (validateVolumeScope _ _ _) eqn:Hscope; [apply wp_refused|]. start. helpers. run. Qed.

Lemma replace_intent_settled version revision intent volumes :
  wp (allowed false) [] (pg_ReplaceOperationalIntent version revision intent volumes) settled.
Proof using Type.
  unfold pg_ReplaceOperationalIntent. destruct (_ && _); [apply wp_refused|].
  destruct (validateVolumeScope _ _ _) eqn:Hscope; [apply wp_refused|]. start. helpers. run. Qed.

Lemma replace_findings_settled intentID version ruleVersion findings :
  wp (allowed false) [] (pg_ReplaceConflictFindings intentID version ruleVersion findings) settled.
Proof using Type.
  unfold pg_ReplaceConflictFindings. destruct (validateFindingScope _ _ _ _) eqn:Hscope; [apply wp_refused|]. start. helpers. run. Qed.

Lemma claim_due_publications_settled now leaseUntil limit :
  wp (allowed false) [] (pg_ClaimDueOperationalIntentPublications now leaseUntil limit) settled.
Proof using Type.
  unfold pg_ClaimDueOperationalIntentPublications. destruct (limit <=? 0); [done|]. start. helpers. run. Qed.

Lemma claim_due_notifications_settled now leaseUntil limit :
  wp (allowed false) [] (pg_ClaimDuePeerNotifications now leaseUntil limit) settled.
Proof using Type.
  unfold pg_ClaimDuePeerNotifications. destruct (limit <=? 0); [done|]. start. helpers. run. Qed.

(** Methods that send their statements to the pool. *)
Ltac pool_step :=
  match goal with
  | |- wp _ _ (Ret _) _ => apply wp_ret; cbv beta iota
  | |- wp _ _ (prog_bind (send Pool _) _) _ => apply wp_call; [by split_and!|intros ?]
  | |- wp _ _ (prog_bind (send _ _) _) _ => fail 1
  | |- wp _ _ (prog_bind _ _) _ => apply wp_bind
  | |- wp _ _ (match ?x with _ => _ end) _ => pg_split x
  | |- settled (Event _ ?x :: _) _ => is_var x; destruct x
  | |- settled _ (match ?x with _ => _ end) => pg_split x
  | |- settled _ ?r =>
      lazymatch r with Ok _ => idtac | Err _ => idtac | _ => destruct r end; unfold settled, all_or_nothing; tally;
      repeat match goal with H : (_ =? 0) = _ |- _ => rewrite H end; by split_and!; first [left; done | right; done | idtac]
  end.

Ltac pool :=
  cbv delta [getMissionByIdempotencyKey getMissionDeploymentByIdempotencyKey updateOperationalIntentPublication
    pg_GetMissionDeployment getMissionDeployment]; cbv beta zeta; repeat pool_step.

Lemma get_intent_settled intentID : wp (allowed false) [] (pg_GetOperationalIntent intentID) settled.
Proof using Type. unfold pg_GetOperationalIntent. pool. Qed.

Lemma get_intent_version_settled intentID version : wp (allowed false) [] (pg_GetOperationalIntentVersion intentID version) settled.
Proof using Type. unfold pg_GetOperationalIntentVersion. pool. Qed.

Lemma list_intents_settled aircraftID : wp (allowed false) [] (pg_ListOperationalIntents aircraftID) settled.
Proof using Type. unfold pg_ListOperationalIntents. pool. Qed.

Lemma list_intent_versions_settled intentID : wp (allowed false) [] (pg_ListOperationalIntentVersions intentID) settled.
Proof using Type. unfold pg_ListOperationalIntentVersions. pool. Qed.

Lemma list_volumes_settled intentID : wp (allowed false) [] (pg_ListOperationalVolumes intentID) settled.
Proof using Type. unfold pg_ListOperationalVolumes. pool. Qed.

Lemma list_findings_settled intentID version : wp (allowed false) [] (pg_ListConflictFindings intentID version) settled.
Proof using Type. unfold pg_ListConflictFindings. pool. Qed.

Lemma find_candidates_settled query : wp (allowed false) [] (pg_FindCandidates query) settled.
Proof using Type. unfold pg_FindCandidates. pool. Qed.

Lemma check_coverage_settled volume items : wp (allowed false) [] (pg_CheckMissionCoverage volume items) settled.
Proof using Type. unfold pg_CheckMissionCoverage. pool. Qed.

Lemma get_publication_settled intentID : wp (allowed false) [] (pg_GetOperationalIntentPublication intentID) settled.
Proof using Type. unfold pg_GetOperationalIntentPublication. pool. Qed.

Lemma renew_lease_settled intentID revision leaseUntil : wp (allowed false) [] (pg_RenewOperationalIntentPublicationLease intentID revision leaseUntil) settled.
Proof using Type. unfold pg_RenewOperationalIntentPublicationLease. pool. Qed.

Lemma update_publication_settled publication revision : wp (allowed false) [] (pg_UpdateOperationalIntentPublication publication revision) settled.
Proof using Type. unfold pg_UpdateOperationalIntentPublication. pool. Qed.

Lemma update_notification_settled notification revision : wp (allowed false) [] (pg_UpdatePeerNotification notification revision) settled.
Proof using Type. unfold pg_UpdatePeerNotification. pool. Qed.

Lemma record_received_settled notification : wp (allowed false) [] (pg_RecordReceivedPeerNotification notification) settled.
Proof using Type. unfold pg_RecordReceivedPeerNotification. pool. Qed.

Lemma create_aircraft_settled aircraft : wp (allowed false) [] (pg_CreateAircraft aircraft) settled.
Proof using Type. unfold pg_CreateAircraft. pool. Qed.

Lemma get_aircraft_settled aircraftID : wp (allowed false) [] (pg_GetAircraft aircraftID) settled.
Proof using Type. unfold pg_GetAircraft. pool. Qed.

Lemma list_aircraft_settled  : wp (allowed false) [] (pg_ListAircraft) settled.
Proof using Type. unfold pg_ListAircraft. pool. Qed.

Lemma create_flight_settled flight : wp (allowed false) [] (pg_CreateFlightRecord flight) settled.
Proof using Type. unfold pg_CreateFlightRecord. pool. Qed.

Lemma get_flight_settled flightID : wp (allowed false) [] (pg_GetFlightRecord flightID) settled.
Proof using Type. unfold pg_GetFlightRecord. pool. Qed.

Lemma list_flights_settled aircraftID : wp (allowed false) [] (pg_ListFlightRecords aircraftID) settled.
Proof using Type. unfold pg_ListFlightRecords. destruct (aircraftID <>s _); pool. Qed.

Lemma get_mission_settled clause : wp (allowed false) [] (getMission Pool clause) settled.
Proof using Type. unfold getMission. pool. Qed.

Lemma deployed_mission_settled aircraftID intentID version : wp (allowed false) [] (pg_GetDeployedMissionForActiveFlight aircraftID intentID version) settled.
Proof using Type. unfold pg_GetDeployedMissionForActiveFlight, getMission. pool. Qed.

Lemma get_deployment_settled clause : wp (allowed false) [] (getMissionDeployment Pool clause) settled.
Proof using Type. unfold getMissionDeployment. pool. Qed.

Lemma update_deployment_settled deployment revision : wp (allowed false) [] (pg_UpdateMissionDeployment deployment revision) settled.
Proof using Type. unfold pg_UpdateMissionDeployment. pool. Qed.

Ltac settles :=
  first [apply get_mission_settled | apply get_deployment_settled
    | apply create_mission_planned_settled | apply create_deployment_planned_settled
    | auto using create_intent_settled, update_intent_settled, activate_intent_settled, accept_intent_settled,
        record_volume_settled, record_finding_settled, create_mission_settled, create_deployment_settled,
        update_flight_settled, start_flight_settled, accept_publish_settled, update_publish_settled,
        request_publication_settled, request_publication_if_current_settled, claim_publication_settled,
        confirm_publication_settled;
      auto using replace_volumes_settled, replace_intent_settled, replace_findings_settled,
        claim_due_publications_settled, claim_due_notifications_settled, get_intent_settled,
        get_intent_version_settled, list_intents_settled, list_intent_versions_settled, list_volumes_settled,
        list_findings_settled, find_candidates_settled, check_coverage_settled;
      auto using get_publication_settled, renew_lease_settled, update_publication_settled,
        update_notification_settled, record_received_settled, create_aircraft_settled, get_aircraft_settled,
        list_aircraft_settled, create_flight_settled, get_flight_settled, list_flights_settled,
        deployed_mission_settled, update_deployment_settled ].

(** The methods for planned flights. *)
Definition for_planned_flight {A} (e : Durable.storeE A) : bool :=
  match e with
  | Durable.CreateMissionForPlannedFlight _ | Durable.CreateMissionDeploymentForPlannedFlight _ => true
  | _ => false
  end.

(** Every method of the interface that the type has of its own. *)
Lemma method_settled {A} (e : Durable.storeE A) p :
  postgres_method e = Some p → wp (allowed (for_planned_flight e)) [] p settled.
Proof using Type. destruct e; intros [= <-]; settles. Qed.
(** C17: Whatever the database answers, a method of the PostgreSQL store sends the statements of a transaction
    between its begin and its end only, does not use the pool meanwhile, and leaves no transaction open.  When it
    succeeds, all that it wrote lasts.  When it fails, nothing that it wrote is known to last; and nothing of it
    may last at all, unless a commit or a statement on the pool was answered with an error, which can have taken
    effect although it was not acknowledged: then all that the method wrote may last, never a part of it. *)
Theorem postgres_atomic {A} (e : Durable.storeE A) p :
  postgres_method e = Some p →
  wp legal [] p (λ h r,
    opened (tally h) = false ∧ staged (tally h) = []
    ∧ match r with
      | Ok _ => lasting (tally h) = wrote (tally h) ∧ doubtful (tally h) = []
      | Err _ => lasting (tally h) = [] ∧ (doubtful (tally h) = [] ∨ doubtful (tally h) = wrote (tally h))
      end).
Proof using Type.
  intros Hp%method_settled. eapply wp_mono; [|eapply wp_allow; [|exact Hp]].
  - intros h r (? & ? & ? & ?). done.
  - by intros h X e' [].
Qed.


(** ** What is read back *)

(** The fields with the tag [json:-] are left out. *)
Definition visible_intent (intent : OperationalIntent) : OperationalIntent := intent <| Intent_Revision := 0 |>.

Definition visible_publication (publication : OperationalIntentPublication) : OperationalIntentPublication :=
  publication <| Publication_Revision := 0 |>.

Definition visible_notification (notification : PeerNotification) : PeerNotification :=
  notification <| Notification_Revision := 0 |>.

Definition visible_mission (mission : Mission) : Mission :=
  mission <| Mission_IdempotencyKey := "" |> <| Mission_IdempotencyRequest := "" |>.

Definition visible_deployment (data : missionDeploymentData) : missionDeploymentData :=
  mkMissionDeploymentData
    ((data_Deployment data) <| Deployment_Revision := 0 |> <| Deployment_AgentID := "" |>
       <| Deployment_DispatchStarted := false |> <| Deployment_OperationContextCommandID := "" |>
       <| Deployment_ReconciliationClearCommandID := "" |> <| Deployment_IdempotencyKey := "" |>
       <| Deployment_IdempotencyRequest := "" |>)
    (data_AgentID data) (data_DispatchStarted data) (data_OperationContextCommandID data)
    (data_ReconciliationClearCommandID data).

(** What a column of type jsonb gives back for a text. *)
Context (jsonb : string → string).

(** Encoding a value, storing it and decoding it keeps what is visible of it. *)
Definition kept {T} {J : Json T} (visible : T → T) (x : T) : Prop :=
  ∀ raw, json_Marshal x = Ok raw → json_Unmarshal (jsonb raw) = Ok (visible x).

(** The columns of a mission that are scanned. *)
Definition mission_columns (mission : Mission) : Mission :=
  mission <| Mission_ValidationFindings := [] |> <| Mission_Items := [] |>.

(** A database that has the row of one mission and those of its items. *)
Definition mission_replies (columns : Mission) (raw : string) (items : list string) (X : Type) (e : pgE X) : X :=
  match e in pgE X return X with
  | Begin | Commit => Ok tt
  | Rollback => tt
  | Statement _ q =>
      match q in Sql.stmt A return outcome A with
      | Sql.SelectMission _ => Ok (Some (columns, raw))
      | Sql.SelectMissionItems _ => Ok (mkRows (map Ok items) None)
      | _ => Err (plain "")
      end
  end.

Lemma read_items items texts :
  Forall (kept (λ item : MissionItem, item)) items →
  Forall2 (λ (item : MissionItem) text, json_Marshal item = Ok text) items texts →
  read_rows "scan mission item" (wrap "iterate mission items") (decode_column (A:=MissionItem) "decode mission item")
    (mkRows (map Ok (map jsonb texts)) None) = Ok items.
Proof using Type.
  intros Hkept Htexts. unfold read_rows. cbn [delivered rows_Err]. induction Htexts as [|item text items texts Htext _ IH]; [done|].
  apply Forall_cons in Hkept as [Hitem Hkept]. cbn [map read_rows_from]. unfold decode_column at 1.
  by rewrite (Hitem text Htext), (IH Hkept).
Qed.

(** The row that a statement writes is read as the record that it was made from. *)
Definition reads_back (h : history) {A} (q : Sql.stmt A) : Prop :=
  match q with
  | Sql.InsertIntent intent raw =>
      kept visible_intent intent → read_intent (jsonb raw, 0) = Ok (intent <| Intent_Revision := 0 |>)
  | Sql.UpsertIntent intent revision raw =>
      kept visible_intent intent → read_intent (jsonb raw, revision) = Ok (intent <| Intent_Revision := revision |>)
  | Sql.UpdateIntent intent raw expectedRevision =>
      kept visible_intent intent →
      read_intent (jsonb raw, expectedRevision + 1) = Ok (intent <| Intent_Revision := expectedRevision + 1 |>)
  | Sql.UpsertPublication publication raw | Sql.UpdatePublication publication _ raw =>
      kept visible_publication publication →
      read_publication (jsonb raw, Publication_Revision publication) = Ok publication
  | Sql.UpdateNotification notification _ raw | Sql.WriteNotification notification raw =>
      kept visible_notification notification →
      read_notification (jsonb raw, Notification_Revision notification) = Ok notification
  | Sql.InsertNotification notification raw =>
      kept visible_notification notification →
      read_notification (jsonb raw, 0) = Ok (notification <| Notification_Revision := 0 |>)
  | Sql.InsertMission mission raw =>
      kept visible_mission (mission <| Mission_Items := [] |>) →
      Forall (kept (λ item : MissionItem, item)) (Mission_Items mission) →
      ∀ texts clause, Forall2 (λ (item : MissionItem) text, json_Marshal item = Ok text) (Mission_Items mission) texts →
        answer (mission_replies (mission_columns mission) (jsonb raw) (map jsonb texts)) (getMission Pool clause)
        = Ok mission
  | Sql.InsertMissionItem missionID sequence raw =>
      ∃ mission raw' n item, answered h (Sql.InsertMission mission raw') n ∧ Mission_ID mission = missionID
        ∧ item ∈ Mission_Items mission ∧ MissionItem_Sequence item = sequence ∧ json_Marshal item = Ok raw
  | Sql.InsertDeployment deployment raw | Sql.UpdateDeployment deployment raw _ =>
      kept visible_deployment (deployment_data deployment) →
      read_deployment (Deployment_IdempotencyKey deployment, Deployment_IdempotencyRequest deployment,
        Deployment_Revision deployment, jsonb raw) = Ok deployment
  | _ => True
  end.

Lemma encoding_reads_back planned h {B} (q : Sql.stmt B) : fence planned h q → encoding q → reads_back h q.
Proof using Type.
  assert (∀ intent raw revision, json_Marshal intent = Ok raw → kept visible_intent intent →
    read_intent (jsonb raw, revision) = Ok (intent <| Intent_Revision := revision |>)) as Hintent.
  { intros intent raw revision Hraw Hkept. unfold read_intent, decode_column. cbn. by rewrite (Hkept raw Hraw). }
  intros Hfence. destruct q; try done; cbn [encoding reads_back]; try (by apply Hintent); intros Hraw Hkept; apply Hkept in Hraw.
  - unfold read_publication, decode_column. cbn. rewrite Hraw. by destruct publication.
  - unfold read_publication, decode_column. cbn. rewrite Hraw. by destruct publication.
  - unfold read_notification, decode_column. cbn. rewrite Hraw. by destruct notification.
  - unfold read_notification, decode_column. cbn. rewrite Hraw. by destruct notification.
  - unfold read_notification, decode_column. cbn. rewrite Hraw. by destruct notification.
  - intros Hitems texts clause Htexts. unfold getMission, decode_column at 1. cbn. rewrite Hraw. cbn.
    pose proof (read_items _ _ Hitems Htexts) as Hread. unfold read_rows in Hread. cbn in Hread. rewrite Hread.
    by destruct mission.
  - unfold read_deployment, decodeMissionDeployment. rewrite Hraw. by destruct deployment.
  - unfold read_deployment, decodeMissionDeployment. rewrite Hraw. by destruct deployment.
Qed.

End methods.

(** ** Examples *)

(** A codec that knows one value, and one that knows none. *)
Definition constant_json {T} (x : T) : Json T := {| json_Marshal _ := Ok "row"; json_Unmarshal _ := Ok x |}.
Definition no_json {T} : Json T := {|
  json_Marshal _ := Err (plain "unsupported");
  json_Unmarshal _ := Err (plain "unsupported");
|}.

Definition sample_deployment : MissionDeployment :=
  zero_MissionDeployment <| Deployment_ID := "d" |> <| Deployment_AgentID := "agent" |>
    <| Deployment_Revision := 3 |> <| Deployment_IdempotencyKey := "key" |>.

Definition sample_json : StoredJson := {|
  intent_json := constant_json zero_OperationalIntent;
  volume_json := no_json;
  volumes_json := no_json;
  route_json := no_json;
  finding_json := no_json;
  publication_json := constant_json zero_OperationalIntentPublication;
  time_json := no_json;
  notification_json := constant_json zero_PeerNotification;
  received_json := no_json;
  aircraft_json := no_json;
  flight_json := constant_json zero_FlightRecord;
  mission_json := no_json;
  item_json := no_json;
  deployment_json := constant_json (visible_deployment (deployment_data sample_deployment));
|}.

Definition sample_flight : FlightRecord := zero_FlightRecord <| Flight_ID := "f" |>.

Lemma postgres_atomic_witness :
  wp legal [] (pg_UpdateFlightRecord (JS:=sample_json) sample_flight FlightStatusPlanned) (λ h r,
    opened (tally h) = false ∧ staged (tally h) = []
    ∧ match r with
      | Ok _ => lasting (tally h) = wrote (tally h) ∧ doubtful (tally h) = []
      | Err _ => lasting (tally h) = [] ∧ (doubtful (tally h) = [] ∨ doubtful (tally h) = wrote (tally h))
      end).
Proof.
  apply (postgres_atomic (RT:=reference_runtime) (JS:=sample_json)
    (Durable.UpdateFlightRecord sample_flight FlightStatusPlanned)). reflexivity.
Defined.


