(* ===== verification/PostgresLocks.v ===== *)
(** * The PostgreSQL store: concurrent methods

    Any number of methods run at the same time, each in a transaction of its
    own; a statement that asks for a lock waits while another transaction
    holds it.  Since all of them ask in one order, some method can always go
    on, and all of them finish. *)

From S2P Require Import Prelude GoRuntime GoRange Domain Errors Program MemoryState DurableStore PgStatements PostgresIntents PostgresMissions PostgresPublications ProgramLogic PostgresTransactions.
From stdpp Require Import options.

(** ** Locks in conflict *)

(** The text and the seed of an advisory lock. *)
Definition advisory (l : lock) : option (string * Z) :=
  match l with
  | MissionKey key => Some (key, 1)
  | DeploymentKey key => Some (key, 3)
  | MissionAircraft aircraftID => Some (aircraftID, 4)
  | AircraftLifecycle aircraftID => Some (aircraftID, 0)
  | IntentLock intentID => Some (intentID, 0)
  | MissionFlight flightID => Some (flightID, 2)
  | _ => None
  end.

Section clients.
Context {RT : Runtime} {JS : StoredJson}.

(** [hashtextextended(text, seed)] of PostgreSQL: the number that is locked. *)
Context (hashtextextended : string → Z → Z).

Definition conflict (l l' : lock) : bool :=
  match advisory l, advisory l' with
  | Some (s, seed), Some (s', seed') => hashtextextended s seed =? hashtextextended s' seed'
  | _, _ =>
      match l, l' with
      | FlightRow a, FlightRow b | IntentRow a, IntentRow b | PublicationRow a, PublicationRow b => a =s= b
      | PublicationRow _, DuePublications => true
      | _, _ => false
      end
  end.

(** ** Methods that run *)

(** What a method did so far, and what is left of it. *)
Inductive client : Type :=
  | Client (A : Type) (h : history) (rest : prog pgE (outcome A)).

Definition locks (c : client) : list lock := match c with Client _ h _ => held (tally h) end.

Definition finished (c : client) : Prop := match c with Client _ _ (Ret _) => True | _ => False end.

(** The lock that the next call asks for. *)
Definition wanted {X} (e : pgE X) : option lock := match e with Statement Tx q => awaits q | _ => None end.

Definition asks (c : client) : option lock := match c with Client _ _ (Call e _) => wanted e | _ => None end.

(** A call goes through when it asks for no lock, for one that the client
    holds, or for one that no other client holds. *)
Definition free (others : list client) (own : list lock) (wanted : option lock) : Prop :=
  match wanted with
  | None => True
  | Some l => l ∈ own ∨ Forall (λ c, Forall (λ l', conflict l l' = false) (locks c)) others
  end.

(** One client makes its next call and has a reply. *)
Inductive advance : list client → list client → Prop :=
  | advance_call before after A h X (e : pgE X) (k : X → prog pgE (outcome A)) x :
      free (before ++ after) (held (tally h)) (wanted e) →
      advance (before ++ Client A h (Call e k) :: after) (before ++ Client A (Event e x :: h) (k x) :: after).

(** A method that begins. *)
Inductive beginning : client → Prop :=
  | beginning_method A (e : Durable.storeE A) p : postgres_method e = Some p → beginning (Client A [] p).

(** Two locks of different kinds with the same number. *)
Definition collision (l l' : lock) : Prop :=
  ∃ s seed s' seed', advisory l = Some (s, seed) ∧ advisory l' = Some (s', seed')
    ∧ hashtextextended s seed = hashtextextended s' seed' ∧ rank l ≠ rank l'.

(** No lock that is asked for collides with one that is held. *)
Definition distinct_kinds (cs : list client) : Prop :=
  ∀ c c' l l', c ∈ cs → c' ∈ cs → asks c = Some l → l' ∈ locks c' → ¬ collision l l'.

(** ** They keep the order *)

Definition in_line (c : client) : Prop :=
  match c with Client _ h rest => ∃ planned, wp (allowed planned) h rest settled end.

Lemma beginning_in_line c : beginning c → in_line c.
Proof using Type. intros [A e p Hp]. exists (for_planned_flight e). exact (method_settled e p Hp). Qed.

Lemma advance_in_line cs cs' : advance cs cs' → Forall in_line cs → Forall in_line cs'.
Proof using Type.
  intros [before after A h X e k x _]. rewrite !Forall_app, !Forall_cons. cbn. intros (? & (planned & _ & Hk) & ?). eauto.
Qed.

Lemma finished_free c : in_line c → finished c → locks c = [].
Proof using Type. destruct c as [A h [r|]]; [|done]. by intros (planned & _ & Hheld & _) _. Qed.

Lemma conflict_rank l l' : conflict l l' = true → ¬ collision l l' → rank l = rank l'.
Proof using Type.
  unfold conflict, collision. intros Hc Hno.
  destruct (advisory l) as [[s seed]|] eqn:H1, (advisory l') as [[s' seed']|] eqn:H2.
  - to_prop. destruct (decide (rank l = rank l')); [done|]. destruct Hno. by do 4 eexists.
  - by destruct l, l'.
  - by destruct l, l'.
  - by destruct l, l'.
Qed.

(** A client that waits asks for a lock after all those it holds. *)
Lemma waits_above c l :
  in_line c → asks c = Some l → l ∉ locks c → Forall (λ l', (rank l' < rank l)%nat) (locks c).
Proof using Type.
  destruct c as [A h [r|X e k]]; [done|]. intros (planned & (_ & Horder & _ & _) & _) Hasks Hnew. cbn in *.
  destruct e as [| | |B [] q]; try done. cbn in *. rewrite Hasks in Horder. by destruct Horder.
Qed.

(** ** Progress *)

Lemma some_reply {X} (e : pgE X) : ∃ x : X, True.
Proof using Type.
  destruct e; [by exists (Ok tt)|by exists (Ok tt)|by exists tt|by exists (Err (plain EmptyString))].
Qed.

Lemma advance_at c cs : c ∈ cs → ¬ finished c →
  (∀ l, asks c = Some l → l ∈ locks c ∨ ∀ c' l', c' ∈ cs → l' ∈ locks c' → conflict l l' = false) →
  ∃ cs', advance cs cs'.
Proof using Type.
  intros (before & after & ->)%list_elem_of_split Hrun Hfree. destruct c as [A h [r|X e k]]; [done|].
  destruct (some_reply e) as [x _]. eexists. apply (advance_call before after A h X e k x).
  unfold free. destruct (wanted e) as [l|] eqn:Hw; [|done].
  destruct (Hfree l Hw) as [Hown|Hothers]; [by left|right].
  apply Forall_forall. intros c' Hc'. apply Forall_forall. intros l' Hl'. eapply Hothers; [|exact Hl'].
  set_solver.
Qed.

(** Whoever waits, waits for a client that wants a later lock. *)
Lemma progress cs n c :
  Forall in_line cs → distinct_kinds cs → c ∈ cs → ¬ finished c →
  (∀ l, asks c = Some l → (8 - n ≤ rank l)%nat) → ∃ cs', advance cs cs'.
Proof using Type.
  intros Hline Hkinds. revert c. induction n as [|n IH]; intros c Hc Hrun Hrank.
  - apply (advance_at c cs Hc Hrun). intros l Hl. specialize (Hrank l Hl).
    assert (rank l < 8)%nat by (destruct l; cbn; lia). lia.
  - destruct (asks c) as [l|] eqn:Hl; [|by apply (advance_at c cs Hc Hrun); rewrite Hl].
    destruct (decide (Exists (λ c', Exists (λ l', conflict l l' = true) (locks c')) cs)) as [Hwait|Hno].
    + apply Exists_exists in Hwait as (c' & Hc' & (l' & Hl' & Hconf)%Exists_exists).
      assert (in_line c') as Hline' by (by eapply Forall_forall in Hline).
      assert (¬ finished c') as Hrun'.
      { intros Hfin. rewrite (finished_free c' Hline' Hfin) in Hl'. by apply elem_of_nil in Hl'. }
      assert (rank l = rank l') as Hsame by (apply conflict_rank; [done|by apply (Hkinds c c')]).
      destruct (asks c') as [l2|] eqn:Hasks; [|by apply (advance_at c' cs Hc' Hrun'); rewrite Hasks].
      destruct (decide (l2 ∈ locks c')) as [Hown|Hnew].
      * apply (advance_at c' cs Hc' Hrun'). intros l3 Hl3. left. by assert (l3 = l2) as -> by congruence.
      * apply (IH c'); [done..|]. intros l3 Hl3. assert (l3 = l2) as -> by congruence.
        pose proof (waits_above c' l2 Hline' Hasks Hnew) as Habove.
        eapply Forall_forall in Habove; [|exact Hl']. specialize (Hrank l eq_refl). lia.
    + apply (advance_at c cs Hc Hrun). intros l2 Hl2. right. intros c' l' Hc' Hl'.
      assert (l2 = l) as -> by congruence. apply not_true_is_false. intros Hconf. apply Hno.
      apply Exists_exists. exists c'. split; [done|]. apply Exists_exists. by exists l'.
Qed.
(** ** No run goes on for ever *)

Lemma free_fewer c others own l : free (c :: others) own l → free others own l.
Proof using Type. unfold free. destruct l; [|done]. rewrite Forall_cons. tauto. Qed.

Definition moves (c c' : client) : Prop :=
  match c with
  | Client A h (Call e k) => ∃ x, c' = Client A (Event e x :: h) (k x)
  | Client _ _ (Ret _) => False
  end.

(** A step of the first client, or of another one. *)
Lemma advance_cons c cs cs' : advance (c :: cs) cs' →
  (∃ c', moves c c' ∧ cs' = c' :: cs) ∨ ∃ cs2, cs' = c :: cs2 ∧ advance cs cs2.
Proof using Type.
  intros Hstep. inversion Hstep as [before after A h X e k x Hfree Heq]. destruct before as [|c0 before].
  - injection Heq as <- <-. left. eexists. split; [by exists x|done].
  - injection Heq as <- <-. right. eexists. split; [done|]. constructor. by eapply free_fewer.
Qed.

Lemma sn_cons A (p : prog pgE (outcome A)) h cs : sn advance cs → sn advance (Client A h p :: cs).
Proof using Type.
  revert h cs. induction p as [r|X e k IH]; intros h cs Hcs.
  - induction Hcs as [cs _ IHcs]. constructor. intros cs' [(c' & [] & _)|(cs2 & -> & Hstep)]%advance_cons.
    by apply IHcs.
  - induction Hcs as [cs Hcs IHcs]. constructor.
    intros cs' [(c' & [x ->] & ->)|(cs2 & -> & Hstep)]%advance_cons; [|by apply IHcs]. apply IH. by constructor.
Qed.

Lemma runs_end cs : sn advance cs.
Proof using Type.
  induction cs as [|[A h p] cs IH]; [|by apply sn_cons].
  constructor. intros cs' Hstep. inversion Hstep as [before after A h X e k x Hfree Heq]. by destruct before.
Qed.

Lemma unfinished_or_done cs : Forall finished cs ∨ ∃ c, c ∈ cs ∧ ¬ finished c.
Proof using Type.
  induction cs as [|c cs [IH|(c' & Hc' & Hrun)]]; [by left| |right; exists c'; split; [by right|done]].
  destruct c as [A h [r|X e k]]; [left; by constructor|right]. eexists. split; [left|]. by intros [].
Qed.

(** C15: Any number of methods of the PostgreSQL store, running at the same time in any interleaving and whatever
    the database answers, finish: no run goes on for ever, and no state is a deadlock: as long as a method has
    not returned, some method can make its next call.  The locks are those that the store asks for, with
    pg_advisory_xact_lock and FOR UPDATE; the hypothesis is that no two locks of different kinds have the same
    number. *)
Theorem postgres_methods_finish cs :
  Forall beginning cs →
  sn advance cs ∧
  ∀ cs', rtc advance cs cs' → distinct_kinds cs' → Forall finished cs' ∨ ∃ cs'', advance cs' cs''.
Proof using Type.
  intros Hbegin. split; [apply runs_end|]. intros cs' Hrun Hkinds.
  assert (Forall in_line cs') as Hline.
  { assert (Forall in_line cs) as Hline by (eapply Forall_impl; [exact Hbegin|apply beginning_in_line]).
    clear Hbegin Hkinds. induction Hrun as [|cs1 cs2 cs3 Hstep _ IH]; [done|].
    apply IH. by eapply advance_in_line. }
  destruct (unfinished_or_done cs') as [?|(c & Hc & Hunfinished)]; [by left|right].
  apply (progress cs' 8 c); [done..|]. intros. lia.
Qed.
End clients.

(** ** An example *)

(** A flight is updated and started at the same time. *)
Definition sample_clients : list client :=
  [Client unit [] (pg_UpdateFlightRecord (JS:=sample_json) sample_flight FlightStatusPlanned);
   Client unit [] (pg_StartFlightWithCurrentMissionDeployment (JS:=sample_json) sample_flight FlightStatusPlanned)].

Lemma sample_clients_begin :
  Forall (beginning (RT:=reference_runtime) (JS:=sample_json)) sample_clients.
Proof.
  constructor; [|constructor; [|constructor]].
  - by apply (beginning_method (RT:=reference_runtime) (JS:=sample_json) unit
      (Durable.UpdateFlightRecord sample_flight FlightStatusPlanned)).
  - by apply (beginning_method (RT:=reference_runtime) (JS:=sample_json) unit
      (Durable.StartFlightWithCurrentMissionDeployment sample_flight FlightStatusPlanned)).
Qed.

(** With a numbering that tells the seeds apart, they begin without a collision. *)
Lemma postgres_methods_finish_witness :
  let number := λ text seed, seed in
  distinct_kinds number sample_clients
  ∧ sn (advance number) sample_clients
  ∧ ∃ cs, advance number sample_clients cs.
Proof.
  assert (distinct_kinds (λ text seed, seed) sample_clients) as Hkinds.
  { intros c c' l l' Hc Hc' Hasks. unfold sample_clients in Hc. rewrite !elem_of_cons, elem_of_nil in Hc.
    destruct Hc as [->|[->|[]]]; discriminate. }
  split; [exact Hkinds|].
  destruct (postgres_methods_finish (RT:=reference_runtime) (JS:=sample_json) (λ text seed, seed) sample_clients
    sample_clients_begin) as [Hends Hgoes].
  split; [exact Hends|]. destruct (Hgoes sample_clients (rtc_refl _ _) Hkinds) as [Hdone|Hstep]; [|exact Hstep].
  exfalso. inversion Hdone as [|c cs Hfirst _]. exact Hfirst.
Defined.
