(* ===== verification/Influx.v ===== *)
(** * The telemetry store over InfluxDB

    src/internal/store/telemetry/influxdb/store.go: the queries that it asks, and
    how the rows of an answer are decoded.  The client of the database is the
    interface [queryRunner]: a query with its parameters is an external call
    that answers rows of named values. *)

From S2P Require Import Prelude GoRuntime GoStrings GoFloat GoJson GoStrconv GoRange Domain LiveDomain Errors GoTime TelemetryStores Program DurableStore ProgramLogic.
From stdpp Require Import options.

(** The value of an outcome, or the error passed on. *)
#[local] Notation "'ok!' x := p 'in' q" := (match p with Err err => Err err | Ok x => q end)
  (at level 10, x name, p at level 100, q at level 200).

Definition tableName : string := "aircraft_telemetry".
Definition messageName : string := "global_position_int".
Definition messageBatteryStatus : string := "battery_status".
Definition messageHeartbeat : string := "heartbeat".
Definition messageSystemStatus : string := "sys_status".
Definition messageVFRHUD : string := "vfr_hud".
Definition messageExtendedSystemState : string := "extended_sys_state".
Definition messageGPSRaw : string := "gps_raw_int".
Definition defaultLatestLookback : Duration := 5 * Minute.

(** ** Rows *)

(** A value of type [any]; [Other] has a type that no decoder knows, named as
    [%T] does. *)
Inductive value : Set :=
  | Nil
  | Float64 (x : float64)
  | Float32 (x : float32)
  | Int64 (z : Z)
  | Int32 (z : Z)
  | Int (z : Z)
  | Uint64 (z : Z)
  | Uint32 (z : Z)
  | Text (s : string)
  | Instant (t : Time)
  | Other (type : string).

(** [map[string]any]; reading a missing key gives nil. *)
Definition row : Set := gmap string value.
Definition column (r : row) (key : string) : value := default Nil (r !! key).

Definition type_name (v : value) : string :=
  match v with
  | Nil => "<nil>" | Float64 _ => "float64" | Float32 _ => "float32" | Int64 _ => "int64" | Int32 _ => "int32"
  | Int _ => "int" | Uint64 _ => "uint64" | Uint32 _ => "uint32" | Text _ => "string" | Instant _ => "time.Time"
  | Other type => type
  end.

(** ** Values *)

Definition numericFloat (v : value) : option float64 :=
  match v with
  | Float64 x => Some x
  | Float32 x => Some (to_float64 x)
  | Int64 z | Int32 z | Int z | Uint64 z | Uint32 z => Some (float_of_Z z)
  | _ => None
  end.

Definition finite (x : float64) : bool := negb (f_is_nan x || f_is_inf x).

Definition requiredFloat (r : row) (key : string) : outcome float64 :=
  match column r key with
  | Nil => Err (plain ("decode influxdb telemetry: missing " +:+ key))
  | v =>
      match numericFloat v with
      | Some f => if finite f then Ok f else Err (plain ("decode influxdb telemetry: invalid " +:+ key))
      | None => Err (plain ("decode influxdb telemetry: invalid " +:+ key))
      end
  end.

Definition optionalFloat (r : row) (key : string) : option float64 :=
  match numericFloat (column r key) with
  | Some f => if finite f then Some f else None
  | None => None
  end.

Definition optionalUint (r : row) (key : string) : option Z :=
  match column r key with
  | Uint64 z | Uint32 z => Some z
  | Int64 z | Int32 z | Int z => if z <? 0 then None else Some z
  | _ => None
  end.

Definition requiredUint (r : row) (key : string) : outcome Z :=
  match optionalUint r key with
  | Some z => Ok z
  | None => Err (plain ("decode influxdb telemetry: missing or invalid " +:+ key))
  end.

Definition optionalInt64 (r : row) (key : string) : option Z :=
  match column r key with
  | Int64 z | Int32 z | Int z | Uint32 z => Some z
  | Uint64 z => if 2 ^ 63 - 1 <? z then None else Some z
  | _ => None
  end.

Definition stringValue (v : value) : string := match v with Text s => s | _ => "" end.
Definition floatValue (v : value) : float64 := default float_zero (numericFloat v).

(** [int(x)]: towards zero; a value that does not fit is the least integer on the
    platforms the service runs on. *)
Definition int_of_float (x : float64) : Z :=
  if finite x && (- 2 ^ 63 <=? truncate x) && (truncate x <? 2 ^ 63) then truncate x else - 2 ^ 63.

(** The result of [strconv.Atoi] when its error is not looked at: 0 for what is
    not a numeral, and the nearest integer for one that does not fit. *)
Definition Atoi_value (text : string) : Z :=
  let '(negative, s) := numeral_sign (String.list_ascii_of_string text) in
  let '(n, count, rest) := digits 0 0 s in
  match rest with
  | _ :: _ => 0
  | [] => if count =? 0 then 0 else Z.max (- 2 ^ 63) (Z.min (2 ^ 63 - 1) (if negative then - n else n))
  end.

Definition intValue (v : value) : Z :=
  match v with Text s => Atoi_value s | _ => int_of_float (floatValue v) end.

Example values_ex :
  map intValue [Text "12"; Text "-99999999999999999999"; Text "1x"; Int64 7; Float64 (f_neg (float_of_decimal 29 (-1))); Nil]
  = [12; - 2 ^ 63; 0; 7; -2; 0].
Proof. vm_compute. reflexivity. Qed.

(** ** Observations *)

Definition invalid_time (r : row) : error :=
  plain ("decode influxdb telemetry: time has type " +:+ type_name (column r "time")).

Definition sampleFromRow (r : row) : outcome TelemetrySample :=
  match column r "time" with
  | Instant recordedAt =>
      ok! latitude := requiredFloat r "latitude_deg" in
      ok! longitude := requiredFloat r "longitude_deg" in
      Ok (mkTelemetrySample (stringValue (column r "frame_id")) (stringValue (column r "operator_id"))
            (stringValue (column r "aircraft_id")) (stringValue (column r "intent_id")) (intValue (column r "intent_version"))
            (stringValue (column r "flight_id")) recordedAt latitude longitude (floatValue (column r "altitude_msl_m"))
            (floatValue (column r "groundspeed_mps")) (floatValue (column r "heading_deg")) None)
  | _ => Err (invalid_time r)
  end.

Definition observationFromRow (r : row) : outcome TelemetryObservation :=
  match column r "time" with
  | Instant recordedAt =>
      Ok (zero_TelemetryObservation
        <| Observation_RecordedAt := recordedAt |>
        <| Observation_FrameID := stringValue (column r "frame_id") |>
        <| Observation_RelayID := stringValue (column r "relay_id") |>
        <| Observation_SessionID := stringValue (column r "session_id") |>
        <| Observation_TimestampSource := stringValue (column r "timestamp_source") |>
        <| Observation_OperatorID := stringValue (column r "operator_id") |>
        <| Observation_IntentID := stringValue (column r "intent_id") |>
        <| Observation_IntentVersion := intValue (column r "intent_version") |>
        <| Observation_FlightID := stringValue (column r "flight_id") |>)
  | _ => Err (invalid_time r)
  end.

Definition decodePosition (r : row) : outcome PositionTelemetry :=
  ok! observation := observationFromRow r in
  ok! latitude := requiredFloat r "latitude_deg" in
  ok! longitude := requiredFloat r "longitude_deg" in
  Ok (mkPositionTelemetry observation latitude longitude (optionalFloat r "altitude_msl_m")
        (optionalFloat r "relative_altitude_m") (optionalFloat r "velocity_north_mps")
        (optionalFloat r "velocity_east_mps") (optionalFloat r "velocity_down_mps")
        (optionalFloat r "groundspeed_mps") (optionalFloat r "heading_deg")).

Definition decodeBattery (r : row) : outcome BatteryTelemetry :=
  ok! observation := observationFromRow r in
  ok! batteryID := requiredUint r "battery_id" in
  Ok (mkBatteryTelemetry observation batteryID (stringValue (column r "battery_function"))
        (stringValue (column r "battery_type")) (stringValue (column r "battery_charge_state"))
        (stringValue (column r "battery_mode")) (optionalFloat r "battery_temperature_c")
        (optionalFloat r "battery_voltage_v") (optionalFloat r "battery_current_a")
        (optionalInt64 r "battery_consumed_mah") (optionalFloat r "battery_consumed_wh")
        (optionalFloat r "battery_remaining_pct") (optionalInt64 r "battery_time_remaining_s")).

Definition decodeVehicle (r : row) : outcome VehicleTelemetry :=
  ok! observation := observationFromRow r in
  Ok (mkVehicleTelemetry observation (stringValue (column r "vehicle_type"))
        (stringValue (column r "autopilot_type")) (stringValue (column r "base_mode"))
        (optionalUint r "custom_mode") (stringValue (column r "system_status"))
        (optionalUint r "mavlink_version")).

Definition decodeSystem (r : row) : outcome SystemTelemetry :=
  ok! observation := observationFromRow r in
  Ok (mkSystemTelemetry observation (optionalFloat r "mainloop_load_pct")
        (optionalFloat r "communication_drop_rate_pct") (optionalUint r "communication_error_count")
        (optionalUint r "autopilot_error_count_1") (optionalUint r "autopilot_error_count_2")
        (optionalUint r "autopilot_error_count_3") (optionalUint r "autopilot_error_count_4")
        (stringValue (column r "sensors_present")) (stringValue (column r "sensors_enabled"))
        (stringValue (column r "sensors_health")) (stringValue (column r "sensors_present_extended"))
        (stringValue (column r "sensors_enabled_extended")) (stringValue (column r "sensors_health_extended"))).

Definition decodeHUD (r : row) : outcome HUDTelemetry :=
  ok! observation := observationFromRow r in
  Ok (mkHUDTelemetry observation (optionalFloat r "airspeed_mps") (optionalFloat r "groundspeed_mps")
        (optionalFloat r "heading_deg") (optionalFloat r "throttle_pct") (optionalFloat r "altitude_msl_m")
        (optionalFloat r "climb_rate_mps")).

Definition decodeExtendedState (r : row) : outcome ExtendedStateTelemetry :=
  ok! observation := observationFromRow r in
  Ok (mkExtendedStateTelemetry observation (stringValue (column r "vtol_state"))
        (stringValue (column r "landed_state"))).

Definition decodeGPS (r : row) : outcome GPSTelemetry :=
  ok! observation := observationFromRow r in
  Ok (mkGPSTelemetry observation (stringValue (column r "gps_fix_type")) (optionalFloat r "gps_latitude_deg")
        (optionalFloat r "gps_longitude_deg") (optionalFloat r "gps_altitude_msl_m")
        (optionalFloat r "gps_altitude_ellipsoid_m") (optionalFloat r "gps_hdop") (optionalFloat r "gps_vdop")
        (optionalFloat r "gps_groundspeed_mps") (optionalFloat r "gps_course_over_ground_deg")
        (optionalUint r "gps_satellites_visible") (optionalFloat r "gps_horizontal_accuracy_m")
        (optionalFloat r "gps_vertical_accuracy_m") (optionalFloat r "gps_speed_accuracy_mps")
        (optionalFloat r "gps_heading_accuracy_deg") (optionalFloat r "gps_yaw_deg")).

(** ** Queries *)

(** A query and its parameters, to the database; and closing the client. *)
Inductive influxE : Type → Type :=
  | RunQuery (query : string) (params : gmap string string) : influxE (outcome (list row)).

Section store.
Abbreviation program := (prog (apiE influxE)).

Inductive sampleWindow : Set := earliestWindow | latestWindow.

Record sampleWindowPolicy : Set := mkSampleWindowPolicy { sqlOrder : string; reverseResult : bool }.

Definition policy (w : sampleWindow) : sampleWindowPolicy :=
  match w with
  | earliestWindow => mkSampleWindowPolicy "ASC" false
  | latestWindow => mkSampleWindowPolicy "DESC" true
  end.

Definition sample_query (predicate sqlOrder : string) (limit : Z) : string :=
  "SELECT * FROM " +:+ quote tableName +:+ " WHERE message_name = $message_name AND " +:+ predicate
    +:+ " ORDER BY time " +:+ sqlOrder +:+ " LIMIT " +:+ Itoa limit.

Definition querySampleRows (predicate : string) (params : gmap string string) (limit : Z) (sqlOrder : string)
    : program (outcome (list row)) :=
  let limit := effective_limit limit in
  try! rows := external (RunQuery (sample_query predicate sqlOrder limit) (<["message_name" := messageName]> params))
    orelse wrap "query influxdb telemetry" in
  Ret (Ok rows).

Fixpoint samples_of_rows (rows : list row) : outcome (list TelemetrySample) :=
  match rows with
  | [] => Ok []
  | r :: rows =>
      ok! sample := sampleFromRow r in
      ok! samples := samples_of_rows rows in
      Ok (sample :: samples)
  end.

Definition samplesChronological (predicate : string) (params : gmap string string) (limit : Z) (window : sampleWindow)
    : program (outcome (list TelemetrySample)) :=
  let policy := policy window in
  try! rows := querySampleRows predicate params limit (sqlOrder policy) orelse id in
  Ret (match samples_of_rows rows with
       | Err err => Err err
       | Ok samples => Ok (if reverseResult policy then rev samples else samples)
       end).

Definition by_aircraft : string := "aircraft_id = $aircraft_id".
Definition by_flight : string := "flight_id = $flight_id".

Definition influx_GetLatestSample (aircraftID : string) : program (outcome (option TelemetrySample)) :=
  try! samples := samplesChronological by_aircraft {["aircraft_id" := aircraftID]} 1 latestWindow orelse id in
  Ret (Ok (head samples)).

Definition influx_QueryAircraftSamples (aircraftID : string) (limit : Z) : program (outcome (list TelemetrySample)) :=
  samplesChronological by_aircraft {["aircraft_id" := aircraftID]} limit latestWindow.

(** *** Missing columns *)

(** [strings.ToLower] of a text, as far as letters of ASCII come out: two letters
    outside of ASCII have one of it as their small letter. *)
Fixpoint lower_text (s : bytes) : bytes :=
  match s with
  | a :: ((b :: ((c :: rest) as s2)) as s1) =>
      if is_char 226 a && is_char 132 b && is_char 170 c then Ascii.ascii_of_N 107 :: lower_text rest
      else if is_char 196 a && is_char 176 b then Ascii.ascii_of_N 105 :: lower_text s2
      else lower_byte a :: lower_text s1
  | [a; b] => if is_char 196 a && is_char 176 b then [Ascii.ascii_of_N 105] else [lower_byte a; lower_byte b]
  | [a] => [lower_byte a]
  | [] => []
  end.

Fixpoint starts_with (s prefix : bytes) : bool :=
  match prefix, s with
  | [], _ => true
  | p :: prefix, c :: s => Ascii.eqb p c && starts_with s prefix
  | _, [] => false
  end.

Fixpoint has_text (s part : bytes) : bool :=
  starts_with s part || match s with [] => false | _ :: s => has_text s part end.

Definition isMissingColumn (err : error) (name : string) : bool :=
  let message := lower_text (String.list_ascii_of_string (Error err)) in
  let contains part := has_text message (String.list_ascii_of_string part) in
  contains (ToLower name) && (contains "not found" || contains "no field" || contains "unknown column").

Definition influx_QueryFlightSamples (flightID : string) (limit : Z) : program (outcome (list TelemetrySample)) :=
  let! result := samplesChronological by_flight {["flight_id" := flightID]} limit earliestWindow in
  Ret (match result with
       | Err err => if isMissingColumn err "flight_id" then Ok [] else Err err
       | Ok samples => Ok samples
       end).

(** *** Latest states *)

(** The names [prefix0], [prefix1] and so on with their values, the first number
    being [i]. *)
Fixpoint numbered (prefix : string) (i : Z) (values : list string) : list (string * string) :=
  match values with
  | [] => []
  | v :: values => (prefix +:+ Itoa i, v) :: numbered prefix (i + 1) values
  end.

Definition messages : list string :=
  [messageName; messageBatteryStatus; messageHeartbeat; messageSystemStatus; messageVFRHUD; messageExtendedSystemState;
   messageGPSRaw].

Definition bindings (names : list (string * string)) : string :=
  String.concat ", " (map (λ '(name, _), "$" +:+ name) names).

Definition line_break : string := String newline EmptyString.

Definition latest_query (aircraft messages : list (string * string)) : string :=
  "SELECT * FROM (" +:+ line_break
    +:+ "SELECT *, ROW_NUMBER() OVER (PARTITION BY aircraft_id, message_name ORDER BY time DESC) AS latest_rank" +:+ line_break
    +:+ "FROM " +:+ quote tableName +:+ line_break
    +:+ "WHERE time >= $latest_after AND message_name IN (" +:+ bindings messages +:+ ") AND aircraft_id IN ("
    +:+ bindings aircraft +:+ ")" +:+ line_break
    +:+ ") AS latest WHERE latest_rank = 1".

Definition latest_params (after : string) (aircraft messages : list (string * string)) : gmap string string :=
  foldl (λ params '(name, v), <[name := v]> params) {["latest_after" := after]} (aircraft ++ messages).

Context (latestLookback : Duration).

Definition queryLatestRowsByAircraft (aircraftIDs : list string) : program (outcome (list row)) :=
  let! t := now in
  let aircraft := numbered "aircraft_id_" 0 aircraftIDs in
  let messages := numbered "message_name_" 0 messages in
  let after := Format_RFC3339Nano (TimeAdd (UTC t) (- latestLookback)) in
  try! rows := external (RunQuery (latest_query aircraft messages) (latest_params after aircraft messages))
    orelse wrap "query latest aircraft telemetry" in
  Ret (Ok rows).

(** The aircraft asked for, each once in the order of the first mention, and
    their states. *)
Definition note_aircraft (acc : gmap string AircraftTelemetryState * list string) (aircraftID : string)
    : gmap string AircraftTelemetryState * list string :=
  let '(states, unique) := acc in
  if TrimSpace aircraftID =s= "" then acc
  else match states !! aircraftID with
       | Some _ => acc
       | None => (<[aircraftID := zero_AircraftTelemetryState]> states, unique ++ [aircraftID])
       end.

(** The state with what the row tells; a row that cannot be decoded, or of
    another message, changes nothing. *)
Definition decoded (r : row) (state : AircraftTelemetryState) : AircraftTelemetryState :=
  let message := stringValue (column r "message_name") in
  let assign {A} (decode : row → outcome A) (f : A → AircraftTelemetryState) :=
    match decode r with Ok v => f v | Err _ => state end in
  if message =s= messageName then assign decodePosition (λ v, state <| TelemetryState_Position := Some v |>)
  else if message =s= messageBatteryStatus then assign decodeBattery (λ v, state <| TelemetryState_Battery := Some v |>)
  else if message =s= messageHeartbeat then assign decodeVehicle (λ v, state <| TelemetryState_Vehicle := Some v |>)
  else if message =s= messageSystemStatus then assign decodeSystem (λ v, state <| TelemetryState_System := Some v |>)
  else if message =s= messageVFRHUD then assign decodeHUD (λ v, state <| TelemetryState_HUD := Some v |>)
  else if message =s= messageExtendedSystemState
  then assign decodeExtendedState (λ v, state <| TelemetryState_ExtendedState := Some v |>)
  else if message =s= messageGPSRaw then assign decodeGPS (λ v, state <| TelemetryState_GPS := Some v |>)
  else state.

Definition note_row (states : gmap string AircraftTelemetryState) (r : row) : gmap string AircraftTelemetryState :=
  let aircraftID := stringValue (column r "aircraft_id") in
  match states !! aircraftID with
  | None => states
  | Some state => <[aircraftID := decoded r state]> states
  end.

Definition influx_GetLatestAircraftStates (aircraftIDs : list string)
    : program (outcome (gmap string AircraftTelemetryState)) :=
  let '(states, unique) := foldl note_aircraft (∅, []) aircraftIDs in
  match unique with
  | [] => Ret (Ok states)
  | _ =>
      let! result := queryLatestRowsByAircraft unique in
      Ret (match result with
           | Err err => if isMissingColumn err "aircraft_id" then Ok states else Err err
           | Ok rows => Ok (foldl note_row states rows)
           end)
  end.

(** A store over a client that can be made. *)
Definition New_influx (client : outcome unit) (latestLookback : Duration) : outcome Duration :=
  if latestLookback <=? 0 then Err (plain "latest telemetry lookback must be > 0")
  else match client with Err err => Err (wrap "create influxdb client" err) | Ok _ => Ok latestLookback end.
End store.

Example missing_ex :
  isMissingColumn (plain "Schema error: No field named AIRCRAFT_ID") "aircraft_id" = true
  ∧ isMissingColumn (plain "column flight_id not found") "aircraft_id" = false.
Proof. vm_compute. done. Qed.

(** * What the telemetry store over InfluxDB returns

    The query that each method asks, and what comes of an answer: when the
    database orders and limits rows as it is told, the samples are the same part
    of all of them as the in-memory store returns; and every part of a state is
    decoded from the rows of its own aircraft and message, whatever the others
    are. *)

Abbreviation history := (list (event (apiE influxE))).
Abbreviation answered query params r := (Event (OfExternal (RunQuery query params) : apiE influxE _) r).

(** ** Samples *)

(** The order of a query. *)
Definition earlier (ascending : bool) (a b : TelemetrySample) : Prop :=
  if ascending then Sample_RecordedAt a ≤ Sample_RecordedAt b else Sample_RecordedAt b ≤ Sample_RecordedAt a.

(** The columns of a text and of a number, which a row may lack; *)
Definition text_in (r : row) (key text : string) : Prop :=
  r !! key = Some (Text text) ∨ r !! key = None ∧ text = "".

Definition number_in (r : row) (key : string) (x : float64) : Prop :=
  r !! key = Some (Float64 x) ∨ r !! key = None ∧ x = float_zero.

(** of the version of an intent, as a number or as the text of a tag; *)
Definition version_in (r : row) (key : string) (n : Z) : Prop :=
  (∃ v, r !! key = Some v ∧ (v = Int64 n ∨ v = Uint64 n) ∧ 0 ≤ n < 2 ^ 53)
  ∨ r !! key = Some (Text (Itoa n)) ∧ 0 ≤ n < 2 ^ 63
  ∨ r !! key = None ∧ n = 0.

(** and of a coordinate, which it has. *)
Definition coordinate_in (r : row) (key : string) (x : float64) : Prop :=
  r !! key = Some (Float64 x) ∧ f_is_nan x = false ∧ f_is_inf x = false.

(** The row of a sample, column by column. *)
Record row_holds (r : row) (s : TelemetrySample) : Prop := {
  holds_time : r !! "time" = Some (Instant (Sample_RecordedAt s));
  holds_latitude : coordinate_in r "latitude_deg" (Sample_Latitude s);
  holds_longitude : coordinate_in r "longitude_deg" (Sample_Longitude s);
  holds_frame : text_in r "frame_id" (Sample_ID s);
  holds_operator : text_in r "operator_id" (Sample_OperatorID s);
  holds_aircraft : text_in r "aircraft_id" (Sample_AircraftID s);
  holds_intent : text_in r "intent_id" (Sample_IntentID s);
  holds_version : version_in r "intent_version" (Sample_IntentVersion s);
  holds_flight : text_in r "flight_id" (Sample_FlightID s);
  holds_altitude : number_in r "altitude_msl_m" (Sample_AltitudeM s);
  holds_speed : number_in r "groundspeed_mps" (Sample_VelocityMPS s);
  holds_heading : number_in r "heading_deg" (Sample_HeadingDeg s);
  holds_no_battery : Sample_BatteryPct s = None;
}.

Lemma text_read r key text : text_in r key text → stringValue (column r key) = text.
Proof. unfold column. by intros [->|[-> ->]]. Qed.

Lemma number_read r key x : number_in r key x → floatValue (column r key) = x.
Proof. unfold column. by intros [->|[-> ->]]. Qed.

Lemma coordinate_read r key x : coordinate_in r key x → requiredFloat r key = Ok x.
Proof.
  intros (Hx & Hnan & Hinf). unfold requiredFloat, column. rewrite Hx. cbn [default id numericFloat]. unfold finite.
  by rewrite Hnan, Hinf.
Qed.

Lemma int_of_float_exact n : 0 ≤ n < 2 ^ 53 → int_of_float (float_of_Z n) = n.
Proof.
  intros Hn. destruct (float_of_Z_exact n Hn) as (Hn' & Hnan & Hinf). unfold int_of_float, finite.
  rewrite Hnan, Hinf, Hn'. change (2 ^ 53) with 9007199254740992 in Hn. change (2 ^ 63) with 9223372036854775808.
  by rewrite (proj2 (Z.leb_le _ _)), (proj2 (Z.ltb_lt _ _)) by lia.
Qed.

Lemma Atoi_value_spec text n : Atoi text = Some n → Atoi_value text = n.
Proof.
  unfold Atoi, Atoi_value. destruct (numeral_sign _) as [negative s], (digits 0 0 s) as [[z count] [|c rest]]; [|done].
  destruct (count =? 0); [done|]. change (2 ^ 63) with 9223372036854775808.
  destruct (_ && _) eqn:Hrange; [|done]. intros [= <-]. destruct negative; lia.
Qed.

Lemma version_read r key n : version_in r key n → intValue (column r key) = n.
Proof.
  unfold column. intros [(v & -> & Hv & Hn)|[[-> Hn]|[-> ->]]]; [|by apply Atoi_value_spec, Atoi_Itoa|done].
  destruct Hv as [->| ->]; by apply int_of_float_exact.
Qed.

Lemma sample_read r s : row_holds r s → sampleFromRow r = Ok s.
Proof.
  intros []. unfold sampleFromRow. rewrite (coordinate_read _ _ _ holds_latitude0), (coordinate_read _ _ _ holds_longitude0).
  unfold column at 1. rewrite holds_time0. cbn [default id].
  erewrite !text_read, !number_read, version_read by eassumption. destruct s; cbn in *. by subst.
Qed.

Lemma samples_read rows chosen : Forall2 row_holds rows chosen → samples_of_rows rows = Ok chosen.
Proof. induction 1 as [|r s rows chosen Hr _ IH]; [done|]. cbn [samples_of_rows]. by rewrite (sample_read r s Hr), IH. Qed.

(** What ORDER BY and LIMIT select of the samples [own]: the rows are those of
    the first [limit] of them in the order. *)
Definition selected (own : list TelemetrySample) (ascending : bool) (limit : Z) (rows : list row) : Prop :=
  ∃ chosen rest, Forall2 row_holds rows chosen ∧ chosen ++ rest ≡ₚ own
    ∧ Z.of_nat (length chosen) = Z.min limit (Z.of_nat (length own))
    ∧ StronglySorted (earlier ascending) chosen
    ∧ ∀ a b, a ∈ chosen → b ∈ rest → earlier ascending a b.

(** Two positions of an aircraft, of which a query for one selects the later. *)
Definition position_row (t : Time) : row :=
  {["time" := Instant t; "latitude_deg" := Float64 float_zero; "longitude_deg" := Float64 float_zero;
    "aircraft_id" := Text "drone"; "intent_version" := Int64 3]}.

Definition position_sample (t : Time) : TelemetrySample :=
  mkTelemetrySample "" "" "drone" "" 3 "" t float_zero float_zero float_zero float_zero float_zero None.

Lemma position_row_holds t : row_holds (position_row t) (position_sample t).
Proof.
  split; unfold coordinate_in, text_in, number_in, version_in; try solve [repeat split; auto].
  left. exists (Int64 3). by split_and!; [|left| |].
Qed.

Example selected_ex :
  selected [position_sample 1; position_sample 2] false 1 [position_row 2].
Proof.
  exists [position_sample 2], [position_sample 1]. split_and!; [|by apply perm_swap|done|repeat constructor|].
  - constructor; [apply position_row_holds|constructor].
  - by intros a b ->%list_elem_of_singleton ->%list_elem_of_singleton.
Qed.

Lemma elem_of_rev {A} (x : A) l : x ∈ rev l → x ∈ l.
Proof. by rewrite !list_elem_of_In, <- in_rev. Qed.

Lemma in_order_rev l : StronglySorted (earlier false) l → StronglySorted (earlier true) (rev l).
Proof.
  induction 1 as [|a l Hl IH Ha]; [constructor|]. cbn [rev]. apply StronglySorted_app. rewrite Forall_forall in Ha.
  split_and!; [|done|repeat constructor]. intros x y Hx%elem_of_rev ->%list_elem_of_singleton. exact (Ha x Hx).
Qed.

Lemma rev_perm {A} (l : list A) : rev l ≡ₚ l.
Proof. by rewrite <- Permutation_rev. Qed.

(** The latest of the samples, in the order they were recorded, *)
Lemma selected_latest own limit rows : selected own false limit rows →
  ∃ result older, samples_of_rows rows = Ok (rev result) ∧ window own older result []
    ∧ Z.of_nat (length result) = Z.min limit (Z.of_nat (length own)).
Proof.
  intros (chosen & rest & Hrows%samples_read & Hperm & Hlength & Hsorted & Hrest). exists (rev chosen), rest.
  rewrite rev_involutive, length_rev. split_and!; try done. unfold window. split_and!.
  - by rewrite app_nil_r, rev_perm, Permutation_app_comm.
  - by apply in_order_rev.
  - intros a b Ha Hb%elem_of_rev. exact (Hrest b a Hb Ha).
  - intros a b _ Hb. by apply elem_of_nil in Hb.
Qed.

(** and the first ones. *)
Lemma selected_first own limit rows : selected own true limit rows →
  ∃ result newer, samples_of_rows rows = Ok result ∧ window own [] result newer
    ∧ Z.of_nat (length result) = Z.min limit (Z.of_nat (length own)).
Proof.
  intros (chosen & rest & Hrows%samples_read & Hperm & Hlength & Hsorted & Hrest). exists chosen, rest.
  split_and!; try done. unfold window. split_and!; try done. intros a b Ha. by apply elem_of_nil in Ha.
Qed.

(** The limit: the one given, or 1000. *)
Definition most (limit : Z) : Z := if limit <=? 0 then 1000 else limit.

Definition table : string := double_quote +:+ "aircraft_telemetry" +:+ double_quote.

(** The latest positions of an aircraft, and the first ones of a flight. *)
Definition aircraft_query (id : string) (limit : Z) : influxE (outcome (list row)) :=
  RunQuery ("SELECT * FROM " +:+ table +:+ " WHERE message_name = $message_name AND aircraft_id = $aircraft_id"
      +:+ " ORDER BY time DESC LIMIT " +:+ Itoa (most limit))
    {["message_name" := "global_position_int"; "aircraft_id" := id]}.

Definition flight_query (id : string) (limit : Z) : influxE (outcome (list row)) :=
  RunQuery ("SELECT * FROM " +:+ table +:+ " WHERE message_name = $message_name AND flight_id = $flight_id"
      +:+ " ORDER BY time ASC LIMIT " +:+ Itoa (most limit))
    {["message_name" := "global_position_int"; "flight_id" := id]}.

(** A text has a part; *)
Definition mentions (text : bytes) (part : string) : Prop :=
  ∃ before after, text = before ++ String.list_ascii_of_string part ++ after.

(** and an error says that the database has no column of flights. *)
Definition no_flights_yet (err : error) : Prop :=
  let text := lower_text (String.list_ascii_of_string (Error err)) in
  mentions text "flight_id"
  ∧ (mentions text "not found" ∨ mentions text "no field" ∨ mentions text "unknown column").

Lemma starts_with_spec s prefix : starts_with s prefix = true ↔ ∃ after, s = prefix ++ after.
Proof.
  revert s. induction prefix as [|p prefix IH]; intros s; cbn; [by destruct s; split; eauto|]. destruct s as [|c s]; cbn.
  { by split; [|intros [after H]]. }
  rewrite andb_true_iff, Ascii.eqb_eq, IH. naive_solver.
Qed.

Lemma has_text_spec text part : has_text text (String.list_ascii_of_string part) = true ↔ mentions text part.
Proof.
  unfold mentions. set (p := String.list_ascii_of_string part). clearbody p.
  induction text as [|c text IH]; cbn [has_text]; rewrite orb_true_iff, starts_with_spec.
  - split; [intros [[after ->]|?]; [by exists [], after|done]|]. intros ([|] & after & H); [eauto|done].
  - rewrite IH. split.
    + intros [[after ->]|(before & after & ->)]; [by exists [], after|by exists (c :: before), after].
    + intros ([|c' before] & after & H); [eauto|]. cbn in H. injection H as -> ->. eauto.
Qed.

Lemma missing_flights err : isMissingColumn err "flight_id" = true ↔ no_flights_yet err.
Proof.
  unfold isMissingColumn, no_flights_yet. change (ToLower "flight_id") with "flight_id".
  rewrite !andb_true_iff, !orb_true_iff, !has_text_spec. tauto.
Qed.

(** The one call of a program, and what its reply makes of it. *)
Definition asks {A} (p : prog (apiE influxE) A) (e : influxE (outcome (list row))) (Q : outcome (list row) → A → Prop) : Prop :=
  ∃ k, p = Call (OfExternal e) k ∧ ∀ r, ∃ a, k r = Ret a ∧ Q r a.

(** C37: both stores of telemetry return the same part of the samples.  The
    method for the samples of an aircraft asks one query, for the latest
    positions of it; that for a flight asks one for the first ones; of at most
    the limit that is given, or 1000 when there is none.  When the database
    answers the rows of as many samples as there are, at most the limit, first
    in the order of the query, the result is those samples, every column in its
    field, in the order they were recorded, and what is left out is older than
    everything in the result, or newer.  That is what the in-memory store returns
    (query_returns_window).  And every error of the database is passed on, but
    one to the query of a flight that says that the column of flights is not
    found, no field or unknown: then there are no samples. *)
Theorem influx_query_window id limit :
  asks (influx_QueryAircraftSamples id limit) (aircraft_query id limit) (λ reply result,
    match reply with
    | Err err => result = Err (wrap "query influxdb telemetry" err)
    | Ok rows => ∀ own, selected own false (most limit) rows →
        ∃ samples older, result = Ok samples ∧ window own older samples []
          ∧ Z.of_nat (length samples) = Z.min (most limit) (Z.of_nat (length own))
    end)
  ∧ asks (influx_QueryFlightSamples id limit) (flight_query id limit) (λ reply result,
    match reply with
    | Err err =>
        let err := wrap "query influxdb telemetry" err in
        no_flights_yet err ∧ result = Ok [] ∨ ¬ no_flights_yet err ∧ result = Err err
    | Ok rows => ∀ own, selected own true (most limit) rows →
        ∃ samples newer, result = Ok samples ∧ window own [] samples newer
          ∧ Z.of_nat (length samples) = Z.min (most limit) (Z.of_nat (length own))
    end).
Proof.
  split; (eexists; split; [reflexivity|]); intros [rows|err]; (eexists; split; [reflexivity|]); try done.
  - intros own (result & older & Hrows & Hwindow & Hlength)%selected_latest. rewrite Hrows. cbn [policy reverseResult].
    rewrite rev_involutive. eauto.
  - intros own (result & newer & Hrows & Hwindow & Hlength)%selected_first. rewrite Hrows. cbn [policy reverseResult].
    eauto.
  - cbv zeta. rewrite <- missing_flights. destruct (isMissingColumn _ _); auto.
Qed.

(** ** States *)

Definition value_of {A} (o : outcome A) : option A := match o with Ok a => Some a | Err _ => None end.

(** The last row of an aircraft and a message that can be decoded. *)
Definition group_row {A} (message : string) (decode : row → outcome A) (id : string) (r : row) : option A :=
  if (stringValue (column r "aircraft_id") =s= id) && (stringValue (column r "message_name") =s= message)
  then value_of (decode r) else None.

Definition group {A} (message : string) (decode : row → outcome A) (id : string) (rows : list row) : option A :=
  last (omap (group_row message decode id) rows).

Definition state_of_rows (id : string) (rows : list row) : AircraftTelemetryState :=
  zero_AircraftTelemetryState
    <| TelemetryState_Position := group messageName decodePosition id rows |>
    <| TelemetryState_Battery := group messageBatteryStatus decodeBattery id rows |>
    <| TelemetryState_Vehicle := group messageHeartbeat decodeVehicle id rows |>
    <| TelemetryState_System := group messageSystemStatus decodeSystem id rows |>
    <| TelemetryState_HUD := group messageVFRHUD decodeHUD id rows |>
    <| TelemetryState_ExtendedState := group messageExtendedSystemState decodeExtendedState id rows |>
    <| TelemetryState_GPS := group messageGPSRaw decodeGPS id rows |>.

Lemma group_snoc {A} message (decode : row → outcome A) id rows r :
  group message decode id (rows ++ [r]) =
  match group_row message decode id r with Some a => Some a | None => group message decode id rows end.
Proof.
  unfold group. rewrite omap_app. cbn. destruct (group_row message decode id r) as [a|]; [apply last_snoc|].
  by rewrite app_nil_r.
Qed.

(** A row of another aircraft is not part of any group, *)
Lemma state_of_other_row id rows r : stringValue (column r "aircraft_id") ≠ id →
  state_of_rows id (rows ++ [r]) = state_of_rows id rows.
Proof.
  intros Hne%String.eqb_neq. unfold state_of_rows. rewrite !group_snoc. unfold group_row. by rewrite Hne.
Qed.

(** and one of the aircraft is in the group of its message. *)
Lemma state_of_own_row id rows r : stringValue (column r "aircraft_id") = id →
  state_of_rows id (rows ++ [r]) = decoded r (state_of_rows id rows).
Proof.
  intros Hid%String.eqb_eq. unfold state_of_rows. rewrite !group_snoc. unfold group_row, decoded. rewrite Hid. cbn [andb].
  generalize (stringValue (column r "message_name")), (decodePosition r), (decodeBattery r), (decodeVehicle r),
    (decodeSystem r), (decodeHUD r), (decodeExtendedState r), (decodeGPS r).
  generalize (group messageName decodePosition id rows), (group messageBatteryStatus decodeBattery id rows),
    (group messageHeartbeat decodeVehicle id rows), (group messageSystemStatus decodeSystem id rows),
    (group messageVFRHUD decodeHUD id rows), (group messageExtendedSystemState decodeExtendedState id rows),
    (group messageGPSRaw decodeGPS id rows).
  intros g1 g2 g3 g4 g5 g6 g7 message o1 o2 o3 o4 o5 o6 o7.
  destruct (String.eqb_spec message messageName) as [->|_]; [by destruct o1|].
  destruct (String.eqb_spec message messageBatteryStatus) as [->|_]; [by destruct o2|].
  destruct (String.eqb_spec message messageHeartbeat) as [->|_]; [by destruct o3|].
  destruct (String.eqb_spec message messageSystemStatus) as [->|_]; [by destruct o4|].
  destruct (String.eqb_spec message messageVFRHUD) as [->|_]; [by destruct o5|].
  destruct (String.eqb_spec message messageExtendedSystemState) as [->|_]; [by destruct o6|].
  destruct (String.eqb_spec message messageGPSRaw) as [->|_]; [by destruct o7|done].
Qed.

(** The states that the loop over the rows leaves. *)
Lemma note_rows_lookup rows (states : gmap string AircraftTelemetryState) id :
  (∀ state, states !! id = Some state → state = zero_AircraftTelemetryState) →
  foldl note_row states rows !! id = (λ _, state_of_rows id rows) <$> states !! id.
Proof.
  intros Hzero. induction rows as [|r rows IH] using rev_ind.
  { cbn. destruct (states !! id) as [state|]; [|done]. by rewrite (Hzero state eq_refl). }
  rewrite foldl_app. cbn [foldl]. unfold note_row at 1.
  destruct (decide (stringValue (column r "aircraft_id") = id)) as [Hid|Hne].
  - rewrite Hid, IH. destruct (states !! id) as [state|] eqn:Hstate; cbn [fmap option_fmap option_map].
    + by rewrite lookup_insert_eq, state_of_own_row.
    + rewrite IH. done.
  - rewrite state_of_other_row by done. rewrite <- IH.
    destruct (foldl note_row states rows !! stringValue (column r "aircraft_id")); [by rewrite lookup_insert_ne|done].
Qed.

(** The aircraft that were asked for. *)
Definition requested (ids : list string) (id : string) : Prop := id ∈ ids ∧ TrimSpace id ≠ "".

Lemma note_aircraft_spec ids :
  let '(states, unique) := foldl note_aircraft (∅, []) ids in
  (∀ id, states !! id = Some zero_AircraftTelemetryState ∧ requested ids id ∨ states !! id = None ∧ ¬ requested ids id)
  ∧ NoDup unique ∧ ∀ id, id ∈ unique ↔ requested ids id.
Proof.
  unfold requested. induction ids as [|x ids IH] using rev_ind.
  { cbn. split_and!; [|constructor|]; intros id; [right; split; [apply lookup_empty|]|]; rewrite elem_of_nil; naive_solver. }
  rewrite foldl_app. cbn [foldl]. destruct (foldl note_aircraft (∅, []) ids) as [states unique].
  destruct IH as (Hstates & Hnodup & Hunique). unfold note_aircraft.
  destruct (String.eqb_spec (TrimSpace x) "") as [Hblank|Hx].
  { split_and!; [|done|]; intros id; [specialize (Hstates id)|specialize (Hunique id)];
      rewrite elem_of_app, list_elem_of_singleton; naive_solver. }
  destruct (states !! x) as [state|] eqn:Hold.
  - assert (x ∈ ids) as Hin by (destruct (Hstates x); naive_solver).
    split_and!; [|done|]; intros id; [specialize (Hstates id)|specialize (Hunique id)];
      rewrite elem_of_app, list_elem_of_singleton; naive_solver.
  - assert (x ∉ unique) as Hnew by (rewrite Hunique; destruct (Hstates x); naive_solver).
    split_and!.
    + intros id. rewrite elem_of_app, list_elem_of_singleton. destruct (decide (x = id)) as [<-|Hne].
      * left. rewrite lookup_insert_eq. auto.
      * rewrite lookup_insert_ne by done. specialize (Hstates id). naive_solver.
    + apply NoDup_app. split_and!; [done| |apply NoDup_singleton]. intros y Hy ->%list_elem_of_singleton. done.
    + intros id. rewrite !elem_of_app, !list_elem_of_singleton. specialize (Hunique id). naive_solver.
Qed.

(** Exactly the aircraft asked for have a state. *)
Definition states_are (ids : list string) (f : string → AircraftTelemetryState)
    (states : gmap string AircraftTelemetryState) : Prop :=
  ∀ id, (requested ids id → states !! id = Some (f id)) ∧ (¬ requested ids id → states !! id = None).

(** the states that the store over InfluxDB returns are decoded from the
    answer, each part by itself.  No query is asked when no aircraft is; else
    one is asked, for the aircraft that are asked for, each once, and for what is
    not older than the look-back.  When it is answered, the result has exactly
    those aircraft, and each part of a state is the last row of that aircraft
    and that message which can be decoded: a malformed row, or one of another
    aircraft or message, changes nothing.  When the database says that it has
    no aircraft yet the states are empty, and any other error is passed on. *)
Theorem influx_states_of_rows lookback ids :
  (influx_GetLatestAircraftStates lookback ids = Ret (Ok ∅) ∧ ∀ id, ¬ requested ids id)
  ∨ ∃ unique k, NoDup unique ∧ (∀ id, id ∈ unique ↔ requested ids id)
    ∧ influx_GetLatestAircraftStates lookback ids = Call Now k
    ∧ ∀ t, asks (k t)
        (let aircraft := numbered "aircraft_id_" 0 unique in
         let messages := numbered "message_name_" 0 messages in
         RunQuery (latest_query aircraft messages) (latest_params (Format_RFC3339Nano (t - lookback)) aircraft messages))
        (λ reply result,
          match reply with
          | Err err =>
              let err := wrap "query latest aircraft telemetry" err in
              if isMissingColumn err "aircraft_id"
              then ∃ states, result = Ok states ∧ states_are ids (λ _, zero_AircraftTelemetryState) states
              else result = Err err
          | Ok rows => ∃ states, result = Ok states ∧ states_are ids (λ id, state_of_rows id rows) states
          end).
Proof.
  unfold influx_GetLatestAircraftStates. pose proof (note_aircraft_spec ids) as H.
  destruct (foldl note_aircraft (∅, []) ids) as [states unique]. destruct H as (Hstates & Hnodup & Hunique).
  assert (∀ id, states !! id = if bool_decide (id ∈ unique) then Some zero_AircraftTelemetryState else None) as Hlookup.
  { intros id. specialize (Hstates id). specialize (Hunique id). case_bool_decide; naive_solver. }
  destruct unique as [|x unique'] eqn:Heq.
  { left. split.
    - do 2 f_equal. apply map_empty. intros id. by rewrite Hlookup.
    - intros id Hid%Hunique. by apply elem_of_nil in Hid. }
  right. rewrite <- Heq in *. eexists unique, _. split_and!; [done|done|reflexivity|]. intros t.
  eexists. split; [reflexivity|]. intros [rows|err]; (eexists; split; [reflexivity|]).
  - eexists. split; [reflexivity|]. intros id. split; intros Hid.
    + rewrite note_rows_lookup; rewrite Hlookup, bool_decide_true by (by apply Hunique); [done|congruence].
    + rewrite note_rows_lookup; rewrite Hlookup, bool_decide_false by (by rewrite Hunique); done.
  - cbv zeta. destruct (isMissingColumn _ _); [|done]. eexists. split; [reflexivity|]. intros id. rewrite Hlookup.
    split; intros Hid; [rewrite bool_decide_true; [done|by apply Hunique]|rewrite bool_decide_false; [done|by rewrite Hunique]].
Qed.
