(* ===== verification/IntentService.v ===== *)
(** * The intent service

    src/internal/service/intent_service.go: creation, modification and the
    lifecycle of operational intents, as programs over the durable store.
    The deconfliction coordinator is an interface of the service: a record of
    programs, absent when the service was built without one. *)

From S2P Require Import Prelude GoRuntime Domain Errors Program DurableStore.
From stdpp Require Import options.

(** ** Requests and results *)

Record CreateIntentRequest : Set := mkCreateIntentRequest {
  CreateIntent_ID : string;
  CreateIntent_OperatorID : string;
  CreateIntent_AircraftID : string;
  CreateIntent_AuthorizationID : string;
  CreateIntent_Name : string;
  CreateIntent_Summary : string;
  CreateIntent_UseCase : string;
  CreateIntent_AuthorizationPath : AuthorizationPath;
  CreateIntent_PopulationCategory : PopulationCategory;
  CreateIntent_ConformanceRequired : bool;
  CreateIntent_OperatingAreaID : string;
  CreateIntent_RouteSummary : string;
  CreateIntent_PlannedStartAt : Time;
  CreateIntent_PlannedEndAt : Time;
  CreateIntent_MinAltitudeFtAGL : option float64;
  CreateIntent_MaxAltitudeFtAGL : option float64;
  CreateIntent_SupervisorID : string;
  CreateIntent_FlightCoordinatorID : string;
}.

Record AddOperationalVolumeRequest : Set := mkAddOperationalVolumeRequest {
  AddVolume_ID : string;
  AddVolume_Sequence : Z;
  AddVolume_GeometryURI : string;
  AddVolume_GeoJSON : string;
  AddVolume_MinAltitudeM : option float64;
  AddVolume_MaxAltitudeM : option float64;
  AddVolume_AltitudeRef : AltitudeReference;
  AddVolume_StartsAt : Time;
  AddVolume_EndsAt : Time;
  AddVolume_BufferMeters : option float64;
  AddVolume_VolumeType : OperationalVolumeType;
}.

Record ModifyIntentFields : Set := mkModifyIntentFields {
  Modify_Name : option string;
  Modify_Summary : option string;
  Modify_UseCase : option string;
  Modify_AuthorizationPath : option AuthorizationPath;
  Modify_PopulationCategory : option PopulationCategory;
  Modify_ConformanceRequired : option bool;
  Modify_OperatingAreaID : option string;
  Modify_RouteSummary : option string;
  Modify_PlannedStartAt : option Time;
  Modify_PlannedEndAt : option Time;
  Modify_MinAltitudeFtAGL : option float64;
  Modify_MaxAltitudeFtAGL : option float64;
  Modify_SupervisorID : option string;
  Modify_FlightCoordinatorID : option string;
}.

(** An absent list of volumes ([nil]) is not an empty one. *)
Record ModifyIntentRequest : Set := mkModifyIntentRequest {
  Modify_Reason : string;
  Modify_ExpectedVersion : Z;
  Modify_Intent : ModifyIntentFields;
  Modify_Volumes : option (list AddOperationalVolumeRequest);
}.

Record ModifyIntentResult : Set := mkModifyIntentResult {
  ModifyResult_Intent : OperationalIntent;
  ModifyResult_Volumes : list OperationalVolume;
  ModifyResult_SupersedesIntentID : string;
  ModifyResult_SupersedesVersion : Z;
}.

(** ** Helpers *)

Definition volumesForVersion (volumes : list OperationalVolume) (version : Z) : list OperationalVolume :=
  select (λ volume, Volume_IntentVersion volume =? version) volumes.

Definition preflightChecksForVersion (checks : list PreflightCheck) (version : Z) : list PreflightCheck :=
  select (λ check, PreflightCheck_IntentVersion check =? version) checks.

Definition complianceFindingsForVersion (findings : list ComplianceFinding) (version : Z)
    : list ComplianceFinding :=
  select (λ finding, ComplianceFinding_IntentVersion finding =? version) findings.

Definition validateIntentWindow (intent : OperationalIntent) : option error :=
  if IsZero (Intent_PlannedStartAt intent) || IsZero (Intent_PlannedEndAt intent)
  then Some (because ErrValidation "planned start and end are required")
  else if negb (Before (Intent_PlannedStartAt intent) (Intent_PlannedEndAt intent))
  then Some (because ErrValidation "planned_start_at must be before planned_end_at")
  else None.

(** [if p != nil { x = *p }] *)
Definition or_keep {A} (p : option A) (x : A) : A := match p with Some v => v | None => x end.

Definition applyIntentModification (intent : OperationalIntent) (fields : ModifyIntentFields)
    : OperationalIntent :=
  intent
    <| Intent_Name := or_keep (Modify_Name fields) (Intent_Name intent) |>
    <| Intent_Summary := or_keep (Modify_Summary fields) (Intent_Summary intent) |>
    <| Intent_UseCase := or_keep (Modify_UseCase fields) (Intent_UseCase intent) |>
    <| Intent_AuthorizationPath :=
         or_keep (Modify_AuthorizationPath fields) (Intent_AuthorizationPath intent) |>
    <| Intent_PopulationCategory :=
         or_keep (Modify_PopulationCategory fields) (Intent_PopulationCategory intent) |>
    <| Intent_ConformanceRequired :=
         or_keep (Modify_ConformanceRequired fields) (Intent_ConformanceRequired intent) |>
    <| Intent_OperatingAreaID := or_keep (Modify_OperatingAreaID fields) (Intent_OperatingAreaID intent) |>
    <| Intent_RouteSummary := or_keep (Modify_RouteSummary fields) (Intent_RouteSummary intent) |>
    <| Intent_PlannedStartAt :=
         match Modify_PlannedStartAt fields with Some t => UTC t | None => Intent_PlannedStartAt intent end |>
    <| Intent_PlannedEndAt :=
         match Modify_PlannedEndAt fields with Some t => UTC t | None => Intent_PlannedEndAt intent end |>
    <| Intent_MinAltitudeFtAGL :=
         match Modify_MinAltitudeFtAGL fields with Some v => Some v | None => Intent_MinAltitudeFtAGL intent end |>
    <| Intent_MaxAltitudeFtAGL :=
         match Modify_MaxAltitudeFtAGL fields with Some v => Some v | None => Intent_MaxAltitudeFtAGL intent end |>
    <| Intent_SupervisorID := or_keep (Modify_SupervisorID fields) (Intent_SupervisorID intent) |>
    <| Intent_FlightCoordinatorID :=
         or_keep (Modify_FlightCoordinatorID fields) (Intent_FlightCoordinatorID intent) |>.

(** The volume a request describes, under an identifier already chosen. *)
Definition volume_of_request (intent : OperationalIntent) (req : AddOperationalVolumeRequest)
    (id : string) (now : Time) : outcome OperationalVolume :=
  match AddVolume_MinAltitudeM req, AddVolume_MaxAltitudeM req with
  | Some min, Some max =>
      if AddVolume_AltitudeRef req =s= ""
      then Err (because ErrValidation "altitude_ref is required")
      else Ok (zero_OperationalVolume
        <| Volume_ID := id |>
        <| Volume_OperatorID := Intent_OperatorID intent |>
        <| Volume_IntentID := Intent_ID intent |>
        <| Volume_IntentVersion := Intent_Version intent |>
        <| Volume_Sequence := AddVolume_Sequence req |>
        <| Volume_GeometryURI := AddVolume_GeometryURI req |>
        <| Volume_GeoJSON := AddVolume_GeoJSON req |>
        <| Volume_MinAltitudeM := min |>
        <| Volume_MaxAltitudeM := max |>
        <| Volume_AltitudeRef := AddVolume_AltitudeRef req |>
        <| Volume_StartsAt := UTC (AddVolume_StartsAt req) |>
        <| Volume_EndsAt := UTC (AddVolume_EndsAt req) |>
        <| Volume_BufferMeters := AddVolume_BufferMeters req |>
        <| Volume_VolumeType := AddVolume_VolumeType req |>
        <| Volume_CreatedAt := now |>
        <| Volume_UpdatedAt := now |>)
  | _, _ => Err (because ErrValidation "min_altitude_m and max_altitude_m are required")
  end.

Definition buildOperationalVolumeFromRequest (intent : OperationalIntent)
    (req : AddOperationalVolumeRequest) (now : Time) (index : Z) : outcome OperationalVolume :=
  let id := TrimSpace (AddVolume_ID req) in
  let id :=
    if id =s= "" then
      let sequence := if AddVolume_Sequence req =? 0 then int64_succ index else AddVolume_Sequence req in
      Intent_ID intent +:+ "-v" +:+ Itoa (Intent_Version intent) +:+ "-volume-" +:+ Itoa sequence
    else id in
  volume_of_request intent req id now.

(** The loop of the modification over the requested volumes; the first error
    stops it. *)
Fixpoint build_volumes (intent : OperationalIntent) (now : Time) (index : Z)
    (reqs : list AddOperationalVolumeRequest) : outcome (list OperationalVolume) :=
  match reqs with
  | [] => Ok []
  | req :: reqs' =>
      match buildOperationalVolumeFromRequest intent req now index with
      | Err e => Err e
      | Ok volume =>
          match build_volumes intent now (int64_succ index) reqs' with
          | Err e => Err e
          | Ok volumes => Ok (volume :: volumes)
          end
      end
  end.

Definition request_of_volume (volume : OperationalVolume) : AddOperationalVolumeRequest :=
  mkAddOperationalVolumeRequest (Volume_ID volume) (Volume_Sequence volume) (Volume_GeometryURI volume)
    (Volume_GeoJSON volume) (Some (Volume_MinAltitudeM volume)) (Some (Volume_MaxAltitudeM volume))
    (Volume_AltitudeRef volume) (Volume_StartsAt volume) (Volume_EndsAt volume)
    (Volume_BufferMeters volume) (Volume_VolumeType volume).

Definition latestOperationalVolumeUpdatedAt (volumes : list OperationalVolume) : Time :=
  foldl (λ latest volume, if After (Volume_UpdatedAt volume) latest then Volume_UpdatedAt volume else latest)
    zero_Time volumes.

Definition blocking_check (check : PreflightCheck) : bool :=
  PreflightCheck_Blocking check
  && ((PreflightCheck_Status check =s= PreflightStatusBlocked)
      || (PreflightCheck_Status check =s= PreflightStatusAction)).

Definition blocking_finding (finding : ComplianceFinding) : bool :=
  ComplianceFinding_Blocking finding
  && ((ComplianceFinding_Status finding =s= ComplianceFindingFail)
      || (ComplianceFinding_Status finding =s= ComplianceFindingReview)).

(** [fmt.Errorf("%w: %s -> %s", ErrInvalidTransition, from, to)] *)
Definition invalid_transition (from to : IntentStatus) : error :=
  because ErrInvalidTransition (from +:+ " -> " +:+ to).

Section service.
Context {externalE : Type → Type}.
Abbreviation program := (prog (apiE externalE)).

(** uuid.Parse: the version and the canonical text of a UUID. *)
Context (uuid_Parse : string → option (Z * string)).

Record DeconflictionCoordinator := mkCoordinator {
  CheckIntent : string → program (outcome DeconflictionResult);
  PublishingEnabled : program bool;
  ValidatePublication :
    OperationalIntent → OperationalIntentExternalState → program (outcome unit);
  PublicationRequest :
    OperationalIntent → OperationalIntentExternalState → program OperationalIntentPublication;
  GetPublication : string → program (outcome OperationalIntentPublication);
  ReconcileIntent : string → program (outcome unit);
}.

Context (deconfliction : option DeconflictionCoordinator).

(** [if s.deconfliction != nil && s.deconfliction.PublishingEnabled() { yes } else { no }] *)
Definition when_publishing {A} (yes : DeconflictionCoordinator → program A) (no : program A) : program A :=
  match deconfliction with
  | None => no
  | Some d => let! enabled := PublishingEnabled d in if enabled then yes d else no
  end.

Definition canonicalDSSIntentID (id : string) : outcome string :=
  match uuid_Parse id with
  | Some (version, text) =>
      if version =? 4 then Ok text
      else Err (because ErrValidation "id must be a UUIDv4 when DSS publication is enabled")
  | None => Err (because ErrValidation "id must be a UUIDv4 when DSS publication is enabled")
  end.

(** ** Creation and reading *)

Definition intent_of_request (req : CreateIntentRequest) (id : string) (now : Time) : OperationalIntent :=
  let intent := zero_OperationalIntent
    <| Intent_ID := id |>
    <| Intent_OperatorID := CreateIntent_OperatorID req |>
    <| Intent_AircraftID := CreateIntent_AircraftID req |>
    <| Intent_AuthorizationID := CreateIntent_AuthorizationID req |>
    <| Intent_Version := 1 |>
    <| Intent_Name := CreateIntent_Name req |>
    <| Intent_Summary := CreateIntent_Summary req |>
    <| Intent_UseCase := CreateIntent_UseCase req |>
    <| Intent_AuthorizationPath := CreateIntent_AuthorizationPath req |>
    <| Intent_PopulationCategory := CreateIntent_PopulationCategory req |>
    <| Intent_Status := IntentStatusDraft |>
    <| Intent_ConformanceRequired := CreateIntent_ConformanceRequired req |>
    <| Intent_OperatingAreaID := CreateIntent_OperatingAreaID req |>
    <| Intent_RouteSummary := CreateIntent_RouteSummary req |>
    <| Intent_PlannedStartAt := UTC (CreateIntent_PlannedStartAt req) |>
    <| Intent_PlannedEndAt := UTC (CreateIntent_PlannedEndAt req) |>
    <| Intent_MinAltitudeFtAGL := CreateIntent_MinAltitudeFtAGL req |>
    <| Intent_MaxAltitudeFtAGL := CreateIntent_MaxAltitudeFtAGL req |>
    <| Intent_SupervisorID := CreateIntent_SupervisorID req |>
    <| Intent_FlightCoordinatorID := CreateIntent_FlightCoordinatorID req |>
    <| Intent_UpdatedAt := now |> in
  let intent :=
    if Intent_AuthorizationPath intent =s= ""
    then intent <| Intent_AuthorizationPath := AuthorizationPathUnknown |> else intent in
  if Intent_PopulationCategory intent =s= ""
  then intent <| Intent_PopulationCategory := PopulationCategoryUnknown |> else intent.

Definition CreateIntent (req : CreateIntentRequest) : program (outcome OperationalIntent) :=
  let! now := now in
  let id := TrimSpace (CreateIntent_ID req) in
  try! id :=
    (if id =s= "" then let! fresh := call NewString in Ret (Ok fresh)
     else when_publishing (λ _, Ret (canonicalDSSIntentID id)) (Ret (Ok id))) orelse (λ err, err) in
  if TrimSpace (CreateIntent_AircraftID req) =s= ""
  then Ret (Err (because ErrValidation "aircraft_id is required"))
  else if IsZero (CreateIntent_PlannedStartAt req) || IsZero (CreateIntent_PlannedEndAt req)
  then Ret (Err (because ErrValidation "planned start and end are required"))
  else if negb (Before (CreateIntent_PlannedStartAt req) (CreateIntent_PlannedEndAt req))
  then Ret (Err (because ErrValidation "planned_start_at must be before planned_end_at"))
  else
    let intent := intent_of_request req id (UTC now) in
    try! _ := durable (Durable.CreateOperationalIntent intent) orelse wrap "create operational intent" in
    Ret (Ok intent).

Definition GetIntent (intentID : string) : program (outcome OperationalIntent) :=
  try! intent := durable (Durable.GetOperationalIntent intentID) orelse wrap "get operational intent" in
  Ret (Ok intent).

(** ** Volumes *)

Definition AddOperationalVolume (intentID : string) (req : AddOperationalVolumeRequest)
    : program (outcome OperationalVolume) :=
  try! intent := durable (Durable.GetOperationalIntent intentID) orelse wrap "get operational intent" in
  if Intent_Status intent <>s IntentStatusDraft
  then Ret (Err (because ErrInvalidTransition
                   ("operational volumes are locked after draft status (" +:+ Intent_Status intent +:+ ")")))
  else
    let! now := now in
    let now := UTC now in
    let id := TrimSpace (AddVolume_ID req) in
    let id := if id =s= "" then Intent_ID intent +:+ "-volume-" +:+ Itoa (UnixNano now) else id in
    match volume_of_request intent req id now with
    | Err e => Ret (Err e)
    | Ok volume =>
        try! _ := durable (Durable.RecordOperationalVolume volume) orelse wrap "record operational volume" in
        Ret (Ok volume)
    end.

Definition modifyVolumeRequests (intentID : string) (sourceVersion : Z)
    (requested : option (list AddOperationalVolumeRequest))
    : program (outcome (list AddOperationalVolumeRequest)) :=
  match requested with
  | Some reqs => Ret (Ok reqs)
  | None =>
      try! existing := durable (Durable.ListOperationalVolumes intentID) orelse wrap "list operational volumes" in
      Ret (Ok (request_of_volume <$> volumesForVersion existing sourceVersion))
  end.

(** ** Modification *)

(** An accepted intent is modified as a draft of the next version. *)
Definition next_draft (intent : OperationalIntent) : OperationalIntent :=
  if Intent_Status intent =s= IntentStatusAccepted
  then intent <| Intent_Version := int64_succ (Intent_Version intent) |>
              <| Intent_Status := IntentStatusDraft |>
              <| Intent_SubmittedAt := None |>
              <| Intent_AcceptedAt := None |>
              <| Intent_ActivatedAt := None |>
  else intent.

Definition modify_error (err : error) : error :=
  if errors_Is err ErrVersionConflict
  then because ErrInvalidTransition "operational intent changed during modification"
  else wrap "replace operational intent" err.

Definition ModifyIntent (intentID : string) (req : ModifyIntentRequest)
    : program (outcome ModifyIntentResult) :=
  try! intent := durable (Durable.GetOperationalIntent intentID) orelse wrap "get operational intent" in
  if Modify_ExpectedVersion req =? 0
  then Ret (Err (because ErrValidation "expected_version is required"))
  else if Modify_ExpectedVersion req <>z Intent_Version intent
  then Ret (Err (because ErrInvalidTransition
    ("expected_version " +:+ Itoa (Modify_ExpectedVersion req)
       +:+ " does not match current version " +:+ Itoa (Intent_Version intent))))
  else if Intent_Status intent =s= IntentStatusActive
  then Ret (Err (ActiveIntentModificationError (Intent_ID intent) (Intent_Status intent)
                   (Intent_Version intent)))
  else if (Intent_Status intent <>s IntentStatusDraft)
          && (Intent_Status intent <>s IntentStatusSubmitted)
          && (Intent_Status intent <>s IntentStatusAccepted)
  then Ret (Err (because ErrInvalidTransition
                   ("cannot modify intent with status " +:+ Intent_Status intent)))
  else
    let! now := now in
    let now := UTC now in
    let accepted := Intent_Status intent =s= IntentStatusAccepted in
    let sourceVersion := Intent_Version intent in
    let sourceRevision := Intent_Revision intent in
    let modified :=
      (applyIntentModification (next_draft intent) (Modify_Intent req)) <| Intent_UpdatedAt := now |> in
    match validateIntentWindow modified with
    | Some e => Ret (Err e)
    | None =>
        try! volumeReqs := modifyVolumeRequests (Intent_ID modified) sourceVersion (Modify_Volumes req)
          orelse (λ err, err) in
        match build_volumes modified now 0 volumeReqs with
        | Err e => Ret (Err e)
        | Ok volumes =>
            try! _ := durable (Durable.ReplaceOperationalIntent sourceVersion sourceRevision modified volumes)
              orelse modify_error in
            let modified :=
              if Intent_Version modified =? sourceVersion
              then modified <| Intent_Revision := int64_succ sourceRevision |>
              else modified <| Intent_Revision := 0 |> in
            Ret (Ok (mkModifyIntentResult modified volumes
                       (if accepted then Intent_ID intent else "")
                       (if accepted then Intent_Version intent else 0)))
        end
    end.

(** ** Transitions *)

(** A map with the value true at each of its keys. *)
Definition allows (allowed : list IntentStatus) (status : IntentStatus) : bool :=
  existsb (λ s, s =s= status) allowed.

Definition transitionIntent (intentID : string) (next : IntentStatus) (allowed : list IntentStatus)
    (mutate : option (OperationalIntent → Time → OperationalIntent)) : program (outcome OperationalIntent) :=
  try! intent := durable (Durable.GetOperationalIntent intentID) orelse wrap "get operational intent" in
  if negb (allows allowed (Intent_Status intent))
  then Ret (Err (invalid_transition (Intent_Status intent) next))
  else
    let! now := now in
    let now := UTC now in
    let expectedRevision := Intent_Revision intent in
    let intent := intent <| Intent_Status := next |> <| Intent_UpdatedAt := now |> in
    let intent := match mutate with Some f => f intent now | None => intent end in
    try! _ := durable (Durable.UpdateOperationalIntent intent expectedRevision)
      orelse wrap "update operational intent" in
    Ret (Ok (intent <| Intent_Revision := int64_succ expectedRevision |>)).

Definition SubmitIntent (intentID : string) : program (outcome OperationalIntent) :=
  transitionIntent intentID IntentStatusSubmitted [IntentStatusDraft]
    (Some (λ intent now, intent <| Intent_SubmittedAt := Some now |>)).

Definition transitionIntentWithPublication (intentID : string) (next : IntentStatus)
    (allowed : list IntentStatus) (mutate : OperationalIntent → Time → OperationalIntent)
    (desired : OperationalIntentExternalState) : program (outcome OperationalIntent) :=
  when_publishing (λ d,
    try! intent := durable (Durable.GetOperationalIntent intentID) orelse wrap "get operational intent" in
    if negb (allows allowed (Intent_Status intent))
    then Ret (Err (invalid_transition (Intent_Status intent) next))
    else
      let! now := now in
      let now := UTC now in
      let expectedRevision := Intent_Revision intent in
      let intent := mutate (intent <| Intent_Status := next |> <| Intent_UpdatedAt := now |>) now in
      try! _ :=
        (if is_ok (canonicalDSSIntentID (Intent_ID intent)) then
           let! publication := PublicationRequest d intent desired in
           try! u := durable (Durable.UpdateOperationalIntentAndRequestPublication intent expectedRevision publication)
             orelse wrap "update operational intent and request DSS withdrawal" in Ret (Ok u)
         else
           try! u := durable (Durable.UpdateOperationalIntent intent expectedRevision)
             orelse wrap "update legacy operational intent" in Ret (Ok u)) orelse (λ err, err) in
      Ret (Ok (intent <| Intent_Revision := int64_succ expectedRevision |>)))
    (transitionIntent intentID next allowed (Some mutate)).

Definition CompleteIntent (intentID : string) : program (outcome OperationalIntent) :=
  transitionIntentWithPublication intentID IntentStatusComplete [IntentStatusActive]
    (λ intent now, intent <| Intent_CompletedAt := Some now |>) OperationalIntentExternalStateWithdrawn.

Definition CancelIntent (intentID : string) : program (outcome OperationalIntent) :=
  transitionIntentWithPublication intentID IntentStatusCanceled
    [IntentStatusDraft; IntentStatusSubmitted; IntentStatusReview; IntentStatusAccepted; IntentStatusActive]
    (λ intent now, intent <| Intent_CanceledAt := Some now |>) OperationalIntentExternalStateWithdrawn.

(** ** Acceptance *)

Definition AcceptIntent (intentID : string) : program (outcome OperationalIntent) :=
  try! intent := durable (Durable.GetOperationalIntent intentID) orelse wrap "get operational intent" in
  if (Intent_Status intent <>s IntentStatusSubmitted) && (Intent_Status intent <>s IntentStatusReview)
  then Ret (Err (invalid_transition (Intent_Status intent) IntentStatusAccepted))
  else
    try! _ := when_publishing (λ d,
        match canonicalDSSIntentID (Intent_ID intent) with
        | Err e => Ret (Err e)
        | Ok _ =>
            try! u := ValidatePublication d intent OperationalIntentExternalStateAccepted
              orelse (λ err, because ErrValidation
                        ("intent is not compatible with DSS publication: " +:+ Error err)) in
            Ret (Ok u)
        end) (Ret (Ok tt)) orelse (λ err, err) in
    let! now := now in
    let now := UTC now in
    let expectedRevision := Intent_Revision intent in
    let intent := intent <| Intent_Status := IntentStatusAccepted |>
                         <| Intent_AcceptedAt := Some now |>
                         <| Intent_UpdatedAt := now |> in
    try! _ := when_publishing (λ d,
        let! publication := PublicationRequest d intent OperationalIntentExternalStateAccepted in
        try! u := durable (Durable.AcceptOperationalIntentAndRequestPublication intent expectedRevision publication)
          orelse wrap "accept operational intent and request DSS publication" in Ret (Ok u))
      (try! u := durable (Durable.AcceptOperationalIntent intent expectedRevision)
         orelse wrap "accept operational intent" in Ret (Ok u)) orelse (λ err, err) in
    Ret (Ok (intent <| Intent_Revision := int64_succ expectedRevision |>)).

(** ** Activation *)

Definition activationReadiness (intent : OperationalIntent) : program (outcome unit) :=
  try! volumes := durable (Durable.ListOperationalVolumes (Intent_ID intent))
    orelse wrap "list operational volumes" in
  let volumes := volumesForVersion volumes (Intent_Version intent) in
  match volumes with
  | [] => Ret (Err (because ErrActivationBlocked "at least one operational volume is required"))
  | _ =>
      let latest := latestOperationalVolumeUpdatedAt volumes in
      try! checks := durable (Durable.ListPreflightChecks (Intent_ID intent))
        orelse wrap "list preflight checks" in
      let checks := preflightChecksForVersion checks (Intent_Version intent) in
      match checks with
      | [] => Ret (Err (because ErrActivationBlocked "current preflight checks are required"))
      | _ =>
          match List.find blocking_check checks with
          | Some check =>
              Ret (Err (because ErrActivationBlocked
                          ("blocking preflight check " +:+ PreflightCheck_ID check)))
          | None =>
              if negb (existsb (λ check, negb (Before (PreflightCheck_CapturedAt check) latest)) checks)
              then Ret (Err (because ErrActivationBlocked
                               "preflight checks are stale for current operational volumes"))
              else
                try! findings := durable (Durable.ListComplianceFindingsForIntent (Intent_ID intent))
                  orelse wrap "list compliance findings" in
                let findings := complianceFindingsForVersion findings (Intent_Version intent) in
                match List.find blocking_finding findings with
                | Some finding =>
                    Ret (Err (because ErrActivationBlocked
                                ("blocking compliance finding " +:+ ComplianceFinding_ID finding)))
                | None => Ret (Ok tt)
                end
          end
      end
  end.

(** The statuses in which the published version is looked up. *)
Definition needs_published (current : OperationalIntent) : bool :=
  (Intent_Status current =s= IntentStatusDraft) || (Intent_Status current =s= IntentStatusSubmitted)
  || (Intent_Status current =s= IntentStatusReview).

(** Which external state an activation that did not happen goes back to, and
    the version it is requested for. *)
Definition compensation (current : OperationalIntent) (published : outcome OperationalIntent)
    : outcome (OperationalIntentExternalState * OperationalIntent) :=
  if Intent_Status current =s= IntentStatusAccepted
  then Ok (OperationalIntentExternalStateAccepted, current)
  else if needs_published current
  then match published with
       | Err e => Err e
       | Ok published =>
           if Intent_Status published =s= IntentStatusAccepted
           then Ok (OperationalIntentExternalStateAccepted, published)
           else Ok (OperationalIntentExternalStateWithdrawn, current)
       end
  else Ok (OperationalIntentExternalStateWithdrawn, current).

Definition compensatePublishedActivation (d : DeconflictionCoordinator) (intentID : string)
    : program (outcome unit) :=
  try! current := durable (Durable.GetOperationalIntent intentID) orelse (λ err, err) in
  if Intent_Status current =s= IntentStatusActive then Ret (Ok tt) else
  try! publication := GetPublication d intentID orelse (λ err, err) in
  if Publication_DesiredState publication <>s OperationalIntentExternalStateActivated
  then Ret (Ok tt) else
  let! published :=
    (if needs_published current
     then durable (Durable.GetOperationalIntentVersion intentID (Publication_PublishedIntentVersion publication))
     else Ret (Ok current)) in
  match compensation current published with
  | Err e => Ret (Err e)
  | Ok (desiredState, desiredIntent) =>
      let! request := PublicationRequest d desiredIntent desiredState in
      try! _ := durable (Durable.RequestOperationalIntentPublicationIfCurrent request
                  (Intent_Version current) (Intent_Revision current) (Intent_Status current))
        orelse (λ err, err) in
      let! _ := ReconcileIntent d intentID in
      Ret (Ok tt)
  end.

(** The publication is confirmed for this version. *)
Definition confirmed_for (intent : OperationalIntent) (publication : OperationalIntentPublication) : bool :=
  negb ((Publication_PublishedIntentVersion publication <>z Intent_Version intent)
        || (Publication_SyncStatus publication <>s PublicationSyncConfirmed)).

(** The publication the activation starts from; an intent accepted before
    publication was enabled is published as accepted first. *)
Definition accepted_publication (d : DeconflictionCoordinator) (intent : OperationalIntent)
    : program (outcome (outcome OperationalIntentPublication)) :=
  let! publication := GetPublication d (Intent_ID intent) in
  match publication with
  | Err err =>
      if errors_Is err ErrNotFound then
        let! request := PublicationRequest d intent OperationalIntentExternalStateAccepted in
        try! _ := durable (Durable.RequestOperationalIntentPublicationIfCurrent request
                    (Intent_Version intent) (Intent_Revision intent) IntentStatusAccepted)
          orelse wrap "backfill DSS acceptance" in
        try! _ := ReconcileIntent d (Intent_ID intent)
          orelse (λ err, because ErrActivationBlocked ("coordinate DSS acceptance: " +:+ Error err)) in
        let! publication := GetPublication d (Intent_ID intent) in
        Ret (Ok publication)
      else Ret (Ok publication)
  | Ok _ => Ret (Ok publication)
  end.

(** Brings the publication of the intent to Activated, or fails. *)
Definition publish_activation (d : DeconflictionCoordinator) (intent : OperationalIntent)
    : program (outcome unit) :=
  let not_accepted := because ErrActivationBlocked "intent is not DSS-confirmed as Accepted" in
  match canonicalDSSIntentID (Intent_ID intent) with
  | Err e => Ret (Err e)
  | Ok _ =>
      try! publication := accepted_publication d intent orelse (λ err, err) in
      match publication with
      | Err _ => Ret (Err not_accepted)
      | Ok publication =>
          if negb (confirmed_for intent publication) then Ret (Err not_accepted) else
          try! publication :=
            (if Publication_ConfirmedState publication =s= OperationalIntentExternalStateAccepted then
               let! request := PublicationRequest d intent OperationalIntentExternalStateActivated in
               try! _ := durable (Durable.RequestOperationalIntentPublicationIfCurrent request
                           (Intent_Version intent) (Intent_Revision intent) IntentStatusAccepted)
                 orelse wrap "request DSS activation" in
               let! reconciled := ReconcileIntent d (Intent_ID intent) in
               match reconciled with
               | Err err =>
                   let activationErr :=
                     because ErrActivationBlocked ("coordinate DSS activation: " +:+ Error err) in
                   let! compensated := compensatePublishedActivation d (Intent_ID intent) in
                   match compensated with
                   | Err err => Ret (Err (errors_Join activationErr (wrap "compensate DSS activation" err)))
                   | Ok _ => Ret (Err activationErr)
                   end
               | Ok _ => let! publication := GetPublication d (Intent_ID intent) in Ret (Ok publication)
               end
             else if Publication_ConfirmedState publication =s= OperationalIntentExternalStateActivated
             then Ret (Ok (Ok publication))
             else Ret (Err not_accepted)) orelse (λ err, err) in
          match publication with
          | Ok publication =>
              if (Publication_ConfirmedState publication <>s OperationalIntentExternalStateActivated)
                 || negb (confirmed_for intent publication)
              then Ret (Err (because ErrActivationBlocked "DSS activation is not confirmed"))
              else Ret (Ok tt)
          | Err _ => Ret (Err (because ErrActivationBlocked "DSS activation is not confirmed"))
          end
      end
  end.

Definition activation_error (intent : OperationalIntent) (err : error) : error :=
  if errors_Is err ErrActiveIntent
  then because ErrActivationBlocked
         ("aircraft " +:+ Intent_AircraftID intent +:+ " already has an active operational intent")
  else wrap "update operational intent" err.

Definition ActivateIntent (intentID : string) : program (outcome OperationalIntent) :=
  try! intent := durable (Durable.GetOperationalIntent intentID) orelse wrap "get operational intent" in
  if Intent_Status intent <>s IntentStatusAccepted
  then Ret (Err (invalid_transition (Intent_Status intent) IntentStatusActive))
  else
    try! _ :=
      match deconfliction with
      | None => Ret (Ok tt)
      | Some d =>
          try! result := CheckIntent d (Intent_ID intent) orelse wrap "check deconfliction" in
          if DeconflictionResult_Posture result <>s DeconflictionPostureClear
          then Ret (Err (because ErrActivationBlocked
                           ("deconfliction posture is " +:+ DeconflictionResult_Posture result)))
          else Ret (Ok tt)
      end orelse (λ err, err) in
    try! _ := activationReadiness intent orelse (λ err, err) in
    try! _ := when_publishing (λ d, publish_activation d intent) (Ret (Ok tt)) orelse (λ err, err) in
    let! now := now in
    let now := UTC now in
    let expectedRevision := Intent_Revision intent in
    let intent := intent <| Intent_Status := IntentStatusActive |>
                         <| Intent_ActivatedAt := Some now |>
                         <| Intent_UpdatedAt := now |> in
    let! written := durable (Durable.ActivateOperationalIntent intent expectedRevision) in
    match written with
    | Ok _ => Ret (Ok (intent <| Intent_Revision := int64_succ expectedRevision |>))
    | Err err =>
        let activationErr := activation_error intent err in
        if errors_Is err ErrVersionConflict || errors_Is err ErrActiveIntent then
          when_publishing (λ d,
            let! compensated := compensatePublishedActivation d (Intent_ID intent) in
            match compensated with
            | Err err => Ret (Err (errors_Join activationErr (wrap "compensate DSS activation" err)))
            | Ok _ => Ret (Err activationErr)
            end) (Ret (Err activationErr))
        else Ret (Err activationErr)
    end.
End service.
