(* ===== verification/IntentServiceCalls.v ===== *)
(** * The intent service among concurrent clients

    Which calls of the store the service makes, whatever the replies; hence
    what holds of the stored intents when any number of requests to the
    service run at the same time. *)

From S2P Require Import Prelude GoRuntime GoRange Domain Errors Program MemoryState MemoryFleet DurableStore MemoryStore MemoryInvariant MemoryReachable Scenario IntentWrites IntentService.
From stdpp Require Import options.

Section calls.
Context {externalE : Type → Type} (uuid_Parse : string → option (Z * string)).
Abbreviation program := (prog (apiE externalE)).

(** The programs of a coordinator leave the rows of the intents alone. *)
Definition leaves_intents {A} (p : program A) : Prop :=
  store_calls_in (λ B (e : Durable.storeE B), touches_intents e = false) p.

Class CoordinatorLaw (d : DeconflictionCoordinator) := {
  CheckIntent_law id : leaves_intents (CheckIntent d id);
  PublishingEnabled_law : leaves_intents (PublishingEnabled d);
  ValidatePublication_law i st : leaves_intents (ValidatePublication d i st);
  PublicationRequest_law i st : leaves_intents (PublicationRequest d i st);
  GetPublication_law id : leaves_intents (GetPublication d id);
  ReconcileIntent_law id : leaves_intents (ReconcileIntent d id);
}.

Definition coordinator_law (deconfliction : option DeconflictionCoordinator) : Prop :=
  match deconfliction with Some d => CoordinatorLaw d | None => True end.

Context (deconfliction : option DeconflictionCoordinator) (Hlaw : coordinator_law deconfliction).

(** One request to the service. *)
Inductive service_request : ∀ A, program A → Prop :=
  | request_create req : service_request _ (CreateIntent uuid_Parse deconfliction req)
  | request_get id : service_request _ (GetIntent id)
  | request_volume id req : service_request _ (AddOperationalVolume id req)
  | request_modify id req : service_request _ (ModifyIntent id req)
  | request_submit id : service_request _ (SubmitIntent id)
  | request_accept id : service_request _ (AcceptIntent uuid_Parse deconfliction id)
  | request_activate id : service_request _ (ActivateIntent uuid_Parse deconfliction id)
  | request_complete id : service_request _ (CompleteIntent uuid_Parse deconfliction id)
  | request_cancel id : service_request _ (CancelIntent uuid_Parse deconfliction id).

(** ** Its calls *)

Definition lifecycle_calls {A} (p : program A) : Prop :=
  store_calls_in (λ B (e : Durable.storeE B), lifecycle_call e) p.

Lemma calls_in_impl {E A} (P Q : ∀ X, E X → Prop) (p : prog E A) :
  (∀ X e, P X e → Q X e) → calls_in P p → calls_in Q p.
Proof using Type. intros HPQ. induction p as [a|X e k IH]; cbn; [done|]. intros [He Hk]. auto. Qed.

Lemma untouched_lifecycle {A} (e : Durable.storeE A) : touches_intents e = false → lifecycle_call e.
Proof using Type. by destruct e. Qed.

Lemma leaves_lifecycle {A} (p : program A) : leaves_intents p → lifecycle_calls p.
Proof using Type.
  apply calls_in_impl. intros X [| |B e|B e]; try done. apply untouched_lifecycle.
Qed.

Lemma lifecycle_bind {A B} (p : program A) (f : A → program B) :
  lifecycle_calls p → (∀ a, lifecycle_calls (f a)) → lifecycle_calls (prog_bind p f).
Proof using Type. apply store_calls_in_bind. Qed.

Lemma lifecycle_durable {A} (e : Durable.storeE A) : lifecycle_call e → lifecycle_calls (durable e).
Proof using Type. done. Qed.

Lemma lifecycle_ret {A} (a : A) : lifecycle_calls (Ret a).
Proof using Type. done. Qed.

Lemma lifecycle_now : lifecycle_calls now.
Proof using Type. done. Qed.

Lemma lifecycle_uuid : lifecycle_calls (call NewString).
Proof using Type. done. Qed.

Lemma lifecycle_when_publishing {A} (yes : DeconflictionCoordinator → program A) no :
  (∀ d, CoordinatorLaw d → lifecycle_calls (yes d)) → lifecycle_calls no →
  lifecycle_calls (when_publishing deconfliction yes no).
Proof using Hlaw.
  intros Hy Hn. unfold when_publishing. destruct deconfliction as [d|]; [|done]. pose proof (Hlaw : CoordinatorLaw d).
  apply lifecycle_bind; [apply leaves_lifecycle, PublishingEnabled_law|]. intros [|]; auto.
Qed.

(** Walks through a program: binds, branches, calls. *)
Ltac walk_calls :=
  repeat first
    [ apply lifecycle_ret | apply lifecycle_now | apply lifecycle_uuid
    | progress intros
    | apply lifecycle_when_publishing
    | apply lifecycle_bind
    | apply leaves_lifecycle; first [apply CheckIntent_law | apply ValidatePublication_law
        | apply PublicationRequest_law | apply GetPublication_law | apply ReconcileIntent_law]
    | apply lifecycle_durable; done
    | case_match ].

Lemma modify_inert intent fields now :
  ¬ is_active intent →
  inert ((applyIntentModification (next_draft intent) fields) <| Intent_UpdatedAt := now |>).
Proof using Type.
  intros Ha. unfold inert, is_active, is_accepted, next_draft in *. cbn.
  destruct (String.eqb_spec (Intent_Status intent) IntentStatusAccepted); done.
Qed.

Lemma CreateIntent_calls req : lifecycle_calls (CreateIntent uuid_Parse deconfliction req).
Proof using Hlaw.
  unfold CreateIntent. walk_calls. apply lifecycle_durable. unfold lifecycle_call, intent_of_request.
  cbn. by repeat case_match.
Qed.

Lemma AddOperationalVolume_calls id req : lifecycle_calls (AddOperationalVolume id req).
Proof using Type. unfold AddOperationalVolume. walk_calls. Qed.

Lemma ModifyIntent_calls id req : lifecycle_calls (ModifyIntent id req).
Proof using Type.
  unfold ModifyIntent, modifyVolumeRequests. walk_calls. apply lifecycle_durable.
  apply modify_inert. intros Ha. unfold is_active in Ha.
  match goal with H : (Intent_Status _ =s= IntentStatusActive) = false |- _ => by rewrite Ha in H end.
Qed.

Lemma transitionIntent_calls id next allowed mutate :
  next ≠ IntentStatusActive → next ≠ IntentStatusAccepted →
  (∀ f i now, mutate = Some f → Intent_Status (f i now) = Intent_Status i) →
  lifecycle_calls (transitionIntent id next allowed mutate).
Proof using Type.
  intros Hn1 Hn2 Hm. unfold transitionIntent. walk_calls. apply lifecycle_durable. cbn.
  unfold inert, is_active, is_accepted. destruct mutate as [f|]; [by rewrite (Hm _ _ _ eq_refl)|done].
Qed.

Lemma transitionIntentWithPublication_calls id next allowed mutate desired :
  next ≠ IntentStatusActive → next ≠ IntentStatusAccepted →
  (∀ i now, Intent_Status (mutate i now) = Intent_Status i) →
  lifecycle_calls (transitionIntentWithPublication uuid_Parse deconfliction id next allowed mutate desired).
Proof using Hlaw.
  intros Hn1 Hn2 Hm. unfold transitionIntentWithPublication. walk_calls.
  all: try (apply lifecycle_durable; cbn; unfold inert, is_active, is_accepted; by rewrite Hm).
Qed.

Lemma compensate_calls d id : CoordinatorLaw d → lifecycle_calls (compensatePublishedActivation d id).
Proof using Type. intros Hd. unfold compensatePublishedActivation. walk_calls. Qed.

Lemma publish_activation_calls d intent :
  CoordinatorLaw d → lifecycle_calls (publish_activation uuid_Parse d intent).
Proof using Type.
  intros Hd. unfold publish_activation, accepted_publication. walk_calls.
Qed.

Lemma AcceptIntent_calls id : lifecycle_calls (AcceptIntent uuid_Parse deconfliction id).
Proof using Hlaw. unfold AcceptIntent. walk_calls. Qed.

Lemma ActivateIntent_calls id : lifecycle_calls (ActivateIntent uuid_Parse deconfliction id).
Proof using Hlaw.
  unfold ActivateIntent, activationReadiness. walk_calls; [|by apply publish_activation_calls].
  subst deconfliction. apply leaves_lifecycle. by apply (@CheckIntent_law d Hlaw).
Qed.

Lemma service_request_calls A (p : program A) : service_request A p → lifecycle_calls p.
Proof using Hlaw.
  destruct 1; [apply CreateIntent_calls|unfold GetIntent; walk_calls|apply AddOperationalVolume_calls
    |apply ModifyIntent_calls| |apply AcceptIntent_calls|apply ActivateIntent_calls| |].
  - apply transitionIntent_calls; [done..|]. by intros f i now [= <-].
  - by apply transitionIntentWithPublication_calls.
  - by apply transitionIntentWithPublication_calls.
Qed.

(** ** Concurrent requests *)

Context {RT : Runtime} {O : Type} {HO : Outside externalE O}.

(** Another client: any call of the store that respects the roles of the
    methods, and anything at all outside the store. *)
Definition client_step (w w' : world Store O) : Prop :=
  store w' = store w
  ∨ ∃ A (e : Durable.storeE A), lifecycle_call e ∧ store w' = (handle_store e (store w)).2.

(** C1: Lifecycle under concurrency.  However requests to the service and other
    clients that leave activation and acceptance to it interleave, at most one
    intent of an aircraft is active and at most one version of an intent is
    accepted at any time. *)
Theorem lifecycle_concurrent A (p : program A) w a w' :
  service_request A p → lifecycle (operationalIntents (store w)) →
  crun handle_api client_step p w a w' → lifecycle (operationalIntents (store w')).
Proof using Hlaw.
  intros Hp Hw Hrun.
  apply (crun_invariant handle_api client_step
           (λ X (e : apiE externalE X), match e with OfStore e => lifecycle_call e | _ => True end)
           (λ w, lifecycle (operationalIntents (store w))) p w a w'); try done.
  - intros X [| |B e|B e] w0 He Hw0; try done; cbn.
    + pose proof (handle_lifecycle _ e (store w0) He Hw0).
      by destruct (handle_store e (store w0)).
    + by destruct (respond e (outside w0)).
  - intros w1 w2 [->|(B & e & He & ->)] Hw1; [done|]. by apply handle_lifecycle.
  - by apply service_request_calls.
Qed.
End calls.

(** ** Witnesses *)

#[local] Existing Instance reference_runtime.

Lemma lifecycle_concurrent_witness :
  let w := demo_world (demo accepted_calls) in
  let p := CancelIntent (λ _, None) None "i1" : prog (apiE no_external) _ in
  is_ok (run handle_api p w).1 = true
  ∧ lifecycle (operationalIntents (store (run handle_api p w).2)).
Proof.
  cbn zeta. split; [vm_compute; reflexivity|].
  eapply (lifecycle_concurrent (λ _, None) None I _ _ (demo_world (demo accepted_calls))).
  - apply request_cancel.
  - apply (handle_lifecycle _ (Durable.AcceptOperationalIntent demo_accepted 0) (demo submitted_calls));
      [reflexivity|].
    apply (handle_lifecycle _ (Durable.RecordOperationalVolume demo_volume)
             (handle_store (Durable.CreateOperationalIntent demo_submitted) NewStore).2); [exact I|].
    apply (handle_lifecycle _ (Durable.CreateOperationalIntent demo_submitted)); [split; discriminate|].
    split; [apply keyed_empty| |]; intros k k' i i' Hk; discriminate Hk.
  - apply run_crun.
Defined.
