(* ===== verification/IntentServiceRuns.v ===== *)
(** * Requests to the intent service as atomic transitions

    A request reads the intent, decides, and writes with a compare-and-set.
    When it succeeds, the whole request took effect at the instant of the
    write: the intent it read was still the stored one, whatever the other
    clients did in between. *)

From S2P Require Import Prelude GoRuntime GoRange Domain Errors Program MemoryState MemoryFleet MemoryIntents MemoryPublications DurableStore MemoryStore MemoryInvariant MemoryReachable Scenario IntentWrites IntentSpecs ProgramLogic IntentService IntentServiceCalls.
From stdpp Require Import options.

(** ** What readiness for activation means *)

Section readiness.
Context {RT : Runtime} {externalE : Type → Type} {O : Type} {HO : Outside externalE O}.
Abbreviation program := (prog (apiE externalE)).

(** A query with an empty identifier lists every record. *)
Definition listed (id key : string) : Prop := id = EmptyString ∨ key = id.

Record activation_ready (i : OperationalIntent) (sv sc sf : Store) : Prop := {
  ready_volumes : ∃ k v, operationalVolumes sv !! k = Some v
    ∧ listed (Intent_ID i) (Volume_IntentID v) ∧ Volume_IntentVersion v = Intent_Version i;
  ready_checks c : c ∈ preflightChecks sc → listed (Intent_ID i) (PreflightCheck_IntentID c) →
    PreflightCheck_IntentVersion c = Intent_Version i → blocking_check c = false;
  ready_fresh : ∃ c, c ∈ preflightChecks sc ∧ listed (Intent_ID i) (PreflightCheck_IntentID c)
    ∧ PreflightCheck_IntentVersion c = Intent_Version i
    ∧ ∀ k v, operationalVolumes sv !! k = Some v → listed (Intent_ID i) (Volume_IntentID v) →
             Volume_IntentVersion v = Intent_Version i → Volume_UpdatedAt v ≤ PreflightCheck_CapturedAt c;
  ready_findings f : f ∈ complianceFindings sf →
    ComplianceFinding_IntentID f = Intent_ID i
    ∨ ComplianceFinding_SubjectType f = "operational_intent" ∧ ComplianceFinding_SubjectID f = Intent_ID i →
    ComplianceFinding_IntentVersion f = Intent_Version i → blocking_finding f = false;
}.

Lemma latestOperationalVolumeUpdatedAt_max volumes v :
  v ∈ volumes → Volume_UpdatedAt v ≤ latestOperationalVolumeUpdatedAt volumes.
Proof using Type.
  unfold latestOperationalVolumeUpdatedAt. generalize zero_Time. intros t0.
  assert (∀ l t, t ≤ foldl (λ latest x, if After (Volume_UpdatedAt x) latest then Volume_UpdatedAt x else latest) t l)
    as Hmono.
  { induction l as [|x l IH]; intros t; cbn; [lia|]. etrans; [|apply IH]. unfold After. case_match; lia. }
  revert t0. induction volumes as [|x l IH]; intros t0; [by intros ?%elem_of_nil|].
  intros [->|Hv]%elem_of_cons; cbn; [|by apply IH].
  etrans; [|apply Hmono]. unfold After. case_match; lia.
Qed.

Lemma elem_of_listed_volumes id version s volumes s' v :
  handle_store (Durable.ListOperationalVolumes id) s = (Ok volumes, s') →
  v ∈ volumesForVersion volumes version ↔
  (∃ k, operationalVolumes s !! k = Some v) ∧ listed id (Volume_IntentID v) ∧ Volume_IntentVersion v = version.
Proof using Type.
  intros [= <- _]. unfold volumesForVersion, listed.
  rewrite elem_of_select, elem_of_sort_slice, elem_of_select, elem_of_range_values, orb_true_iff,
    !String.eqb_eq, Z.eqb_eq. tauto.
Qed.

Lemma elem_of_listed_checks id version s checks s' c :
  handle_store (Durable.ListPreflightChecks id) s = (Ok checks, s') →
  c ∈ preflightChecksForVersion checks version ↔
  c ∈ preflightChecks s ∧ listed id (PreflightCheck_IntentID c) ∧ PreflightCheck_IntentVersion c = version.
Proof using Type.
  intros [= <- _]. unfold preflightChecksForVersion, listed.
  rewrite elem_of_select, elem_of_sort_slice, elem_of_select, orb_true_iff, !String.eqb_eq, Z.eqb_eq.
  tauto.
Qed.

Lemma elem_of_listed_findings id version s findings s' f :
  handle_store (Durable.ListComplianceFindingsForIntent id) s = (Ok findings, s') →
  f ∈ complianceFindingsForVersion findings version ↔
  f ∈ complianceFindings s
  ∧ (ComplianceFinding_IntentID f = id
     ∨ ComplianceFinding_SubjectType f = "operational_intent" ∧ ComplianceFinding_SubjectID f = id)
  ∧ ComplianceFinding_IntentVersion f = version.
Proof using Type.
  intros [= <- _]. unfold complianceFindingsForVersion.
  rewrite elem_of_select, elem_of_sort_slice, elem_of_select, orb_true_iff, andb_true_iff,
    !String.eqb_eq, Z.eqb_eq. tauto.
Qed.

Context (client : Store → Store → Prop).

Lemma activationReadiness_ready i w w' :
  crun handle_api (other_client client) (activationReadiness i : program _) w (Ok tt) w' →
  ∃ sv sc sf, rtc client (store w) sv ∧ rtc client sv sc ∧ rtc client sc sf
    ∧ rtc client sf (store w') ∧ activation_ready i sv sc sf.
Proof using Type.
  unfold activationReadiness. intros Hrun.
  apply crun_try in Hrun as (w1 & volumes & w2 & Hw1 & Hv & Hrun).
  pose proof (λ v, elem_of_listed_volumes _ (Intent_Version i) _ _ _ v Hv) as Hvs.
  assert (store w2 = store w1) as Hw2 by (by injection Hv as _ ->).
  destruct (volumesForVersion volumes (Intent_Version i)) as [|v0 vs] eqn:Evs; [by destruct Hrun|].
  apply crun_try in Hrun as (w3 & checks & w4 & Hw3 & Hc & Hrun).
  pose proof (λ c, elem_of_listed_checks _ (Intent_Version i) _ _ _ c Hc) as Hcs.
  assert (store w4 = store w3) as Hw4 by (by injection Hc as _ ->).
  destruct (preflightChecksForVersion checks (Intent_Version i)) as [|c0 cs] eqn:Ecs; [by destruct Hrun|].
  destruct (List.find blocking_check (c0 :: cs)) eqn:Hblock; [by destruct Hrun|].
  destruct (existsb _ (c0 :: cs)) eqn:Hfresh; cbn [negb] in Hrun; [|by destruct Hrun].
  apply crun_try in Hrun as (w5 & findings & w6 & Hw5 & Hf & Hrun).
  pose proof (λ f, elem_of_listed_findings _ (Intent_Version i) _ _ _ f Hf) as Hfs.
  assert (store w6 = store w5) as Hw6 by (by injection Hf as _ ->).
  destruct (List.find blocking_finding _) eqn:Hfind; [by destruct Hrun|].
  apply crun_ret in Hrun as [_ Hw'].
  exists (store w1), (store w3), (store w5). rewrite Hw2 in Hw3. rewrite Hw4 in Hw5. rewrite Hw6 in Hw'.
  do 4 (split; [done|]). split.
  - destruct (proj1 (Hvs v0)) as [[k Hk] ?]; [by left|]. eauto 10.
  - intros c Hin Hl Hver. apply (List.find_none _ _ Hblock), list_elem_of_In, Hcs. done.
  - apply existsb_elem in Hfresh as (c & Hin & Hcap). exists c.
    pose proof Hin as (? & ? & ?)%Hcs. do 3 (split; [done|]). intros k v Hk Hl Hver.
    assert (Volume_UpdatedAt v ≤ latestOperationalVolumeUpdatedAt (v0 :: vs)) as Hle.
    { apply latestOperationalVolumeUpdatedAt_max, Hvs. eauto. }
    unfold Before in Hcap. to_prop. lia.
  - intros f Hin Hs Hver. apply (List.find_none _ _ Hfind), list_elem_of_In, Hfs. done.
Qed.
End readiness.

Section runs.
Context {RT : Runtime}.

(** ** What a successful compare-and-set tells *)

Lemma cas_success A (e : Durable.storeE A) s a s' id v r :
  compare_and_set e = Some (id, v, r) → handle_store e s = (Ok a, s') →
  ∃ current, latestOperationalIntent s id = Some current
             ∧ Intent_Version current = v ∧ Intent_Revision current = r.
Proof using Type.
  assert (∀ i r s s' u, updateOperationalIntentLocked i r s = (Ok u, s') →
    ∃ current, latestOperationalIntent s (Intent_ID i) = Some current
               ∧ Intent_Version current = Intent_Version i ∧ Intent_Revision current = r) as Hu.
  { intros i r0 s0 s0' u. unfold updateOperationalIntentLocked.
    destruct (latestOperationalIntent s0 (Intent_ID i)) as [c|]; [|done].
    destruct (_ || _) eqn:Ht; [done|]. to_prop. intros _. eauto. }
  assert (∀ i r s s' u, acceptOperationalIntentLocked i r s = (Ok u, s') →
    ∃ current, latestOperationalIntent s (Intent_ID i) = Some current
               ∧ Intent_Version current = Intent_Version i ∧ Intent_Revision current = r) as Ha.
  { intros i r0 s0 s0' [] (c & Hc & Hv & Hr & _)%acceptOperationalIntentLocked_Ok. eauto. }
  intros Hcas Hok. destruct e; simplify_eq/=; cbn in Hok; eauto.
  - revert Hok. unfold ActivateOperationalIntent.
    destruct (latestOperationalIntent s (Intent_ID intent)) as [c|]; [|done].
    destruct (_ || _) eqn:Ht; [done|]. to_prop. intros _. eauto.
  - revert Hok. unfold ReplaceOperationalIntent. destruct (_ && _); [done|].
    destruct (volume_outside_scope _ _ _); [done|].
    destruct (latestOperationalIntent s (Intent_ID intent)) as [c|]; [|done].
    destruct (Intent_Version c <>z v) eqn:Hv; [done|].
    destruct (Intent_Revision c <>z r) eqn:Hr; [done|]. to_prop. eauto.
  - revert Hok. unfold AcceptOperationalIntentAndRequestPublication.
    destruct (acceptOperationalIntentLocked intent r s) as [[] s1] eqn:E; [|done]. intros _. eauto.
  - revert Hok. unfold UpdateOperationalIntentAndRequestPublication.
    destruct (updateOperationalIntentLocked intent r s) as [[] s1] eqn:E; [|done]. intros _. eauto.
Qed.

(** An intent read in [s1] and written in [s3] with its version and revision
    was still the stored one in [s3]. *)
Lemma cas_reads_current A (e : Durable.storeE A) s1 s3 id i a s4 :
  store_wf s1 → rtc bounded_step s1 s3 → latestOperationalIntent s1 id = Some i →
  compare_and_set e = Some (id, Intent_Version i, Intent_Revision i) →
  handle_store e s3 = (Ok a, s4) → latestOperationalIntent s3 id = Some i.
Proof using Type.
  intros Hs1 Hsteps Hi Hcas Hok. destruct (bounded_steps_evolve _ _ Hsteps Hs1) as [Hs3 Hev].
  destruct (cas_success _ e _ _ _ _ _ _ Hcas Hok) as (c & Hc & Hv & Hr). rewrite Hc. f_equal.
  apply latest_row in Hi as [Hi Hid]; [|apply Hs1].
  apply latest_row in Hc as [Hc Hcd]; [|apply Hs3].
  assert (intent_key c = intent_key i) as Hk by (apply intent_key_inj; split; congruence).
  specialize (Hev (intent_key i)). rewrite Hi, <- Hk, Hc in Hev. destruct Hev as [->|?]; [done|lia].
Qed.

(** ** Runs among other clients *)

Context {externalE : Type → Type} {O : Type} {HO : Outside externalE O}.
Abbreviation program := (prog (apiE externalE)).
Abbreviation wrun := (crun (S := world Store O) handle_api (other_client bounded_step)).

Lemma bounded_steps_wf s s' : rtc bounded_step s s' → store_wf s → store_wf s'.
Proof using Type. intros Hs Hwf. by destruct (bounded_steps_evolve _ _ Hs Hwf). Qed.

(** A read of the intent. *)
Lemma GetOperationalIntent_Ok id s i s' :
  handle_store (Durable.GetOperationalIntent id) s = (Ok i, s') →
  s' = s ∧ latestOperationalIntent s id = Some i.
Proof using Type.
  cbn. unfold GetOperationalIntent. destruct (latestOperationalIntent s id); [|done]. by intros [= -> <-].
Qed.

(** *** The written row is the one a reader gets, revision included *)

Lemma range_update_none (m : gmap string OperationalIntent) : range_update (λ _, false) (λ i, i) m = m.
Proof using Type. apply map_eq. intros k. rewrite lookup_range_update. by destruct (m !! k). Qed.

Lemma written_row s c i' P f :
  keyed intent_key (operationalIntents s) →
  latestOperationalIntent s (Intent_ID i') = Some c → Intent_Version c = Intent_Version i' →
  P i' = false → (∀ j, intent_key (f j) = intent_key j) →
  let m := range_update P f (<[intent_key i' := i']> (operationalIntents s)) in
  latestOperationalIntent (s <| operationalIntents := m |>) (Intent_ID i') = Some i'.
Proof using Type.
  intros Hk Hc Hv HP Hf m. apply latestOperationalIntent_Some in Hc as (_ & _ & Hmax); [|done].
  assert (keyed intent_key m).
  { apply keyed_range_update; [|done]. by apply keyed_insert. }
  apply latestOperationalIntent_iff; [done|]. change (operationalIntentKey _ _) with (intent_key i').
  cbn. split; [|split; [done|]].
  - subst m. rewrite lookup_range_update, lookup_insert_eq. cbn. by rewrite HP.
  - intros k j. subst m. rewrite lookup_range_update, fmap_Some. intros (j0 & Hj0 & Hj) Hjd.
    assert (intent_key j = intent_key j0) as [Hd Hjv]%intent_key_inj
      by (destruct (P j0); subst j; [apply Hf|done]).
    rewrite Hjv. apply lookup_insert_Some in Hj0 as [[_ <-]|[_ Hj0]]; [done|].
    rewrite <- Hv. apply (Hmax _ _ Hj0). congruence.
Qed.

Lemma updateOperationalIntentLocked_reads_back intent r s s' :
  store_wf s → updateOperationalIntentLocked intent r s = (Ok tt, s') →
  latestOperationalIntent s' (Intent_ID intent) = Some (intent <| Intent_Revision := int64_succ r |>).
Proof using Type.
  intros Hs. unfold updateOperationalIntentLocked.
  destruct (latestOperationalIntent s (Intent_ID intent)) as [c|] eqn:Hc; [|done].
  destruct (_ || _) eqn:Ht; [done|]. destruct (hasOutstandingMissionDeploymentForIntentLocked _ _); [done|].
  intros [= <-]. to_prop. set (i' := intent <| Intent_Revision := int64_succ r |>). case_match.
  - apply (written_row s c i'); [apply Hs|done|done|apply prior_accepted_self|done].
  - rewrite <- (range_update_none (<[_ := _]> _)). by apply (written_row s c i'); [apply Hs| | | |].
Qed.

Lemma acceptOperationalIntentLocked_reads_back intent r s s' :
  store_wf s → acceptOperationalIntentLocked intent r s = (Ok tt, s') →
  latestOperationalIntent s' (Intent_ID intent) = Some (intent <| Intent_Revision := int64_succ r |>).
Proof using Type.
  intros Hs (c & Hc & Hv & _ & _ & ->)%acceptOperationalIntentLocked_Ok.
  set (i' := intent <| Intent_Revision := int64_succ r |>).
  apply (written_row s c i'); [apply Hs|done|done|apply prior_accepted_self|done].
Qed.

Lemma ActivateOperationalIntent_reads_back intent r s s' :
  store_wf s → ActivateOperationalIntent intent r s = (Ok tt, s') →
  latestOperationalIntent s' (Intent_ID intent) = Some (intent <| Intent_Revision := int64_succ r |>)
  ∧ ∀ k j, operationalIntents s !! k = Some j → k ≠ intent_key intent → is_active j →
           Intent_AircraftID j ≠ Intent_AircraftID intent.
Proof using Type.
  intros Hs. unfold ActivateOperationalIntent.
  destruct (latestOperationalIntent s (Intent_ID intent)) as [c|]; [|done].
  destruct (_ || _); [done|]. destruct (range_any _ _) eqn:Hother; [done|]. intros Hok.
  split; [by eapply updateOperationalIntentLocked_reads_back|].
  intros k j Hj Hk Ha Hac. rewrite range_any_false in Hother. specialize (Hother _ _ Hj).
  unfold other_active, is_active in *. rewrite Hac, Ha, !String.eqb_refl, !andb_true_r in Hother.
  to_prop. apply Hk. apply (wf_intents _ Hs) in Hj as ->. by apply intent_key_inj.
Qed.

(** ** Transitions *)

(** The request took effect in one step, from [s1] to [s2]: the intent read
    was the stored one in [s1], it was in one of the allowed states, and the
    intent returned is the one stored in [s2]. *)
Definition takes_effect (w w' : world Store O) (id : string) (i' : OperationalIntent)
    (P : OperationalIntent → Store → Prop) : Prop :=
  ∃ i s1 s2,
    rtc bounded_step (store w) s1 ∧ store_wf s1
    ∧ latestOperationalIntent s1 id = Some i ∧ P i s1 ∧ step s1 s2
    ∧ latestOperationalIntent s2 id = Some i'
    ∧ rtc bounded_step s2 (store w').

(** Atomic transitions.  A transition (submission, and without a coordinator
    completion and cancellation) that succeeds among any other clients took
    effect in one step on the intent that was stored at that instant, which
    was in one of the states the transition starts from; and the intent it
    returns, its revision included, is the one then stored. *)
Theorem transition_atomic id next allowed mutate w i' w' :
  store_wf (store w) →
  (∀ f i now, mutate = Some f → Intent_ID (f i now) = Intent_ID i
              ∧ Intent_Version (f i now) = Intent_Version i) →
  wrun (transitionIntent id next allowed mutate : program _) w (Ok i') w' →
  takes_effect w w' id i' (λ i s1,
    allows allowed (Intent_Status i) = true
    ∧ ∃ now, let written := i <| Intent_Status := next |> <| Intent_UpdatedAt := now |> in
      i' = (match mutate with Some f => f written now | None => written end)
             <| Intent_Revision := int64_succ (Intent_Revision i) |>).
Proof using Type.
  intros Hs Hm Hrun. unfold transitionIntent in Hrun.
  apply crun_try in Hrun as (w1 & i & w2 & Hw1 & [Hw2 Hi]%GetOperationalIntent_Ok & Hrun).
  destruct (allows allowed (Intent_Status i)) eqn:Hall; cbn [negb] in Hrun; [|by destruct Hrun].
  apply crun_now in Hrun as (w3 & t & Hw3 & Hrun).
  apply crun_try in Hrun as (w4 & [] & w5 & Hw4 & Hok & Hrun).
  apply crun_ret in Hrun as [[= ->] Hw']. rewrite Hw2 in Hw3.
  assert (rtc bounded_step (store w1) (store w4)) as Hpath by by etrans.
  pose proof (bounded_steps_wf _ _ Hw1 Hs) as Hs1. pose proof (bounded_steps_wf _ _ Hpath Hs1) as Hs4.
  pose proof (latest_row _ _ _ (wf_intents _ Hs1) Hi) as [_ Hid].
  set (written := i <| Intent_Status := next |> <| Intent_UpdatedAt := UTC t |>) in *.
  set (changed := match mutate with Some f => f written (UTC t) | None => written end) in *.
  assert (Intent_ID changed = id ∧ Intent_Version changed = Intent_Version i) as [Hcd Hcv].
  { subst changed. destruct mutate as [f|]; [|done].
    destruct (Hm f written (UTC t) eq_refl) as [-> ->]. done. }
  exists i, (store w4), (store w5). split; [by etrans|]. split; [done|]. split.
  { eapply (cas_reads_current _ (Durable.UpdateOperationalIntent changed (Intent_Revision i))); [exact Hs1|exact Hpath|done| |exact Hok].
    cbn. by rewrite Hcd, Hcv. }
  split; [split; [done|]; by exists (UTC t)|]. split; [by eapply handled_step|]. split; [|done].
  rewrite <- Hcd. by apply (updateOperationalIntentLocked_reads_back _ _ (store w4)).
Qed.

(** ** Activation *)

(** A program that leaves the intents alone is a sequence of bounded steps. *)
Lemma leaves_intents_steps A (p : program A) w a w' :
  leaves_intents p → wrun p w a w' → rtc bounded_step (store w) (store w').
Proof using Type.
  revert w. induction p as [b|X e k IH]; intros w Hp Hrun.
  { by apply crun_ret in Hrun as [_ Hw]. }
  destruct Hp as [He Hk], Hrun as (w1 & Hw1%other_clients_store & Hrun).
  specialize (IH _ _ (Hk _) Hrun). etrans; [exact Hw1|]. etrans; [|exact IH].
  destruct e as [| |B e|B e]; cbn; try done.
  - pose proof (intents_frame _ e (store w1) He) as Hframe.
    destruct (handle_store e (store w1)) as [r s2] eqn:Hok. apply rtc_once. split; [by eapply handled_step|by right].
  - by destruct (respond e (outside w1)).
Qed.

Lemma publish_activation_leaves uuid_Parse d intent :
  CoordinatorLaw d → leaves_intents (publish_activation uuid_Parse d intent : program _).
Proof using Type.
  intros Hd. unfold publish_activation, accepted_publication, compensatePublishedActivation.
  repeat first
    [ done | progress intros
    | apply CheckIntent_law | apply PublicationRequest_law | apply GetPublication_law | apply ReconcileIntent_law
    | apply store_calls_in_bind | case_match ].
Qed.

(** The coordinator's check of an intent, which found no conflict. *)
Definition checked_clear (deconfliction : option DeconflictionCoordinator) (id : string) (w : world Store O)
    (s' : Store) : Prop :=
  match deconfliction with
  | None => rtc bounded_step (store w) s'
  | Some d => ∃ result w', wrun (CheckIntent d id) w (Ok result) w'
      ∧ DeconflictionResult_Posture result = DeconflictionPostureClear ∧ rtc bounded_step (store w') s'
  end.


(** ** Acceptance *)

(** Acceptance by the service.  Without a coordinator, an acceptance that
    succeeds among any other clients took effect in one step on the intent
    stored at that instant, which was submitted or under review. *)
Theorem acceptance_atomic uuid_Parse id w i' w' :
  store_wf (store w) →
  wrun (AcceptIntent uuid_Parse None id : program _) w (Ok i') w' →
  takes_effect w w' id i' (λ i s1,
    (Intent_Status i = IntentStatusSubmitted ∨ Intent_Status i = IntentStatusReview)
    ∧ ∃ now, i' = i <| Intent_Status := IntentStatusAccepted |> <| Intent_AcceptedAt := Some now |>
                    <| Intent_UpdatedAt := now |> <| Intent_Revision := int64_succ (Intent_Revision i) |>).
Proof using Type.
  intros Hs Hrun. unfold AcceptIntent in Hrun.
  apply crun_try in Hrun as (w1 & i & w2 & Hw1 & [Hw2 Hi]%GetOperationalIntent_Ok & Hrun).
  destruct (_ && _) eqn:Hst; [by destruct Hrun|]. cbn [when_publishing prog_bind] in Hrun.
  apply crun_now in Hrun as (w3 & t & Hw3 & Hrun).
  set (accepted := i <| Intent_Status := IntentStatusAccepted |> <| Intent_AcceptedAt := Some (UTC t) |>
                     <| Intent_UpdatedAt := UTC t |>) in *.
  apply crun_bind in Hrun as (r & w6 & Hwrite & Hrun).
  apply crun_store in Hwrite as (w4 & Hw4 & Hwrite).
  destruct (handle_store _ (store w4)) as [[[]|err] s5] eqn:Hok; cbn [fst snd] in Hwrite.
  2: { destruct Hwrite as [-> _]. by destruct Hrun. }
  apply crun_ret in Hwrite as [-> Hw6]. apply crun_ret in Hrun as [[= ->] Hw']. cbn in Hw6.
  rewrite Hw2 in Hw3. assert (rtc bounded_step (store w1) (store w4)) as Hpath by by etrans.
  pose proof (bounded_steps_wf _ _ Hw1 Hs) as Hs1. pose proof (bounded_steps_wf _ _ Hpath Hs1) as Hs4.
  pose proof (latest_row _ _ _ (wf_intents _ Hs1) Hi) as [_ Hid].
  exists i, (store w4), s5. split; [by etrans|]. split; [done|]. split.
  { eapply (cas_reads_current _ (Durable.AcceptOperationalIntent accepted (Intent_Revision i)));
      [exact Hs1|exact Hpath|done| |exact Hok]. cbn. by rewrite Hid. }
  split; [|split; [by eapply handled_step|split; [|by etrans]]].
  - split; [|by exists (UTC t)]. apply andb_false_iff in Hst as [Hst|Hst]; to_prop; auto.
  - rewrite <- Hid. by apply (acceptOperationalIntentLocked_reads_back accepted _ (store w4)).
Qed.

(** ** Modification *)

Lemma ReplaceOperationalIntent_reads_back intent volumes v r s s' :
  store_wf s → room v → ReplaceOperationalIntent v r intent volumes s = (Ok tt, s') →
  latestOperationalIntent s' (Intent_ID intent)
    = Some (intent <| Intent_Revision := if Intent_Version intent =? v then int64_succ r else 0 |>)
  ∧ (Intent_Version intent ≠ v → ∀ k i, operationalIntents s !! k = Some i →
       operationalIntents s' !! k = Some i).
Proof using Type.
  intros Hs Hroom. pose proof (wf_intents _ Hs) as Hk. unfold room in Hroom. unfold ReplaceOperationalIntent.
  destruct (_ && _) eqn:Hver; [done|]. destruct (volume_outside_scope _ _ _); [done|].
  destruct (latestOperationalIntent s (Intent_ID intent)) as [c|] eqn:Hc; [|done].
  destruct (Intent_Version c <>z v) eqn:Hv; [done|]. destruct (Intent_Revision c <>z r) eqn:Hr; [done|].
  destruct (hasOutstandingMissionDeploymentForIntentLocked _ _); [done|]. intros [= <-]. to_prop.
  apply latestOperationalIntent_Some in Hc as (Hc & Hid & Hmax); [|done].
  assert (Intent_Version intent = v ∨ Intent_Version intent = v + 1) as Hvv.
  { rewrite int64_succ_small in Hver by lia. destruct Hver; to_prop; auto. }
  rewrite Hv. set (i' := if _ =? v then _ else _).
  assert (i' = intent <| Intent_Revision := if Intent_Version intent =? v then int64_succ r else 0 |>) as Hi'.
  { subst i'. by case_match. }
  rewrite <- Hi'. assert (intent_key i' = intent_key intent) as Hki by by rewrite Hi'.
  assert (Intent_ID i' = Intent_ID intent ∧ Intent_Version i' = Intent_Version intent) as [Hid' Hv']
    by by apply intent_key_inj.
  split.
  - apply latestOperationalIntent_iff; [by apply keyed_insert|]. cbn.
    rewrite <- Hid'. change (operationalIntentKey _ _) with (intent_key i').
    rewrite lookup_insert_eq. do 2 (split; [done|]). intros k j [[_ <-]|[_ Hj]]%lookup_insert_Some Hjd; [done|].
    rewrite Hid' in Hjd. specialize (Hmax _ _ Hj Hjd). lia.
  - intros Hne k j Hj. cbn. rewrite lookup_insert_ne; [done|]. intros <-.
    pose proof (Hk _ _ Hj) as [Hd Hvj]%intent_key_inj. rewrite Hid' in Hd. specialize (Hmax _ _ Hj (eq_sym Hd)).
    lia.
Qed.

Lemma applyIntentModification_key intent fields :
  Intent_ID (applyIntentModification intent fields) = Intent_ID intent
  ∧ Intent_Version (applyIntentModification intent fields) = Intent_Version intent
  ∧ Intent_Status (applyIntentModification intent fields) = Intent_Status intent.
Proof using Type. done. Qed.

(** The revision the service sets on the intent it returns. *)
Lemma stored_fields (b : bool) i r :
  let stored := if b then i <| Intent_Revision := r |> else i <| Intent_Revision := 0 |> in
  Intent_Status stored = Intent_Status i ∧ Intent_Version stored = Intent_Version i.
Proof using Type. by destruct b. Qed.

(** Modification.  A modification that succeeds among any other clients took
    effect in one step on the intent stored at that instant, at the version
    the client expected, in draft, submitted or accepted state.  A draft or a
    submitted intent is changed in place; an accepted one stays stored as it
    was, and the modification is a draft of the next version.  The intent
    returned is the one then stored. *)
Theorem modification_atomic id req w res w' :
  store_wf (store w) → room (Modify_ExpectedVersion req) →
  wrun (ModifyIntent id req : program _) w (Ok res) w' →
  ∃ i s1 s2,
    rtc bounded_step (store w) s1
    ∧ latestOperationalIntent s1 id = Some i ∧ Intent_Version i = Modify_ExpectedVersion req
    ∧ step s1 s2
    ∧ latestOperationalIntent s2 id = Some (ModifyResult_Intent res)
    ∧ (if decide (is_accepted i) then
         operationalIntents s2 !! intent_key i = Some i
         ∧ Intent_Status (ModifyResult_Intent res) = IntentStatusDraft
         ∧ Intent_Version (ModifyResult_Intent res) = Intent_Version i + 1
         ∧ ModifyResult_SupersedesVersion res = Intent_Version i
       else
         (Intent_Status i = IntentStatusDraft ∨ Intent_Status i = IntentStatusSubmitted)
         ∧ Intent_Status (ModifyResult_Intent res) = Intent_Status i
         ∧ Intent_Version (ModifyResult_Intent res) = Intent_Version i)
    ∧ rtc bounded_step s2 (store w').
Proof using Type.
  intros Hs Hroom Hrun. unfold ModifyIntent in Hrun.
  apply crun_try in Hrun as (w1 & i & w2 & Hw1 & [Hw2 Hi]%GetOperationalIntent_Ok & Hrun).
  destruct (Modify_ExpectedVersion req =? 0); [by destruct Hrun|].
  destruct (Modify_ExpectedVersion req <>z Intent_Version i) eqn:Hver; [by destruct Hrun|].
  destruct (Intent_Status i =s= IntentStatusActive); [by destruct Hrun|].
  destruct (_ && _) eqn:Hst; [by destruct Hrun|]. to_prop.
  apply crun_now in Hrun as (w3 & t & Hw3 & Hrun). cbn zeta in Hrun.
  set (modified := (applyIntentModification (next_draft i) (Modify_Intent req)) <| Intent_UpdatedAt := UTC t |>) in *.
  destruct (validateIntentWindow modified); [by destruct Hrun|].
  apply crun_bind in Hrun as (reqs & w4 & Hreqs & Hrun).
  assert (rtc bounded_step (store w3) (store w4)) as Hw4.
  { unfold modifyVolumeRequests in Hreqs. destruct (Modify_Volumes req).
    - by apply crun_ret in Hreqs as [_ ?].
    - apply crun_store in Hreqs as (wv & Hwv & Hreqs). cbn [handle_store memory_store fst snd] in Hreqs.
      unfold ListOperationalVolumes in Hreqs. apply crun_ret in Hreqs as [_ ?]. by etrans. }
  destruct reqs as [reqs|err]; [|by destruct Hrun].
  destruct (build_volumes modified (UTC t) 0 reqs) as [volumes|err]; [|by destruct Hrun].
  apply crun_try in Hrun as (w5 & [] & w6 & Hw5 & Hok & Hrun).
  apply crun_ret in Hrun as [[= ->] Hw']. cbn [ModifyResult_Intent ModifyResult_SupersedesVersion].
  rewrite Hw2 in Hw3.
  assert (rtc bounded_step (store w1) (store w5)) as Hpath by (etrans; [done|]; by etrans).
  pose proof (bounded_steps_wf _ _ Hw1 Hs) as Hs1. pose proof (bounded_steps_wf _ _ Hpath Hs1) as Hs5.
  pose proof (latest_row _ _ _ (wf_intents _ Hs1) Hi) as [_ Hid].
  assert (Intent_ID modified = id) as Hmd by (subst modified; cbn; unfold next_draft; by case_match).
  assert (latestOperationalIntent (store w5) id = Some i) as Hi5.
  { eapply (cas_reads_current _ (Durable.ReplaceOperationalIntent (Intent_Version i) (Intent_Revision i) modified volumes));
      [exact Hs1|exact Hpath|done| |exact Hok]. cbn [compare_and_set]. by rewrite Hmd. }
  rewrite Hver in Hroom.
  destruct (ReplaceOperationalIntent_reads_back modified volumes _ _ _ _ Hs5 Hroom Hok) as [Hback Hkeep].
  rewrite Hmd in Hback.
  exists i, (store w5), (store w6). split; [by etrans|]. split; [done|]. split; [done|].
  split; [by eapply handled_step|].
  change (Intent_Version (next_draft i)) with (Intent_Version modified).
  split; [rewrite Hback; by destruct (Intent_Version modified =? Intent_Version i)|]. split; [|done].
  destruct (stored_fields (Intent_Version modified =? Intent_Version i) modified (int64_succ (Intent_Revision i)))
    as [-> ->].
  assert (Intent_Status modified = Intent_Status (next_draft i)) as -> by done.
  assert (Intent_Version modified = Intent_Version (next_draft i)) as Hmv by done.
  rewrite Hmv in Hkeep |- *. clear Hmv Hok Hback. clearbody modified.
  unfold next_draft, is_accepted in *.
  destruct (String.eqb_spec (Intent_Status i) IntentStatusAccepted) as [Ha|Ha].
  - rewrite decide_True by done. cbn in *. unfold room in Hroom. rewrite int64_succ_small in * by lia.
    split; [|done]. apply Hkeep; [lia|]. by apply latest_row in Hi5 as [? _]; [|apply Hs5].
  - rewrite decide_False by done. split; [|done].
    destruct Hst as [Hst|Hst]; to_prop; [destruct Hst as [Hst|Hst]; to_prop; auto|done].
Qed.
End runs.

(** ** Witnesses *)

#[local] Existing Instance reference_runtime.

Abbreviation demo_run p calls := (run (handle_api (externalE := no_external)) p (demo_world (demo calls))).

Lemma transition_atomic_witness :
  ∃ i' w', demo_run (SubmitIntent "i1") [StoreCall (Durable.CreateOperationalIntent demo_draft)] = (Ok i', w')
    ∧ ∃ i s1 s2, latestOperationalIntent s1 "i1" = Some i ∧ Intent_Status i = IntentStatusDraft
                 ∧ latestOperationalIntent s2 "i1" = Some i'.
Proof.
  do 2 eexists. split; [vm_compute; reflexivity|].
  edestruct (transition_atomic (externalE := no_external) (HO := no_outside) "i1"
    IntentStatusSubmitted [IntentStatusDraft]
    (Some (λ intent now, intent <| Intent_SubmittedAt := Some now |>))
    (demo_world (demo [StoreCall (Durable.CreateOperationalIntent demo_draft)])))
    as (i & s1 & s2 & _ & _ & H3 & (H4 & _) & _ & H6 & _);
    [apply demo_wf|intros f i now [= <-]; split; reflexivity|apply run_alone; vm_compute; reflexivity|].
  exists i, s1, s2. split; [exact H3|]. split; [|exact H6].
  unfold allows in H4. apply existsb_elem in H4 as (st & ->%list_elem_of_singleton & H4).
  symmetry. by apply String.eqb_eq in H4.
Defined.


Lemma acceptance_atomic_witness :
  ∃ i' w', demo_run (AcceptIntent (λ _, None) None "i1") submitted_calls = (Ok i', w')
    ∧ ∃ i s1, latestOperationalIntent s1 "i1" = Some i
              ∧ (Intent_Status i = IntentStatusSubmitted ∨ Intent_Status i = IntentStatusReview).
Proof.
  do 2 eexists. split; [vm_compute; reflexivity|].
  edestruct (acceptance_atomic (externalE := no_external) (HO := no_outside) (λ _, None) "i1"
              (demo_world (demo submitted_calls)))
    as (i & s1 & s2 & _ & _ & H3 & (H4 & _) & _); [apply demo_wf|apply run_alone; vm_compute; reflexivity|].
  exists i, s1. split; assumption.
Defined.

(** A request to modify that changes nothing but the name. *)
Definition demo_rename : ModifyIntentRequest :=
  mkModifyIntentRequest "reason" 1
    (mkModifyIntentFields (Some "name") None None None None None None None None None None None None None) None.

Lemma modification_atomic_witness :
  ∃ res w', demo_run (ModifyIntent "i1" demo_rename) accepted_calls = (Ok res, w')
    ∧ ∃ i s1, latestOperationalIntent s1 "i1" = Some i ∧ Intent_Version i = 1.
Proof.
  do 2 eexists. split; [vm_compute; reflexivity|].
  edestruct (modification_atomic (externalE := no_external) (HO := no_outside) "i1" demo_rename
              (demo_world (demo accepted_calls)))
    as (i & s1 & s2 & _ & H3 & H4 & _); [apply demo_wf|split; [discriminate|reflexivity]
      |apply run_alone; vm_compute; reflexivity|].
  exists i, s1. split; assumption.
Defined.
