(* ===== verification/Preflight.v ===== *)
(** * The preflight service

    src/internal/service/preflight/service.go: the checks of an intent before
    its activation, each recorded together with a compliance finding. *)

From S2P Require Import Prelude GoRuntime Domain Errors Program DurableStore IntentService.
From stdpp Require Import options.

Record PreflightEvaluation : Set := mkPreflightEvaluation {
  Evaluation_Intent : OperationalIntent;
  Evaluation_Checks : list PreflightCheck;
  Evaluation_Findings : list ComplianceFinding;
  Evaluation_Blocked : bool;
}.

(** ** The builder *)

Record preflightBuilder : Set := mkBuilder {
  builder_intent : OperationalIntent;
  builder_now : Time;
  builder_checks : list PreflightCheck;
  builder_findings : list ComplianceFinding;
  builder_blocked : bool;
}.

#[global] Instance builder_eta : Eta preflightBuilder := λ b,
  mkBuilder (builder_intent b) (builder_now b) (builder_checks b) (builder_findings b) (builder_blocked b).

(** [fmt.Sprintf("<kind>-%s-v%d-%s", intent.ID, intent.Version, key)] *)
Definition preflight_id (kind : string) (intent : OperationalIntent) (key : string) : string :=
  kind +:+ "-" +:+ Intent_ID intent +:+ "-v" +:+ Itoa (Intent_Version intent) +:+ "-" +:+ key.

Definition builder_check (category : PreflightCheckCategory)
    (key source requirementCode summary remediation : string) (status : PreflightStatus) (blocking : bool)
    (b : preflightBuilder) : preflightBuilder :=
  let intent := builder_intent b in
  let check := zero_PreflightCheck
    <| PreflightCheck_ID := preflight_id "preflight" intent key |>
    <| PreflightCheck_OperatorID := Intent_OperatorID intent |>
    <| PreflightCheck_IntentID := Intent_ID intent |>
    <| PreflightCheck_IntentVersion := Intent_Version intent |>
    <| PreflightCheck_AircraftID := Intent_AircraftID intent |>
    <| PreflightCheck_Category := category |>
    <| PreflightCheck_Source := source |>
    <| PreflightCheck_Status := status |>
    <| PreflightCheck_Summary := summary |>
    <| PreflightCheck_RequirementCode := requirementCode |>
    <| PreflightCheck_RuleVersion := "demo.v1" |>
    <| PreflightCheck_Blocking := blocking |>
    <| PreflightCheck_CapturedAt := builder_now b |> in
  let finding := zero_ComplianceFinding
    <| ComplianceFinding_ID := preflight_id "finding" intent key |>
    <| ComplianceFinding_OperatorID := Intent_OperatorID intent |>
    <| ComplianceFinding_IntentID := Intent_ID intent |>
    <| ComplianceFinding_IntentVersion := Intent_Version intent |>
    <| ComplianceFinding_SubjectType := "operational_intent" |>
    <| ComplianceFinding_SubjectID := Intent_ID intent |>
    <| ComplianceFinding_RequirementCode := requirementCode |>
    <| ComplianceFinding_RuleVersion := "demo.v1" |>
    <| ComplianceFinding_Message := summary |>
    <| ComplianceFinding_EvaluatedAt := builder_now b |> in
  let finding :=
    if negb blocking
    then finding <| ComplianceFinding_Status := ComplianceFindingPass |>
                 <| ComplianceFinding_Severity := SeverityInfo |>
                 <| ComplianceFinding_Blocking := false |>
    else finding <| ComplianceFinding_Status := ComplianceFindingFail |>
                 <| ComplianceFinding_Severity := SeverityCritical |>
                 <| ComplianceFinding_Blocking := true |>
                 <| ComplianceFinding_Remediation := remediation |> in
  b <| builder_checks := builder_checks b ++ [check] |>
    <| builder_findings := builder_findings b ++ [finding] |>.

Definition clear (category : PreflightCheckCategory) (key source requirementCode summary : string)
    (b : preflightBuilder) : preflightBuilder :=
  builder_check category key source requirementCode summary "" PreflightStatusClear false b.

Definition block (category : PreflightCheckCategory)
    (key source requirementCode summary remediation : string) (b : preflightBuilder) : preflightBuilder :=
  (builder_check category key source requirementCode summary remediation PreflightStatusBlocked true b)
    <| builder_blocked := true |>.

(** ** The checks *)

Definition check_aircraft (found : outcome Aircraft) (b : preflightBuilder) : preflightBuilder :=
  match found with
  | Err _ =>
      block PreflightCheckAirspace "aircraft_exists" "fleet_registry" "AIRCRAFT-EXISTS"
        "aircraft does not exist" "create or select a valid aircraft" b
  | Ok aircraft =>
      let b := clear PreflightCheckAirspace "aircraft_exists" "fleet_registry" "AIRCRAFT-EXISTS"
                 "aircraft exists" b in
      let b :=
        if (Aircraft_Status aircraft <>s AircraftStatusActive)
           || (Aircraft_AcceptanceStatus aircraft <>s AcceptanceStatusAccepted)
        then block PreflightCheckAirspace "aircraft_operational_status" "fleet_registry" "AIRCRAFT-STATUS"
               "aircraft is not active or accepted" "set aircraft active or complete acceptance" b
        else clear PreflightCheckAirspace "aircraft_operational_status" "fleet_registry" "AIRCRAFT-STATUS"
               "aircraft status allows operation" b in
      if Aircraft_RemoteIDStatus aircraft =s= RemoteIDStatusOffline
      then block PreflightCheckRemoteID "remote_id_online" "remote_id_monitor" "RID-ONLINE"
             "remote ID is offline" "restore Remote ID broadcast before activation" b
      else clear PreflightCheckRemoteID "remote_id_online" "remote_id_monitor" "RID-ONLINE"
             "remote ID is not offline" b
  end.

Definition check_window (b : preflightBuilder) : preflightBuilder :=
  if Before (Intent_PlannedStartAt (builder_intent b)) (Intent_PlannedEndAt (builder_intent b))
  then clear PreflightCheckAirspace "intent_time_window" "intent_service" "INTENT-WINDOW"
         "intent planned time window is valid" b
  else block PreflightCheckAirspace "intent_time_window" "intent_service" "INTENT-WINDOW"
         "intent planned start must be before planned end" "set planned_start_at before planned_end_at" b.

Definition check_volumes_exist (volumes : list OperationalVolume) (b : preflightBuilder) : preflightBuilder :=
  match volumes with
  | [] =>
      block PreflightCheckAirspace "operational_volume_exists" "intent_service" "VOLUME-EXISTS"
        "at least one operational volume is required" "add an operational volume" b
  | _ =>
      clear PreflightCheckAirspace "operational_volume_exists" "intent_service" "VOLUME-EXISTS"
        "operational volume exists" b
  end.

Definition check_volume (b : preflightBuilder) (volume : OperationalVolume) : preflightBuilder :=
  let prefix := "volume_" +:+ Volume_ID volume in
  let b :=
    if Before (Volume_StartsAt volume) (Volume_EndsAt volume)
    then clear PreflightCheckAirspace (prefix +:+ "_time_window") "intent_service" "VOLUME-WINDOW"
           "operational volume time window is valid" b
    else block PreflightCheckAirspace (prefix +:+ "_time_window") "intent_service" "VOLUME-WINDOW"
           "operational volume start must be before end" "set volume starts_at before ends_at" b in
  let b :=
    if f_le (Volume_MinAltitudeM volume) (Volume_MaxAltitudeM volume)
    then clear PreflightCheckAirspace (prefix +:+ "_altitude_range") "intent_service" "VOLUME-ALTITUDE"
           "operational volume altitude range is valid" b
    else block PreflightCheckAirspace (prefix +:+ "_altitude_range") "intent_service" "VOLUME-ALTITUDE"
           "operational volume minimum altitude exceeds maximum altitude"
           "set min_altitude_m <= max_altitude_m" b in
  let b :=
    if negb (Before (Volume_StartsAt volume) (Intent_PlannedStartAt (builder_intent b)))
       && negb (After (Volume_EndsAt volume) (Intent_PlannedEndAt (builder_intent b)))
    then clear PreflightCheckAirspace (prefix +:+ "_inside_intent_window") "intent_service" "VOLUME-IN-INTENT"
           "operational volume is inside planned intent window" b
    else block PreflightCheckAirspace (prefix +:+ "_inside_intent_window") "intent_service" "VOLUME-IN-INTENT"
           "operational volume must be inside planned intent window"
           "adjust volume or planned intent time window" b in
  if Volume_GeoJSON volume <>s ""
  then clear PreflightCheckAirspace (prefix +:+ "_inline_geojson") "intent_service" "VOLUME-GEOJSON"
         "operational volume has inline GeoJSON evaluable by this server" b
  else block PreflightCheckAirspace (prefix +:+ "_inline_geojson") "intent_service" "VOLUME-GEOJSON"
         "operational volume requires inline GeoJSON for local conformance evaluation"
         "provide inline GeoJSON; geometry_uri resolution is not implemented" b.

Section service.
Context {externalE : Type → Type}.
Abbreviation program := (prog (apiE externalE)).

Definition block_battery_unknown : preflightBuilder → preflightBuilder :=
  block PreflightCheckBattery "battery_soh_known" "maintenance_control" "BATTERY-SOH-KNOWN"
    "battery state of health is unknown" "record battery state of health".

Definition evaluateBattery (b : preflightBuilder) : program preflightBuilder :=
  let! installation := durable (Durable.GetActiveBatteryInstallation (Intent_AircraftID (builder_intent b))) in
  match installation with
  | Ok (Some installation) =>
      let b := clear PreflightCheckBattery "battery_installed" "maintenance_control" "BATTERY-INSTALLED"
                 "battery is installed" b in
      let! battery := durable (Durable.GetBattery (Installation_BatteryID installation)) in
      match battery with
      | Err _ => Ret (block_battery_unknown b)
      | Ok battery =>
          match Battery_StateOfHealth battery with
          | None => Ret (block_battery_unknown b)
          | Some soh =>
              let b := clear PreflightCheckBattery "battery_soh_known" "maintenance_control"
                         "BATTERY-SOH-KNOWN" "battery state of health is known" b in
              if f_lt soh (float_of_Z 80)
              then Ret (block PreflightCheckBattery "battery_soh_minimum" "maintenance_control" "BATTERY-SOH-80"
                          "battery state of health is below 80" "replace or service battery" b)
              else Ret (clear PreflightCheckBattery "battery_soh_minimum" "maintenance_control" "BATTERY-SOH-80"
                          "battery state of health is at least 80" b)
          end
      end
  | _ =>
      Ret (block PreflightCheckBattery "battery_installed" "maintenance_control" "BATTERY-INSTALLED"
             "battery is not installed" "install a battery" b)
  end.

Definition critical_open (event : MaintenanceEvent) : bool :=
  (Maintenance_Severity event =s= SeverityCritical) && is_nil (Maintenance_ResolvedAt event)
  && (Maintenance_Status event <>s MaintenanceStatusClosed).

Definition evaluateMaintenance (b : preflightBuilder) : program preflightBuilder :=
  let! events := durable (Durable.ListMaintenanceEvents (Intent_AircraftID (builder_intent b))) in
  match events with
  | Err _ =>
      Ret (block PreflightCheckMaintenance "maintenance_events_available" "maintenance_control" "MX-AVAILABLE"
             "maintenance status could not be loaded" "retry maintenance status lookup" b)
  | Ok events =>
      if existsb critical_open events
      then Ret (block PreflightCheckMaintenance "critical_open_maintenance" "maintenance_control"
                  "MX-CRITICAL-OPEN" "critical open maintenance event exists"
                  "resolve critical maintenance before activation" b)
      else Ret (clear PreflightCheckMaintenance "critical_open_maintenance" "maintenance_control"
                  "MX-CRITICAL-OPEN" "no critical open maintenance events" b)
  end.

(** [for _, x := range l { if err := f(x); err != nil { return wrap(err) } }] *)
Fixpoint record_all {A} (record : A → Durable.storeE unit) (context : string) (l : list A)
    : program (outcome unit) :=
  match l with
  | [] => Ret (Ok tt)
  | x :: l' =>
      try! _ := durable (record x) orelse wrap context in
      record_all record context l'
  end.

Definition EvaluateIntent (intentID : string) : program (outcome PreflightEvaluation) :=
  try! intent := durable (Durable.GetOperationalIntent intentID) orelse wrap "get operational intent" in
  let! aircraft := durable (Durable.GetAircraft (Intent_AircraftID intent)) in
  try! volumes := durable (Durable.ListOperationalVolumes (Intent_ID intent))
    orelse wrap "list operational volumes" in
  let volumes := volumesForVersion volumes (Intent_Version intent) in
  let! now := now in
  let b := mkBuilder intent (UTC now) [] [] false in
  let b := check_aircraft aircraft b in
  let b := check_window b in
  let b := check_volumes_exist volumes b in
  let b := foldl check_volume b volumes in
  let! b := evaluateBattery b in
  let! b := evaluateMaintenance b in
  let b := clear PreflightCheckWeather "demo_weather" "demo_weather_provider" "WX-DEMO"
             "demo weather check clear" b in
  let b := clear PreflightCheckNOTAM "demo_notam" "demo_notam_provider" "NOTAM-DEMO"
             "demo NOTAM check clear" b in
  try! _ := record_all Durable.RecordPreflightCheck "record preflight check" (builder_checks b)
    orelse (λ err, err) in
  try! _ := record_all Durable.RecordComplianceFinding "record compliance finding" (builder_findings b)
    orelse (λ err, err) in
  Ret (Ok (mkPreflightEvaluation intent (builder_checks b) (builder_findings b) (builder_blocked b))).
End service.
