(* ===== verification/PreflightVerdict.v ===== *)
(** * The verdict of a preflight evaluation

    An evaluation is blocked exactly when one of its requirements fails; every
    check it records has its compliance finding; and a blocked evaluation
    keeps the intent from being activated, whatever coordinator is asked and
    among other clients that leave the evidence of the intent alone. *)

From S2P Require Import Prelude GoRuntime GoStrings GoRange Domain Errors Program MemoryState MemoryFleet MemoryIntents MemoryMissions DurableStore MemoryStore MemoryInvariant MemoryReachable Scenario IntentWrites ProgramLogic IntentService IntentServiceRuns Preflight.
From stdpp Require Import options.

(** ** The requirements *)

Definition aircraft_unfit (found : outcome Aircraft) : bool :=
  match found with
  | Err _ => true
  | Ok a =>
      negb ((Aircraft_Status a =s= AircraftStatusActive)
            && (Aircraft_AcceptanceStatus a =s= AcceptanceStatusAccepted))
      || (Aircraft_RemoteIDStatus a =s= RemoteIDStatusOffline)
  end.

Definition volume_unfit (intent : OperationalIntent) (v : OperationalVolume) : bool :=
  negb ((Volume_StartsAt v <? Volume_EndsAt v)
        && f_le (Volume_MinAltitudeM v) (Volume_MaxAltitudeM v)
        && (Intent_PlannedStartAt intent <=? Volume_StartsAt v)
        && (Volume_EndsAt v <=? Intent_PlannedEndAt intent)
        && (Volume_GeoJSON v <>s "")).

(** ** The builder's invariant *)

Record corresponds (c : PreflightCheck) (f : ComplianceFinding) : Prop := {
  corresponds_requirement : ComplianceFinding_RequirementCode f = PreflightCheck_RequirementCode c;
  corresponds_intent : ComplianceFinding_IntentID f = PreflightCheck_IntentID c;
  corresponds_version : ComplianceFinding_IntentVersion f = PreflightCheck_IntentVersion c;
  corresponds_message : ComplianceFinding_Message f = PreflightCheck_Summary c;
  corresponds_check : blocking_check c = PreflightCheck_Blocking c;
  corresponds_finding : blocking_finding f = PreflightCheck_Blocking c;
}.

Record builder_ok (intent : OperationalIntent) (now : Time) (b : preflightBuilder) : Prop := {
  ok_intent : builder_intent b = intent;
  ok_now : builder_now b = now;
  ok_findings : Forall2 corresponds (builder_checks b) (builder_findings b);
  ok_blocked : builder_blocked b = existsb PreflightCheck_Blocking (builder_checks b);
  ok_checks : Forall (λ c, PreflightCheck_IntentID c = Intent_ID intent
                           ∧ PreflightCheck_IntentVersion c = Intent_Version intent
                           ∧ PreflightCheck_CapturedAt c = now) (builder_checks b);
}.

Definition check_ids (b : preflightBuilder) : list string := PreflightCheck_ID <$> builder_checks b.

(** [b'] continues [b]: it is blocked if [b] was or [unfit] holds, and its new
    checks have keys among [keys], in that order. *)
Definition adds (unfit : bool) (keys : list string) (b b' : preflightBuilder) : Prop :=
  ∀ intent now, builder_ok intent now b →
    builder_ok intent now b'
    ∧ builder_blocked b' = builder_blocked b || unfit
    ∧ ∃ ks, ks `sublist_of` keys ∧ check_ids b' = check_ids b ++ (preflight_id "preflight" intent <$> ks).

Lemma clear_adds category key source code summary b :
  adds false [key] b (clear category key source code summary b).
Proof.
  intros intent now [<- <- Hf Hb Hc]. unfold clear, builder_check, check_ids. cbn.
  split; [|split; [by rewrite orb_false_r|]].
  - split; cbn; [done|done| | |].
    + apply Forall2_app; [done|]. repeat constructor.
    + rewrite existsb_app. cbn. by rewrite Hb, !orb_false_r.
    + apply Forall_app. split; [done|]. by repeat constructor.
  - exists [key]. split; [done|]. by rewrite fmap_app.
Qed.

Lemma block_adds category key source code summary remediation b :
  adds true [key] b (block category key source code summary remediation b).
Proof.
  intros intent now [<- <- Hf Hb Hc]. unfold block, builder_check, check_ids. cbn.
  split; [|split; [by rewrite orb_true_r|]].
  - split; cbn; [done|done| | |].
    + apply Forall2_app; [done|]. repeat constructor.
    + rewrite existsb_app. cbn. by rewrite orb_true_r.
    + apply Forall_app. split; [done|]. by repeat constructor.
  - exists [key]. split; [done|]. by rewrite fmap_app.
Qed.

Lemma adds_trans u1 u2 k1 k2 b1 b2 b3 :
  adds u1 k1 b1 b2 → adds u2 k2 b2 b3 → adds (u1 || u2) (k1 ++ k2) b1 b3.
Proof.
  intros H1 H2 intent now Hb. destruct (H1 _ _ Hb) as (Hb2 & E2 & ks1 & Hk1 & I2).
  destruct (H2 _ _ Hb2) as (Hb3 & E3 & ks2 & Hk2 & I3).
  split; [done|]. split; [by rewrite E3, E2, orb_assoc|].
  exists (ks1 ++ ks2). split; [by apply sublist_app|]. by rewrite I3, I2, fmap_app, app_assoc.
Qed.

Lemma adds_weaken u k1 k2 b1 b2 : k1 `sublist_of` k2 → adds u k1 b1 b2 → adds u k2 b1 b2.
Proof.
  intros Hk H intent now Hb. destruct (H _ _ Hb) as (? & ? & ks & Hks & ?).
  do 2 (split; [done|]). exists ks. split; [by trans k1|done].
Qed.

Lemma clear_block_adds c k s r m c' k' s' r' m' rem b :
  adds true [k; k'] b (block c' k' s' r' m' rem (clear c k s r m b)).
Proof. exact (adds_trans false true [k] [k'] _ _ _ (clear_adds c k s r m b) (block_adds _ _ _ _ _ _ _)). Qed.

Lemma clear_clear_adds c k s r m c' k' s' r' m' b :
  adds false [k; k'] b (clear c' k' s' r' m' (clear c k s r m b)).
Proof. exact (adds_trans false false [k] [k'] _ _ _ (clear_adds c k s r m b) (clear_adds _ _ _ _ _ _)). Qed.

(** The two outcomes of a requirement. *)
Lemma adds_if (test : bool) keys b b1 b2 :
  adds false keys b b1 → adds true keys b b2 → adds (negb test) keys b (if test then b1 else b2).
Proof. by destruct test. Qed.

Lemma adds_if_not (test : bool) keys b b1 b2 :
  adds true keys b b1 → adds false keys b b2 → adds test keys b (if test then b1 else b2).
Proof. by destruct test. Qed.

(** One check either way, a clear one if the test holds, or a blocking one. *)
Ltac clear_if := apply adds_if; [apply clear_adds | apply block_adds].
Ltac block_if := apply adds_if_not; [apply block_adds | apply clear_adds].

Lemma check_aircraft_adds found b :
  adds (aircraft_unfit found) ["aircraft_exists"; "aircraft_operational_status"; "remote_id_online"]
    b (check_aircraft found b).
Proof.
  unfold check_aircraft, aircraft_unfit. destruct found as [a|err].
  - set (b1 := clear _ _ _ _ _ b). rewrite <- (orb_false_l (negb _)), <- orb_assoc.
    apply (adds_trans _ _ ["aircraft_exists"] ["aircraft_operational_status"; "remote_id_online"] _ b1);
      [apply clear_adds|]. rewrite negb_andb.
    eapply (adds_trans _ _ ["aircraft_operational_status"] ["remote_id_online"]); block_if.
  - eapply adds_weaken; [|apply block_adds]. apply sublist_skip, sublist_nil_l.
Qed.

Lemma check_window_adds intent now b :
  builder_ok intent now b →
  adds (negb (Intent_PlannedStartAt intent <? Intent_PlannedEndAt intent)) ["intent_time_window"]
    b (check_window b).
Proof.
  intros Hb. unfold check_window. rewrite (ok_intent _ _ _ Hb).
  apply (adds_if (Before _ _)); [apply clear_adds|apply block_adds].
Qed.

Lemma check_volumes_exist_adds volumes b :
  adds (bool_decide (volumes = [])) ["operational_volume_exists"] b (check_volumes_exist volumes b).
Proof. destruct volumes; [apply block_adds|apply clear_adds]. Qed.

Definition volume_keys (v : OperationalVolume) : list string :=
  (λ suffix, ("volume_" +:+ Volume_ID v) +:+ suffix)
    <$> ["_time_window"; "_altitude_range"; "_inside_intent_window"; "_inline_geojson"].

Lemma check_volume_adds intent now b v :
  builder_ok intent now b → adds (volume_unfit intent v) (volume_keys v) b (check_volume b v).
Proof.
  intros Hb.
  assert (volume_unfit intent v
          = negb (Before (Volume_StartsAt v) (Volume_EndsAt v))
            || (negb (f_le (Volume_MinAltitudeM v) (Volume_MaxAltitudeM v))
                || (negb (negb (Before (Volume_StartsAt v) (Intent_PlannedStartAt intent))
                          && negb (After (Volume_EndsAt v) (Intent_PlannedEndAt intent)))
                    || negb (Volume_GeoJSON v <>s "")))) as ->.
  { unfold volume_unfit, Before, After. rewrite !Z.leb_antisym, !negb_andb, !negb_involutive, !orb_assoc.
    done. }
  unfold check_volume. cbn zeta. set (b1 := if Before (Volume_StartsAt v) (Volume_EndsAt v) then _ else _).
  assert (adds (negb (Before (Volume_StartsAt v) (Volume_EndsAt v)))
            [("volume_" +:+ Volume_ID v) +:+ "_time_window"] b b1) as H1 by clear_if.
  unfold volume_keys. apply (adds_trans _ _ [_] [_; _; _] _ b1); [exact H1|].
  destruct (H1 _ _ Hb) as [Hb1 _]. set (b2 := if f_le _ _ then _ else _).
  assert (adds (negb (f_le (Volume_MinAltitudeM v) (Volume_MaxAltitudeM v)))
            [("volume_" +:+ Volume_ID v) +:+ "_altitude_range"] b1 b2) as H2 by clear_if.
  apply (adds_trans _ _ [_] [_; _] _ b2); [exact H2|]. destruct (H2 _ _ Hb1) as [Hb2 _].
  rewrite (ok_intent _ _ _ Hb2). eapply (adds_trans _ _ [_] [_]); clear_if.
Qed.

Lemma check_volumes_adds intent now volumes b :
  builder_ok intent now b →
  adds (existsb (volume_unfit intent) volumes) (volumes ≫= volume_keys) b (foldl check_volume b volumes).
Proof.
  revert b. induction volumes as [|v l IH]; intros b Hb; cbn [existsb foldl].
  - intros i t Hb'. split; [done|]. split; [by rewrite orb_false_r|]. exists []. split; [done|].
    by rewrite fmap_nil, app_nil_r.
  - pose proof (check_volume_adds intent now b v Hb) as H1. eapply adds_trans; [exact H1|].
    apply IH. by destruct (H1 _ _ Hb).
Qed.

(** ** The evaluation *)

Section verdict.
Context {RT : Runtime} {externalE : Type → Type} {O : Type} {HO : Outside externalE O}.
Abbreviation program := (prog (apiE externalE)).
Abbreviation alone := (crun (S := world Store O) handle_api (other_client nobody)).

Definition battery_unfit (s : Store) (aircraftID : string) : bool :=
  match GetActiveBatteryInstallation aircraftID s with
  | Ok (Some installation) =>
      match GetBattery (Installation_BatteryID installation) s with
      | Ok battery =>
          match Battery_StateOfHealth battery with
          | Some soh => f_lt soh (float_of_Z 80)
          | None => true
          end
      | Err _ => true
      end
  | _ => true
  end.

Definition maintenance_unfit (s : Store) (aircraftID : string) : bool :=
  match ListMaintenanceEvents aircraftID s with
  | Ok events => existsb critical_open events
  | Err _ => true
  end.

(** A sequential call of a query. *)
Lemma alone_query A B (e : Durable.storeE A) (k : outcome A → program B) w b w' :
  (∀ s, (handle_store e s).2 = s) →
  alone (prog_bind (durable e) k) w b w' →
  ∃ w1, store w1 = store w ∧ alone (k (handle_store e (store w)).1) w1 b w'.
Proof using Type.
  intros Hq (w1 & ->%nobody_steps & Hrun)%crun_store.
  eexists; split; [|exact Hrun]. cbn. apply Hq.
Qed.

Lemma alone_ret B (b b' : B) w w' : alone (Ret b : program B) w b' w' → b' = b ∧ store w' = store w.
Proof using Type. by intros [-> ->%nobody_steps]%crun_ret. Qed.

Lemma evaluateBattery_adds intent now b w b' w' :
  builder_ok intent now b → alone (evaluateBattery b : program _) w b' w' →
  store w' = store w
  ∧ adds (battery_unfit (store w) (Intent_AircraftID intent))
      ["battery_installed"; "battery_soh_known"; "battery_soh_minimum"] b b'.
Proof using Type.
  intros Hb Hrun. unfold evaluateBattery in Hrun. rewrite (ok_intent _ _ _ Hb) in Hrun.
  apply alone_query in Hrun as (w1 & Hw1 & Hrun); [|done]. cbn [handle_store memory_store fst snd] in Hrun.
  unfold battery_unfit.
  destruct (GetActiveBatteryInstallation _ _) as [[installation|]|err].
  2, 3: apply alone_ret in Hrun as [-> Hw]; split; [congruence|];
    (eapply adds_weaken; [|apply block_adds]); apply sublist_skip, sublist_nil_l.
  apply alone_query in Hrun as (w2 & Hw2 & Hrun); [|done]. cbn [handle_store memory_store fst snd] in Hrun.
  rewrite Hw1 in Hrun. destruct (GetBattery _ _) as [battery|err].
  2: { apply alone_ret in Hrun as [-> Hw]. split; [congruence|].
       eapply adds_weaken; [|apply clear_block_adds]. do 2 apply sublist_skip. apply sublist_nil_l. }
  destruct (Battery_StateOfHealth battery) as [soh|].
  2: { apply alone_ret in Hrun as [-> Hw]. split; [congruence|].
       eapply adds_weaken; [|apply clear_block_adds]. do 2 apply sublist_skip. apply sublist_nil_l. }
  rewrite <- (orb_false_l (f_lt soh _)).
  destruct (f_lt soh _); apply alone_ret in Hrun as [-> Hw]; (split; [congruence|]);
    (eapply (adds_trans _ _ [_] [_; _]); [apply clear_adds|]);
    [apply clear_block_adds|apply clear_clear_adds].
Qed.

Lemma evaluateMaintenance_adds intent now b w b' w' :
  builder_ok intent now b → alone (evaluateMaintenance b : program _) w b' w' →
  store w' = store w
  ∧ adds (maintenance_unfit (store w) (Intent_AircraftID intent))
      ["maintenance_events_available"; "critical_open_maintenance"] b b'.
Proof using Type.
  intros Hb Hrun. unfold evaluateMaintenance in Hrun. rewrite (ok_intent _ _ _ Hb) in Hrun.
  apply alone_query in Hrun as (w1 & Hw1 & Hrun); [|done]. cbn [handle_store memory_store fst snd] in Hrun.
  unfold maintenance_unfit. destruct (ListMaintenanceEvents _ _) as [events|err].
  - destruct (existsb critical_open events); apply alone_ret in Hrun as [-> Hw];
      (split; [congruence|]); apply (adds_weaken _ ["critical_open_maintenance"]);
      [by apply sublist_cons|apply block_adds|by apply sublist_cons|apply clear_adds].
  - apply alone_ret in Hrun as [-> Hw]. split; [congruence|].
    eapply adds_weaken; [|apply block_adds]. apply sublist_skip, sublist_nil_l.
Qed.

(** *** Recording *)

Lemma record_checks_run l w r w' :
  alone (record_all Durable.RecordPreflightCheck "record preflight check" l : program _) w r w' →
  r = Ok tt ∧ store w' = (store w) <| preflightChecks :=
    foldl (λ checks c, replace_or_append same_check c checks) (preflightChecks (store w)) l |>.
Proof using Type.
  revert w. induction l as [|c l IH]; intros w Hrun; cbn [record_all] in Hrun.
  - apply alone_ret in Hrun as [-> ->]. by destruct (store w).
  - apply crun_store in Hrun as (w1 & ->%nobody_steps & Hrun). apply IH in Hrun as [-> Hrun].
    split; [done|]. by rewrite Hrun.
Qed.

Lemma record_findings_run l w r w' :
  alone (record_all Durable.RecordComplianceFinding "record compliance finding" l : program _) w r w' →
  r = Ok tt ∧ store w' = (store w) <| complianceFindings :=
    foldl (λ findings f, replace_or_append same_compliance f findings) (complianceFindings (store w)) l |>.
Proof using Type.
  revert w. induction l as [|c l IH]; intros w Hrun; cbn [record_all] in Hrun.
  - apply alone_ret in Hrun as [-> ->]. by destruct (store w).
  - apply crun_store in Hrun as (w1 & ->%nobody_steps & Hrun). apply IH in Hrun as [-> Hrun].
    split; [done|]. by rewrite Hrun.
Qed.

(** Recorded under distinct identifiers, the checks are all there. *)
Lemma recorded_checks l checks c :
  NoDup (PreflightCheck_ID <$> checks) → NoDup (PreflightCheck_ID <$> l) → c ∈ l →
  c ∈ foldl (λ checks c, replace_or_append same_check c checks) checks l.
Proof using Type.
  assert (∀ l checks c, NoDup (PreflightCheck_ID <$> checks) → c ∈ checks →
            PreflightCheck_ID c ∉ PreflightCheck_ID <$> l →
            c ∈ foldl (λ checks c, replace_or_append same_check c checks) checks l) as Hkeep.
  { clear. induction l as [|x l IH]; intros checks c Hnd Hc Hl; [done|].
    rewrite fmap_cons, not_elem_of_cons in Hl. destruct Hl as [Hx Hl]. cbn. apply IH; [|by apply (elem_of_replace_or_append PreflightCheck_ID); auto|done].
    by apply (NoDup_replace_or_append PreflightCheck_ID). }
  revert checks. induction l as [|x l IH]; intros checks Hnd Hl; [by intros ?%elem_of_nil|].
  rewrite fmap_cons, NoDup_cons in Hl. destruct Hl as [Hx Hl].
  assert (NoDup (PreflightCheck_ID <$> replace_or_append same_check x checks)) as Hnd'
    by by apply (NoDup_replace_or_append PreflightCheck_ID).
  intros [->|Hc]%elem_of_cons; cbn; [|by apply IH].
  apply Hkeep; [done| |done]. apply (elem_of_replace_or_append PreflightCheck_ID); auto.
Qed.

(** The volumes an evaluation judges. *)
Definition planned_volumes (s : Store) (intent : OperationalIntent) : list OperationalVolume :=
  match ListOperationalVolumes (Intent_ID intent) s with
  | Ok volumes => volumesForVersion volumes (Intent_Version intent)
  | Err _ => []
  end.

Lemma elem_of_planned_volumes s i v :
  v ∈ planned_volumes s i ↔
  (∃ k, operationalVolumes s !! k = Some v) ∧ listed (Intent_ID i) (Volume_IntentID v)
  ∧ Volume_IntentVersion v = Intent_Version i.
Proof using Type. by apply (elem_of_listed_volumes (Intent_ID i) (Intent_Version i) s _ s). Qed.

(** Some requirement of the intent fails. *)
Definition unfit (s : Store) (i : OperationalIntent) : bool :=
  aircraft_unfit (GetAircraft (Intent_AircraftID i) s)
  || negb (Intent_PlannedStartAt i <? Intent_PlannedEndAt i)
  || bool_decide (planned_volumes s i = [])
  || existsb (volume_unfit i) (planned_volumes s i)
  || battery_unfit s (Intent_AircraftID i)
  || maintenance_unfit s (Intent_AircraftID i).

(** The keys of the checks, in the order of the evaluation. *)
Definition evaluation_keys (volumes : list OperationalVolume) : list string :=
  ["aircraft_exists"; "aircraft_operational_status"; "remote_id_online"; "intent_time_window";
   "operational_volume_exists"]
    ++ (volumes ≫= volume_keys)
    ++ ["battery_installed"; "battery_soh_known"; "battery_soh_minimum"; "maintenance_events_available";
        "critical_open_maintenance"; "demo_weather"; "demo_notam"].

(** Everything an evaluation computes and records. *)
Record evaluated (w w' : world Store O) (id : string) (ev : PreflightEvaluation) : Prop := {
  evaluated_intent : latestOperationalIntent (store w) id = Some (Evaluation_Intent ev);
  evaluated_builder : ∃ now, builder_ok (Evaluation_Intent ev) now
    (mkBuilder (Evaluation_Intent ev) now (Evaluation_Checks ev) (Evaluation_Findings ev)
       (Evaluation_Blocked ev));
  evaluated_verdict : Evaluation_Blocked ev = unfit (store w) (Evaluation_Intent ev);
  evaluated_keys : ∃ ks, ks `sublist_of` evaluation_keys (planned_volumes (store w) (Evaluation_Intent ev))
    ∧ PreflightCheck_ID <$> Evaluation_Checks ev
      = preflight_id "preflight" (Evaluation_Intent ev) <$> ks;
  evaluated_store :
    store w' = (store w)
      <| preflightChecks := foldl (λ checks c, replace_or_append same_check c checks)
           (preflightChecks (store w)) (Evaluation_Checks ev) |>
      <| complianceFindings := foldl (λ findings f, replace_or_append same_compliance f findings)
           (complianceFindings (store w)) (Evaluation_Findings ev) |>;
}.

(** The requirements from the first to the last, on an intent, its volumes
    and what is found of its aircraft. *)
Lemma static_checks_adds i t found vs b :
  builder_ok i t b →
  adds (aircraft_unfit found || negb (Intent_PlannedStartAt i <? Intent_PlannedEndAt i)
        || bool_decide (vs = []) || existsb (volume_unfit i) vs)
    (["aircraft_exists"; "aircraft_operational_status"; "remote_id_online"; "intent_time_window";
      "operational_volume_exists"] ++ (vs ≫= volume_keys)) b
    (foldl check_volume (check_volumes_exist vs (check_window (check_aircraft found b))) vs).
Proof using Type.
  intros Hb. pose proof (check_aircraft_adds found b) as H1. destruct (H1 _ _ Hb) as [Hb1 _].
  pose proof (check_window_adds _ _ _ Hb1) as H2. destruct (H2 _ _ Hb1) as [Hb2 _].
  pose proof (check_volumes_exist_adds vs (check_window (check_aircraft found b))) as H3.
  destruct (H3 _ _ Hb2) as [Hb3 _].
  eapply adds_trans; [|by apply (check_volumes_adds i t)].
  exact (adds_trans _ _ _ _ _ _ _ (adds_trans _ _ _ _ _ _ _ H1 H2) H3).
Qed.

Lemma EvaluateIntent_evaluated id w ev w' :
  alone (EvaluateIntent id : program _) w (Ok ev) w' → evaluated w w' id ev.
Proof using Type.
  intros Hrun. unfold EvaluateIntent in Hrun.
  apply crun_try in Hrun as (w1 & i & w2 & Hw1%nobody_steps & [Hw2 Hi]%GetOperationalIntent_Ok & Hrun).
  apply alone_query in Hrun as (w3 & Hw3 & Hrun); [|done]. cbn [handle_store memory_store fst snd] in Hrun.
  apply crun_try in Hrun as (w4 & volumes & w5 & Hw4%nobody_steps & Hv & Hrun).
  assert (store w4 = store w) as Hs4 by congruence. rewrite Hs4 in Hv. injection Hv as Hv Hw5.
  assert (volumesForVersion volumes (Intent_Version i) = planned_volumes (store w) i) as Hvs
    by (unfold planned_volumes; cbn; by rewrite <- Hv).
  rewrite Hvs in Hrun. set (vs := planned_volumes (store w) i) in *.
  apply crun_now in Hrun as (w6 & t & Hw6%nobody_steps & Hrun).
  assert (store w6 = store w) as Hs6 by congruence. rewrite Hw2, Hw1 in Hrun.
  set (b0 := mkBuilder i (UTC t) [] [] false) in Hrun.
  assert (builder_ok i (UTC t) b0) as Hb0 by by repeat constructor.
  pose proof (static_checks_adds i (UTC t) (GetAircraft (Intent_AircraftID i) (store w)) vs b0 Hb0) as H4.
  destruct (H4 _ _ Hb0) as [Hb4 _].
  apply crun_bind in Hrun as (b5 & w7 & Hbat & Hrun).
  apply (evaluateBattery_adds i (UTC t)) in Hbat as [Hw7 H5]; [|done]. destruct (H5 _ _ Hb4) as [Hb5 _].
  pose proof (adds_trans _ _ _ _ _ _ _ H4 H5) as H45.
  apply crun_bind in Hrun as (b6 & w8 & Hmx & Hrun).
  apply (evaluateMaintenance_adds i (UTC t)) in Hmx as [Hw8 H6]; [|done].
  pose proof (adds_trans _ _ _ _ _ _ _ H45 H6) as H46. cbn zeta in Hrun.
  set (b8 := clear PreflightCheckNOTAM _ _ _ _ _) in Hrun.
  pose proof (adds_trans _ _ _ _ _ _ b8 H46 (clear_clear_adds _ _ _ _ _ _ _ _ _ _ _)) as H48.
  destruct (H48 _ _ Hb0) as (Hb8 & E8 & ks & Hks & I8). clearbody b8.
  apply crun_bind in Hrun as ([[]|err] & w9 & Hrec & Hrun); [|by destruct Hrun].
  apply record_checks_run in Hrec as [_ Hrec].
  apply crun_bind in Hrun as ([[]|err] & w10 & Hrec' & Hrun); [|by destruct Hrun].
  apply record_findings_run in Hrec' as [_ Hrec']. apply alone_ret in Hrun as [[= ->] Hw'].
  assert (store w8 = store w) as Hs8 by congruence.
  split; cbn [Evaluation_Intent Evaluation_Checks Evaluation_Findings Evaluation_Blocked].
  - congruence.
  - exists (UTC t). destruct Hb8. by split.
  - rewrite E8, Hw7, Hs6. cbn [builder_blocked b0 orb]. by rewrite orb_false_r.
  - exists ks. split; [|exact I8]. unfold evaluation_keys. fold vs. by rewrite <- !app_assoc in Hks.
  - by rewrite Hw', Hrec', Hrec, Hs8.
Qed.

(** An evaluation of a stored intent ends without an error. *)
Lemma EvaluateIntent_total id w i :
  latestOperationalIntent (store w) id = Some i →
  ∃ ev w', run handle_api (EvaluateIntent id : program _) w = (Ok ev, w').
Proof using Type.
  intros Hi. destruct (run handle_api (EvaluateIntent id : program _) w) as [[ev|err] w'] eqn:Hrun; [eauto|].
  exfalso. apply (run_alone nobody) in Hrun. unfold EvaluateIntent in Hrun.
  apply alone_query in Hrun as (w1 & Hw1 & Hrun); [|done]. cbn [handle_store memory_store fst snd] in Hrun.
  unfold GetOperationalIntent in Hrun. rewrite Hi in Hrun.
  apply alone_query in Hrun as (w2 & Hw2 & Hrun); [|done].
  apply alone_query in Hrun as (w3 & Hw3 & Hrun); [|done].
  apply crun_now in Hrun as (w4 & t & Hw4 & Hrun). cbn zeta in Hrun.
  apply crun_bind in Hrun as (b5 & w5 & _ & Hrun). apply crun_bind in Hrun as (b6 & w6 & _ & Hrun).
  apply crun_bind in Hrun as (r & w7 & [-> _]%record_checks_run & Hrun).
  apply crun_bind in Hrun as (r & w8 & [-> _]%record_findings_run & Hrun).
  by apply alone_ret in Hrun as [? _].
Qed.
End verdict.

(** * Preflight and activation

    The claims about the preflight evaluation: its verdict, and that an
    evaluation that blocks keeps the intent from being activated. *)

(** ** The identifiers of the checks of an evaluation are distinct *)

(** A map that identifies no more than another one keeps lists duplicate-free. *)
Lemma NoDup_fmap_finer {A B C} (f : A → B) (g : A → C) (l : list A) :
  (∀ x y, x ∈ l → y ∈ l → g x = g y → f x = f y) → NoDup (f <$> l) → NoDup (g <$> l).
Proof.
  induction l as [|x l IH]; intros Hfg; [constructor|]. rewrite !fmap_cons, !NoDup_cons.
  intros [Hx Hl]. split.
  - intros (y & Hy & Hin)%list_elem_of_fmap. apply Hx. rewrite (Hfg x y); [|by left|by right|done].
    by apply list_elem_of_fmap_2.
  - apply IH; [|done]. intros y z Hy Hz. apply Hfg; by right.
Qed.

(** The last eight bytes of a key tell the requirement, the rest the volume. *)
Definition volume_key_ends : list (string * string) :=
  [("_tim", "e_window"); ("_altitu", "de_range"); ("_inside_inten", "t_window"); ("_inline", "_geojson")].

Lemma elem_of_volume_keys k v :
  k ∈ volume_keys v ↔ ∃ e, k = (("volume_" +:+ Volume_ID v) +:+ e.1) +:+ e.2 ∧ e ∈ volume_key_ends.
Proof.
  assert (volume_keys v = (λ e, (("volume_" +:+ Volume_ID v) +:+ e.1) +:+ e.2) <$> volume_key_ends) as ->
    by (unfold volume_keys, volume_key_ends; cbn [fmap list_fmap fst snd]; by rewrite <- !string_app_assoc).
  apply list_elem_of_fmap.
Qed.

Lemma volume_keys_disjoint k v v' : k ∈ volume_keys v → k ∈ volume_keys v' → Volume_ID v = Volume_ID v'.
Proof.
  intros (e & -> & He)%elem_of_volume_keys (e' & Heq & He')%elem_of_volume_keys.
  assert (String.length e.2 = 8%nat ∧ String.length e'.2 = 8%nat
          ∧ (e.2 = e'.2 → e.1 = e'.1)) as (H1 & H2 & H3).
  { unfold volume_key_ends in *.
    repeat (apply elem_of_cons in He as [->|He]); [..|by apply elem_of_nil in He];
      (repeat (apply elem_of_cons in He' as [->|He']); [..|by apply elem_of_nil in He']); by split. }
  apply string_app_inj_2 in Heq as [Heq Hend]; [|congruence]. rewrite (H3 Hend) in Heq.
  apply string_app_inj_2 in Heq as [Heq _]; [|done]. by simplify_eq/=.
Qed.

Lemma NoDup_volume_keys vs : NoDup (Volume_ID <$> vs) → NoDup (vs ≫= volume_keys).
Proof.
  induction vs as [|v vs IH]; [constructor|]. rewrite fmap_cons, NoDup_cons. intros [Hv Hvs].
  rewrite bind_cons. apply NoDup_app. split; [|split; [|by apply IH]].
  - unfold volume_keys. apply NoDup_fmap_2; [apply _|]. by apply (bool_decide_unpack _).
  - intros k Hk (v' & Hk' & Hin)%list_elem_of_bind. apply Hv.
    rewrite (volume_keys_disjoint k v v' Hk Hk'). by apply list_elem_of_fmap_2.
Qed.

Definition other_keys : list string :=
  ["aircraft_exists"; "aircraft_operational_status"; "remote_id_online"; "intent_time_window";
   "operational_volume_exists"]
  ++ ["battery_installed"; "battery_soh_known"; "battery_soh_minimum"; "maintenance_events_available";
      "critical_open_maintenance"; "demo_weather"; "demo_notam"].

Lemma NoDup_evaluation_keys vs : NoDup (Volume_ID <$> vs) → NoDup (evaluation_keys vs).
Proof.
  intros Hvs. unfold evaluation_keys.
  rewrite (Permutation_app_comm (vs ≫= _)), (assoc (++)). change (NoDup (other_keys ++ (vs ≫= volume_keys))).
  apply NoDup_app. split; [by apply (bool_decide_unpack _)|]. split; [|by apply NoDup_volume_keys].
  intros k Hk (v & Hv & _)%list_elem_of_bind. apply elem_of_volume_keys in Hv as (e & -> & _).
  unfold other_keys in Hk. cbn in Hk.
  repeat (apply elem_of_cons in Hk as [Hk|Hk]; [discriminate Hk|]). by apply elem_of_nil in Hk.
Qed.

Section activation.
Context {RT : Runtime} {externalE : Type → Type} {O : Type} {HO : Outside externalE O}.
Abbreviation program := (prog (apiE externalE)).

(** The volumes of one version are stored under keys that their identifiers tell apart. *)
Lemma planned_volumes_distinct s i :
  store_wf s → Intent_ID i ≠ "" → NoDup (Volume_ID <$> planned_volumes s i).
Proof using Type.
  intros Hs Hid. apply (NoDup_fmap_finer operationalVolumeKey).
  - intros v v' (_ & Hl & Hv)%elem_of_planned_volumes (_ & Hl' & Hv')%elem_of_planned_volumes Heq.
    unfold operationalVolumeKey. destruct Hl as [?| ->], Hl' as [?| ->]; try done. congruence.
  - unfold planned_volumes, ListOperationalVolumes, volumesForVersion.
    apply NoDup_fmap_select. rewrite sort_slice_perm. apply NoDup_fmap_select.
    unfold range_values. rewrite <- list_fmap_compose.
    erewrite (Forall_fmap_ext_1 _ fst); [apply NoDup_range|]. apply Forall_forall.
    intros [k v] Hin%elem_of_range. cbn. symmetry. by apply (wf_volumes _ Hs).
Qed.
(** ** The claims *)

(** Preflight verdict.  Evaluating a stored intent succeeds; it is blocked
    exactly when a requirement fails (no fit aircraft, an empty planned window,
    no volume of its version, a volume that is malformed or outside the
    window, no battery known to be healthy, an open critical maintenance
    event); each of its checks has its compliance finding, of the same
    requirement, and blocks if and only if the finding does; and nothing else
    of the store changes than the checks and the findings it records. *)
Theorem preflight_verdict id w i :
  latestOperationalIntent (store w) id = Some i →
  ∃ ev w', run handle_api (EvaluateIntent id : program _) w = (Ok ev, w')
    ∧ Evaluation_Intent ev = i
    ∧ Evaluation_Blocked ev = unfit (store w) i
    ∧ Evaluation_Blocked ev = existsb PreflightCheck_Blocking (Evaluation_Checks ev)
    ∧ Forall2 corresponds (Evaluation_Checks ev) (Evaluation_Findings ev)
    ∧ store w' = (store w)
        <| preflightChecks := foldl (λ checks c, replace_or_append same_check c checks)
             (preflightChecks (store w)) (Evaluation_Checks ev) |>
        <| complianceFindings := foldl (λ findings f, replace_or_append same_compliance f findings)
             (complianceFindings (store w)) (Evaluation_Findings ev) |>.
Proof using Type.
  intros Hi. destruct (EvaluateIntent_total id w i Hi) as (ev & w' & Hrun). exists ev, w'.
  split; [done|]. apply (run_alone nobody), EvaluateIntent_evaluated in Hrun as [Hi' [t Hb] Hv _ Hs].
  assert (Evaluation_Intent ev = i) as Hev by congruence. rewrite Hev in Hv.
  split; [done|]. split; [done|]. split; [by apply Hb|]. split; [by apply Hb|done].
Qed.

(** *** What keeps the evidence of an evaluation *)

(** Calls that write intents or record preflight checks. *)
Definition changes_evidence {A} (e : Durable.storeE A) : bool :=
  touches_intents e || match e with Durable.RecordPreflightCheck _ => true | _ => false end.

Definition keeps_evidence {A} (p : program A) : Prop :=
  store_calls_in (λ B (e : Durable.storeE B), changes_evidence e = false) p.

(** A coordinator whose check of an intent writes no intent and records no
    preflight check; or none. *)
Definition evidence_law (deconfliction : option DeconflictionCoordinator) : Prop :=
  match deconfliction with Some d => ∀ id, keeps_evidence (CheckIntent d id) | None => True end.

(** Other clients that do not change the latest version of the intent [id] nor
    take away or replace a recorded check. *)
Definition bystander (id : string) (s s' : Store) : Prop :=
  latestOperationalIntent s' id = latestOperationalIntent s id ∧ preflightChecks s ⊆ preflightChecks s'.

Definition evidence (id : string) (i : OperationalIntent) (c : PreflightCheck) (s : Store) : Prop :=
  latestOperationalIntent s id = Some i ∧ c ∈ preflightChecks s.

Lemma bystanders_keep id i c s s' : rtc (bystander id) s s' → evidence id i c s → evidence id i c s'.
Proof using Type.
  induction 1 as [|s1 s2 s3 [Hi Hc] _ IH]; [done|]. intros [Hi1 Hc1]. apply IH. split; [congruence|auto].
Qed.

Lemma checks_frame A (e : Durable.storeE A) s :
  changes_evidence e = false → preflightChecks (handle_store e s).2 = preflightChecks s.
Proof using Type.
  destruct e; try done; intros _; cbn.
  all: unfold_method; try (match goal with |- context [foldl ?f ?x ?l] => destruct (foldl f x l) end);
    unfold CreateMission, createMissionLocked, CreateMissionDeployment, createMissionDeploymentLocked;
    repeat case_match; done.
Qed.

Lemma program_keeps id i c A (p : program A) w a w' :
  keeps_evidence p → crun (S := world Store O) handle_api (other_client (bystander id)) p w a w' →
  evidence id i c (store w) → evidence id i c (store w').
Proof using Type.
  intros Hp Hrun. eapply (crun_invariant handle_api _ _ (λ w, evidence id i c (store w))); [| |exact Hp|exact Hrun].
  - intros X [| |B e|B e] w0 He Hev; try done; cbn; [|by destruct (respond e (outside w0))].
    apply orb_false_iff in He as [Ht Hr]. pose proof (intents_frame _ e (store w0) Ht) as Hi.
    pose proof (checks_frame _ e (store w0)) as Hc. unfold changes_evidence in Hc. rewrite Ht, Hr in Hc.
    specialize (Hc eq_refl). destruct (handle_store e (store w0)) as [r s']. cbn in *.
    destruct Hev as [Hev1 Hev2]. split; [|by rewrite Hc]. unfold latestOperationalIntent in *. by rewrite Hi.
  - intros w1 w2 [->|Hw] Hev; [done|]. eapply bystanders_keep; [by apply rtc_once|done].
Qed.

(** C11: Preflight guards activation.  After an evaluation of an intent that
    runs alone and blocks, the intent cannot be activated: with any coordinator
    whose check neither writes intents nor records preflight checks (the
    deconfliction service is one: Coordinator.coordinator_keeps_evidence), or
    with none, and whatever other clients do after the evaluation and between the
    calls of the activation, as long as they neither change the latest version
    of the intent nor take away or replace a recorded check.  The checks of the
    evaluation have distinct identifiers, so none of them hides another. *)
Theorem preflight_blocks_activation uuid_Parse deconfliction id w ev w1 i w2 :
  evidence_law deconfliction → store_wf (store w) → id ≠ "" →
  run handle_api (EvaluateIntent id : program _) w = (Ok ev, w1) → Evaluation_Blocked ev = true →
  ¬ crun (S := world Store O) handle_api (other_client (bystander id))
      (ActivateIntent uuid_Parse deconfliction id : program _) w1 (Ok i) w2.
Proof using Type.
  intros Hlaw Hs Hid Hev Hblocked Hact.
  apply (run_alone nobody), EvaluateIntent_evaluated in Hev as [Hi [t Hb] _ (ks & Hks & Hids) Hs1].
  pose proof (latest_row _ _ _ (wf_intents _ Hs) Hi) as [_ Hid'].
  assert (NoDup (PreflightCheck_ID <$> Evaluation_Checks ev)) as Hnd.
  { rewrite Hids. apply NoDup_fmap_2.
    - intros k k' Heq. unfold preflight_id in Heq. by simplify_eq.
    - eapply sublist_NoDup; [|exact Hks]. apply NoDup_evaluation_keys, planned_volumes_distinct; congruence. }
  pose proof (ok_blocked _ _ _ Hb) as Hbl. cbn in Hbl. rewrite Hblocked in Hbl.
  symmetry in Hbl. apply existsb_elem in Hbl as (c & Hc & Hblock).
  assert (evidence id (Evaluation_Intent ev) c (store w1)) as Hw1.
  { rewrite Hs1. split; [exact Hi|]. by apply recorded_checks; [apply (wf_records _ Hs)| |]. }
  unfold ActivateIntent in Hact.
  apply crun_try in Hact as (w3 & i2 & w4 & Hw3 & [Hw4 Hi2]%GetOperationalIntent_Ok & Hact).
  apply (bystanders_keep _ _ _ _ _ Hw3) in Hw1. pose proof (proj1 Hw1) as Hlatest. rewrite Hi2 in Hlatest.
  injection Hlatest as ->. rewrite <- Hw4 in Hw1.
  destruct (_ <>s IntentStatusAccepted); [by destruct Hact|].
  apply crun_bind in Hact as ([[]|err] & w5 & Hcheck & Hact); [|by destruct Hact].
  eapply program_keeps in Hw1; [| |exact Hcheck].
  2: { destruct deconfliction as [d|]; [|done]. apply store_calls_in_bind; [apply Hlaw|].
       intros [r|err]; [|done]. by case_match. }
  apply crun_bind in Hact as ([[]|err] & w6 & Hready & Hact); [|by destruct Hact].
  apply activationReadiness_ready in Hready as (sv & sc & sf & Hsv & Hsc & _ & _ & Hready).
  apply (bystanders_keep _ _ _ _ _ Hsv), (bystanders_keep _ _ _ _ _ Hsc) in Hw1 as [_ Hin].
  pose proof (proj1 (Forall_forall _ _) (ok_checks _ _ _ Hb) c Hc) as (Hci & Hcv & _).
  assert (blocking_check c = false) as Hf by (apply (ready_checks _ _ _ _ Hready); [done|by right|done]).
  apply list_elem_of_lookup in Hc as [n Hn].
  destruct (Forall2_lookup_l _ _ _ _ _ (ok_findings _ _ _ Hb) Hn) as (f & _ & Hcf).
  rewrite (corresponds_check _ _ Hcf) in Hf. congruence.
Qed.
End activation.

(** ** Witnesses *)

#[local] Existing Instance reference_runtime.

Lemma preflight_verdict_witness :
  ∃ ev w', run handle_api (EvaluateIntent "i1" : prog (apiE no_external) _) (demo_world (demo accepted_calls))
           = (Ok ev, w')
    ∧ Evaluation_Blocked ev = unfit (demo accepted_calls) demo_row.
Proof.
  destruct (preflight_verdict (externalE := no_external) (HO := no_outside) "i1" (demo_world (demo accepted_calls))
              demo_row) as (ev & w' & Hrun & _ & Hb & _); [vm_compute; reflexivity|].
  exists ev, w'. split; [exact Hrun|exact Hb].
Defined.

Lemma preflight_blocks_activation_witness :
  ∃ ev w1, run handle_api (EvaluateIntent "i1" : prog (apiE no_external) _) (demo_world (demo accepted_calls))
           = (Ok ev, w1)
    ∧ ∀ i w2, run handle_api (ActivateIntent (λ _, None) None "i1" : prog (apiE no_external) _) w1 ≠ (Ok i, w2).
Proof.
  do 2 eexists. split; [vm_compute; reflexivity|]. intros i w2 Hrun. apply (run_alone (bystander "i1")) in Hrun.
  revert Hrun.
  eapply (preflight_blocks_activation (externalE := no_external) (HO := no_outside) (λ _, None) None "i1"
            (demo_world (demo accepted_calls)));
    [exact I|apply demo_wf|discriminate|vm_compute; reflexivity|reflexivity].
Defined.
