(* ===== verification/Airspace.v ===== *)
(** * Airspace providers

    src/internal/airspaceprovider/provider.go: what a source of airspace
    information and a publisher of intents promise to the deconfliction
    service.  The services call them as programs: the local provider reads the
    durable store, the others leave the process. *)

From S2P Require Import Prelude GoRuntime GoStrings GoFloat GoRange Domain Errors Program MemoryState MemoryFleet MemoryIntents MemorySpatial DurableStore MemoryStore MemoryInvariant.
From stdpp Require Import options.

Definition ProviderLocal : string := "local".
Definition ProviderInterUSS : string := "interuss".

Record Query : Set := mkQuery {
  Query_Intent : OperationalIntent;
  Query_Volumes : list OperationalVolume;
}.

Record Source : Set := mkSource {
  Source_ProviderID : string;
  Source_ReferenceID : string;
  Source_Manager : string;
  Source_USSBaseURL : string;
  Source_Version : Z;
  Source_OVN : string;
  Source_Local : bool;
}.

#[global] Instance Source_eta : Eta Source := λ s,
  mkSource (Source_ProviderID s) (Source_ReferenceID s) (Source_Manager s) (Source_USSBaseURL s)
    (Source_Version s) (Source_OVN s) (Source_Local s).

Definition zero_Source : Source := mkSource "" "" "" "" 0 "" false.

(** airspaceprovider.OperationalIntent *)
Record AirspaceIntent : Set := mkAirspaceIntent {
  Airspace_Source : Source;
  Airspace_Intent : OperationalIntent;
  Airspace_Volumes : list OperationalVolume;
  Airspace_OffNominalVolumes : list OperationalVolume;
}.

#[global] Instance AirspaceIntent_eta : Eta AirspaceIntent := λ r,
  mkAirspaceIntent (Airspace_Source r) (Airspace_Intent r) (Airspace_Volumes r)
    (Airspace_OffNominalVolumes r).

Record PublicationRequest : Set := mkPublicationRequest {
  Request_Intent : OperationalIntent;
  Request_Volumes : list OperationalVolume;
  Request_State : OperationalIntentExternalState;
  Request_Key : list string;
  Request_OVN : string;
  Request_SubscriptionID : string;
}.

Record SubscriptionState : Set := mkSubscriptionState {
  Subscription_ID : string;
  Subscription_NotificationIndex : Z;
}.

Record Subscriber : Set := mkSubscriber {
  Subscriber_USSBaseURL : string;
  Subscriber_Subscriptions : list SubscriptionState;
}.

Record PublicationReceipt : Set := mkPublicationReceipt {
  Receipt_Manager : string;
  Receipt_Version : Z;
  Receipt_OVN : string;
  Receipt_SubscriptionID : string;
  Receipt_USSBaseURL : string;
  Receipt_State : OperationalIntentExternalState;
  Receipt_ReferenceJSON : list Byte.byte;
  Receipt_Subscribers : list Subscriber;
}.

Definition zero_PublicationReceipt : PublicationReceipt := mkPublicationReceipt "" 0 "" "" "" "" [] [].

Section interfaces.
Context {externalE : Type → Type}.
Abbreviation program := (prog (apiE externalE)).

(** A query returns what it found beside its error, if any: a provider can
    report both. *)
Record Provider := mkProvider {
  provider_ID : string;
  FindOperationalIntents : Query → program (list AirspaceIntent * option error);
}.

Record Publisher := mkPublisher {
  PublicationEnabled : bool;
  ValidateOperationalIntent : PublicationRequest → option error;
  CreateOperationalIntent : PublicationRequest → program (outcome PublicationReceipt);
  UpdateOperationalIntent : PublicationRequest → program (outcome PublicationReceipt);
  DeleteOperationalIntent : string → string → program (outcome PublicationReceipt);
  GetOperationalIntentReference : string → program (outcome PublicationReceipt);
  FindSubscribers : list OperationalVolume → program (outcome (list Subscriber));
  BuildPeerNotification :
    PublicationRequest → PublicationReceipt → Subscriber → bool → outcome (list Byte.byte);
  DeliverPeerNotification : string → list Byte.byte → program (option error);
}.
End interfaces.

(** * The local airspace provider

    src/internal/airspaceprovider/local/provider.go: the intents of the durable
    store that are accepted or active, with the volumes of the version in
    effect, found through the store's spatial query. *)

Definition candidateConflictEligible (status : IntentStatus) : bool :=
  (status =s= IntentStatusAccepted) || (status =s= IntentStatusActive).

Definition volumesForVersion (volumes : list OperationalVolume) (version : Z) : list OperationalVolume :=
  select (λ volume, Volume_IntentVersion volume =? version) volumes.

Definition off_nominal (volume : OperationalVolume) : bool :=
  (Volume_VolumeType volume =s= OperationalVolumeContingency)
  || (Volume_VolumeType volume =s= OperationalVolumeEmergency).

Definition local_source (intent : OperationalIntent) : Source :=
  zero_Source <| Source_ProviderID := ProviderLocal |> <| Source_ReferenceID := Intent_ID intent |>
    <| Source_Manager := Intent_OperatorID intent |> <| Source_Version := Intent_Version intent |>
    <| Source_Local := true |>.

(** The record of an intent with all its volumes, off-nominal ones apart. *)
Definition local_record (intent : OperationalIntent) (volumes : list OperationalVolume) : AirspaceIntent :=
  let volumes := volumesForVersion volumes (Intent_Version intent) in
  mkAirspaceIntent (local_source intent) intent
    (select (λ volume, negb (off_nominal volume)) volumes) (select off_nominal volumes).

Definition has_volumes (record : AirspaceIntent) : bool :=
  (0 <? length (Airspace_Volumes record) + length (Airspace_OffNominalVolumes record))%nat.

(** The body of the loop over the candidates once the intent is read. *)
Definition select_intent (selected : gmap string OperationalIntent) (intent : OperationalIntent)
    : gmap string OperationalIntent :=
  if negb (candidateConflictEligible (Intent_Status intent)) then selected
  else
    match selected !! Intent_ID intent with
    | Some current =>
        if Intent_Version current <? Intent_Version intent
        then <[Intent_ID intent := intent]> selected else selected
    | None => <[Intent_ID intent := intent]> selected
    end.

Section provider.
Context {RT : Runtime} {externalE : Type → Type}.
Abbreviation program := (prog (apiE externalE)).

Fixpoint select_candidates (candidates : list Candidate) (selected : gmap string OperationalIntent)
    (readErrors : list error) : program (gmap string OperationalIntent * list error) :=
  match candidates with
  | [] => Ret (selected, readErrors)
  | candidate :: rest =>
      let! read := durable (Durable.GetOperationalIntentVersion (Candidate_IntentID candidate)
                              (Candidate_IntentVersion candidate)) in
      match read with
      | Err err =>
          if errors_Is err ErrNotFound then select_candidates rest selected readErrors
          else select_candidates rest selected
                 (readErrors ++ [wrap ("get candidate " +:+ Candidate_IntentID candidate +:+ " v"
                                         +:+ Itoa (Candidate_IntentVersion candidate)) err])
      | Ok intent => select_candidates rest (select_intent selected intent) readErrors
      end
  end.

Fixpoint collect_records (ids : list string) (selected : gmap string OperationalIntent)
    (records : list AirspaceIntent) (readErrors : list error)
    : program (list AirspaceIntent * list error) :=
  match ids with
  | [] => Ret (records, readErrors)
  | id :: rest =>
      let intent := default zero_OperationalIntent (selected !! id) in
      let! listed := durable (Durable.ListOperationalVolumes id) in
      match listed with
      | Err err =>
          collect_records rest selected records
            (readErrors ++ [wrap ("list candidate " +:+ id +:+ " volumes") err])
      | Ok volumes =>
          let record := local_record intent volumes in
          collect_records rest selected (if has_volumes record then records ++ [record] else records)
            readErrors
      end
  end.

Definition FindLocalIntents (query : Query) : program (list AirspaceIntent * option error) :=
  let! found := durable (Durable.FindCandidates
    (mkCandidateQuery (Intent_ID (Query_Intent query)) (Airspace.Query_Volumes query))) in
  match found with
  | Err err => Ret ([], Some (wrap "find local spatial candidates" err))
  | Ok candidates =>
      let! '(selected, readErrors) := select_candidates candidates ∅ [] in
      let ids := sort_strings (map_range selected).*1 in
      let! '(records, readErrors) := collect_records ids selected [] readErrors in
      Ret (records, errors_Join_all readErrors)
  end.

Definition local_provider : Provider := mkProvider ProviderLocal FindLocalIntents.
End provider.

(** * Discovery in the in-memory store

    What the local provider finds when its store is the in-memory one and no
    other client acts meanwhile: every intent in effect with a volume that
    could overlap, in its highest such version. *)

Section discovery.
Context {RT : Runtime} {externalE : Type → Type} {O : Type} {HO : Outside externalE O}.
Abbreviation world := (world Store O).

(** The row of an intent that others must stay clear of. *)
Definition in_effect (s : Store) (i : OperationalIntent) : Prop :=
  operationalIntents s !! intent_key i = Some i
  ∧ (Intent_Status i = IntentStatusAccepted ∨ Intent_Status i = IntentStatusActive).

Lemma candidateConflictEligible_iff status :
  candidateConflictEligible status = true ↔ status = IntentStatusAccepted ∨ status = IntentStatusActive.
Proof using Type. unfold candidateConflictEligible. by rewrite orb_true_iff, !String.eqb_eq. Qed.

(** A stored volume of a version of an intent. *)
Definition volume_of (s : Store) (i : OperationalIntent) (p : OperationalVolume) : Prop :=
  (∃ k, operationalVolumes s !! k = Some p)
  ∧ Volume_IntentID p = Intent_ID i ∧ Volume_IntentVersion p = Intent_Version i.

Definition read_candidate (s : Store) (selected : gmap string OperationalIntent) (c : Candidate)
    : gmap string OperationalIntent :=
  match GetOperationalIntentVersion (Candidate_IntentID c) (Candidate_IntentVersion c) s with
  | Ok intent => select_intent selected intent
  | Err _ => selected
  end.

Lemma run_select_candidates candidates selected errs (w : world) :
  run handle_api (select_candidates (externalE := externalE) candidates selected errs) w
  = ((foldl (read_candidate (store w)) selected candidates, errs), w).
Proof using Type.
  revert selected. induction candidates as [|c rest IH]; intros selected; cbn [select_candidates]; [done|].
  unfold durable, call. cbn. unfold read_candidate at 2, GetOperationalIntentVersion, get_or_not_found.
  destruct (operationalIntents (store w) !! _); cbn; destruct w; apply IH.
Qed.

Definition stored_volumes (s : Store) (id : string) : list OperationalVolume :=
  match ListOperationalVolumes id s with Ok volumes => volumes | Err _ => [] end.

Definition record_for (s : Store) (selected : gmap string OperationalIntent) (id : string) : AirspaceIntent :=
  local_record (default zero_OperationalIntent (selected !! id)) (stored_volumes s id).

Lemma run_collect_records ids selected records errs (w : world) :
  run handle_api (collect_records (externalE := externalE) ids selected records errs) w
  = ((records ++ select has_volumes (map (record_for (store w) selected) ids), errs), w).
Proof using Type.
  revert records. induction ids as [|id rest IH]; intros records; cbn [collect_records].
  - cbn. by rewrite app_nil_r.
  - cbn [map]. rewrite select_cons. destruct w as [cl uu ti dr st ou].
    unfold durable, call. cbn -[has_volumes local_record record_for select].
    rewrite IH. cbn [store]. f_equal. f_equal.
    change (local_record _ _) with (record_for st selected id).
    destruct (has_volumes (record_for st selected id)); [|done]. by rewrite <- app_assoc.
Qed.

(** ** The selection *)

Definition selected_from (s : Store) (candidates : list Candidate)
    (selected : gmap string OperationalIntent) : Prop :=
  ∀ id i, selected !! id = Some i → Intent_ID i = id ∧ in_effect s i
    ∧ mkCandidate (Intent_ID i) (Intent_Version i) ∈ candidates.

Definition selected_above (s : Store) (candidates : list Candidate)
    (selected : gmap string OperationalIntent) : Prop :=
  ∀ i, in_effect s i → mkCandidate (Intent_ID i) (Intent_Version i) ∈ candidates →
    ∃ j, selected !! Intent_ID i = Some j ∧ Intent_Version i ≤ Intent_Version j.

Lemma select_intent_lookup selected i id j :
  select_intent selected i !! id = Some j → selected !! id = Some j ∨ j = i ∧ id = Intent_ID i
    ∧ (Intent_Status i = IntentStatusAccepted ∨ Intent_Status i = IntentStatusActive).
Proof using Type.
  rewrite <- candidateConflictEligible_iff.
  unfold select_intent. destruct (candidateConflictEligible _); cbn [negb]; [|by left].
  destruct (selected !! Intent_ID i); [destruct (_ <? _); [|by left]|];
    (intros [[<- <-]|[_ ?]]%lookup_insert_Some; [by right|by left]).
Qed.

(** A selection only moves up, and takes what it is offered. *)
Lemma select_intent_up selected i id j :
  selected !! id = Some j →
  ∃ j', select_intent selected i !! id = Some j' ∧ Intent_Version j ≤ Intent_Version j'.
Proof using Type.
  intros Hj. assert (∃ j', selected !! id = Some j' ∧ Intent_Version j ≤ Intent_Version j') as Hsame
    by (exists j; split; [done|lia]).
  unfold select_intent. destruct (candidateConflictEligible _); cbn [negb]; [|done].
  destruct (decide (Intent_ID i = id)) as [<-|Hne].
  - rewrite Hj. destruct (Z.ltb_spec (Intent_Version j) (Intent_Version i)); [|done].
    exists i. rewrite lookup_insert_eq. split; [done|lia].
  - destruct (selected !! Intent_ID i); [destruct (_ <? _); [|done]|]; by rewrite lookup_insert_ne.
Qed.

Lemma select_intent_takes selected i :
  Intent_Status i = IntentStatusAccepted ∨ Intent_Status i = IntentStatusActive →
  ∃ j, select_intent selected i !! Intent_ID i = Some j ∧ Intent_Version i ≤ Intent_Version j.
Proof using Type.
  rewrite <- candidateConflictEligible_iff. intros Hel. unfold select_intent. rewrite Hel. cbn [negb].
  destruct (selected !! Intent_ID i) as [j|] eqn:Hj.
  - destruct (Z.ltb_spec (Intent_Version j) (Intent_Version i)); [exists i; rewrite lookup_insert_eq|exists j];
      (split; [done|lia]).
  - exists i. rewrite lookup_insert_eq. split; [done|lia].
Qed.

Lemma read_candidate_lookup s selected c :
  store_wf s →
  read_candidate s selected c = selected
    ∧ operationalIntents s !! operationalIntentKey (Candidate_IntentID c) (Candidate_IntentVersion c) = None
  ∨ ∃ i, operationalIntents s !! intent_key i = Some i
      ∧ c = mkCandidate (Intent_ID i) (Intent_Version i) ∧ read_candidate s selected c = select_intent selected i.
Proof using Type.
  intros Hwf. unfold read_candidate, GetOperationalIntentVersion, get_or_not_found.
  destruct (operationalIntents s !! _) as [i|] eqn:Hi; [right|by left].
  pose proof (wf_intents _ Hwf _ _ Hi) as Hkey. cbn in Hkey. unfold intent_key in Hkey.
  apply operationalIntentKey_inj' in Hkey as Hinj. destruct Hinj as [Hid Hv]. exists i. split.
  - unfold intent_key. by rewrite <- Hid, <- Hv.
  - split; [|done]. destruct c; cbn in *. by subst.
Qed.

Lemma selection_spec s candidates :
  store_wf s →
  let selected := foldl (read_candidate s) ∅ candidates in
  selected_from s candidates selected ∧ selected_above s candidates selected.
Proof using Type.
  intros Hwf. cbn zeta. induction candidates as [|c candidates [IHfrom IHabove]] using rev_ind.
  - cbn. split; [by intros ? ?; rewrite lookup_empty|by intros ? _ ?%elem_of_nil].
  - rewrite foldl_app. cbn. set (selected := foldl _ _ _) in *.
    destruct (read_candidate_lookup s selected c Hwf) as [[-> Hnone]|(i & Hrow & -> & ->)].
    + split.
      * intros id i Hi. destruct (IHfrom _ _ Hi) as (?&?&?). split; [done|]. split; [done|]. set_solver.
      * intros i Hi [Hc|Hc%list_elem_of_singleton]%elem_of_app; [by apply IHabove|].
        rewrite <- Hc in Hnone.
        destruct Hi as [Hrow _]. cbn in Hnone. unfold intent_key in Hrow. congruence.
    + split.
      * intros id j [Hj|(-> & -> & Hel)]%select_intent_lookup.
        -- destruct (IHfrom _ _ Hj) as (?&?&?). split; [done|]. split; [done|]. set_solver.
        -- split; [done|]. split; [done|]. set_solver.
      * intros j Hj [Hc|Heq%list_elem_of_singleton]%elem_of_app.
        -- destruct (IHabove _ Hj Hc) as (k & Hk & Hle).
           destruct (select_intent_up _ i _ _ Hk) as (k' & ? & ?). exists k'. split; [done|lia].
        -- injection Heq as Hid Hv. destruct Hj as [Hj Hel].
           assert (j = i) as ->.
           { unfold intent_key in Hj, Hrow. rewrite Hid, Hv in Hj. congruence. }
           by apply select_intent_takes.
Qed.

(** ** The records *)

Lemma elem_of_stored_volumes s id p :
  p ∈ stored_volumes s id ↔ (∃ k, operationalVolumes s !! k = Some p) ∧ (id = "" ∨ Volume_IntentID p = id).
Proof using Type.
  unfold stored_volumes. cbn [ListOperationalVolumes].
  rewrite elem_of_sort_slice, elem_of_select, elem_of_range_values, orb_true_iff, !String.eqb_eq. done.
Qed.

Lemma elem_of_local_record i volumes p :
  let r := local_record i volumes in
  p ∈ Airspace_Volumes r ++ Airspace_OffNominalVolumes r ↔ p ∈ volumes ∧ Volume_IntentVersion p = Intent_Version i.
Proof using Type.
  cbn. rewrite elem_of_app, !elem_of_select. unfold volumesForVersion. rewrite elem_of_select, Z.eqb_eq.
  destruct (off_nominal p); naive_solver.
Qed.

Lemma volume_of_record s i p :
  volume_of s i p →
  let r := local_record i (stored_volumes s (Intent_ID i)) in p ∈ Airspace_Volumes r ++ Airspace_OffNominalVolumes r.
Proof using Type.
  intros (Hk & Hid & Hv). cbn zeta. apply elem_of_local_record. split; [|done].
  apply elem_of_stored_volumes. auto.
Qed.

Lemma has_volumes_elem r p : p ∈ Airspace_Volumes r ++ Airspace_OffNominalVolumes r → has_volumes r = true.
Proof using Type.
  unfold has_volumes. rewrite <- length_app. intros Hp. by destruct (_ ++ _); [apply elem_of_nil in Hp|].
Qed.

Definition local_record_of (s : Store) (i : OperationalIntent) : AirspaceIntent :=
  local_record i (stored_volumes s (Intent_ID i)).

(** What a list of records says about a store, for an intent and its volumes. *)
Record discovered (s : Store) (own : string) (volumes : list OperationalVolume)
    (records : list AirspaceIntent) : Prop := {
  discovered_once : NoDup (map (λ r, Intent_ID (Airspace_Intent r)) records);
  discovered_sound : ∀ r, r ∈ records → ∃ i, in_effect s i ∧ Intent_ID i ≠ own ∧ r = local_record_of s i;
  discovered_complete : ∀ i p, in_effect s i → volume_of s i p → Intent_ID i ≠ own →
    couldOverlap volumes p = true →
    ∃ j, in_effect s j ∧ Intent_ID j = Intent_ID i ∧ Intent_Version i ≤ Intent_Version j
      ∧ local_record_of s j ∈ records;
}.

Lemma elem_of_selected_ids (m : gmap string OperationalIntent) id :
  id ∈ sort_strings (map_range m).*1 ↔ ∃ i, m !! id = Some i.
Proof using Type.
  unfold sort_strings. rewrite elem_of_sort_slice, list_elem_of_fmap. split.
  - intros ([k i] & -> & Hi). exists i. by apply elem_of_range.
  - intros [i Hi]. exists (id, i). split; [done|]. by apply elem_of_range.
Qed.

Lemma NoDup_selected_ids (m : gmap string OperationalIntent) : NoDup (sort_strings (map_range m).*1).
Proof using Type. unfold sort_strings. rewrite sort_slice_perm. apply NoDup_range. Qed.

Lemma discovered_selected s own volumes candidates selected :
  FindCandidates (mkCandidateQuery own volumes) s = Ok candidates →
  selected_from s candidates selected → selected_above s candidates selected →
  discovered s own volumes
    (select has_volumes (map (record_for s selected) (sort_strings (map_range selected).*1))).
Proof using Type.
  intros Hcand Hfrom Habove.
  assert (∀ id i, selected !! id = Some i → record_for s selected id = local_record_of s i) as Hrecord.
  { intros id i Hi. destruct (Hfrom _ _ Hi) as [<- _]. unfold record_for, local_record_of. by rewrite Hi. }
  split.
  - apply (NoDup_fmap_select (λ r, Intent_ID (Airspace_Intent r))).
    rewrite <- list_fmap_compose. erewrite (list_fmap_ext _ id).
    + rewrite list_fmap_id. apply NoDup_selected_ids.
    + intros n id Hid%list_elem_of_lookup_2. apply elem_of_selected_ids in Hid as [i Hi].
      unfold compose. rewrite (Hrecord _ _ Hi). cbn. by destruct (Hfrom _ _ Hi).
  - intros r [(id & Hid & <-)%elem_of_map_list _]%elem_of_select. apply elem_of_selected_ids in Hid as [i Hi].
    rewrite (Hrecord _ _ Hi). destruct (Hfrom _ _ Hi) as (_ & Heff & Hc). exists i. split; [done|]. split; [|done].
    rewrite (elem_of_FindCandidates _ _ _ _ Hcand) in Hc. destruct Hc as (k & v & _ & Hv & Hne & _).
    unfold volume_candidate in Hv. cbn in Hne. congruence.
  - intros i p Heff ((k & Hk) & Hid & Hv) Hne Hover.
    destruct (Habove i Heff) as (j & Hj & Hle).
    { apply (elem_of_FindCandidates _ _ _ _ Hcand). exists k, p. unfold volume_candidate. cbn. rewrite Hid, Hv. done. }
    destruct (Hfrom _ _ Hj) as (Hjid & Hjeff & Hjc). exists j. split; [done|]. split; [done|]. split; [done|].
    apply elem_of_select. split.
    + apply elem_of_map_list. exists (Intent_ID i). split; [by apply elem_of_selected_ids; exists j|].
      by apply Hrecord.
    + rewrite (elem_of_FindCandidates _ _ _ _ Hcand) in Hjc. destruct Hjc as (k' & q & Hq & Hqc & _).
      apply (has_volumes_elem _ q). apply volume_of_record. injection Hqc as ? ?. split; [by exists k'|done].
Qed.

Lemma run_find_local query (w : world) :
  store_wf (store w) →
  ∃ records, run handle_api (FindLocalIntents (externalE := externalE) query) w = ((records, None), w)
    ∧ discovered (store w) (Intent_ID (Query_Intent query)) (Airspace.Query_Volumes query) records.
Proof using Type.
  intros Hwf.
  destruct (FindCandidates (mkCandidateQuery (Intent_ID (Query_Intent query)) (Airspace.Query_Volumes query)) (store w))
    as [candidates|err] eqn:Hcand; [|done].
  destruct (selection_spec (store w) candidates Hwf) as [Hfrom Habove].
  eexists. split; [|by eapply discovered_selected].
  unfold FindLocalIntents, durable, call.
  cbn -[FindCandidates select_candidates collect_records sort_strings]. rewrite Hcand.
  assert (w <| store := store w |> = w) as -> by by destruct w.
  cbn -[select_candidates collect_records sort_strings].
  rewrite run_bind, run_select_candidates. rewrite run_bind, run_collect_records. done.
Qed.
End discovery.
