(* ===== verification/ScdMessages.v ===== *)
(** * Messages of the coordination service

    The messages of the InterUSS strategic coordination API that
    src/internal/airspaceprovider/interuss uses.  Their package is generated
    outside of the repository: a field whose JSON can have several shapes keeps
    its text, and is read and written by accessors that can fail.  The accessors,
    the encoding of whole messages and the calls of the service are parameters. *)

From S2P Require Import Prelude GoRuntime GoStrings GoFloat GoJson GoNet Domain Errors.
From stdpp Require Import options.

(** ** Fields with accessors *)

Class Unions := {
  (** A field that is read and written as an [A]. *)
  union : Set → Set;
  As {A : Set} : union A → outcome A;
  From {A : Set} : A → outcome (union A);
}.

(** What was written is read back. *)
Class UnionLaws `{Unions} : Prop := {
  As_From {A : Set} (a : A) (u : union A) : From a = Ok u → As u = Ok a;
}.

Definition W84 : string := "W84".
Definition AltitudeUnitsM : string := "M".
Definition RadiusUnitsM : string := "M".
Definition RFC3339 : string := "RFC3339".

Record LatLngPoint : Set := mkLatLngPoint { Lat : float64; Lng : float64 }.
Record Altitude : Set := mkAltitude { Altitude_Reference : string; Altitude_Units : string; Altitude_Value : float64 }.
Record Radius : Set := mkRadius { Radius_Units : string; Radius_Value : float64 }.
Record Circle : Set := mkCircle { Circle_Center : option LatLngPoint; Circle_Radius : option Radius }.
Record ScdTime : Set := mkScdTime { ScdTime_Format : string; ScdTime_Value : Time }.

(** States of an intent. *)
Definition Accepted : string := "Accepted".
Definition Activated : string := "Activated".
Definition Nonconforming : string := "Nonconforming".
Definition Contingent : string := "Contingent".

Section messages.
Context {U : Unions}.

Record Volume3D : Set := mkVolume3D {
  AltitudeLower : option (union Altitude);
  AltitudeUpper : option (union Altitude);
  OutlinePolygon : option (union (list LatLngPoint));
  OutlineCircle : option (union Circle);
}.

Record Volume4D : Set := mkVolume4D {
  TimeStart : option (union ScdTime);
  TimeEnd : option (union ScdTime);
  Volume4D_Volume : Volume3D;
}.

(** An identifier, a UUID read as its text. *)
Abbreviation uuid := (union string).

Record Reference : Set := mkReference {
  Reference_Id : uuid;
  Reference_Manager : string;
  Reference_Version : Z;
  Reference_State : string;
  Reference_Ovn : option (union string);
  Reference_UssBaseUrl : union string;
  Reference_SubscriptionId : union uuid;
}.

Record Details : Set := mkDetails {
  Details_Priority : option Z;
  Details_Volumes : option (list Volume4D);
  Details_OffNominalVolumes : option (list Volume4D);
}.

Record ScdIntent : Set := mkScdIntent { ScdIntent_Reference : Reference; ScdIntent_Details : Details }.

Record SubscriptionEntry : Set := mkSubscriptionEntry {
  Entry_SubscriptionId : uuid;
  Entry_NotificationIndex : Z;
}.

Record SubscriberToNotify : Set := mkSubscriberToNotify {
  ToNotify_UssBaseUrl : union string;
  ToNotify_Subscriptions : list SubscriptionEntry;
}.

Record ChangeResponse : Set := mkChangeResponse {
  Change_Reference : Reference;
  Change_Subscribers : list SubscriberToNotify;
}.

Record SubscriptionMessage : Set := mkSubscriptionMessage {
  Subscription_Id : uuid;
  Subscription_UssBaseUrl : union string;
  Subscription_NotifyForOperationalIntents : option bool;
  Subscription_Index : Z;
}.

Record ImplicitSubscription : Set := mkImplicitSubscription {
  Implicit_NotifyForConstraints : option bool;
  Implicit_UssBaseUrl : union (union string);
}.

(** scdv1.PutOperationalIntentReferenceParameters *)
Record ReferenceParameters : Set := mkReferenceParameters {
  Parameters_Extents : list Volume4D;
  Parameters_State : string;
  Parameters_UssBaseUrl : union string;
  Parameters_Key : option (union (list string));
  Parameters_SubscriptionId : option (union uuid);
  Parameters_NewSubscription : option (union ImplicitSubscription);
}.

#[global] Instance ReferenceParameters_eta : Eta ReferenceParameters := λ r,
  mkReferenceParameters (Parameters_Extents r) (Parameters_State r) (Parameters_UssBaseUrl r)
    (Parameters_Key r) (Parameters_SubscriptionId r) (Parameters_NewSubscription r).

(** scdv1.PutOperationalIntentDetailsParameters *)
Record DetailsParameters : Set := mkDetailsParameters {
  DetailsP_OperationalIntentId : union uuid;
  DetailsP_Subscriptions : list SubscriptionEntry;
  DetailsP_OperationalIntent : option (union ScdIntent);
}.

(** ** Encoding of whole messages *)

Class ScdLibrary := {
  (** [dss.SCDEntityID], [dss.SCDSubscriptionID]: the text has to be a UUID. *)
  SCDEntityID : string → outcome uuid;
  SCDSubscriptionID : string → outcome uuid;
  marshal_reference : Reference → outcome (list Byte.byte);
  unmarshal_reference : list Byte.byte → outcome Reference;
  marshal_notification : DetailsParameters → outcome (list Byte.byte);
  unmarshal_notification : list Byte.byte → outcome DetailsParameters;
  (** [json.Marshal] of a polygon, and the messages of [json.Unmarshal]. *)
  marshal_polygon : list (list float64) → outcome string;
  geojson_error_text : string → string;
  (** The message of an answer that is not a success. *)
  scd_error_text : Z → string → list Byte.byte → string;
  (** [client.NewSCDPeer] *)
  NewSCDPeer : string → outcome unit;
}.
End messages.

(** A polygon in GeoJSON. *)
Definition polygon_json (positions : list (list float64)) : json :=
  Jobject [("type", Jstring "Polygon");
           ("coordinates", Jarray [Jarray (map (λ position, Jarray (map Jnumber position)) positions)])].

(** [json.Marshal] writes a text that says the polygon, with no white space
    around it. *)
Class ScdLaws `{ScdLibrary} : Prop := {
  polygon_text positions text : marshal_polygon positions = Ok text →
    json_value text = Some (polygon_json positions) ∧ TrimSpace text = text;
}.

(** *** A concrete library

    Fields that keep their value, and polygons whose coordinates are whole
    degrees. *)

Definition reference_unions : Unions := {|
  union A := A;
  As A a := Ok a;
  From A a := Ok a;
|}.
#[local] Existing Instance reference_unions.

Lemma reference_unions_laws : UnionLaws.
Proof. split. by intros A a u [= ->]. Qed.
#[local] Existing Instance reference_unions_laws.

Definition whole_degrees (x : float64) : option string :=
  Itoa <$> List.find (λ z, bool_decide (float_of_Z z = x)) (seqZ (-180) 361).

Definition position_text (position : list float64) : option string :=
  (λ numbers, "[" +:+ String.concat "," numbers +:+ "]") <$> mapM whole_degrees position.

Definition polygon_document (positions : list (list float64)) : option string :=
  (λ items, quoted_text "{'type':'Polygon','coordinates':[[" +:+ String.concat "," items +:+ "]]}")
    <$> mapM position_text positions.

(** The positions that a polygon says. *)
Definition position_said (v : json) : option (list float64) :=
  match v with Jarray l => mapM (λ v, match v with Jnumber x => Some x | _ => None end) l | _ => None end.

Definition polygon_said (v : json) : option (list (list float64)) :=
  match v with
  | Jobject [(k1, Jstring type); (k2, Jarray [Jarray items])] =>
      if (k1 =s= "type") && (type =s= "Polygon") && (k2 =s= "coordinates") then mapM position_said items else None
  | _ => None
  end.

Definition reference_marshal (positions : list (list float64)) : outcome string :=
  match polygon_document positions with
  | Some text =>
      if bool_decide (json_value text ≫= polygon_said = Some positions) && (TrimSpace text =s= text)
      then Ok text else Err (plain "unsupported value")
  | None => Err (plain "unsupported value")
  end.

Definition reference_scd : ScdLibrary := {|
  SCDEntityID := λ id, Ok id;
  SCDSubscriptionID := λ id, Ok id;
  marshal_reference := λ _, Ok [];
  unmarshal_reference := λ _, Err (plain "unexpected end of JSON input");
  marshal_notification := λ _, Ok [];
  unmarshal_notification := λ _, Err (plain "unexpected end of JSON input");
  marshal_polygon := reference_marshal;
  geojson_error_text := λ _, "unexpected end of JSON input";
  scd_error_text := λ _ status _, status;
  NewSCDPeer := λ _, Ok tt;
|}.
#[local] Existing Instance reference_scd.

Lemma position_said_eq v position : position_said v = Some position → v = Jarray (map Jnumber position).
Proof.
  destruct v as [| | | |l|]; try done. cbn. intros H%mapM_Some. f_equal.
  induction H as [|v x l position Hx _ IH]; [done|]. destruct v; try done. injection Hx as ->. cbn. by rewrite IH.
Qed.

Lemma polygon_said_eq v positions : polygon_said v = Some positions → v = polygon_json positions.
Proof.
  destruct v as [| | | | |m]; try done. cbn.
  destruct m as [|[k1 v1] [|[k2 v2] m]]; [done|by destruct v1|]. destruct v1; try done.
  destruct v2 as [| | | |[|[| | | |items|] [|? ?]]|], m; try done.
  destruct (String.eqb_spec k1 "type") as [->|]; [|done]. destruct (String.eqb_spec s "Polygon") as [->|]; [|done].
  destruct (String.eqb_spec k2 "coordinates") as [->|]; [|done]. cbn. intros H%mapM_Some.
  assert (items = map (λ position, Jarray (map Jnumber position)) positions) as ->; [|done].
  induction H as [|v position items positions Hv _ IH]; [done|]. cbn. by rewrite <- IH, (position_said_eq _ _ Hv).
Qed.

Lemma reference_scd_laws : ScdLaws.
Proof.
  split. intros positions text. cbn. unfold reference_marshal. destruct (polygon_document positions) as [t|]; [|done].
  destruct (bool_decide _ && _) eqn:Hcheck; [|done]. intros [= ->].
  apply andb_true_iff in Hcheck as [Hsaid%bool_decide_eq_true Htrim%String.eqb_eq]. split; [|done].
  destruct (json_value text) as [v|]; [|done]. f_equal. by apply polygon_said_eq.
Qed.
#[local] Existing Instance reference_scd_laws.

(** ** Answers *)

Record HttpResponse (A : Type) := mkHttpResponse {
  StatusCode : Z;
  Status : string;
  Body : list Byte.byte;
  (** The body, when it was decoded for the expected status. *)
  JSON : option A;
}.
Arguments mkHttpResponse {A}.
Arguments StatusCode {A}.
Arguments Status {A}.
Arguments Body {A}.
Arguments JSON {A}.


(** [url.Parse]: what is read of the result.  [url_User] tells whether there is
    user information. *)
Record URL : Set := mkURL {
  url_Scheme : string;
  url_User : bool;
  url_Host : string;
  url_Hostname : string;
  url_RawQuery : string;
  url_Fragment : string;
}.

Class UrlLibrary := {
  url_Parse : string → outcome URL;
  url_ParseRequestURI : string → outcome URL;
  (** The message of [net.SplitHostPort] on an address without host and port. *)
  split_error_text : string → string;
}.

(** ** Calls of the coordination service and of its peers *)

Section calls.
Context {U : Unions}.

Inductive dssE : Type → Type :=
  | QueryOperationalIntentReferences (area : Volume4D) : dssE (outcome (HttpResponse (list Reference)))
  | PeerGetOperationalIntent (reference : Reference) : dssE (outcome ScdIntent)
  | CreateReference (id : union string) (body : ReferenceParameters) : dssE (outcome (HttpResponse ChangeResponse))
  | UpdateReference (id : union string) (ovn : string) (body : ReferenceParameters)
      : dssE (outcome (HttpResponse ChangeResponse))
  | DeleteReference (id : union string) (ovn : string) : dssE (outcome (HttpResponse ChangeResponse))
  | GetReference (id : union string) : dssE (outcome (HttpResponse Reference))
  | QuerySubscriptions (area : Volume4D) : dssE (outcome (HttpResponse (list SubscriptionMessage)))
  | NotifyPeer (baseURL : string) (body : DetailsParameters) : dssE (outcome (HttpResponse unit)).
End calls.
