(* ===== verification/Geometry.v ===== *)
(** * Bounding boxes of volumes

    src/internal/service/deconfliction/conflict.go: the box of an inline GeoJSON
    polygon, its enlargement by a buffer, the overlap of boxes, and the
    conflicts between the volumes of two intents. *)

From S2P Require Import Prelude GoRuntime GoFloat GoJson Domain Errors Airspace.
From stdpp Require Import options.

(** What the model leaves open of the standard library: the cosine, whose last
    bits depend on the platform, and the wording of some messages. *)
Class Library := {
  math_Cos : float64 → float64;
  (** The message of the error of [json.Unmarshal] on a text. *)
  json_error_text : string → string;
  (** [%q] of [fmt] on a value that is not a string. *)
  format_q : option json → string;
}.

Record geoBounds : Set := mkBounds {
  minLat : float64;
  maxLat : float64;
  minLon : float64;
  maxLon : float64;
}.

#[global] Instance geoBounds_eta : Eta geoBounds := λ b,
  mkBounds (minLat b) (maxLat b) (minLon b) (maxLon b).

Definition zero_geoBounds : geoBounds := mkBounds float_zero float_zero float_zero float_zero.

Definition overlaps (bounds other : geoBounds) : bool :=
  f_le (minLat bounds) (maxLat other) && f_le (minLat other) (maxLat bounds)
  && f_le (minLon bounds) (maxLon other) && f_le (minLon other) (maxLon bounds).

Definition domainBounds (bounds : geoBounds) : GeoBounds :=
  mkGeoBounds (minLat bounds) (minLon bounds) (maxLat bounds) (maxLon bounds).

Definition is_finite (x : float64) : bool := negb (f_is_nan x) && negb (f_is_inf x).

Definition geoJSONPosition (value : json) : outcome (float64 * float64) :=
  match value with
  | Jarray (first :: second :: _) =>
      match first, second with
      | Jnumber lon, Jnumber lat =>
          if negb (is_finite lat && is_finite lon)
          then Err (plain "operational volume GeoJSON polygon contains a non-finite coordinate")
          else if f_lt lon (float_of_Z (-180)) || f_lt (float_of_Z 180) lon
                  || f_lt lat (float_of_Z (-90)) || f_lt (float_of_Z 90) lat
          then Err (plain "operational volume GeoJSON polygon coordinate is outside valid longitude/latitude range")
          else Ok (lon, lat)
      | _, _ => Err (plain "operational volume GeoJSON polygon contains a non-finite coordinate")
      end
  | _ => Err (plain "operational volume GeoJSON polygon contains an invalid coordinate")
  end.

(** The loop over the exterior ring: the first and the last position, and the
    box of the positions so far. *)
Definition extend (bounds : geoBounds) (lon lat : float64) : geoBounds :=
  mkBounds (f_min (minLat bounds) lat) (f_max (maxLat bounds) lat)
    (f_min (minLon bounds) lon) (f_max (maxLon bounds) lon).

Definition empty_bounds : geoBounds :=
  mkBounds float_max (f_neg float_max) float_max (f_neg float_max).

Fixpoint scan_ring (items : list json) (ends : option ((float64 * float64) * (float64 * float64)))
    (bounds : geoBounds)
    : outcome (option ((float64 * float64) * (float64 * float64)) * geoBounds) :=
  match items with
  | [] => Ok (ends, bounds)
  | item :: items' =>
      match geoJSONPosition item with
      | Err e => Err e
      | Ok (lon, lat) =>
          let first := match ends with Some (first, _) => first | None => (lon, lat) end in
          scan_ring items' (Some (first, (lon, lat))) (extend bounds lon lat)
      end
  end.

Section geometry.
Context {LIB : Library}.

Definition quoted (v : option json) : string :=
  match v with Some (Jstring s) => quote s | _ => format_q v end.

Definition has_type (decoded : list (string * json)) (name : string) : bool :=
  match member decoded "type" with Some (Jstring s) => s =s= name | _ => false end.

(** The positions of the exterior ring of the polygon, still undecoded. *)
Definition exterior_ring (raw : string) : outcome (list json) :=
  match json_unmarshal_map raw with
  | None => Err (plain ("operational volume GeoJSON is malformed: " +:+ json_error_text raw))
  | Some decoded =>
      let geometry :=
        if has_type decoded "Feature" then
          match member decoded "geometry" with Some (Jobject geometry) => Some geometry | _ => None end
        else Some decoded in
      match geometry with
      | None => Err (plain "operational volume GeoJSON feature has no geometry")
      | Some decoded =>
          if negb (has_type decoded "Polygon")
          then Err (plain ("operational volume GeoJSON type " +:+ quoted (member decoded "type")
                             +:+ " is not supported for local deconfliction"))
          else
            match member decoded "coordinates" with
            | Some (Jarray (first :: _)) =>
                match first with
                | Jarray exterior =>
                    if (length exterior <? 4)%nat
                    then Err (plain "operational volume GeoJSON polygon exterior ring is invalid")
                    else Ok exterior
                | _ => Err (plain "operational volume GeoJSON polygon exterior ring is invalid")
                end
            | _ => Err (plain "operational volume GeoJSON polygon has no coordinates")
            end
      end
  end.

Definition geoJSONBounds (raw : string) : outcome geoBounds :=
  match exterior_ring raw with
  | Err e => Err e
  | Ok exterior =>
      match scan_ring exterior None empty_bounds with
      | Err e => Err e
      | Ok (ends, bounds) =>
          let '((firstLon, firstLat), (lastLon, lastLat)) :=
            default ((float_zero, float_zero), (float_zero, float_zero)) ends in
          if negb (f_eq firstLon lastLon) || negb (f_eq firstLat lastLat)
          then Err (plain "operational volume GeoJSON polygon exterior ring is not closed")
          else if f_lt (float_of_Z 180) (f_sub (maxLon bounds) (minLon bounds))
          then Err (plain "operational volume GeoJSON polygon crosses the antimeridian")
          else Ok bounds
      end
  end.

Definition expanded (bounds : geoBounds) (meters : float64) : outcome geoBounds :=
  if f_lt meters float_zero then Err (plain "operational volume has a negative geometry buffer")
  else if f_eq meters float_zero then Ok bounds
  else
    let metersPerDegree := float_of_Z 110000 in
    let latitudeDelta := f_div meters metersPerDegree in
    let maxAbsLatitude := f_max (f_abs (minLat bounds)) (f_abs (maxLat bounds)) in
    let cosLatitude :=
      math_Cos (f_div (f_mul (f_add maxAbsLatitude latitudeDelta) float_pi) (float_of_Z 180)) in
    let cosLatitude :=
      if f_lt cosLatitude (float_of_decimal 1 (-2)) then float_of_decimal 1 (-2) else cosLatitude in
    let longitudeDelta := f_div meters (f_mul metersPerDegree cosLatitude) in
    let bounds := mkBounds
      (f_max (float_of_Z (-90)) (f_sub (minLat bounds) latitudeDelta))
      (f_min (float_of_Z 90) (f_add (maxLat bounds) latitudeDelta))
      (f_sub (minLon bounds) longitudeDelta)
      (f_add (maxLon bounds) longitudeDelta) in
    if f_lt (minLon bounds) (float_of_Z (-180)) || f_lt (float_of_Z 180) (maxLon bounds)
    then Err (plain "operational volume buffer crosses the antimeridian")
    else Ok bounds.
End geometry.

(** ** The box of a polygon *)

Definition on_globe (lon lat : float64) : Prop :=
  is_finite lon = true ∧ is_finite lat = true
  ∧ f_le (float_of_Z (-180)) lon = true ∧ f_le lon (float_of_Z 180) = true
  ∧ f_le (float_of_Z (-90)) lat = true ∧ f_le lat (float_of_Z 90) = true.

Definition inside (b : geoBounds) (lon lat : float64) : Prop :=
  f_le (minLat b) lat = true ∧ f_le lat (maxLat b) = true
  ∧ f_le (minLon b) lon = true ∧ f_le lon (maxLon b) = true.

Definition bounds_numbers (b : geoBounds) : Prop :=
  f_is_nan (minLat b) = false ∧ f_is_nan (maxLat b) = false
  ∧ f_is_nan (minLon b) = false ∧ f_is_nan (maxLon b) = false.

(** [b'] contains [b]. *)
Definition contains (b' b : geoBounds) : Prop :=
  f_le (minLat b') (minLat b) = true ∧ f_le (maxLat b) (maxLat b') = true
  ∧ f_le (minLon b') (minLon b) = true ∧ f_le (maxLon b) (maxLon b') = true.

Lemma contains_refl b : bounds_numbers b → contains b b.
Proof. intros (?&?&?&?). repeat split; by apply f_le_refl. Qed.

Lemma contains_trans b1 b2 b3 : contains b1 b2 → contains b2 b3 → contains b1 b3.
Proof. intros (?&?&?&?) (?&?&?&?). repeat split; by eapply f_le_trans. Qed.

Lemma contains_inside b b' lon lat : contains b' b → inside b lon lat → inside b' lon lat.
Proof. intros (?&?&?&?) (?&?&?&?). repeat split; by eapply f_le_trans. Qed.

Lemma overlaps_inside b b' lon lat : inside b lon lat → inside b' lon lat → overlaps b b' = true.
Proof.
  intros (H1&H2&H3&H4) (H5&H6&H7&H8). unfold overlaps.
  rewrite (f_le_trans _ _ _ H1 H6), (f_le_trans _ _ _ H5 H2), (f_le_trans _ _ _ H3 H8), (f_le_trans _ _ _ H7 H4).
  done.
Qed.

Lemma is_finite_not_nan x : is_finite x = true → f_is_nan x = false.
Proof. unfold is_finite. by destruct (f_is_nan x). Qed.

Lemma f_not_lt x y : f_is_nan x = false → f_is_nan y = false → f_lt x y = false → f_le y x = true.
Proof. intros Hx Hy H. by rewrite f_le_lt, H. Qed.

Lemma geoJSONPosition_Ok value lon lat : geoJSONPosition value = Ok (lon, lat) → on_globe lon lat.
Proof.
  unfold geoJSONPosition. destruct value as [| | | |[|[] [|[] l]]|]; try done.
  destruct (is_finite _ && is_finite _) eqn:Hfin; [|done]. cbn [negb].
  destruct (_ || _) eqn:Hrange; [done|]. intros [= -> ->]. to_prop.
  assert (f_is_nan lon = false ∧ f_is_nan lat = false) as [N1 N2] by by split; apply is_finite_not_nan.
  unfold on_globe. repeat split; try done; by apply f_not_lt.
Qed.

Lemma extend_spec b lon lat :
  bounds_numbers b → f_is_nan lon = false → f_is_nan lat = false →
  bounds_numbers (extend b lon lat) ∧ contains (extend b lon lat) b ∧ inside (extend b lon lat) lon lat.
Proof.
  intros (N1&N2&N3&N4) Hlon Hlat. unfold extend.
  destruct (f_min_spec (minLat b) lat N1 Hlat) as (?&?&?&_), (f_max_spec (maxLat b) lat N2 Hlat) as (?&?&?&_),
    (f_min_spec (minLon b) lon N3 Hlon) as (?&?&?&_), (f_max_spec (maxLon b) lon N4 Hlon) as (?&?&?&_).
  by repeat split.
Qed.

Lemma last_default {A} (p : A) ps d d' : List.last (p :: ps) d = List.last (p :: ps) d'.
Proof. revert p. induction ps as [|q ps IH]; intros p; [done|]. apply (IH q). Qed.

(** The loop in two parts: the positions, then their box. *)
Definition extend_all (b : geoBounds) (ps : list (float64 * float64)) : geoBounds :=
  foldl (λ b p, extend b p.1 p.2) b ps.

Lemma scan_ring_positions items ends b ends' b' :
  scan_ring items ends b = Ok (ends', b') →
  ∃ ps, Forall2 (λ item p, geoJSONPosition item = Ok p) items ps ∧ b' = extend_all b ps
    ∧ ends' = match ps with
              | [] => ends
              | p :: _ => Some (match ends with Some (first, _) => first | None => p end, List.last ps p)
              end.
Proof.
  revert ends b. induction items as [|item items IH]; intros ends b; cbn [scan_ring].
  - intros [= <- <-]. exists []. by repeat constructor.
  - destruct (geoJSONPosition item) as [[lon lat]|] eqn:Hp; [|done].
    intros (ps & Hps & -> & ->)%IH. exists ((lon, lat) :: ps). split; [by constructor|]. split; [done|].
    destruct ps as [|p ps]; [done|]. do 2 f_equal.
    exact (last_default p ps p (lon, lat)).
Qed.

Definition numbers (p : float64 * float64) : Prop := f_is_nan p.1 = false ∧ f_is_nan p.2 = false.

(** The side of a box is [start] or the coordinate of a position. *)
Definition attained (ps : list (float64 * float64)) (coordinate : float64 * float64 → float64)
    (side start : float64) : Prop :=
  side = start ∨ ∃ p, p ∈ ps ∧ coordinate p = side.

Lemma attained_step p ps coordinate side mid start :
  attained ps coordinate side mid → mid = start ∨ mid = coordinate p →
  attained (p :: ps) coordinate side start.
Proof.
  intros [->|(q & Hq & <-)] [->| ->]; [by left|right; exists p|right; exists q|right; exists q];
    (split; [by first [by left|by right]|done]).
Qed.

Lemma extend_all_spec ps b :
  bounds_numbers b → Forall numbers ps →
  let b' := extend_all b ps in
  bounds_numbers b' ∧ contains b' b ∧ (∀ p, p ∈ ps → inside b' p.1 p.2)
  ∧ attained ps snd (minLat b') (minLat b) ∧ attained ps snd (maxLat b') (maxLat b)
  ∧ attained ps fst (minLon b') (minLon b) ∧ attained ps fst (maxLon b') (maxLon b).
Proof.
  cbn zeta. revert b. induction ps as [|p ps IH]; intros b Hb Hps; cbn [extend_all foldl].
  - split; [done|]. split; [by apply contains_refl|]. split; [by intros ? ?%elem_of_nil|].
    repeat split; by left.
  - apply Forall_cons in Hps as [[Hlon Hlat] Hps].
    destruct (extend_spec b p.1 p.2 Hb Hlon Hlat) as (Hb1 & Hc1 & Hin1).
    destruct (IH (extend b p.1 p.2) Hb1 Hps) as (Hb' & Hc' & Hall & A1 & A2 & A3 & A4).
    fold (extend_all (extend b p.1 p.2) ps). split; [done|].
    split; [by eapply contains_trans|]. split.
    + intros q [->|Hq]%elem_of_cons; [by eapply contains_inside|by apply Hall].
    + destruct Hb as (N1&N2&N3&N4).
      destruct (f_min_spec (minLat b) p.2 N1 Hlat) as (_&_&_&M1), (f_max_spec (maxLat b) p.2 N2 Hlat) as (_&_&_&M2),
        (f_min_spec (minLon b) p.1 N3 Hlon) as (_&_&_&M3), (f_max_spec (maxLon b) p.1 N4 Hlon) as (_&_&_&M4).
      repeat split; by eapply attained_step.
Qed.

Lemma not_float_max x : f_le x (float_of_Z 180) = true → f_le float_max x = true → False.
Proof.
  intros H H'. pose proof (f_le_trans _ _ _ H' H) as Hle. by vm_compute in Hle.
Qed.

Lemma not_float_min x : f_le (float_of_Z (-180)) x = true → f_le x (f_neg float_max) = true → False.
Proof.
  intros H H'. pose proof (f_le_trans _ _ _ H H') as Hle. by vm_compute in Hle.
Qed.

Section polygon.
Context {LIB : Library}.

(** Polygons.  The box computed for a GeoJSON polygon is the least one: it
    contains every position of the exterior ring and each of its sides is the
    coordinate of one of them.  The ring has at least four positions, all on
    the globe, and the last one is the first. *)
Theorem polygon_box raw b :
  geoJSONBounds raw = Ok b →
  ∃ items ps first,
    exterior_ring raw = Ok items ∧ Forall2 (λ item p, geoJSONPosition item = Ok p) items ps
    ∧ (4 ≤ length ps)%nat ∧ (∀ p, p ∈ ps → on_globe p.1 p.2 ∧ inside b p.1 p.2)
    ∧ (∃ p, p ∈ ps ∧ p.2 = minLat b) ∧ (∃ p, p ∈ ps ∧ p.2 = maxLat b)
    ∧ (∃ p, p ∈ ps ∧ p.1 = minLon b) ∧ (∃ p, p ∈ ps ∧ p.1 = maxLon b)
    ∧ head ps = Some first ∧ f_eq first.1 (List.last ps first).1 = true
    ∧ f_eq first.2 (List.last ps first).2 = true.
Proof using Type.
  unfold geoJSONBounds. destruct (exterior_ring raw) as [items|] eqn:Hext; [|done].
  destruct (scan_ring items None empty_bounds) as [[ends bounds]|] eqn:Hscan; [|done].
  apply scan_ring_positions in Hscan as (ps & Hps & -> & ->).
  assert (4 ≤ length ps)%nat as Hlen.
  { erewrite <- Forall2_length by exact Hps. unfold exterior_ring in Hext.
    repeat case_match; try done; injection Hext as ->;
      match goal with H : (_ <? 4)%nat = false |- _ => by apply Nat.ltb_ge in H end. }
  destruct ps as [|first ps]; [cbn in Hlen; lia|]. cbn [default]. destruct first as [lon0 lat0] eqn:Efirst.
  rewrite <- Efirst in *. destruct (List.last (first :: ps) first) as [lonN latN] eqn:Elast.
  assert (Forall (λ p, on_globe p.1 p.2) (first :: ps)) as Hglobe.
  { eapply Forall2_Forall_r; [exact Hps|]. apply Forall_true. intros item [lon lat] Hp.
    by apply geoJSONPosition_Ok in Hp. }
  intros Hb.
  cbn [id] in Hb. rewrite Efirst in Hb at 1. cbv iota beta in Hb.
  destruct (negb (f_eq lon0 lonN) || _) eqn:Hclosed; [done|]. destruct (f_lt _ _); [done|].
  assert (extend_all empty_bounds (first :: ps) = b) as Hbb by congruence.
  destruct (extend_all_spec (first :: ps) empty_bounds) as (_ & _ & Hin & A1 & A2 & A3 & A4); [done| |].
  { eapply Forall_impl; [exact Hglobe|]. intros p (?&?&_). split; by apply is_finite_not_nan. }
  rewrite Hbb in Hin, A1, A2, A3, A4.
  assert (first ∈ first :: ps) as Hfirst by by left.
  pose proof (Hin _ Hfirst) as (I1 & I2 & I3 & I4).
  pose proof (proj1 (Forall_forall _ _) Hglobe _ Hfirst) as (_ & _ & G1 & G2 & G3 & G4).
  exists items, (first :: ps), first. split; [done|]. split; [done|]. split; [done|].
  split; [intros p Hp; split; [by apply (proj1 (Forall_forall _ _) Hglobe)|by apply Hin]|].
  assert (f_le first.2 (float_of_Z 180) = true) as L1 by (eapply f_le_trans; [exact G4|by vm_compute]).
  assert (f_le (float_of_Z (-180)) first.2 = true) as L2 by (eapply f_le_trans; [|exact G3]; by vm_compute).
  split; [destruct A1 as [Hm|?]; [rewrite Hm in I1; by destruct (not_float_max first.2)|done]|].
  split; [destruct A2 as [Hm|?]; [rewrite Hm in I2; by destruct (not_float_min first.2)|done]|].
  split; [destruct A3 as [Hm|?]; [rewrite Hm in I3; by destruct (not_float_max first.1)|done]|].
  split; [destruct A4 as [Hm|?]; [rewrite Hm in I4; by destruct (not_float_min first.1)|done]|].
  split; [done|]. rewrite Elast, Efirst. to_prop. done.
Qed.
End polygon.

(** ** A concrete library and a polygon *)

Definition reference_library : Library := {|
  math_Cos := λ _, float_of_Z 1;
  json_error_text := λ _, "invalid character";
  format_q := λ _, "%!q(<nil>)";
|}.

Definition demo_polygon : string := quoted_text
  "{'type':'Polygon','coordinates':[[[10,20],[12,20],[12,21],[10,20]]]}".

Definition demo_box : geoBounds :=
  mkBounds (float_of_Z 20) (float_of_Z 21) (float_of_Z 10) (float_of_Z 12).

Lemma polygon_box_witness :
  let LIB := reference_library in
  geoJSONBounds demo_polygon = Ok demo_box ∧ ∃ items, exterior_ring demo_polygon = Ok items.
Proof.
  cbv zeta. assert (geoJSONBounds (LIB := reference_library) demo_polygon = Ok demo_box) as H
    by (vm_compute; reflexivity).
  split; [exact H|]. destruct (polygon_box (LIB := reference_library) _ _ H) as (items & ps & first & Hok & _).
  exists items. exact Hok.
Defined.

(** * Conflict evaluation

    src/internal/service/deconfliction/conflict.go: the findings of an intent's
    volumes against the volumes of its peers, in time, position and altitude. *)

Definition timeWindowsOverlap (aStart aEnd bStart bEnd : Time) : bool :=
  Before aStart bEnd && Before bStart aEnd.

Definition timeOverlap (aStart aEnd bStart bEnd : Time) : Time * Time :=
  (if After bStart aStart then bStart else aStart, if Before bEnd aEnd then bEnd else aEnd).

Definition altitudeBandsOverlap (aMin aMax bMin bMax : float64) : bool :=
  f_le aMin bMax && f_le bMin aMax.

Definition altitudeOverlap (aMin aMax bMin bMax : float64) : float64 * float64 :=
  (f_max aMin bMin, f_min aMax bMax).

Definition volumeDimensionError (volume : OperationalVolume) : string :=
  if IsZero (Volume_StartsAt volume) || IsZero (Volume_EndsAt volume)
     || negb (Before (Volume_StartsAt volume) (Volume_EndsAt volume))
  then "operational volume has an invalid time window"
  else if f_lt (Volume_MinAltitudeM volume) float_zero || f_le (Volume_MaxAltitudeM volume) float_zero
  then "operational volume has a missing or invalid altitude band"
  else if f_lt (Volume_MaxAltitudeM volume) (Volume_MinAltitudeM volume)
  then "operational volume has an invalid altitude band"
  else if Volume_AltitudeRef volume =s= "" then "operational volume has no altitude reference"
  else "".

Definition volumeDimensionsUsable (volume : OperationalVolume) : bool :=
  volumeDimensionError volume =s= "".

Definition evaluatedFinding (intent : OperationalIntent) (source : Source)
    (status : ConflictFindingStatus) (volumeID peerIntentID : string) (peerVersion : Z)
    (peerVolumeID message : string) : ConflictFinding :=
  let sourceID :=
    if Source_ReferenceID source <>s "" then Source_ProviderID source +:+ ":" +:+ Source_ReferenceID source
    else Source_ProviderID source in
  let sourceType :=
    if Source_Local source || (Source_ProviderID source =s= "deconfliction_service")
    then ConflictFindingSourceLocal else ConflictFindingSourceExternal in
  zero_ConflictFinding
    <| ConflictFinding_OperatorID := Intent_OperatorID intent |>
    <| ConflictFinding_IntentID := Intent_ID intent |>
    <| ConflictFinding_IntentVersion := Intent_Version intent |>
    <| ConflictFinding_AircraftID := Intent_AircraftID intent |>
    <| ConflictFinding_VolumeID := volumeID |>
    <| ConflictFinding_ConflictingIntentID := peerIntentID |>
    <| ConflictFinding_ConflictingVersion := peerVersion |>
    <| ConflictFinding_ConflictingVolumeID := peerVolumeID |>
    <| ConflictFinding_SourceType := sourceType |>
    <| ConflictFinding_SourceID := sourceID |>
    <| ConflictFinding_Status := status |>
    <| ConflictFinding_Message := message |>
    <| ConflictFinding_Provenance :=
         Source_ProviderID source +:+ "|" +:+ Source_Manager source +:+ "|" +:+ Source_USSBaseURL source |>.

Definition altitude_refs_differ : string :=
  "operational volume altitude references differ and cannot be compared locally".
Definition boxes_overlap : string :=
  "4D operational volume bounding boxes overlap; exact polygon intersection is not evaluated in v1".

Record preparedPeerVolume : Set := mkPrepared {
  peer_source : Source;
  peer_intent : OperationalIntent;
  peer_volume : OperationalVolume;
  peer_bounds : geoBounds;
  peer_status : ConflictFindingStatus;
  peer_message : string;
  peer_dimensionsUsable : bool;
}.

Section conflicts.
Context {LIB : Library}.

Definition evaluateVolume (volume : OperationalVolume) : geoBounds * ConflictFindingStatus * string :=
  if volumeDimensionError volume <>s ""
  then (zero_geoBounds, ConflictFindingStatusIndeterminate, volumeDimensionError volume)
  else if TrimSpace (Volume_GeoJSON volume) =s= "" then
    if TrimSpace (Volume_GeometryURI volume) <>s ""
    then (zero_geoBounds, ConflictFindingStatusPotentialConflict,
          "operational volume references external geometry that is not resolved locally")
    else (zero_geoBounds, ConflictFindingStatusIndeterminate,
          "operational volume has no inline GeoJSON geometry")
  else
    match geoJSONBounds (Volume_GeoJSON volume) with
    | Err err => (zero_geoBounds, ConflictFindingStatusIndeterminate, Error err)
    | Ok bounds =>
        match Volume_BufferMeters volume with
        | None => (bounds, ConflictFindingStatusClear, "")
        | Some meters =>
            match expanded bounds meters with
            | Err err => (zero_geoBounds, ConflictFindingStatusIndeterminate, Error err)
            | Ok bounds => (bounds, ConflictFindingStatusClear, "")
            end
        end
    end.

Definition preparePeerVolume (record : AirspaceIntent) (volume : OperationalVolume) : preparedPeerVolume :=
  let '(bounds, status, message) := evaluateVolume volume in
  mkPrepared (Airspace_Source record) (Airspace_Intent record) volume bounds status message
    (volumeDimensionsUsable volume).

Definition preparePeerVolumes (records : list AirspaceIntent) : list preparedPeerVolume :=
  concat (map (λ record,
    map (preparePeerVolume record) (Airspace_Volumes record)
    ++ map (preparePeerVolume record) (Airspace_OffNominalVolumes record)) records).

(** The finding of one volume against one prepared peer, if any: the body of
    the inner loop. *)
Definition peer_finding (intent : OperationalIntent) (volume : OperationalVolume) (ownBounds : geoBounds)
    (peer : preparedPeerVolume) : list ConflictFinding :=
  let other := peer_volume peer in
  let found status message :=
    evaluatedFinding intent (peer_source peer) status (Volume_ID volume) (Intent_ID (peer_intent peer))
      (Intent_Version (peer_intent peer)) (Volume_ID other) message in
  let times := timeWindowsOverlap (Volume_StartsAt volume) (Volume_EndsAt volume)
                 (Volume_StartsAt other) (Volume_EndsAt other) in
  let altitudes := altitudeBandsOverlap (Volume_MinAltitudeM volume) (Volume_MaxAltitudeM volume)
                     (Volume_MinAltitudeM other) (Volume_MaxAltitudeM other) in
  if peer_status peer <>s ConflictFindingStatusClear then
    if (peer_status peer =s= ConflictFindingStatusIndeterminate) && negb (peer_dimensionsUsable peer)
    then [found (peer_status peer) (peer_message peer)]
    else if negb times then []
    else if Volume_AltitudeRef volume <>s Volume_AltitudeRef other
    then [found ConflictFindingStatusIndeterminate altitude_refs_differ]
    else if altitudes then [found (peer_status peer) (peer_message peer)]
    else []
  else if negb times || negb (overlaps ownBounds (peer_bounds peer)) then []
  else if Volume_AltitudeRef volume <>s Volume_AltitudeRef other
  then [found ConflictFindingStatusIndeterminate altitude_refs_differ]
  else if negb altitudes then []
  else
    let '(start, end_) := timeOverlap (Volume_StartsAt volume) (Volume_EndsAt volume)
                            (Volume_StartsAt other) (Volume_EndsAt other) in
    let '(minAltitude, maxAltitude) :=
      altitudeOverlap (Volume_MinAltitudeM volume) (Volume_MaxAltitudeM volume)
        (Volume_MinAltitudeM other) (Volume_MaxAltitudeM other) in
    [(found ConflictFindingStatusPotentialConflict boxes_overlap)
       <| ConflictFinding_TimeOverlapStart := Some start |>
       <| ConflictFinding_TimeOverlapEnd := Some end_ |>
       <| ConflictFinding_AltitudeOverlapMin := Some minAltitude |>
       <| ConflictFinding_AltitudeOverlapMax := Some maxAltitude |>
       <| ConflictFinding_OwnBounds := Some (domainBounds ownBounds) |>
       <| ConflictFinding_ConflictingBounds := Some (domainBounds (peer_bounds peer)) |>].

Definition deconfliction_source : Source :=
  zero_Source <| Source_ProviderID := "deconfliction_service" |>.

(** The findings of one volume: the body of the outer loop. *)
Definition volume_findings (intent : OperationalIntent) (peers : list preparedPeerVolume)
    (volume : OperationalVolume) : list ConflictFinding :=
  let '(ownBounds, status, message) := evaluateVolume volume in
  if status <>s ConflictFindingStatusClear
  then [evaluatedFinding intent deconfliction_source status (Volume_ID volume) "" 0 "" message]
  else concat (map (peer_finding intent volume ownBounds) peers).

Definition evaluateConflicts (intent : OperationalIntent) (volumes : list OperationalVolume)
    (records : list AirspaceIntent) : list ConflictFinding :=
  let peers := preparePeerVolumes records in
  concat (map (volume_findings intent peers) volumes).
End conflicts.

(** ** What the absence of findings means *)

Section separation.
Context {LIB : Library}.

(** The time and the position of a point are those of the volume.  A volume
    without a usable box is taken to cover every position. *)
Definition during (v : OperationalVolume) (t : Time) : Prop := Volume_StartsAt v ≤ t < Volume_EndsAt v.
Definition at_height (v : OperationalVolume) (alt : float64) : Prop :=
  f_le (Volume_MinAltitudeM v) alt = true ∧ f_le alt (Volume_MaxAltitudeM v) = true.
Definition located (v : OperationalVolume) (lon lat : float64) : Prop :=
  let '(b, status, _) := evaluateVolume v in
  status = ConflictFindingStatusClear → inside b lon lat.

(** Where both volumes are at the same time, their altitudes are measured from
    the same reference and no altitude is in both bands. *)
Definition separated (v p : OperationalVolume) : Prop :=
  ∀ t lon lat, during v t → during p t → located v lon lat → located p lon lat →
    Volume_AltitudeRef v = Volume_AltitudeRef p ∧ ∀ alt, ¬ (at_height v alt ∧ at_height p alt).

(** Every volume of the records. *)
Definition peer_of (records : list AirspaceIntent) (r : AirspaceIntent) (p : OperationalVolume) : Prop :=
  r ∈ records ∧ p ∈ Airspace_Volumes r ++ Airspace_OffNominalVolumes r.

Lemma elem_of_peers records peer :
  peer ∈ preparePeerVolumes records ↔ ∃ r p, peer_of records r p ∧ peer = preparePeerVolume r p.
Proof using Type.
  unfold preparePeerVolumes, peer_of. rewrite list_elem_of_In, in_concat. setoid_rewrite in_map_iff. split.
  - intros (l & (r & <- & Hr) & Hp). rewrite <- map_app, in_map_iff in Hp. destruct Hp as (p & <- & Hp).
    exists r, p. by rewrite !list_elem_of_In.
  - intros (r & p & [Hr Hp] & ->). rewrite list_elem_of_In in Hr. eexists. split; [by exists r|].
    rewrite <- map_app. by apply in_map, list_elem_of_In.
Qed.

Lemma evaluateConflicts_nil intent volumes records :
  evaluateConflicts intent volumes records = [] ↔
  ∀ v, v ∈ volumes → ∃ b, evaluateVolume v = (b, ConflictFindingStatusClear, "")
    ∧ ∀ r p, peer_of records r p → peer_finding intent v b (preparePeerVolume r p) = [].
Proof using Type.
  unfold evaluateConflicts. rewrite concat_nil. setoid_rewrite elem_of_map_list. split.
  - intros H v Hv. specialize (H _ (ex_intro _ v (conj Hv eq_refl))). unfold volume_findings in H.
    destruct (evaluateVolume v) as [[b status] message] eqn:Hev.
    destruct (status =s= ConflictFindingStatusClear) eqn:Hst; [|done]. cbn [negb] in H.
    exists b. split.
    { apply String.eqb_eq in Hst as ->. unfold evaluateVolume in Hev. by repeat case_match; simplify_eq. }
    rewrite concat_nil in H. setoid_rewrite elem_of_map_list in H. intros r p Hp. apply H.
    eexists. split; [|done]. apply elem_of_peers. by exists r, p.
  - intros H l (v & Hv & <-). destruct (H v Hv) as (b & Hev & Hpeers). unfold volume_findings. rewrite Hev.
    cbn. apply concat_nil. intros l (peer & Hp & <-)%elem_of_map_list.
    apply elem_of_peers in Hp as (r & p & Hp & ->). by apply Hpeers.
Qed.

Lemma windows_overlap v p t :
  during v t → during p t →
  timeWindowsOverlap (Volume_StartsAt v) (Volume_EndsAt v) (Volume_StartsAt p) (Volume_EndsAt p) = true.
Proof using Type. unfold during, timeWindowsOverlap, Before. lia. Qed.

Lemma bands_overlap v p alt :
  at_height v alt → at_height p alt →
  altitudeBandsOverlap (Volume_MinAltitudeM v) (Volume_MaxAltitudeM v)
    (Volume_MinAltitudeM p) (Volume_MaxAltitudeM p) = true.
Proof using Type.
  intros [H1 H2] [H3 H4]. unfold altitudeBandsOverlap.
  by rewrite (f_le_trans _ _ _ H1 H4), (f_le_trans _ _ _ H3 H2).
Qed.

Lemma evaluated_usable p b status message :
  evaluateVolume p = (b, status, message) → status ≠ ConflictFindingStatusIndeterminate →
  volumeDimensionsUsable p = true.
Proof using Type.
  unfold evaluateVolume, volumeDimensionsUsable. destruct (_ =s= _); [done|]. by intros [= _ <- _].
Qed.

Lemma evaluateVolume_cases p :
  ∃ b status message, evaluateVolume p = (b, status, message)
    ∧ (status = ConflictFindingStatusClear ∨ status = ConflictFindingStatusPotentialConflict
       ∨ status = ConflictFindingStatusIndeterminate).
Proof using Type. unfold evaluateVolume. repeat case_match; eauto 10. Qed.

(** The four outcomes that leave no finding. *)
Lemma peer_finding_nil intent v b r p pb status message :
  evaluateVolume p = (pb, status, message) →
  peer_finding intent v b (preparePeerVolume r p) = [] →
  volumeDimensionsUsable p = true
  ∧ (timeWindowsOverlap (Volume_StartsAt v) (Volume_EndsAt v) (Volume_StartsAt p) (Volume_EndsAt p) = false
     ∨ status = ConflictFindingStatusClear ∧ overlaps b pb = false
     ∨ Volume_AltitudeRef v = Volume_AltitudeRef p
       ∧ altitudeBandsOverlap (Volume_MinAltitudeM v) (Volume_MaxAltitudeM v)
           (Volume_MinAltitudeM p) (Volume_MaxAltitudeM p) = false).
Proof using Type.
  intros Hp. pose proof (evaluated_usable _ _ _ _ Hp) as Husable.
  unfold peer_finding, preparePeerVolume. rewrite Hp. cbn.
  destruct (status =s= ConflictFindingStatusClear) eqn:Hclear; cbn [negb].
  - apply String.eqb_eq in Hclear as ->. rewrite Husable by done.
    destruct (timeWindowsOverlap _ _ _ _); cbn [negb orb]; [|by auto].
    destruct (overlaps b pb); cbn [negb]; [|by auto].
    destruct (Volume_AltitudeRef v =s= Volume_AltitudeRef p) eqn:Href; [|done].
    apply String.eqb_eq in Href. destruct (altitudeBandsOverlap _ _ _ _); [done|by auto].
  - destruct (_ && _) eqn:Hunusable; [done|]. intros H. split.
    + destruct (volumeDimensionsUsable p); [done|].
      destruct (String.eqb_spec status ConflictFindingStatusIndeterminate); [done|by apply Husable].
    + destruct (timeWindowsOverlap _ _ _ _); cbn [negb] in H; [|by auto].
      destruct (Volume_AltitudeRef v =s= Volume_AltitudeRef p) eqn:Href; [|done].
      apply String.eqb_eq in Href. cbn [negb] in H. destruct (altitudeBandsOverlap _ _ _ _); [done|by auto].
Qed.

Lemma no_peer_finding intent v b r p :
  evaluateVolume v = (b, ConflictFindingStatusClear, "") →
  peer_finding intent v b (preparePeerVolume r p) = [] →
  volumeDimensionsUsable p = true ∧ separated v p.
Proof using Type.
  intros Hv Hnil. destruct (evaluateVolume p) as [[pb status] message] eqn:Hp.
  destruct (peer_finding_nil _ _ _ _ _ _ _ _ Hp Hnil) as [Hu Hcases]. split; [done|].
  intros t lon lat Hvt Hpt Hvl Hpl. unfold located in Hvl, Hpl. rewrite Hv in Hvl. rewrite Hp in Hpl.
  destruct Hcases as [Ht|[[Hst Hbox]|[Href Hbands]]].
  - by rewrite (windows_overlap _ _ _ Hvt Hpt) in Ht.
  - by rewrite (overlaps_inside _ _ _ _ (Hvl eq_refl) (Hpl Hst)) in Hbox.
  - split; [done|]. intros alt [Hva Hpa]. by rewrite (bands_overlap _ _ _ Hva Hpa) in Hbands.
Qed.

(** The evaluation of an intent against its peers found nothing only if every
    volume is well formed and apart from every volume of every peer. *)
Lemma no_findings_separated intent volumes records :
  evaluateConflicts intent volumes records = [] →
  ∀ v, v ∈ volumes → (evaluateVolume v).1.2 = ConflictFindingStatusClear
    ∧ ∀ r p, peer_of records r p → volumeDimensionsUsable p = true ∧ separated v p.
Proof using Type.
  rewrite evaluateConflicts_nil. intros H v Hv. destruct (H v Hv) as (b & Hev & Hpeers).
  rewrite Hev. split; [done|]. intros r p Hp. by eapply no_peer_finding, Hpeers.
Qed.
End separation.
