(* ===== verification/Deconfliction.v ===== *)
(** * The deconfliction service

    src/internal/service/deconfliction/deconfliction.go: the check of an intent
    against every airspace provider, and the findings and the posture it
    leaves.  (The volumes kept for a version are those of the function of the
    same name in the local provider, [volumesForVersion].) *)

From S2P Require Import Prelude GoRuntime GoStrings GoFloat GoJson Domain Errors Program DurableStore Airspace Geometry.
From stdpp Require Import options.

Definition deconflictionRuleVersion : string := "provider-aggregate-v1".

Definition postureForFinding (status : ConflictFindingStatus) : DeconflictionPosture :=
  if status =s= ConflictFindingStatusConflict then DeconflictionPostureConflict
  else if status =s= ConflictFindingStatusPotentialConflict then DeconflictionPosturePotentialConflict
  else if status =s= ConflictFindingStatusIndeterminate then DeconflictionPostureIndeterminate
  else DeconflictionPostureClear.

Definition postureRank (posture : DeconflictionPosture) : Z :=
  if posture =s= DeconflictionPostureConflict then 4
  else if posture =s= DeconflictionPostureIndeterminate then 3
  else if posture =s= DeconflictionPosturePotentialConflict then 2
  else 1.

Definition maxPosture (current : DeconflictionPosture) (status : ConflictFindingStatus) : DeconflictionPosture :=
  let next := postureForFinding status in
  if postureRank current <? postureRank next then next else current.

Definition conflictSeverity (status : ConflictFindingStatus) : Severity :=
  if status =s= ConflictFindingStatusConflict then SeverityCritical
  else if (status =s= ConflictFindingStatusPotentialConflict) || (status =s= ConflictFindingStatusIndeterminate)
  then SeverityWarning
  else SeverityInfo.

Definition emptyID (value : string) : string := if value =s= "" then "none" else value.

Definition finding_id (intent : OperationalIntent) (finding : ConflictFinding) : string :=
  String.concat "-" ["conflict"; Intent_ID intent; "v" +:+ Itoa (Intent_Version intent);
    ConflictFinding_Status finding; emptyID (ConflictFinding_SourceID finding);
    emptyID (ConflictFinding_VolumeID finding); emptyID (ConflictFinding_ConflictingIntentID finding);
    emptyID (ConflictFinding_ConflictingVolumeID finding)].

Definition normalizeFinding (intent : OperationalIntent) (finding : ConflictFinding)
    (fallbackSourceID : string) (checkedAt : Time) : ConflictFinding :=
  let finding := finding
    <| ConflictFinding_IntentID := Intent_ID intent |>
    <| ConflictFinding_IntentVersion := Intent_Version intent |>
    <| ConflictFinding_OperatorID := Intent_OperatorID intent |>
    <| ConflictFinding_AircraftID := Intent_AircraftID intent |> in
  let finding :=
    if ConflictFinding_SourceID finding =s= ""
    then finding <| ConflictFinding_SourceID := fallbackSourceID |> else finding in
  let finding :=
    if ConflictFinding_SourceType finding =s= ""
    then finding <| ConflictFinding_SourceType := ConflictFindingSourceExternal |> else finding in
  let finding :=
    if ConflictFinding_ID finding =s= ""
    then finding <| ConflictFinding_ID := finding_id intent finding |> else finding in
  let finding :=
    if IsZero (ConflictFinding_EvaluatedAt finding)
    then finding <| ConflictFinding_EvaluatedAt := checkedAt |> else finding in
  let finding := finding <| ConflictFinding_RuleVersion := deconflictionRuleVersion |> in
  let finding :=
    if ConflictFinding_Severity finding =s= ""
    then finding <| ConflictFinding_Severity := conflictSeverity (ConflictFinding_Status finding) |>
    else finding in
  finding <| ConflictFinding_Blocking := (ConflictFinding_Status finding <>s ConflictFindingStatusClear) |>.

Definition sourceKey (source : Source) : string :=
  Source_ProviderID source +:+ String nul
    (Source_ReferenceID source +:+ String nul (Itoa (Source_Version source))).

Definition newResult (intent : OperationalIntent) (checkedAt : Time) : DeconflictionResult :=
  mkDeconflictionResult intent DeconflictionPostureClear [] checkedAt deconflictionRuleVersion.

(** [result.Findings = append(result.Findings, findings...)] *)
Definition add_findings (findings : list ConflictFinding) (result : DeconflictionResult) : DeconflictionResult :=
  result <| DeconflictionResult_Findings := DeconflictionResult_Findings result ++ findings |>.

Definition service_finding (status : ConflictFindingStatus) (message : string) : ConflictFinding :=
  zero_ConflictFinding
    <| ConflictFinding_SourceType := ConflictFindingSourceLocal |>
    <| ConflictFinding_SourceID := "deconfliction_service" |>
    <| ConflictFinding_Status := status |> <| ConflictFinding_Message := message |>.

Definition provider_finding (id : string) (err : error) : ConflictFinding :=
  zero_ConflictFinding
    <| ConflictFinding_Status := ConflictFindingStatusIndeterminate |>
    <| ConflictFinding_Message :=
         "airspace provider " +:+ quote id +:+ " could not be queried: " +:+ Error err |>
    <| ConflictFinding_SourceID := id |>.

(** [finalize] sees to it that there is a finding, and normalises them all. *)
Definition some_finding (result : DeconflictionResult) : DeconflictionResult :=
  match DeconflictionResult_Findings result with
  | [] => add_findings [service_finding ConflictFindingStatusClear "no airspace provider reported a conflict"] result
  | _ => result
  end.

Definition normalized (result : DeconflictionResult) : list ConflictFinding :=
  map (λ finding, normalizeFinding (DeconflictionResult_Intent result) finding
                    (ConflictFinding_SourceID finding) (DeconflictionResult_CheckedAt result))
    (DeconflictionResult_Findings result).

Definition posture_of (posture : DeconflictionPosture) (findings : list ConflictFinding) : DeconflictionPosture :=
  foldl (λ posture finding, maxPosture posture (ConflictFinding_Status finding)) posture findings.

Definition finalized (result : DeconflictionResult) : DeconflictionResult :=
  let result := some_finding result in
  result
    <| DeconflictionResult_Findings := normalized result |>
    <| DeconflictionResult_Posture := posture_of (DeconflictionResult_Posture result) (normalized result) |>.

(** The loop over the records of one provider: those seen before are dropped. *)
Definition add_record (id : string) (state : list AirspaceIntent * gset string) (record : AirspaceIntent)
    : list AirspaceIntent * gset string :=
  let '(records, seen) := state in
  let record := record <| Airspace_Source := (Airspace_Source record) <| Source_ProviderID := id |> |> in
  let key := sourceKey (Airspace_Source record) in
  if decide (key ∈ seen) then state else (records ++ [record], {[key]} ∪ seen).

Section service.
Context {LIB : Library} {externalE : Type → Type}.
Abbreviation program := (prog (apiE externalE)).
Abbreviation Provider := (Provider (externalE := externalE)).
Abbreviation Publisher := (Publisher (externalE := externalE)).

Record DeconflictionService := mkDeconflictionService {
  service_providers : list Provider;
  service_publisher : option Publisher;
  service_publicationLease : Duration;
}.

(** The search for the one provider that is a publisher. *)
Fixpoint find_publisher (configured : list (Provider * option Publisher)) (publisher : option Publisher)
    : outcome (option Publisher) :=
  match configured with
  | [] => Ok publisher
  | (_, None) :: rest => find_publisher rest publisher
  | (_, Some p) :: rest =>
      match publisher with
      | Some _ => Err (plain "only one deconfliction publisher may be configured")
      | None => find_publisher rest (Some p)
      end
  end.

(** A provider given as nil is ignored. *)
Definition newDeconflictionService (lease : Duration)
    (providers : list (option (Provider * option Publisher))) : outcome DeconflictionService :=
  if lease <=? 0 then Err (plain "DSS publication lease must be positive")
  else
    let configured := omap id providers in
    match configured with
    | [] => Err (plain "deconfliction airspace provider is required")
    | _ =>
        match find_publisher configured None with
        | Err err => Err err
        | Ok publisher => Ok (mkDeconflictionService (map fst configured) publisher lease)
        end
    end.

Context (s : DeconflictionService).

Fixpoint discover (query : Query) (providers : list Provider) (records : list AirspaceIntent)
    (findings : list ConflictFinding) (seen : gset string)
    : program (list AirspaceIntent * list ConflictFinding) :=
  match providers with
  | [] => Ret (records, findings)
  | provider :: rest =>
      let! '(discovered, err) := FindOperationalIntents provider query in
      let findings :=
        match err with
        | Some err => findings ++ [provider_finding (provider_ID provider) err]
        | None => findings
        end in
      let '(records, seen) := foldl (add_record (provider_ID provider)) (records, seen) discovered in
      discover query rest records findings seen
  end.

Definition discoverOperationalIntents (intent : OperationalIntent) (volumes : list OperationalVolume)
    : program (list AirspaceIntent * list ConflictFinding) :=
  discover (mkQuery intent volumes) (service_providers s) [] [] ∅.

Definition finalize (result : DeconflictionResult) : program (outcome DeconflictionResult) :=
  let result := finalized result in
  try! _ := durable (Durable.ReplaceConflictFindings (Intent_ID (DeconflictionResult_Intent result))
                       (Intent_Version (DeconflictionResult_Intent result)) deconflictionRuleVersion
                       (DeconflictionResult_Findings result))
    orelse wrap "replace conflict findings" in
  Ret (Ok result).

(** The records are returned beside the result; no caller uses them after an
    error. *)
Definition check (intent : OperationalIntent) (volumes : list OperationalVolume)
    : program (outcome (DeconflictionResult * list AirspaceIntent)) :=
  let! checkedAt := now in
  let result := newResult intent (UTC checkedAt) in
  match volumes with
  | [] =>
      try! result := finalize (add_findings
          [service_finding ConflictFindingStatusIndeterminate "intent has no operational volumes to check"] result)
        orelse id in
      Ret (Ok (result, []))
  | _ =>
      let! '(records, providerFindings) := discoverOperationalIntents intent volumes in
      try! result := finalize (add_findings (evaluateConflicts intent volumes records)
                                 (add_findings providerFindings result))
        orelse id in
      Ret (Ok (result, records))
  end.

Definition loadIntent (intentID : string) : program (outcome (OperationalIntent * list OperationalVolume)) :=
  try! intent := durable (Durable.GetOperationalIntent intentID) orelse wrap "get operational intent" in
  try! volumes := durable (Durable.ListOperationalVolumes (Intent_ID intent))
    orelse wrap "list operational volumes" in
  Ret (Ok (intent, volumesForVersion volumes (Intent_Version intent))).

Definition CheckIntent (intentID : string) : program (outcome DeconflictionResult) :=
  try! loaded := loadIntent intentID orelse id in
  try! checked := check loaded.1 loaded.2 orelse id in
  Ret (Ok checked.1).

Definition ListConflictFindings (intentID : string) : program (outcome (list ConflictFinding)) :=
  if TrimSpace intentID =s= "" then Ret (Err (plain "validation failed: intent_id is required"))
  else
    try! intent := durable (Durable.GetOperationalIntent intentID) orelse wrap "get operational intent" in
    try! findings := durable (Durable.ListConflictFindings (Intent_ID intent) (Intent_Version intent))
      orelse wrap "list conflict findings" in
    Ret (Ok findings).
End service.
Arguments DeconflictionService : clear implicits.
