(* ===== verification/DeconflictionRuns.v ===== *)
(** * The verdict of a deconfliction check

    What the posture of a check tells: it is the worst finding, and a clear one
    means that the intent is apart from every intent in effect. *)

From S2P Require Import Prelude GoRuntime GoStrings GoFloat GoJson GoRange Domain Errors Program MemoryState MemoryFleet MemoryIntents MemoryMissions MemorySpatial DurableStore MemoryStore MemoryInvariant MemoryReachable Scenario Airspace Geometry Deconfliction.
From stdpp Require Import options.

(** ** Postures *)

(** The statuses a finding can have. *)
Definition known_status (status : ConflictFindingStatus) : Prop :=
  status = ConflictFindingStatusClear ∨ status = ConflictFindingStatusConflict
  ∨ status = ConflictFindingStatusPotentialConflict ∨ status = ConflictFindingStatusIndeterminate.

Lemma normalizeFinding_status intent f fallback t :
  ConflictFinding_Status (normalizeFinding intent f fallback t) = ConflictFinding_Status f.
Proof. unfold normalizeFinding. by repeat case_match. Qed.

Lemma maxPosture_rank current status :
  postureRank (maxPosture current status)
  = Z.max (postureRank current) (postureRank (postureForFinding status)).
Proof. unfold maxPosture. destruct (Z.ltb_spec (postureRank current) (postureRank (postureForFinding status))); lia. Qed.

Lemma fold_posture_rank fs current :
  let p := posture_of current fs in
  postureRank current ≤ postureRank p
  ∧ (∀ f, f ∈ fs → postureRank (postureForFinding (ConflictFinding_Status f)) ≤ postureRank p)
  ∧ (p = current ∨ ∃ f, f ∈ fs ∧ p = postureForFinding (ConflictFinding_Status f)).
Proof.
  cbn zeta. unfold posture_of. revert current. induction fs as [|f fs IH]; intros current; cbn [posture_of foldl].
  - split; [lia|]. split; [by intros f ?%elem_of_nil|by left].
  - destruct (IH (maxPosture current (ConflictFinding_Status f))) as (H1 & H2 & H3).
    rewrite maxPosture_rank in H1. split; [lia|]. split.
    + intros g [->|Hg]%elem_of_cons; [lia|by apply H2].
    + destruct H3 as [->|(g & Hg & ->)]; [|right; exists g; split; [by right|done]].
      unfold maxPosture. destruct (_ <? _); [right; exists f; split; [by left|done]|by left].
Qed.

Lemma posture_rank_clear posture status :
  postureRank (postureForFinding status) ≤ postureRank posture → posture = DeconflictionPostureClear →
  known_status status → status = ConflictFindingStatusClear.
Proof. intros Hle -> [->|[->|[->| ->]]]; [done|..]; by vm_compute in Hle. Qed.

Lemma finalized_findings r : DeconflictionResult_Findings (finalized r) = normalized (some_finding r).
Proof. reflexivity. Qed.

Lemma finalized_posture r :
  DeconflictionResult_Posture (finalized r)
  = posture_of (DeconflictionResult_Posture (some_finding r)) (normalized (some_finding r)).
Proof. reflexivity. Qed.

Lemma elem_of_normalized r f :
  f ∈ DeconflictionResult_Findings r →
  ∃ g, g ∈ normalized r ∧ ConflictFinding_Status g = ConflictFinding_Status f.
Proof.
  intros Hf. eexists. split; [|apply normalizeFinding_status]. apply elem_of_map_list.
  exists f. split; [exact Hf|reflexivity].
Qed.

Lemma some_finding_subset r f : f ∈ DeconflictionResult_Findings r → f ∈ DeconflictionResult_Findings (some_finding r).
Proof. unfold some_finding. destruct (DeconflictionResult_Findings r) eqn:E; [by intros ?%elem_of_nil|by rewrite E]. Qed.

(** A clear posture leaves no finding of any other status. *)
Lemma finalized_clear r f :
  DeconflictionResult_Posture (finalized r) = DeconflictionPostureClear →
  f ∈ DeconflictionResult_Findings r → known_status (ConflictFinding_Status f) →
  ConflictFinding_Status f = ConflictFindingStatusClear.
Proof.
  rewrite finalized_posture. intros Hclear (g & Hg & <-)%some_finding_subset%elem_of_normalized Hknown.
  eapply posture_rank_clear; [|exact Hclear|exact Hknown]. by apply fold_posture_rank.
Qed.

Section statuses.
Context {LIB : Library}.

Lemma evaluateConflicts_status intent volumes records f :
  f ∈ evaluateConflicts intent volumes records →
  ConflictFinding_Status f = ConflictFindingStatusPotentialConflict
  ∨ ConflictFinding_Status f = ConflictFindingStatusIndeterminate.
Proof using Type.
  unfold evaluateConflicts. rewrite list_elem_of_In, in_concat. setoid_rewrite <- list_elem_of_In.
  intros (l & (v & _ & <-)%elem_of_map_list & Hf). unfold volume_findings in Hf.
  destruct (evaluateVolume_cases v) as (b & status & message & Hev & Hst). rewrite Hev in Hf.
  destruct (status =s= ConflictFindingStatusClear) eqn:Hclear; cbn [negb] in Hf.
  - rewrite list_elem_of_In, in_concat in Hf. setoid_rewrite <- list_elem_of_In in Hf.
    destruct Hf as (l & (peer & Hpeer & <-)%elem_of_map_list & Hf). apply elem_of_peers in Hpeer as (r & p & _ & ->).
    destruct (evaluateVolume_cases p) as (pb & pstatus & pmessage & Hp & Hpst).
    unfold peer_finding, preparePeerVolume in Hf. rewrite Hp in Hf. cbn in Hf.
    destruct (pstatus =s= ConflictFindingStatusClear) eqn:Hpclear; cbn [negb] in Hf.
    + repeat case_match; (apply list_elem_of_singleton in Hf as -> || by apply elem_of_nil in Hf); cbn; auto.
    + assert (pstatus ≠ ConflictFindingStatusClear) by by apply String.eqb_neq.
      repeat case_match; (apply list_elem_of_singleton in Hf as -> || by apply elem_of_nil in Hf); cbn; naive_solver.
  - apply String.eqb_neq in Hclear. apply list_elem_of_singleton in Hf as ->. cbn. naive_solver.
Qed.
End statuses.

(** ** Discovery keeps what the local provider found *)

Lemma add_record_extends id rs state :
  ∃ more, (foldl (add_record id) state rs).1 = state.1 ++ more.
Proof.
  revert state. induction rs as [|r rs IH]; intros [records seen]; cbn [foldl].
  - exists []. by rewrite app_nil_r.
  - destruct (IH (add_record id (records, seen) r)) as [more ->]. unfold add_record. cbn [fst].
    case_decide; [by exists more|]. cbn [fst]. eexists. by rewrite <- app_assoc.
Qed.

Lemma add_record_all id rs records seen :
  Forall (λ r, Source_ProviderID (Airspace_Source r) = id) rs →
  NoDup (map (λ r, sourceKey (Airspace_Source r)) rs) →
  (∀ r, r ∈ rs → sourceKey (Airspace_Source r) ∉ seen) →
  (foldl (add_record id) (records, seen) rs).1 = records ++ rs.
Proof.
  intros Hid. revert records seen. induction Hid as [|r rs Hr Hid IH]; intros records seen Hnd Hseen; cbn [foldl].
  - by rewrite app_nil_r.
  - assert (r <| Airspace_Source := (Airspace_Source r) <| Source_ProviderID := id |> |> = r) as Hsame.
    { rewrite <- Hr. destruct r as [[] ? ? ?]. done. }
    assert (add_record id (records, seen) r = (records ++ [r], {[sourceKey (Airspace_Source r)]} ∪ seen)) as ->.
    { unfold add_record. rewrite Hsame. rewrite decide_False by (apply Hseen; by left). done. }
    apply NoDup_cons in Hnd as [Hnin Hnd]. rewrite IH, <- app_assoc; [done|done|].
    intros r' Hr'. rewrite not_elem_of_union, not_elem_of_singleton. split; [|apply Hseen; by right].
    intros Heq. apply Hnin. rewrite <- Heq. apply elem_of_map_list. by exists r'.
Qed.

Lemma sourceKey_local_inj i j :
  sourceKey (local_source i) = sourceKey (local_source j) → Intent_ID i = Intent_ID j.
Proof.
  unfold sourceKey. cbn. intros Heq. injection Heq as Heq.
  by apply (joined_inj nul _ _ _ _ separator_nul) in Heq as [? _].
Qed.

Section runs.
Context {RT : Runtime} {LIB : Library} {externalE : Type → Type} {O : Type} {HO : Outside externalE O}.
Abbreviation world := (world Store O).
Abbreviation Provider := (Provider (externalE := externalE)).

Lemma run_discover_extends query (providers : list Provider) records findings seen (w : world) found w' :
  run handle_api (discover query providers records findings seen) w = (found, w') →
  ∃ more, found.1 = records ++ more.
Proof using Type.
  revert records findings seen w. induction providers as [|provider rest IH]; intros records findings seen w.
  - cbn. intros [= <- <-]. exists []. by rewrite app_nil_r.
  - cbn [discover]. rewrite run_bind. destruct (run handle_api _ w) as [[discovered err] w1].
    pose proof (add_record_extends (provider_ID provider) discovered (records, seen)) as [more1 H1].
    destruct (foldl _ _ discovered) as [records1 seen1]. cbn in H1. subst records1.
    intros [more2 ->]%IH. exists (more1 ++ more2). by rewrite app_assoc.
Qed.

Lemma discovered_keys s own volumes records :
  discovered s own volumes records →
  Forall (λ r, Source_ProviderID (Airspace_Source r) = ProviderLocal) records
  ∧ NoDup (map (λ r, sourceKey (Airspace_Source r)) records).
Proof using Type.
  intros [Honce Hsound _]. split.
  - apply Forall_forall. intros r Hr. by destruct (Hsound r Hr) as (i & _ & _ & ->).
  - assert (∀ r, r ∈ records → ∃ i, r = local_record_of s i) as Hlocal.
    { intros r Hr. destruct (Hsound r Hr) as (i & _ & _ & ->). by exists i. }
    clear Hsound. induction records as [|r records IH]; cbn in *; [constructor|].
    apply NoDup_cons in Honce as [Hnin Honce]. apply NoDup_cons. split.
    + intros (r' & Hr' & Heq)%elem_of_map_list. apply Hnin, elem_of_map_list. exists r'. split; [done|].
      destruct (Hlocal r' ltac:(by right)) as [j ->], (Hlocal r ltac:(by left)) as [i ->].
      cbn in Heq |- *. by apply sourceKey_local_inj.
    + apply IH; [done|]. intros r' Hr'. apply Hlocal. by right.
Qed.

(** The local provider, asked first, has all its records in the result. *)
Lemma run_discover_local svc others intent volumes (w : world) found w' :
  service_providers svc = local_provider :: others → store_wf (store w) →
  run handle_api (discoverOperationalIntents svc intent volumes) w = (found, w') →
  ∃ records more, discovered (store w) (Intent_ID intent) volumes records ∧ found.1 = records ++ more.
Proof using Type.
  intros Hproviders Hwf. unfold discoverOperationalIntents. rewrite Hproviders. cbn [discover].
  destruct (run_find_local (externalE := externalE) (mkQuery intent volumes) w Hwf) as (records & Hrun & Hdisc).
  cbn [local_provider FindOperationalIntents provider_ID]. rewrite run_bind, Hrun.
  destruct (discovered_keys _ _ _ _ Hdisc) as [Hlocal Hnd].
  pose proof (add_record_all ProviderLocal records [] ∅ Hlocal Hnd) as Hall.
  destruct (foldl _ _ records) as [records1 seen1]. cbn in Hall. rewrite Hall by set_solver.
  intros [more Hmore]%run_discover_extends. exists records, more. done.
Qed.

(** ** The whole check *)

Lemma finalized_intent r : DeconflictionResult_Intent (finalized r) = DeconflictionResult_Intent r.
Proof using Type. unfold finalized, some_finding. by destruct (DeconflictionResult_Findings r). Qed.

Lemma add_findings_assoc fs gs r : add_findings gs (add_findings fs r) = add_findings (fs ++ gs) r.
Proof using Type. unfold add_findings. destruct r. cbn. by rewrite <- app_assoc. Qed.

(** The findings in the scope of a check are those it found. *)
Definition findings_stored (r : DeconflictionResult) (s : Store) : Prop :=
  ∀ f, f ∈ DeconflictionResult_Findings r ↔
    f ∈ conflictFindings s
    ∧ ConflictFinding_IntentID f = Intent_ID (DeconflictionResult_Intent r)
    ∧ ConflictFinding_IntentVersion f = Intent_Version (DeconflictionResult_Intent r)
    ∧ ConflictFinding_RuleVersion f = deconflictionRuleVersion.

Lemma in_scope_iff id v rule f :
  outside_conflict_scope id v rule f = false ↔
  ConflictFinding_IntentID f = id ∧ ConflictFinding_IntentVersion f = v ∧ ConflictFinding_RuleVersion f = rule.
Proof using Type.
  unfold outside_conflict_scope.
  rewrite !orb_false_iff, !negb_false_iff, Z.eqb_eq, !String.eqb_eq. tauto.
Qed.

Lemma replaced_findings id v rule fs s r s' :
  ReplaceConflictFindings id v rule fs s = (Ok r, s') →
  ∀ f, f ∈ fs ↔ f ∈ conflictFindings s' ∧ ConflictFinding_IntentID f = id
    ∧ ConflictFinding_IntentVersion f = v ∧ ConflictFinding_RuleVersion f = rule.
Proof using Type.
  unfold ReplaceConflictFindings. destruct (List.find _ fs) as [|] eqn:Hfind; [done|]. intros [= _ <-] f.
  change (conflictFindings _) with (select (outside_conflict_scope id v rule) (conflictFindings s) ++ fs).
  rewrite <- in_scope_iff, elem_of_app, elem_of_select. split; [|intuition congruence].
  intros Hf. split; [by right|]. rewrite list_elem_of_In in Hf. by apply (find_none _ _ Hfind).
Qed.

Lemma run_finalize_any result (w : world) :
  ∃ w', run handle_api (finalize (externalE := externalE) result) w = (Ok (finalized result), w')
      ∧ findings_stored (finalized result) (store w')
  ∨ ∃ err, run handle_api (finalize (externalE := externalE) result) w = (Err err, w').
Proof using Type.
  unfold finalize, durable, call. cbn -[finalized].
  destruct (ReplaceConflictFindings _ _ _ _ _) as [[[]|err] s'] eqn:Hr; cbn -[finalized]; [|eauto].
  eexists. left. split; [reflexivity|]. exact (replaced_findings _ _ _ _ _ _ _ Hr).
Qed.

(** A check that succeeds ends in the findings of the evaluation, after those
    of the providers; without volumes, in one indeterminate finding. *)
Lemma run_check svc intent volumes (w : world) result records w' :
  run handle_api (check svc intent volumes) w = (Ok (result, records), w') →
  ∃ t w0 findings, store w0 = store w ∧ findings_stored result (store w')
    ∧ result = finalized (add_findings findings (newResult intent t))
    ∧ match volumes with
      | [] => findings = [service_finding ConflictFindingStatusIndeterminate "intent has no operational volumes to check"]
      | _ => ∃ found w1, findings = found ++ evaluateConflicts intent volumes records
             ∧ run handle_api (discoverOperationalIntents svc intent volumes) w0 = ((records, found), w1)
      end.
Proof using Type.
  unfold check, now, call. cbn -[finalize discoverOperationalIntents].
  set (w0 := w <| ticks := _ |>). set (t := UTC _). intros Hrun. exists t, w0. destruct volumes as [|v volumes].
  - eexists. split; [done|]. revert Hrun. rewrite run_bind. set (r := add_findings _ _).
    destruct (run_finalize_any r w0) as (w2 & [[-> Hst]|[err ->]]); cbn -[finalized r]; [|done].
    intros [= <- <- <-]. split; [exact Hst|done].
  - revert Hrun. rewrite run_bind.
    destruct (run handle_api (discoverOperationalIntents _ _ _) w0) as [[records1 found] w1] eqn:Hdisc.
    rewrite run_bind, add_findings_assoc. set (r := add_findings _ _).
    destruct (run_finalize_any r w1) as (w2 & [[-> Hst]|[err ->]]); cbn -[finalized r]; [|done].
    intros [= <- <- <-]. exists (found ++ evaluateConflicts intent (v :: volumes) records1).
    split; [done|]. split; [exact Hst|]. split; [done|]. by exists found, w1.
Qed.

Lemma run_loadIntent id intent (w : world) :
  GetOperationalIntent id (store w) = Ok intent →
  run handle_api (loadIntent (externalE := externalE) id) w
  = (Ok (intent, volumesForVersion (stored_volumes (store w) (Intent_ID intent)) (Intent_Version intent)), w).
Proof using Type.
  intros Hget. unfold loadIntent, durable, call. cbn -[GetOperationalIntent]. rewrite Hget. cbn. by destruct w.
Qed.

(** Two rows in effect with the same identity and version are one. *)
Lemma in_effect_inj s i j :
  in_effect s i → in_effect s j → Intent_ID i = Intent_ID j → Intent_Version i = Intent_Version j → i = j.
Proof using Type. intros [Hi _] [Hj _] Hid Hv. unfold intent_key in *. rewrite Hid, Hv in Hi. congruence. Qed.

(** A volume that could not overlap the query is apart from each of its volumes. *)
Lemma could_not_overlap volumes v p : v ∈ volumes → couldOverlap volumes p = false → separated v p.
Proof using Type.
  intros Hv. unfold couldOverlap. destruct volumes as [|v0 volumes]; [by apply elem_of_nil in Hv|].
  rewrite orb_false_iff. intros [_ Hnone] t lon lat Hvt Hpt _ _.
  rewrite existsb_none in Hnone. specialize (Hnone v Hv). unfold target_matches in Hnone.
  assert (Before (Volume_StartsAt v) (Volume_EndsAt p) && Before (Volume_StartsAt p) (Volume_EndsAt v) = true) as Ht
    by exact (windows_overlap v p t Hvt Hpt).
  rewrite orb_false_iff, Ht in Hnone. destruct Hnone as [_ Hnone]. cbn [andb] in Hnone.
  rewrite orb_false_iff, negb_false_iff, String.eqb_eq in Hnone. destruct Hnone as [Href Hbands]. split; [done|].
  intros alt [Hva Hpa]. by rewrite (bands_overlap v p alt Hva Hpa : _ && _ = true) in Hbands.
Qed.

(** C7: Clear means apart.  When the deconfliction check of an intent, with the
    local provider asked first, ends with a clear posture, each volume of the
    checked version is well formed and apart (at no time at the same position
    in the same altitude band, nor in bands that cannot be compared) from each
    volume of the version in effect of every other intent of the store. *)
Theorem clear_check_separated svc others id (w : world) result w' intent v i p :
  service_providers svc = local_provider :: others → store_wf (store w) →
  run handle_api (CheckIntent svc id) w = (Ok result, w') →
  DeconflictionResult_Posture result = DeconflictionPostureClear →
  GetOperationalIntent id (store w) = Ok intent → volume_of (store w) intent v →
  in_effect (store w) i → Intent_ID i ≠ Intent_ID intent →
  (∀ j, in_effect (store w) j → Intent_ID j = Intent_ID i → Intent_Version j ≤ Intent_Version i) →
  volume_of (store w) i p →
  (evaluateVolume v).1.2 = ConflictFindingStatusClear ∧ separated v p.
Proof using Type.
  intros Hproviders Hwf Hrun Hclear Hget Hv Hi Hne Hmax Hp.
  unfold CheckIntent in Hrun. rewrite run_bind, (run_loadIntent _ _ _ Hget) in Hrun. cbn [fst snd] in Hrun.
  set (volumes := volumesForVersion _ _) in *.
  assert (v ∈ volumes) as Hvin.
  { destruct Hv as (Hk & Hid & Hver). apply elem_of_select. rewrite Z.eqb_eq. split; [|done].
    apply elem_of_stored_volumes. auto. }
  rewrite run_bind in Hrun. destruct (run handle_api (check _ _ _) w) as [[[result1 records]|err] w1] eqn:Hcheck; [|done].
  injection Hrun as <- <-. cbn [fst] in Hclear.
  apply run_check in Hcheck as (t & w0 & findings & Hstore & _ & -> & Hfindings).
  assert (∃ found w1, findings = found ++ evaluateConflicts intent volumes records
            ∧ run handle_api (discoverOperationalIntents svc intent volumes) w0 = ((records, found), w1))
    as (found & w2 & -> & Hdisc) by (destruct volumes; [by apply elem_of_nil in Hvin|done]).
  destruct (run_discover_local svc others intent volumes w0 _ _ Hproviders ltac:(by rewrite Hstore) Hdisc)
    as (local & more & Hlocal & Hrecords). cbn in Hrecords. subst records. rewrite Hstore in Hlocal.
  assert (evaluateConflicts intent volumes (local ++ more) = []) as Hnone.
  { destruct (evaluateConflicts intent volumes (local ++ more)) as [|f fs] eqn:Hev; [done|].
    destruct (evaluateConflicts_status intent volumes (local ++ more) f) as [Hst|Hst]; [rewrite Hev; by left|..];
      (eapply (finalized_clear _ f) in Hclear; [by rewrite Hst in Hclear| |unfold known_status; rewrite Hst; auto]);
      unfold add_findings; cbn; apply elem_of_app; right; by left. }
  destruct (no_findings_separated _ _ _ Hnone v Hvin) as [Hvclear Hpeers]. split; [done|].
  destruct (couldOverlap volumes p) eqn:Hover; [|by eapply could_not_overlap].
  destruct (discovered_complete _ _ _ _ Hlocal i p Hi Hp Hne Hover) as (j & Hj & Hjid & Hle & Hjin).
  assert (j = i) as ->.
  { apply (in_effect_inj (store w)); try done. specialize (Hmax j Hj Hjid). lia. }
  apply (Hpeers (local_record_of (store w) i) p). split; [apply elem_of_app; by left|]. by apply volume_of_record.
Qed.

(** What [normalizeFinding] makes sure of. *)
Definition normal_finding (intent : OperationalIntent) (f : ConflictFinding) : Prop :=
  ConflictFinding_ID f ≠ "" ∧ ConflictFinding_IntentID f = Intent_ID intent
  ∧ ConflictFinding_IntentVersion f = Intent_Version intent
  ∧ ConflictFinding_OperatorID f = Intent_OperatorID intent
  ∧ ConflictFinding_AircraftID f = Intent_AircraftID intent
  ∧ ConflictFinding_RuleVersion f = deconflictionRuleVersion
  ∧ ConflictFinding_Severity f ≠ "" ∧ ConflictFinding_SourceType f ≠ ""
  ∧ (ConflictFinding_Blocking f = true ↔ ConflictFinding_Status f ≠ ConflictFindingStatusClear).

Lemma conflictSeverity_set status : conflictSeverity status ≠ "".
Proof using Type. unfold conflictSeverity. by repeat case_match. Qed.

Lemma normalizeFinding_normal intent f fallback t : normal_finding intent (normalizeFinding intent f fallback t).
Proof using Type.
  unfold normalizeFinding. set (f1 := f <| ConflictFinding_IntentID := _ |> <| ConflictFinding_IntentVersion := _ |>
    <| ConflictFinding_OperatorID := _ |> <| ConflictFinding_AircraftID := _ |>).
  assert (ConflictFinding_IntentID f1 = Intent_ID intent ∧ ConflictFinding_IntentVersion f1 = Intent_Version intent
    ∧ ConflictFinding_OperatorID f1 = Intent_OperatorID intent
    ∧ ConflictFinding_AircraftID f1 = Intent_AircraftID intent) as (E1 & E2 & E3 & E4) by done.
  clearbody f1. set (f2 := if ConflictFinding_SourceID f1 =s= "" then _ else _).
  assert (ConflictFinding_IntentID f2 = Intent_ID intent ∧ ConflictFinding_IntentVersion f2 = Intent_Version intent
    ∧ ConflictFinding_OperatorID f2 = Intent_OperatorID intent
    ∧ ConflictFinding_AircraftID f2 = Intent_AircraftID intent) as (F1 & F2 & F3 & F4)
    by (unfold f2; by destruct (_ =s= _)).
  clearbody f2. unfold normal_finding.
  destruct (String.eqb_spec (ConflictFinding_SourceType f2) ""); cbn;
    (destruct (String.eqb_spec (ConflictFinding_ID f2) ""); cbn);
    (destruct (IsZero (ConflictFinding_EvaluatedAt f2)); cbn);
    (destruct (String.eqb_spec (ConflictFinding_Severity f2) ""); cbn);
    rewrite ?negb_true_iff, ?String.eqb_neq; auto 12 using conflictSeverity_set.
Qed.

Lemma finalized_verdict intent t fs :
  let r := finalized (add_findings fs (newResult intent t)) in
  DeconflictionResult_Findings r ≠ [] ∧ Forall (normal_finding intent) (DeconflictionResult_Findings r)
  ∧ (∀ f, f ∈ DeconflictionResult_Findings r →
       postureRank (postureForFinding (ConflictFinding_Status f)) ≤ postureRank (DeconflictionResult_Posture r))
  ∧ (∃ f, f ∈ DeconflictionResult_Findings r
       ∧ DeconflictionResult_Posture r = postureForFinding (ConflictFinding_Status f)).
Proof using Type.
  cbn zeta. rewrite finalized_findings, finalized_posture. set (r := some_finding _).
  assert (DeconflictionResult_Intent r = intent ∧ DeconflictionResult_Posture r = DeconflictionPostureClear
    ∧ DeconflictionResult_Findings r ≠ []) as (Hi & Hp & Hne) by (unfold r; by destruct fs).
  clearbody r. destruct (fold_posture_rank (normalized r) (DeconflictionResult_Posture r)) as (_ & Hall & Hsome).
  assert (∃ g, g ∈ normalized r) as [g Hg].
  { destruct (DeconflictionResult_Findings r) as [|f fs'] eqn:E; [done|].
    destruct (elem_of_normalized r f) as (g & Hg & _); [rewrite E; by left|]. by exists g. }
  split; [by destruct (normalized r); [apply elem_of_nil in Hg|]|]. split.
  { apply Forall_forall. unfold normalized. intros f (h & _ & <-)%elem_of_map_list. rewrite <- Hi.
    apply normalizeFinding_normal. }
  split; [exact Hall|]. destruct Hsome as [Hsame|Hsome]; [|exact Hsome].
  exists g. split; [exact Hg|]. specialize (Hall g Hg). rewrite Hsame, Hp in *.
  unfold postureForFinding in *. by repeat case_match.
Qed.

(** The verdict of a check.  A deconfliction check that succeeds, whatever
    the providers answer, is about the latest version of the intent, ends in at
    least one finding, and its posture is that of the worst finding.  Each
    finding carries the identity of the intent and the rule, and blocks unless
    it is clear; the store then holds exactly these findings for that version
    and that rule. *)
Theorem check_verdict svc id (w : world) result w' :
  run handle_api (CheckIntent svc id) w = (Ok result, w') →
  GetOperationalIntent id (store w) = Ok (DeconflictionResult_Intent result)
  ∧ DeconflictionResult_Findings result ≠ []
  ∧ Forall (normal_finding (DeconflictionResult_Intent result)) (DeconflictionResult_Findings result)
  ∧ (∀ f, f ∈ DeconflictionResult_Findings result →
       postureRank (postureForFinding (ConflictFinding_Status f)) ≤ postureRank (DeconflictionResult_Posture result))
  ∧ (∃ f, f ∈ DeconflictionResult_Findings result
       ∧ DeconflictionResult_Posture result = postureForFinding (ConflictFinding_Status f))
  ∧ findings_stored result (store w').
Proof using Type.
  unfold CheckIntent. rewrite run_bind.
  destruct (GetOperationalIntent id (store w)) as [intent|err] eqn:Hget.
  - rewrite (run_loadIntent _ _ _ Hget). cbn [fst snd]. rewrite run_bind.
    destruct (run handle_api (check _ _ _) w) as [[[result1 records]|err] w1] eqn:Hcheck; [|done].
    intros [= <- <-]. cbn [fst]. apply run_check in Hcheck as (t & w0 & findings & _ & Hstored & -> & _).
    rewrite finalized_intent. split; [done|].
    destruct (finalized_verdict intent t findings) as (?&?&?&?). auto.
  - unfold loadIntent, durable, call. cbn -[GetOperationalIntent]. by rewrite Hget.
Qed.
End runs.

(** ** The calls of a check

    The check of an intent reads intents and volumes and replaces the recorded
    conflicts; whatever else it does is up to the providers. *)

Definition check_call {A} (e : Durable.storeE A) : bool :=
  match e with
  | Durable.GetOperationalIntent _ | Durable.GetOperationalIntentVersion _ _ | Durable.ListOperationalVolumes _
  | Durable.FindCandidates _ | Durable.ReplaceConflictFindings _ _ _ _ => true
  | _ => false
  end.

Section check_calls.
Context {RT : Runtime} {LIB : Library} {externalE : Type → Type}.
Abbreviation program := (prog (apiE externalE)).
Abbreviation Provider := (Provider (externalE := externalE)).
Context (P : ∀ A, Durable.storeE A → Prop) (HP : ∀ A (e : Durable.storeE A), check_call e = true → P A e).

Ltac walk_check :=
  repeat lazymatch goal with
  | |- store_calls_in _ (prog_bind _ _) => apply store_calls_in_bind; [|intros ?]
  | |- store_calls_in _ (Ret _) => exact I
  | |- store_calls_in _ now => done
  | |- store_calls_in _ (durable _) => split; [by apply HP|done]
  | |- store_calls_in _ (match ?x with _ => _ end) => destruct x
  end.

Lemma local_provider_calls query : store_calls_in P (FindOperationalIntents (local_provider : Provider) query).
Proof using HP.
  change (store_calls_in P (FindLocalIntents query : program _)). unfold FindLocalIntents.
  assert (∀ cs m errs, store_calls_in P (select_candidates cs m errs : program _)) as Hselect.
  { intros cs. induction cs as [|c cs IH]; intros m errs; cbn [select_candidates]; [done|].
    apply store_calls_in_bind; [split; [by apply HP|done]|]. intros [i|err]; [apply IH|].
    destruct (errors_Is _ _); apply IH. }
  assert (∀ ids m rs errs, store_calls_in P (collect_records ids m rs errs : program _)) as Hcollect.
  { intros ids. induction ids as [|id ids IH]; intros m rs errs; cbn [collect_records]; [done|].
    apply store_calls_in_bind; [split; [by apply HP|done]|]. intros [vs|err]; apply IH. }
  walk_check; [apply Hselect|apply Hcollect].
Qed.

Context (s : DeconflictionService externalE).
Context (Hproviders : Forall (λ p : Provider, ∀ query, store_calls_in P (FindOperationalIntents p query)) (service_providers s)).

Lemma check_calls_in intent volumes : store_calls_in P (check s intent volumes).
Proof using HP Hproviders.
  assert (∀ query providers records findings seen,
    Forall (λ p : Provider, ∀ query, store_calls_in P (FindOperationalIntents p query)) providers →
    store_calls_in P (discover query providers records findings seen)) as Hdiscover.
  { intros query providers records findings seen Hall. revert records findings seen.
    induction Hall as [|p ps Hp _ IH]; intros records findings seen; [done|].
    cbn [discover]. apply store_calls_in_bind; [apply Hp|]. intros [found err]. destruct (foldl _ _ _). apply IH. }
  unfold check. apply store_calls_in_bind; [done|]. intros t.
  destruct volumes; (apply store_calls_in_bind; [|intros ?]); unfold finalize; walk_check. by apply Hdiscover.
Qed.

Lemma CheckIntent_calls_in id : store_calls_in P (CheckIntent s id).
Proof using HP Hproviders.
  unfold CheckIntent, loadIntent. walk_check. apply check_calls_in.
Qed.
End check_calls.

(** ** Witnesses: two accepted intents over the same ground, one after the other *)

#[local] Existing Instance reference_runtime.
#[local] Existing Instance reference_library.

Definition demo_airspace (id volumeID : string) (starts ends : Time) : OperationalVolume :=
  zero_OperationalVolume <| Volume_ID := volumeID |> <| Volume_IntentID := id |> <| Volume_IntentVersion := 1 |>
    <| Volume_GeoJSON := demo_polygon |> <| Volume_AltitudeRef := "wgs84" |>
    <| Volume_MaxAltitudeM := float_of_Z 120 |>
    <| Volume_StartsAt := starts |> <| Volume_EndsAt := ends |>.
Definition demo_own : OperationalVolume := demo_airspace "i1" "v1" 10 20.
Definition demo_peer : OperationalVolume := demo_airspace "i2" "v2" 20 30.
Definition demo_other : OperationalIntent := demo_accepted <| Intent_ID := "i2" |> <| Intent_AircraftID := "a2" |>.

Definition demo_traffic : Store :=
  demo [StoreCall (Durable.CreateOperationalIntent demo_submitted);
        StoreCall (Durable.RecordOperationalVolume demo_own);
        StoreCall (Durable.CreateOperationalIntent demo_other);
        StoreCall (Durable.RecordOperationalVolume demo_peer)].

Definition demo_service : DeconflictionService no_external :=
  mkDeconflictionService [local_provider] None (30 * Second).

(** The outcome of a check, and the posture it gives. *)
Definition demo_check_run : outcome DeconflictionResult * world Store unit :=
  run handle_api (CheckIntent demo_service "i1") (demo_world demo_traffic).
Definition demo_result : DeconflictionResult :=
  match demo_check_run.1 with Ok r => r | Err _ => newResult zero_OperationalIntent 0 end.

Lemma demo_traffic_version j : in_effect demo_traffic j → Intent_Version j ≤ 1.
Proof.
  intros [Hj _]. apply Z.leb_le. revert Hj.
  apply (map_check (λ j, Intent_Version j <=? 1)). vm_compute. reflexivity.
Qed.

Lemma demo_result_clear : DeconflictionResult_Posture demo_result = DeconflictionPostureClear.
Proof. vm_compute. reflexivity. Qed.

Lemma clear_check_separated_witness :
  (evaluateVolume demo_own).1.2 = ConflictFindingStatusClear ∧ separated demo_own demo_peer.
Proof.
  apply (clear_check_separated demo_service [] "i1" (demo_world demo_traffic) demo_result demo_check_run.2
           demo_submitted demo_own demo_other demo_peer).
  - reflexivity.
  - apply demo_wf.
  - vm_compute. reflexivity.
  - apply demo_result_clear.
  - vm_compute. reflexivity.
  - split; [|split; reflexivity]. exists (operationalVolumeKey demo_own). vm_compute. reflexivity.
  - split; [vm_compute; reflexivity|left; reflexivity].
  - discriminate.
  - intros j Hj _. exact (demo_traffic_version j Hj).
  - split; [|split; reflexivity]. exists (operationalVolumeKey demo_peer). vm_compute. reflexivity.
Defined.

Lemma check_verdict_witness :
  DeconflictionResult_Findings demo_result ≠ [] ∧ findings_stored demo_result (store demo_check_run.2).
Proof.
  assert (run handle_api (CheckIntent demo_service "i1") (demo_world demo_traffic) = (Ok demo_result, demo_check_run.2)) as H
    by (vm_compute; reflexivity).
  destruct (check_verdict _ _ _ _ _ H) as (_ & Hne & _ & _ & _ & Hstored). split; [exact Hne|exact Hstored].
Defined.
