(* ===== verification/Publishing.v ===== *)
(** * Publication of intents

    src/internal/service/deconfliction/publication.go: the reconciliation of a
    claimed publication with the coordination service, and the delivery of
    notifications to peers.

    The worker RunPublicationWorker calls [ReconcileDue] once a second until it
    is cancelled; one such call is modelled.  A back-off shifts by the count of
    attempts, which every claim increments; were that count negative, Go would
    panic on the shift. *)

From S2P Require Import Prelude GoRuntime GoStrings GoFloat GoJson GoSha256 GoNet GoRange Domain Errors Program DurableStore Airspace Geometry Deconfliction.
From stdpp Require Import options.

Definition publicationLease : Duration := 30 * Second.
Definition publicationBatch : nat := 20.
Definition peerNotificationBatch : nat := 20.

Definition has_status (err : error) (code : Z) : bool :=
  match errors_As_SCD err with Some c => c =? code | None => false end.

Definition permanentPublicationError (err : error) : bool :=
  match errors_As_SCD err with
  | None => false
  | Some code => (code =? StatusBadRequest) || (code =? StatusRequestEntityTooLarge)
  end.

Definition retryableDeconflictionResult (result : DeconflictionResult) : bool :=
  if DeconflictionResult_Posture result <>s DeconflictionPostureIndeterminate then false
  else
    existsb (λ finding,
      (ConflictFinding_Status finding =s= ConflictFindingStatusIndeterminate)
      && (ConflictFinding_SourceType finding =s= ConflictFindingSourceExternal))
      (DeconflictionResult_Findings result).

(** [time.Second << min(attempts, 8)] *)
Definition backoff (attempts : Z) : Duration := Z.shiftl Second (Z.min attempts 8).

Definition applyReceipt (publication : OperationalIntentPublication) (receipt : PublicationReceipt)
    : OperationalIntentPublication :=
  publication
    <| Publication_Manager := Receipt_Manager receipt |>
    <| Publication_DSSVersion := Receipt_Version receipt |>
    <| Publication_OVN := Receipt_OVN receipt |>
    <| Publication_SubscriptionID := Receipt_SubscriptionID receipt |>
    <| Publication_USSBaseURL := Receipt_USSBaseURL receipt |>
    <| Publication_ReferenceJSON := Receipt_ReferenceJSON receipt |>.

(** The record written after a failure at [now]. *)
Definition failed_publication (publication : OperationalIntentPublication) (now : Time) (cause : error)
    (permanent : bool) : OperationalIntentPublication :=
  let publication := publication <| Publication_LastError := Error cause |> <| Publication_UpdatedAt := now |> in
  if permanent
  then publication <| Publication_SyncStatus := PublicationSyncBlocked |>
                   <| Publication_NextAttemptAt := zero_Time |>
  else publication <| Publication_SyncStatus := PublicationSyncRetrying |>
         <| Publication_NextAttemptAt := TimeAdd now (backoff (Publication_AttemptCount publication)) |>.

(** The records written after a confirmed publication and a confirmed withdrawal. *)
Definition confirmed_publication (publication : OperationalIntentPublication) (receipt : PublicationReceipt)
    (now : Time) : OperationalIntentPublication :=
  let publication := applyReceipt publication receipt in
  publication
    <| Publication_PublishedIntentVersion := Publication_DesiredIntentVersion publication |>
    <| Publication_ConfirmedState := Publication_DesiredState publication |>
    <| Publication_SyncStatus := PublicationSyncConfirmed |>
    <| Publication_ConfirmedAt := Some now |>
    <| Publication_LastError := "" |>
    <| Publication_UpdatedAt := now |>.

Definition withdrawn_publication (publication : OperationalIntentPublication) (receipt : PublicationReceipt)
    (now : Time) : OperationalIntentPublication :=
  let publication := if Receipt_OVN receipt <>s "" then applyReceipt publication receipt else publication in
  publication
    <| Publication_SyncStatus := PublicationSyncWithdrawn |>
    <| Publication_ConfirmedState := OperationalIntentExternalStateWithdrawn |>
    <| Publication_PublishedIntentVersion := 0 |>
    <| Publication_ConfirmedAt := Some now |>
    <| Publication_LastError := "" |>
    <| Publication_UpdatedAt := now |>.

(** The OVNs of the peers, sorted, each once. *)
Definition publication_key_set (intent : OperationalIntent) (records : list AirspaceIntent) : gset string :=
  list_to_set (map (λ record, Source_OVN (Airspace_Source record))
    (select (λ record, (Source_OVN (Airspace_Source record) <>s "")
                       && (Source_ReferenceID (Airspace_Source record) <>s Intent_ID intent)) records)).

(** The text whose digest identifies a notification. *)
Definition notification_identity (request : PublicationRequest) (receipt : PublicationReceipt)
    (subscriber : Subscriber) (deleted : bool) : string :=
  if deleted
  then Intent_ID (Request_Intent request) +:+ String nul ("withdrawn" +:+ String nul
         (Itoa (Intent_Version (Request_Intent request)) +:+ String nul (Subscriber_USSBaseURL subscriber)))
  else Intent_ID (Request_Intent request) +:+ String nul
         (Itoa (Receipt_Version receipt) +:+ String nul (Subscriber_USSBaseURL subscriber)).

Definition peer_notification (request : PublicationRequest) (receipt : PublicationReceipt)
    (subscriber : Subscriber) (deleted : bool) (payload : list Byte.byte) (now : Time) : PeerNotification :=
  zero_PeerNotification
    <| Notification_ID := sha256_hex (notification_identity request receipt subscriber deleted) |>
    <| Notification_IntentID := Intent_ID (Request_Intent request) |>
    <| Notification_IntentVersion := Intent_Version (Request_Intent request) |>
    <| Notification_USSBaseURL := Subscriber_USSBaseURL subscriber |>
    <| Notification_Payload := payload |>
    <| Notification_NextAttemptAt := now |>
    <| Notification_CreatedAt := now |>
    <| Notification_UpdatedAt := now |>.

(** The record written after an attempt to deliver. *)
Definition attempted_notification (notification : PeerNotification) (now : Time) (result : option error)
    : PeerNotification :=
  let notification := notification <| Notification_UpdatedAt := now |> in
  match result with
  | None => notification <| Notification_DeliveredAt := Some now |> <| Notification_LastError := "" |>
  | Some err =>
      notification <| Notification_LastError := Error err |>
        <| Notification_NextAttemptAt := TimeAdd now (backoff (Notification_AttemptCount notification)) |>
  end.

(** [errors.Join] of a list as the error of a call. *)
Definition joined (errs : list error) : outcome unit :=
  match errors_Join_all errs with Some err => Err err | None => Ok tt end.

Section publishing.
Context {RT : Runtime} {LIB : Library} {externalE : Type → Type}.
Abbreviation program := (prog (apiE externalE)).
Abbreviation Publisher := (Publisher (externalE := externalE)).
Abbreviation DeconflictionService := (DeconflictionService externalE).

Definition publication_key (intent : OperationalIntent) (records : list AirspaceIntent) : list string :=
  sort_strings (elements (publication_key_set intent records)).

(** ** The operations of the claim holder

    [publisher] is the service's publisher, which is there when publishing is
    enabled. *)
Section claimed.
Context (s : DeconflictionService) (publisher : Publisher).

Definition recordPublicationFailure (publication : OperationalIntentPublication) (expectedRevision : Z)
    (cause : error) (permanent : bool) : program (outcome unit) :=
  let! t := now in
  let! updated := durable (Durable.UpdateOperationalIntentPublication
    (failed_publication publication (UTC t) cause permanent) expectedRevision) in
  match updated with
  | Err err => Ret (Err (errors_Join cause err))
  | Ok _ => Ret (Err cause)
  end.

Definition renewPublicationLease (publication : OperationalIntentPublication) : program (outcome unit) :=
  let! t := now in
  durable (Durable.RenewOperationalIntentPublicationLease (Publication_IntentID publication)
             (Publication_Revision publication) (TimeAdd (UTC t) (service_publicationLease s))).

Fixpoint build_notifications (t : Time) (request : PublicationRequest) (receipt : PublicationReceipt)
    (deleted : bool) (subscribers : list Subscriber) : outcome (list PeerNotification) :=
  match subscribers with
  | [] => Ok []
  | subscriber :: rest =>
      match BuildPeerNotification publisher request receipt subscriber deleted with
      | Err err => Err err
      | Ok payload =>
          match build_notifications t request receipt deleted rest with
          | Err err => Err err
          | Ok notifications => Ok (peer_notification request receipt subscriber deleted payload t :: notifications)
          end
      end
  end.

Definition buildPeerNotifications (request : PublicationRequest) (receipt : PublicationReceipt) (deleted : bool)
    : program (outcome (list PeerNotification)) :=
  let! t := now in
  Ret (build_notifications (UTC t) request receipt deleted (Receipt_Subscribers receipt)).

Definition confirmWithdrawal (publication : OperationalIntentPublication) (expectedRevision : Z)
    (receipt : PublicationReceipt) : program (outcome unit) :=
  let! t := now in
  let applied := if Receipt_OVN receipt <>s "" then applyReceipt publication receipt else publication in
  let request := mkPublicationRequest
    (zero_OperationalIntent <| Intent_ID := Publication_IntentID applied |>
       <| Intent_Version := Publication_DesiredIntentVersion applied |>) [] "" [] "" "" in
  let! built := buildPeerNotifications request receipt true in
  match built with
  | Err err => recordPublicationFailure applied expectedRevision err false
  | Ok notifications =>
      durable (Durable.ConfirmOperationalIntentPublication
        (withdrawn_publication publication receipt (UTC t)) expectedRevision notifications)
  end.

Definition recoverWithdrawalReceipt (publication : OperationalIntentPublication)
    : program (outcome PublicationReceipt) :=
  try! volumes := durable (Durable.ListOperationalVolumes (Publication_IntentID publication)) orelse id in
  let version :=
    if Publication_PublishedIntentVersion publication =? 0
    then Publication_DesiredIntentVersion publication else Publication_PublishedIntentVersion publication in
  try! subscribers := FindSubscribers publisher (volumesForVersion volumes version)
    orelse wrap "recover subscribers after DSS deletion" in
  Ret (Ok (mkPublicationReceipt (Publication_Manager publication) (Publication_DSSVersion publication)
    (Publication_OVN publication) (Publication_SubscriptionID publication) (Publication_USSBaseURL publication)
    (Publication_ConfirmedState publication) (Publication_ReferenceJSON publication) subscribers)).

(** The deletion, once the OVN is known. *)
Definition delete_claimed (publication : OperationalIntentPublication) (expectedRevision : Z)
    : program (outcome unit) :=
  let! renewed := renewPublicationLease publication in
  match renewed with
  | Err err => Ret (Err err)
  | Ok _ =>
      let! deleted := DeleteOperationalIntent publisher (Publication_IntentID publication)
                        (Publication_OVN publication) in
      match deleted with
      | Ok receipt => confirmWithdrawal publication expectedRevision receipt
      | Err err =>
          if has_status err StatusNotFound then
            let! recovered := recoverWithdrawalReceipt publication in
            match recovered with
            | Err recoverErr => recordPublicationFailure publication expectedRevision recoverErr false
            | Ok receipt => confirmWithdrawal publication expectedRevision receipt
            end
          else if has_status err StatusConflict then
            let! read := GetOperationalIntentReference publisher (Publication_IntentID publication) in
            match read with
            | Err readErr =>
                recordPublicationFailure publication expectedRevision (errors_Join err readErr) false
            | Ok current =>
                if Receipt_OVN current =s= ""
                then recordPublicationFailure publication expectedRevision
                       (plain "DSS reference omitted manager OVN after delete conflict") false
                else recordPublicationFailure (applyReceipt publication current) expectedRevision err false
            end
          else recordPublicationFailure publication expectedRevision err false
      end
  end.

Definition reconcile_withdrawal (publication : OperationalIntentPublication) (expectedRevision : Z)
    : program (outcome unit) :=
  if Publication_OVN publication =s= "" then
    let! read := GetOperationalIntentReference publisher (Publication_IntentID publication) in
    match read with
    | Err err =>
        if has_status err StatusNotFound
        then confirmWithdrawal publication expectedRevision zero_PublicationReceipt
        else recordPublicationFailure publication expectedRevision err false
    | Ok current =>
        if Receipt_OVN current =s= ""
        then recordPublicationFailure publication expectedRevision
               (plain "DSS reference omitted manager OVN") false
        else delete_claimed (applyReceipt publication current) expectedRevision
    end
  else delete_claimed publication expectedRevision.

(** A mutation that failed: the reference is read back, in case only the
    response was lost. *)
Definition mutation_failed (publication : OperationalIntentPublication) (expectedRevision : Z) (err : error)
    : program (outcome unit) :=
  let! read := GetOperationalIntentReference publisher (Publication_IntentID publication) in
  match read with
  | Err _ => recordPublicationFailure publication expectedRevision err (permanentPublicationError err)
  | Ok current =>
      if (Publication_DSSVersion publication <? Receipt_Version current)
         && (Receipt_State current =s= Publication_DesiredState publication)
      then
        let publication := applyReceipt publication current in
        recordPublicationFailure
          (publication <| Publication_PublishedIntentVersion := Publication_DesiredIntentVersion publication |>
             <| Publication_ConfirmedState := Receipt_State current |>)
          expectedRevision
          (wrap "DSS mutation response was lost before subscribers were recorded" err) false
      else
        let publication := if Receipt_OVN current <>s "" then applyReceipt publication current else publication in
        recordPublicationFailure publication expectedRevision err (permanentPublicationError err)
  end.

(** The mutation at the coordination service, and its confirmation. *)
Definition publish_claimed (t : Time) (publication : OperationalIntentPublication) (expectedRevision : Z)
    (intent : OperationalIntent) (volumes : list OperationalVolume) (records : list AirspaceIntent)
    : program (outcome unit) :=
  let request := mkPublicationRequest intent volumes (Publication_DesiredState publication)
    (publication_key intent records) (Publication_OVN publication) (Publication_SubscriptionID publication) in
  let! renewed := renewPublicationLease publication in
  match renewed with
  | Err err => Ret (Err err)
  | Ok _ =>
      let! mutated :=
        if Publication_OVN publication =s= ""
        then CreateOperationalIntent publisher request else UpdateOperationalIntent publisher request in
      match mutated with
      | Err err => mutation_failed publication expectedRevision err
      | Ok receipt =>
          let confirmed := confirmed_publication publication receipt t in
          let! built := buildPeerNotifications request receipt false in
          match built with
          | Err err => recordPublicationFailure confirmed expectedRevision err false
          | Ok notifications =>
              durable (Durable.ConfirmOperationalIntentPublication confirmed expectedRevision notifications)
          end
      end
  end.

Definition reconcileClaimed (publication : OperationalIntentPublication) : program (outcome unit) :=
  let expectedRevision := Publication_Revision publication in
  let! t := now in
  if Publication_DesiredState publication =s= OperationalIntentExternalStateWithdrawn
  then reconcile_withdrawal publication expectedRevision
  else
    let! read := durable (Durable.GetOperationalIntentVersion (Publication_IntentID publication)
                            (Publication_DesiredIntentVersion publication)) in
    match read with
    | Err err => recordPublicationFailure publication expectedRevision err true
    | Ok intent =>
        let! listed := durable (Durable.ListOperationalVolumes (Intent_ID intent)) in
        match listed with
        | Err err => recordPublicationFailure publication expectedRevision err false
        | Ok volumes =>
            let volumes := volumesForVersion volumes (Intent_Version intent) in
            let! checked := check s intent volumes in
            match checked with
            | Err err => recordPublicationFailure publication expectedRevision err false
            | Ok (result, records) =>
                if DeconflictionResult_Posture result <>s DeconflictionPostureClear
                then recordPublicationFailure publication expectedRevision
                       (plain ("deconfliction posture is " +:+ DeconflictionResult_Posture result))
                       (negb (retryableDeconflictionResult result))
                else publish_claimed (UTC t) publication expectedRevision intent volumes records
            end
        end
    end.
End claimed.

(** ** The operations of the service *)
Context (s : DeconflictionService).

Definition publishing : option Publisher :=
  match service_publisher s with
  | Some publisher => if PublicationEnabled publisher then Some publisher else None
  | None => None
  end.

Definition PublishingEnabled : bool := match publishing with Some _ => true | None => false end.

Definition PublicationRequest (intent : OperationalIntent) (state : OperationalIntentExternalState)
    : program OperationalIntentPublication :=
  let! t := now in
  Ret (zero_OperationalIntentPublication
    <| Publication_IntentID := Intent_ID intent |>
    <| Publication_DesiredIntentVersion := Intent_Version intent |>
    <| Publication_DesiredState := state |>
    <| Publication_SyncStatus := PublicationSyncPending |>
    <| Publication_NextAttemptAt := UTC t |>
    <| Publication_UpdatedAt := UTC t |>).

(** Called only when publishing is enabled, so with a publisher. *)
Definition ValidatePublication (publisher : Publisher) (intent : OperationalIntent)
    (state : OperationalIntentExternalState) : program (outcome unit) :=
  try! volumes := durable (Durable.ListOperationalVolumes (Intent_ID intent)) orelse id in
  match volumesForVersion volumes (Intent_Version intent) with
  | [] => Ret (Err (plain "at least one operational volume is required"))
  | volumes =>
      Ret (match ValidateOperationalIntent publisher (mkPublicationRequest intent volumes state [] "" "") with
           | Some err => Err err
           | None => Ok tt
           end)
  end.

Definition GetPublication (intentID : string) : program (outcome OperationalIntentPublication) :=
  durable (Durable.GetOperationalIntentPublication intentID).

Definition RecordReceivedPeerNotification (notification : ReceivedPeerNotification) : program (outcome unit) :=
  durable (Durable.RecordReceivedPeerNotification notification).

Definition GetPublishedOperationalIntent (intentID : string) (dssVersion : Z)
    : program (outcome (OperationalIntentPublication * list OperationalVolume)) :=
  try! publication := GetPublication intentID orelse id in
  if (Publication_PublishedIntentVersion publication =? 0) || (Publication_OVN publication =s= "")
     || (Publication_SyncStatus publication =s= PublicationSyncWithdrawn)
     || (0 <? dssVersion) && (Publication_DSSVersion publication <>z dssVersion)
  then Ret (Err ErrNotFound)
  else
    try! volumes := durable (Durable.ListOperationalVolumes intentID) orelse id in
    Ret (Ok (publication, volumesForVersion volumes (Publication_PublishedIntentVersion publication))).

Definition ReconcileIntent (intentID : string) : program (outcome unit) :=
  match publishing with
  | None => Ret (Err (plain "DSS publication is not configured"))
  | Some publisher =>
      let! t := now in
      try! publication := durable (Durable.ClaimOperationalIntentPublication intentID (UTC t)
                                     (TimeAdd (UTC t) (service_publicationLease s))) orelse id in
      reconcileClaimed s publisher publication
  end.

Fixpoint deliver (publisher : Publisher) (batch : nat) (deliveryErrors : list error) : program (list error) :=
  match batch with
  | O => Ret deliveryErrors
  | S batch' =>
      let! t := now in
      let! claimed := durable (Durable.ClaimDuePeerNotifications (UTC t)
                                 (TimeAdd (UTC t) (service_publicationLease s)) 1) in
      match claimed with
      | Err err => Ret (deliveryErrors ++ [err])
      | Ok [] => Ret deliveryErrors
      | Ok (notification :: _) =>
          let! delivered := DeliverPeerNotification publisher (Notification_USSBaseURL notification)
                              (Notification_Payload notification) in
          let! t := now in
          let deliveryErrors :=
            match delivered with Some err => deliveryErrors ++ [err] | None => deliveryErrors end in
          let! updated := durable (Durable.UpdatePeerNotification
            (attempted_notification notification (UTC t) delivered) (Notification_Revision notification)) in
          match updated with
          | Err updateErr => deliver publisher batch' (deliveryErrors ++ [updateErr])
          | Ok _ => deliver publisher batch' deliveryErrors
          end
      end
  end.

Definition DeliverDuePeerNotifications : program (outcome unit) :=
  match publishing with
  | None => Ret (Ok tt)
  | Some publisher =>
      let! deliveryErrors := deliver publisher peerNotificationBatch [] in
      Ret (joined deliveryErrors)
  end.

Fixpoint reconcile_batch (publisher : Publisher) (batch : nat) (reconcileErrors : list error)
    : program (list error) :=
  match batch with
  | O => Ret reconcileErrors
  | S batch' =>
      let! t := now in
      let! claimed := durable (Durable.ClaimDueOperationalIntentPublications (UTC t)
                                 (TimeAdd (UTC t) (service_publicationLease s)) 1) in
      match claimed with
      | Err err => Ret (reconcileErrors ++ [err])
      | Ok [] => Ret reconcileErrors
      | Ok (publication :: _) =>
          let! reconciled := reconcileClaimed s publisher publication in
          match reconciled with
          | Err err =>
              reconcile_batch publisher batch'
                (reconcileErrors ++ [wrap ("reconcile intent " +:+ Publication_IntentID publication) err])
          | Ok _ => reconcile_batch publisher batch' reconcileErrors
          end
      end
  end.

Definition ReconcileDue : program (outcome unit) :=
  match publishing with
  | None => Ret (Ok tt)
  | Some publisher =>
      let! reconcileErrors := reconcile_batch publisher publicationBatch [] in
      let! delivered := DeliverDuePeerNotifications in
      Ret (joined (match delivered with Err err => reconcileErrors ++ [err] | Ok _ => reconcileErrors end))
  end.
End publishing.
