(* ===== verification/PublishingRuns.v ===== *)
(** * What a reconciliation leaves behind

    Theorems on the claim holder of src/internal/service/deconfliction/publication.go,
    for every implementation of the store, every publisher and every behaviour
    of the other clients. *)

From S2P Require Import Prelude GoRuntime GoStrings GoFloat GoJson GoSha256 GoNet GoRange Domain Errors Program DurableStore ProgramLogic Airspace Geometry Deconfliction DeconflictionRuns Publishing.
From stdpp Require Import options.

(** ** The back-off *)

Lemma backoff_doubles n : 0 ≤ n → backoff n = Second * 2 ^ Z.min n 8.
Proof. intros Hn. unfold backoff. rewrite Z.shiftl_mul_pow2 by lia. done. Qed.

Lemma backoff_monotone n m : 0 ≤ n ≤ m → backoff n ≤ backoff m.
Proof.
  intros Hn. rewrite !backoff_doubles by lia. apply Z.mul_le_mono_nonneg_l; [done|].
  apply Z.pow_le_mono_r; lia.
Qed.

Lemma backoff_bounds n : 0 ≤ n → Second ≤ backoff n ≤ 256 * Second.
Proof.
  intros Hn. split.
  - change Second with (backoff 0) at 1. apply backoff_monotone. lia.
  - transitivity (backoff (Z.max n 8)); [apply backoff_monotone; lia|].
    rewrite backoff_doubles by lia. replace (Z.min (Z.max n 8) 8) with 8 by lia. done.
Qed.

(** Back-off.  After a failure that may pass, a publication and a peer
    notification are due again after 2^n seconds, n being the number of
    attempts, at most 256 seconds; the delay never shrinks from one attempt to
    the next and never leaves the range of a duration.  After a permanent
    failure the publication is blocked and has no next attempt. *)
Theorem backoff_spec p (n : PeerNotification) now cause :
  0 ≤ Publication_AttemptCount p → 0 ≤ Notification_AttemptCount n →
  let failed := failed_publication p now cause false in
  let retried := attempted_notification n now (Some cause) in
  Publication_NextAttemptAt failed = now + Second * 2 ^ Z.min (Publication_AttemptCount p) 8
  ∧ Notification_NextAttemptAt retried = now + Second * 2 ^ Z.min (Notification_AttemptCount n) 8
  ∧ now + Second ≤ Publication_NextAttemptAt failed ≤ now + 256 * Second
  ∧ now + Second ≤ Notification_NextAttemptAt retried ≤ now + 256 * Second
  ∧ in_int64 (backoff (Publication_AttemptCount p))
  ∧ (∀ p', Publication_AttemptCount p ≤ Publication_AttemptCount p' →
       Publication_NextAttemptAt failed ≤ Publication_NextAttemptAt (failed_publication p' now cause false))
  ∧ Publication_SyncStatus failed = PublicationSyncRetrying
  ∧ Publication_SyncStatus (failed_publication p now cause true) = PublicationSyncBlocked
  ∧ IsZero (Publication_NextAttemptAt (failed_publication p now cause true)) = true.
Proof.
  intros Hp Hn. cbn zeta.
  assert (∀ p, Publication_NextAttemptAt (failed_publication p now cause false)
               = now + backoff (Publication_AttemptCount p)) as E1 by done.
  assert (Notification_NextAttemptAt (attempted_notification n now (Some cause))
          = now + backoff (Notification_AttemptCount n)) as E2 by done.
  pose proof (backoff_bounds _ Hp). pose proof (backoff_bounds _ Hn).
  split; [by rewrite E1, backoff_doubles|]. split; [by rewrite E2, backoff_doubles|].
  split; [rewrite E1; lia|]. split; [rewrite E2; lia|]. split; [unfold in_int64, Second in *; lia|].
  split; [|done]. intros p' Hle. rewrite !E1. apply Z.add_le_mono_l, backoff_monotone. lia.
Qed.

Lemma backoff_spec_witness :
  let p := zero_OperationalIntentPublication <| Publication_AttemptCount := 3 |> in
  0 ≤ Publication_AttemptCount p
  ∧ Publication_NextAttemptAt (failed_publication p 100 ErrNotFound false) = 8000000100.
Proof.
  cbv zeta. split; [done|].
  set (p := zero_OperationalIntentPublication <| Publication_AttemptCount := 3 |>).
  destruct (backoff_spec p zero_PeerNotification 100 ErrNotFound) as [H _]; [done|done|]. exact H.
Defined.

(** ** How a reconciliation ends *)

(** Calls that change publications or the notifications to peers. *)
Definition publishes {A} (e : Durable.storeE A) : bool :=
  match e with
  | Durable.AcceptOperationalIntentAndRequestPublication _ _ _ | Durable.UpdateOperationalIntentAndRequestPublication _ _ _
  | Durable.RequestOperationalIntentPublication _ | Durable.RequestOperationalIntentPublicationIfCurrent _ _ _ _
  | Durable.ClaimOperationalIntentPublication _ _ _ | Durable.ClaimDueOperationalIntentPublications _ _ _
  | Durable.RenewOperationalIntentPublicationLease _ _ _ | Durable.UpdateOperationalIntentPublication _ _
  | Durable.ConfirmOperationalIntentPublication _ _ _ | Durable.ClaimDuePeerNotifications _ _ _
  | Durable.UpdatePeerNotification _ _ => true
  | _ => false
  end.

Definition leaves_publications {externalE A} (p : prog (apiE externalE) A) : Prop :=
  store_calls_in (λ B (e : Durable.storeE B), publishes e = false) p.

(** Publishers and providers that leave the publications to the service. *)
Record publisher_apart {externalE} (publisher : Publisher (externalE := externalE)) : Prop := {
  create_apart request : leaves_publications (CreateOperationalIntent publisher request);
  update_apart request : leaves_publications (UpdateOperationalIntent publisher request);
  delete_apart id ovn : leaves_publications (DeleteOperationalIntent publisher id ovn);
  reference_apart id : leaves_publications (GetOperationalIntentReference publisher id);
  subscribers_apart volumes : leaves_publications (FindSubscribers publisher volumes);
}.

Definition provider_apart {externalE} (provider : Provider (externalE := externalE)) : Prop :=
  ∀ query, leaves_publications (FindOperationalIntents provider query).

(** The record of a failure: blocked for good, or to be tried again later. *)
Definition records_failure (q : OperationalIntentPublication) : Prop :=
  Publication_SyncStatus q = PublicationSyncBlocked ∧ IsZero (Publication_NextAttemptAt q) = true
  ∨ Publication_SyncStatus q = PublicationSyncRetrying
    ∧ Publication_NextAttemptAt q = TimeAdd (Publication_UpdatedAt q) (backoff (Publication_AttemptCount q)).

Lemma failed_publication_records p t cause permanent :
  records_failure (failed_publication p t cause permanent)
  ∧ Publication_IntentID (failed_publication p t cause permanent) = Publication_IntentID p
  ∧ Publication_LastError (failed_publication p t cause permanent) = Error cause.
Proof. destruct permanent; (split; [|done]); [left|right]; done. Qed.

Section outcome.
Context {RT : Runtime} {LIB : Library} {externalE : Type → Type}.
Abbreviation program := (prog (apiE externalE)).
Abbreviation history := (list (event (apiE externalE))).
Context (id : string) (revision : Z).

(** The writes of the claim holder of [id] under [revision]. *)
Definition claim_write {A} (e : Durable.storeE A) : Prop :=
  match e with
  | Durable.RenewOperationalIntentPublicationLease id' r _ => id' = id ∧ r = revision
  | Durable.UpdateOperationalIntentPublication q r =>
      Publication_IntentID q = id ∧ r = revision ∧ records_failure q
  | Durable.ConfirmOperationalIntentPublication q r _ =>
      Publication_IntentID q = id ∧ r = revision
      ∧ (Publication_SyncStatus q = PublicationSyncConfirmed ∨ Publication_SyncStatus q = PublicationSyncWithdrawn)
  | _ => False
  end.

(** The events after which nothing may follow: a confirmation or the record of a
    failure, whatever the store answers, and a refused renewal. *)
Definition closes (v : event (apiE externalE)) : Prop :=
  let '@Event _ X e x := v in
  match e in apiE _ Y return Y → Prop with
  | OfStore e =>
      match e in Durable.storeE Z return outcome Z → Prop with
      | Durable.RenewOperationalIntentPublicationLease _ _ _ => λ r, is_ok r = false
      | Durable.UpdateOperationalIntentPublication _ _ | Durable.ConfirmOperationalIntentPublication _ _ _ => λ _, True
      | _ => λ _, False
      end
  | _ => λ _, False
  end x.

Definition still_open (h : history) : Prop := Forall (λ v, ¬ closes v) h.

Definition allowed (h : history) (X : Type) (e : apiE externalE X) : Prop :=
  still_open h ∧ match e with OfStore e => publishes e = true → claim_write e | _ => True end.

(** The last event and the result. *)
Inductive settled : history → outcome unit → Prop :=
  | settled_confirmed q notifications reply h :
      claim_write (Durable.ConfirmOperationalIntentPublication q revision notifications) →
      settled (Event (OfStore (Durable.ConfirmOperationalIntentPublication q revision notifications)) reply :: h) reply
  | settled_failed q cause h :
      claim_write (Durable.UpdateOperationalIntentPublication q revision) → Publication_LastError q = Error cause →
      settled (Event (OfStore (Durable.UpdateOperationalIntentPublication q revision)) (Ok tt) :: h) (Err cause)
  | settled_unrecorded q cause err h :
      claim_write (Durable.UpdateOperationalIntentPublication q revision) → Publication_LastError q = Error cause →
      settled (Event (OfStore (Durable.UpdateOperationalIntentPublication q revision)) (Err err) :: h)
        (Err (errors_Join cause err))
  | settled_fenced until err h :
      settled (Event (OfStore (Durable.RenewOperationalIntentPublicationLease id revision until)) (Err err) :: h) (Err err).

(** ** Walks *)

Abbreviation settles p := (∀ h, still_open h → wp allowed h p settled).

(** Calls that write no publication keep the history open. *)
Lemma quiet_walk {A} h (p : program A) (Q : history → A → Prop) :
  leaves_publications p → still_open h → (∀ h' a, still_open h' → Q h' a) → wp allowed h p Q.
Proof using Type.
  intros Hp Hh HQ. revert h Hh. induction p as [a|X e k IH]; intros h Hh; [by apply HQ|].
  destruct Hp as [He Hk]. split.
  - split; [done|]. destruct e as [| |B e|B e]; try done. intros Hpub. cbn in He. congruence.
  - intros x. apply IH; [apply Hk|]. constructor; [|done]. destruct e as [| |B e|B e]; try by intros [].
    by destruct e; try done; intros [].
Qed.

Lemma quiet_settles {A} (p : program A) (k : A → program (outcome unit)) :
  leaves_publications p → (∀ a, settles (k a)) → settles (prog_bind p k).
Proof using Type. intros Hp Hk h Hh. apply wp_bind, quiet_walk; [done..|]. intros h' a Hh'. by apply Hk. Qed.

Lemma failure_settles p cause permanent :
  Publication_IntentID p = id → settles (recordPublicationFailure p revision cause permanent).
Proof using Type.
  intros Hid. apply quiet_settles; [done|]. intros t h Hh.
  destruct (failed_publication_records p (UTC t) cause permanent) as (Hrec & Hid' & Herr).
  apply wp_durable.
  - split; [done|]. intros _. split; [congruence|done].
  - intros [[]|err]; [apply settled_failed|apply settled_unrecorded]; try done; (split; [congruence|done]).
Qed.

(** A confirmation is the last call. *)
Lemma confirmation_settles q notifications :
  Publication_IntentID q = id →
  Publication_SyncStatus q = PublicationSyncConfirmed ∨ Publication_SyncStatus q = PublicationSyncWithdrawn →
  settles (durable (Durable.ConfirmOperationalIntentPublication q revision notifications)).
Proof using Type.
  intros Hid Hst h Hh. split; [by split|]. intros reply. by apply settled_confirmed.
Qed.

Context (s : DeconflictionService externalE) (publisher : Publisher (externalE := externalE)).
Context (Hproviders : Forall provider_apart (service_providers s)) (Hpublisher : publisher_apart publisher).

(** A renewal that the store refuses ends the run; otherwise the rest follows. *)
Lemma renewal_settles p (k : program (outcome unit)) :
  Publication_IntentID p = id → Publication_Revision p = revision → settles k →
  settles (prog_bind (renewPublicationLease s p) (λ renewed, match renewed with Err err => Ret (Err err) | Ok _ => k end)).
Proof using Type.
  intros Hid Hrev Hk h Hh. apply wp_bind. apply wp_now; [by split|]. intros t. rewrite Hid, Hrev.
  assert (still_open (Event (Now : apiE externalE _) t :: h)) as Hh1 by by constructor; [intros []|].
  split; [by split|]. intros [[]|err]; [|by apply settled_fenced]. apply Hk. constructor; [by cbn|done].
Qed.

Lemma confirmWithdrawal_settles p receipt :
  Publication_IntentID p = id → settles (confirmWithdrawal publisher p revision receipt).
Proof using Type.
  intros Hid. unfold confirmWithdrawal. apply quiet_settles; [done|]. intros t.
  apply quiet_settles; [done|]. intros [notifications|err].
  - apply confirmation_settles; [rewrite <- Hid|right]; unfold withdrawn_publication; by destruct (_ =s= _).
  - apply failure_settles. rewrite <- Hid. by destruct (_ =s= _).
Qed.

Lemma recover_quiet p : leaves_publications (recoverWithdrawalReceipt publisher p).
Proof using Hpublisher.
  unfold recoverWithdrawalReceipt. apply store_calls_in_bind; [done|]. intros [volumes|err]; [|done].
  apply store_calls_in_bind; [by apply subscribers_apart|]. by intros [|].
Qed.

Lemma delete_settles p :
  Publication_IntentID p = id → Publication_Revision p = revision → settles (delete_claimed s publisher p revision).
Proof using Hpublisher.
  intros Hid Hrev. apply renewal_settles; [done..|].
  apply quiet_settles; [by apply delete_apart|]. intros [receipt|err]; [by apply confirmWithdrawal_settles|].
  destruct (has_status err StatusNotFound).
  { apply quiet_settles; [apply recover_quiet|].
    intros [receipt|err']; [by apply confirmWithdrawal_settles|by apply failure_settles]. }
  destruct (has_status err StatusConflict); [|by apply failure_settles].
  apply quiet_settles; [by apply reference_apart|]. intros [current|err']; [|by apply failure_settles].
  by destruct (_ =s= _); apply failure_settles.
Qed.

Lemma withdrawal_settles p :
  Publication_IntentID p = id → Publication_Revision p = revision → settles (reconcile_withdrawal s publisher p revision).
Proof using Hpublisher.
  intros Hid Hrev. unfold reconcile_withdrawal. destruct (_ =s= _); [|by apply delete_settles].
  apply quiet_settles; [by apply reference_apart|]. intros [current|err].
  - destruct (_ =s= _); [by apply failure_settles|]. by apply delete_settles.
  - destruct (has_status _ _); [by apply confirmWithdrawal_settles|by apply failure_settles].
Qed.

Lemma mutation_failed_settles p err :
  Publication_IntentID p = id → settles (mutation_failed publisher p revision err).
Proof using Hpublisher.
  intros Hid. unfold mutation_failed. apply quiet_settles; [by apply reference_apart|].
  intros [current|err']; [|by apply failure_settles].
  destruct (_ && _); [by apply failure_settles|]. destruct (_ =s= _); by apply failure_settles.
Qed.

Lemma publish_settles t p intent volumes records :
  Publication_IntentID p = id → Publication_Revision p = revision →
  settles (publish_claimed s publisher t p revision intent volumes records).
Proof using Hpublisher.
  intros Hid Hrev. apply renewal_settles; [done..|].
  apply quiet_settles; [destruct (_ =s= _); by apply create_apart || by apply update_apart|].
  intros [receipt|err]; [|by apply mutation_failed_settles].
  apply quiet_settles; [done|]. intros [notifications|err]; [|by apply failure_settles].
  by apply confirmation_settles; [|left].
Qed.

Lemma check_quiet intent volumes : leaves_publications (check s intent volumes).
Proof using Hproviders. apply check_calls_in; [by intros A []|done]. Qed.
End outcome.

(** C13: Every reconciliation settles.  Whatever the store, the publisher, the
    providers and the other clients answer, the claim holder of a publication
    changes publications only under the identifier and the revision of its
    claim, by renewing its lease, recording a failure (the publication blocked,
    or due again after the back-off) or confirming it (or its withdrawal); the
    first confirmation or record of a failure, and a refused renewal, are its
    last call; and every run ends with one of these, which is its result: a
    confirmation with what the store answered to it; a recorded failure with
    the error that is recorded; a record that the store refused with both
    errors; a refused renewal with its error.  The publisher and the providers
    are assumed to leave the publications alone. *)
Theorem reconcile_settles `{RT : Runtime} `{LIB : Library} {externalE : Type → Type} (s : DeconflictionService externalE)
    (publisher : Publisher (externalE := externalE)) p :
  Forall provider_apart (service_providers s) → publisher_apart publisher →
  wp (allowed (Publication_IntentID p) (Publication_Revision p)) [] (reconcileClaimed s publisher p)
    (settled (Publication_IntentID p) (Publication_Revision p)).
Proof.
  intros Hproviders Hpublisher. assert (still_open (externalE := externalE) []) as Hopen by constructor.
  revert Hopen. generalize (@nil (event (apiE externalE))). unfold reconcileClaimed.
  apply quiet_settles; [done|]. intros t. destruct (_ =s= _); [by apply withdrawal_settles|].
  apply quiet_settles; [done|]. intros [intent|err]; [|by apply failure_settles].
  apply quiet_settles; [done|]. intros [volumes|err]; [|by apply failure_settles].
  apply quiet_settles; [by apply check_quiet|]. intros [[result records]|err]; [|by apply failure_settles].
  destruct (_ =s= _); [by apply publish_settles|by apply failure_settles].
Qed.

(** ** What a success went through *)

Section settles.
Context {RT : Runtime} {LIB : Library} {S O : Type} {externalE : Type → Type}.
Context {HS : DurableStore S} {HO : Outside externalE O}.
Context (client : S → S → Prop).
Abbreviation program := (prog (apiE externalE)).
Abbreviation world := (world S O).
Abbreviation concurrently := (crun (handle_api (S := S) (O := O)) (other_client client)).
Context (s : DeconflictionService externalE) (publisher : Publisher (externalE := externalE)).

(** A run that ended in success went through each step that can fail. *)
Lemma success_bind {A} (p : program (outcome A)) (k : A → program (outcome unit)) (f : error → program (outcome unit))
    (w : world) w' :
  (∀ err w1, ¬ concurrently (f err) w1 (Ok tt) w') →
  concurrently (prog_bind p (λ r, match r with Ok a => k a | Err err => f err end)) w (Ok tt) w' →
  ∃ a w1, concurrently p w (Ok a) w1 ∧ concurrently (k a) w1 (Ok tt) w'.
Proof using Type.
  intros Hf ([a|err] & w1 & Hp & Hrun)%crun_bind; [by exists a, w1|]. by apply Hf in Hrun.
Qed.

Lemma failure_never_succeeds p revision cause permanent (w : world) w' :
  ¬ concurrently (recordPublicationFailure p revision cause permanent) w (Ok tt) w'.
Proof using Type.
  intros (w1 & t & _ & Hrun)%crun_now. apply crun_store in Hrun as (w2 & _ & Hrun).
  destruct (handle_store _ _).1; by destruct Hrun as [? _].
Qed.

Lemma error_never_succeeds err (w : world) w' : ¬ concurrently (Ret (Err err) : program (outcome unit)) w (Ok tt) w'.
Proof using Type. by intros [? _]. Qed.

Lemma mutation_failed_never_succeeds p revision err (w : world) w' :
  ¬ concurrently (mutation_failed publisher p revision err) w (Ok tt) w'.
Proof using Type.
  intros ([current|err'] & w1 & _ & Hrun)%crun_bind; revert Hrun; [|apply failure_never_succeeds].
  destruct (_ && _); [apply failure_never_succeeds|]. destruct (_ <>s _); apply failure_never_succeeds.
Qed.

End settles.
