(* ===== verification/Coordinator.v ===== *)
(** * The deconfliction service behind the intent service

    The intent service knows the deconfliction service only as a
    DeconflictionCoordinator (src/internal/service/intent_service.go); here the
    one is shown to implement what the theorems about the other assume. *)

From S2P Require Import Prelude GoRuntime GoFloat GoJson GoRange Domain Errors Program MemoryState MemoryFleet DurableStore MemoryStore MemoryInvariant MemoryReachable Scenario IntentWrites ProgramLogic IntentService IntentServiceCalls Preflight PreflightVerdict Airspace Geometry Deconfliction DeconflictionRuns Publishing PublishingRuns.
From stdpp Require Import options.

Section coordinator.
Context {RT : Runtime} {LIB : Library} {externalE : Type → Type}.
Abbreviation program := (prog (apiE externalE)).
Abbreviation Provider := (Provider (externalE := externalE)).
Abbreviation Publisher := (Publisher (externalE := externalE)).

(** The service as a coordinator.  (Without a publisher the two methods that
    need one are not called; in Go they would dereference a nil interface.) *)
Definition coordinator (s : DeconflictionService externalE) : DeconflictionCoordinator :=
  mkCoordinator
    (Deconfliction.CheckIntent s)
    (Ret (Publishing.PublishingEnabled s))
    (λ intent state,
       match service_publisher s with
       | Some publisher => Publishing.ValidatePublication publisher intent state
       | None => Ret (Err (plain "invalid memory address or nil pointer dereference"))
       end)
    Publishing.PublicationRequest
    Publishing.GetPublication
    (Publishing.ReconcileIntent s).

(** What is asked of providers and publishers: they may read the store, but
    the intents are not theirs to change. *)
Class ProviderLaw (provider : Provider) :=
  FindOperationalIntents_law query : leaves_intents (FindOperationalIntents provider query).

Class PublisherLaw (publisher : Publisher) := {
  Create_law request : leaves_intents (CreateOperationalIntent publisher request);
  Update_law request : leaves_intents (UpdateOperationalIntent publisher request);
  Delete_law id ovn : leaves_intents (DeleteOperationalIntent publisher id ovn);
  Reference_law id : leaves_intents (GetOperationalIntentReference publisher id);
  FindSubscribers_law volumes : leaves_intents (FindSubscribers publisher volumes);
  Deliver_law url payload : leaves_intents (DeliverPeerNotification publisher url payload);
}.

Class ServiceLaw (s : DeconflictionService externalE) := {
  providers_law : Forall ProviderLaw (service_providers s);
  publisher_law : match service_publisher s with Some publisher => PublisherLaw publisher | None => True end;
}.

Lemma leaves_bind {A B} (p : program A) (k : A → program B) :
  leaves_intents p → (∀ a, leaves_intents (k a)) → leaves_intents (prog_bind p k).
Proof using Type. apply store_calls_in_bind. Qed.

Lemma leaves_ret {A} (a : A) : leaves_intents (Ret a : program A).
Proof using Type. exact I. Qed.

Lemma leaves_durable {A} (e : Durable.storeE A) : touches_intents e = false → leaves_intents (durable e : program _).
Proof using Type. done. Qed.

Lemma leaves_now : leaves_intents (now : program Time).
Proof using Type. done. Qed.

(** Walks through a program: binds, branches, calls. *)
Ltac walk :=
  repeat lazymatch goal with
  | |- leaves_intents (prog_bind _ _) => apply leaves_bind; [|intros ?]
  | |- leaves_intents (Ret _) => apply leaves_ret
  | |- leaves_intents now => apply leaves_now
  | |- leaves_intents (durable _) => apply leaves_durable; reflexivity
  | |- leaves_intents (match ?x with _ => _ end) => destruct x
  end.

#[export] Instance local_provider_law : ProviderLaw local_provider.
Proof using Type. intros query. apply local_provider_calls. by intros A []. Qed.

Context (s : DeconflictionService externalE) {Hs : ServiceLaw s}.

Lemma check_leaves intent volumes : leaves_intents (check s intent volumes).
Proof using Hs. apply check_calls_in; [by intros A []|apply providers_law]. Qed.

Lemma CheckIntent_leaves id : leaves_intents (Deconfliction.CheckIntent s id).
Proof using Hs. apply CheckIntent_calls_in; [by intros A []|apply providers_law]. Qed.

Section publisher.
Context (publisher : Publisher) {Hp : PublisherLaw publisher}.

Lemma failure_leaves p r cause permanent : leaves_intents (recordPublicationFailure p r cause permanent : program _).
Proof using Type. unfold recordPublicationFailure. walk. Qed.

Lemma build_leaves request receipt deleted : leaves_intents (buildPeerNotifications publisher request receipt deleted).
Proof using Type. unfold buildPeerNotifications. walk. Qed.

Lemma withdrawal_leaves p r receipt : leaves_intents (confirmWithdrawal publisher p r receipt).
Proof using Type. unfold confirmWithdrawal. walk; [apply build_leaves|apply failure_leaves]. Qed.

Lemma recover_leaves p : leaves_intents (recoverWithdrawalReceipt publisher p).
Proof using Hp. unfold recoverWithdrawalReceipt. walk. apply FindSubscribers_law. Qed.

Lemma reconcile_withdrawal_leaves p r : leaves_intents (reconcile_withdrawal s publisher p r).
Proof using Hp.
  assert (∀ p, leaves_intents (delete_claimed s publisher p r)) as Hdelete.
  { intros q. unfold delete_claimed, renewPublicationLease.
    walk; first [apply Delete_law|apply recover_leaves|apply Reference_law|apply withdrawal_leaves|apply failure_leaves]. }
  unfold reconcile_withdrawal.
  walk; first [apply Reference_law|apply Hdelete|apply withdrawal_leaves|apply failure_leaves].
Qed.

Lemma mutation_failed_leaves p r err : leaves_intents (mutation_failed publisher p r err).
Proof using Hp. unfold mutation_failed. walk; first [apply Reference_law|apply failure_leaves]. Qed.

Lemma reconcileClaimed_leaves p : leaves_intents (reconcileClaimed s publisher p).
Proof using Hs Hp.
  unfold reconcileClaimed, publish_claimed, renewPublicationLease. apply leaves_bind; [done|]. intros t.
  destruct (_ =s= _); [apply reconcile_withdrawal_leaves|].
  walk; first [apply check_leaves|apply Create_law|apply Update_law|apply build_leaves|apply mutation_failed_leaves|apply failure_leaves].
Qed.

Lemma deliver_leaves batch errs : leaves_intents (deliver s publisher batch errs).
Proof using Hp.
  revert errs. induction batch as [|batch IH]; intros errs; cbn [deliver]; [done|].
  walk; first [apply Deliver_law|apply IH].
Qed.

Lemma reconcile_batch_leaves batch errs : leaves_intents (reconcile_batch s publisher batch errs).
Proof using Hs Hp.
  revert errs. induction batch as [|batch IH]; intros errs; cbn [reconcile_batch]; [done|].
  walk; first [apply reconcileClaimed_leaves|apply IH].
Qed.
End publisher.

Lemma publishing_law publisher : publishing s = Some publisher → PublisherLaw publisher.
Proof using Hs.
  unfold publishing. pose proof (publisher_law (s := s)) as Hlaw. destruct (service_publisher s) as [p|]; [|done].
  destruct (PublicationEnabled p); [|done]. by intros [= <-].
Qed.

Lemma ReconcileIntent_leaves id : leaves_intents (Publishing.ReconcileIntent s id).
Proof using Hs.
  unfold Publishing.ReconcileIntent. destruct (publishing s) as [publisher|] eqn:Hpub; [|done].
  apply publishing_law in Hpub. walk. by apply reconcileClaimed_leaves.
Qed.

Lemma coordinator_implements : CoordinatorLaw (coordinator s).
Proof using Hs.
  split; intros; cbn [coordinator IntentService.CheckIntent IntentService.PublishingEnabled IntentService.ValidatePublication
    IntentService.PublicationRequest IntentService.GetPublication IntentService.ReconcileIntent].
  - apply CheckIntent_leaves.
  - done.
  - destruct (service_publisher s); [|done]. unfold Publishing.ValidatePublication. walk.
  - unfold Publishing.PublicationRequest. walk.
  - done.
  - apply ReconcileIntent_leaves.
Qed.

(** It also keeps the evidence of preflight evaluations, if the providers do. *)
Lemma coordinator_keeps_evidence :
  Forall (λ p : Provider, ∀ query, keeps_evidence (FindOperationalIntents p query)) (service_providers s) →
  evidence_law (Some (coordinator s)).
Proof using Type. intros Hproviders id. apply CheckIntent_calls_in; [by intros A []|done]. Qed.

(** C14: The deconfliction service refines its interface.  Its implementation
    behind the interface DeconflictionCoordinator of the intent service, and its
    publication worker, make no call that writes an intent, whatever the
    providers and the publisher answer, as long as these leave the intents
    alone.  So a whole request to the intent service, the calls it makes
    through the interface included, writes intents only in the ways that keep
    one active intent per aircraft and one accepted version per intent. *)
Theorem deconfliction_refines_coordinator uuid_Parse A (p : program A) :
  service_request uuid_Parse (Some (coordinator s)) A p →
  lifecycle_calls p ∧ leaves_intents (ReconcileDue s) ∧ CoordinatorLaw (coordinator s).
Proof using Hs.
  intros Hp. pose proof coordinator_implements as Hlaw. split; [|split; [|done]].
  - by eapply (service_request_calls uuid_Parse (Some (coordinator s))).
  - unfold ReconcileDue, DeliverDuePeerNotifications. destruct (publishing s) as [publisher|] eqn:Hpub; [|done].
    apply publishing_law in Hpub. walk; [by apply reconcile_batch_leaves|by apply deliver_leaves].
Qed.
End coordinator.

(** * A publication, run

    A publisher that accepts everything, and the reconciliation of a claimed
    publication of the intent of Scenario.v through it: the states on which the
    theorems about publishing are exercised. *)

#[local] Existing Instance reference_runtime.
#[local] Existing Instance reference_library.

Definition demo_receipt : PublicationReceipt :=
  mkPublicationReceipt "manager" 1 "ovn" "subscription" "https://uss" OperationalIntentExternalStateAccepted []
    [mkSubscriber "https://peer" []].

Definition demo_publisher : Publisher (externalE := no_external) :=
  mkPublisher true (λ _, None) (λ _, Ret (Ok demo_receipt)) (λ _, Ret (Ok demo_receipt))
    (λ _ _, Ret (Ok demo_receipt)) (λ _, Ret (Ok demo_receipt)) (λ _, Ret (Ok []))
    (λ _ _ _ _, Ok []) (λ _ _, Ret None).

Definition demo_publishing : DeconflictionService no_external :=
  mkDeconflictionService [local_provider] (Some demo_publisher) publicationLease.

#[local] Instance demo_publishing_law : ServiceLaw demo_publishing.
Proof. split; [constructor; [apply local_provider_law|constructor]|split; done]. Defined.

(** The traffic of two intents, with the publication of the first one claimed. *)
Definition demo_claimed_store : Store :=
  after [StoreCall (Durable.RequestOperationalIntentPublication demo_publication);
         StoreCall (Durable.ClaimOperationalIntentPublication "i1" 6 16)] demo_traffic.

Definition demo_claim : OperationalIntentPublication :=
  demo_publication <| Publication_Revision := 1 |> <| Publication_SyncStatus := PublicationSyncProcessing |>
    <| Publication_AttemptCount := 1 |> <| Publication_LeaseUntil := Some 16 |>
    <| Publication_LastAttemptAt := Some 6 |> <| Publication_UpdatedAt := 6 |>.

Definition demo_reconciled : outcome unit * world Store unit :=
  run handle_api (reconcileClaimed demo_publishing demo_publisher demo_claim) (demo_world demo_claimed_store).

(** ** Witnesses *)

Lemma demo_run_reconciled :
  crun (handle_api (externalE := no_external) (S := Store) (O := unit)) (other_client nobody)
    (reconcileClaimed demo_publishing demo_publisher demo_claim)
    (demo_world demo_claimed_store) (Ok tt) demo_reconciled.2.
Proof. apply run_alone. vm_compute. reflexivity. Qed.

(** The events of a sequential run, the last one first. *)
Fixpoint history_of {A} (h : list (event (apiE no_external))) (p : prog (apiE no_external) A) (w : world Store unit)
    : list (event (apiE no_external)) :=
  match p with
  | Ret _ => h
  | Call e k => let '(x, w') := handle_api _ e w in history_of (Event e x :: h) (k x) w'
  end.

Lemma wp_history allowed A (p : prog (apiE no_external) A) (Q : list (event (apiE no_external)) → A → Prop) h w :
  wp allowed h p Q → Q (history_of h p w) (run handle_api p w).1.
Proof.
  revert h w. induction p as [a|X e k IH]; intros h w; cbn; [done|]. intros [_ Hk].
  destruct (handle_api X e w) as [x w']. by apply IH.
Qed.

(** The publication is confirmed under the revision of its claim. *)
Lemma reconcile_settles_witness :
  settled "i1" 1 (history_of [] (reconcileClaimed demo_publishing demo_publisher demo_claim) (demo_world demo_claimed_store))
    (Ok tt)
  ∧ Publication_SyncStatus <$> publications (store demo_reconciled.2) !! "i1" = Some PublicationSyncConfirmed.
Proof.
  split; [|vm_compute; reflexivity].
  assert (demo_reconciled.1 = Ok tt) as Hok by (vm_compute; reflexivity).
  pose proof (wp_history (allowed "i1" 1) _ (reconcileClaimed demo_publishing demo_publisher demo_claim)
    (settled "i1" 1) [] (demo_world demo_claimed_store)) as H.
  fold demo_reconciled in H. rewrite Hok in H. apply H. clear H.
  apply (reconcile_settles demo_publishing demo_publisher demo_claim).
  - constructor; [|constructor]. intros query. apply local_provider_calls. intros A []; done.
  - split; done.
Defined.


Lemma deconfliction_refines_coordinator_witness :
  lifecycle_calls (CancelIntent (λ _, None) (Some (coordinator demo_publishing)) "i1")
  ∧ leaves_intents (ReconcileDue demo_publishing).
Proof.
  destruct (deconfliction_refines_coordinator demo_publishing (λ _, None) _
    (CancelIntent (λ _, None) (Some (coordinator demo_publishing)) "i1")) as (H1 & H2 & _);
    [apply request_cancel|]. split; [exact H1|exact H2].
Defined.
