(* ===== verification/InterUSS.v ===== *)
(** * The InterUSS airspace provider

    src/internal/airspaceprovider/interuss/provider.go: the areas asked of the
    coordination service, the intents of peers that are found in them, and the
    peers that may be asked. *)

From S2P Require Import Prelude GoRuntime GoStrings GoFloat GoJson GoNet GoRange Domain Errors Program MemorySpatial DurableStore Airspace ScdMessages Geometry.
From stdpp Require Import options.

Definition providerID : string := "interuss_scd".

(** ** Peers *)

Definition globalIPv6PeerPrefix : option Prefix := ParsePrefix "2000::/3".

Definition specialUsePeerPrefixes : list Prefix := omap ParsePrefix
  ["0.0.0.0/8"; "10.0.0.0/8"; "100.64.0.0/10"; "127.0.0.0/8"; "169.254.0.0/16"; "172.16.0.0/12"; "192.0.0.0/24";
   "192.0.2.0/24"; "192.31.196.0/24"; "192.52.193.0/24"; "192.88.99.0/24"; "192.168.0.0/16"; "192.175.48.0/24";
   "198.18.0.0/15"; "198.51.100.0/24"; "203.0.113.0/24"; "240.0.0.0/4"; "64:ff9b::/96"; "64:ff9b:1::/48"; "100::/64";
   "100:0:0:1::/64"; "2001::/23"; "2001:db8::/32"; "2002::/16"; "2620:4f:8000::/48"; "3fff::/20"; "5f00::/16";
   "fc00::/7"; "fe80::/10"].

Definition global_unicast6 (address : Addr) : bool :=
  match globalIPv6PeerPrefix with Some prefix => Contains prefix address | None => false end.

Definition publicPeerAddr (address : Addr) : bool :=
  let address := Unmap address in
  if negb (IsGlobalUnicast address) || Is6 address && negb (global_unicast6 address) then false
  else negb (existsb (λ prefix, Contains prefix address) specialUsePeerPrefixes).

(** The suffix, and what is before it. *)
Definition HasSuffix (s suffix : string) : bool :=
  let s := rev (String.list_ascii_of_string s) in
  let suffix := rev (String.list_ascii_of_string suffix) in
  bool_decide (take (length suffix) s = suffix).

Definition TrimSuffix (s suffix : string) : string :=
  if HasSuffix s suffix then String.substring 0 (String.length s - String.length suffix) s else s.

(** ** Connections to peers *)

(** What dialing asks of the network: the addresses of a host, and a connection
    to one of them. *)
Inductive peerNetE : Type → Type :=
  | LookupIPAddr (host : string) : peerNetE (outcome (list (list Z)))
  | DialAddress (net : string) (ip : list Z) (port : string) : peerNetE (outcome Z).

Definition publicPeerIP (ip : list Z) : bool :=
  match AddrFromSlice ip with Some address => publicPeerAddr (Unmap address) | None => false end.

Section urls.
Context {UL : UrlLibrary}.

(** [transport.DialContext] when insecure peers are not allowed. *)
Definition peer_DialContext (net address : string) : prog peerNetE (outcome Z) :=
  match split_host_port (String.list_ascii_of_string address) with
  | None => Ret (Err (wrap "read peer address" (plain (split_error_text address))))
  | Some (host, port) =>
      let host := String.string_of_list_ascii host in
      try! addresses := call (LookupIPAddr host) orelse wrap ("resolve peer host " +:+ quote host) in
      match List.find publicPeerIP addresses with
      | Some ip => call (DialAddress net ip (String.string_of_list_ascii port))
      | None => Ret (Err (plain ("peer host " +:+ quote host +:+ " does not resolve to a public address")))
      end
  end.

Definition validatePeerURL (raw : string) (allowInsecure : bool) : option error :=
  match url_Parse raw with
  | Err err => Some (wrap "parse peer USS URL" err)
  | Ok parsed =>
      if url_User parsed || (url_Hostname parsed =s= "") || (url_RawQuery parsed <>s "") || (url_Fragment parsed <>s "")
      then Some (plain "peer USS URL must contain only a scheme, host, port, and optional path")
      else if (url_Scheme parsed <>s "http") && (url_Scheme parsed <>s "https")
      then Some (plain ("peer USS URL scheme " +:+ quote (url_Scheme parsed) +:+ " is not supported"))
      else if allowInsecure then None
      else if url_Scheme parsed <>s "https" then Some (plain "peer USS URL must use HTTPS")
      else
        let host := ToLower (TrimSuffix (url_Hostname parsed) ".") in
        if (host =s= "localhost") || HasSuffix host ".localhost"
        then Some (plain "peer USS URL cannot target localhost")
        else
          match ParseAddr host with
          | Some address =>
              if negb (publicPeerAddr address)
              then Some (plain "peer USS URL cannot target a private or local address") else None
          | None => None
          end
  end.

(** [CheckRedirect], [via] requests after the first. *)
Definition peer_CheckRedirect (allowInsecure : bool) (url : string) (via : nat) : option error :=
  if (10 <=? via)%nat then Some (plain "too many peer redirects") else validatePeerURL url allowInsecure.
End urls.

(** ** Areas *)

(** [bounds.expand(meters)] *)
Definition expand `{Library} (bounds : geoBounds) (meters : float64) : geoBounds :=
  if f_le meters float_zero then bounds
  else
    let metersPerDegree := float_of_Z 110000 in
    let latitudeDelta := f_div meters metersPerDegree in
    let maxAbsLatitude := f_max (f_abs (minLat bounds)) (f_abs (maxLat bounds)) in
    let cosLatitude :=
      math_Cos (f_div (f_mul (f_add maxAbsLatitude latitudeDelta) float_pi) (float_of_Z 180)) in
    let cosLatitude :=
      if f_lt cosLatitude (float_of_decimal 1 (-2)) then float_of_decimal 1 (-2) else cosLatitude in
    let longitudeDelta := f_div meters (f_mul metersPerDegree cosLatitude) in
    mkBounds
      (f_max (float_of_Z (-90)) (f_sub (minLat bounds) latitudeDelta))
      (f_min (float_of_Z 90) (f_add (maxLat bounds) latitudeDelta))
      (f_sub (minLon bounds) longitudeDelta)
      (f_add (maxLon bounds) longitudeDelta).

Definition crossesAntimeridian (bounds : geoBounds) : bool :=
  f_lt (minLon bounds) (float_of_Z (-180)) || f_lt (float_of_Z 180) (maxLon bounds)
  || f_lt (float_of_Z 180) (f_sub (maxLon bounds) (minLon bounds)).

(** A position on the globe. *)
Definition valid_position (lon lat : float64) : bool :=
  negb (negb (is_finite lon) || negb (is_finite lat) || f_lt lon (float_of_Z (-180)) || f_lt (float_of_Z 180) lon
        || f_lt lat (float_of_Z (-90)) || f_lt (float_of_Z 90) lat).

(** The loop over the positions of the ring. *)
Fixpoint ring_bounds (ring : list (list float64)) (bounds : geoBounds) : outcome geoBounds :=
  match ring with
  | [] => Ok bounds
  | position :: ring =>
      match position with
      | lon :: lat :: _ =>
          if valid_position lon lat then ring_bounds ring (extend bounds lon lat)
          else Err (plain "GeoJSON polygon contains an invalid coordinate")
      | _ => Err (plain "GeoJSON polygon contains an invalid coordinate")
      end
  end.

(** The ring is closed when its first and last positions are the same. *)
Definition closed_ring (ring : list (list float64)) : bool :=
  match head ring, last ring with
  | Some (firstLon :: firstLat :: _), Some (lastLon :: lastLat :: _) => f_eq firstLon lastLon && f_eq firstLat lastLat
  | _, _ => false
  end.

Definition polygon_bounds (type : string) (coordinates : list (list (list float64))) : outcome geoBounds :=
  match coordinates with
  | ring :: _ =>
      if (type <>s "Polygon") || (length ring <? 4)%nat
      then Err (plain "GeoJSON must contain a polygon with a closed exterior ring")
      else if negb (closed_ring ring) then Err (plain "GeoJSON polygon exterior ring is not closed")
      else ring_bounds ring empty_bounds
  | [] => Err (plain "GeoJSON must contain a polygon with a closed exterior ring")
  end.

(** A field of type [[][][]float64]: every member has to decode, the last one
    counts. *)
Definition coordinates_field (m : list (string * json)) : option (list (list (list float64))) :=
  default [] ∘ last <$> mapM (decode_slice (decode_slice (decode_slice decode_float))) (members_of m "coordinates").

(** How deep values are nested in a value. *)
Fixpoint json_depth (v : json) : nat :=
  match v with
  | Jarray l => S (fold_right (λ v n, Nat.max (json_depth v) n) 0%nat l)
  | Jobject m => S (fold_right (λ e n, Nat.max (json_depth e.2) n) 0%nat m)
  | _ => 0%nat
  end.

Section areas.
Context {LIB : Library} {U : Unions} {SL : ScdLibrary}.

(** The geometry of a feature is decoded in turn; [fuel] bounds the nesting. *)
Fixpoint geometry_bounds (fuel : nat) (v : option json) (text : string) : outcome geoBounds :=
  let malformed := Err (wrap "decode GeoJSON" (plain (geojson_error_text text))) in
  match fuel with
  | O => malformed
  | S fuel =>
      match object_members v with
      | None => malformed
      | Some m =>
          match string_field m "type", coordinates_field m with
          | Some type, Some coordinates =>
              if type =s= "Feature" then
                match raw_field m "geometry" with
                | None | Some Jnull => Err (plain "GeoJSON feature has no geometry")
                | Some geometry => geometry_bounds fuel (Some geometry) text
                end
              else polygon_bounds type coordinates
          | _, _ => malformed
          end
      end
  end.

Definition nesting (v : option json) : nat := match v with Some v => json_depth v | None => 0%nat end.

Definition geoJSONBounds (raw : string) : outcome geoBounds :=
  if TrimSpace raw =s= "" then Err (plain "inline GeoJSON polygon is required for DSS discovery")
  else let v := json_value raw in geometry_bounds (S (nesting v)) v raw.

(** ** Volumes to the coordination service *)

Definition box_vertices (bounds : geoBounds) : list LatLngPoint :=
  [mkLatLngPoint (minLat bounds) (minLon bounds); mkLatLngPoint (minLat bounds) (maxLon bounds);
   mkLatLngPoint (maxLat bounds) (maxLon bounds); mkLatLngPoint (maxLat bounds) (minLon bounds)].

(** The encodings of the parts of a volume; the first error counts. *)
Definition encode_volume (volume : OperationalVolume) (bounds : geoBounds) : outcome Volume4D :=
  match From (mkAltitude W84 AltitudeUnitsM (Volume_MinAltitudeM volume)) with
  | Err err => Err err
  | Ok lower =>
  match From (mkAltitude W84 AltitudeUnitsM (Volume_MaxAltitudeM volume)) with
  | Err err => Err err
  | Ok upper =>
  match From (box_vertices bounds) with
  | Err err => Err err
  | Ok outline =>
  match From (mkScdTime RFC3339 (UTC (Volume_StartsAt volume))) with
  | Err err => Err err
  | Ok start_ =>
  match From (mkScdTime RFC3339 (UTC (Volume_EndsAt volume))) with
  | Err err => Err err
  | Ok end_ => Ok (mkVolume4D (Some start_) (Some end_) (mkVolume3D (Some lower) (Some upper) (Some outline) None))
  end end end end end.

Definition toSCDVolume (volume : OperationalVolume) : outcome Volume4D :=
  if Volume_AltitudeRef volume <>s AltitudeReferenceWGS84
  then Err (plain ("altitude reference " +:+ quote (Volume_AltitudeRef volume) +:+ " is not supported by SCD"))
  else if IsZero (Volume_StartsAt volume) || IsZero (Volume_EndsAt volume)
          || negb (Before (Volume_StartsAt volume) (Volume_EndsAt volume))
  then Err (plain "time window is invalid")
  else if f_lt (Volume_MinAltitudeM volume) float_zero || f_le (Volume_MaxAltitudeM volume) (Volume_MinAltitudeM volume)
  then Err (plain "altitude band is invalid")
  else
    match geoJSONBounds (Volume_GeoJSON volume) with
    | Err err => Err err
    | Ok bounds =>
        let bounds := match Volume_BufferMeters volume with Some meters => expand bounds meters | None => bounds end in
        if crossesAntimeridian bounds then Err (plain "geometry crossing the antimeridian is not supported")
        else encode_volume volume bounds
    end.
End areas.

(** ** Volumes from the coordination service *)

(** The altitudes of a volume are heights over the ellipsoid in meters. *)
Definition w84_meters (altitude : Altitude) : bool :=
  (Altitude_Reference altitude =s= W84) && (Altitude_Units altitude =s= AltitudeUnitsM).

(** The positions of the vertices and their box. *)
Fixpoint polygon_positions (vertices : list LatLngPoint) (positions : list (list float64)) (bounds : geoBounds)
    : outcome (list (list float64) * geoBounds) :=
  match vertices with
  | [] => Ok (positions, bounds)
  | vertex :: vertices =>
      if valid_position (Lng vertex) (Lat vertex)
      then polygon_positions vertices (positions ++ [[Lng vertex; Lat vertex]]) (extend bounds (Lng vertex) (Lat vertex))
      else Err (plain "polygon contains an invalid coordinate")
  end.

Definition box_positions (bounds : geoBounds) : list (list float64) :=
  [[minLon bounds; minLat bounds]; [maxLon bounds; minLat bounds]; [maxLon bounds; maxLat bounds];
   [minLon bounds; maxLat bounds]; [minLon bounds; minLat bounds]].

Definition intentStatus (state : string) : IntentStatus :=
  if state =s= Accepted then IntentStatusAccepted else IntentStatusActive.

Definition validateVolumeSets (state : string) (nominal offNominal : nat) : option error :=
  if (state =s= Accepted) || (state =s= Activated) then
    if (nominal =? 0)%nat || negb (offNominal =? 0)%nat
    then Some (plain (state +:+ " intent requires nominal volumes and no off-nominal volumes")) else None
  else if state =s= Nonconforming then
    if (nominal =? 0)%nat || (offNominal =? 0)%nat
    then Some (plain "nonconforming intent requires nominal and off-nominal volumes") else None
  else if state =s= Contingent then
    if negb (nominal =? 0)%nat || (offNominal =? 0)%nat
    then Some (plain "contingent intent requires off-nominal volumes and no nominal volumes") else None
  else Some (plain ("operational intent state " +:+ quote state +:+ " is not supported")).

Section from_service.
Context {LIB : Library} {U : Unions} {SL : ScdLibrary}.

Definition marshalPolygon (positions : list (list float64)) : outcome string :=
  match marshal_polygon positions with Ok text => Ok text | Err err => Err (wrap "encode polygon" err) end.

Definition polygonGeoJSON (outline : union (list LatLngPoint)) : outcome string :=
  match As outline with
  | Err err => Err (wrap "read polygon" err)
  | Ok vertices =>
      if (length vertices <? 3)%nat then Err (plain "polygon has fewer than three vertices")
      else
        match polygon_positions vertices [] empty_bounds with
        | Err err => Err err
        | Ok (positions, bounds) =>
            if crossesAntimeridian bounds then Err (plain "polygon crossing the antimeridian is not supported")
            else marshalPolygon (positions ++ take 1 positions)
        end
  end.

Definition circleGeoJSON (outline : union Circle) : outcome string :=
  match As outline with
  | Err err => Err (wrap "read circle" err)
  | Ok circle =>
      match Circle_Center circle, Circle_Radius circle with
      | Some center, Some radius =>
          if (Radius_Units radius <>s RadiusUnitsM) || f_le (Radius_Value radius) float_zero
          then Err (plain "circle center and positive meter radius are required")
          else
            let bounds := expand (mkBounds (Lat center) (Lat center) (Lng center) (Lng center)) (Radius_Value radius) in
            if crossesAntimeridian bounds then Err (plain "circle crossing the antimeridian is not supported")
            else marshalPolygon (box_positions bounds)
      | _, _ => Err (plain "circle center and positive meter radius are required")
      end
  end.

Definition scdGeometryGeoJSON (volume : Volume3D) : outcome string :=
  match OutlinePolygon volume, OutlineCircle volume with
  | Some _, Some _ => Err (plain "volume contains both polygon and circle outlines")
  | Some outline, None => polygonGeoJSON outline
  | None, Some outline => circleGeoJSON outline
  | None, None => Err (plain "volume has no geographic outline")
  end.

(** The fields of a volume that come from the service. *)
Definition received_volume (geoJSON : string) (lower upper : Altitude) (start_ end_ : ScdTime) : OperationalVolume :=
  zero_OperationalVolume <| Volume_GeoJSON := geoJSON |> <| Volume_MinAltitudeM := Altitude_Value lower |>
    <| Volume_MaxAltitudeM := Altitude_Value upper |> <| Volume_AltitudeRef := AltitudeReferenceWGS84 |>
    <| Volume_StartsAt := UTC (ScdTime_Value start_) |> <| Volume_EndsAt := UTC (ScdTime_Value end_) |>.

(** The readings of the parts of a volume; the first error counts. *)
Definition decode_volume (volume : Volume4D) (start_ end_ : union ScdTime) (lower upper : union Altitude)
    : outcome OperationalVolume :=
  match As start_ with
  | Err err => Err (wrap "read start time" err)
  | Ok start_ =>
  match As end_ with
  | Err err => Err (wrap "read end time" err)
  | Ok end_ =>
  match As lower with
  | Err err => Err (wrap "read lower altitude" err)
  | Ok lower =>
  match As upper with
  | Err err => Err (wrap "read upper altitude" err)
  | Ok upper =>
  if negb (w84_meters lower && w84_meters upper) then Err (plain "only W84 altitudes in meters are supported")
  else
    match scdGeometryGeoJSON (Volume4D_Volume volume) with
    | Err err => Err err
    | Ok geoJSON => Ok (received_volume geoJSON lower upper start_ end_)
    end
  end end end end.

Definition fromSCDVolume (volume : Volume4D) : outcome OperationalVolume :=
  match TimeStart volume, TimeEnd volume, AltitudeLower (Volume4D_Volume volume), AltitudeUpper (Volume4D_Volume volume) with
  | Some start_, Some end_, Some lower, Some upper => decode_volume volume start_ end_ lower upper
  | _, _, _, _ => Err (plain "time and altitude bounds are required")
  end.

Definition numbered_volume (intentID : string) (version : Z) (kind : string) (index : nat) (item : OperationalVolume)
    : OperationalVolume :=
  item <| Volume_ID := intentID +:+ "-v" +:+ Itoa version +:+ "-" +:+ kind +:+ "-" +:+ Itoa (Z.of_nat index) |>
    <| Volume_IntentID := intentID |> <| Volume_IntentVersion := version |> <| Volume_Sequence := Z.of_nat index |>
    <| Volume_VolumeType := if kind =s= "off-nominal" then OperationalVolumeContingency else OperationalVolumeRoute |>.

Fixpoint fromSCDVolumes_from (index : nat) (intentID : string) (version : Z) (kind : string) (volumes : list Volume4D)
    : outcome (list OperationalVolume) :=
  match volumes with
  | [] => Ok []
  | volume :: volumes =>
      match fromSCDVolume volume with
      | Err err => Err (wrap (kind +:+ " volume " +:+ Itoa (Z.of_nat index)) err)
      | Ok item =>
          match fromSCDVolumes_from (S index) intentID version kind volumes with
          | Err err => Err err
          | Ok converted => Ok (numbered_volume intentID version kind index item :: converted)
          end
      end
  end.

Definition fromSCDVolumes : string → Z → string → list Volume4D → outcome (list OperationalVolume) :=
  fromSCDVolumes_from 0.

(** A list that is absent is empty. *)
Definition optional_volumes (intentID : string) (version : Z) (kind : string) (volumes : option (list Volume4D))
    : outcome (list OperationalVolume) :=
  match volumes with Some volumes => fromSCDVolumes intentID version kind volumes | None => Ok [] end.

(** ** Intents from the coordination service *)

Definition referenceID (reference : Reference) : outcome string :=
  match As (Reference_Id reference) with Ok id => Ok id | Err err => Err (wrap "read entity ID" err) end.

Definition referenceKey (reference : Reference) : outcome string :=
  match referenceID reference with
  | Err err => Err err
  | Ok id => Ok (id +:+ ":" +:+ Itoa (Reference_Version reference))
  end.

Definition same_reference (expectedID actualID : string) (expected actual : Reference) : bool :=
  (actualID =s= expectedID) && (Reference_Version actual =? Reference_Version expected)
  && (Reference_Manager actual =s= Reference_Manager expected) && (Reference_State actual =s= Reference_State expected).

Definition reference_text (id : string) (reference : Reference) : string :=
  id +:+ " v" +:+ Itoa (Reference_Version reference) +:+ " manager " +:+ quote (Reference_Manager reference)
    +:+ " state " +:+ quote (Reference_State reference).

Definition validateReturnedReference (expected actual : Reference) : option error :=
  match referenceID expected with
  | Err err => Some err
  | Ok expectedID =>
      match referenceID actual with
      | Err err => Some (wrap "read returned entity ID" err)
      | Ok actualID =>
          if same_reference expectedID actualID expected actual then None
          else Some (plain ("peer returned mismatched reference: got " +:+ reference_text actualID actual
                              +:+ ", want " +:+ reference_text expectedID expected))
      end
  end.

(** The OVN is in the details of the managing system only. *)
Definition returned_ovn (reference : Reference) : outcome string :=
  match Reference_Ovn reference with
  | None => Ok ""
  | Some ovn => match As ovn with Ok ovn => Ok ovn | Err err => Err (wrap "read operational intent OVN" err) end
  end.

Definition fromSCDIntent (reference : Reference) (intent : ScdIntent) : outcome AirspaceIntent :=
  match validateReturnedReference reference (ScdIntent_Reference intent) with
  | Some err => Err err
  | None =>
  match referenceID reference with
  | Err err => Err err
  | Ok id =>
  match As (Reference_UssBaseUrl reference) with
  | Err err => Err (wrap "read USS base URL" err)
  | Ok baseURL =>
  let version := Reference_Version reference in
  match returned_ovn (ScdIntent_Reference intent) with
  | Err err => Err err
  | Ok ovn =>
  match optional_volumes id version "nominal" (Details_Volumes (ScdIntent_Details intent)) with
  | Err err => Err err
  | Ok volumes =>
  match optional_volumes id version "off-nominal" (Details_OffNominalVolumes (ScdIntent_Details intent)) with
  | Err err => Err err
  | Ok offNominal =>
  match validateVolumeSets (Reference_State reference) (length volumes) (length offNominal) with
  | Some err => Err err
  | None =>
      Ok (mkAirspaceIntent
        (mkSource "" id (Reference_Manager reference) baseURL version ovn false)
        (zero_OperationalIntent <| Intent_ID := id |> <| Intent_Version := version |>
           <| Intent_Status := intentStatus (Reference_State reference) |>)
        volumes offNominal)
  end end end end end end end.
End from_service.

(** ** The provider *)

(** The fields that stay fixed; a client that is not set is absent. *)
Record InterUSSProvider : Set := mkInterUSSProvider {
  reader : bool;
  dssClient : bool;
  ussBaseURL : string;
  allowInsecurePeerURLs : bool;
}.

(** *** Construction *)

Record InterUSSConfig : Set := mkInterUSSConfig {
  Config_BaseURL : string;
  Config_StaticToken : string;
  Config_OAuthTokenURL : string;
  Config_OAuthAudience : string;
  Config_OAuthIssuer : string;
  Config_OAuthSubject : string;
  Config_AllowInsecurePeerURLs : bool;
  Config_USSBaseURL : string;
}.

(** What authorizes the requests to the service. *)
Inductive TokenSource : Set :=
  | NoTokenSource
  | StaticTokenSource (token : string)
  | DummyOAuthTokenSource (tokenURL audience issuer subject : string).

Definition token_source (cfg : InterUSSConfig) : TokenSource :=
  if Config_StaticToken cfg <>s "" then StaticTokenSource (Config_StaticToken cfg)
  else if Config_OAuthTokenURL cfg <>s ""
  then DummyOAuthTokenSource (Config_OAuthTokenURL cfg) (Config_OAuthAudience cfg) (Config_OAuthIssuer cfg)
         (Config_OAuthSubject cfg)
  else NoTokenSource.

(** [strings.TrimRight(s, slash)] *)
Fixpoint drop_slashes (s : bytes) : bytes :=
  match s with c :: s' => if is_byte 47 c then drop_slashes s' else s | [] => [] end.
Definition trim_slashes (s : string) : string :=
  String.string_of_list_ascii (rev (drop_slashes (rev (String.list_ascii_of_string s)))).

(** The client of the service, and that of the peers, for whose connections see
    [peer_DialContext]; [NewClient] is the library's. *)
Definition New_provider (NewClient : string → TokenSource → outcome unit) (cfg : InterUSSConfig)
    : outcome InterUSSProvider :=
  match NewClient (Config_BaseURL cfg) (token_source cfg) with
  | Err err => Err (wrap "configure InterUSS DSS client" err)
  | Ok _ =>
      match NewClient (Config_BaseURL cfg) (token_source cfg) with
      | Err err => Err (wrap "configure InterUSS peer USS client" err)
      | Ok _ =>
          Ok (mkInterUSSProvider true true (trim_slashes (Config_USSBaseURL cfg)) (Config_AllowInsecurePeerURLs cfg))
      end
  end.

Section provider.
Context {LIB : Library} {U : Unions} {SL : ScdLibrary} {UL : UrlLibrary} {RT : Runtime}.
Abbreviation program := (prog (apiE dssE)).

Definition response_error {A} (response : HttpResponse A) : error :=
  SCDResponseError (StatusCode response) (scd_error_text (StatusCode response) (Status response) (Body response)).

Definition scd_QueryOperationalIntentReferences (area : Volume4D) : program (outcome (list Reference)) :=
  try! response := external (QueryOperationalIntentReferences area) orelse id in
  Ret (if negb (StatusCode response =? StatusOK) then Err (response_error response)
       else match JSON response with
            | None => Err (plain "DSS query returned 200 without a JSON body")
            | Some references => Ok references
            end).

Definition scd_GetOperationalIntent (allowInsecure : bool) (reference : Reference) : program (outcome ScdIntent) :=
  match As (Reference_UssBaseUrl reference) with
  | Err err => Ret (Err (wrap "read peer USS base URL" err))
  | Ok baseURL =>
      match validatePeerURL baseURL allowInsecure with
      | Some err => Ret (Err err)
      | None => external (PeerGetOperationalIntent reference)
      end
  end.

(** A reference that was found: the highest version of every intent of others. *)
Definition note_reference (own : string) (state : gmap string Reference * list error) (reference : Reference)
    : gmap string Reference * list error :=
  let '(references, queryErrors) := state in
  match referenceID reference with
  | Err err => (references, queryErrors ++ [wrap "read DSS reference" err])
  | Ok id =>
      if id =s= own then (references, queryErrors)
      else
        match references !! id with
        | Some current =>
            if Reference_Version current <? Reference_Version reference
            then (<[id := reference]> references, queryErrors) else (references, queryErrors)
        | None => (<[id := reference]> references, queryErrors)
        end
  end.

Fixpoint query_volumes (own : string) (index : nat) (volumes : list OperationalVolume)
    (state : gmap string Reference * list error) : program (gmap string Reference * list error) :=
  match volumes with
  | [] => Ret state
  | volume :: volumes =>
      match toSCDVolume volume with
      | Err err =>
          query_volumes own (S index) volumes
            (state.1, state.2 ++ [wrap ("target volume " +:+ quote (Volume_ID volume)) err])
      | Ok area =>
          let! found := scd_QueryOperationalIntentReferences area in
          match found with
          | Err err =>
              query_volumes own (S index) volumes
                (state.1, state.2 ++ [wrap ("query target volume " +:+ Itoa (Z.of_nat index)) err])
          | Ok found => query_volumes own (S index) volumes (foldl (note_reference own) state found)
          end
      end
  end.

Fixpoint fetch_records (allowInsecure : bool) (keys : list string) (references : gmap string Reference)
    (records : list AirspaceIntent) (queryErrors : list error) : program (list AirspaceIntent * list error) :=
  match keys with
  | [] => Ret (records, queryErrors)
  | id :: keys =>
      match references !! id with
      | None => fetch_records allowInsecure keys references records queryErrors
      | Some reference =>
          let key := id +:+ ":" +:+ Itoa (Reference_Version reference) in
          let! fetched := scd_GetOperationalIntent allowInsecure reference in
          match fetched with
          | Err err =>
              fetch_records allowInsecure keys references records
                (queryErrors ++ [wrap ("get operational intent " +:+ key) err])
          | Ok intent =>
              match fromSCDIntent reference intent with
              | Err err =>
                  fetch_records allowInsecure keys references records
                    (queryErrors ++ [wrap ("convert operational intent " +:+ key) err])
              | Ok record => fetch_records allowInsecure keys references (records ++ [record]) queryErrors
              end
          end
      end
  end.

Definition FindPeerIntents (p : InterUSSProvider) (query : Query) : program (list AirspaceIntent * option error) :=
  if negb (reader p) then Ret ([], Some (plain "InterUSS client is not configured"))
  else
    let! '(references, queryErrors) :=
      query_volumes (Intent_ID (Query_Intent query)) 0 (Airspace.Query_Volumes query) (∅, []) in
    let keys := sort_strings (map_range references).*1 in
    let! '(records, queryErrors) := fetch_records (allowInsecurePeerURLs p) keys references [] queryErrors in
    Ret (records, errors_Join_all queryErrors).

Definition interuss_provider (p : InterUSSProvider) : Provider := mkProvider providerID (FindPeerIntents p).
End provider.
