(* ===== verification/InterUSSPublisher.v ===== *)
(** * Publication through InterUSS

    src/internal/airspaceprovider/interuss/publisher.go and details.go: the
    references of this system's own intents, the subscribers that are told of
    them, and the notifications they receive. *)

From S2P Require Import Prelude GoRuntime GoStrings GoFloat GoJson GoNet GoRange Domain Errors Program MemorySpatial DurableStore Airspace ScdMessages Geometry InterUSS.
From stdpp Require Import options.

#[global] Instance PublicationReceipt_eta : Eta PublicationReceipt := λ r,
  mkPublicationReceipt (Receipt_Manager r) (Receipt_Version r) (Receipt_OVN r) (Receipt_SubscriptionID r)
    (Receipt_USSBaseURL r) (Receipt_State r) (Receipt_ReferenceJSON r) (Receipt_Subscribers r).

(** ** Details of published intents *)

Definition validateOperationalIntentDetails (state : OperationalIntentExternalState) (volumes : list OperationalVolume)
    : option error :=
  if (state <>s OperationalIntentExternalStateAccepted) && (state <>s OperationalIntentExternalStateActivated) then None
  else if existsb off_nominal volumes
  then Some (plain "accepted and activated intents cannot publish off-nominal volumes") else None.

Section publisher.
Context {LIB : Library} {U : Unions} {SL : ScdLibrary} {UL : UrlLibrary} {RT : Runtime}.
Abbreviation program := (prog (apiE dssE)).

(** The loop that converts the volumes, nominal ones apart. *)
Fixpoint convert_published (volumes : list OperationalVolume) (nominal offNominal : list Volume4D)
    : outcome (list Volume4D * list Volume4D) :=
  match volumes with
  | [] => Ok (nominal, offNominal)
  | volume :: volumes =>
      match toSCDVolume volume with
      | Err err => Err (wrap ("convert published volume " +:+ quote (Volume_ID volume)) err)
      | Ok converted =>
          if off_nominal volume then convert_published volumes nominal (offNominal ++ [converted])
          else convert_published volumes (nominal ++ [converted]) offNominal
      end
  end.

Definition unless_empty {A} (l : list A) : option (list A) := match l with [] => None | _ => Some l end.

Definition PublishedOperationalIntent (referenceJSON : list Byte.byte) (volumes : list OperationalVolume)
    : outcome ScdIntent :=
  if is_nil (head referenceJSON) then Err (plain "published DSS reference is missing")
  else
    match unmarshal_reference referenceJSON with
    | Err err => Err (wrap "decode published DSS reference" err)
    | Ok reference =>
        match convert_published volumes [] [] with
        | Err err => Err err
        | Ok (nominal, offNominal) =>
            match validateOperationalIntentDetails (Reference_State reference) volumes with
            | Some err => Err err
            | None => Ok (mkScdIntent reference (mkDetails (Some 0) (unless_empty nominal) (unless_empty offNominal)))
            end
        end
    end.

(** ** Parameters of a reference *)

Fixpoint convert_extents (volumes : list OperationalVolume) (extents : list Volume4D) : outcome (list Volume4D) :=
  match volumes with
  | [] => Ok extents
  | volume :: volumes =>
      match toSCDVolume volume with
      | Err err => Err (wrap ("convert volume " +:+ quote (Volume_ID volume)) err)
      | Ok extent => convert_extents volumes (extents ++ [extent])
      end
  end.

(** The airspace key, when the request has one. *)
Definition add_key (request : PublicationRequest) (params : ReferenceParameters) : outcome ReferenceParameters :=
  match Request_Key request with
  | [] => Ok params
  | key =>
      match From key with
      | Err err => Err (wrap "convert DSS airspace key" err)
      | Ok key => Ok (params <| Parameters_Key := Some key |>)
      end
  end.

(** An activated intent keeps its subscription, or asks for an implicit one. *)
Definition keep_subscription (subscriptionID : string) (params : ReferenceParameters) : outcome ReferenceParameters :=
  match SCDEntityID subscriptionID with
  | Err err => Err (wrap "parse subscription UUID" err)
  | Ok id =>
      match From id with
      | Err err => Err (wrap "convert subscription UUID" err)
      | Ok subscription => Ok (params <| Parameters_SubscriptionId := Some subscription |>)
      end
  end.

Definition implicit_subscription (ussBaseURL : string) (params : ReferenceParameters) : outcome ReferenceParameters :=
  match From ussBaseURL with
  | Err err => Err (wrap "convert notification URL" err)
  | Ok baseSubscriptionURL =>
      match From baseSubscriptionURL with
      | Err err => Err (wrap "convert notification URL" err)
      | Ok notificationURL =>
          match From (mkImplicitSubscription (Some false) notificationURL) with
          | Err err => Err (wrap "convert implicit subscription" err)
          | Ok subscription => Ok (params <| Parameters_NewSubscription := Some subscription |>)
          end
      end
  end.

Definition add_subscription (ussBaseURL : string) (request : PublicationRequest) (params : ReferenceParameters)
    : outcome ReferenceParameters :=
  if Request_State request =s= OperationalIntentExternalStateActivated then
    if Request_SubscriptionID request <>s "" then keep_subscription (Request_SubscriptionID request) params
    else implicit_subscription ussBaseURL params
  else Ok params.

Definition publicationParameters (p : InterUSSProvider) (request : PublicationRequest) : outcome ReferenceParameters :=
  match validateOperationalIntentDetails (Request_State request) (Request_Volumes request) with
  | Some err => Err err
  | None =>
  match convert_extents (Request_Volumes request) [] with
  | Err err => Err err
  | Ok extents =>
  match From (ussBaseURL p) with
  | Err err => Err (wrap "convert USS base URL" err)
  | Ok baseURL =>
  match add_key request (mkReferenceParameters extents (Request_State request) baseURL None None None) with
  | Err err => Err err
  | Ok params => add_subscription (ussBaseURL p) request params
  end end end end.

Definition ValidatePeerIntent (p : InterUSSProvider) (request : PublicationRequest) : option error :=
  match publicationParameters p request with Ok _ => None | Err err => Some err end.

(** ** Receipts *)

(** The subscription that stands for none. *)
Definition no_subscription : string := "00000000-0000-4000-8000-000000000000".

Definition referenceReceipt (reference : Reference) : outcome PublicationReceipt :=
  match As (Reference_UssBaseUrl reference) with
  | Err err => Err (wrap "read returned USS base URL" err)
  | Ok baseURL =>
  match Reference_Ovn reference with
  | None => Err (plain "DSS response omitted manager OVN")
  | Some ovn =>
  match As ovn with
  | Err err => Err (wrap "read returned OVN" err)
  | Ok ovn =>
  match As (Reference_SubscriptionId reference) with
  | Err err => Err (wrap "read returned subscription ID" err)
  | Ok subscriptionID =>
  match marshal_reference reference with
  | Err err => Err (wrap "encode returned reference" err)
  | Ok raw =>
  match As subscriptionID with
  | Err err => Err (wrap "convert returned subscription ID" err)
  | Ok subscriptionValue =>
      Ok (mkPublicationReceipt (Reference_Manager reference) (Reference_Version reference) ovn
        (if subscriptionValue =s= no_subscription then "" else subscriptionValue) baseURL (Reference_State reference) raw [])
  end end end end end end.

Fixpoint subscription_states (entries : list SubscriptionEntry) : outcome (list SubscriptionState) :=
  match entries with
  | [] => Ok []
  | entry :: entries =>
      match As (Entry_SubscriptionId entry) with
      | Err err => Err (wrap "convert subscriber subscription ID" err)
      | Ok uuid =>
          match subscription_states entries with
          | Err err => Err err
          | Ok states => Ok (mkSubscriptionState uuid (Entry_NotificationIndex entry) :: states)
          end
      end
  end.

Fixpoint response_subscribers (subscribers : list SubscriberToNotify) : outcome (list Subscriber) :=
  match subscribers with
  | [] => Ok []
  | subscriber :: subscribers =>
      match As (ToNotify_UssBaseUrl subscriber) with
      | Err err => Err (wrap "read subscriber URL" err)
      | Ok url =>
          match subscription_states (ToNotify_Subscriptions subscriber) with
          | Err err => Err err
          | Ok states =>
              match response_subscribers subscribers with
              | Err err => Err err
              | Ok items => Ok (mkSubscriber url states :: items)
              end
          end
      end
  end.

Definition publicationReceipt (response : ChangeResponse) : outcome PublicationReceipt :=
  match referenceReceipt (Change_Reference response) with
  | Err err => Err err
  | Ok receipt =>
      match response_subscribers (Change_Subscribers response) with
      | Err err => Err err
      | Ok subscribers => Ok (receipt <| Receipt_Subscribers := subscribers |>)
      end
  end.

(** ** References of this system *)

Definition not_configured : error := plain "InterUSS publication is not configured".

(** The answer to a change, with the status of a success. *)
Definition change_answer (success : Z) (response : HttpResponse ChangeResponse) : outcome PublicationReceipt :=
  match JSON response with
  | Some changed =>
      if negb (StatusCode response =? success) then Err (response_error response) else publicationReceipt changed
  | None => Err (response_error response)
  end.

Definition CreatePeerIntent (p : InterUSSProvider) (request : PublicationRequest) : program (outcome PublicationReceipt) :=
  if negb (dssClient p) || (ussBaseURL p =s= "") then Ret (Err not_configured)
  else
    match SCDEntityID (Intent_ID (Request_Intent request)) with
    | Err err => Ret (Err (wrap "parse operational intent UUID" err))
    | Ok id =>
        match publicationParameters p request with
        | Err err => Ret (Err err)
        | Ok body =>
            try! response := external (CreateReference id body) orelse Datatypes.id in
            Ret (change_answer StatusCreated response)
        end
    end.

Definition UpdatePeerIntent (p : InterUSSProvider) (request : PublicationRequest) : program (outcome PublicationReceipt) :=
  if negb (dssClient p) || (ussBaseURL p =s= "") then Ret (Err not_configured)
  else
    match SCDEntityID (Intent_ID (Request_Intent request)) with
    | Err err => Ret (Err (wrap "parse operational intent UUID" err))
    | Ok id =>
        match publicationParameters p request with
        | Err err => Ret (Err err)
        | Ok body =>
            try! response := external (UpdateReference id (Request_OVN request) body) orelse Datatypes.id in
            Ret (change_answer StatusOK response)
        end
    end.

Definition DeletePeerIntent (p : InterUSSProvider) (intentID ovn : string) : program (outcome PublicationReceipt) :=
  if negb (dssClient p) then Ret (Err not_configured)
  else
    match SCDEntityID intentID with
    | Err err => Ret (Err (wrap "parse operational intent UUID" err))
    | Ok id =>
        try! response := external (DeleteReference id ovn) orelse Datatypes.id in
        Ret (change_answer StatusOK response)
    end.

Definition GetPeerReference (p : InterUSSProvider) (intentID : string) : program (outcome PublicationReceipt) :=
  if negb (dssClient p) then Ret (Err not_configured)
  else
    match SCDEntityID intentID with
    | Err err => Ret (Err (wrap "parse operational intent UUID" err))
    | Ok id =>
        try! response := external (GetReference id) orelse Datatypes.id in
        Ret (match JSON response with
             | Some reference =>
                 if negb (StatusCode response =? StatusOK) then Err (response_error response) else referenceReceipt reference
             | None => Err (response_error response)
             end)
    end.

(** ** Subscribers of an area *)

Abbreviation subscriptions := (gmap string (gmap string SubscriptionState)).

Definition note_subscription (byURL : subscriptions) (subscription : SubscriptionMessage) : outcome subscriptions :=
  match Subscription_NotifyForOperationalIntents subscription with
  | Some true =>
      match As (Subscription_UssBaseUrl subscription) with
      | Err err => Err (wrap "read subscriber URL" err)
      | Ok baseURL =>
          match As (ScdMessages.Subscription_Id subscription) with
          | Err err => Err (wrap "convert subscriber subscription ID" err)
          | Ok id =>
              let states := default ∅ (byURL !! baseURL) in
              Ok (<[baseURL := <[id := mkSubscriptionState id (Subscription_Index subscription)]> states]> byURL)
          end
      end
  | _ => Ok byURL
  end.

Fixpoint note_subscriptions (byURL : subscriptions) (found : list SubscriptionMessage) : outcome subscriptions :=
  match found with
  | [] => Ok byURL
  | subscription :: found =>
      match note_subscription byURL subscription with
      | Err err => Err err
      | Ok byURL => note_subscriptions byURL found
      end
  end.

(** The maps as lists in the order of their keys. *)
Definition sorted_keys {V} (m : gmap string V) : list string := sort_strings (map_range m).*1.

Definition list_subscriber (byURL : subscriptions) (baseURL : string) : Subscriber :=
  let states := default ∅ (byURL !! baseURL) in
  mkSubscriber baseURL (omap (λ id, states !! id) (sorted_keys states)).

Fixpoint query_subscriptions (volumes : list OperationalVolume) (byURL : subscriptions) : program (outcome subscriptions) :=
  match volumes with
  | [] => Ret (Ok byURL)
  | volume :: volumes =>
      match toSCDVolume volume with
      | Err err => Ret (Err (wrap ("convert subscription query volume " +:+ quote (Volume_ID volume)) err))
      | Ok area =>
          try! response := external (QuerySubscriptions area) orelse wrap "query DSS subscriptions" in
          match JSON response with
          | Some found =>
              if negb (StatusCode response =? StatusOK) then Ret (Err (response_error response))
              else
                match note_subscriptions byURL found with
                | Err err => Ret (Err err)
                | Ok byURL => query_subscriptions volumes byURL
                end
          | None => Ret (Err (response_error response))
          end
      end
  end.

Definition FindPeerSubscribers (p : InterUSSProvider) (volumes : list OperationalVolume)
    : program (outcome (list Subscriber)) :=
  if negb (dssClient p) then Ret (Err not_configured)
  else
    try! byURL := query_subscriptions volumes ∅ orelse id in
    Ret (Ok (map (list_subscriber byURL) (sorted_keys byURL))).

(** ** Notifications *)

Fixpoint notified_subscriptions (states : list SubscriptionState) : outcome (list SubscriptionEntry) :=
  match states with
  | [] => Ok []
  | state :: states =>
      match SCDSubscriptionID (Subscription_ID state) with
      | Err err => Err (wrap "parse subscriber subscription ID" err)
      | Ok id =>
          match notified_subscriptions states with
          | Err err => Err err
          | Ok entries => Ok (mkSubscriptionEntry id (Subscription_NotificationIndex state) :: entries)
          end
      end
  end.

(** The details are left out when the intent is deleted. *)
Definition notified_details (request : PublicationRequest) (receipt : PublicationReceipt) (deleted : bool)
    : outcome (option (union ScdIntent)) :=
  if deleted then Ok None
  else
    match PublishedOperationalIntent (Receipt_ReferenceJSON receipt) (Request_Volumes request) with
    | Err err => Err err
    | Ok intent =>
        match From intent with
        | Err err => Err (wrap "encode notified operational intent" err)
        | Ok encoded => Ok (Some encoded)
        end
    end.

Definition BuildNotification (request : PublicationRequest) (receipt : PublicationReceipt) (subscriber : Subscriber)
    (deleted : bool) : outcome (list Byte.byte) :=
  match SCDEntityID (Intent_ID (Request_Intent request)) with
  | Err err => Err err
  | Ok entityID =>
  match From entityID with
  | Err err => Err err
  | Ok wrappedID =>
  match notified_subscriptions (Subscriber_Subscriptions subscriber) with
  | Err err => Err err
  | Ok entries =>
  match notified_details request receipt deleted with
  | Err err => Err err
  | Ok details => marshal_notification (mkDetailsParameters wrappedID entries details)
  end end end end.

Definition DeliverNotification (p : InterUSSProvider) (baseURL : string) (payload : list Byte.byte)
    : program (option error) :=
  match validatePeerURL baseURL (allowInsecurePeerURLs p) with
  | Some err => Ret (Some err)
  | None =>
      match NewSCDPeer baseURL with
      | Err err => Ret (Some err)
      | Ok _ =>
          match unmarshal_notification payload with
          | Err err => Ret (Some (wrap "decode queued peer notification" err))
          | Ok body =>
              let! answered := external (NotifyPeer baseURL body) in
              Ret (match answered with
                   | Err err => Some err
                   | Ok response =>
                       if negb (StatusCode response =? StatusNoContent) then Some (response_error response) else None
                   end)
          end
      end
  end.

(** ** The publisher *)

Definition interuss_publisher (p : InterUSSProvider) : Publisher := mkPublisher
  (dssClient p && (ussBaseURL p <>s "")) (ValidatePeerIntent p) (CreatePeerIntent p) (UpdatePeerIntent p)
  (DeletePeerIntent p) (GetPeerReference p) (FindPeerSubscribers p) BuildNotification (DeliverNotification p).
End publisher.
