(* ===== verification/InterUSSRuns.v ===== *)
(** * What is found through InterUSS

    Discovery in the coordination service, whatever the service and the peers
    answer: which peers are asked, and what the result says about the intents
    in the areas of a query. *)

From S2P Require Import Prelude GoRuntime GoStrings GoFloat GoJson GoNet GoRange Domain Errors Program DurableStore ProgramLogic Airspace ScdMessages Geometry InterUSS InterUSSPublisher.
From stdpp Require Import options.

Section discovery.
Context {LIB : Library} {U : Unions} {SL : ScdLibrary} {UL : UrlLibrary} {RT : Runtime}.
Abbreviation history := (list (event (apiE dssE))).

(** ** Peers that may be contacted *)

(** A URL with a host only; without insecure peers, over TLS, of a host that is
    not local by name, and not an address outside of the public ones. *)
Definition peer_allowed (allowInsecure : bool) (baseURL : string) : Prop :=
  ∃ parsed, url_Parse baseURL = Ok parsed
    ∧ url_User parsed = false ∧ url_Hostname parsed ≠ "" ∧ url_RawQuery parsed = "" ∧ url_Fragment parsed = ""
    ∧ (url_Scheme parsed = "http" ∨ url_Scheme parsed = "https")
    ∧ (allowInsecure = false → url_Scheme parsed = "https"
       ∧ let host := ToLower (TrimSuffix (url_Hostname parsed) ".") in
         host ≠ "localhost" ∧ HasSuffix host ".localhost" = false
         ∧ ∀ address, ParseAddr host = Some address → publicPeerAddr address = true).

Lemma validatePeerURL_allowed baseURL allowInsecure :
  validatePeerURL baseURL allowInsecure = None → peer_allowed allowInsecure baseURL.
Proof using Type.
  unfold validatePeerURL, peer_allowed. destruct (url_Parse baseURL) as [parsed|err]; [|done].
  destruct (_ || _) eqn:Hparts; [done|]. destruct (_ && _) eqn:Hscheme; [done|].
  apply orb_false_iff in Hparts as [[[Huser Hhost]%orb_false_iff Hquery]%orb_false_iff Hfragment].
  apply negb_false_iff, String.eqb_eq in Hquery, Hfragment. apply String.eqb_neq in Hhost.
  apply andb_false_iff in Hscheme. rewrite !negb_false_iff, !String.eqb_eq in Hscheme.
  intros Hrest. exists parsed. split_and!; [done..|]. intros ->. revert Hrest.
  destruct (String.eqb_spec (url_Scheme parsed) "https") as [Hs|]; [|done]. cbn -[HasSuffix ParseAddr publicPeerAddr].
  set (host := ToLower _). destruct (String.eqb_spec host "localhost") as [|Hl]; [done|].
  destruct (HasSuffix host ".localhost"); [done|]. cbn -[ParseAddr publicPeerAddr].
  intros Haddr. split_and!; [done..|]. intros address Haddress. rewrite Haddress in Haddr. by destruct (publicPeerAddr address).
Qed.

(** The calls that discovery makes: it reads only, and asks peers that may be
    contacted. *)
Definition discovery_call (allowInsecure : bool) (h : history) X (e : apiE dssE X) : Prop :=
  match e with
  | OfExternal (QueryOperationalIntentReferences _) => True
  | OfExternal (PeerGetOperationalIntent reference) =>
      ∃ baseURL, As (Reference_UssBaseUrl reference) = Ok baseURL ∧ peer_allowed allowInsecure baseURL
  | _ => False
  end.

(** ** Answers *)

(** The service has listed the references of an area. *)
Definition listed (h : history) (area : Volume4D) (found : list Reference) : Prop :=
  ∃ response, Event (OfExternal (QueryOperationalIntentReferences area)) (Ok response) ∈ h
    ∧ StatusCode response = StatusOK ∧ JSON response = Some found.

(** A peer has given the details of a reference. *)
Definition detailed (h : history) (reference : Reference) (intent : ScdIntent) : Prop :=
  Event (OfExternal (PeerGetOperationalIntent reference)) (Ok intent) ∈ h.

(** A reference listed for one of the volumes. *)
Definition listed_for (h : history) (volumes : list OperationalVolume) (reference : Reference) : Prop :=
  ∃ volume area found, volume ∈ volumes ∧ toSCDVolume volume = Ok area ∧ listed h area found ∧ reference ∈ found.

Lemma listed_mono h h' area found : h ⊆ h' → listed h area found → listed h' area found.
Proof using Type. intros Hsub (response & Hin & H). exists response. auto. Qed.

Lemma listed_for_mono h h' volumes volumes' reference :
  h ⊆ h' → volumes ⊆ volumes' → listed_for h volumes reference → listed_for h' volumes' reference.
Proof using Type.
  intros Hh Hv (volume & area & found & Hin & Hto & Hlisted & Href). exists volume, area, found.
  split_and!; [auto|done|by eapply listed_mono|done].
Qed.

(** ** References that were noted *)

(** The references are those of others, under their identifiers. *)
Definition noted_from (own : string) (P : Reference → Prop) (references : gmap string Reference) : Prop :=
  ∀ id reference, references !! id = Some reference → id ≠ own ∧ referenceID reference = Ok id ∧ P reference.

(** A reference is that of the own intent, or one at least as new is noted. *)
Definition represented (own : string) (references : gmap string Reference) (reference : Reference) : Prop :=
  ∃ id, referenceID reference = Ok id
    ∧ (id = own ∨ ∃ current, references !! id = Some current ∧ Reference_Version reference ≤ Reference_Version current).

(** Every reference noted stays, or a newer one replaces it. *)
Definition noted_above (old new : gmap string Reference) : Prop :=
  ∀ id reference, old !! id = Some reference →
    ∃ current, new !! id = Some current ∧ Reference_Version reference ≤ Reference_Version current.

Lemma noted_above_refl m : noted_above m m.
Proof using Type. intros id reference H. eauto with lia. Qed.

Lemma noted_above_trans m1 m2 m3 : noted_above m1 m2 → noted_above m2 m3 → noted_above m1 m3.
Proof using Type.
  intros H12 H23 id reference H. destruct (H12 _ _ H) as (r2 & Hr2 & Hle). destruct (H23 _ _ Hr2) as (r3 & Hr3 & Hle').
  exists r3. eauto with lia.
Qed.

Lemma represented_above own old new reference :
  noted_above old new → represented own old reference → represented own new reference.
Proof using Type.
  intros Habove (id & Hid & [->|(current & Hcurrent & Hle)]); exists id || exists own; split; try done; [by left|right].
  destruct (Habove _ _ Hcurrent) as (newer & Hnewer & Hle'). exists newer. eauto with lia.
Qed.

Lemma note_reference_spec own (P : Reference → Prop) references errs reference references' errs' :
  note_reference own (references, errs) reference = (references', errs') → P reference →
  noted_from own P references →
  noted_from own P references' ∧ noted_above references references'
  ∧ (errs' = [] → errs = [] ∧ represented own references' reference).
Proof using Type.
  unfold note_reference, represented. intros Hnote HP Hfrom.
  assert (∀ id, referenceID reference = Ok id → id ≠ own → noted_from own P (<[id := reference]> references)) as Hinsert.
  { intros id Hid Hne id' r. rewrite lookup_insert_Some. intros [[<- <-]|[_ Hr]]; [done|by apply Hfrom]. }
  assert (∀ id, (∀ current, references !! id = Some current → Reference_Version current ≤ Reference_Version reference) →
      noted_above references (<[id := reference]> references)) as Habove.
  { intros id Hle id' r Hr. destruct (decide (id = id')) as [<-|Hne].
    - exists reference. rewrite lookup_insert_eq. auto.
    - exists r. rewrite lookup_insert_ne by done. auto with lia. }
  destruct (referenceID reference) as [id|err] eqn:Hid.
  2: { injection Hnote as <- <-. split_and!; [done|apply noted_above_refl|]. by destruct errs. }
  destruct (String.eqb_spec id own) as [->|Hne].
  { injection Hnote as <- <-. split_and!; [done|apply noted_above_refl|]. eauto 10. }
  destruct (references !! id) as [current|] eqn:Hcurrent.
  - destruct (Z.ltb_spec (Reference_Version current) (Reference_Version reference)) as [Hlt|Hge]; injection Hnote as <- <-.
    + split_and!; [by apply Hinsert|apply Habove; intros c Hc; assert (c = current) as -> by congruence; lia|]. intros ->. split; [done|].
      exists id. split; [done|]. right. exists reference. rewrite lookup_insert_eq. auto with lia.
    + split_and!; [done|apply noted_above_refl|]. intros ->. eauto 10.
  - injection Hnote as <- <-. split_and!; [by apply Hinsert|apply Habove; intros c Hc; congruence|]. intros ->. split; [done|].
    exists id. split; [done|]. right. exists reference. rewrite lookup_insert_eq. auto with lia.
Qed.

Lemma note_references_spec own (P : Reference → Prop) found state :
  (∀ reference, reference ∈ found → P reference) → noted_from own P state.1 →
  let state' := foldl (note_reference own) state found in
  noted_from own P state'.1 ∧ noted_above state.1 state'.1
  ∧ (state'.2 = [] → state.2 = [] ∧ ∀ reference, reference ∈ found → represented own state'.1 reference).
Proof using Type.
  revert state. induction found as [|reference found IH]; intros [references errs] HP Hfrom; cbn [foldl].
  - split_and!; [done|apply noted_above_refl|]. intros Hnil. split; [done|]. intros r Hr. by apply not_elem_of_nil in Hr.
  - destruct (note_reference own (references, errs) reference) as [references1 errs1] eqn:Hnote.
    destruct (note_reference_spec _ P _ _ _ _ _ Hnote) as (Hfrom1 & Habove1 & Hnil1); [apply HP; by left|done|].
    destruct (IH (references1, errs1)) as (Hfrom2 & Habove2 & Hnil2); [intros r Hr; apply HP; by right|done|].
    split_and!; [done|by eapply noted_above_trans|]. intros Hnil. destruct (Hnil2 Hnil) as [Hnil' Hall].
    destruct (Hnil1 Hnil') as [-> Hrep]. split; [done|]. intros r [->|Hr]%elem_of_cons; [|auto].
    by eapply represented_above.
Qed.

(** What was noted after the volumes [asked]. *)
Definition noted (h : history) (own : string) (asked : list OperationalVolume) (state : gmap string Reference * list error) : Prop :=
  noted_from own (listed_for h asked) state.1
  ∧ (state.2 = [] → ∀ volume, volume ∈ asked → ∃ area found,
       toSCDVolume volume = Ok area ∧ listed h area found
       ∧ ∀ reference, reference ∈ found → represented own state.1 reference).

Lemma noted_failed h h' own asked state volume err :
  h ⊆ h' → noted h own asked state → noted h' own (asked ++ [volume]) (state.1, state.2 ++ [err]).
Proof using Type.
  intros Hsub [Hfrom _]. split; [|by destruct (state.2)]. intros id reference Hr.
  destruct (Hfrom _ _ Hr) as (Hne & Hid & Hlisted). split_and!; [done..|].
  eapply listed_for_mono; [done| |done]. set_solver.
Qed.

Lemma query_references_wp allowInsecure h area :
  wp (discovery_call allowInsecure) h (scd_QueryOperationalIntentReferences area)
    (λ h' r, h ⊆ h' ∧ ∀ found, r = Ok found → listed h' area found).
Proof using Type.
  unfold scd_QueryOperationalIntentReferences. apply wp_call; [done|]. intros [response|err].
  - cbn. split; [set_solver|]. destruct (Z.eqb_spec (StatusCode response) StatusOK) as [Hstatus|]; [cbn|by intros ? ?].
    intros found Hfound. exists response. split_and!; [by left|done|]. destruct (JSON response); congruence.
  - cbn. split; [set_solver|by intros ? ?].
Qed.

Lemma query_volumes_wp allowInsecure own volumes index h asked state :
  noted h own asked state →
  wp (discovery_call allowInsecure) h (query_volumes own index volumes state)
    (λ h' state', h ⊆ h' ∧ noted h' own (asked ++ volumes) state').
Proof using Type.
  revert index h asked state. induction volumes as [|volume volumes IH]; intros index h asked state Hnoted; cbn [query_volumes].
  - cbn. by rewrite app_nil_r.
  - replace (asked ++ volume :: volumes) with ((asked ++ [volume]) ++ volumes) by by rewrite <- app_assoc.
    destruct (toSCDVolume volume) as [area|err] eqn:Hto; [|by apply IH, (noted_failed h)].
    apply wp_bind. eapply wp_mono; [|apply query_references_wp]. intros h1 [found|err] (Hsub & Hlisted).
    2: { eapply wp_mono; [|by apply IH, (noted_failed h)]. cbn. intros h2 state' [Hsub' H]. split; [by etrans|done]. }
    specialize (Hlisted _ eq_refl). destruct Hnoted as [Hfrom Hall].
    destruct (note_references_spec own (listed_for h1 (asked ++ [volume])) found state) as (Hfrom1 & Habove & Hnil).
    + intros reference Hr. exists volume, area, found. split_and!; [set_solver|done..].
    + intros id reference Hr. destruct (Hfrom _ _ Hr) as (Hne & Hid & Hl). split_and!; [done..|].
      eapply listed_for_mono; [done| |done]. set_solver.
    + eapply wp_mono; [|apply IH; split; [exact Hfrom1|]].
      { cbn. intros h2 state' [Hsub' H]. split; [by etrans|done]. }
      intros Hempty. destruct (Hnil Hempty) as [Hempty0 Hrep]. intros v [Hv| ->%list_elem_of_singleton]%elem_of_app; [|eauto].
      destruct (Hall Hempty0 v Hv) as (a & f & Ha & Hf & Hr). exists a, f. split_and!; [done|by eapply listed_mono|].
      intros r Hrf. eapply represented_above; [done|auto].
Qed.

(** ** Details *)

(** A record is made of the details that the manager of the reference gave for
    that reference. *)
Lemma fromSCDIntent_spec reference intent record :
  fromSCDIntent reference intent = Ok record →
  referenceID reference = Ok (Source_ReferenceID (Airspace_Source record))
  ∧ Source_Version (Airspace_Source record) = Reference_Version reference.
Proof using Type.
  unfold fromSCDIntent. destruct (validateReturnedReference _ _); [done|].
  destruct (referenceID reference) as [id|err]; [|done]. destruct (As _) as [baseURL|err]; [|done].
  destruct (returned_ovn _) as [ovn|err]; [|done].
  destruct (optional_volumes _ _ _ _) as [volumes|err]; [|done].
  destruct (optional_volumes _ _ _ _) as [offNominal|err]; [|done].
  destruct (validateVolumeSets _ _ _); [done|]. by intros [= <-].
Qed.

Lemma get_intent_wp allowInsecure h reference :
  wp (discovery_call allowInsecure) h (scd_GetOperationalIntent allowInsecure reference)
    (λ h' r, h ⊆ h' ∧ ∀ intent, r = Ok intent → detailed h' reference intent).
Proof using Type.
  unfold scd_GetOperationalIntent. destruct (As (Reference_UssBaseUrl reference)) as [baseURL|err] eqn:Hurl; [|by cbn].
  destruct (validatePeerURL baseURL allowInsecure) eqn:Hvalid; [by cbn|].
  split; [exists baseURL; eauto using validatePeerURL_allowed|]. intros r. cbn. split; [set_solver|].
  intros intent ->. by left.
Qed.

Definition record_id (record : AirspaceIntent) : string := Source_ReferenceID (Airspace_Source record).
Definition record_version (record : AirspaceIntent) : Z := Source_Version (Airspace_Source record).

(** The new records are of some of the keys, in their order; of all of them when
    nothing failed. *)
Record fetched (h : history) (keys : list string) (references : gmap string Reference) (new : list AirspaceIntent)
    (failed : bool) : Prop := {
  fetched_ids : sublist (map record_id new) keys;
  fetched_from : ∀ record, record ∈ new → ∃ reference intent, references !! record_id record = Some reference
    ∧ detailed h reference intent ∧ fromSCDIntent reference intent = Ok record;
  fetched_all : failed = false → ∀ id reference, id ∈ keys → references !! id = Some reference →
    ∃ record, record ∈ new ∧ record_id record = id ∧ record_version record = Reference_Version reference;
}.

Lemma fetched_skip h h' id keys references new failed :
  h ⊆ h' → fetched h' keys references new failed → fetched h' (id :: keys) references new true.
Proof using Type. intros Hsub [Hids Hfrom _]. split; [by constructor|done|done]. Qed.

Lemma fetch_records_wp allowInsecure keys references h records errs :
  (∀ id reference, references !! id = Some reference → referenceID reference = Ok id) →
  wp (discovery_call allowInsecure) h (fetch_records allowInsecure keys references records errs)
    (λ h' r, h ⊆ h' ∧ ∃ new more, r = (records ++ new, errs ++ more)
       ∧ fetched h' keys references new (negb (is_nil (head more)))).
Proof using Type.
  intros Hids. revert h records errs. induction keys as [|id keys IH]; intros h records errs; cbn [fetch_records].
  { cbn. split; [done|]. exists [], []. rewrite !app_nil_r. split; [done|]. split; [constructor|set_solver..]. }
  destruct (references !! id) as [reference|] eqn:Hreference.
  2: { eapply wp_mono; [|apply IH]. intros h' r (Hsub & new & more & -> & [Hl Hfrom Hall]). split; [done|].
       exists new, more. split; [done|]. split; [by constructor|done|].
       intros Hnone id' r [->|Hid']%elem_of_cons Hr; [congruence|eauto]. }
  assert (∀ h1 err, h ⊆ h1 → wp (discovery_call allowInsecure) h1 (fetch_records allowInsecure keys references records (errs ++ [err]))
    (λ h' r, h ⊆ h' ∧ ∃ new more, r = (records ++ new, errs ++ more)
       ∧ fetched h' (id :: keys) references new (negb (is_nil (head more))))) as Hskip.
  { intros h1 err Hsub. eapply wp_mono; [|apply IH]. intros h' r (Hsub' & new & more & -> & Hf). split; [by etrans|].
    exists new, (err :: more). rewrite <- app_assoc. split; [done|]. by eapply fetched_skip. }
  apply wp_bind. eapply wp_mono; [|apply get_intent_wp]. intros h1 [intent|err] (Hsub & Hdetailed); [|by apply Hskip].
  specialize (Hdetailed _ eq_refl). destruct (fromSCDIntent reference intent) as [record|err] eqn:Hrecord; [|by apply Hskip].
  destruct (fromSCDIntent_spec _ _ _ Hrecord) as [Hid Hversion].
  assert (record_id record = id) as Hrid by (specialize (Hids _ _ Hreference); unfold record_id; congruence).
  eapply wp_mono; [|apply IH]. intros h' r (Hsub' & new & more & -> & [Hl Hfrom Hall]). split; [by etrans|].
  exists (record :: new), more. rewrite <- app_assoc. split; [done|]. split; cbn.
  - rewrite Hrid. by constructor.
  - intros rec [->|Hrec]%elem_of_cons; [|auto]. exists reference, intent. rewrite Hrid. split_and!; [done|by apply Hsub'|done].
  - intros Hnone id' r [->|Hid']%elem_of_cons Hr.
    + exists record. assert (r = reference) as -> by congruence. split_and!; [by left|done|done].
    + destruct (Hall Hnone _ _ Hid' Hr) as (rec & Hrec & H). exists rec. split; [by right|done].
Qed.

(** ** Discovery *)

(** The keys of a map in order. *)
Lemma elem_of_sorted_keys {V} (m : gmap string V) id : id ∈ sorted_keys m ↔ ∃ v, m !! id = Some v.
Proof using Type.
  unfold sorted_keys, sort_strings. rewrite elem_of_sort_slice, list_elem_of_fmap. split.
  - intros ([k v] & -> & Hv). exists v. by apply elem_of_range.
  - intros [v Hv]. exists (id, v). split; [done|]. by apply elem_of_range.
Qed.

Lemma NoDup_sorted_keys {V} (m : gmap string V) : NoDup (sorted_keys m).
Proof using Type. unfold sorted_keys, sort_strings. rewrite sort_slice_perm. apply NoDup_range. Qed.

(** What the records say of the intents in the areas of the query. *)
Record found_peers (h : history) (query : Query) (records : list AirspaceIntent) (err : option error) : Prop := {
  peers_distinct : NoDup (map record_id records);
  peers_sound : ∀ record, record ∈ records → record_id record ≠ Intent_ID (Query_Intent query)
    ∧ ∃ reference intent, listed_for h (Airspace.Query_Volumes query) reference ∧ detailed h reference intent
        ∧ fromSCDIntent reference intent = Ok record;
  peers_complete : err = None → ∀ volume, volume ∈ Airspace.Query_Volumes query → ∃ area found,
    toSCDVolume volume = Ok area ∧ listed h area found
    ∧ ∀ reference, reference ∈ found → ∃ id, referenceID reference = Ok id
        ∧ (id = Intent_ID (Query_Intent query)
           ∨ ∃ record, record ∈ records ∧ record_id record = id ∧ Reference_Version reference ≤ record_version record);
}.

(** C25: discovery in the coordination service, whatever it and the peers answer:
    it changes nothing; the details of a reference are asked only of a peer
    that may be contacted (over TLS, at a host that is not local by name nor a
    private address, unless insecure peers are allowed); every record is made of
    a reference listed for a volume of the query and of the details its manager
    gave for it, and is not the own intent; there is one record for an intent;
    and without an error every volume was asked, and every intent of another
    listed for it is among the records, in a version at least as high. *)
Theorem peers_discovered (p : InterUSSProvider) (query : Query) :
  wp (discovery_call (allowInsecurePeerURLs p)) [] (FindPeerIntents p query) (λ h r,
    reader p = true → found_peers h query r.1 r.2).
Proof using Type.
  unfold FindPeerIntents. destruct (reader p); [|done]. cbn [negb]. apply wp_bind.
  set (own := Intent_ID (Query_Intent query)).
  eapply wp_mono; [|apply (query_volumes_wp _ own (Airspace.Query_Volumes query) 0 [] [])].
  2: { split; [|set_solver]. intros id r Hr. cbn [fst] in Hr. by rewrite lookup_empty in Hr. }
  intros h1 [references errs] (_ & Hfrom & Hall). cbn [fst snd app] in Hfrom, Hall. apply wp_bind.
  eapply wp_mono; [|apply fetch_records_wp; intros id r Hr; by apply (Hfrom _ _ Hr)].
  intros h2 r (Hsub & new & more & -> & [Hids Hdetails Hcomplete]). apply wp_ret. intros _. cbn [fst snd app]. split.
  - eapply sublist_NoDup; [|exact Hids]. apply NoDup_sorted_keys.
  - intros record Hrecord. destruct (Hdetails _ Hrecord) as (reference & intent & Hreference & Hd & Hf).
    destruct (Hfrom _ _ Hreference) as (Hne & _ & Hlisted). split; [done|]. exists reference, intent.
    split_and!; [|done..]. by eapply listed_for_mono.
  - intros Hnone volume Hvolume.
    assert (errs = [] ∧ more = []) as [-> ->] by (destruct errs, more; done).
    destruct (Hall eq_refl volume Hvolume) as (area & found & Hto & Hl & Hrep). exists area, found.
    split_and!; [done|by eapply listed_mono|]. intros reference Hr.
    destruct (Hrep _ Hr) as (id & Hid & [->|(current & Hcurrent & Hle)]); [by exists own; auto|].
    exists id. split; [done|]. right.
    destruct (Hcomplete eq_refl id current) as (record & Hin & Hrid & Hversion); [|done|].
    + by apply elem_of_sorted_keys; exists current.
    + exists record. rewrite Hversion. auto.
Qed.
End discovery.

(** * Connections to peers

    The addresses that a connection to a peer may go to, when insecure peers are
    not allowed. *)

(** ** Public addresses *)

(** Four octets of an IPv4 address; the first three groups of an IPv6 address,
    the rest being 0. *)
Definition octets (a b c d : Z) : Z := ((a * 256 + b) * 256 + c) * 256 + d.
Definition groups (a b c : Z) : Z := ((a * 65536 + b) * 65536 + c) * 2 ^ 80.

(** The first and the last address of the IPv4 networks that are not reached
    over the internet, or not as the host of a peer, *)
Definition reserved_networks : list (Z * Z) := [
  (octets 0 0 0 0, octets 0 255 255 255); (** this network *)
  (octets 10 0 0 0, octets 10 255 255 255); (** private *)
  (octets 100 64 0 0, octets 100 127 255 255); (** shared *)
  (octets 127 0 0 0, octets 127 255 255 255); (** loopback *)
  (octets 169 254 0 0, octets 169 254 255 255); (** link-local *)
  (octets 172 16 0 0, octets 172 31 255 255); (** private *)
  (octets 192 0 0 0, octets 192 0 0 255); (** protocols *)
  (octets 192 0 2 0, octets 192 0 2 255); (** documentation *)
  (octets 192 31 196 0, octets 192 31 196 255); (** AS112 *)
  (octets 192 52 193 0, octets 192 52 193 255); (** AMT *)
  (octets 192 88 99 0, octets 192 88 99 255); (** relays of 6to4 *)
  (octets 192 168 0 0, octets 192 168 255 255); (** private *)
  (octets 192 175 48 0, octets 192 175 48 255); (** AS112 *)
  (octets 198 18 0 0, octets 198 19 255 255); (** benchmarks *)
  (octets 198 51 100 0, octets 198 51 100 255); (** documentation *)
  (octets 203 0 113 0, octets 203 0 113 255); (** documentation *)
  (octets 224 0 0 0, octets 255 255 255 255)]. (** multicast and reserved *)

(** and of those of IPv6 inside of 2000::/3: protocols, documentation, 6to4,
    AS112 and documentation. *)
Definition reserved_networks6 : list (Z * Z) := [
  (groups 0x2001 0 0, groups 0x2001 0x200 0 - 1);
  (groups 0x2001 0xdb8 0, groups 0x2001 0xdb9 0 - 1);
  (groups 0x2002 0 0, groups 0x2003 0 0 - 1);
  (groups 0x2620 0x4f 0x8000, groups 0x2620 0x4f 0x8001 - 1);
  (groups 0x3fff 0 0, groups 0x3fff 0x1000 0 - 1)].

Definition outside (networks : list (Z * Z)) (n : Z) : Prop :=
  Forall (λ '(first, last), ¬ first ≤ n ≤ last) networks.

(** An address that the internet routes.  In IPv6 it is one of 2000::/3, so not
    a loopback, link-local, local or multicast address, nor one of a network
    for translation, discarding or segment routing. *)
Definition routed (address : Addr) : Prop :=
  match address with
  | IPv4 n => outside reserved_networks n
  | IPv6 n zone => zone = "" ∧ groups 0x2000 0 0 ≤ n < groups 0x4000 0 0 ∧ outside reserved_networks6 n
  end.

Lemma Unmap_idempotent address : Unmap (Unmap address) = Unmap address.
Proof. destruct address as [n|n zone]; [done|]. cbn. destruct (n / 2 ^ 32 =? 65535) eqn:Hm; [done|]. cbn. by rewrite Hm. Qed.

Lemma outside_special address p :
  publicPeerAddr address = true → List.In p specialUsePeerPrefixes → Contains p (Unmap address) = false.
Proof.
  unfold publicPeerAddr. destruct (_ || _); [done|]. intros Hnone%negb_true_iff Hin.
  apply not_true_iff_false. intros Hc. apply not_true_iff_false in Hnone. destruct Hnone.
  apply existsb_exists. by exists p.
Qed.

(** A prefix with the first and the last address of a network has those between
    them. *)
Lemma div_between a first n last k : first ≤ n ≤ last → a / 2 ^ k = first / 2 ^ k → a / 2 ^ k = last / 2 ^ k → a / 2 ^ k = n / 2 ^ k.
Proof.
  intros [Hfirst Hlast] H1 H2. destruct (Z.le_gt_cases 0 k) as [Hk|Hk]; [|by rewrite Z.pow_neg_r, !Z.div_0_r].
  pose proof (Z.pow_pos_nonneg 2 k ltac:(lia) Hk) as Hpow.
  pose proof (Z.div_le_mono _ _ _ Hpow Hfirst). pose proof (Z.div_le_mono _ _ _ Hpow Hlast). lia.
Qed.

Lemma Contains_between p (address : Z → Addr) first n last :
  (address = IPv4 ∨ address = λ n, IPv6 n "") → first ≤ n ≤ last →
  Contains p (address first) = true → Contains p (address last) = true → Contains p (address n) = true.
Proof.
  destruct p as [[a|a zone] bits]; intros [->| ->] Hn; cbn [Contains prefix_addr prefix_bits]; try done.
  - rewrite !Z.eqb_eq. by apply div_between.
  - rewrite String.eqb_refl. cbn [andb]. rewrite !Z.eqb_eq. by apply div_between.
Qed.

(** The networks that lie in a prefix that the code lists. *)
Definition prefixed (address : Z → Addr) : Z * Z → bool := λ '(first, last),
  existsb (λ p, Contains p (address first) && Contains p (address last)) specialUsePeerPrefixes.

Lemma prefixed_spec address first last : prefixed address (first, last) = true →
  ∃ p, List.In p specialUsePeerPrefixes ∧ Contains p (address first) = true ∧ Contains p (address last) = true.
Proof.
  unfold prefixed. intros H. apply existsb_exists in H as (p & Hp & H). apply andb_true_iff in H. by exists p.
Qed.

Lemma outside_prefixed (address : Z → Addr) networks n :
  (address = IPv4 ∨ address = λ n, IPv6 n "") → publicPeerAddr (address n) = true → Unmap (address n) = address n →
  forallb (prefixed address) networks = true → outside networks n.
Proof.
  intros Haddress Hpublic Hself Hprefixed. apply Forall_forall. intros [first last] Hin%list_elem_of_In Hn.
  rewrite forallb_forall in Hprefixed. destruct (prefixed_spec _ _ _ (Hprefixed _ Hin)) as (p & Hp & Hfirst & Hlast).
  pose proof (outside_special _ _ Hpublic Hp) as Hc. rewrite Hself in Hc.
  by rewrite (Contains_between p address first n last) in Hc.
Qed.

Lemma public_multicast n : publicPeerAddr (IPv4 n) = true → n / 2 ^ 28 ≠ 14.
Proof.
  unfold publicPeerAddr, IsGlobalUnicast, IsMulticast. cbn [Unmap].
  destruct (Z.eqb_spec (n / 2 ^ 28) 14) as [|Hne]; [|done]. by rewrite andb_false_r.
Qed.

(** Multicast addresses are refused by themselves; they are next to those that
    are reserved. *)
Lemma outside_multicast n : publicPeerAddr (IPv4 n) = true → outside [(octets 240 0 0 0, octets 255 255 255 255)] n →
  outside [(octets 224 0 0 0, octets 255 255 255 255)] n.
Proof.
  unfold outside. rewrite !Forall_singleton. intros Hm%public_multicast. unfold octets. intros Hn H.
  apply Hm. symmetry. apply (Z.div_unique _ _ _ (n - 2 ^ 28 * 14)); lia.
Qed.

Lemma publicPeerAddr_routed address : publicPeerAddr address = true → routed (Unmap address).
Proof.
  intros Hpublic. assert (publicPeerAddr (Unmap address) = true) as H.
  { unfold publicPeerAddr in *. by rewrite Unmap_idempotent. }
  pose proof (Unmap_idempotent address) as Hself. destruct (Unmap address) as [n|n zone]; cbn [routed].
  - assert (outside (take 16 reserved_networks) n) as Hprefixed
      by (apply (outside_prefixed IPv4); [by left|done|done|vm_compute; reflexivity]).
    assert (outside [(octets 240 0 0 0, octets 255 255 255 255)] n) as Hlast
      by (apply (outside_prefixed IPv4); [by left|done|done|vm_compute; reflexivity]).
    apply (Forall_app _ (take 16 reserved_networks) [_]). split; [done|by apply outside_multicast].
  - assert (global_unicast6 (IPv6 n zone) = (zone =s= "") && (1 =? n / 2 ^ 125)) as Hprefix by done.
    pose proof H as Hglobal. unfold publicPeerAddr in Hglobal. rewrite Hself in Hglobal.
    destruct (negb (IsGlobalUnicast _) || _) eqn:Hor; [done|]. apply orb_false_iff in Hor as [_ Hor]. clear Hglobal.
    rewrite Hprefix in Hor. destruct (String.eqb_spec zone "") as [->|]; [|done].
    destruct (Z.eqb_spec 1 (n / 2 ^ 125)) as [Hfirst|]; [|done]. split; [done|split].
    + pose proof (Z.div_mod n (2 ^ 125) ltac:(done)). pose proof (Z.mod_pos_bound n (2 ^ 125) ltac:(done)).
      unfold groups. lia.
    + apply (outside_prefixed (λ n, IPv6 n "")); [by right|done|done|vm_compute; reflexivity].
Qed.

(** ** Connections *)

Section dial.
Context {UL : UrlLibrary}.

(** Addresses are asked for the host that is dialed, and a connection is opened
    to one that was answered, at the port of the host. *)
Definition dial_call (net address : string) (h : list (event peerNetE)) X (e : peerNetE X) : Prop :=
  match e with
  | LookupIPAddr host => ∃ port, split_host_port (String.list_ascii_of_string address) = Some (String.list_ascii_of_string host, port)
  | DialAddress net' ip port =>
      net' = net ∧ ∃ host addresses,
        split_host_port (String.list_ascii_of_string address) = Some (host, String.list_ascii_of_string port)
        ∧ Event (LookupIPAddr (String.string_of_list_ascii host)) (Ok addresses) ∈ h ∧ ip ∈ addresses
        ∧ ∃ ip_address, AddrFromSlice ip = Some ip_address ∧ routed (Unmap ip_address)
  end.

(** C28: peers are reached on public addresses only, when insecure peers are not
    allowed.  Whatever the resolver answers, a connection to a peer is opened
    only to an address that was answered for its host, at the port asked for,
    and that address is routed on the internet: in IPv4 not one of a loopback,
    link-local, private, shared, reserved or multicast network, nor of one for
    documentation, benchmarks or a protocol, also when it is written in IPv6; in
    IPv6 one of 2000::/3 that is not for documentation, 6to4 or a protocol. *)
Theorem peers_dialed_public (net address : string) :
  wp (dial_call net address) [] (peer_DialContext net address) (λ _ _, True).
Proof using Type.
  unfold peer_DialContext. destruct (split_host_port _) as [[host port]|] eqn:Hsplit; [|done].
  apply wp_call; [exists port; by rewrite String.list_ascii_of_string_of_list_ascii|]. intros [addresses|err]; [|done].
  destruct (List.find publicPeerIP addresses) as [ip|] eqn:Hfind; [|done].
  apply find_some in Hfind as [Hin Hpublic]. apply list_elem_of_In in Hin. unfold publicPeerIP in Hpublic.
  destruct (AddrFromSlice ip) as [ip_address|] eqn:Haddr; [|done].
  split; [|done]. split; [done|]. exists host, addresses. rewrite String.list_ascii_of_string_of_list_ascii.
  split_and!; [done|by left|done|]. exists ip_address. split; [done|].
  rewrite <- Unmap_idempotent. by apply publicPeerAddr_routed.
Qed.
End dial.
