(* ===== verification/InterUSSPublications.v ===== *)
(** * What is published through InterUSS

    The references this system asks the coordination service to hold, the
    notifications it delivers to peers, and the connections to peers. *)

From S2P Require Import Prelude GoRuntime GoStrings GoFloat GoJson GoNet GoRange Domain Errors Program MemorySpatial DurableStore ProgramLogic Airspace ScdMessages Geometry InterUSS InterUSSPublisher InterUSSRuns.
From stdpp Require Import options.

Section publications.
Context {LIB : Library} {U : Unions} {SL : ScdLibrary} {UL : UrlLibrary} {RT : Runtime}.
Abbreviation history := (list (event (apiE dssE))).

(** ** Parameters *)

Lemma convert_extents_spec volumes extents extents' :
  convert_extents volumes extents = Ok extents' →
  ∃ converted, extents' = extents ++ converted ∧ Forall2 (λ volume extent, toSCDVolume volume = Ok extent) volumes converted.
Proof using Type.
  revert extents. induction volumes as [|volume volumes IH]; intros extents; cbn [convert_extents].
  - intros [= <-]. exists []. rewrite app_nil_r. by split; [|constructor].
  - destruct (toSCDVolume volume) as [extent|err] eqn:Hto; [|done]. intros (converted & -> & Hall)%IH.
    exists (extent :: converted). rewrite <- app_assoc. split; [done|]. by constructor.
Qed.

(** The state of a reference holds no volume outside of the planned ones. *)
Definition nominal_only (state : OperationalIntentExternalState) (volumes : list OperationalVolume) : Prop :=
  state = OperationalIntentExternalStateAccepted ∨ state = OperationalIntentExternalStateActivated →
  ∀ volume, volume ∈ volumes → off_nominal volume = false.

Lemma validateOperationalIntentDetails_spec state volumes :
  validateOperationalIntentDetails state volumes = None ↔ nominal_only state volumes.
Proof using Type.
  unfold validateOperationalIntentDetails, nominal_only. destruct (_ && _) eqn:Hstate.
  { split; [|done]. by intros _ [->| ->]. }
  apply andb_false_iff in Hstate. rewrite !negb_false_iff, !String.eqb_eq in Hstate.
  destruct (existsb off_nominal volumes) eqn:Hoff; split; try done.
  - intros H. apply existsb_exists in Hoff as (volume & Hv%list_elem_of_In & Hbad). by rewrite (H Hstate _ Hv) in Hbad.
  - intros _ _ volume Hv. apply not_true_iff_false. intros Hbad. apply not_true_iff_false in Hoff. destruct Hoff.
    apply existsb_exists. exists volume. by rewrite <- list_elem_of_In.
Qed.

(** How the reference is subscribed to its area: only when it is activated, and
    then either with the subscription it had or with a new one. *)
Definition subscribed (p : InterUSSProvider) (request : PublicationRequest) (body : ReferenceParameters) : Prop :=
  if Request_State request =s= OperationalIntentExternalStateActivated then
    if Request_SubscriptionID request =s= "" then
      Parameters_SubscriptionId body = None ∧ ∃ url notification implicit,
        From (ussBaseURL p) = Ok url ∧ From url = Ok notification
        ∧ From (mkImplicitSubscription (Some false) notification) = Ok implicit
        ∧ Parameters_NewSubscription body = Some implicit
    else
      Parameters_NewSubscription body = None ∧ ∃ id subscription,
        SCDEntityID (Request_SubscriptionID request) = Ok id ∧ From id = Ok subscription
        ∧ Parameters_SubscriptionId body = Some subscription
  else Parameters_SubscriptionId body = None ∧ Parameters_NewSubscription body = None.

(** The parameters say what is asked: every volume of the intent, its state, the
    key, and where this system can be reached. *)
Record published_as (p : InterUSSProvider) (request : PublicationRequest) (body : ReferenceParameters) : Prop := {
  published_extents : Forall2 (λ volume extent, toSCDVolume volume = Ok extent) (Request_Volumes request) (Parameters_Extents body);
  published_state : Parameters_State body = Request_State request;
  published_nominal : nominal_only (Request_State request) (Request_Volumes request);
  published_url : From (ussBaseURL p) = Ok (Parameters_UssBaseUrl body);
  published_key : match Request_Key request with
                  | [] => Parameters_Key body = None
                  | key => ∃ encoded, From key = Ok encoded ∧ Parameters_Key body = Some encoded
                  end;
  published_subscription : subscribed p request body;
}.

Lemma publicationParameters_spec p request body :
  publicationParameters p request = Ok body → published_as p request body.
Proof using Type.
  unfold publicationParameters. destruct (validateOperationalIntentDetails _ _) eqn:Hvalid; [done|].
  apply validateOperationalIntentDetails_spec in Hvalid.
  destruct (convert_extents _ _) as [extents|err] eqn:Hext; [|done].
  apply convert_extents_spec in Hext as (converted & -> & Hall). cbn [app].
  destruct (From (ussBaseURL p)) as [url|err] eqn:Hurl; [|done].
  destruct (add_key _ _) as [params|err] eqn:Hkey; [|done].
  assert (Parameters_Extents params = converted ∧ Parameters_State params = Request_State request
    ∧ Parameters_UssBaseUrl params = url ∧ Parameters_SubscriptionId params = None ∧ Parameters_NewSubscription params = None
    ∧ match Request_Key request with
      | [] => Parameters_Key params = None
      | key => ∃ encoded, From key = Ok encoded ∧ Parameters_Key params = Some encoded
      end) as (Hpe & Hps & Hpu & Hsub & Hnew & Hpk).
  { unfold add_key in Hkey. destruct (Request_Key request) as [|k ks]; [by injection Hkey as <-|].
    destruct (From (k :: ks)) as [encoded|]; [|done]. injection Hkey as <-. cbn. split_and!; eauto. }
  unfold add_subscription, keep_subscription, implicit_subscription. intros Hbody.
  assert (Parameters_Extents body = Parameters_Extents params ∧ Parameters_State body = Parameters_State params
    ∧ Parameters_UssBaseUrl body = Parameters_UssBaseUrl params ∧ Parameters_Key body = Parameters_Key params
    ∧ subscribed p request body) as (He & Hs & Hu & Hk & Hsubscribed).
  { unfold subscribed. destruct (Request_State request =s= _); [|by injection Hbody as <-].
    destruct (Request_SubscriptionID request =s= ""); cbn [negb] in Hbody.
    - rewrite Hurl in Hbody. destruct (From url) as [notification|] eqn:Hn; [|done].
      destruct (From (mkImplicitSubscription _ _)) as [implicit|] eqn:Hi; [|done].
      injection Hbody as <-. cbn. split_and!; [done..|]. exists url, notification, implicit. done.
    - destruct (SCDEntityID _) as [id|] eqn:Hid; [|done]. destruct (From id) as [subscription|] eqn:Hf; [|done].
      injection Hbody as <-. cbn. split_and!; eauto. }
  split; [congruence|congruence|done|congruence| |done]. rewrite Hk. done.
Qed.

(** ** Changes of references *)

(** The calls of a change: that of the reference of the intent, with what the
    request says. *)
Definition change_call (p : InterUSSProvider) (request : PublicationRequest) (h : history) X (e : apiE dssE X) : Prop :=
  match e with
  | OfExternal (CreateReference id body) =>
      SCDEntityID (Intent_ID (Request_Intent request)) = Ok id ∧ published_as p request body
  | OfExternal (UpdateReference id ovn body) =>
      SCDEntityID (Intent_ID (Request_Intent request)) = Ok id ∧ ovn = Request_OVN request ∧ published_as p request body
  | _ => False
  end.

(** A receipt tells what the service has answered to a change that succeeded. *)
Definition acknowledged (success : Z) (h : history) (receipt : PublicationReceipt) : Prop :=
  ∃ (response : HttpResponse ChangeResponse) changed (call : apiE dssE (outcome (HttpResponse ChangeResponse))),
    Event call (Ok response) ∈ h ∧ StatusCode response = success ∧ JSON response = Some changed
    ∧ publicationReceipt changed = Ok receipt ∧ Receipt_Version receipt = Reference_Version (Change_Reference changed)
    ∧ ∃ ovn, Reference_Ovn (Change_Reference changed) = Some ovn ∧ As ovn = Ok (Receipt_OVN receipt).

Lemma publicationReceipt_spec changed receipt :
  publicationReceipt changed = Ok receipt →
  Receipt_Version receipt = Reference_Version (Change_Reference changed)
  ∧ ∃ ovn, Reference_Ovn (Change_Reference changed) = Some ovn ∧ As ovn = Ok (Receipt_OVN receipt).
Proof using Type.
  unfold publicationReceipt, referenceReceipt. destruct (As _) as [url|]; [|done].
  destruct (Reference_Ovn _) as [ovn|]; [|done]. destruct (As ovn) as [text|] eqn:Hovn; [|done].
  destruct (As (Reference_SubscriptionId _)) as [sub|]; [|done]. destruct (marshal_reference _); [|done].
  destruct (As sub); [|done]. destruct (response_subscribers _); [|done]. intros [= <-]. cbn. eauto.
Qed.

Lemma change_answer_spec success response receipt call (h : history) :
  Event call (Ok response) ∈ h → change_answer success response = Ok receipt → acknowledged success h receipt.
Proof using Type.
  unfold change_answer. destruct (JSON response) as [changed|] eqn:Hjson; [|done].
  destruct (Z.eqb_spec (StatusCode response) success) as [Hstatus|]; [|done]. cbn. intros Hin Hreceipt.
  exists response, changed, call. destruct (publicationReceipt_spec _ _ Hreceipt). done.
Qed.


(** ** Notifications *)

(** A queued notification goes to the peer it is for, and only when that peer
    may be contacted; it counts as delivered only when the peer has answered
    that it took it; and what it says of an intent that was accepted or
    activated has no volume outside of the planned ones. *)
Theorem notification_delivered (p : InterUSSProvider) (baseURL : string) (payload : list Byte.byte) :
  wp (λ h X e, match e with
               | OfExternal (NotifyPeer url body) =>
                   url = baseURL ∧ peer_allowed (allowInsecurePeerURLs p) url ∧ unmarshal_notification payload = Ok body
               | _ => False
               end) []
    (DeliverNotification p baseURL payload) (λ h r, r = None → ∃ body response,
      Event (OfExternal (NotifyPeer baseURL body)) (Ok response) ∈ h ∧ StatusCode response = StatusNoContent)
  ∧ ∀ reference volumes intent, PublishedOperationalIntent reference volumes = Ok intent →
      nominal_only (Reference_State (ScdIntent_Reference intent)) volumes.
Proof using Type.
  split.
  - unfold DeliverNotification. destruct (validatePeerURL _ _) eqn:Hvalid; [by cbn|]. apply validatePeerURL_allowed in Hvalid.
    destruct (NewSCDPeer baseURL); [|by cbn]. destruct (unmarshal_notification payload) as [body|] eqn:Hbody; [|by cbn].
    apply wp_call; [done|]. intros [response|err]; [|by cbn]. cbn.
    destruct (Z.eqb_spec (StatusCode response) StatusNoContent); [|by cbn]. intros _. exists body, response. split; [by left|done].
  - intros reference volumes intent. unfold PublishedOperationalIntent. destruct (is_nil _); [done|].
    destruct (unmarshal_reference reference) as [ref|]; [|done].
    destruct (convert_published _ _ _) as [[nominal off]|]; [|done].
    destruct (validateOperationalIntentDetails _ _) eqn:Hvalid; [done|]. intros [= <-]. cbn.
    by apply validateOperationalIntentDetails_spec.
Qed.
End publications.

(** * Volumes through InterUSS

    What a peer that reads a published volume with this program's own code makes
    of it; and the addresses that count as public. *)

Abbreviation position := (float64 * float64)%type.

(** ** Positions and their box *)

Definition valid (p : position) : Prop := valid_position p.1 p.2 = true.

Lemma valid_globe p : valid p ↔ on_globe p.1 p.2.
Proof.
  unfold valid, valid_position, on_globe. rewrite negb_true_iff, !orb_false_iff, !negb_false_iff. split.
  - intros [[[[[Hlon Hlat] H1] H2] H3] H4].
    pose proof (is_finite_not_nan _ Hlon). pose proof (is_finite_not_nan _ Hlat).
    split_and!; try done; by apply f_not_lt.
  - intros (Hlon & Hlat & H1 & H2 & H3 & H4). split_and!; try done; apply not_true_iff_false; intros H;
      apply f_lt_irrefl_le in H; congruence.
Qed.

Lemma valid_numbers p : valid p → numbers p.
Proof. rewrite valid_globe. intros (H1 & H2 & _). split; by apply is_finite_not_nan. Qed.

(** A position in GeoJSON, and in the messages of the service. *)
Definition position_list (p : position) : list float64 := [p.1; p.2].
Definition vertex_of (p : position) : LatLngPoint := mkLatLngPoint p.2 p.1.

Lemma ring_bounds_positions ps b :
  Forall valid ps → ring_bounds (map position_list ps) b = Ok (extend_all b ps).
Proof.
  intros H. revert b. induction H as [|p ps Hp Hps IH]; intros b; [done|].
  cbn. unfold valid in Hp. rewrite Hp. apply IH.
Qed.

Lemma ring_bounds_valid ring b b' :
  ring_bounds ring b = Ok b' → ∃ ps, length ps = length ring ∧ Forall valid ps ∧ b' = extend_all b ps.
Proof.
  revert b. induction ring as [|position ring IH]; intros b; cbn; [intros [= <-]; by exists []|].
  destruct position as [|lon [|lat rest]]; [done..|]. destruct (valid_position lon lat) eqn:Hv; [|done].
  intros (ps & Hlen & Hps & ->)%IH. exists ((lon, lat) :: ps). split_and!; [cbn; lia|by constructor|done].
Qed.

Lemma polygon_positions_spec ps positions b r :
  polygon_positions (map vertex_of ps) positions b = Ok r ↔
  Forall valid ps ∧ r = (positions ++ map position_list ps, extend_all b ps).
Proof.
  revert positions b. induction ps as [|p ps IH]; intros positions b; cbn.
  - rewrite app_nil_r. split; [intros [= <-]; split; [constructor|done]|by intros [_ ->]].
  - destruct (valid_position p.1 p.2) eqn:Hv.
    + rewrite IH, <- app_assoc, Forall_cons. unfold valid at 2. rewrite Hv. naive_solver.
    + split; [done|]. intros [[Hp _]%Forall_cons _]. unfold valid in Hp. congruence.
Qed.

(** A box that is the least one of positions on the globe. *)
Definition proper (b : geoBounds) : Prop :=
  on_globe (minLon b) (minLat b) ∧ on_globe (maxLon b) (maxLat b)
  ∧ f_le (minLat b) (maxLat b) = true ∧ f_le (minLon b) (maxLon b) = true.

(** Each side of the box is the coordinate of a position. *)
Record least_box (ps : list position) (b : geoBounds) : Prop := {
  box_inside : ∀ p, p ∈ ps → inside b p.1 p.2;
  box_south : ∃ p, p ∈ ps ∧ p.2 = minLat b;
  box_north : ∃ p, p ∈ ps ∧ p.2 = maxLat b;
  box_west : ∃ p, p ∈ ps ∧ p.1 = minLon b;
  box_east : ∃ p, p ∈ ps ∧ p.1 = maxLon b;
}.

Lemma extend_all_least ps : Forall valid ps → ps ≠ [] → least_box ps (extend_all empty_bounds ps).
Proof.
  intros Hps Hne. destruct ps as [|first ps]; [done|].
  destruct (extend_all_spec (first :: ps) empty_bounds) as (_ & _ & Hin & A1 & A2 & A3 & A4); [done| |].
  { eapply Forall_impl; [exact Hps|apply valid_numbers]. }
  set (b := extend_all _ _) in *. pose proof (Hin first ltac:(by left)) as (I1 & I2 & I3 & I4).
  apply Forall_cons in Hps as [(_ & _ & G1 & G2 & G3 & G4)%valid_globe _].
  assert (f_le first.2 (float_of_Z 180) = true) as L1 by (eapply f_le_trans; [exact G4|by vm_compute]).
  assert (f_le (float_of_Z (-180)) first.2 = true) as L2 by (eapply f_le_trans; [|exact G3]; by vm_compute).
  split; [done|..].
  - destruct A1 as [Hm|?]; [rewrite Hm in I1; by destruct (not_float_max first.2)|done].
  - destruct A2 as [Hm|?]; [rewrite Hm in I2; by destruct (not_float_min first.2)|done].
  - destruct A3 as [Hm|?]; [rewrite Hm in I3; by destruct (not_float_max first.1)|done].
  - destruct A4 as [Hm|?]; [rewrite Hm in I4; by destruct (not_float_min first.1)|done].
Qed.

Lemma least_box_proper ps b : Forall valid ps → least_box ps b → proper b.
Proof.
  intros Hps [Hin (p1 & Hp1 & E1) (p2 & Hp2 & E2) (p3 & Hp3 & E3) (p4 & Hp4 & E4)].
  rewrite Forall_forall in Hps.
  pose proof (proj1 (valid_globe _) (Hps _ Hp1)) as (_&?&_&_&?&?). pose proof (proj1 (valid_globe _) (Hps _ Hp2)) as (_&?&_&_&?&?).
  pose proof (proj1 (valid_globe _) (Hps _ Hp3)) as (?&_&?&?&_&_). pose proof (proj1 (valid_globe _) (Hps _ Hp4)) as (?&_&?&?&_&_).
  destruct (Hin p1 Hp1) as (_ & Hns & _), (Hin p3 Hp3) as (_ & _ & Hwe1 & Hwe2).
  unfold proper, on_globe. rewrite <- E1, <- E2, <- E3, <- E4 in *. by split_and!.
Qed.

Definition corners (b : geoBounds) : list position :=
  [(minLon b, minLat b); (maxLon b, minLat b); (maxLon b, maxLat b); (minLon b, maxLat b)].

Lemma box_vertices_corners b : box_vertices b = map vertex_of (corners b).
Proof. done. Qed.

Lemma proper_corners b : proper b → Forall valid (corners b).
Proof.
  intros ((?&?&?&?&?&?) & (?&?&?&?&?&?) & _ & _). repeat constructor; by apply valid_globe.
Qed.

(** The ring of the corners, closed. *)
Definition closed_corners (b : geoBounds) : list position := corners b ++ take 1 (corners b).

Lemma corners_contained b :
  Forall valid (corners b) → contains (extend_all empty_bounds (closed_corners b)) b
  ∧ extend_all empty_bounds (closed_corners b) = extend_all (extend_all empty_bounds (corners b)) (take 1 (corners b)).
Proof.
  intros Hvalid. split; [|done].
  assert (Forall valid (closed_corners b)) as Hv.
  { unfold closed_corners. apply Forall_app. split; [done|by apply Forall_take]. }
  destruct (extend_all_spec (closed_corners b) empty_bounds) as (_ & _ & Hin & _); [done| |].
  { eapply Forall_impl; [exact Hv|apply valid_numbers]. }
  destruct (Hin (minLon b, minLat b)) as (H1 & _ & H3 & _); [by left|].
  destruct (Hin (maxLon b, maxLat b)) as (_ & H2 & _ & H4); [by do 2 right; left|].
  by repeat split.
Qed.

(** The least box of corners of a proper box is not larger. *)
Lemma corners_least b b' ps :
  proper b → ps ⊆ corners b → least_box ps b' →
  contains b b' ∧ (minLon b' = minLon b ∨ minLon b' = maxLon b) ∧ (maxLon b' = minLon b ∨ maxLon b' = maxLon b).
Proof.
  intros ((Hf1&Hf2&_) & (Hf3&Hf4&_) & Hlat & Hlon) Hsub
    [_ (p1 & Hp1 & E1) (p2 & Hp2 & E2) (p3 & Hp3 & E3) (p4 & Hp4 & E4)].
  assert (∀ p, p ∈ corners b → (p.2 = minLat b ∨ p.2 = maxLat b) ∧ (p.1 = minLon b ∨ p.1 = maxLon b)) as Hc.
  { intros p Hp. unfold corners in Hp. rewrite !elem_of_cons, elem_of_nil in Hp. naive_solver. }
  apply is_finite_not_nan, f_le_refl in Hf1, Hf2, Hf3, Hf4.
  destruct (Hc p1 (Hsub _ Hp1)) as [C1 _], (Hc p2 (Hsub _ Hp2)) as [C2 _], (Hc p3 (Hsub _ Hp3)) as [_ C3],
    (Hc p4 (Hsub _ Hp4)) as [_ C4].
  unfold contains. rewrite <- E1, <- E2, <- E3, <- E4.
  split_and!; try done; [destruct C1|destruct C2|destruct C3|destruct C4]; congruence.
Qed.

(** ** The text of a polygon *)

Section polygon_text.
Context {LIB : Library} {U : Unions} {SL : ScdLibrary}.

Lemma decode_positions ps :
  Forall valid ps →
  mapM (decode_slice decode_float) (map (λ position, Jarray (map Jnumber position)) (map position_list ps))
  = Some (map position_list ps).
Proof using Type.
  induction 1 as [|p ps Hp Hps IH]; [done|]. apply valid_globe in Hp as (Hlon & Hlat & _).
  cbn. unfold is_finite in Hlon, Hlat.
  apply andb_true_iff in Hlon as [_ Hlon%negb_true_iff], Hlat as [_ Hlat%negb_true_iff].
  rewrite Hlon, Hlat. cbn. cbn in IH. by rewrite IH.
Qed.

Lemma closed_positions p ps : valid p → closed_ring (map position_list (p :: ps ++ [p])) = true.
Proof using Type.
  intros Hp%valid_numbers. destruct Hp as [H1 H2]. unfold closed_ring.
  rewrite app_comm_cons, map_app. cbn [map position_list].
  rewrite last_snoc. cbn. unfold f_eq.
  assert (∀ x, f_is_nan x = false → SpecFloat.SFeqb x x = true) as Heq.
  { intros x Hx. pose proof (f_le_refl x Hx) as Hle. pose proof (f_le_lt x x Hx Hx) as Hlt.
    unfold f_le, f_lt, SpecFloat.SFleb, SpecFloat.SFltb, SpecFloat.SFeqb in *.
    destruct (SpecFloat.SFcompare x x) as [[]|] eqn:Hc; try done. }
  by rewrite !Heq.
Qed.

Lemma geometry_bounds_polygon fuel positions text :
  mapM (decode_slice decode_float) (map (λ position, Jarray (map Jnumber position)) positions) = Some positions →
  geometry_bounds (S fuel) (Some (polygon_json positions)) text = polygon_bounds "Polygon" [positions].
Proof using Type.
  unfold polygon_json. generalize (map (λ position, Jarray (map Jnumber position)) positions) as items. intros items Hdecode.
  set (members := [_; _]).
  assert (members_of members "type" = [Jstring "Polygon"]) as Htype by by vm_compute.
  assert (members_of members "coordinates" = [Jarray [Jarray items]]) as Hcoordinates by by vm_compute.
  unfold geometry_bounds. cbn [object_members]. unfold string_field, coordinates_field. rewrite Htype, Hcoordinates.
  cbn -[polygon_bounds]. rewrite Hdecode. done.
Qed.

Lemma polygon_text_box p ps text :
  Forall valid (p :: ps) → (2 ≤ length ps)%nat →
  json_value text = Some (polygon_json (map position_list (p :: ps ++ [p]))) → TrimSpace text = text →
  InterUSS.geoJSONBounds text = Ok (extend_all empty_bounds (p :: ps ++ [p])).
Proof using Type.
  intros Hps Hlen Hjson Htrim.
  assert (Forall valid (p :: ps ++ [p])) as Hall.
  { apply Forall_cons in Hps as [Hp Hps]. constructor; [done|]. apply Forall_app. by split; [|constructor]. }
  unfold InterUSS.geoJSONBounds. rewrite Htrim.
  destruct (String.eqb_spec text "") as [->|_]; [by vm_compute in Hjson|].
  rewrite Hjson. set (ring := p :: ps ++ [p]) in *.
  rewrite geometry_bounds_polygon by by apply decode_positions.
  unfold polygon_bounds. cbn [String.eqb negb orb].
  destruct (Nat.ltb_spec (length (map position_list ring)) 4) as [Hshort|_].
  { unfold ring in Hshort. rewrite length_map in Hshort. cbn in Hshort. rewrite length_app in Hshort. cbn in Hshort. lia. }
  unfold ring at 1. rewrite closed_positions by by apply Forall_cons in Hps as [? _].
  cbn [negb]. by apply ring_bounds_positions.
Qed.

(** Conversely the box of a text is that of positions on the globe. *)
Lemma geoJSONBounds_proper raw b : InterUSS.geoJSONBounds raw = Ok b → proper b.
Proof using Type.
  unfold InterUSS.geoJSONBounds. destruct (TrimSpace raw =s= ""); [done|].
  generalize (json_value raw) as v. intros v. generalize (S (nesting v)) as fuel. intros fuel. revert v.
  induction fuel as [|fuel IH]; intros v; cbn [geometry_bounds]; [done|].
  destruct (object_members v) as [m|]; [|done]. destruct (string_field m "type") as [type|]; [|done].
  destruct (coordinates_field m) as [coordinates|]; [|done]. destruct (type =s= "Feature").
  - destruct (raw_field m "geometry") as [[]|]; try done; apply IH.
  - unfold polygon_bounds. destruct coordinates as [|ring rest]; [done|].
    destruct (_ || _) eqn:Hshort; [done|]. apply orb_false_iff in Hshort as [_ Hlen%Nat.ltb_ge].
    destruct (negb _); [done|]. intros (ps & Hps & Hvalid & ->)%ring_bounds_valid.
    apply (least_box_proper ps), extend_all_least; [done..|]. intros ->. cbn in Hps. lia.
Qed.
End polygon_text.

(** ** A volume that is read back *)

(** Numbers that are neither less nor greater are the same, or two zeros. *)
Lemma f_same x y :
  f_le x y = true → f_le y x = true → x = y ∨ (∃ s, x = SpecFloat.S754_zero s) ∧ ∃ s, y = SpecFloat.S754_zero s.
Proof.
  intros Hxy Hyx. pose proof (f_le_not_nan _ _ Hxy) as [Hx Hy]. rewrite f_le_rank in * by done. unfold rank_lt in *.
  destruct x as [sx|[]| |[] mx ex], y as [sy|[]| |[] my ey]; cbn [rank fst snd] in *; try done; eauto; try lia;
    left; f_equal; lia.
Qed.

Lemma not_wide x y : (∃ s, x = SpecFloat.S754_zero s) → (∃ s, y = SpecFloat.S754_zero s) → f_lt (float_of_Z 180) (f_sub x y) = false.
Proof. intros [[] ->] [[] ->]; by vm_compute. Qed.

(** A box with the same sides, up to the signs of zeros, does not cross either. *)
Lemma crossesAntimeridian_same b b' :
  proper b → contains b b' → contains b' b →
  (minLon b' = minLon b ∨ minLon b' = maxLon b) → (maxLon b' = minLon b ∨ maxLon b' = maxLon b) →
  crossesAntimeridian b = false → crossesAntimeridian b' = false.
Proof.
  intros (_ & _ & _ & Hle) (_ & _ & H1 & H2) (_ & _ & H3 & H4) Hmin Hmax. unfold crossesAntimeridian.
  rewrite !orb_false_iff. intros [[Hlow Hhigh] Hwide].
  destruct (f_same _ _ H1 H3) as [Emin|[Z1 Z2]], (f_same _ _ H2 H4) as [Emax|[Z3 Z4]].
  - by rewrite <- Emin, Emax.
  - rewrite <- Emin. split_and!; [done|by destruct Z3 as [[] ->]|].
    destruct Hmax as [E|E]; rewrite E in *; [by apply not_wide|done].
  - rewrite Emax in *. split_and!; [by destruct Z2 as [[] ->]|done|].
    destruct Hmin as [E|E]; rewrite E in *; [done|by apply not_wide].
  - split_and!; [by destruct Z2 as [[] ->]|by destruct Z3 as [[] ->]|by apply not_wide].
Qed.

Section read_back.
Context {LIB : Library} {U : Unions} {UL : UnionLaws} {SL : ScdLibrary} {SLaws : ScdLaws}.

(** The box that is published for a volume: that of its polygon with the buffer. *)
Definition published_box (volume : OperationalVolume) (box : geoBounds) : Prop :=
  ∃ bounds, InterUSS.geoJSONBounds (Volume_GeoJSON volume) = Ok bounds
    ∧ box = match Volume_BufferMeters volume with Some meters => expand bounds meters | None => bounds end.

(** The parts of a published volume, and what they say. *)
Lemma toSCDVolume_parts volume area :
  toSCDVolume volume = Ok area →
  ∃ box lower upper outline start_ end_,
    published_box volume box ∧ crossesAntimeridian box = false
    ∧ area = mkVolume4D (Some start_) (Some end_) (mkVolume3D (Some lower) (Some upper) (Some outline) None)
    ∧ As lower = Ok (mkAltitude W84 AltitudeUnitsM (Volume_MinAltitudeM volume))
    ∧ As upper = Ok (mkAltitude W84 AltitudeUnitsM (Volume_MaxAltitudeM volume))
    ∧ As outline = Ok (box_vertices box)
    ∧ As start_ = Ok (mkScdTime RFC3339 (UTC (Volume_StartsAt volume)))
    ∧ As end_ = Ok (mkScdTime RFC3339 (UTC (Volume_EndsAt volume))).
Proof using UL.
  unfold toSCDVolume. destruct (_ <>s _); [done|]. destruct (_ || _ || _); [done|]. destruct (_ || _); [done|].
  destruct (InterUSS.geoJSONBounds _) as [bounds|] eqn:Hbounds; [|done].
  set (box := match Volume_BufferMeters volume with Some _ => _ | None => _ end).
  destruct (crossesAntimeridian box) eqn:Hcross; [done|]. unfold encode_volume.
  destruct (From (mkAltitude _ _ (Volume_MinAltitudeM volume))) as [lower|] eqn:H1; [|done].
  destruct (From (mkAltitude _ _ (Volume_MaxAltitudeM volume))) as [upper|] eqn:H2; [|done].
  destruct (From (box_vertices box)) as [outline|] eqn:H3; [|done].
  destruct (From (mkScdTime _ (UTC (Volume_StartsAt volume)))) as [start_|] eqn:H4; [|done].
  destruct (From (mkScdTime _ (UTC (Volume_EndsAt volume)))) as [end_|] eqn:H5; [|done].
  intros [= <-]. exists box, lower, upper, outline, start_, end_.
  split_and!; [by exists bounds|done|done|by apply As_From..].
Qed.

(** The text of an outline with corners that are valid, and what is read of it. *)
Lemma polygonGeoJSON_corners outline box :
  As outline = Ok (box_vertices box) → crossesAntimeridian box = false →
  (∀ text, polygonGeoJSON outline = Ok text → Forall valid (corners box)
     ∧ InterUSS.geoJSONBounds text = Ok (extend_all empty_bounds (closed_corners box)))
  ∧ (proper box → is_ok (marshal_polygon (map position_list (closed_corners box))) = true →
     is_ok (polygonGeoJSON outline) = true).
Proof using SLaws.
  intros Has Hcross. unfold polygonGeoJSON. rewrite Has, box_vertices_corners.
  change (length (map vertex_of (corners box)) <? 3)%nat with false. cbv iota.
  destruct (polygon_positions (map vertex_of (corners box)) [] empty_bounds) as [r|err] eqn:Hpos.
  - apply polygon_positions_spec in Hpos as [Hvalid ->]. cbv iota beta.
    change ([] ++ map position_list (corners box)) with (map position_list (corners box)). split.
    + intros text. destruct (crossesAntimeridian (extend_all empty_bounds (corners box))); [done|]. unfold marshalPolygon.
      destruct (marshal_polygon _) as [t|] eqn:Hm; [|done]. intros [= ->]. apply polygon_text in Hm as [Hjson Htrim].
      split; [done|]. apply polygon_text_box; [done|cbn; lia|done|done].
    + intros Hproper Hmarshal.
      destruct (corners_contained box Hvalid) as [Hcont _].
      pose proof (extend_all_least (corners box) Hvalid ltac:(done)) as Hleast.
      destruct (corners_least box _ (corners box) Hproper ltac:(done) Hleast) as (Hin & Hwest & Heast).
      assert (contains (extend_all empty_bounds (corners box)) box) as Hout.
      { destruct Hleast as [Hinside _ _ _ _].
        destruct (Hinside (minLon box, minLat box)) as (I1 & _ & I3 & _); [by left|].
        destruct (Hinside (maxLon box, maxLat box)) as (_ & I2 & _ & I4); [by do 2 right; left|]. by repeat split. }
      rewrite (crossesAntimeridian_same box _ Hproper Hin Hout Hwest Heast Hcross).
      unfold marshalPolygon. unfold closed_corners in Hmarshal. rewrite map_app in Hmarshal.
      change (take 1 (map position_list (corners box))) with (map position_list (take 1 (corners box))).
      by destruct (marshal_polygon _).
  - split; [done|]. intros Hproper%proper_corners _. exfalso.
    assert (polygon_positions (map vertex_of (corners box)) [] empty_bounds
      = Ok ([] ++ map position_list (corners box), extend_all empty_bounds (corners box))) as H
      by by apply polygon_positions_spec.
    congruence.
Qed.

(** C27: a published volume is read back, by a peer that runs this code: the
    altitudes and the window are those of the volume; the box of the outline it
    reads contains the box published, that of the polygon with its buffer; and
    without a buffer its box is the published one, and the volume can be read
    whenever its polygon can be written. *)
Theorem published_volume_read_back volume area :
  toSCDVolume volume = Ok area →
  ∃ box, published_box volume box
    ∧ (∀ read, fromSCDVolume area = Ok read →
        Volume_MinAltitudeM read = Volume_MinAltitudeM volume ∧ Volume_MaxAltitudeM read = Volume_MaxAltitudeM volume
        ∧ Volume_AltitudeRef read = Volume_AltitudeRef volume
        ∧ Volume_StartsAt read = Volume_StartsAt volume ∧ Volume_EndsAt read = Volume_EndsAt volume
        ∧ ∃ box', InterUSS.geoJSONBounds (Volume_GeoJSON read) = Ok box' ∧ contains box' box
            ∧ (Volume_BufferMeters volume = None → contains box box'))
    ∧ (Volume_BufferMeters volume = None → is_ok (marshal_polygon (map position_list (closed_corners box))) = true →
       ∃ read, fromSCDVolume area = Ok read).
Proof using UL SLaws.
  intros Hto. assert (Volume_AltitudeRef volume = AltitudeReferenceWGS84) as Href.
  { revert Hto. unfold toSCDVolume. destruct (String.eqb_spec (Volume_AltitudeRef volume) AltitudeReferenceWGS84); done. }
  destruct (toSCDVolume_parts _ _ Hto) as (box & lower & upper & outline & start_ & end_ & Hbox & Hcross & -> & H1 & H2 & H3 & H4 & H5).
  destruct (polygonGeoJSON_corners outline box H3 Hcross) as [Htext Htotal].
  assert (Volume_BufferMeters volume = None → proper box) as Hproper.
  { destruct Hbox as (bounds & Hbounds & ->). intros ->. by eapply geoJSONBounds_proper. }
  exists box. split; [done|]. unfold fromSCDVolume, decode_volume. cbn -[polygonGeoJSON]. rewrite H1, H2, H4, H5. cbn -[polygonGeoJSON].
  unfold scdGeometryGeoJSON. cbn -[polygonGeoJSON]. split.
  - intros read. destruct (polygonGeoJSON outline) as [text|] eqn:Hp; [|done]. intros [= <-]. cbn.
    destruct (Htext text eq_refl) as [Hvalid Hread]. destruct (corners_contained box Hvalid) as [Hcont _].
    split_and!; [done..|]. exists (extend_all empty_bounds (closed_corners box)). split_and!; [done|done|].
    intros Hnone. eapply (corners_least box _ (closed_corners box)); [by apply Hproper|unfold closed_corners, corners; set_solver|].
    apply extend_all_least; [|done]. unfold closed_corners. apply Forall_app. split; [done|by apply Forall_take].
  - intros Hnone Hmarshal. specialize (Htotal (Hproper Hnone) Hmarshal). destruct (polygonGeoJSON outline) as [text|]; [|done]. eauto.
Qed.
End read_back.

(** *** A volume that is published and read *)

#[local] Existing Instances reference_unions reference_unions_laws reference_scd reference_scd_laws.

Definition demo_published : OperationalVolume :=
  zero_OperationalVolume <| Volume_ID := "v" |> <| Volume_GeoJSON := demo_polygon |>
    <| Volume_MaxAltitudeM := float_of_Z 120 |> <| Volume_AltitudeRef := AltitudeReferenceWGS84 |>
    <| Volume_StartsAt := 100 |> <| Volume_EndsAt := 200 |>.

Lemma published_volume_read_back_witness :
  let LIB := reference_library in
  ∃ area, toSCDVolume demo_published = Ok area ∧ is_ok (fromSCDVolume area) = true
    ∧ ∃ box, published_box demo_published box.
Proof.
  cbv zeta. destruct (toSCDVolume (LIB := reference_library) demo_published) as [area|err] eqn:Hto.
  2: { exfalso. vm_compute in Hto. discriminate Hto. }
  exists area. split; [reflexivity|].
  destruct (published_volume_read_back (LIB := reference_library) _ _ Hto) as (box & Hbox & _). split.
  - vm_compute in Hto. injection Hto as <-. vm_compute. reflexivity.
  - exists box. exact Hbox.
Defined.
