(* ===== verification/FleetCommands.v ===== *)
(** * The fleet service: commands

    src/internal/service/fleet_service.go: the operations that write the
    durable store, as programs over it. *)

From S2P Require Import Prelude GoRuntime Domain Errors Program DurableStore.
From stdpp Require Import options.

Record InstallBatteryRequest : Set := mkInstallBatteryRequest {
  InstallBattery_ID : string;
  InstallBattery_OperatorID : string;
  InstallBattery_BatteryID : string;
  InstallBattery_InstalledAt : Time;
}.

Record CreateFlightRequest : Set := mkCreateFlightRequest {
  CreateFlight_ID : string;
  CreateFlight_OperatorID : string;
  CreateFlight_Origin : string;
  CreateFlight_Destination : string;
  CreateFlight_MissionType : string;
  CreateFlight_TelemetryURI : string;
}.

(** The loop over the values. *)
Fixpoint consistent_from (operatorID : string) (values : list string) : outcome string :=
  match values with
  | [] => Ok operatorID
  | value :: rest =>
      let value := TrimSpace value in
      if value =s= "" then consistent_from operatorID rest
      else if (operatorID <>s "") && (value <>s operatorID)
      then Err (because ErrValidation "operator_id does not match linked resources")
      else consistent_from value rest
  end.

Definition consistentOperatorID (values : list string) : outcome string := consistent_from "" values.

Section commands.
Context {externalE : Type → Type}.
Abbreviation program := (prog (apiE externalE)).

Definition CreateAircraft (aircraft : Aircraft) : program (outcome unit) :=
  durable (Durable.CreateAircraft aircraft).

Definition CreateBattery (battery : Battery) : program (outcome unit) :=
  durable (Durable.CreateBattery battery).

Definition RecordMaintenanceEvent (event : MaintenanceEvent) : program (outcome unit) :=
  durable (Durable.RecordMaintenanceEvent event).

(** ** InstallBattery *)

(** The record, once the resources agree; a zero time is replaced by the clock. *)
Definition record_installation (aircraftID id batteryID operatorID : string) (installedAt : Time)
    : program (outcome BatteryInstallation) :=
  let! installedAt := (if IsZero (UTC installedAt) then let! t := now in Ret (UTC t)
                       else Ret (UTC installedAt)) in
  let installation := mkBatteryInstallation id operatorID aircraftID batteryID installedAt None in
  try! _ := durable (Durable.RecordBatteryInstallation installation)
    orelse wrap "record battery installation" in
  Ret (Ok installation).

Definition InstallBattery (aircraftID : string) (req : InstallBatteryRequest)
    : program (outcome BatteryInstallation) :=
  let aircraftID := TrimSpace aircraftID in
  let id := TrimSpace (InstallBattery_ID req) in
  let batteryID := TrimSpace (InstallBattery_BatteryID req) in
  if (aircraftID =s= "") || (id =s= "") || (batteryID =s= "")
  then Ret (Err (because ErrValidation "aircraft_id, id, and battery_id are required"))
  else
    try! aircraft := durable (Durable.GetAircraft aircraftID) orelse wrap "get aircraft" in
    try! battery := durable (Durable.GetBattery batteryID) orelse wrap "get battery" in
    match consistentOperatorID [InstallBattery_OperatorID req; Aircraft_OperatorID aircraft;
                                Battery_OperatorID battery] with
    | Err err => Ret (Err err)
    | Ok operatorID =>
        try! active := durable (Durable.GetActiveBatteryInstallation aircraftID)
          orelse wrap "get active battery installation" in
        match active with
        | Some active =>
            Ret (Err (because ErrVersionConflict
              ("aircraft " +:+ aircraftID +:+ " already has active installation " +:+ Installation_ID active)))
        | None => record_installation aircraftID id batteryID operatorID (InstallBattery_InstalledAt req)
        end
    end.

(** ** CreatePlannedFlight *)

Definition planned_flight (id operatorID : string) (intent : OperationalIntent) (req : CreateFlightRequest)
    : FlightRecord :=
  zero_FlightRecord
    <| Flight_ID := id |>
    <| Flight_OperatorID := operatorID |>
    <| Flight_AircraftID := Intent_AircraftID intent |>
    <| Flight_IntentID := Intent_ID intent |>
    <| Flight_IntentVersion := Intent_Version intent |>
    <| Flight_Status := FlightStatusPlanned |>
    <| Flight_Origin := CreateFlight_Origin req |>
    <| Flight_Destination := CreateFlight_Destination req |>
    <| Flight_MissionType := CreateFlight_MissionType req |>
    <| Flight_TelemetryURI := CreateFlight_TelemetryURI req |>.

Definition CreatePlannedFlight (intentID : string) (req : CreateFlightRequest) : program (outcome FlightRecord) :=
  let intentID := TrimSpace intentID in
  let id := TrimSpace (CreateFlight_ID req) in
  if (intentID =s= "") || (id =s= "")
  then Ret (Err (because ErrValidation "intent_id and id are required"))
  else
    try! intent := durable (Durable.GetOperationalIntent intentID) orelse wrap "get operational intent" in
    if (Intent_Status intent <>s IntentStatusAccepted) && (Intent_Status intent <>s IntentStatusActive)
    then Ret (Err (because ErrInvalidTransition
           ("cannot create flight for intent in " +:+ Intent_Status intent +:+ " status")))
    else
      try! aircraft := durable (Durable.GetAircraft (Intent_AircraftID intent)) orelse wrap "get aircraft" in
      match consistentOperatorID [CreateFlight_OperatorID req; Intent_OperatorID intent;
                                  Aircraft_OperatorID aircraft] with
      | Err err => Ret (Err err)
      | Ok operatorID =>
          let flight := planned_flight id operatorID intent req in
          try! _ := durable (Durable.CreateFlightRecord flight) orelse wrap "create flight record" in
          Ret (Ok flight)
      end.

(** ** StartFlight *)

(** A conflict is a success when another request started the flight meanwhile. *)
Definition start_refused (flightID : string) (err : error) : program (outcome FlightRecord) :=
  let failure := Ret (Err (wrap "start flight record" err)) in
  if errors_Is err ErrVersionConflict then
    let! read := durable (Durable.GetFlightRecord flightID) in
    match read with
    | Ok current => if Flight_Status current =s= FlightStatusActive then Ret (Ok current) else failure
    | Err _ => failure
    end
  else failure.

Definition StartFlight (flightID : string) : program (outcome FlightRecord) :=
  let flightID := TrimSpace flightID in
  if flightID =s= "" then Ret (Err (because ErrValidation "flight_id is required"))
  else
    try! flight := durable (Durable.GetFlightRecord flightID) orelse wrap "get flight record" in
    if Flight_Status flight =s= FlightStatusActive then Ret (Ok flight)
    else if Flight_Status flight <>s FlightStatusPlanned
    then Ret (Err (because ErrInvalidTransition ("cannot start flight in " +:+ Flight_Status flight +:+ " status")))
    else
      try! intent := durable (Durable.GetOperationalIntent (Flight_IntentID flight))
        orelse wrap "get operational intent" in
      if (Intent_Status intent <>s IntentStatusActive) || (Intent_Version intent <>z Flight_IntentVersion flight)
         || (Intent_AircraftID intent <>s Flight_AircraftID flight)
      then Ret (Err (because ErrInvalidTransition "linked intent version is not active"))
      else
        let! t := now in
        let flight := flight <| Flight_Status := FlightStatusActive |> <| Flight_StartedAt := UTC t |> in
        let! started := durable (Durable.StartFlightWithCurrentMissionDeployment flight FlightStatusPlanned) in
        match started with
        | Err err => start_refused flightID err
        | Ok _ => Ret (Ok flight)
        end.
End commands.

(** ** The operator of linked resources *)

(** The operators that are named agree, and the result is the one named; it is
    empty when none is. *)
Lemma consistent_from_spec operatorID values result :
  consistent_from operatorID values = Ok result →
  (operatorID ≠ "" → result = operatorID)
  ∧ (∀ value, value ∈ values → TrimSpace value = "" ∨ TrimSpace value = result)
  ∧ (result = operatorID ∨ ∃ value, value ∈ values ∧ TrimSpace value = result ∧ result ≠ "").
Proof.
  revert operatorID. induction values as [|value values IH]; intros operatorID; cbn [consistent_from].
  - intros [= <-]. split; [done|]. split; [by intros ? ?%elem_of_nil|by left].
  - destruct (TrimSpace value =s= "") eqn:Hempty.
    + apply String.eqb_eq in Hempty. intros (H1 & H2 & H3)%IH. split; [done|]. split.
      * intros x [->|Hx]%elem_of_cons; [by left|auto].
      * destruct H3 as [?|(x & Hx & ?)]; [by left|]. right. exists x. split; [by right|done].
    + destruct (_ && _) eqn:Hclash; [done|]. intros (H1 & H2 & H3)%IH. apply String.eqb_neq in Hempty.
      pose proof (H1 Hempty) as Hr. split; [|split].
      * intros Hop. rewrite Hr. apply andb_false_iff in Hclash as [Hc|Hc];
          apply negb_false_iff, String.eqb_eq in Hc; congruence.
      * intros x [->|Hx]%elem_of_cons; [by right|auto].
      * right. exists value. split; [by left|]. split; congruence.
Qed.

Lemma consistentOperatorID_spec values result :
  consistentOperatorID values = Ok result →
  (∀ value, value ∈ values → TrimSpace value = "" ∨ TrimSpace value = result)
  ∧ (result = "" ∨ ∃ value, value ∈ values ∧ TrimSpace value = result).
Proof.
  intros (_ & H2 & H3)%consistent_from_spec. split; [done|].
  destruct H3 as [->|(x & ? & ? & ?)]; [by left|right; by exists x].
Qed.
