(* ===== verification/FleetLive.v ===== *)
(** * The fleet service: live state

    src/internal/service/fleet_service.go: what the registry and the telemetry
    store know about the aircraft now, composed by two goroutines, and the
    readiness derived from it. *)

From S2P Require Import Prelude GoRuntime GoStrings GoFloat GoRange Domain LiveDomain Errors TelemetryStores Registry Program DurableStore.
From stdpp Require Import options.

Definition defaultRegistryFreshness : Duration := 30 * Second.
Definition defaultTelemetryFreshness : Duration := 15 * Second.

(** What the service calls besides the durable store.  An element of a repeated
    field may be absent, and so may a message in a response. *)
Inductive fleetE : Type → Type :=
  | OfTelemetry {A} (e : Telemetry.telemetryE A) : fleetE (outcome A)
  | OfReplay {A} (e : Replay.replayE A) : fleetE (outcome A)
  | ListAgents : fleetE (outcome (list (option Agent)))
  | GetAgentPlacement (agentID : string) : fleetE (outcome (option AgentPlacement))
  | BatchGetConformanceSummaries (assignmentIDs : list string)
      : fleetE (outcome (option (list (option ConformanceProjection))))
  | ListHistory (request : HistoryRequest) : fleetE (outcome (option HistoryResponse)).

(** How the goroutines of the service are scheduled: the interleaving of two,
    and the order in which the workers look up placements. *)
Class Scheduler := {
  interleaving : list bool;
  job_order : nat → list nat;
  job_order_perm n : job_order n ≡ₚ seq 0 n;
}.

(** ** Freshness *)

Definition unixMillis (ms : Z) : Time := if ms <=? 0 then zero_Time else UTC (time_UnixMilli ms).

Definition freshAt (observedAt now : Time) (freshness : Duration) : bool :=
  negb (IsZero observedAt) && negb (Before observedAt (TimeAdd now (- freshness)))
  && negb (After observedAt (TimeAdd now freshness)).

Definition applied_freshness (now : Time) (freshness : Duration) (observation : TelemetryObservation)
    : TelemetryObservation :=
  observation <| Observation_Status :=
    if freshAt (Observation_RecordedAt observation) now freshness then DataFreshnessFresh else DataFreshnessStale |>.

(** The observations of a state, in the order of the code. *)
Definition state_observations (state : AircraftTelemetryState) : list TelemetryObservation :=
  option_list (Position_TelemetryObservation <$> TelemetryState_Position state)
  ++ option_list (BatteryTelemetry_TelemetryObservation <$> TelemetryState_Battery state)
  ++ option_list (Vehicle_TelemetryObservation <$> TelemetryState_Vehicle state)
  ++ option_list (System_TelemetryObservation <$> TelemetryState_System state)
  ++ option_list (HUD_TelemetryObservation <$> TelemetryState_HUD state)
  ++ option_list (ExtendedState_TelemetryObservation <$> TelemetryState_ExtendedState state)
  ++ option_list (GPS_TelemetryObservation <$> TelemetryState_GPS state).

(** Every observation through [f]. *)
Definition map_observations (f : TelemetryObservation → TelemetryObservation) (state : AircraftTelemetryState)
    : AircraftTelemetryState :=
  state
    <| TelemetryState_Position :=
         (λ p, p <| Position_TelemetryObservation := f (Position_TelemetryObservation p) |>)
         <$> TelemetryState_Position state |>
    <| TelemetryState_Battery :=
         (λ p, p <| BatteryTelemetry_TelemetryObservation := f (BatteryTelemetry_TelemetryObservation p) |>)
         <$> TelemetryState_Battery state |>
    <| TelemetryState_Vehicle :=
         (λ p, p <| Vehicle_TelemetryObservation := f (Vehicle_TelemetryObservation p) |>)
         <$> TelemetryState_Vehicle state |>
    <| TelemetryState_System :=
         (λ p, p <| System_TelemetryObservation := f (System_TelemetryObservation p) |>)
         <$> TelemetryState_System state |>
    <| TelemetryState_HUD :=
         (λ p, p <| HUD_TelemetryObservation := f (HUD_TelemetryObservation p) |>)
         <$> TelemetryState_HUD state |>
    <| TelemetryState_ExtendedState :=
         (λ p, p <| ExtendedState_TelemetryObservation := f (ExtendedState_TelemetryObservation p) |>)
         <$> TelemetryState_ExtendedState state |>
    <| TelemetryState_GPS :=
         (λ p, p <| GPS_TelemetryObservation := f (GPS_TelemetryObservation p) |>)
         <$> TelemetryState_GPS state |>.

(** One round of the loop, for the time of the last observation. *)
Definition last_observed (last : option Time) (observation : TelemetryObservation) : option Time :=
  match last with
  | None => Some (Observation_RecordedAt observation)
  | Some at_ =>
      if After (Observation_RecordedAt observation) at_ then Some (Observation_RecordedAt observation) else last
  end.

Definition applyTelemetryFreshness (telemetryFreshness : Duration) (state : AircraftTelemetryState) (now : Time)
    : AircraftTelemetryState :=
  let observations := state_observations state in
  match observations with
  | [] => state <| TelemetryState_Status := DataFreshnessMissing |>
  | _ =>
      let state := map_observations (applied_freshness now telemetryFreshness) state in
      let last := foldl last_observed (TelemetryState_LastObservedAt state) observations in
      let fresh := match last with Some at_ => freshAt at_ now telemetryFreshness | None => false end in
      state <| TelemetryState_LastObservedAt := last |>
            <| TelemetryState_Status := if fresh then DataFreshnessFresh else DataFreshnessStale |>
  end.

Definition legacySample (aircraftID : string) (telemetry : AircraftTelemetryState) : option TelemetrySample :=
  match TelemetryState_Position telemetry with
  | None => None
  | Some position =>
      let o := Position_TelemetryObservation position in
      let sample := zero_TelemetrySample
        <| Sample_ID := Observation_FrameID o |>
        <| Sample_AircraftID := aircraftID |>
        <| Sample_RecordedAt := Observation_RecordedAt o |>
        <| Sample_OperatorID := Observation_OperatorID o |>
        <| Sample_IntentID := Observation_IntentID o |>
        <| Sample_IntentVersion := Observation_IntentVersion o |>
        <| Sample_FlightID := Observation_FlightID o |>
        <| Sample_Latitude := Position_LatitudeDeg position |>
        <| Sample_Longitude := Position_LongitudeDeg position |>
        <| Sample_AltitudeM := default float_zero (Position_AltitudeMSLM position) |>
        <| Sample_VelocityMPS := default float_zero (Position_GroundspeedMPS position) |>
        <| Sample_HeadingDeg := default float_zero (Position_HeadingDeg position) |> in
      match TelemetryState_Battery telemetry with
      | Some battery =>
          let b := BatteryTelemetry_TelemetryObservation battery in
          if TimeEqual (Observation_RecordedAt b) (Observation_RecordedAt o)
             && (Observation_FrameID b =s= Observation_FrameID o)
          then Some (sample <| Sample_BatteryPct := BatteryTelemetry_BatteryRemainingPct battery |>)
          else Some sample
      | None => Some sample
      end
  end.

(** ** Connections *)

(** The state of an aircraft before the registry was asked. *)
Definition unmapped_state (item : Aircraft) : LiveAircraftState :=
  zero_LiveAircraftState
    <| Live_AircraftID := Aircraft_ID item |>
    <| Live_OperatorID := Aircraft_OperatorID item |>
    <| Live_AgentID := Aircraft_AgentID item |>
    <| Live_ConnectionStatus := ConnectionStatusUnmapped |>.

Definition unavailable_state (state : LiveAircraftState) : LiveAircraftState :=
  if Live_AgentID state <>s "" then state <| Live_ConnectionStatus := ConnectionStatusUnavailable |> else state.

Definition agents_by_id (agents : list (option Agent)) : gmap string Agent :=
  foldl (λ m agent,
    match agent with
    | Some agent => if Agent_AgentId agent <>s "" then <[Agent_AgentId agent := agent]> m else m
    | None => m
    end) ∅ agents.

(** The state of an aircraft by the heartbeat of its agent. *)
Definition heartbeat_state (registryFreshness : Duration) (now : Time) (agents : gmap string Agent)
    (state : LiveAircraftState) : LiveAircraftState :=
  if Live_AgentID state =s= "" then state
  else
    match agents !! Live_AgentID state with
    | None => state <| Live_ConnectionStatus := ConnectionStatusOffline |>
    | Some agent =>
        let heartbeatAt := unixMillis (Agent_LastHeartbeatUnixMs agent) in
        let state := state <| Live_LastHeartbeatAt := heartbeatAt |> <| Live_LastConnectedAt := heartbeatAt |> in
        if freshAt heartbeatAt now registryFreshness
        then state <| Live_Connected := true |> <| Live_ConnectionStatus := ConnectionStatusConnected |>
        else state <| Live_ConnectionStatus := ConnectionStatusStale |>
    end.

(** Its placement is looked up when its agent is known. *)
Definition looked_up (agents : gmap string Agent) (state : LiveAircraftState) : bool :=
  (Live_AgentID state <>s "") && negb (is_nil (agents !! Live_AgentID state)).

Definition disconnected (status : ConnectionStatus) (state : LiveAircraftState) : LiveAircraftState :=
  state <| Live_Connected := false |> <| Live_ConnectionStatus := status |>.

(** The state of an aircraft by its placement. *)
Definition placed_state (placementResult : outcome (option AgentPlacement)) (state : LiveAircraftState)
    : LiveAircraftState :=
  match placementResult with
  | Err err =>
      disconnected (if status_Code err =? codes_NotFound then ConnectionStatusOffline
                    else ConnectionStatusUnavailable) state
  | Ok None => disconnected ConnectionStatusOffline state
  | Ok (Some placement) =>
      if Placement_RelayId placement =s= "" then disconnected ConnectionStatusOffline state
      else state <| Live_RelayID := Placement_RelayId placement |>
                 <| Live_PlacementLastUpdatedAt := unixMillis (Placement_LastUpdatedUnixMs placement) |>
  end.

(** [placementLookup]: the index of a state and its agent. *)
Definition placement_lookups (agents : gmap string Agent) (states : list LiveAircraftState)
    : list (nat * string) :=
  omap (λ '(index, state), if looked_up agents state then Some (index, Live_AgentID state) else None)
    (zip (seq 0 (length states)) states).

Section live.
Context {SCH : Scheduler}.
Context (registryFreshness telemetryFreshness : Duration).
Abbreviation program := (prog (apiE fleetE)).

(** The jobs in the order in which they are done; a result goes to its index. *)
Fixpoint run_jobs (order : list nat) (lookups : list (nat * string))
    (results : gmap nat (outcome (option AgentPlacement))) : program (gmap nat (outcome (option AgentPlacement))) :=
  match order with
  | [] => Ret results
  | index :: order =>
      match lookups !! index with
      | None => run_jobs order lookups results
      | Some (_, agentID) =>
          let! response := external (GetAgentPlacement agentID) in
          run_jobs order lookups (<[index := response]> results)
      end
  end.

Definition lookupPlacements (lookups : list (nat * string)) : program (list (outcome (option AgentPlacement))) :=
  let! results := run_jobs (job_order (length lookups)) lookups ∅ in
  Ret (map (λ index, default (Ok None) (results !! index)) (seq 0 (length lookups))).

(** The loop over the lookups and their results. *)
Definition place_all (lookups : list (nat * string)) (results : list (outcome (option AgentPlacement)))
    (states : list LiveAircraftState) : list LiveAircraftState :=
  foldl (λ states '((index, _), result), alter (placed_state result) index states) states (zip lookups results).

Definition composeAircraftConnections (aircraft : list Aircraft) (now : Time) : program (list LiveAircraftState) :=
  let result := map unmapped_state aircraft in
  if negb (existsb (λ item, Aircraft_AgentID item <>s "") aircraft) then Ret result
  else
    let! response := external ListAgents in
    match response with
    | Err _ => Ret (map unavailable_state result)
    | Ok listed =>
        let agents := agents_by_id listed in
        let lookups := placement_lookups agents result in
        let result := map (heartbeat_state registryFreshness now agents) result in
        let! placements := lookupPlacements lookups in
        Ret (place_all lookups placements result)
    end.

(** ** Telemetry *)

Definition composeAircraftTelemetry (aircraftIDs : list string) (now : Time)
    : program (list AircraftTelemetryState) :=
  let! states := external (OfTelemetry (Telemetry.GetLatestAircraftStates aircraftIDs)) in
  Ret (map (λ aircraftID,
    match states with
    | Err _ => zero_AircraftTelemetryState <| TelemetryState_Status := DataFreshnessUnavailable |>
    | Ok states =>
        applyTelemetryFreshness telemetryFreshness (default zero_AircraftTelemetryState (states !! aircraftID)) now
    end) aircraftIDs).

Definition live_aircraft (item : Aircraft) (connection : LiveAircraftState) (telemetry : AircraftTelemetryState)
    : AircraftLiveState :=
  mkAircraftLiveState (Aircraft_ID item) (Aircraft_OperatorID item) (Aircraft_AgentID item) connection telemetry.

Definition composeLiveAircraft (aircraft : list Aircraft) : program (list AircraftLiveState) :=
  let telemetryIDs := map Aircraft_ID aircraft in
  let! t := now in
  let t := UTC t in
  let! states := par interleaving (composeAircraftConnections aircraft t) (composeAircraftTelemetry telemetryIDs t) in
  let '(connectionStates, telemetryStates) := states in
  Ret (map (λ '(item, (connection, telemetry)), live_aircraft item connection telemetry)
         (zip aircraft (zip connectionStates telemetryStates))).
End live.

Definition liveAircraftForID (states : list AircraftLiveState) (aircraftID : string) : AircraftLiveState :=
  match List.find (λ state, AircraftLive_AircraftID state =s= aircraftID) states with
  | Some state => state
  | None =>
      mkAircraftLiveState aircraftID "" ""
        (zero_LiveAircraftState <| Live_AircraftID := aircraftID |>
                                <| Live_ConnectionStatus := ConnectionStatusUnavailable |>)
        (zero_AircraftTelemetryState <| TelemetryState_Status := DataFreshnessUnavailable |>)
  end.

(** ** Readiness *)

Definition critical_maintenance (event : MaintenanceEvent) : bool :=
  EqualFold (Maintenance_Severity event) SeverityCritical && is_nil (Maintenance_ResolvedAt event).

Definition readiness_warnings (battery : option Battery) (liveStateAvailable : bool) : list string :=
  match battery with
  | None => ["battery missing"]
  | Some battery =>
      match Battery_StateOfHealth battery with
      | None => ["battery state of health unknown"]
      | Some health => if f_lt health (float_of_Z 80) then ["battery state of health below 80"] else []
      end
  end ++ (if negb liveStateAvailable then ["live state unavailable"] else []).

Definition CalculateReadiness (battery : option Battery) (maintenanceEvents : list MaintenanceEvent)
    (liveStateAvailable : bool) : Readiness :=
  let blocked := map (λ _, "open critical maintenance event") (select critical_maintenance maintenanceEvents) in
  match blocked with
  | _ :: _ => mkReadiness "blocked" blocked
  | [] =>
      match readiness_warnings battery liveStateAvailable with
      | _ :: _ as reasons => mkReadiness "warning" reasons
      | [] =>
          if negb (is_nil battery) && liveStateAvailable then mkReadiness "ready" []
          else mkReadiness "unknown" ["not enough data"]
      end
  end.
