(* ===== verification/FleetViews.v ===== *)
(** * The fleet service: dashboards and views

    src/internal/service/fleet_service.go: the read models, as programs over the
    durable store, the telemetry and replay stores and the registry. *)

From S2P Require Import Prelude GoRuntime GoStrings GoFloat GoStrconv GoRange Domain LiveDomain Errors TelemetryStores Registry Program DurableStore IntentService FleetLive.
From stdpp Require Import options.

Definition maxConformanceBatch : nat := 250.

Record ReplayResponse : Set := mkReplayResponse {
  ReplayResponse_Flight : FlightRecord;
  ReplayResponse_ReplayManifest : option ReplayManifest;
  ReplayResponse_Samples : list TelemetrySample;
  ReplayResponse_ConformanceEvents : list ConformanceEvent;
}.

(** ** Metrics *)

Definition count {A} (P : A → bool) (l : list A) : Z := Z.of_nat (length (select P l)).
Definition metric (label value status : string) : DashboardMetric := mkDashboardMetric label value "" status.
Definition len {A} (l : list A) : Z := Z.of_nat (length l).

Definition overviewMetrics (aircraft : list AircraftDashboard) (intents : list OperationalIntent)
    (evidence : list EvidenceRecord) (reviews : list ReportabilityReview) : list DashboardMetric :=
  let readyAircraft := count (λ item, Readiness_Status (Dashboard_Readiness item) =s= ReadinessStatusReady) aircraft in
  let openBlocks := count (λ item, Readiness_Status (Dashboard_Readiness item) =s= ReadinessStatusBlocked) aircraft in
  let activeIntents := count (λ intent, (Intent_Status intent =s= IntentStatusActive)
                                        || (Intent_Status intent =s= IntentStatusAccepted)) intents in
  let reportable := count (λ review, ReportabilityReview_Status review =s= ReportabilityStatusReportable) reviews in
  [metric "Ready aircraft" (Itoa readyAircraft +:+ "/" +:+ Itoa (len aircraft)) ReadinessStatusReady;
   metric "Accepted/active intents" (Itoa activeIntents) IntentStatusAccepted;
   metric "Open preflight blocks" (Itoa openBlocks) ReadinessStatusBlocked;
   metric "Evidence records" (Itoa (len evidence)) "";
   metric "Reportable events" (Itoa reportable) ReportabilityStatusReportable].

Definition operationsMetrics (intents : list OperationalIntent) (conformance : list ConformanceSummary)
    : list DashboardMetric :=
  let accepted := count (λ intent, Intent_Status intent =s= IntentStatusAccepted) intents in
  let submitted := count (λ intent, (Intent_Status intent =s= IntentStatusSubmitted)
                                    || (Intent_Status intent =s= IntentStatusReview)) intents in
  let conformanceRequired := count Intent_ConformanceRequired intents in
  let nonConforming := count (λ summary, ConformanceSummary_Status summary =s= ConformanceStatusNonConforming)
                         conformance in
  [metric "Operational intents" (Itoa (len intents)) "";
   metric "Accepted" (Itoa accepted) IntentStatusAccepted;
   metric "Submitted/review" (Itoa submitted) IntentStatusSubmitted;
   mkDashboardMetric "Conformance required" (Itoa conformanceRequired) (Itoa nonConforming +:+ " non-conforming") ""].

Definition preflightMetrics (checks : list PreflightCheck) : list DashboardMetric :=
  let clear := count (λ check, PreflightCheck_Status check =s= PreflightStatusClear) checks in
  let review := count (λ check, PreflightCheck_Status check =s= PreflightStatusReview) checks in
  let blocked := count (λ check, (PreflightCheck_Status check =s= PreflightStatusAction)
                                 || (PreflightCheck_Status check =s= PreflightStatusBlocked)) checks in
  [metric "Checks complete" (Itoa clear +:+ "/" +:+ Itoa (len checks)) PreflightStatusClear;
   metric "Needs review" (Itoa review) PreflightStatusReview;
   metric "Blocking items" (Itoa blocked) PreflightStatusBlocked].

Definition activeViolationCount (violations : list ConformanceViolationSummary) : Z :=
  count (λ violation, (Violation_Phase violation <>s "") && (Violation_Phase violation <>s "clear")) violations.

(** The scores, added in the order of the summaries. *)
Definition scored (summaries : list ConformanceSummary) : list float64 := omap ConformanceSummary_Score summaries.
Definition sum_floats (l : list float64) : float64 := foldl f_add float_zero l.

Definition conformanceMetrics (summaries : list ConformanceSummary) (events : list ConformanceEvent)
    : list DashboardMetric :=
  let conforming := count (λ summary, ConformanceSummary_Status summary =s= ConformanceStatusConforming) summaries in
  let reportable := count (λ summary, ConformanceSummary_ReportabilityStatus summary =s= ReportabilityStatusReportable)
                      summaries in
  let live := select (λ summary, ConformanceSummary_AssignmentID summary <>s "") summaries in
  let activeFindings :=
    foldl (λ n summary, n + activeViolationCount (ConformanceSummary_Violations summary)) 0 live in
  let scores := scored summaries in
  let '(targetValue, targetDetail) :=
    if 0 <? len scores
    then (format_f 1 (f_mul (f_div (sum_floats scores) (float_of_Z (len scores))) (float_of_Z 100)) +:+ "%",
          "Average of durable scored evaluations")
    else ("Not scored", "Live condition is reported separately") in
  let '(alertLabel, alertValue) :=
    match live with [] => ("Open alerts", len events) | _ => ("Active findings", activeFindings) end in
  [mkDashboardMetric "Target conformance" targetValue targetDetail "";
   metric "Conforming" (Itoa conforming) ConformanceStatusConforming;
   metric alertLabel (Itoa alertValue) "";
   metric "Reportable" (Itoa reportable) ReportabilityStatusReportable].

Definition maintenanceMetrics (events : list MaintenanceEvent) (batteries : list Battery) : list DashboardMetric :=
  let openEvents := count (λ event, (Maintenance_Status event <>s MaintenanceStatusClosed)
                                    && is_nil (Maintenance_ResolvedAt event)) events in
  let critical := count (λ event, (Maintenance_Severity event =s= SeverityCritical)
                                  && is_nil (Maintenance_ResolvedAt event)) events in
  let healths := omap Battery_StateOfHealth batteries in
  let avgSOH := if 0 <? len healths then f_div (sum_floats healths) (float_of_Z (len healths)) else float_zero in
  [metric "Open irregularities" (Itoa openEvents) "";
   metric "Critical" (Itoa critical) SeverityCritical;
   metric "Battery SOH avg" (format_f 0 avgSOH +:+ "%") "";
   metric "Battery packs" (Itoa (len batteries)) ""].

Definition recordsMetrics (evidence : list EvidenceRecord) (reviews : list ReportabilityReview)
    : list DashboardMetric :=
  let pending := count (λ record, (EvidenceRecord_Status record =s= EvidenceStatusOpen)
                                  || (EvidenceRecord_Status record =s= EvidenceStatusReview)) evidence in
  let reportable := count (λ review, ReportabilityReview_Status review =s= ReportabilityStatusReportable) reviews in
  [metric "Evidence records" (Itoa (len evidence)) "";
   metric "Pending reviews" (Itoa pending) EvidenceStatusReview;
   metric "Reportable events" (Itoa reportable) ReportabilityStatusReportable].

(** ** Conformance of the registry over that of the store *)

Definition conformanceVersionKey (intentID : string) (intentVersion : Z) : string :=
  intentID +:+ ":" +:+ Itoa intentVersion.

Definition summary_key (summary : ConformanceSummary) : string :=
  conformanceVersionKey (ConformanceSummary_IntentID summary) (ConformanceSummary_IntentVersion summary).

Definition firstNonEmpty (preferred fallback : string) : string :=
  if preferred <>s "" then preferred else fallback.

Definition enumJSONName (value prefix : string) : string :=
  let value := TrimPrefix value prefix in
  if value =s= "UNSPECIFIED" then "" else ToLower value.

Definition legacyConformanceStatus (condition : string) : ConformanceStatus :=
  if condition =s= "conforming" then ConformanceStatusConforming
  else if condition =s= "non_conforming" then ConformanceStatusNonConforming
  else if (condition =s= "suspected") || (condition =s= "recovering") then ConformanceStatusContingent
  else ConformanceStatusUnknown.

Definition mergeLiveConformance (durableSummary live : ConformanceSummary) : ConformanceSummary :=
  durableSummary
    <| ConformanceSummary_OperatorID :=
         firstNonEmpty (ConformanceSummary_OperatorID live) (ConformanceSummary_OperatorID durableSummary) |>
    <| ConformanceSummary_FlightID :=
         firstNonEmpty (ConformanceSummary_FlightID live) (ConformanceSummary_FlightID durableSummary) |>
    <| ConformanceSummary_AircraftID :=
         firstNonEmpty (ConformanceSummary_AircraftID live) (ConformanceSummary_AircraftID durableSummary) |>
    <| ConformanceSummary_Status := ConformanceSummary_Status live |>
    <| ConformanceSummary_UpdatedAt :=
         if negb (IsZero (ConformanceSummary_UpdatedAt live)) then ConformanceSummary_UpdatedAt live
         else ConformanceSummary_UpdatedAt durableSummary |>
    <| ConformanceSummary_AssignmentID := ConformanceSummary_AssignmentID live |>
    <| ConformanceSummary_AssignmentGeneration := ConformanceSummary_AssignmentGeneration live |>
    <| ConformanceSummary_EvaluationRevision := ConformanceSummary_EvaluationRevision live |>
    <| ConformanceSummary_EvaluationID := ConformanceSummary_EvaluationID live |>
    <| ConformanceSummary_Condition := ConformanceSummary_Condition live |>
    <| ConformanceSummary_MonitoringStatus := ConformanceSummary_MonitoringStatus live |>
    <| ConformanceSummary_RecordingStatus := ConformanceSummary_RecordingStatus live |>
    <| ConformanceSummary_ObservedAt := ConformanceSummary_ObservedAt live |>
    <| ConformanceSummary_FrameID := ConformanceSummary_FrameID live |>
    <| ConformanceSummary_Violations := ConformanceSummary_Violations live |>.

(** The identifiers of the intents, trimmed, each once, in order. *)
Definition requested_ids (intents : list OperationalIntent) : list string :=
  foldl (λ ids intent,
    let assignmentID := TrimSpace (Intent_ID intent) in
    if (assignmentID =s= "") || bool_decide (assignmentID ∈ ids) then ids else ids ++ [assignmentID]) [] intents.

(** Consecutive batches; [fuel] is as long as the list. *)
Fixpoint batches (fuel : nat) (l : list string) : list (list string) :=
  match fuel, l with
  | S fuel, _ :: _ => take maxConformanceBatch l :: batches fuel (drop maxConformanceBatch l)
  | _, _ => []
  end.

(** [candidate] is at a later cursor than [current]. *)
Definition later_cursor (candidate current : ConformanceSummary) : bool :=
  (ConformanceSummary_AssignmentGeneration current <? ConformanceSummary_AssignmentGeneration candidate)
  || (ConformanceSummary_AssignmentGeneration candidate =? ConformanceSummary_AssignmentGeneration current)
     && (ConformanceSummary_EvaluationRevision current <? ConformanceSummary_EvaluationRevision candidate).

Definition add_live (liveByVersion : gmap string ConformanceSummary) (live : ConformanceSummary)
    : gmap string ConformanceSummary :=
  match liveByVersion !! summary_key live with
  | Some current => if later_cursor live current then <[summary_key live := live]> liveByVersion else liveByVersion
  | None => <[summary_key live := live]> liveByVersion
  end.

(** The loop over the summaries of the store; a live one is used once. *)
Fixpoint overlaid (durableSummaries : list ConformanceSummary) (liveByVersion : gmap string ConformanceSummary)
    : list ConformanceSummary * gmap string ConformanceSummary :=
  match durableSummaries with
  | [] => ([], liveByVersion)
  | durableSummary :: rest =>
      match liveByVersion !! summary_key durableSummary with
      | None => let '(result, left_) := overlaid rest liveByVersion in (durableSummary :: result, left_)
      | Some live =>
          let '(result, left_) := overlaid rest (delete (summary_key durableSummary) liveByVersion) in
          (mergeLiveConformance durableSummary live :: result, left_)
      end
  end.

(** Latest first, then by key. *)
Definition summary_order (a b : ConformanceSummary) : bool :=
  if TimeEqual (ConformanceSummary_UpdatedAt a) (ConformanceSummary_UpdatedAt b)
  then string_lt (summary_key a) (summary_key b)
  else After (ConformanceSummary_UpdatedAt a) (ConformanceSummary_UpdatedAt b).

Section messages.
Context {PL : ProtoLibrary}.

Definition validProtoTime (value : option Timestamp) : option Time :=
  match value with
  | Some t => if Timestamp_CheckValid t then Some (UTC (Timestamp_AsTime t)) else None
  | None => None
  end.

Definition violation_summary (violation : ViolationMessage) : ConformanceViolationSummary :=
  mkConformanceViolationSummary
    (enumJSONName (violation_type_name (ViolationM_ViolationType violation)) "VIOLATION_TYPE_")
    (enumJSONName (incident_phase_name (ViolationM_Phase violation)) "INCIDENT_PHASE_")
    (ViolationM_OpeningFrameId violation) (validProtoTime (ViolationM_OpenedAt violation))
    (validProtoTime (ViolationM_LastObservedAt violation)) (ViolationM_WorstDeviationM violation).

Definition live_summary (summary : SummaryMessage) (assignmentID intentID : string) : ConformanceSummary :=
  let observedAt := validProtoTime (Summary_ObservedAt summary) in
  let condition := enumJSONName (condition_name (Summary_Condition summary)) "CONFORMANCE_CONDITION_" in
  let violations := map violation_summary (omap id (Summary_Violations summary)) in
  zero_ConformanceSummary
    <| ConformanceSummary_ID := Summary_EvaluationId summary |>
    <| ConformanceSummary_OperatorID := Summary_OperatorId summary |>
    <| ConformanceSummary_IntentID := intentID |>
    <| ConformanceSummary_IntentVersion := Summary_IntentVersion summary |>
    <| ConformanceSummary_FlightID := Summary_FlightId summary |>
    <| ConformanceSummary_AircraftID := Summary_AircraftId summary |>
    <| ConformanceSummary_Status := legacyConformanceStatus condition |>
    <| ConformanceSummary_AlertCount := activeViolationCount violations |>
    <| ConformanceSummary_ReportabilityStatus := ReportabilityStatusNo |>
    <| ConformanceSummary_UpdatedAt := default zero_Time observedAt |>
    <| ConformanceSummary_AssignmentID := assignmentID |>
    <| ConformanceSummary_AssignmentGeneration := Summary_AssignmentGeneration summary |>
    <| ConformanceSummary_EvaluationRevision := Summary_EvaluationRevision summary |>
    <| ConformanceSummary_EvaluationID := Summary_EvaluationId summary |>
    <| ConformanceSummary_Condition := condition |>
    <| ConformanceSummary_MonitoringStatus :=
         enumJSONName (monitoring_status_name (Summary_MonitoringStatus summary)) "MONITORING_STATUS_" |>
    <| ConformanceSummary_RecordingStatus :=
         enumJSONName (recording_status_name (Summary_RecordingStatus summary)) "RECORDING_STATUS_" |>
    <| ConformanceSummary_ObservedAt := observedAt |>
    <| ConformanceSummary_FrameID := Summary_FrameId summary |>
    <| ConformanceSummary_Violations := violations |>.

Definition registryConformanceSummary (summary : option SummaryMessage) (requested : list string)
    : option ConformanceSummary :=
  match summary with
  | None => None
  | Some summary =>
      let assignmentID := TrimSpace (Summary_AssignmentId summary) in
      let intentID := TrimSpace (Summary_IntentId summary) in
      if (assignmentID =s= "") || (assignmentID <>s intentID) || (Summary_IntentVersion summary =? 0) then None
      else if negb (bool_decide (assignmentID ∈ requested)) then None
      else Some (live_summary summary assignmentID intentID)
  end.

(** The summary of a projection, which may be absent. *)
Definition projected (requested : list string) (projection : option ConformanceProjection)
    : option ConformanceSummary :=
  registryConformanceSummary (projection ≫= Projection_Summary) requested.

Definition add_projections (requested : list string) (liveByVersion : gmap string ConformanceSummary)
    (projections : list (option ConformanceProjection)) : gmap string ConformanceSummary :=
  foldl add_live liveByVersion (omap (projected requested) projections).

Section overlay.
Context {RT : Runtime}.
Abbreviation program := (prog (apiE fleetE)).

(** The batches asked of the registry; one that fails is left out. *)
Fixpoint ask_registry (requested : list string) (asked : list (list string))
    (liveByVersion : gmap string ConformanceSummary) : program (gmap string ConformanceSummary) :=
  match asked with
  | [] => Ret liveByVersion
  | batch :: asked =>
      let! response := external (BatchGetConformanceSummaries batch) in
      match response with
      | Ok (Some projections) => ask_registry requested asked (add_projections requested liveByVersion projections)
      | _ => ask_registry requested asked liveByVersion
      end
  end.

Definition overlay (durableSummaries : list ConformanceSummary) (liveByVersion : gmap string ConformanceSummary)
    : list ConformanceSummary :=
  if bool_decide (liveByVersion = ∅) then durableSummaries
  else
    let '(result, left_) := overlaid durableSummaries liveByVersion in
    stable_sort summary_order (result ++ range_values left_).

Definition overlayRegistryConformance (registry : bool) (intents : list OperationalIntent)
    (durableSummaries : list ConformanceSummary) : program (list ConformanceSummary) :=
  if negb registry || bool_decide (intents = []) then Ret durableSummaries
  else
    let requested := requested_ids intents in
    match requested with
    | [] => Ret durableSummaries
    | _ =>
        let assignmentIDs := sort_strings requested in
        let! liveByVersion := ask_registry requested (batches (length assignmentIDs) assignmentIDs) ∅ in
        Ret (overlay durableSummaries liveByVersion)
    end.
End overlay.
End messages.
