(* ===== verification/FleetDashboards.v ===== *)
(** * The fleet service: dashboards

    src/internal/service/fleet_service.go: the operations that read the stores
    and answer with a read model. *)

From S2P Require Import Prelude GoRuntime GoRange Domain LiveDomain Errors TelemetryStores Registry Program DurableStore IntentService FleetLive FleetViews.
From stdpp Require Import options.

Section dashboards.
Context {RT : Runtime} {PL : ProtoLibrary} {SCH : Scheduler}.
Context (registryFreshness telemetryFreshness : Duration) (registry : bool).
Abbreviation program := (prog (apiE fleetE)).

(** ** One aircraft *)

Definition activeBattery (aircraftID : string) : program (outcome (option Battery)) :=
  try! installation := durable (Durable.GetActiveBatteryInstallation aircraftID)
    orelse wrap "get active battery installation" in
  match installation with
  | None => Ret (Ok None)
  | Some installation =>
      let! battery := durable (Durable.GetBattery (Installation_BatteryID installation)) in
      Ret (match battery with
           | Ok battery => Ok (Some battery)
           | Err err => if errors_Is err ErrNotFound then Ok None else Err (wrap "get active battery" err)
           end)
  end.

(** Latest planned start first, then latest update. *)
Definition intent_preference (a b : OperationalIntent) : bool :=
  if TimeEqual (Intent_PlannedStartAt a) (Intent_PlannedStartAt b)
  then After (Intent_UpdatedAt a) (Intent_UpdatedAt b)
  else After (Intent_PlannedStartAt a) (Intent_PlannedStartAt b).

Definition intentByStatus (aircraftID : string) (status : IntentStatus)
    : program (outcome (option OperationalIntent)) :=
  try! intents := durable (Durable.ListOperationalIntents aircraftID) orelse wrap "list operational intents" in
  Ret (Ok (head (sort_slice intent_preference (select (λ intent, Intent_Status intent =s= status) intents)))).

Definition activeIntent (aircraftID : string) : program (outcome (option OperationalIntent)) :=
  intentByStatus aircraftID IntentStatusActive.

Definition currentIntent (aircraftID : string) : program (outcome (option OperationalIntent)) :=
  let! active := intentByStatus aircraftID IntentStatusActive in
  match active with
  | Ok None => intentByStatus aircraftID IntentStatusAccepted
  | _ => Ret active
  end.

Definition buildDashboard (aircraft : Aircraft) (live : AircraftLiveState) : program (outcome AircraftDashboard) :=
  try! battery := activeBattery (Aircraft_ID aircraft) orelse id in
  try! maintenanceEvents := durable (Durable.ListMaintenanceEvents (Aircraft_ID aircraft))
    orelse wrap "list maintenance events" in
  let latestTelemetry := legacySample (Aircraft_ID aircraft) (AircraftLive_Telemetry live) in
  let liveAvailable := Live_Connected (AircraftLive_Connection live) in
  try! intent := currentIntent (Aircraft_ID aircraft) orelse id in
  Ret (Ok (mkAircraftDashboard aircraft None battery maintenanceEvents latestTelemetry (AircraftLive_Telemetry live)
             (Some (AircraftLive_Connection live)) liveAvailable
             (CalculateReadiness battery maintenanceEvents liveAvailable) intent)).

(** [s.composeLiveAircraft(ctx, []domain.Aircraft{aircraft})[0]] *)
Definition live_of (aircraft : Aircraft) : program AircraftLiveState :=
  let! states := composeLiveAircraft registryFreshness telemetryFreshness [aircraft] in
  Ret (default (liveAircraftForID [] (Aircraft_ID aircraft)) (head states)).

Definition GetAircraftDashboard (aircraftID : string) : program (outcome AircraftDashboard) :=
  try! aircraft := durable (Durable.GetAircraft aircraftID) orelse wrap "get aircraft" in
  let! live := live_of aircraft in
  buildDashboard aircraft live.

Definition GetAircraftLiveState (aircraftID : string) : program (outcome AircraftLiveState) :=
  try! aircraft := durable (Durable.GetAircraft aircraftID) orelse wrap "get aircraft" in
  let! live := live_of aircraft in
  Ret (Ok live).

(** The loop over the aircraft. *)
Fixpoint build_dashboards (aircraft : list Aircraft) (liveAircraft : list AircraftLiveState)
    : program (outcome (list AircraftDashboard)) :=
  match aircraft with
  | [] => Ret (Ok [])
  | item :: rest =>
      try! dashboard := buildDashboard item (liveAircraftForID liveAircraft (Aircraft_ID item)) orelse id in
      try! dashboards := build_dashboards rest liveAircraft orelse id in
      Ret (Ok (dashboard :: dashboards))
  end.

Definition ListAircraftDashboards : program (outcome (list AircraftDashboard)) :=
  try! aircraft := durable Durable.ListAircraft orelse wrap "list aircraft" in
  let! liveAircraft := composeLiveAircraft registryFreshness telemetryFreshness aircraft in
  build_dashboards aircraft liveAircraft.

(** ** The map view *)

Definition conformanceSummaryForVersion (intent : OperationalIntent) : program (outcome (option ConformanceSummary)) :=
  try! summaries := durable (Durable.ListConformanceSummaries (Intent_ID intent))
    orelse wrap "list conformance summaries" in
  Ret (Ok (List.find (λ summary, (ConformanceSummary_IntentID summary =s= Intent_ID intent)
                                 && (ConformanceSummary_IntentVersion summary =? Intent_Version intent)) summaries)).

Definition event_of_version (intent : OperationalIntent) (event : ConformanceEvent) : bool :=
  (ConformanceEvent_IntentID event =s= Intent_ID intent)
  && (ConformanceEvent_IntentVersion event =? Intent_Version intent).

(** The part of the view that is about the active intent. *)
Definition intent_view (aircraft : Aircraft) (view : AircraftMapView) (intent : OperationalIntent)
    : program (outcome AircraftMapView) :=
  let view := view <| MapView_ActiveIntent := Some intent |> in
  try! volumes := durable (Durable.ListOperationalVolumes (Intent_ID intent))
    orelse wrap "list operational volumes" in
  let view := view <| MapView_OperationalVolumes := volumesForVersion volumes (Intent_Version intent) |> in
  let! mission := durable (Durable.GetDeployedMissionForActiveFlight (Aircraft_ID aircraft) (Intent_ID intent)
                             (Intent_Version intent)) in
  match (match mission with
         | Ok mission => Ok (view <| MapView_CommandedMission := Some mission |>)
         | Err err => if errors_Is err ErrNotFound then Ok view else Err (wrap "get commanded mission" err)
         end) with
  | Err err => Ret (Err err)
  | Ok view =>
      try! summary := conformanceSummaryForVersion intent orelse id in
      let view := view <| MapView_ConformanceSummary := summary |> in
      try! events := durable (Durable.ListConformanceEvents "") orelse wrap "list conformance events" in
      Ret (Ok (view <| MapView_ConformanceEvents := select (event_of_version intent) events |>))
  end.

Definition GetAircraftMapView (aircraftID : string) (limit : Z) : program (outcome AircraftMapView) :=
  try! aircraft := durable (Durable.GetAircraft aircraftID) orelse wrap "get aircraft" in
  let! live := live_of aircraft in
  let latestTelemetry := legacySample (Aircraft_ID aircraft) (AircraftLive_Telemetry live) in
  try! replaySamples := external (OfTelemetry (Telemetry.QueryAircraftSamples (Aircraft_ID aircraft) limit))
    orelse wrap "query aircraft samples" in
  let view := mkAircraftMapView aircraft (Some (AircraftLive_Connection live))
                (Live_Connected (AircraftLive_Connection live)) latestTelemetry (AircraftLive_Telemetry live)
                replaySamples None [] None None [] in
  try! intent := activeIntent (Aircraft_ID aircraft) orelse id in
  match intent with
  | None => Ret (Ok view)
  | Some intent => intent_view aircraft view intent
  end.

(** ** Flights *)

Definition ListFlightRecords (aircraftID : string) : program (outcome (list FlightRecord)) :=
  try! _ := durable (Durable.GetAircraft aircraftID) orelse wrap "get aircraft" in
  try! flights := durable (Durable.ListFlightRecords aircraftID) orelse wrap "list flight records" in
  Ret (Ok flights).

Definition GetFlightRecord (flightID : string) : program (outcome FlightRecord) :=
  try! flight := durable (Durable.GetFlightRecord flightID) orelse wrap "get flight record" in
  Ret (Ok flight).

Definition GetFlightReplay (flightID : string) (limit : Z) : program (outcome ReplayResponse) :=
  try! flight := durable (Durable.GetFlightRecord flightID) orelse wrap "get flight record" in
  try! manifest := external (OfReplay (Replay.GetReplayManifest flightID)) orelse wrap "get replay manifest" in
  try! samples := external (OfTelemetry (Telemetry.QueryFlightSamples flightID limit))
    orelse wrap "query flight samples" in
  try! events := durable (Durable.ListConformanceEvents flightID) orelse wrap "list conformance events" in
  Ret (Ok (mkReplayResponse flight manifest samples events)).

(** ** The dashboards of the fleet *)

Definition GetOverviewDashboard : program (outcome OverviewDashboard) :=
  try! aircraft := ListAircraftDashboards orelse id in
  try! intents := durable (Durable.ListOperationalIntents "") orelse wrap "list operational intents" in
  try! evidence := durable (Durable.ListEvidence "") orelse wrap "list evidence" in
  try! reviews := durable (Durable.ListReportabilityReviews "") orelse wrap "list reportability reviews" in
  Ret (Ok (mkOverviewDashboard (overviewMetrics aircraft intents evidence reviews) aircraft intents evidence reviews)).

Definition GetOperationsDashboard : program (outcome OperationsDashboard) :=
  try! intents := durable (Durable.ListOperationalIntents "") orelse wrap "list operational intents" in
  try! conformance := durable (Durable.ListConformanceSummaries "") orelse wrap "list conformance summaries" in
  let! conformance := overlayRegistryConformance registry intents conformance in
  try! aircraft := durable Durable.ListAircraft orelse wrap "list aircraft" in
  let! liveAircraft := composeLiveAircraft registryFreshness telemetryFreshness aircraft in
  Ret (Ok (mkOperationsDashboard (operationsMetrics intents conformance) intents conformance liveAircraft)).

Definition GetPreflightDashboard : program (outcome PreflightDashboard) :=
  try! checks := durable (Durable.ListPreflightChecks "") orelse wrap "list preflight checks" in
  Ret (Ok (mkPreflightDashboard (preflightMetrics checks) checks)).

Definition GetConformanceDashboard : program (outcome ConformanceDashboard) :=
  try! summaries := durable (Durable.ListConformanceSummaries "") orelse wrap "list conformance summaries" in
  try! events := durable (Durable.ListConformanceEvents "") orelse wrap "list conformance events" in
  try! intents := durable (Durable.ListOperationalIntents "") orelse wrap "list operational intents" in
  let! summaries := overlayRegistryConformance registry intents summaries in
  Ret (Ok (mkConformanceDashboard (conformanceMetrics summaries events) summaries events)).

Definition GetMaintenanceDashboard : program (outcome MaintenanceDashboard) :=
  try! events := durable (Durable.ListMaintenanceEvents "") orelse wrap "list maintenance events" in
  try! batteries := durable Durable.ListBatteries orelse wrap "list batteries" in
  Ret (Ok (mkMaintenanceDashboard (maintenanceMetrics events batteries) events batteries)).

Definition GetRecordsDashboard : program (outcome RecordsDashboard) :=
  try! evidence := durable (Durable.ListEvidence "") orelse wrap "list evidence" in
  try! reviews := durable (Durable.ListReportabilityReviews "") orelse wrap "list reportability reviews" in
  Ret (Ok (mkRecordsDashboard (recordsMetrics evidence reviews) evidence reviews)).
End dashboards.
