(* ===== verification/FleetRuns.v ===== *)
(** * What the live views of the fleet rest on

    Whatever the stores and the registry answer and however the goroutines are
    scheduled: a connection is shown as live, and an aircraft as ready, on the
    evidence of replies of the same request only; and the schedule does not
    change the view. *)

From S2P Require Import Prelude GoRuntime GoStrings GoFloat GoRange Domain LiveDomain Errors TelemetryStores Registry Program DurableStore ProgramLogic IntentService FleetLive FleetViews FleetDashboards.
From stdpp Require Import options.

Abbreviation program := (prog (apiE fleetE)).
Abbreviation history := (list (event (apiE fleetE))).
Abbreviation asked e r := (Event (OfExternal e : apiE fleetE _) r).
Abbreviation stored e r := (Event (OfStore e : apiE fleetE _) r).
Abbreviation clock_read t := (Event (Now : apiE fleetE _) t).

(** ** Agents and placements *)

Lemma agents_by_id_listed listed id agent :
  agents_by_id listed !! id = Some agent → Some agent ∈ listed ∧ Agent_AgentId agent = id.
Proof.
  unfold agents_by_id. induction listed as [|[other|] listed IH] using rev_ind; [done|..]; rewrite foldl_app; cbn;
    rewrite elem_of_app; [|naive_solver].
  destruct (_ <>s _); [|naive_solver]. rewrite lookup_insert_Some, list_elem_of_singleton. naive_solver.
Qed.

Lemma placement_lookups_NoDup agents states : NoDup (placement_lookups agents states).*1.
Proof.
  unfold placement_lookups. eapply sublist_NoDup; [apply (NoDup_seq 0 (length states))|].
  generalize 0%nat as n. induction states as [|state states IH]; intros n; cbn; [constructor|].
  destruct (looked_up agents state); cbn; by constructor.
Qed.

Lemma elem_of_placement_lookups agents states i agentID :
  (i, agentID) ∈ placement_lookups agents states ↔
  ∃ state, states !! i = Some state ∧ looked_up agents state = true ∧ agentID = Live_AgentID state.
Proof.
  unfold placement_lookups. rewrite list_elem_of_omap. split.
  - intros ([j state] & Hin & Hsome). apply list_elem_of_lookup in Hin as [k Hk].
    apply lookup_zip_Some in Hk as [Hj Hstate]. apply lookup_seq in Hj as [-> _].
    destruct (looked_up agents state) eqn:Hl; [|done]. injection Hsome as <- <-. eauto.
  - intros (state & Hstate & Hl & ->). exists (i, state). rewrite Hl. split; [|done].
    apply list_elem_of_lookup. exists i. apply lookup_zip_Some. split; [|done].
    apply lookup_seq. split; [done|]. by eapply lookup_lt_Some.
Qed.

Lemma place_all_length lookups results states : length (place_all lookups results states) = length states.
Proof.
  unfold place_all. generalize (zip lookups results) as l. intros l. revert states.
  induction l as [|[[j agentID] r] l IH]; intros states; cbn; [done|]. by rewrite IH, length_alter.
Qed.

(** The state of an index that was looked up takes its result; the others stay. *)
Lemma place_all_other lookups results states i :
  i ∉ lookups.*1 → place_all lookups results states !! i = states !! i.
Proof.
  unfold place_all. revert results states. induction lookups as [|[j agentID] lookups IH]; intros results states Hi; [done|].
  destruct results as [|r results]; cbn; [done|]. cbn in Hi. rewrite IH by set_solver.
  apply list_lookup_alter_ne. set_solver.
Qed.

Lemma place_all_at lookups results states k i agentID r :
  NoDup lookups.*1 → lookups !! k = Some (i, agentID) → results !! k = Some r →
  place_all lookups results states !! i = placed_state r <$> states !! i.
Proof.
  unfold place_all. revert results states k. induction lookups as [|[j other] lookups IH]; intros results states k Hnd Hk Hr; [done|].
  destruct results as [|r' results]; [done|]. cbn in *. apply NoDup_cons in Hnd as [Hj Hnd].
  destruct k as [|k]; cbn in *.
  - injection Hk as -> ->. injection Hr as ->. fold (place_all lookups results (alter (placed_state r) i states)).
    rewrite place_all_other by done. apply list_lookup_alter_eq.
  - rewrite (IH _ _ k) by done. f_equal. apply list_lookup_alter_ne. intros ->. apply Hj.
    apply list_elem_of_fmap. exists (i, agentID). split; [done|]. by eapply list_elem_of_lookup_2.
Qed.

Lemma heartbeat_connected registryFreshness now agents item :
  Live_Connected (heartbeat_state registryFreshness now agents (unmapped_state item)) = true →
  looked_up agents (unmapped_state item) = true
  ∧ ∃ agent, agents !! Aircraft_AgentID item = Some agent
      ∧ freshAt (unixMillis (Agent_LastHeartbeatUnixMs agent)) now registryFreshness = true.
Proof.
  unfold heartbeat_state, looked_up. cbn. destruct (_ =s= "") eqn:Hid; [done|]. cbn.
  destruct (agents !! _) as [agent|]; cbn; [|done]. destruct (freshAt _ _ _) eqn:Hfresh; [|done]. eauto.
Qed.

Lemma heartbeat_identity registryFreshness now agents state :
  Live_AircraftID (heartbeat_state registryFreshness now agents state) = Live_AircraftID state
  ∧ Live_AgentID (heartbeat_state registryFreshness now agents state) = Live_AgentID state.
Proof. unfold heartbeat_state. repeat (case_match; cbn; try done). Qed.

Lemma placed_identity r state :
  Live_AircraftID (placed_state r state) = Live_AircraftID state
  ∧ Live_AgentID (placed_state r state) = Live_AgentID state.
Proof. unfold placed_state, disconnected. repeat (case_match; cbn; try done). Qed.

Lemma placed_connected r state :
  Live_Connected (placed_state r state) = true →
  Live_Connected state = true ∧ ∃ placement, r = Ok (Some placement) ∧ Placement_RelayId placement ≠ ""
    ∧ Live_RelayID (placed_state r state) = Placement_RelayId placement.
Proof.
  unfold placed_state, disconnected. destruct r as [[placement|]|err]; cbn; [|done..].
  destruct (_ =s= "") eqn:Hrelay; cbn; [done|]. apply String.eqb_neq in Hrelay. eauto 10.
Qed.

(** ** Connections *)

(** Replies that make a connection live: the agent is listed with a heartbeat
    that is fresh now, and its placement names a relay. *)
Definition connection_backed (registryFreshness : Duration) (now : Time) (h : history) (state : LiveAircraftState)
    : Prop :=
  (∃ listed agent, asked ListAgents (Ok listed) ∈ h ∧ Some agent ∈ listed
     ∧ Agent_AgentId agent = Live_AgentID state
     ∧ freshAt (unixMillis (Agent_LastHeartbeatUnixMs agent)) now registryFreshness = true)
  ∧ ∃ placement, asked (GetAgentPlacement (Live_AgentID state)) (Ok (Some placement)) ∈ h
      ∧ Placement_RelayId placement ≠ "" ∧ Live_RelayID state = Placement_RelayId placement.

Lemma connection_backed_mono registryFreshness now h h' state :
  h ⊆ h' → connection_backed registryFreshness now h state → connection_backed registryFreshness now h' state.
Proof. unfold connection_backed. intros Hsub [(listed & agent & Hin & H) (placement & Hin' & H')]. eauto 15. Qed.

(** The state shown for an aircraft is its own, and live only when backed. *)
Definition connection_shown (registryFreshness : Duration) (now : Time) (h : history) (item : Aircraft)
    (state : LiveAircraftState) : Prop :=
  Live_AircraftID state = Aircraft_ID item ∧ Live_AgentID state = Aircraft_AgentID item
  ∧ (Live_Connected state = true → connection_backed registryFreshness now h state).

(** Results of the workers, each the reply to the lookup of its index. *)
Definition replied (lookups : list (nat * string)) (h : history) (index : nat)
    (r : outcome (option AgentPlacement)) : Prop :=
  ∃ k agentID, lookups !! index = Some (k, agentID) ∧ asked (GetAgentPlacement agentID) r ∈ h.

Lemma run_jobs_wp h order lookups results :
  map_Forall (replied lookups h) results →
  wp any_call h (run_jobs order lookups results) (λ h' results', h ⊆ h' ∧ map_Forall (replied lookups h') results').
Proof.
  revert h results. induction order as [|index order IH]; intros h results Hresults; cbn [run_jobs]; [done|].
  destruct (lookups !! index) as [[k agentID]|] eqn:Hindex; [|by apply IH].
  apply wp_call; [done|]. intros r.
  eapply wp_mono; [|apply IH; apply map_Forall_insert_2; [exists k, agentID; set_solver|]].
  - cbn. intros h' results' [Hsub H]. split; [set_solver|done].
  - eapply map_Forall_impl; [exact Hresults|]. intros j r' (k' & agent & Hj & Hin). exists k', agent. set_solver.
Qed.

Section live.
Context {SCH : Scheduler} (registryFreshness telemetryFreshness : Duration).

Lemma lookupPlacements_wp h lookups :
  wp any_call h (lookupPlacements lookups) (λ h' placements, h ⊆ h' ∧ length placements = length lookups
    ∧ ∀ index placement, placements !! index = Some (Ok (Some placement)) →
        replied lookups h' index (Ok (Some placement))).
Proof using Type.
  unfold lookupPlacements. apply wp_bind. eapply wp_mono; [|apply run_jobs_wp, map_Forall_empty].
  intros h' results [Hsub Hresults]. cbn. split; [done|]. split; [by rewrite length_map, length_seq|].
  intros index placement Hindex. apply list_lookup_fmap_Some in Hindex as (j & Hp & Hj).
  apply lookup_seq in Hj as [-> _]. cbn in Hp. destruct (results !! index) as [r|] eqn:Hr; cbn in Hp; [|done]. subst r.
  exact (Hresults _ _ Hr).
Qed.

Lemma placed_shown now (h : history) agents listed placements aircraft i item state :
  let lookups := placement_lookups agents (map unmapped_state aircraft) in
  asked ListAgents (Ok listed) ∈ h → agents = agents_by_id listed → length placements = length lookups →
  (∀ index placement, placements !! index = Some (Ok (Some placement)) →
     replied lookups h index (Ok (Some placement))) →
  aircraft !! i = Some item →
  place_all lookups placements
    (map (heartbeat_state registryFreshness now agents) (map unmapped_state aircraft)) !! i = Some state →
  connection_shown registryFreshness now h item state.
Proof using Type.
  intros lookups Hlisted Hagents Hlength Hreplied Hitem.
  set (before := heartbeat_state registryFreshness now agents (unmapped_state item)).
  assert (map (heartbeat_state registryFreshness now agents) (map unmapped_state aircraft) !! i = Some before) as Hi
    by (by rewrite !list_lookup_fmap, Hitem).
  destruct (heartbeat_identity registryFreshness now agents (unmapped_state item)) as [Hair Hagent].
  destruct (looked_up agents (unmapped_state item)) eqn:Hl.
  - assert ((i, Aircraft_AgentID item) ∈ lookups) as Hin.
    { apply elem_of_placement_lookups. exists (unmapped_state item). split; [|done]. by rewrite list_lookup_fmap, Hitem. }
    apply list_elem_of_lookup in Hin as [k Hk].
    destruct (placements !! k) as [r|] eqn:Hr;
      [|apply lookup_ge_None in Hr; apply lookup_lt_Some in Hk; fold lookups in Hlength; lia].
    rewrite (place_all_at _ _ _ k i (Aircraft_AgentID item) r), Hi by (try done; apply placement_lookups_NoDup).
    intros [= <-]. destruct (placed_identity r before) as [Hpair Hpagent].
    split_and!; [by rewrite Hpair|by rewrite Hpagent|]. intros Hc.
    apply placed_connected in Hc as (Hc & placement & -> & Hrelay & Hid).
    destruct (heartbeat_connected _ _ _ _ Hc) as (_ & agent & Hsome & Hfresh).
    rewrite Hagents in Hsome. apply agents_by_id_listed in Hsome as [Hin Hname].
    assert (Live_AgentID (placed_state (Ok (Some placement)) before) = Aircraft_AgentID item) as Heq by by rewrite Hpagent.
    split; rewrite Heq.
    + exists listed, agent. done.
    + destruct (Hreplied _ _ Hr) as (k' & agentID & Hk' & Hasked). rewrite Hk in Hk'. injection Hk' as <- <-. eauto.
  - rewrite place_all_other, Hi.
    + intros [= <-]. split_and!; [done..|]. intros Hc. apply heartbeat_connected in Hc as [Hc _]. congruence.
    + intros Hin. apply list_elem_of_fmap in Hin as ([j agentID] & -> & Hin). cbn in Hitem.
      apply elem_of_placement_lookups in Hin as (st & Hst & Hl' & _).
      rewrite list_lookup_fmap, Hitem in Hst. injection Hst as <-. congruence.
Qed.

Lemma composeAircraftConnections_wp aircraft now :
  wp any_call [] (composeAircraftConnections registryFreshness aircraft now) (λ h states,
    Forall2 (connection_shown registryFreshness now h) aircraft states).
Proof using Type.
  unfold composeAircraftConnections. destruct (negb _).
  { cbn. apply Forall2_fmap_r, Forall_Forall2_diag, Forall_true. intros item. by split_and!. }
  apply wp_call; [done|]. intros [listed|err].
  - apply wp_bind. eapply wp_mono; [|apply lookupPlacements_wp]. intros h placements (Hsub & Hlength & Hreplied). cbn.
    apply Forall2_same_length_lookup_2; [by rewrite place_all_length, !length_map|].
    intros i item state Hitem Hstate. eapply placed_shown; try done. set_solver.
  - cbn. rewrite map_map. apply Forall2_fmap_r, Forall_Forall2_diag, Forall_true. intros item.
    unfold unavailable_state, compose.
    destruct (negb _); by split_and!.
Qed.

(** ** The whole view *)

Lemma composeAircraftTelemetry_wp aircraftIDs now :
  wp any_call [] (composeAircraftTelemetry telemetryFreshness aircraftIDs now) (λ _ states,
    length states = length aircraftIDs).
Proof using Type. unfold composeAircraftTelemetry. apply wp_call; [done|]. intros r. apply length_map. Qed.

Definition live_shown (now : Time) (h : history) (item : Aircraft) (live : AircraftLiveState) : Prop :=
  AircraftLive_AircraftID live = Aircraft_ID item
  ∧ connection_shown registryFreshness now h item (AircraftLive_Connection live).

Lemma composeLiveAircraft_wp h aircraft :
  wp any_call h (composeLiveAircraft registryFreshness telemetryFreshness aircraft) (λ h' states,
    h ⊆ h' ∧ ∃ t, clock_read t ∈ h' ∧ Forall2 (live_shown (UTC t) h') aircraft states).
Proof using Type.
  unfold composeLiveAircraft. apply wp_now; [done|]. intros t. apply wp_bind.
  eapply wp_mono; [|eapply (wp_par _ [] []);
    [apply composeAircraftConnections_wp|apply composeAircraftTelemetry_wp|set_solver..]].
  intros h' [connections telemetry] (Hsub & own & own_t & Hown & _ & Hconn & Hlen). cbn in *.
  split; [set_solver|]. exists t. split; [set_solver|]. rewrite length_map in Hlen.
  pose proof (Forall2_length _ _ _ Hconn) as Hlength.
  apply Forall2_same_length_lookup_2; [rewrite length_map, !length_zip_with; lia|].
  intros i item live Hitem Hlive. apply list_lookup_fmap_Some in Hlive as ([item' [connection tele]] & -> & Hzip).
  apply lookup_zip_Some in Hzip as [Hitem' Hrest]. rewrite Hitem in Hitem'. injection Hitem' as <-.
  apply lookup_zip_Some in Hrest as [Hconnection _]. split; [done|].
  destruct (Forall2_lookup_lr _ _ _ _ _ _ Hconn Hitem Hconnection) as (Hair & Hagent & Hbacked).
  split_and!; [done..|]. intros Hc. eapply connection_backed_mono; eauto.
Qed.

Lemma live_of_wp h aircraft :
  wp any_call h (live_of registryFreshness telemetryFreshness aircraft) (λ h' live,
    h ⊆ h' ∧ ∃ t, clock_read t ∈ h' ∧ live_shown (UTC t) h' aircraft live).
Proof using Type.
  unfold live_of. apply wp_bind. eapply wp_mono; [|apply composeLiveAircraft_wp].
  intros h' states (Hsub & t & Ht & Hshown). split; [done|]. exists t. split; [done|].
  apply Forall2_cons_inv_l in Hshown as (live & rest & Hlive & _ & ->). exact Hlive.
Qed.

(** ** Readiness *)

Lemma readiness_ready battery maintenanceEvents liveStateAvailable :
  Readiness_Status (CalculateReadiness battery maintenanceEvents liveStateAvailable) = ReadinessStatusReady →
  (∀ event, event ∈ maintenanceEvents → critical_maintenance event = false) ∧ liveStateAvailable = true
  ∧ ∃ b health, battery = Some b ∧ Battery_StateOfHealth b = Some health ∧ f_lt health (float_of_Z 80) = false.
Proof using Type.
  unfold CalculateReadiness. destruct (map _ _) eqn:Hblocked; [|done]. apply map_eq_nil in Hblocked.
  unfold readiness_warnings. destruct battery as [b|]; [|by destruct liveStateAvailable].
  destruct (Battery_StateOfHealth b) as [health|] eqn:Hhealth; [|by destruct liveStateAvailable].
  destruct (f_lt _ _) eqn:Hlt; [by destruct liveStateAvailable|]. destruct liveStateAvailable; [|done]. cbn. intros _.
  split_and!; [|done|eauto 10]. intros event Hin. destruct (critical_maintenance event) eqn:Hc; [|done].
  assert (event ∈ select critical_maintenance maintenanceEvents) as Hsel by by apply elem_of_select.
  rewrite Hblocked in Hsel. by apply not_elem_of_nil in Hsel.
Qed.

(** The replies that make an aircraft ready. *)
Definition ready_backed (h : history) (aircraftID : string) (d : AircraftDashboard) : Prop :=
  let aircraft := Dashboard_Aircraft d in
  stored (Durable.GetAircraft aircraftID) (Ok aircraft) ∈ h
  ∧ (∃ t connection, clock_read t ∈ h ∧ Dashboard_LiveState d = Some connection
       ∧ Live_AgentID connection = Aircraft_AgentID aircraft
       ∧ connection_backed registryFreshness (UTC t) h connection)
  ∧ (∃ installation battery health,
       stored (Durable.GetActiveBatteryInstallation (Aircraft_ID aircraft)) (Ok (Some installation)) ∈ h
       ∧ stored (Durable.GetBattery (Installation_BatteryID installation)) (Ok battery) ∈ h
       ∧ Battery_StateOfHealth battery = Some health ∧ f_lt health (float_of_Z 80) = false)
  ∧ ∃ events, stored (Durable.ListMaintenanceEvents (Aircraft_ID aircraft)) (Ok events) ∈ h
      ∧ ∀ event, event ∈ events → critical_maintenance event = false.

Context {RT : Runtime}.

Lemma activeBattery_wp h aircraftID :
  wp any_call h (activeBattery aircraftID) (λ h' r, h ⊆ h' ∧ ∀ battery, r = Ok (Some battery) →
    ∃ installation, stored (Durable.GetActiveBatteryInstallation aircraftID) (Ok (Some installation)) ∈ h'
      ∧ stored (Durable.GetBattery (Installation_BatteryID installation)) (Ok battery) ∈ h').
Proof using Type.
  unfold activeBattery. apply wp_durable; [done|]. intros [[installation|]|err]; [|cbn; set_solver..].
  apply wp_durable; [done|]. intros [b|err]; cbn; [|destruct (errors_Is _ _); set_solver].
  split; [set_solver|]. intros battery [= ->]. exists installation. set_solver.
Qed.

Lemma currentIntent_wp h aircraftID :
  wp any_call h (currentIntent aircraftID) (λ h' _, h ⊆ h').
Proof using Type.
  unfold currentIntent, intentByStatus. apply wp_bind. apply wp_durable; [done|]. intros [intents|err]; cbn; [|set_solver].
  destruct (head _); cbn; [set_solver|]. split; [done|]. intros [more|err]; cbn; set_solver.
Qed.

Lemma buildDashboard_wp h aircraft live :
  wp any_call h (buildDashboard aircraft live) (λ h' r, h ⊆ h' ∧ ∀ d, r = Ok d →
    Dashboard_Aircraft d = aircraft ∧ Dashboard_LiveState d = Some (AircraftLive_Connection live)
    ∧ (Readiness_Status (Dashboard_Readiness d) = ReadinessStatusReady →
       Live_Connected (AircraftLive_Connection live) = true
       ∧ (∃ installation battery health,
            stored (Durable.GetActiveBatteryInstallation (Aircraft_ID aircraft)) (Ok (Some installation)) ∈ h'
            ∧ stored (Durable.GetBattery (Installation_BatteryID installation)) (Ok battery) ∈ h'
            ∧ Battery_StateOfHealth battery = Some health ∧ f_lt health (float_of_Z 80) = false)
       ∧ ∃ events, stored (Durable.ListMaintenanceEvents (Aircraft_ID aircraft)) (Ok events) ∈ h'
           ∧ ∀ event, event ∈ events → critical_maintenance event = false)).
Proof using Type.
  unfold buildDashboard. apply wp_bind. eapply wp_mono; [|apply activeBattery_wp].
  intros h1 [battery|err] [Hsub1 Hbattery]; [|cbn; split; [done|naive_solver]].
  apply wp_durable; [done|]. intros [events|err]; [|cbn; split; [set_solver|naive_solver]].
  apply wp_bind. eapply wp_mono; [|apply currentIntent_wp].
  intros h2 [intent|err] Hsub2; cbn; (split; [set_solver|]); [|done]. intros d [= <-]. cbn. split_and!; [done..|].
  intros Hready. apply readiness_ready in Hready as (Hevents & Hlive & b & health & -> & Hhealth & Hlt).
  split; [done|]. split.
  - destruct (Hbattery b eq_refl) as (installation & Hinst & Hb). exists installation, b, health. set_solver.
  - exists events. set_solver.
Qed.

(** C23: the dashboard of one aircraft (GetAircraftDashboard) shows it as ready
    only on the evidence of the same request: its record was read; its agent is
    listed with a heartbeat that is fresh by the clock of the request, and its
    placement names a relay; a battery is installed whose state of health is
    known and not below 80; and none of its maintenance events is critical and
    open.  This holds for every reply of the
    stores and the registry, every interleaving of the two goroutines and every
    order of the placement lookups. *)
Theorem ready_aircraft_backed aircraftID :
  wp any_call [] (GetAircraftDashboard registryFreshness telemetryFreshness aircraftID) (λ h r,
    ∀ d, r = Ok d → Readiness_Status (Dashboard_Readiness d) = ReadinessStatusReady → ready_backed h aircraftID d).
Proof using Type.
  unfold GetAircraftDashboard. apply wp_durable; [done|]. intros [aircraft|err]; [|done].
  apply wp_bind. eapply wp_mono; [|apply live_of_wp].
  intros h1 live (Hsub1 & t & Ht & _ & _ & Hagent & Hbacked).
  eapply wp_mono; [|apply buildDashboard_wp]. intros h2 r (Hsub2 & Hr) d Hd Hready.
  destruct (Hr d Hd) as (Haircraft & Hlive & Hr'). destruct (Hr' Hready) as (Hc & Hbattery & Hevents).
  unfold ready_backed. rewrite Haircraft. split_and!; [set_solver| |done..].
  exists t, (AircraftLive_Connection live). split_and!; [set_solver|done..|].
  eapply connection_backed_mono; [exact Hsub2|auto].
Qed.
End live.

(** ** Independence of the schedule *)

Section snapshot.
Context (reply : ∀ X, apiE fleetE X → X).
Context {SCH : Scheduler} (registryFreshness telemetryFreshness : Duration).

(** The view of one aircraft, from the replies about it. *)
Definition connection_of (now : Time) (item : Aircraft) : LiveAircraftState :=
  match reply _ (OfExternal ListAgents) with
  | Err _ => unavailable_state (unmapped_state item)
  | Ok listed =>
      let agents := agents_by_id listed in
      let state := heartbeat_state registryFreshness now agents (unmapped_state item) in
      if looked_up agents (unmapped_state item)
      then placed_state (reply _ (OfExternal (GetAgentPlacement (Aircraft_AgentID item)))) state else state
  end.

Definition telemetry_of (aircraftIDs : list string) (now : Time) (aircraftID : string) : AircraftTelemetryState :=
  match reply _ (OfExternal (OfTelemetry (Telemetry.GetLatestAircraftStates aircraftIDs))) with
  | Err _ => zero_AircraftTelemetryState <| TelemetryState_Status := DataFreshnessUnavailable |>
  | Ok states => applyTelemetryFreshness telemetryFreshness (default zero_AircraftTelemetryState (states !! aircraftID)) now
  end.

Lemma answer_run_jobs order lookups results index :
  answer reply (run_jobs order lookups results) !! index =
  match lookups !! index with
  | Some (_, agentID) =>
      if bool_decide (index ∈ order) then Some (reply _ (OfExternal (GetAgentPlacement agentID))) else results !! index
  | None => results !! index
  end.
Proof using Type.
  revert results. induction order as [|next order IH]; intros results; cbn [run_jobs].
  - cbn. destruct (lookups !! index) as [[k agentID]|]; [|done]. by rewrite bool_decide_eq_false_2 by apply not_elem_of_nil.
  - destruct (lookups !! next) as [[k agentID]|] eqn:Hnext; [rewrite answer_bind; cbn|]; rewrite IH.
    + destruct (decide (index = next)) as [->|Hne].
      * rewrite Hnext, lookup_insert_eq, (bool_decide_eq_true_2 (next ∈ next :: order)) by set_solver.
        by destruct (bool_decide _).
      * rewrite lookup_insert_ne by done. by rewrite (bool_decide_ext (index ∈ next :: order) (index ∈ order)) by set_solver.
    + destruct (decide (index = next)) as [->|Hne]; [by rewrite Hnext|].
      by rewrite (bool_decide_ext (index ∈ next :: order) (index ∈ order)) by set_solver.
Qed.

Lemma answer_lookupPlacements lookups :
  answer reply (lookupPlacements lookups) =
  map (λ '(_, agentID), reply _ (OfExternal (GetAgentPlacement agentID))) lookups.
Proof using Type.
  unfold lookupPlacements. rewrite answer_bind. cbn. apply list_eq. intros i. rewrite !list_lookup_fmap.
  destruct (lookups !! i) as [[k agentID]|] eqn:Hi; cbn.
  - pose proof (lookup_lt_Some _ _ _ Hi) as Hlt. rewrite lookup_seq_lt by done. cbn.
    rewrite answer_run_jobs, Hi, bool_decide_eq_true_2; [done|].
    rewrite job_order_perm. apply elem_of_seq. lia.
  - apply lookup_ge_None in Hi. by rewrite lookup_seq_ge.
Qed.

Lemma answer_connections aircraft now :
  answer reply (composeAircraftConnections registryFreshness aircraft now) = map (connection_of now) aircraft.
Proof using Type.
  unfold composeAircraftConnections. destruct (existsb _ aircraft) eqn:Hmapped; cbn [negb].
  - rewrite answer_bind. cbn. unfold connection_of.
    destruct (reply _ (OfExternal ListAgents)) as [listed|err]; [|cbn; by rewrite map_map].
    rewrite answer_bind, answer_lookupPlacements. cbn. apply list_eq. intros i.
    set (agents := agents_by_id listed). set (lookups := placement_lookups agents (map unmapped_state aircraft)).
    assert (∀ agentID, (i, agentID) ∈ lookups ↔ ∃ item, aircraft !! i = Some item
      ∧ looked_up agents (unmapped_state item) = true ∧ agentID = Aircraft_AgentID item) as Hlookups.
    { intros agentID. unfold lookups. rewrite elem_of_placement_lookups. setoid_rewrite list_lookup_fmap_Some. naive_solver. }
    destruct (decide (i ∈ lookups.*1)) as [Hin|Hin].
    + apply list_elem_of_fmap in Hin as ([i' agentID] & -> & Hin). cbn in *.
      destruct (proj1 (Hlookups agentID) Hin) as (item & Hitem & Hl & ->).
      apply list_elem_of_lookup in Hin as [k Hk].
      erewrite (place_all_at _ _ _ k); [|apply placement_lookups_NoDup|exact Hk|by rewrite list_lookup_fmap, Hk].
      rewrite !list_lookup_fmap, Hitem. cbn. by rewrite Hl.
    + rewrite place_all_other, !list_lookup_fmap by done. destruct (aircraft !! i) as [item|] eqn:Hitem; [|done]. cbn.
      destruct (looked_up agents (unmapped_state item)) eqn:Hl; [|done]. exfalso. apply Hin, list_elem_of_fmap.
      exists (i, Aircraft_AgentID item). split; [done|]. apply Hlookups. eauto.
  - cbn. apply map_ext_in. intros item Hin.
    assert (Aircraft_AgentID item = "") as Hnone.
    { destruct (String.eqb_spec (Aircraft_AgentID item) ""); [done|]. exfalso.
      apply not_true_iff_false in Hmapped. apply Hmapped, existsb_exists. exists item. split; [done|].
      by apply negb_true_iff, String.eqb_neq. }
    unfold connection_of, unavailable_state, heartbeat_state, looked_up. cbn. rewrite Hnone. cbn.
    by destruct (reply _ _).
Qed.

Lemma answer_telemetry aircraftIDs now :
  answer reply (composeAircraftTelemetry telemetryFreshness aircraftIDs now) =
  map (telemetry_of aircraftIDs now) aircraftIDs.
Proof using Type. unfold composeAircraftTelemetry. by rewrite answer_bind. Qed.

(** C40: when the replies of the registry and of the telemetry store depend on
    the request only, the live view of the fleet is the view of each aircraft by
    itself, from the heartbeat and the placement of its own agent and its own
    telemetry: neither the interleaving of the two goroutines nor the order in
    which the workers look placements up changes it, and no result is written to
    another aircraft's state. *)
Theorem live_view_per_aircraft aircraft :
  answer reply (composeLiveAircraft registryFreshness telemetryFreshness aircraft) =
  let t := UTC (reply _ Now) in
  map (λ item, live_aircraft item (connection_of t item) (telemetry_of (map Aircraft_ID aircraft) t (Aircraft_ID item)))
    aircraft.
Proof using Type.
  unfold composeLiveAircraft. rewrite (answer_bind _ now). change (answer reply now) with (reply _ Now). cbv zeta.
  rewrite answer_bind, answer_par, answer_connections, answer_telemetry. cbn.
  apply list_eq. intros i. rewrite !list_lookup_fmap.
  destruct (zip aircraft _ !! i) as [[item [c tele]]|] eqn:Hzip; cbn.
  - apply lookup_zip_Some in Hzip as [Hitem Hrest]. apply lookup_zip_Some in Hrest as [Hc Ht].
    rewrite list_lookup_fmap, Hitem in Hc. rewrite !list_lookup_fmap, Hitem in Ht.
    injection Hc as <-. injection Ht as <-. by rewrite Hitem.
  - apply lookup_ge_None in Hzip. rewrite !length_zip_with, !length_map in Hzip.
    rewrite (lookup_ge_None_2 aircraft i) by lia. done.
Qed.
End snapshot.
