(* ===== verification/FleetOverlay.v ===== *)
(** * What the conformance dashboard shows

    The live assessments of the registry over the summaries of the store: no
    summary is lost, every accepted assessment is shown or a later one of its
    version, and every intent was asked about, whatever the replies are. *)

From S2P Require Import Prelude GoRuntime GoStrings GoRange Domain LiveDomain Errors TelemetryStores Registry Program DurableStore ProgramLogic IntentService FleetLive FleetViews FleetDashboards FleetRuns.
From stdpp Require Import options.

(** ** Order *)

Lemma summary_order_weak : strict_weak summary_order.
Proof.
  destruct (by_Z_then_weak (λ s, - ConformanceSummary_UpdatedAt s) _ (by_string_weak summary_key)) as [I T S].
  assert (∀ a b, summary_order a b = by_Z_then (λ s, - ConformanceSummary_UpdatedAt s) (by_string summary_key) a b) as Heq.
  { intros a b. unfold summary_order, by_Z_then, by_string, TimeEqual, After.
    destruct (Z.eqb_spec (ConformanceSummary_UpdatedAt a) (ConformanceSummary_UpdatedAt b)) as [->|Hne].
    - by rewrite Z.eqb_refl.
    - rewrite (proj2 (Z.eqb_neq (- _) _)) by lia. lia. }
  split; intros; rewrite ?Heq in *; eauto.
Qed.

Lemma later_cursor_trans live current shown :
  later_cursor live current = false → later_cursor shown current = true → later_cursor live shown = false.
Proof. unfold later_cursor. lia. Qed.

(** ** The latest assessment of every version *)

Section accepted.
Context {PL : ProtoLibrary} (requested : list string).

(** An assessment that the registry has reported and the service accepts. *)
Definition reported (h : history) (live : ConformanceSummary) : Prop :=
  ∃ batch projections projection,
    asked (BatchGetConformanceSummaries batch) (Ok (Some projections)) ∈ h ∧ projection ∈ projections
    ∧ projected requested projection = Some live.

(** The map holds, for every version reported, a latest assessment of it. *)
Definition holds_latest (h : history) (liveByVersion : gmap string ConformanceSummary) : Prop :=
  map_Forall (λ key current, summary_key current = key ∧ reported h current) liveByVersion
  ∧ ∀ live, reported h live →
      ∃ current, liveByVersion !! summary_key live = Some current ∧ later_cursor live current = false.

Lemma add_live_spec liveByVersion live :
  (∃ current, add_live liveByVersion live !! summary_key live = Some current ∧ later_cursor live current = false)
  ∧ ∀ key current, liveByVersion !! key = Some current →
      ∃ current', add_live liveByVersion live !! key = Some current'
        ∧ (current' = current ∨ current' = live ∧ later_cursor live current = true).
Proof using Type.
  unfold add_live. destruct (liveByVersion !! summary_key live) as [current|] eqn:Hcurrent.
  - destruct (later_cursor live current) eqn:Hlater.
    + split; [exists live; split; [apply lookup_insert_eq|unfold later_cursor; lia]|].
      intros key other Hother. destruct (decide (key = summary_key live)) as [->|Hne].
      * exists live. rewrite lookup_insert_eq. split; [done|]. right. rewrite Hcurrent in Hother. by injection Hother as <-.
      * exists other. rewrite lookup_insert_ne by done. auto.
    + split; [by exists current|]. intros key other Hother. exists other. auto.
  - split; [exists live; split; [apply lookup_insert_eq|unfold later_cursor; lia]|].
    intros key other Hother. exists other. rewrite lookup_insert_ne by congruence. auto.
Qed.

Lemma add_live_inv liveByVersion live key current :
  add_live liveByVersion live !! key = Some current →
  liveByVersion !! key = Some current ∨ key = summary_key live ∧ current = live.
Proof using Type.
  unfold add_live. destruct (liveByVersion !! summary_key live) as [other|]; [destruct (later_cursor live other)|];
    rewrite ?lookup_insert_Some; naive_solver.
Qed.

(** After the loop over assessments [l] the map holds one that is at least as
    late as each of them and as each it held before. *)
Lemma add_all_spec l liveByVersion :
  let result := foldl add_live liveByVersion l in
  (∀ key current, result !! key = Some current →
     liveByVersion !! key = Some current ∨ key = summary_key current ∧ current ∈ l)
  ∧ (∀ live, live ∈ l → ∃ current, result !! summary_key live = Some current ∧ later_cursor live current = false)
  ∧ ∀ key live current, liveByVersion !! key = Some current → later_cursor live current = false →
      ∃ current', result !! key = Some current' ∧ later_cursor live current' = false.
Proof using Type.
  revert liveByVersion. induction l as [|x l IH]; intros liveByVersion; cbn.
  { split_and!; [auto|set_solver|eauto]. }
  destruct (IH (add_live liveByVersion x)) as (Hinv & Hin & Hkept).
  destruct (add_live_spec liveByVersion x) as [(c & Hc & Hlate) Hstep]. split_and!.
  - intros key current H. destruct (Hinv _ _ H) as [H'|[-> H']]; [|set_solver].
    destruct (add_live_inv _ _ _ _ H') as [?|[-> ->]]; set_solver.
  - intros live Hlive. apply elem_of_cons in Hlive as [->|Hlive]; [|by apply Hin]. by apply (Hkept _ _ c).
  - intros key live current Hcurrent Hlater. destruct (Hstep _ _ Hcurrent) as (current' & Hcurrent' & Hor).
    apply (Hkept _ _ current' Hcurrent'). destruct Hor as [->|[-> Hx]]; [done|]. by eapply later_cursor_trans.
Qed.

(** The batch and the reply of an event, if it is of this kind. *)
Definition batch_reply (v : event (apiE fleetE))
    : option (list string * outcome (option (list (option ConformanceProjection)))) :=
  match v with
  | Event e x =>
      match e in apiE _ X return X → option (list string * outcome (option (list (option ConformanceProjection)))) with
      | OfExternal e =>
          match e in fleetE X return X → option (list string * outcome (option (list (option ConformanceProjection)))) with
          | BatchGetConformanceSummaries batch => λ r, Some (batch, r)
          | _ => λ _, None
          end
      | _ => λ _, None
      end x
  end.

Lemma reported_cons h batch r live :
  reported (asked (BatchGetConformanceSummaries batch) r :: h) live ↔
  reported h live ∨ ∃ projections, r = Ok (Some projections) ∧ live ∈ omap (projected requested) projections.
Proof using Type.
  unfold reported. setoid_rewrite elem_of_cons. setoid_rewrite list_elem_of_omap. split.
  - intros (b & ps & p & [Heq|Hin] & Hp & Hproj); [|by left; eauto 10].
    apply (f_equal batch_reply) in Heq. injection Heq as _ <-. right. eauto 10.
  - intros [(b & ps & p & Hin & Hp & Hproj)|(ps & -> & p & Hp & Hproj)]; eauto 15.
Qed.

Lemma holds_latest_add h liveByVersion batch projections :
  holds_latest h liveByVersion →
  holds_latest (asked (BatchGetConformanceSummaries batch) (Ok (Some projections)) :: h)
    (add_projections requested liveByVersion projections).
Proof using Type.
  intros [Hback Hcover]. unfold add_projections.
  destruct (add_all_spec (omap (projected requested) projections) liveByVersion) as (Hinv & Hin & Hkept). split.
  - intros key current Hcurrent. rewrite reported_cons. destruct (Hinv _ _ Hcurrent) as [H|[-> H]].
    + destruct (Hback _ _ H). auto.
    + split; [done|]. right. eauto.
  - intros live Hlive. apply reported_cons in Hlive as [Hlive|(ps & [= <-] & Hlive)]; [|by apply Hin].
    destruct (Hcover _ Hlive) as (current & Hcurrent & Hlater). by apply (Hkept _ _ current).
Qed.

Lemma holds_latest_failed h liveByVersion batch r :
  (∀ projections, r ≠ Ok (Some projections)) → holds_latest h liveByVersion →
  holds_latest (asked (BatchGetConformanceSummaries batch) r :: h) liveByVersion.
Proof using Type.
  intros Hr [Hback Hcover]. split.
  - intros key current Hcurrent. destruct (Hback _ _ Hcurrent). rewrite reported_cons. auto.
  - intros live [Hlive|(projections & -> & _)]%reported_cons; [by apply Hcover|by destruct (Hr projections)].
Qed.

Lemma ask_registry_wp h batches_ liveByVersion :
  holds_latest h liveByVersion →
  wp any_call h (ask_registry requested batches_ liveByVersion) (λ h' liveByVersion', h ⊆ h' ∧ holds_latest h' liveByVersion'
    ∧ ∀ batch, batch ∈ batches_ → ∃ r, asked (BatchGetConformanceSummaries batch) r ∈ h').
Proof using Type.
  revert h liveByVersion. induction batches_ as [|batch rest IH]; intros h liveByVersion Hholds; cbn [ask_registry].
  { cbn. set_solver. }
  apply wp_call; [done|]. intros r.
  assert (∀ liveByVersion', holds_latest (asked (BatchGetConformanceSummaries batch) r :: h) liveByVersion' →
    wp any_call (asked (BatchGetConformanceSummaries batch) r :: h) (ask_registry requested rest liveByVersion')
      (λ h' m, h ⊆ h' ∧ holds_latest h' m ∧ ∀ b, b ∈ batch :: rest →
         ∃ r, asked (BatchGetConformanceSummaries b) r ∈ h')) as Hrest.
  { intros m Hm. eapply wp_mono; [|by apply IH]. intros h' m' (Hsub & Hm' & Hasked). split_and!; [set_solver|done|].
    intros b [->|Hb]%elem_of_cons; [exists r; set_solver|auto]. }
  destruct r as [[projections|]|err]; apply Hrest; [by apply holds_latest_add|by apply holds_latest_failed..].
Qed.
End accepted.

(** ** The overlay *)

Lemma summary_key_merge d live : summary_key (mergeLiveConformance d live) = summary_key d.
Proof. done. Qed.

Lemma overlaid_spec durableSummaries liveByVersion result left_ :
  overlaid durableSummaries liveByVersion = (result, left_) →
  Forall2 (λ d s, s = d ∨ ∃ live, liveByVersion !! summary_key d = Some live ∧ s = mergeLiveConformance d live)
    durableSummaries result
  ∧ (∀ key live, left_ !! key = Some live → liveByVersion !! key = Some live ∧ key ∉ map summary_key durableSummaries)
  ∧ ∀ key live, liveByVersion !! key = Some live →
      left_ !! key = Some live ∨ ∃ d, d ∈ durableSummaries ∧ key = summary_key d ∧ mergeLiveConformance d live ∈ result.
Proof.
  revert liveByVersion result left_. induction durableSummaries as [|d rest IH]; intros liveByVersion result left_; cbn.
  { intros [= <- <-]. split_and!; [constructor|set_solver|auto]. }
  destruct (liveByVersion !! summary_key d) as [live|] eqn:Hlive.
  - destruct (overlaid rest (delete (summary_key d) liveByVersion)) as [result' left'] eqn:Hrest.
    intros [= <- <-]. destruct (IH _ _ _ Hrest) as (Hall & Hleft & Hlost). split_and!.
    + constructor; [eauto|]. eapply Forall2_impl; [exact Hall|].
      intros d' s [->|(l & Hl & ->)]; [auto|]. apply lookup_delete_Some in Hl as [_ Hl]. eauto.
    + intros key l Hl. destruct (Hleft _ _ Hl) as [Hl' Hnot]. apply lookup_delete_Some in Hl' as [Hne Hl'].
      split; [done|]. rewrite elem_of_cons. naive_solver.
    + intros key l Hl. destruct (decide (key = summary_key d)) as [->|Hne].
      * right. exists d. rewrite Hlive in Hl. injection Hl as <-. set_solver.
      * destruct (Hlost key l) as [?|(d' & Hd' & -> & Hin)]; [by rewrite lookup_delete_ne|auto|]. right. set_solver.
  - destruct (overlaid rest liveByVersion) as [result' left'] eqn:Hrest.
    intros [= <- <-]. destruct (IH _ _ _ Hrest) as (Hall & Hleft & Hlost). split_and!.
    + constructor; [auto|done].
    + intros key l Hl. destruct (Hleft _ _ Hl) as [Hl' Hnot]. split; [done|]. rewrite elem_of_cons. naive_solver.
    + intros key l Hl. destruct (Hlost key l Hl) as [?|(d' & Hd' & -> & Hin)]; [auto|]. right. set_solver.
Qed.

(** What of a summary of the store no assessment changes: its identity, its
    score, its alerts and its reportability. *)
Definition kept_part (s : ConformanceSummary) : string * string * option float64 * Z * ReportabilityStatus :=
  (ConformanceSummary_ID s, summary_key s, ConformanceSummary_Score s, ConformanceSummary_AlertCount s,
   ConformanceSummary_ReportabilityStatus s).

(** The live assessment shown over a summary of the store, field by field:
    everything assessed is the live one's, what only the store knows is the
    store's, and what a live assessment may leave out is the store's where it
    does. *)
Record shown_over (d live s : ConformanceSummary) : Prop := {
  over_status : ConformanceSummary_Status s = ConformanceSummary_Status live;
  over_assignment : ConformanceSummary_AssignmentID s = ConformanceSummary_AssignmentID live;
  over_cursor : ConformanceSummary_AssignmentGeneration s = ConformanceSummary_AssignmentGeneration live
    ∧ ConformanceSummary_EvaluationRevision s = ConformanceSummary_EvaluationRevision live;
  over_evaluation : ConformanceSummary_EvaluationID s = ConformanceSummary_EvaluationID live;
  over_condition : ConformanceSummary_Condition s = ConformanceSummary_Condition live;
  over_monitoring : ConformanceSummary_MonitoringStatus s = ConformanceSummary_MonitoringStatus live;
  over_recording : ConformanceSummary_RecordingStatus s = ConformanceSummary_RecordingStatus live;
  over_observed : ConformanceSummary_ObservedAt s = ConformanceSummary_ObservedAt live;
  over_frame : ConformanceSummary_FrameID s = ConformanceSummary_FrameID live;
  over_violations : ConformanceSummary_Violations s = ConformanceSummary_Violations live;
  over_operator : ConformanceSummary_OperatorID s = ConformanceSummary_OperatorID live
    ∨ ConformanceSummary_OperatorID live = "" ∧ ConformanceSummary_OperatorID s = ConformanceSummary_OperatorID d;
  over_flight : ConformanceSummary_FlightID s = ConformanceSummary_FlightID live
    ∨ ConformanceSummary_FlightID live = "" ∧ ConformanceSummary_FlightID s = ConformanceSummary_FlightID d;
  over_aircraft : ConformanceSummary_AircraftID s = ConformanceSummary_AircraftID live
    ∨ ConformanceSummary_AircraftID live = "" ∧ ConformanceSummary_AircraftID s = ConformanceSummary_AircraftID d;
  over_updated : ConformanceSummary_UpdatedAt s = ConformanceSummary_UpdatedAt live
    ∨ IsZero (ConformanceSummary_UpdatedAt live) ∧ ConformanceSummary_UpdatedAt s = ConformanceSummary_UpdatedAt d;
  over_kept : kept_part s = kept_part d;
  over_version : ConformanceSummary_IntentID s = ConformanceSummary_IntentID d
    ∧ ConformanceSummary_IntentVersion s = ConformanceSummary_IntentVersion d;
}.

(** What is shown of a live assessment: it, when the store has no summary of the
    version, else it over one. *)
Definition shown_live (durableSummaries : list ConformanceSummary) (live s : ConformanceSummary) : Prop :=
  (s = live ∧ summary_key live ∉ map summary_key durableSummaries)
  ∨ ∃ d, d ∈ durableSummaries ∧ summary_key d = summary_key live ∧ shown_over d live s.

Lemma firstNonEmpty_spec a b : firstNonEmpty a b = a ∨ a = "" ∧ firstNonEmpty a b = b.
Proof. unfold firstNonEmpty. destruct (String.eqb_spec a "") as [->|]; cbn; auto. Qed.

Lemma merge_shown d live : shown_over d live (mergeLiveConformance d live).
Proof.
  split; try done; try apply firstNonEmpty_spec. cbn. destruct (IsZero (ConformanceSummary_UpdatedAt live)); cbn; auto.
Qed.

(** The summaries shown for those of the store and the latest assessments. *)
Record overlay_shows (durableSummaries : list ConformanceSummary) (liveByVersion : gmap string ConformanceSummary)
    (shown : list ConformanceSummary) : Prop := {
  shows_durable : map kept_part durableSummaries ⊆+ map kept_part shown;
  shows_live key live : liveByVersion !! key = Some live →
    ∃ s, s ∈ shown ∧ summary_key s = key ∧ shown_live durableSummaries live s;
  shows_only s : s ∈ shown →
    s ∈ durableSummaries ∨ ∃ live, liveByVersion !! summary_key s = Some live
      ∧ shown_live durableSummaries live s;
  shows_once : NoDup (map summary_key durableSummaries) → NoDup (map summary_key shown);
  shows_sorted : liveByVersion ≠ ∅ → StronglySorted (not_after summary_order) shown;
}.

Lemma overlay_spec {RT : Runtime} durableSummaries liveByVersion :
  map_Forall (λ key live, summary_key live = key) liveByVersion →
  overlay_shows durableSummaries liveByVersion (overlay durableSummaries liveByVersion).
Proof.
  intros Hkeys. unfold overlay. destruct (bool_decide_reflect (liveByVersion = ∅)) as [->|Hne].
  { split; [done|by intros key live H|auto|done|done]. }
  destruct (overlaid durableSummaries liveByVersion) as [result left_] eqn:Hov.
  destruct (overlaid_spec _ _ _ _ Hov) as (Hall & Hleft & Hlost).
  pose proof (stable_sort_perm summary_order (result ++ range_values left_)) as Hperm.
  set (shown := stable_sort summary_order (result ++ range_values left_)) in *.
  assert (∀ s, s ∈ shown ↔ s ∈ result ∨ ∃ key, left_ !! key = Some s) as Hshown.
  { intros s. rewrite Hperm, elem_of_app, elem_of_range_values. done. }
  assert (map summary_key result = map summary_key durableSummaries) as Hsame.
  { symmetry. apply list_eq_Forall2, Forall2_fmap. eapply Forall2_impl; [exact Hall|].
    intros d s [->|(live & _ & ->)]; [done|]. by rewrite summary_key_merge. }
  assert (map kept_part result = map kept_part durableSummaries) as Hkept.
  { symmetry. apply list_eq_Forall2, Forall2_fmap. eapply Forall2_impl; [exact Hall|].
    intros d s [->|(live & _ & ->)]; done. }
  split.
  - rewrite Hperm, map_app, Hkept. by apply submseteq_inserts_r.
  - intros key live Hlive. destruct (Hlost _ _ Hlive) as [Hl|(d & Hd & -> & Hin)].
    + exists live. pose proof (proj2 (Hleft _ _ Hl)). split_and!; [apply Hshown; eauto|exact (Hkeys _ _ Hlive)|]. left. by rewrite (Hkeys _ _ Hlive).
    + exists (mergeLiveConformance d live). split_and!; [apply Hshown; auto|done|]. right. exists d. split_and!; [done| |apply merge_shown]. by rewrite (Hkeys _ _ Hlive).
  - intros s [Hs|[key Hs]]%Hshown.
    + apply list_elem_of_lookup in Hs as [i Hi]. destruct (Forall2_lookup_r _ _ _ _ _ Hall Hi) as (d & Hd & Hor).
      apply list_elem_of_lookup_2 in Hd. destruct Hor as [->|(live & Hlive & ->)]; [auto|]. right. exists live. split; [done|]. right. exists d.
      split_and!; [done| |apply merge_shown]. by rewrite (Hkeys _ _ Hlive).
    + right. destruct (Hleft _ _ Hs) as [Hl Hnot]. exists s. rewrite (Hkeys _ _ Hl). split; [done|]. left. by rewrite (Hkeys _ _ Hl).
  - intros Hnd. rewrite Hperm, map_app, Hsame. apply NoDup_app. split_and!; [done| |].
    + intros key Hin (s & -> & Hs)%list_elem_of_fmap. apply elem_of_range_values in Hs as [key Hs].
      destruct (Hleft _ _ Hs) as [Hl Hnot]. rewrite (Hkeys _ _ Hl) in Hin. done.
    + unfold range_values. assert (map summary_key (map_range left_).*2 = (map_range left_).*1) as ->.
      { transitivity (map (λ p, summary_key p.2) (map_range left_)); [apply (map_map snd summary_key)|].
        apply map_ext_in. intros [key s] Hin.
        apply list_elem_of_In, elem_of_range in Hin. destruct (Hleft _ _ Hin) as [Hl _]. exact (Hkeys _ _ Hl). }
      apply NoDup_range.
  - intros _. apply stable_sort_sorted, summary_order_weak.
Qed.

(** ** The requests *)

Lemma elem_of_requested_ids intents id :
  id ∈ requested_ids intents ↔ id ≠ "" ∧ ∃ intent, intent ∈ intents ∧ id = TrimSpace (Intent_ID intent).
Proof.
  unfold requested_ids. induction intents as [|intent intents IH] using rev_ind; [cbn; set_solver|].
  rewrite foldl_app. cbn. set (ids := foldl _ [] intents) in *. setoid_rewrite elem_of_app.
  setoid_rewrite list_elem_of_singleton. destruct (String.eqb_spec (TrimSpace (Intent_ID intent)) "") as [Hnil|Hnil]; cbn.
  - rewrite IH. naive_solver.
  - destruct (bool_decide_reflect (TrimSpace (Intent_ID intent) ∈ ids)) as [Hin|Hin].
    + rewrite IH. split; [naive_solver|]. intros [Hne (i & [Hi| ->] & ->)]; [naive_solver|]. by apply IH.
    + rewrite elem_of_app, list_elem_of_singleton, IH. naive_solver.
Qed.

(** The batches are not empty, not too long, and cover the list. *)
Lemma batches_cover fuel l id :
  (length l ≤ fuel)%nat → id ∈ l →
  ∃ batch, batch ∈ batches fuel l ∧ id ∈ batch ∧ (0 < length batch ≤ maxConformanceBatch)%nat.
Proof.
  revert l. induction fuel as [|fuel IH]; intros l Hlen Hin; destruct l as [|x l]; try (by apply not_elem_of_nil in Hin).
  { cbn in Hlen. lia. }
  cbn [batches]. set (all := x :: l) in *. rewrite <- (take_drop maxConformanceBatch all) in Hin.
  apply elem_of_app in Hin as [Hin|Hin].
  - exists (take maxConformanceBatch all). split_and!; [by left|done|rewrite length_take; subst all; cbn [length]; unfold maxConformanceBatch; lia..].
  - destruct (IH (drop maxConformanceBatch all)) as (batch & Hb & H); [rewrite length_drop; subst all; cbn [length] in *; unfold maxConformanceBatch; lia|done|].
    exists batch. split; [by right|done].
Qed.

Section dashboard.
Context {RT : Runtime} {PL : ProtoLibrary}.

Lemma holds_latest_none requested h :
  (∀ live, ¬ reported requested h live) → holds_latest requested h ∅.
Proof using Type. intros Hnone. split; [apply map_Forall_empty|]. intros live Hlive. by destruct (Hnone live). Qed.

Lemma overlayRegistryConformance_wp registry intents durableSummaries h :
  (∀ live, ¬ reported (requested_ids intents) h live) →
  wp any_call h (overlayRegistryConformance registry intents durableSummaries) (λ h' shown, h ⊆ h' ∧
    ∃ liveByVersion, holds_latest (requested_ids intents) h' liveByVersion
      ∧ overlay_shows durableSummaries liveByVersion shown
      ∧ (registry = true → ∀ id, id ∈ requested_ids intents →
           ∃ batch r, asked (BatchGetConformanceSummaries batch) r ∈ h' ∧ id ∈ batch
             ∧ (0 < length batch ≤ maxConformanceBatch)%nat)).
Proof using Type.
  intros Hnone. unfold overlayRegistryConformance.
  assert (holds_latest (requested_ids intents) h ∅) as Hempty by by apply holds_latest_none.
  assert (overlay_shows durableSummaries ∅ durableSummaries) as Hunchanged
    by (change durableSummaries with (overlay durableSummaries ∅) at 2; apply overlay_spec, map_Forall_empty).
  destruct (negb registry || bool_decide (intents = [])) eqn:Hoff.
  { cbn. split; [done|]. exists ∅. split_and!; [done..|].
    intros -> id Hid. cbn in Hoff. apply bool_decide_eq_true in Hoff as ->. by apply not_elem_of_nil in Hid. }
  cbv zeta. destruct (requested_ids intents) as [|first rest] eqn:Hrequested.
  { cbn. split; [done|]. exists ∅. split_and!; [done..|]. intros _ id Hid. by apply not_elem_of_nil in Hid. }
  rewrite <- Hrequested in *. apply wp_bind. eapply wp_mono; [|by apply ask_registry_wp].
  intros h' liveByVersion (Hsub & Hholds & Hasked). cbn. split; [done|]. exists liveByVersion. split_and!; [done| |].
  - apply overlay_spec. intros key live Hlive. by destruct (proj1 Hholds _ _ Hlive).
  - intros _ id Hid. destruct (batches_cover (length (sort_strings (requested_ids intents))) (sort_strings (requested_ids intents)) id)
      as (batch & Hb & Hin & Hlen); [done|by unfold sort_strings; rewrite sort_slice_perm|].
    destruct (Hasked _ Hb) as [r Hr]. eauto 10.
Qed.

End dashboard.
