(* ===== verification/Conformance.v ===== *)
(** * The conformance service

    src/internal/service/conformance_service.go: a telemetry sample against the
    volumes of the intent, the events and summaries that follow from it; and
    src/internal/service/conformance_history.go: the history kept outside. *)

From S2P Require Import Prelude GoRuntime GoStrings GoFloat GoJson GoRange Domain LiveDomain Errors TelemetryStores Registry Program MemorySpatial DurableStore ProgramLogic IntentService FleetLive FleetViews FleetDashboards FleetRuns.
From stdpp Require Import options.

Record ConformanceEvaluation : Set := mkConformanceEvaluation {
  Evaluation_Intent : OperationalIntent;
  Evaluation_Summary : ConformanceSummary;
  Evaluation_Events : list ConformanceEvent;
}.

(** ** A point in a polygon *)

(** One round of the loop over the vertices; [j] is the vertex before [i], and a
    vertex without two coordinates is passed over. *)
Definition ring_step (lon lat : float64) (state : bool * list float64) (i : list float64) : bool * list float64 :=
  let '(inside, j) := state in
  match i, j with
  | xi :: yi :: _, xj :: yj :: _ =>
      (if crosses (mkPoint lon lat) (mkPoint xi yi) (mkPoint xj yj) then negb inside else inside, i)
  | _, _ => (inside, i)
  end.

Definition pointInRing (lon lat : float64) (ring : list (list float64)) : bool :=
  if (length ring <? 3)%nat then false
  else (foldl (ring_step lon lat) (false, default [] (last ring)) ring).1.

(** The coordinates of the polygon of a GeoJSON text. *)
Definition polygon_coordinates (raw : string) : option json :=
  match object_members (json_value raw) with
  | None => None
  | Some payload =>
      match string_field payload "type" with
      | None => None
      | Some type =>
          if type =s= "Feature" then
            match object_members (raw_field payload "geometry") with
            | None => None
            | Some geometry =>
                match string_field geometry "type" with
                | None => None
                | Some type => if type <>s "Polygon" then None else raw_field geometry "coordinates"
                end
            end
          else if type <>s "Polygon" then None
          else raw_field payload "coordinates"
      end
  end.

Definition pointInGeoJSONPolygon (lon lat : float64) (raw : string) : bool :=
  match polygon_coordinates raw ≫= decode_slice (decode_slice (decode_slice decode_float)) with
  | None | Some [] => false
  | Some (exterior :: holes) =>
      if negb (pointInRing lon lat exterior) then false
      else negb (existsb (pointInRing lon lat) holes)
  end.

Definition sampleInsideVolume (sample : TelemetrySample) (volume : OperationalVolume) : bool :=
  if Before (Sample_RecordedAt sample) (Volume_StartsAt volume)
     || After (Sample_RecordedAt sample) (Volume_EndsAt volume) then false
  else if f_lt (Sample_AltitudeM sample) (Volume_MinAltitudeM volume)
          || f_lt (Volume_MaxAltitudeM volume) (Sample_AltitudeM sample) then false
  else if Volume_GeoJSON volume =s= "" then false
  else pointInGeoJSONPolygon (Sample_Longitude sample) (Sample_Latitude sample) (Volume_GeoJSON volume).

Definition conformanceEventID (sample : TelemetrySample) (intent : OperationalIntent) : string :=
  if Sample_ID sample <>s "" then "conformance-event-" +:+ Sample_ID sample +:+ "-intent-exit"
  else "conformance-event-" +:+ Intent_ID intent +:+ "-" +:+ Itoa (UnixNano (UTC (Sample_RecordedAt sample)))
         +:+ "-intent-exit".

(** The loop over the volumes: the volume expected, and whether the sample is
    inside of it. *)
Fixpoint expected_volume (sample : TelemetrySample) (expectedVolumeID : string) (volumes : list OperationalVolume)
    : string * bool :=
  match volumes with
  | [] => (expectedVolumeID, false)
  | volume :: rest =>
      let expectedVolumeID := if expectedVolumeID =s= "" then Volume_ID volume else expectedVolumeID in
      if sampleInsideVolume sample volume then (Volume_ID volume, true)
      else expected_volume sample expectedVolumeID rest
  end.

Definition exit_event (sample : TelemetrySample) (intent : OperationalIntent) (expectedVolumeID : string)
    : ConformanceEvent :=
  zero_ConformanceEvent
    <| ConformanceEvent_ID := conformanceEventID sample intent |>
    <| ConformanceEvent_OperatorID := Intent_OperatorID intent |>
    <| ConformanceEvent_IntentID := Intent_ID intent |>
    <| ConformanceEvent_IntentVersion := Intent_Version intent |>
    <| ConformanceEvent_FlightID := Sample_FlightID sample |>
    <| ConformanceEvent_AircraftID := Sample_AircraftID sample |>
    <| ConformanceEvent_Severity := SeverityWarning |>
    <| ConformanceEvent_EventCode := ConformanceEventIntentExit |>
    <| ConformanceEvent_ExpectedVolumeID := expectedVolumeID |>
    <| ConformanceEvent_Message := "telemetry sample is outside all active operational volumes" |>
    <| ConformanceEvent_Latitude := Some (Sample_Latitude sample) |>
    <| ConformanceEvent_Longitude := Some (Sample_Longitude sample) |>
    <| ConformanceEvent_AltitudeM := Some (Sample_AltitudeM sample) |>
    <| ConformanceEvent_AltitudeRef := AltitudeReferenceAGL |>
    <| ConformanceEvent_OccurredAt := UTC (Sample_RecordedAt sample) |>.

(** A summary of the service. *)
Definition evaluated_summary (intent : OperationalIntent) (sample : TelemetrySample) (status : ConformanceStatus)
    (score : option float64) (alertCount : Z) (reportability : ReportabilityStatus) (t : Time) : ConformanceSummary :=
  zero_ConformanceSummary
    <| ConformanceSummary_ID := "conformance-" +:+ Intent_ID intent |>
    <| ConformanceSummary_OperatorID := Intent_OperatorID intent |>
    <| ConformanceSummary_IntentID := Intent_ID intent |>
    <| ConformanceSummary_IntentVersion := Intent_Version intent |>
    <| ConformanceSummary_FlightID := Sample_FlightID sample |>
    <| ConformanceSummary_AircraftID := Sample_AircraftID sample |>
    <| ConformanceSummary_Status := status |>
    <| ConformanceSummary_Score := score |>
    <| ConformanceSummary_AlertCount := alertCount |>
    <| ConformanceSummary_ReportabilityStatus := reportability |>
    <| ConformanceSummary_UpdatedAt := UTC t |>.

(** The reportability that stands, and what a sample outside makes of it. *)
Definition standing_reportability (existing : option ConformanceSummary) : ReportabilityStatus :=
  match existing with
  | Some existing =>
      if ConformanceSummary_ReportabilityStatus existing <>s ReportabilityStatusNo
      then ConformanceSummary_ReportabilityStatus existing else ReportabilityStatusNo
  | None => ReportabilityStatusNo
  end.

Definition outside_reportability (reportability : ReportabilityStatus) : ReportabilityStatus :=
  if reportability =s= ReportabilityStatusNo then ReportabilityStatusReview else reportability.

Definition unique_events (events : list ConformanceEvent) : Z :=
  Z.of_nat (size (foldl (λ (unique : gmap string unit) event, <[ConformanceEvent_ID event := tt]> unique) ∅ events)).

Section service.
Context {RT : Runtime}.
(** Whether the telemetry store takes samples. *)
Context (writer : bool).
Abbreviation program := (prog (apiE fleetE)).

Definition planned_for (recordedAt : Time) (intent : OperationalIntent) : bool :=
  (Intent_Status intent =s= IntentStatusActive)
  && negb (Before recordedAt (Intent_PlannedStartAt intent)) && negb (After recordedAt (Intent_PlannedEndAt intent)).

Definition activeIntentForAircraft (aircraftID : string) (recordedAt : Time) : program (outcome OperationalIntent) :=
  try! intents := durable (Durable.ListOperationalIntents aircraftID) orelse wrap "list operational intents" in
  match List.find (planned_for recordedAt) intents with
  | Some intent => Ret (Ok intent)
  | None =>
      match List.find (λ intent, Intent_Status intent =s= IntentStatusActive) intents with
      | Some intent => Ret (Ok intent)
      | None => Ret (Err (because ErrNotFound ("active operational intent for aircraft " +:+ aircraftID)))
      end
  end.

Definition resolveIntentForTelemetry (sample : TelemetrySample) : program (outcome OperationalIntent) :=
  if Sample_IntentID sample =s= ""
  then activeIntentForAircraft (Sample_AircraftID sample) (Sample_RecordedAt sample)
  else
    try! intent := durable (Durable.GetOperationalIntent (Sample_IntentID sample))
      orelse wrap "get operational intent" in
    if Intent_AircraftID intent <>s Sample_AircraftID sample
    then Ret (Err (because ErrValidation ("telemetry aircraft_id " +:+ Sample_AircraftID sample
           +:+ " does not match intent aircraft_id " +:+ Intent_AircraftID intent)))
    else if Intent_Status intent <>s IntentStatusActive
    then Ret (Err (because ErrActivationBlocked ("referenced intent " +:+ Intent_ID intent +:+ " is not active")))
    else if Before (Sample_RecordedAt sample) (Intent_PlannedStartAt intent)
            || After (Sample_RecordedAt sample) (Intent_PlannedEndAt intent)
    then Ret (Err (because ErrActivationBlocked "telemetry time is outside referenced intent window"))
    else Ret (Ok intent).

Definition unknownSummary (intent : OperationalIntent) (sample : TelemetrySample)
    : program (outcome ConformanceSummary) :=
  try! existing := conformanceSummaryForVersion intent orelse id in
  let '(reportability, alertCount) :=
    match existing with
    | Some existing => (ConformanceSummary_ReportabilityStatus existing, ConformanceSummary_AlertCount existing)
    | None => (ReportabilityStatusNo, 0)
    end in
  let! t := now in
  let summary := evaluated_summary intent sample ConformanceStatusUnknown None alertCount reportability t in
  try! _ := durable (Durable.UpsertConformanceSummary summary) orelse wrap "upsert conformance summary" in
  Ret (Ok summary).

Definition alertCount (intent : OperationalIntent) : program (outcome Z) :=
  try! events := durable (Durable.ListConformanceEvents "") orelse wrap "list conformance events" in
  Ret (Ok (unique_events (select (event_of_version intent) events))).

(** The events of a sample: none inside, and one, recorded, outside. *)
Definition record_exit (inside : bool) (event : ConformanceEvent) : program (outcome (list ConformanceEvent)) :=
  if inside then Ret (Ok [])
  else
    try! _ := durable (Durable.RecordConformanceEvent event) orelse wrap "record conformance event" in
    Ret (Ok [event]).

(** The evaluation against the volumes of the intent's version. *)
Definition evaluate_volumes (sample : TelemetrySample) (intent : OperationalIntent) (volumes : list OperationalVolume)
    : program (outcome ConformanceEvaluation) :=
  let '(expectedVolumeID, inside) := expected_volume sample "" volumes in
  try! existing := conformanceSummaryForVersion intent orelse id in
  let reportability := standing_reportability existing in
  let reportability := if inside then reportability else outside_reportability reportability in
  let status := if inside then ConformanceStatusConforming else ConformanceStatusNonConforming in
  let score := if inside then float_of_Z 1 else float_zero in
  try! events := record_exit inside (exit_event sample intent expectedVolumeID) orelse id in
  try! alerts := alertCount intent orelse id in
  let! t := now in
  let summary := evaluated_summary intent sample status (Some score) alerts reportability t in
  try! _ := durable (Durable.UpsertConformanceSummary summary) orelse wrap "upsert conformance summary" in
  Ret (Ok (mkConformanceEvaluation intent summary events)).

(** A sample without a time is given that of the clock. *)
Definition timed_sample (sample : TelemetrySample) : program TelemetrySample :=
  if IsZero (Sample_RecordedAt sample)
  then let! t := now in Ret (sample <| Sample_RecordedAt := UTC t |>) else Ret sample.

Definition add_sample (sample : TelemetrySample) : program (outcome unit) :=
  if writer then external (OfTelemetry (Telemetry.AddSample sample)) else Ret (Ok tt).

Definition EvaluateTelemetry (sample : TelemetrySample) : program (outcome ConformanceEvaluation) :=
  let! sample := timed_sample sample in
  try! _ := add_sample sample orelse wrap "add telemetry sample" in
  try! intent := resolveIntentForTelemetry sample orelse id in
  try! volumes := durable (Durable.ListOperationalVolumes (Intent_ID intent))
    orelse wrap "list operational volumes" in
  match volumesForVersion volumes (Intent_Version intent) with
  | [] =>
      try! summary := unknownSummary intent sample orelse id in
      Ret (Ok (mkConformanceEvaluation intent summary []))
  | volumes => evaluate_volumes sample intent volumes
  end.

Definition GetIntentConformance (intentID : string) : program (outcome ConformanceEvaluation) :=
  try! intent := durable (Durable.GetOperationalIntent intentID) orelse wrap "get operational intent" in
  try! summary := conformanceSummaryForVersion intent orelse id in
  try! events := durable (Durable.ListConformanceEvents "") orelse wrap "list conformance events" in
  let filtered := select (event_of_version intent) events in
  Ret (Ok (mkConformanceEvaluation intent (default zero_ConformanceSummary summary) filtered)).
End service.

(** ** The history *)

Record ConformanceHistoryEvent : Set := mkConformanceHistoryEvent {
  HistoryEvent_ID : string;
  HistoryEvent_AssignmentID : string;
  HistoryEvent_AssignmentGeneration : Z;
  HistoryEvent_IntentID : string;
  HistoryEvent_IntentVersion : Z;
  HistoryEvent_AircraftID : string;
  HistoryEvent_FlightID : string;
  HistoryEvent_IncidentID : string;
  HistoryEvent_Transition : string;
  HistoryEvent_ViolationType : string;
  HistoryEvent_ObservedAt : Time;
  HistoryEvent_DeviationM : option float64;
  HistoryEvent_FrameID : string;
  HistoryEvent_EvaluationRevision : Z;
  HistoryEvent_PlannedStartAt : option Time;
  HistoryEvent_PlannedEndAt : option Time;
}.

Record ConformanceHistoryPage : Set := mkConformanceHistoryPage {
  HistoryPage_Events : list ConformanceHistoryEvent;
  HistoryPage_NextPageToken : string;
}.

Section history.
Context {PL : ProtoLibrary}.

(** A planned time: absent, valid, or an error. *)
Definition planned_time (value : option Timestamp) : option (option Time) :=
  match value with
  | None => Some None
  | Some t => if Timestamp_CheckValid t then Some (Some (Timestamp_AsTime t)) else None
  end.

(** One event of the response, if it is what was asked for. *)
Definition history_event (intentID : string) (generation : Z) (e : option HistoryEventMessage)
    : option ConformanceHistoryEvent :=
  match e with
  | None => None
  | Some e =>
      if (EventM_AssignmentId e <>s intentID) || (EventM_IntentId e <>s intentID)
         || (generation <>z 0) && (EventM_AssignmentGeneration e <>z generation) then None
      else
        match EventM_ObservedAt e with
        | None => None
        | Some observed =>
            if negb (Timestamp_CheckValid observed) then None
            else
              match planned_time (EventM_PlannedStartAt e), planned_time (EventM_PlannedEndAt e) with
              | Some start_, Some end_ =>
                  Some (mkConformanceHistoryEvent (EventM_EventId e) (EventM_AssignmentId e)
                    (EventM_AssignmentGeneration e) (EventM_IntentId e) (EventM_IntentVersion e)
                    (EventM_AircraftId e) (EventM_FlightId e) (EventM_IncidentId e) (EventM_Transition e)
                    (ToLower (TrimPrefix (violation_type_name (EventM_ViolationType e)) "VIOLATION_TYPE_"))
                    (Timestamp_AsTime observed) (EventM_DeviationM e) (EventM_FrameId e)
                    (EventM_EvaluationRevision e) start_ end_)
              | _, _ => None
              end
        end
  end.

Definition GetConformanceHistory (conformanceHistory : bool) (intentID : string) (query : HistoryRequest)
    : prog (apiE fleetE) (outcome ConformanceHistoryPage) :=
  try! intent := durable (Durable.GetOperationalIntent intentID) orelse wrap "get history intent" in
  if negb conformanceHistory then Ret (Err ErrConformanceHistoryUnavailable)
  else
    let request := mkHistoryRequest (Intent_ID intent) (HistoryRequest_AssignmentGeneration query)
                     (HistoryRequest_From query) (HistoryRequest_Until query) (HistoryRequest_PageSize query)
                     (HistoryRequest_PageToken query) in
    let! response := external (ListHistory request) in
    match response with
    | Err err =>
        Ret (Err (if status_Code err =? codes_InvalidArgument
                  then because ErrValidation "invalid conformance history filters or page token"
                  else ErrConformanceHistoryUnavailable))
    | Ok None => Ret (Err ErrConformanceHistoryUnavailable)
    | Ok (Some response) =>
        match mapM (history_event (Intent_ID intent) (HistoryRequest_AssignmentGeneration request))
                (HistoryResponse_Events response) with
        | None => Ret (Err ErrConformanceHistoryUnavailable)
        | Some events => Ret (Ok (mkConformanceHistoryPage events (HistoryResponse_NextPageToken response)))
        end
    end.
End history.

(** * What a telemetry sample leads to

    The evaluation of a sample, whatever the store answers: the intent it is
    evaluated against, the verdict, and what is recorded; and the history, which
    is that of the intent asked for. *)

Lemma expected_volume_inside sample expected volumes :
  (expected_volume sample expected volumes).2 = existsb (sampleInsideVolume sample) volumes.
Proof.
  revert expected. induction volumes as [|volume volumes IH]; intros expected; cbn; [done|].
  destruct (sampleInsideVolume sample volume); [done|]. apply IH.
Qed.

(** The volume expected is one of the version: that in which the sample is. *)
Lemma expected_volume_of sample volumes :
  volumes ≠ [] → ∃ volume, volume ∈ volumes ∧ (expected_volume sample "" volumes).1 = Volume_ID volume
    ∧ (existsb (sampleInsideVolume sample) volumes = true → sampleInsideVolume sample volume = true).
Proof.
  assert (∀ expected, (∃ volume, volume ∈ volumes ∧ (expected_volume sample expected volumes).1 = Volume_ID volume
      ∧ sampleInsideVolume sample volume = true)
    ∨ existsb (sampleInsideVolume sample) volumes = false
      ∧ (expected ≠ "" → (expected_volume sample expected volumes).1 = expected)
      ∧ (expected = "" → volumes ≠ [] →
         ∃ volume, volume ∈ volumes ∧ (expected_volume sample expected volumes).1 = Volume_ID volume)) as Hgen.
  { induction volumes as [|volume volumes IH]; intros expected; cbn; [right; by split_and!|].
    destruct (sampleInsideVolume sample volume) eqn:Hinside; [left; exists volume; set_solver|].
    set (next := if expected =s= "" then Volume_ID volume else expected).
    destruct (IH next) as [(v & Hv & H)|(Hnone & Hkept & Hfirst)]; [left; exists v; set_solver|].
    right. split_and!; [done| |].
    - intros Hne. subst next. apply String.eqb_neq in Hne. rewrite Hne in *. apply String.eqb_neq in Hne. auto.
    - intros -> _. subst next. cbn in *. destruct (decide (Volume_ID volume = "")) as [Hempty|Hne].
      + destruct volumes as [|v rest]; [exists volume; cbn; set_solver|].
        destruct (Hfirst Hempty) as (w & Hw & Heq); [done|]. exists w. set_solver.
      + exists volume. split; [set_solver|auto]. }
  intros Hne. destruct (Hgen "") as [(v & Hv & Heq & Hin)|(Hnone & _ & Hfirst)]; [eauto|].
  destruct (Hfirst eq_refl Hne) as (v & Hv & Heq). exists v. split_and!; [done..|congruence].
Qed.

Section evaluation.
Context {RT : Runtime} (writer : bool).

(** The sample with its time: its own, or that of the clock. *)
Definition timed (h : history) (sample at_ : TelemetrySample) : Prop :=
  if IsZero (Sample_RecordedAt sample)
  then ∃ t, clock_read t ∈ h ∧ at_ = sample <| Sample_RecordedAt := UTC t |> else at_ = sample.

(** The intent of a sample: active, the one it names, of its aircraft and at a
    time in its window; or one of its aircraft, in its window if any is. *)
Definition resolved (h : history) (sample : TelemetrySample) (intent : OperationalIntent) : Prop :=
  Intent_Status intent = IntentStatusActive
  ∧ if Sample_IntentID sample =s= ""
    then ∃ intents, stored (Durable.ListOperationalIntents (Sample_AircraftID sample)) (Ok intents) ∈ h
           ∧ intent ∈ intents
           ∧ ∀ other, other ∈ intents → planned_for (Sample_RecordedAt sample) other = true →
               planned_for (Sample_RecordedAt sample) intent = true
    else stored (Durable.GetOperationalIntent (Sample_IntentID sample)) (Ok intent) ∈ h
         ∧ Intent_AircraftID intent = Sample_AircraftID sample
         ∧ planned_for (Sample_RecordedAt sample) intent = true.

(** The events that were sent to the store, and the summaries. *)
Definition event_sent (v : event (apiE fleetE)) : option ConformanceEvent :=
  match v with Event (OfStore (Durable.RecordConformanceEvent event)) _ => Some event | _ => None end.
Definition summary_sent (v : event (apiE fleetE)) : option ConformanceSummary :=
  match v with Event (OfStore (Durable.UpsertConformanceSummary summary)) _ => Some summary | _ => None end.

Abbreviation events_sent h := (omap event_sent h).
Abbreviation summaries_sent h := (omap summary_sent h).

Lemma find_elem {A} (P : A → bool) l x : List.find P l = Some x → x ∈ l ∧ P x = true.
Proof using Type. intros [Hin HP]%find_some. by apply list_elem_of_In in Hin. Qed.

Lemma planned_for_window sample intent :
  Intent_Status intent = IntentStatusActive →
  Before (Sample_RecordedAt sample) (Intent_PlannedStartAt intent)
  || After (Sample_RecordedAt sample) (Intent_PlannedEndAt intent) = false →
  planned_for (Sample_RecordedAt sample) intent = true.
Proof using Type.
  intros Hactive [Hb Ha]%orb_false_iff. unfold planned_for. rewrite Hactive, Hb, Ha. done.
Qed.

(** A run that ends with an error and has written nothing. *)
Ltac grown := let v := fresh in let Hv := fresh in
  intros v Hv; repeat first [exact Hv|apply list_elem_of_further].
Ltac unsettled := cbn; split_and!; [grown|done|done|by intros ? ?].

Lemma resolveIntentForTelemetry_wp h sample :
  wp any_call h (resolveIntentForTelemetry sample) (λ h' r, h ⊆ h'
    ∧ events_sent h' = events_sent h ∧ summaries_sent h' = summaries_sent h
    ∧ ∀ intent, r = Ok intent → resolved h' sample intent).
Proof using Type.
  unfold resolveIntentForTelemetry, resolved. destruct (Sample_IntentID sample =s= "").
  - unfold activeIntentForAircraft. apply wp_durable; [done|]. intros [intents|err]; [|unsettled].
    destruct (List.find (planned_for _) intents) as [found|] eqn:Hfound.
    + apply find_elem in Hfound as [Hin Hplanned]. cbn. split_and!; [grown|done..|]. intros intent [= <-]. split.
      * unfold planned_for in Hplanned. apply andb_true_iff in Hplanned as [[H _]%andb_true_iff _]. by apply String.eqb_eq.
      * exists intents. set_solver.
    + destruct (List.find (λ intent, Intent_Status intent =s= IntentStatusActive) intents) as [found|] eqn:Hactive;
        [|unsettled].
      apply find_elem in Hactive as [Hin Hactive]. cbn. split_and!; [grown|done..|]. intros intent [= <-].
      split; [by apply String.eqb_eq|]. exists intents. split_and!; [set_solver|done|].
      intros other Hother Hp. apply list_elem_of_In in Hother. by rewrite (find_none _ _ Hfound other Hother) in Hp.
  - apply wp_durable; [done|]. intros [intent|err]; [|unsettled].
    destruct (negb _) eqn:Haircraft; [unsettled|].
    destruct (Intent_Status intent <>s _) eqn:Hstatus; [unsettled|].
    destruct (_ || _) eqn:Hwindow; [unsettled|].
    apply negb_false_iff, String.eqb_eq in Haircraft. apply negb_false_iff, String.eqb_eq in Hstatus.
    cbn. split_and!; [grown|done..|]. intros found [= <-].
    split_and!; [done|set_solver|done|by apply planned_for_window].
Qed.

Lemma conformanceSummaryForVersion_wp h intent :
  wp any_call h (conformanceSummaryForVersion intent) (λ h' r, h ⊆ h'
    ∧ events_sent h' = events_sent h ∧ summaries_sent h' = summaries_sent h
    ∧ ∀ existing, r = Ok existing → ∃ summaries,
        stored (Durable.ListConformanceSummaries (Intent_ID intent)) (Ok summaries) ∈ h'
        ∧ existing = List.find (λ summary, (ConformanceSummary_IntentID summary =s= Intent_ID intent)
            && (ConformanceSummary_IntentVersion summary =? Intent_Version intent)) summaries).
Proof using Type.
  unfold conformanceSummaryForVersion. apply wp_durable; [done|]. intros [summaries|err]; [|unsettled].
  cbn. split_and!; [grown|done..|]. intros existing [= <-]. exists summaries. set_solver.
Qed.

(** What the run of an evaluation has done: the summary is that of the intent's
    version, with the verdict on the volumes of the version; outside of all of
    them there is one event, at a volume of the version, and it is recorded; a
    reportability that stands is kept, and a sample outside is reported for
    review at least; and nothing else was written. *)
Record evaluated (h : history) (sample : TelemetrySample) (e : ConformanceEvaluation) : Prop := {
  evaluated_intent : resolved h sample (Evaluation_Intent e);
  evaluated_about : ConformanceSummary_IntentID (Evaluation_Summary e) = Intent_ID (Evaluation_Intent e)
    ∧ ConformanceSummary_IntentVersion (Evaluation_Summary e) = Intent_Version (Evaluation_Intent e);
  evaluated_verdict : ∃ volumes,
    stored (Durable.ListOperationalVolumes (Intent_ID (Evaluation_Intent e))) (Ok volumes) ∈ h
    ∧ let own := volumesForVersion volumes (Intent_Version (Evaluation_Intent e)) in
      let inside := existsb (sampleInsideVolume sample) own in
      (own = [] → ConformanceSummary_Status (Evaluation_Summary e) = ConformanceStatusUnknown ∧ Evaluation_Events e = [])
      ∧ (inside = true →
         ConformanceSummary_Status (Evaluation_Summary e) = ConformanceStatusConforming ∧ Evaluation_Events e = [])
      ∧ (own ≠ [] → inside = false →
         ConformanceSummary_Status (Evaluation_Summary e) = ConformanceStatusNonConforming
         ∧ ConformanceSummary_ReportabilityStatus (Evaluation_Summary e) ≠ ReportabilityStatusNo
         ∧ ∃ volume, volume ∈ own
             ∧ Evaluation_Events e = [exit_event sample (Evaluation_Intent e) (Volume_ID volume)]);
  evaluated_reportability : ∃ summaries,
    stored (Durable.ListConformanceSummaries (Intent_ID (Evaluation_Intent e))) (Ok summaries) ∈ h
    ∧ ∀ existing, List.find (λ summary, (ConformanceSummary_IntentID summary =s= Intent_ID (Evaluation_Intent e))
          && (ConformanceSummary_IntentVersion summary =? Intent_Version (Evaluation_Intent e))) summaries = Some existing →
        ConformanceSummary_ReportabilityStatus existing ≠ ReportabilityStatusNo →
        ConformanceSummary_ReportabilityStatus (Evaluation_Summary e) = ConformanceSummary_ReportabilityStatus existing;
  evaluated_written : events_sent h = Evaluation_Events e ∧ summaries_sent h = [Evaluation_Summary e]
    ∧ stored (Durable.UpsertConformanceSummary (Evaluation_Summary e)) (Ok tt) ∈ h
    ∧ ∀ event, event ∈ Evaluation_Events e → stored (Durable.RecordConformanceEvent event) (Ok tt) ∈ h;
}.

Lemma unknownSummary_wp h intent sample :
  wp any_call h (unknownSummary intent sample) (λ h' r, h ⊆ h' ∧ events_sent h' = events_sent h
    ∧ ∀ summary, r = Ok summary →
        ConformanceSummary_IntentID summary = Intent_ID intent
        ∧ ConformanceSummary_IntentVersion summary = Intent_Version intent
        ∧ ConformanceSummary_Status summary = ConformanceStatusUnknown
        ∧ summaries_sent h' = summary :: summaries_sent h
        ∧ stored (Durable.UpsertConformanceSummary summary) (Ok tt) ∈ h'
        ∧ ∃ summaries, stored (Durable.ListConformanceSummaries (Intent_ID intent)) (Ok summaries) ∈ h'
            ∧ ∀ existing, List.find (λ summary, (ConformanceSummary_IntentID summary =s= Intent_ID intent)
                  && (ConformanceSummary_IntentVersion summary =? Intent_Version intent)) summaries = Some existing →
                ConformanceSummary_ReportabilityStatus summary = ConformanceSummary_ReportabilityStatus existing).
Proof using Type.
  unfold unknownSummary. apply wp_bind. eapply wp_mono; [|apply conformanceSummaryForVersion_wp].
  intros h1 [existing|err] (Hsub & Hevents & Hsummaries & Hexisting); [|cbn; split_and!; [done|done|by intros ? ?]].
  destruct (Hexisting _ eq_refl) as (summaries & Hlisted & ->).
  set (found := List.find _ summaries). destruct found as [known|] eqn:Hfound.
  all: apply wp_now; [done|]; intros t; apply wp_durable; [done|]; intros [[]|err]; cbn;
    (split_and!; [intros v Hv; do 2 right; auto|done|]); [|done]; intros summary [= <-];
    (split_and!; [done|done|done|by rewrite Hsummaries|by left|]); exists summaries;
    (split; [by do 2 right|]); subst found; cbn; congruence.
Qed.

Lemma resolved_mono h h' sample intent : h ⊆ h' → resolved h sample intent → resolved h' sample intent.
Proof using Type.
  intros Hsub [Hactive H]. split; [done|]. destruct (_ =s= ""); [|naive_solver].
  destruct H as (intents & Hin & H). eauto.
Qed.

Lemma alertCount_wp h intent :
  wp any_call h (alertCount intent) (λ h' _, h ⊆ h' ∧ events_sent h' = events_sent h ∧ summaries_sent h' = summaries_sent h).
Proof using Type. unfold alertCount. apply wp_durable; [done|]. intros [events|err]; cbn; (split_and!; [grown|done|done]). Qed.

Lemma record_exit_wp h inside event :
  wp any_call h (record_exit inside event) (λ h' r, h ⊆ h' ∧ summaries_sent h' = summaries_sent h
    ∧ ∀ events, r = Ok events → events = (if inside then [] else [event]) ∧ events_sent h' = events ++ events_sent h
        ∧ ∀ e, e ∈ events → stored (Durable.RecordConformanceEvent e) (Ok tt) ∈ h').
Proof using Type.
  unfold record_exit. destruct inside.
  - cbn. split_and!; [done|done|]. intros events [= <-]. split_and!; [done|done|]. intros e He. by apply not_elem_of_nil in He.
  - apply wp_durable; [done|]. intros [[]|err]; [|cbn; split_and!; [grown|done|by intros ? ?]].
    cbn. split_and!; [grown|done|]. intros events [= <-]. split_and!; [done|done|].
    intros e He. apply list_elem_of_singleton in He as ->. by left.
Qed.

Lemma standing_reportability_spec existing :
  (∀ s, existing = Some s → ConformanceSummary_ReportabilityStatus s ≠ ReportabilityStatusNo →
     standing_reportability existing = ConformanceSummary_ReportabilityStatus s).
Proof using Type.
  intros s -> Hne. cbn. apply String.eqb_neq in Hne. by rewrite Hne.
Qed.

Lemma outside_reportability_spec r :
  outside_reportability r ≠ ReportabilityStatusNo ∧ (r ≠ ReportabilityStatusNo → outside_reportability r = r).
Proof using Type. unfold outside_reportability. destruct (String.eqb_spec r ReportabilityStatusNo) as [->|]; done. Qed.

Lemma evaluate_volumes_wp h sample intent volumes :
  events_sent h = [] → summaries_sent h = [] → resolved h sample intent →
  stored (Durable.ListOperationalVolumes (Intent_ID intent)) (Ok volumes) ∈ h →
  volumesForVersion volumes (Intent_Version intent) ≠ [] →
  wp any_call h (evaluate_volumes sample intent (volumesForVersion volumes (Intent_Version intent))) (λ h' r,
    ∀ e, r = Ok e → evaluated h' sample e).
Proof using Type.
  intros Hevents0 Hsummaries0 Hresolved Hvolumes Hown. set (own := volumesForVersion _ _) in *.
  destruct (expected_volume_of sample own Hown) as (volume & Hvolume & Hexpected & _).
  pose proof (expected_volume_inside sample "" own) as Hinside.
  unfold evaluate_volumes. destruct (expected_volume sample "" own) as [expectedVolumeID inside]. cbn in Hexpected, Hinside. subst expectedVolumeID.
  apply wp_bind. eapply wp_mono; [|apply conformanceSummaryForVersion_wp].
  intros h1 [existing|err] (Hsub1 & Hev1 & Hsum1 & Hexisting); [|by intros ? ?].
  destruct (Hexisting _ eq_refl) as (summaries & Hlisted & Hfound). clear Hexisting.
  apply wp_bind. eapply wp_mono; [|apply record_exit_wp].
  intros h2 [events|err] (Hsub2 & Hsum2 & Hrecorded); [|by intros ? ?].
  destruct (Hrecorded _ eq_refl) as (Hevents & Hev2 & Hstored). clear Hrecorded.
  apply wp_bind. eapply wp_mono; [|apply alertCount_wp].
  intros h3 [alerts|err] (Hsub3 & Hev3 & Hsum3); [|by intros ? ?].
  apply wp_now; [done|]. intros t. apply wp_durable; [done|]. intros [[]|err]; [|by intros ? ?].
  cbn. intros e [= <-]. set (h4 := _ :: _ :: h3).
  assert (h ⊆ h4) as Hsub by (subst h4; intros v Hv; do 2 right; auto).
  assert (h3 ⊆ h4) as Hsub4 by (subst h4; intros v Hv; by do 2 right).
  split; cbn.
  - exact (resolved_mono _ _ _ _ Hsub Hresolved).
  - done.
  - exists volumes. split; [auto|]. fold own. rewrite <- Hinside. split_and!.
    + intros Hnone. by destruct Hown.
    + intros ->. by subst events.
    + intros _ ->. split_and!; [done|apply outside_reportability_spec|]. exists volume. by subst events.
  - exists summaries. split; [auto|]. intros s Hs Hne. rewrite <- Hfound in Hs. destruct inside.
    + by apply standing_reportability_spec.
    + rewrite <- (standing_reportability_spec existing s) in Hne |- * by done. by apply outside_reportability_spec.
  - rewrite Hev3, Hev2, Hev1, Hevents0, Hsum3, Hsum2, Hsum1, Hsummaries0, app_nil_r.
    split_and!; [done|done|by left|]. intros event He. apply Hsub4, Hsub3. auto.
Qed.

Lemma evaluate_timed_wp h sample :
  events_sent h = [] → summaries_sent h = [] →
  wp any_call h (try! _ := add_sample writer sample orelse wrap "add telemetry sample" in
    try! intent := resolveIntentForTelemetry sample orelse id in
    try! volumes := durable (Durable.ListOperationalVolumes (Intent_ID intent)) orelse wrap "list operational volumes" in
    match volumesForVersion volumes (Intent_Version intent) with
    | [] => try! summary := unknownSummary intent sample orelse id in Ret (Ok (mkConformanceEvaluation intent summary []))
    | volumes => evaluate_volumes sample intent volumes
    end) (λ h' r, h ⊆ h' ∧ ∀ e, r = Ok e → evaluated h' sample e).
Proof using Type.
  intros Hevents Hsummaries. apply wp_bind.
  assert (wp any_call h (add_sample writer sample) (λ h' _, h ⊆ h' ∧ events_sent h' = [] ∧ summaries_sent h' = [])) as Hadd.
  { unfold add_sample. destruct writer; [|done]. apply wp_call; [done|]. intros r. cbn. split_and!; [grown|done|done]. }
  eapply wp_mono; [|exact Hadd]. intros h1 [[]|err] (Hsub1 & Hev1 & Hsum1); [|by cbn].
  apply wp_bind. eapply wp_mono; [|apply resolveIntentForTelemetry_wp].
  intros h2 [intent|err] (Hsub2 & Hev2 & Hsum2 & Hresolved); [|cbn; split; [by etrans|by intros ? ?]].
  specialize (Hresolved _ eq_refl). apply wp_durable; [done|]. intros [volumes|err].
  2: { cbn. split; [|by intros ? ?]. intros v Hv. right. auto. }
  set (h3 := stored (Durable.ListOperationalVolumes (Intent_ID intent)) (Ok volumes) :: h2).
  assert (h ⊆ h3) as Hsub by (subst h3; intros v Hv; right; auto).
  assert (resolved h3 sample intent) as Hresolved3 by (eapply resolved_mono; [|exact Hresolved]; subst h3; grown).
  assert (events_sent h3 = [] ∧ summaries_sent h3 = []) as [Hev3 Hsum3] by (subst h3; cbn; split; congruence).
  assert (stored (Durable.ListOperationalVolumes (Intent_ID intent)) (Ok volumes) ∈ h3) as Hvolumes by by left.
  clearbody h3. destruct (volumesForVersion volumes (Intent_Version intent)) as [|v own] eqn:Hown.
  - apply wp_bind. eapply wp_mono; [|apply unknownSummary_wp].
    intros h4 [summary|err] (Hsub4 & Hev4 & Hwritten); [|cbn; split; [by etrans|by intros ? ?]].
    destruct (Hwritten _ eq_refl) as (Hid & Hversion & Hstatus & Hsum4 & Hstored & summaries & Hlisted & Hreport).
    cbn. split; [by etrans|]. intros e [= <-]. split; cbn.
    + by eapply resolved_mono.
    + done.
    + exists volumes. split; [auto|]. rewrite Hown. cbn. by split_and!.
    + exists summaries. split; [done|]. intros existing Hfound _. by apply Hreport.
    + rewrite Hev4, Hev3, Hsum4, Hsum3. split_and!; [done..|]. intros event He. by apply not_elem_of_nil in He.
  - rewrite <- Hown. eapply wp_mono; [|apply wp_grows, evaluate_volumes_wp; [done|done|done|done|by rewrite Hown]].
    intros h4 r [Hsub4 H]. split; [by etrans|done].
Qed.

(** The calls of an evaluation: reads, the sample itself to the telemetry store if
    that takes samples, one kind of event and one of summary. *)
Definition telemetry_call (sample : TelemetrySample) (X : Type) (e : apiE fleetE X) : Prop :=
  match e with
  | Now => True
  | OfStore e =>
      match e with
      | Durable.GetOperationalIntent _ | Durable.ListOperationalIntents _ | Durable.ListOperationalVolumes _
      | Durable.ListConformanceSummaries _ | Durable.ListConformanceEvents _
      | Durable.RecordConformanceEvent _ | Durable.UpsertConformanceSummary _ => True
      | _ => False
      end
  | OfExternal (OfTelemetry (Telemetry.AddSample added)) =>
      writer = true ∧ (added = sample ∨ ∃ t, added = sample <| Sample_RecordedAt := t |>)
  | _ => False
  end.

Lemma EvaluateTelemetry_calls sample :
  calls_in (telemetry_call sample) (EvaluateTelemetry writer sample).
Proof using Type.
  unfold EvaluateTelemetry.
  assert (∀ timed, timed = sample ∨ (∃ t, timed = sample <| Sample_RecordedAt := t |>) →
    calls_in (telemetry_call sample) (add_sample writer timed)) as Hadd.
  { intros timed Htimed. unfold add_sample. destruct writer eqn:Hw; [|done]. split; [by split|done]. }
  assert (∀ intent, calls_in (telemetry_call sample) (conformanceSummaryForVersion intent)) as Hsummary.
  { intros intent. split; [done|]. by intros [|]. }
  assert (∀ timed, calls_in (telemetry_call sample) (resolveIntentForTelemetry timed)) as Hresolve.
  { intros timed. unfold resolveIntentForTelemetry, activeIntentForAircraft. destruct (_ =s= _).
    - split; [done|]. intros [intents|]; cbn; [|done]. by repeat case_match.
    - split; [done|]. intros [intent|]; cbn; [|done]. by repeat case_match. }
  assert (∀ timed, timed = sample ∨ (∃ t, timed = sample <| Sample_RecordedAt := t |>) →
    calls_in (telemetry_call sample) (try! _ := add_sample writer timed orelse wrap "add telemetry sample" in
      try! intent := resolveIntentForTelemetry timed orelse id in
      try! volumes := durable (Durable.ListOperationalVolumes (Intent_ID intent)) orelse wrap "list operational volumes" in
      match volumesForVersion volumes (Intent_Version intent) with
      | [] => try! summary := unknownSummary intent timed orelse id in Ret (Ok (mkConformanceEvaluation intent summary []))
      | volumes => evaluate_volumes timed intent volumes
      end)) as Hrest.
  { intros timed Htimed. apply calls_in_bind; [by apply Hadd|]. intros [[]|err]; [|done].
    apply calls_in_bind; [apply Hresolve|]. intros [intent|err]; [|done].
    apply calls_in_bind; [done|]. intros [volumes|err]; [|done]. destruct (volumesForVersion _ _) as [|v own].
    - unfold unknownSummary. apply calls_in_bind; [|by intros [|]]. apply calls_in_bind; [apply Hsummary|].
      intros [existing|]; cbn; [|done]. case_match. split; [done|]. intros t. split; [done|]. by intros [|].
    - unfold evaluate_volumes, record_exit, alertCount. case_match.
      repeat first [ done | apply Hsummary | progress intros | apply calls_in_bind | case_match ]. }
  unfold timed_sample. destruct (IsZero (Sample_RecordedAt sample)).
  - split; [done|]. intros t. apply Hrest. eauto.
  - apply Hrest. by left.
Qed.

(** C24: a telemetry sample is evaluated, whatever the stores answer: against the
    active intent it names, of its aircraft and at a time in the intent's window,
    or against an active intent of its aircraft, one whose window holds the time
    if there is any; the verdict is conforming exactly when a volume of the
    intent's version holds the sample, and unknown without volumes; a sample
    outside leads to one exit event that is recorded; a reportability that
    stands is never lowered; and nothing else is recorded: whether it succeeds
    or not, it makes no call but reads of intents, volumes, summaries and events
    and of the clock, the addition of the sample itself to the telemetry store,
    and the recording of conformance events and summaries. *)
Theorem telemetry_evaluated sample :
  wp (λ _ X e, telemetry_call sample X e) [] (EvaluateTelemetry writer sample) (λ h r, ∀ e, r = Ok e →
    ∃ at_, timed h sample at_ ∧ evaluated h at_ e).
Proof using Type.
  apply (wp_allow (λ h X e, any_call h X e ∧ telemetry_call sample X e)); [by intros h X e [_ H]|].
  apply wp_calls_in; [apply EvaluateTelemetry_calls|].
  unfold EvaluateTelemetry, timed_sample. apply wp_bind. unfold timed.
  destruct (IsZero (Sample_RecordedAt sample)).
  - apply wp_now; [done|]. intros t. apply wp_ret. eapply wp_mono; [|by apply evaluate_timed_wp].
    intros h r [Hsub H] e He. exists (sample <| Sample_RecordedAt := UTC t |>). split; [|auto].
    exists t. split; [|done]. apply Hsub. by left.
  - apply wp_ret. eapply wp_mono; [|by apply evaluate_timed_wp]. intros h r [Hsub H] e He. exists sample. auto.
Qed.
End evaluation.
