(* ===== verification/AgentMessages.v ===== *)
(** * Messages to and from the agents

    The protobuf messages of the package agentv1 (generated, outside the
    repository) as records of the fields the program reads or writes; an absent
    message is [None].  The digest of a plan and the names of enumeration values
    come from that package too, so they are parameters. *)

From S2P Require Import Prelude GoRuntime GoStrconv GoSha256 Domain.
From stdpp Require Import options.

(** Values of the package's enumerations that the program does not name are
    numbers. *)
Inductive DeploymentResultStatus : Set :=
  | STATUS_APPLIED
  | STATUS_ALREADY_APPLIED
  | STATUS_REJECTED
  | STATUS_TEMPORARY_ERROR
  | STATUS_OUTCOME_UNKNOWN
  | STATUS_BINDING_MISMATCH
  | STATUS_ONBOARD_MISSION_MISMATCH
  | STATUS_OTHER (value : Z).

Inductive AckStatus : Set :=
  | ACK_STATUS_APPLIED
  | ACK_STATUS_ALREADY_APPLIED
  | ACK_STATUS_OTHER (value : Z).

Record AgentMissionItem : Set := mkAgentMissionItem {
  AgentItem_Sequence : Z;
  AgentItem_Frame : Z;
  AgentItem_Command : Z;
  AgentItem_Current : bool;
  AgentItem_Autocontinue : bool;
  AgentItem_Param1 : float64;
  AgentItem_Param2 : float64;
  AgentItem_Param3 : float64;
  AgentItem_Param4 : float64;
  AgentItem_LatitudeE7 : Z;
  AgentItem_LongitudeE7 : Z;
  AgentItem_AltitudeM : float32;
}.

Record MissionPlan : Set := mkMissionPlan {
  Plan_SchemaVersion : Z;
  Plan_Items : list AgentMissionItem;
}.

Record MissionBinding : Set := mkMissionBinding {
  Binding_MissionId : string;
  Binding_MissionVersion : Z;
  Binding_MissionDigest : string;
  Binding_DeploymentId : string;
  Binding_OperatorId : string;
  Binding_AircraftId : string;
  Binding_FlightId : string;
  Binding_IntentId : string;
  Binding_IntentVersion : Z;
}.

#[global] Instance MissionBinding_eq_dec : EqDecision MissionBinding.
Proof. solve_decision. Defined.

Record DeployMissionCommand : Set := mkDeployMissionCommand {
  DeployCommand_CommandId : string;
  DeployCommand_Binding : option MissionBinding;
  DeployCommand_Plan : option MissionPlan;
  DeployCommand_IssuedAtUnixMs : Z;
  DeployCommand_ExpiresAtUnixMs : Z;
}.

Record MissionDeploymentResult : Set := mkMissionDeploymentResult {
  Result_CommandId : string;
  Result_Binding : option MissionBinding;
  Result_Status : DeploymentResultStatus;
  Result_Message : string;
  Result_OnboardMissionDigest : string;
  Result_UploadedItemCount : Z;
  Result_MavlinkMissionAckType : option Z;
  Result_CompletedAtUnixMs : Z;
}.

Record OperationContext : Set := mkOperationContext {
  Context_AircraftId : string;
  Context_FlightId : string;
  Context_IntentId : string;
  Context_IntentVersion : Z;
}.

#[global] Instance OperationContext_eq_dec : EqDecision OperationContext.
Proof. solve_decision. Defined.

Record SetOperationContextCommand : Set := mkSetOperationContextCommand {
  SetCommand_CommandId : string;
  SetCommand_Context : option OperationContext;
}.

Record ClearOperationContextCommand : Set := mkClearOperationContextCommand {
  ClearCommand_CommandId : string;
  ClearCommand_FlightId : string;
  ClearCommand_Authoritative : bool;
}.

Record OperationContextCommandAck : Set := mkOperationContextCommandAck {
  Ack_CommandId : string;
  Ack_Status : AckStatus;
  Ack_Error : string;
  Ack_ActiveContext : option OperationContext;
}.

(** What the program uses of the package besides its messages. *)
Class AgentLibrary := {
  (** [missiondigest.Digest]: the digest, or the text of the error. *)
  missiondigest_Digest : MissionPlan → string + string;
  (** The names of enumeration values. *)
  deployment_status_name : DeploymentResultStatus → string;
  ack_status_name : AckStatus → string;
}.

Definition canonicalMissionItem (item : MissionItem) : AgentMissionItem :=
  mkAgentMissionItem (wrap_uint32 (MissionItem_Sequence item)) (wrap_uint32 (MissionItem_Frame item))
    (wrap_uint32 (MissionItem_Command item)) (MissionItem_Current item) (MissionItem_Autocontinue item)
    (MissionItem_Param1 item) (MissionItem_Param2 item) (MissionItem_Param3 item) (MissionItem_Param4 item)
    (MissionItem_LatitudeE7 item) (MissionItem_LongitudeE7 item) (to_float32 (MissionItem_AltitudeM item)).

(** src/internal/service/mission_import.go *)
Definition canonicalMissionPlan (items : list MissionItem) : MissionPlan :=
  mkMissionPlan 1 (map canonicalMissionItem items).

(** A library for examples: the digest depends on the number of items only. *)
Definition reference_agent_library : AgentLibrary := {|
  missiondigest_Digest plan := inl (sha256_hex (Itoa (Z.of_nat (length (Plan_Items plan)))));
  deployment_status_name status :=
    match status with
    | STATUS_APPLIED => "STATUS_APPLIED"
    | STATUS_ALREADY_APPLIED => "STATUS_ALREADY_APPLIED"
    | STATUS_REJECTED => "STATUS_REJECTED"
    | STATUS_TEMPORARY_ERROR => "STATUS_TEMPORARY_ERROR"
    | STATUS_OUTCOME_UNKNOWN => "STATUS_OUTCOME_UNKNOWN"
    | STATUS_BINDING_MISMATCH => "STATUS_BINDING_MISMATCH"
    | STATUS_ONBOARD_MISSION_MISMATCH => "STATUS_ONBOARD_MISSION_MISMATCH"
    | STATUS_OTHER value => Itoa value
    end;
  ack_status_name status :=
    match status with
    | ACK_STATUS_APPLIED => "STATUS_APPLIED"
    | ACK_STATUS_ALREADY_APPLIED => "STATUS_ALREADY_APPLIED"
    | ACK_STATUS_OTHER value => Itoa value
    end;
|}.
