(* ===== verification/MissionParser.v ===== *)
(** * Parsing a mission

    src/internal/service/mission_import.go: the text format QGC WPL 110, row by
    row, with a machine-readable finding for everything that is wrong; and what
    the items of a source that is accepted satisfy. *)

From S2P Require Import Prelude GoRuntime GoFloat GoJson GoStrconv GoSha256 Domain Errors AgentMessages.
From Stdlib Require Import Floats.SpecFloat.
From stdpp Require Import options.

Definition maxMissionSourceBytes : Z := 1048576.
Definition maxMissionLineBytes : nat := 4096.
Definition maxMissionItems : Z := 200.
Definition maxIdempotencyKeyLen : nat := 128.

Definition supportedMissionCommand (command : Z) : bool := (command =? 16) || (command =? 21) || (command =? 22).
Definition supportedMissionFrame (frame : Z) : bool := frame =? 0.

Definition missionFinding (code message : string) (sequence : option Z) : MissionValidationFinding :=
  mkMissionValidationFinding "error" code message sequence.
Definition missionWarning (code message : string) : MissionValidationFinding :=
  mkMissionValidationFinding "warning" code message None.

(** [if b { findings = append(findings, ...) }] *)
Definition finding_if (b : bool) (finding : MissionValidationFinding) : list MissionValidationFinding :=
  if b then [finding] else [].

(** ** One row *)

Definition field (fields : list string) (index : nat) : string := nth index fields "".

Definition line_text (lineNumber : Z) (rest : string) : string := "line " +:+ Itoa lineNumber +:+ " " +:+ rest.

Section row.
Context (lineNumber expectedSequence : Z).

Definition row_finding (code rest : string) : MissionValidationFinding :=
  missionFinding code (line_text lineNumber rest) (Some expectedSequence).

(** An integer field: its value, zero with a finding when it is none. *)
Definition int_field (fields : list string) (index : nat) : Z * list MissionValidationFinding :=
  match Atoi (field fields index) with
  | Some value => (value, [])
  | None => (0, [row_finding "invalid_integer"
                   ("field " +:+ Itoa (Z.of_nat index + 1) +:+ " is not an integer")])
  end.

Definition float_field (fields : list string) (index : nat) : float64 * list MissionValidationFinding :=
  match ParseFinite (field fields index) with
  | Some value => (value, [])
  | None => (float_zero, [row_finding "invalid_number"
                            ("field " +:+ Itoa (Z.of_nat index + 1) +:+ " must be finite")])
  end.

Definition float32_overflow (value : float64) : bool := f_is_inf (to_float32 value) || f_is_nan (to_float32 value).

(** A parameter after the check of its range: minus zero becomes zero. *)
Definition param_field (index : nat) (value : float64) : float64 * list MissionValidationFinding :=
  if float32_overflow value
  then (value, [row_finding "number_out_of_float32_range"
                  ("field " +:+ Itoa (Z.of_nat index + 5) +:+ " cannot be represented by MAVLink float32")])
  else (if f_eq value float_zero then float_zero else value, []).

(** The altitude, rounded to a [float32]. *)
Definition altitude_field (value : float64) : float64 * list MissionValidationFinding :=
  if float32_overflow value
  then (value, [row_finding "number_out_of_float32_range"
                  "field 11 cannot be represented by MAVLink float32"])
  else (if f_eq (to_float32 value) float_zero then float_zero else to_float64 (to_float32 value), []).

Definition out_of (value : float64) (low high : Z) : bool :=
  f_lt value (float_of_Z low) || f_lt (float_of_Z high) value.

Definition float_1e7 : float64 := float_of_Z 10000000.

(** [int32(math.Round(degrees * 1e7))] *)
Definition degrees_E7 (degrees : float64) : Z := wrap_int32 (round_half_away (f_mul degrees float_1e7)).

(** The checks of the values of the fields. *)
Definition value_findings (sequence current frame command : Z) (auto : option Z)
    (latitude longitude altitude : float64) : list MissionValidationFinding :=
  finding_if (match auto with Some a => (a <>z 0) && (a <>z 1) | None => true end)
    (row_finding "invalid_auto_continue" "auto_continue must be 0 or 1")
  ++ finding_if (sequence <>z expectedSequence)
    (row_finding "non_contiguous_sequence" ("sequence must be " +:+ Itoa expectedSequence))
  ++ finding_if ((current <>z 0) && (current <>z 1)) (row_finding "invalid_current" "current must be 0 or 1")
  ++ finding_if (negb (supportedMissionFrame frame))
    (row_finding "unsupported_frame" ("frame " +:+ Itoa frame +:+ " is not supported"))
  ++ finding_if (negb (supportedMissionCommand command))
    (row_finding "unsupported_command" ("MAVLink command " +:+ Itoa command +:+ " is not supported"))
  ++ finding_if (out_of latitude (-90) 90)
    (row_finding "latitude_out_of_range" "latitude must be between -90 and 90")
  ++ finding_if (out_of longitude (-180) 180)
    (row_finding "longitude_out_of_range" "longitude must be between -180 and 180")
  ++ finding_if (out_of altitude (-1000) 10000)
    (row_finding "altitude_out_of_range" "altitude must be between -1000 and 10000 metres").

Definition parseWPLItem (fields : list string) : MissionItem * list MissionValidationFinding :=
  let '(sequence, f0) := int_field fields 0 in
  let '(current, f1) := int_field fields 1 in
  let '(frame, f2) := int_field fields 2 in
  let '(command, f3) := int_field fields 3 in
  let '(v0, g0) := float_field fields 4 in
  let '(v1, g1) := float_field fields 5 in
  let '(v2, g2) := float_field fields 6 in
  let '(v3, g3) := float_field fields 7 in
  let '(latitude, g4) := float_field fields 8 in
  let '(longitude, g5) := float_field fields 9 in
  let '(v6, g6) := float_field fields 10 in
  let '(param1, h0) := param_field 0 v0 in
  let '(param2, h1) := param_field 1 v1 in
  let '(param3, h2) := param_field 2 v2 in
  let '(param4, h3) := param_field 3 v3 in
  let '(altitude, h4) := altitude_field v6 in
  let auto := Atoi (field fields 11) in
  (mkMissionItem sequence (current =? 1) frame command param1 param2 param3 param4
     (degrees_E7 latitude) (degrees_E7 longitude) altitude
     (match auto with Some a => a =? 1 | None => false end),
   f0 ++ f1 ++ f2 ++ f3 ++ g0 ++ g1 ++ g2 ++ g3 ++ g4 ++ g5 ++ g6 ++ h0 ++ h1 ++ h2 ++ h3 ++ h4
   ++ value_findings sequence current frame command auto latitude longitude altitude).
End row.

(** ** Altitudes in centimetres *)

Definition missionAltitudeCMInInt32Range (scaled : float32) : bool :=
  negb (f_is_nan scaled) && SFleb (float32_of_Z (- 2 ^ 31)) scaled && SFltb scaled (float32_of_Z (2 ^ 31)).

Definition missionAltitudeCMRoundTrips (altitudeM : float64) : bool :=
  let canonical := to_float32 altitudeM in
  let scaled := f32_mul canonical (float32_of_Z 100) in
  if negb (missionAltitudeCMInInt32Range scaled) then false
  else
    let altitudeCM := truncate scaled in
    let readback := f32_mul (float32_of_Z altitudeCM) (float32_of_quotient 1 100) in
    SFeqb readback canonical.

(** ** The rows of a source

    [count] is the number of rows seen before: row 0 is the metadata of the
    home position, the others are items. *)

Definition nonzero (x : float64) : bool := negb (f_eq x float_zero).

(** The landing's fourth parameter is one on board. *)
Definition normalized (item : MissionItem) : MissionItem :=
  if (MissionItem_Command item =? 21)
     && negb (nonzero (MissionItem_Param1 item) || nonzero (MissionItem_Param2 item)
              || nonzero (MissionItem_Param3 item)
              || nonzero (MissionItem_Param4 item) && negb (f_eq (MissionItem_Param4 item) (float_of_Z 1)))
  then item <| MissionItem_Param4 := float_of_Z 1 |>
  else item.

Definition source_row (count : Z) (rest : string) : string := "WPL source row " +:+ Itoa count +:+ " " +:+ rest.

(** The checks of a row that is not the first. *)
Definition operational_findings (count : Z) (item : MissionItem) : list MissionValidationFinding :=
  let sequence := Some (count - 1) in
  finding_if (negb (MissionItem_Autocontinue item))
    (missionFinding "autocontinue_required" (source_row count "must set autocontinue to 1") sequence)
  ++ (if MissionItem_Command item =? 21 then
        finding_if (nonzero (MissionItem_Param1 item) || nonzero (MissionItem_Param2 item)
                    || nonzero (MissionItem_Param3 item)
                    || nonzero (MissionItem_Param4 item)
                       && negb (f_eq (MissionItem_Param4 item) (float_of_Z 1)))
          (missionFinding "nonzero_parameters_unsupported"
             ("WPL LAND source row " +:+ Itoa count
                +:+ " requires params 1 through 3 zero and param 4 zero or one") sequence)
      else
        finding_if (nonzero (MissionItem_Param1 item) || nonzero (MissionItem_Param2 item)
                    || nonzero (MissionItem_Param3 item) || nonzero (MissionItem_Param4 item))
          (missionFinding "nonzero_parameters_unsupported"
             (source_row count "params 1 through 4 must be zero in the first ArduPilot slice") sequence))
  ++ finding_if (negb (missionAltitudeCMRoundTrips (MissionItem_AltitudeM item)))
       (missionFinding "altitude_not_centimeter_roundtrippable"
          (source_row count "altitude must round-trip through ArduPilot centimeter storage") sequence).

(** All the findings of a row of twelve fields, and the item it makes. *)
Definition check_row (count : Z) (item : MissionItem) (findings : list MissionValidationFinding)
    : MissionItem * list MissionValidationFinding :=
  let findings := findings ++
    finding_if ((count =? 0) && (negb (MissionItem_Current item) || (MissionItem_Frame item <>z 0)
                                 || (MissionItem_Command item <>z 16)))
      (missionFinding "invalid_home_metadata"
         "WPL row 0 must be HOME metadata with sequence 0, current 1, frame 0, and command 16" (Some 0)) in
  let findings := findings ++
    finding_if (bool_decide (findings = []) && (0 <? count) && MissionItem_Current item)
      (missionFinding "operational_item_marked_current" (source_row count "must set current to 0")
         (Some (count - 1))) in
  if 0 <? count then (normalized item, findings ++ operational_findings count item) else (item, findings).

Record wpl_state : Set := mkWplState {
  wpl_lineNumber : Z;
  wpl_items : list MissionItem;
  wpl_findings : list MissionValidationFinding;
  wpl_hasTakeoff : bool;
  wpl_hasLanding : bool;
  wpl_sourceItemCount : Z;
}.

#[global] Instance wpl_state_eta : Eta wpl_state := λ s,
  mkWplState (wpl_lineNumber s) (wpl_items s) (wpl_findings s) (wpl_hasTakeoff s) (wpl_hasLanding s)
    (wpl_sourceItemCount s).

Definition wpl_start : wpl_state := mkWplState 0 [] [] false false 0.

Definition add_findings (s : wpl_state) (findings : list MissionValidationFinding) : wpl_state :=
  s <| wpl_findings := wpl_findings s ++ findings |>.

(** A row that is neither the header nor blank. *)
Definition wpl_row (s : wpl_state) (line : string) : wpl_state :=
  let fields := Split tab line in
  let count := wpl_sourceItemCount s in
  if negb (length fields =? 12)%nat then
    (add_findings s [missionFinding "invalid_field_count"
                       (line_text (wpl_lineNumber s) "must contain 12 tab-separated fields") (Some count)])
      <| wpl_sourceItemCount := count + 1 |>
  else
    let '(item, itemFindings) := parseWPLItem (wpl_lineNumber s) count fields in
    let '(item, itemFindings) := check_row count item itemFindings in
    let s := add_findings s itemFindings in
    let s :=
      if bool_decide (itemFindings = []) && (0 <? count) then
        s <| wpl_items := wpl_items s ++ [item <| MissionItem_Sequence := count - 1 |>] |>
          <| wpl_hasTakeoff := wpl_hasTakeoff s || (MissionItem_Command item =? 22) |>
          <| wpl_hasLanding := wpl_hasLanding s || (MissionItem_Command item =? 21) |>
      else s in
    s <| wpl_sourceItemCount := count + 1 |>.

(** The loop over the lines; the flag tells that a line did not fit. *)
Fixpoint wpl_lines (lines : list (option string)) (s : wpl_state) : wpl_state * bool :=
  match lines with
  | [] => (s, false)
  | None :: _ => (s, true)
  | Some text :: rest =>
      let s := s <| wpl_lineNumber := wpl_lineNumber s + 1 |> in
      let line := trim_return text in
      if wpl_lineNumber s =? 1 then
        wpl_lines rest
          (add_findings s (finding_if (line <>s "QGC WPL 110")
             (missionFinding "invalid_header" "first line must be exactly QGC WPL 110" None)))
      else if TrimSpace line =s= "" then wpl_lines rest s
      else if maxMissionItems <? wpl_sourceItemCount s then
        (add_findings s [missionFinding "too_many_items"
           ("mission may contain at most " +:+ Itoa maxMissionItems +:+ " items") None], false)
      else wpl_lines rest (wpl_row s line)
  end.

(** The findings about the source as a whole. *)
Definition source_findings (s : wpl_state) (tooLong : bool) : list MissionValidationFinding :=
  finding_if tooLong
    (missionFinding "line_too_long"
       ("mission line exceeds " +:+ Itoa (Z.of_nat maxMissionLineBytes) +:+ " bytes") None)
  ++ finding_if (wpl_lineNumber s =? 0)
    (missionFinding "invalid_header" "first line must be exactly QGC WPL 110" None)
  ++ finding_if (wpl_sourceItemCount s =? 0)
    (missionFinding "missing_home_metadata" "mission must contain WPL row 0 HOME metadata" None)
  ++ finding_if (bool_decide (wpl_items s = []))
    (missionFinding "empty_mission" "mission must contain at least one operational item after HOME metadata" None).

Definition source_warnings (s : wpl_state) : list MissionValidationFinding :=
  finding_if (negb (wpl_hasTakeoff s))
    (missionWarning "takeoff_not_declared" "mission contains no NAV_TAKEOFF item")
  ++ finding_if (negb (wpl_hasLanding s))
    (missionWarning "landing_not_declared" "mission contains no NAV_LAND item").

Section parser.
Context {AL : AgentLibrary}.

Definition canonicalMissionSHA (items : list MissionItem) : outcome string :=
  match missiondigest_Digest (canonicalMissionPlan items) with
  | inl digest => Ok digest
  | inr text => Err (plain text)
  end.

(** The items, the warnings, the digest of the plan and the hash of the source. *)
Definition parseWPL110 (source : string)
    : outcome (list MissionItem * list MissionValidationFinding * string * string) :=
  let size := Z.of_nat (String.length source) in
  if (size =? 0) || (maxMissionSourceBytes <? size)
  then Err (MissionValidationError
         [missionFinding "source_size"
            ("source must contain 1 to " +:+ Itoa maxMissionSourceBytes +:+ " bytes") None])
  else
    let '(s, tooLong) := wpl_lines (scanned_lines maxMissionLineBytes source) wpl_start in
    match wpl_findings s ++ source_findings s tooLong with
    | [] =>
        match canonicalMissionSHA (wpl_items s) with
        | Err err => Err (wrap "encode canonical mission plan" err)
        | Ok digest => Ok (wpl_items s, source_warnings s, digest, sha256_hex source)
        end
    | findings => Err (MissionValidationError findings)
    end.
End parser.

(** ** Idempotency keys

    [range] visits the code points of the key; a byte that is no character of
    its own stands in a code point above the visible ones. *)
Definition validateIdempotencyKey (key : string) : option error :=
  if (key =s= "") || (maxIdempotencyKeyLen <? String.length key)%nat
  then Some (because ErrValidation
         ("Idempotency-Key is required and must be at most " +:+ Itoa (Z.of_nat maxIdempotencyKeyLen) +:+ " bytes"))
  else if existsb (λ c, (byte_of c <? 33)%N || (126 <? byte_of c)%N) (String.list_ascii_of_string key)
  then Some (because ErrValidation "Idempotency-Key must contain visible ASCII characters only")
  else None.

(** ** Examples *)

#[local] Existing Instance reference_agent_library.

(** Rows with spaces for tabulators, and lines one after the other. *)
Definition tabbed (line : string) : string :=
  String.string_of_list_ascii
    ((λ c, if is_char 32 c then tab else c) <$> String.list_ascii_of_string line).

Definition source_of (rows : list string) : string :=
  String.concat (String newline "") ("QGC WPL 110" :: map tabbed rows).

Definition demo_source : string :=
  source_of ["0 1 0 16 0 0 0 0 47.5 8.5 400 1"; "1 0 0 22 0 0 0 0 47.5 8.5 420.5 1";
             "2 0 0 21 0 0 0 0 47.25 8.75 400 1"].

Definition demo_items : list MissionItem :=
  [mkMissionItem 0 false 0 22 float_zero float_zero float_zero float_zero 475000000 85000000
     (float_of_decimal 4205 (-1)) true;
   mkMissionItem 1 false 0 21 float_zero float_zero float_zero (float_of_Z 1) 472500000 87500000
     (float_of_Z 400) true].

Example demo_source_parses :
  parseWPL110 demo_source = Ok (demo_items, [], sha256_hex "2", sha256_hex demo_source).
Proof. vm_compute. reflexivity. Qed.

Definition finding_codes {A} (r : outcome A) : list string :=
  match r with Err (MissionValidationError findings) => map MissionFinding_Code findings | _ => [] end.

Example bad_sources :
  map (λ rows, finding_codes (parseWPL110 (source_of rows)))
    [[]; ["0 1 0 16 0 0 0 0 0 0 0 1"];
     ["0 1 0 16 0 0 0 0 0 0 0 1"; "2 1 3 17 1 x 0 0 91 0 4.321 0"];
     ["0 1 0 16 0 0 0 0 0 0 0 1"; "1 0 0 16 0 0 0 0 0 0"]]
  = [["missing_home_metadata"; "empty_mission"]; ["empty_mission"];
     ["invalid_number"; "non_contiguous_sequence"; "unsupported_frame"; "unsupported_command";
      "latitude_out_of_range"; "autocontinue_required"; "nonzero_parameters_unsupported";
      "altitude_not_centimeter_roundtrippable"; "empty_mission"];
     ["invalid_field_count"; "empty_mission"]].
Proof. vm_compute. reflexivity. Qed.

(** * What an accepted mission looks like

    Every mission that the parser accepts is a list of at most 200 items in
    sequence, each of which the agents can store and read back unchanged. *)

Lemma finding_if_nil b f : finding_if b f = [] → b = false.
Proof. by destruct b. Qed.

(** [degrees] lies between the limits, and the item has it in units of 1e-7. *)
Definition degrees_within (low high : Z) (degrees : float64) : Prop :=
  f_le (float_of_Z low) degrees = true ∧ f_le degrees (float_of_Z high) = true.

Record well_formed_item (index : nat) (item : MissionItem) : Prop := {
  item_sequence : MissionItem_Sequence item = Z.of_nat index;
  item_not_current : MissionItem_Current item = false;
  item_autocontinue : MissionItem_Autocontinue item = true;
  item_frame : MissionItem_Frame item = 0;
  item_command : MissionItem_Command item ∈ [16; 21; 22];
  item_params : MissionItem_Param1 item = float_zero ∧ MissionItem_Param2 item = float_zero
    ∧ MissionItem_Param3 item = float_zero
    ∧ MissionItem_Param4 item = if MissionItem_Command item =? 21 then float_of_Z 1 else float_zero;
  item_latitude : ∃ latitude, degrees_within (-90) 90 latitude ∧ MissionItem_LatitudeE7 item = degrees_E7 latitude;
  item_longitude : ∃ longitude, degrees_within (-180) 180 longitude ∧ MissionItem_LongitudeE7 item = degrees_E7 longitude;
  item_altitude : degrees_within (-1000) 10000 (MissionItem_AltitudeM item);
  item_roundtrips : missionAltitudeCMRoundTrips (MissionItem_AltitudeM item) = true;
}.

(** ** Fields without findings *)

Lemma out_of_within value low high :
  f_is_nan (float_of_Z low) = false → f_is_nan (float_of_Z high) = false → f_is_nan value = false →
  out_of value low high = false → degrees_within low high value.
Proof.
  unfold out_of, degrees_within. intros Hl Hh Hv [H1 H2]%orb_false_iff.
  by rewrite !f_le_lt, H1, H2 by done.
Qed.

Lemma float_field_clean line seq fields index x :
  float_field line seq fields index = (x, []) → f_is_nan x = false.
Proof.
  unfold float_field. destruct (ParseFinite _) eqn:E; [|done]. intros [= <-].
  by destruct (ParseFinite_finite _ _ E).
Qed.

(** A parameter that counts as zero is plus zero. *)
Lemma param_field_zero line seq index value x :
  param_field line seq index value = (x, []) → nonzero x = false → x = float_zero.
Proof.
  unfold param_field, nonzero. destruct (float32_overflow value); [done|]. intros [= <-].
  destruct (f_eq value float_zero) eqn:E; [done|]. by rewrite E.
Qed.

(** An altitude that survives the conversion to centimetres is a number. *)
Lemma roundtrips_number altitude : missionAltitudeCMRoundTrips altitude = true → f_is_nan altitude = false.
Proof. by destruct altitude. Qed.

Ltac open_nils :=
  repeat match goal with
  | H : _ ++ _ = [] |- _ => apply app_eq_nil in H as [? ?]
  | H : finding_if _ _ = [] |- _ => apply finding_if_nil in H
  | H : _ || _ = false |- _ => apply orb_false_iff in H as [? ?]
  | H : negb _ = false |- _ => apply negb_false_iff in H
  end.

Lemma supported_command_elem command : supportedMissionCommand command = true → command ∈ [16; 21; 22].
Proof.
  unfold supportedMissionCommand. intros H. repeat setoid_rewrite elem_of_cons. to_prop.
  destruct H as [H|H]; to_prop; [destruct H; to_prop|]; auto.
Qed.

(** The parameters of an item without findings. *)
Lemma operational_params count item :
  operational_findings count item = [] →
  nonzero (MissionItem_Param1 item) = false ∧ nonzero (MissionItem_Param2 item) = false
  ∧ nonzero (MissionItem_Param3 item) = false
  ∧ (if MissionItem_Command item =? 21 then normalized item = item <| MissionItem_Param4 := float_of_Z 1 |>
     else nonzero (MissionItem_Param4 item) = false ∧ normalized item = item)
  ∧ MissionItem_Autocontinue item = true
  ∧ missionAltitudeCMRoundTrips (MissionItem_AltitudeM item) = true.
Proof.
  unfold operational_findings, normalized. intros H. open_nils.
  destruct (MissionItem_Command item =? 21); open_nils; (split; [done|]; split; [done|]; split; [done|]);
    (split; [|done]); [|done].
  cbn [andb]. repeat match goal with H : ?b = false |- _ => rewrite H; clear H end. done.
Qed.

Lemma row_well_formed line count fields item findings item' :
  0 < count → parseWPLItem line count fields = (item, findings) → check_row count item findings = (item', []) →
  well_formed_item (Z.to_nat (count - 1)) (item' <| MissionItem_Sequence := count - 1 |>).
Proof.
  intros Hcount Hparse Hcheck. unfold check_row in Hcheck.
  rewrite (proj2 (Z.ltb_lt 0 count) Hcount), (proj2 (Z.eqb_neq count 0)) in Hcheck by lia.
  cbn [andb finding_if] in Hcheck. rewrite app_nil_r in Hcheck.
  injection Hcheck as Hitem Hnil. apply app_eq_nil in Hnil as [Hnil Hoperational].
  apply app_eq_nil in Hnil as [-> Hcurrent]. apply finding_if_nil in Hcurrent. cbn in Hcurrent.
  apply operational_params in Hoperational as (Hp1 & Hp2 & Hp3 & Hp4 & Hauto & Htrip).
  unfold parseWPLItem in Hparse.
  destruct (int_field line count fields 0) as [sequence f0]. destruct (int_field line count fields 1) as [current f1].
  destruct (int_field line count fields 2) as [frame f2]. destruct (int_field line count fields 3) as [command f3].
  destruct (float_field line count fields 4) as [v0 g0]. destruct (float_field line count fields 5) as [v1 g1].
  destruct (float_field line count fields 6) as [v2 g2]. destruct (float_field line count fields 7) as [v3 g3].
  destruct (float_field line count fields 8) as [latitude g4] eqn:Hlat.
  destruct (float_field line count fields 9) as [longitude g5] eqn:Hlon.
  destruct (float_field line count fields 10) as [v6 g6].
  destruct (param_field line count 0 v0) as [param1 h0] eqn:Hv0. destruct (param_field line count 1 v1) as [param2 h1] eqn:Hv1.
  destruct (param_field line count 2 v2) as [param3 h2] eqn:Hv2. destruct (param_field line count 3 v3) as [param4 h3] eqn:Hv3.
  destruct (altitude_field line count v6) as [altitude h4].
  injection Hparse as <- Hnil. cbn in *. unfold value_findings in Hnil. open_nils. subst.
  apply param_field_zero in Hv0, Hv1, Hv2; [|done..].
  pose proof (roundtrips_number _ Htrip). apply float_field_clean in Hlat, Hlon.
  assert (frame = 0) as -> by (unfold supportedMissionFrame in *; by to_prop).
  assert (∃ x, normalized (mkMissionItem sequence (current =? 1) 0 command param1 param2 param3 param4
      (degrees_E7 latitude) (degrees_E7 longitude) altitude
      match Atoi (field fields 11) with Some a => a =? 1 | None => false end)
    = mkMissionItem sequence (current =? 1) 0 command float_zero float_zero float_zero x
      (degrees_E7 latitude) (degrees_E7 longitude) altitude
      match Atoi (field fields 11) with Some a => a =? 1 | None => false end
    ∧ x = if command =? 21 then float_of_Z 1 else float_zero) as (x & -> & Hx).
  { destruct (command =? 21).
    - rewrite Hp4. exists (float_of_Z 1). by subst.
    - destruct Hp4 as [Hz ->]. exists param4. apply param_field_zero in Hv3; [|done]. by subst. }
  constructor; cbn; [lia|done|done|done|by apply supported_command_elem|done| | | |done].
  - exists latitude. split; [|done]. by apply out_of_within.
  - exists longitude. split; [|done]. by apply out_of_within.
  - by apply out_of_within.
Qed.

(** ** The loop *)

(** What holds of the state after every line, as long as nothing was found. *)
Record wpl_inv (s : wpl_state) : Prop := {
  inv_count : 0 ≤ wpl_sourceItemCount s ≤ maxMissionItems + 1;
  inv_items : wpl_findings s = [] →
    Z.of_nat (length (wpl_items s)) = Z.max 0 (wpl_sourceItemCount s - 1)
    ∧ (∀ i item, wpl_items s !! i = Some item → well_formed_item i item)
    ∧ wpl_hasTakeoff s = existsb (λ item, MissionItem_Command item =? 22) (wpl_items s)
    ∧ wpl_hasLanding s = existsb (λ item, MissionItem_Command item =? 21) (wpl_items s);
}.

Lemma wpl_start_inv : wpl_inv wpl_start.
Proof. constructor; [cbn; unfold maxMissionItems; lia|]. intros _. by split_and!. Qed.

(** Lines that are not counted. *)
Lemma wpl_inv_findings s findings : wpl_inv s → wpl_inv (add_findings s findings).
Proof. intros [Hc Hi]. constructor; [done|]. cbn. intros [Hs _]%app_eq_nil. auto. Qed.

Lemma wpl_inv_line s n : wpl_inv s → wpl_inv (s <| wpl_lineNumber := n |>).
Proof. by intros [Hc Hi]. Qed.

Lemma check_row_nil_parsed count item findings item' :
  check_row count item findings = (item', []) → findings = [].
Proof.
  unfold check_row. destruct (0 <? count); intros [= _ Hnil]; open_nils; done.
Qed.

Lemma existsb_snoc {A} (P : A → bool) l x : existsb P (l ++ [x]) = existsb P l || P x.
Proof. rewrite existsb_app. cbn. by rewrite orb_false_r. Qed.

Lemma wpl_row_inv s line :
  wpl_inv s → wpl_sourceItemCount s ≤ maxMissionItems → wpl_inv (wpl_row s line).
Proof.
  intros [Hc Hi] Hmore. unfold wpl_row. destruct (negb _).
  { constructor; cbn; [lia|]. intros [_ H]%app_eq_nil. done. }
  destruct (parseWPLItem _ _ _) as [item findings] eqn:Hparse.
  destruct (check_row _ item findings) as [item' [|f fs]] eqn:Hcheck.
  - rewrite bool_decide_eq_true_2 by done. cbn [andb].
    destruct (0 <? wpl_sourceItemCount s) eqn:Hpos; (constructor; cbn; [lia|]); rewrite app_nil_r; intros Hs;
      destruct (Hi Hs) as (Hlen & Hwf & Htake & Hland); to_prop.
    + split; [rewrite length_app; cbn; lia|].
      split; [|by rewrite !existsb_snoc, <- Htake, <- Hland].
      intros i x [Hx|[Hle Hx]]%lookup_app_Some; [by apply Hwf|].
      apply list_lookup_singleton_Some in Hx as [Hi0 <-].
      replace i with (Z.to_nat (wpl_sourceItemCount s - 1)) by lia. by eapply row_well_formed.
    + split; [|done]. rewrite Hlen. lia.
  - rewrite bool_decide_eq_false_2 by done. cbn [andb].
    constructor; cbn; [lia|]. intros [_ H]%app_eq_nil. done.
Qed.

Lemma wpl_lines_inv lines s : wpl_inv s → wpl_inv (wpl_lines lines s).1.
Proof.
  revert s. induction lines as [|[text|] lines IH]; intros s Hs; cbn [wpl_lines]; [done| |done].
  apply (wpl_inv_line s (wpl_lineNumber s + 1)) in Hs. revert Hs.
  generalize (s <| wpl_lineNumber := wpl_lineNumber s + 1 |>). clear s. intros s Hs.
  destruct (wpl_lineNumber s =? 1); [by apply IH, wpl_inv_findings|].
  destruct (_ =s= ""); [by apply IH|]. destruct (maxMissionItems <? wpl_sourceItemCount s) eqn:Hmore.
  - by apply wpl_inv_findings.
  - apply IH, wpl_row_inv; [done|]. to_prop. done.
Qed.

Lemma finding_if_elem b f g : g ∈ finding_if b f ↔ b = true ∧ g = f.
Proof. destruct b; cbn; [rewrite list_elem_of_singleton|rewrite elem_of_nil]; naive_solver. Qed.

Lemma existsb_command items command :
  existsb (λ item, MissionItem_Command item =? command) items = true ↔
  ∃ item, item ∈ items ∧ MissionItem_Command item = command.
Proof. rewrite existsb_elem. by setoid_rewrite Z.eqb_eq. Qed.

Section accepted.
Context {AL : AgentLibrary}.

(** C20: The parser accepts only well-formed missions.  A source that is accepted
    has between one and 200 items; each stands at its own sequence number, is a
    waypoint, a take-off or a landing in the global frame, has the parameters
    the agents store, a position within the limits of latitude and longitude,
    and an altitude between -1000 and 10000 metres that comes back unchanged
    from the storage in centimetres.  The digest is that of these items, the
    hash that of the source, and the warnings tell that no take-off or no
    landing is among them. *)
Theorem parse_well_formed source items warnings digest sha :
  parseWPL110 source = Ok (items, warnings, digest, sha) →
  0 < Z.of_nat (length items) ≤ maxMissionItems
  ∧ (∀ i item, items !! i = Some item → well_formed_item i item)
  ∧ canonicalMissionSHA items = Ok digest
  ∧ sha = sha256_hex source
  ∧ (∀ warning, warning ∈ warnings ↔
       warning = missionWarning "takeoff_not_declared" "mission contains no NAV_TAKEOFF item"
         ∧ ¬ (∃ item, item ∈ items ∧ MissionItem_Command item = 22)
       ∨ warning = missionWarning "landing_not_declared" "mission contains no NAV_LAND item"
         ∧ ¬ (∃ item, item ∈ items ∧ MissionItem_Command item = 21)).
Proof using Type.
  unfold parseWPL110. destruct (_ || _); [done|].
  pose proof (wpl_lines_inv (scanned_lines maxMissionLineBytes source) wpl_start wpl_start_inv) as Hinv.
  destruct (wpl_lines _ _) as [s tooLong]. cbn [fst] in Hinv. destruct Hinv as [Hcount Hitems].
  destruct (wpl_findings s ++ source_findings s tooLong) as [|f fs] eqn:Hfindings; [|done].
  destruct (canonicalMissionSHA _) as [d|err] eqn:Hdigest; [|done]. intros [= <- <- <- <-].
  apply app_eq_nil in Hfindings as [Hnone Hsource].
  destruct (Hitems Hnone) as (Hlen & Hwf & Htake & Hland).
  unfold source_findings in Hsource. open_nils.
  split.
  { destruct (wpl_items s) as [|item items'] eqn:Hi; [done|]. cbn [length] in *. lia. }
  split_and!; [done|done|done|]. intros warning. unfold source_warnings.
  rewrite elem_of_app, !finding_if_elem, !negb_true_iff, Htake, Hland, <- !existsb_command.
  rewrite !not_true_iff_false. tauto.
Qed.
End accepted.

Lemma parse_well_formed_witness :
  parseWPL110 (AL := reference_agent_library) demo_source = Ok (demo_items, [], sha256_hex "2", sha256_hex demo_source)
  ∧ well_formed_item 1 (mkMissionItem 1 false 0 21 float_zero float_zero float_zero (float_of_Z 1)
      472500000 87500000 (float_of_Z 400) true).
Proof.
  split; [exact demo_source_parses|].
  by apply (proj1 (proj2 (parse_well_formed (AL := reference_agent_library) _ _ _ _ _ demo_source_parses))).
Defined.
