(* ===== verification/MissionImport.v ===== *)
(** * Importing a mission

    src/internal/service/mission_import.go: the import of a parsed mission for a
    planned flight, its validation against the authorized volume of the intent,
    and the current mission of a flight. *)

From S2P Require Import Prelude GoRuntime GoFloat GoStrconv GoSha256 GoRange Domain Errors Program MemoryState MemoryFleet MemoryIntents MemoryMissions MemorySpatial DurableStore MemoryStore Scenario ProgramLogic IntentService FleetCommands AgentMessages MissionParser.
From stdpp Require Import options.

Record ImportMissionRequest : Set := mkImportMissionRequest {
  Import_SourceFormat : MissionSourceFormat;
  Import_Source : string;
  Import_AircraftID : string;
  Import_IntentID : string;
  Import_IntentVersion : Z;
}.

Record ImportMissionResult : Set := mkImportMissionResult {
  ImportResult_Mission : Mission;
  ImportResult_Replayed : bool;
}.

(** The hash that identifies a request under its key. *)
Definition import_request_hash (flightID aircraftID intentID : string) (intentVersion : Z)
    (sourceFormat : MissionSourceFormat) (sourceSHA : string) : string :=
  sha256_hex (String.concat (String newline "")
    [flightID; aircraftID; intentID; Itoa intentVersion; sourceFormat; sourceSHA]).

(** ** The mission against the volume *)

Definition altitude_outside (volume : OperationalVolume) (item : MissionItem) : bool :=
  f_lt (MissionItem_AltitudeM item) (Volume_MinAltitudeM volume)
  || f_lt (Volume_MaxAltitudeM volume) (MissionItem_AltitudeM item).

Definition altitude_finding (volume : OperationalVolume) (item : MissionItem) : MissionValidationFinding :=
  missionFinding "mission_altitude_outside_authorized_volume"
    ("item " +:+ Itoa (MissionItem_Sequence item) +:+ " altitude " +:+ format_f3 (MissionItem_AltitudeM item)
       +:+ " m MSL is outside authorized range " +:+ format_f3 (Volume_MinAltitudeM volume) +:+ " to "
       +:+ format_f3 (Volume_MaxAltitudeM volume) +:+ " m MSL") (Some (MissionItem_Sequence item)).

Definition item_finding (sequence : Z) : MissionValidationFinding :=
  missionFinding "mission_item_outside_authorized_volume"
    ("item " +:+ Itoa sequence +:+ " is outside the authorized footprint") (Some sequence).

Definition segment_finding (sequence : Z) : MissionValidationFinding :=
  missionFinding "mission_segment_outside_authorized_volume"
    ("route segment " +:+ Itoa sequence +:+ " to " +:+ Itoa (int64_succ sequence)
       +:+ " leaves the authorized footprint") (Some sequence).

Definition mission_findings (volume : OperationalVolume) (items : list MissionItem)
    (coverage : MissionCoverageResult) : list MissionValidationFinding :=
  map (altitude_finding volume) (select (altitude_outside volume) items)
  ++ map item_finding (Coverage_UncoveredItems coverage)
  ++ map segment_finding (Coverage_UncoveredSegments coverage).

Definition one_finding (code message : string) : error :=
  MissionValidationError [missionFinding code message None].

(** The single volume that authorizes the mission. *)
Definition authorized_volume (intent : OperationalIntent) (allVolumes : list OperationalVolume)
    : outcome OperationalVolume :=
  match volumesForVersion allVolumes (Intent_Version intent) with
  | [volume] =>
      if Volume_AltitudeRef volume <>s AltitudeReferenceMSL
      then Err (one_finding "unsupported_altitude_reference"
             "first mission slice requires a GLOBAL WPL mission and MSL operational volume")
      else if After (Volume_StartsAt volume) (Intent_PlannedStartAt intent)
              || Before (Volume_EndsAt volume) (Intent_PlannedEndAt intent)
      then Err (one_finding "ambiguous_volume_time"
             "the single operational volume must cover the entire intent window because WPL 110 has no waypoint schedule")
      else Ok volume
  | volumes =>
      Err (one_finding "unsupported_volume_topology"
        ("first mission slice requires exactly one volume for intent version " +:+ Itoa (Intent_Version intent)
           +:+ "; found " +:+ Itoa (Z.of_nat (length volumes))))
  end.

(** The fields the server derives the binding from: flight, intent, current
    version of the intent. *)
Definition import_binding (req : ImportMissionRequest) (flight : FlightRecord) : option error :=
  if Flight_Status flight <>s FlightStatusPlanned
  then Some (because ErrInvalidTransition
         ("missions may only be imported while flight " +:+ Flight_ID flight +:+ " is planned"))
  else if (Flight_AircraftID flight <>s Import_AircraftID req) || (Flight_IntentID flight <>s Import_IntentID req)
          || (Flight_IntentVersion flight <>z Import_IntentVersion req)
  then Some (because ErrValidation
         "requested mission binding does not match the flight's aircraft and exact intent version")
  else None.

Definition import_intent (flight : FlightRecord) (intent currentIntent : OperationalIntent) : option error :=
  if Intent_Version currentIntent <>z Flight_IntentVersion flight
  then Some (because ErrInvalidTransition
         ("flight is bound to superseded intent version " +:+ Itoa (Flight_IntentVersion flight)))
  else if (Intent_AircraftID intent <>s Flight_AircraftID flight)
          || (Intent_AircraftID currentIntent <>s Flight_AircraftID flight)
  then Some (because ErrValidation "flight and operational-intent aircraft bindings disagree")
  else if (Intent_Status intent <>s IntentStatusAccepted) && (Intent_Status intent <>s IntentStatusActive)
  then Some (because ErrInvalidTransition "mission import requires an accepted or active intent")
  else None.

(** The plan that is stored. *)
Definition imported_mission (id operatorID : string) (flight : FlightRecord) (sourceFormat : MissionSourceFormat)
    (sourceSHA digest idempotencyKey requestHash : string) (findings : list MissionValidationFinding)
    (items : list MissionItem) (t : Time) : Mission :=
  zero_Mission
    <| Mission_ID := id |>
    <| Mission_OperatorID := operatorID |>
    <| Mission_FlightID := Flight_ID flight |>
    <| Mission_AircraftID := Flight_AircraftID flight |>
    <| Mission_IntentID := Flight_IntentID flight |>
    <| Mission_IntentVersion := Flight_IntentVersion flight |>
    <| Mission_SourceFormat := sourceFormat |>
    <| Mission_SourceSHA256 := sourceSHA |>
    <| Mission_MissionDigest := digest |>
    <| Mission_IdempotencyKey := idempotencyKey |>
    <| Mission_IdempotencyRequest := requestHash |>
    <| Mission_ValidationFindings := findings |>
    <| Mission_Items := items |>
    <| Mission_CreatedAt := UTC t |>.

Section import.
Context {AL : AgentLibrary} {externalE : Type → Type}.
Abbreviation program := (prog (apiE externalE)).

Definition validateMissionAgainstIntent (intent : OperationalIntent) (items : list MissionItem)
    : program (outcome unit) :=
  try! allVolumes := durable (Durable.ListOperationalVolumes (Intent_ID intent))
    orelse wrap "list linked operational volumes" in
  match authorized_volume intent allVolumes with
  | Err err => Ret (Err err)
  | Ok volume =>
      let! checked := durable (Durable.CheckMissionCoverage volume items) in
      match checked with
      | Err err =>
          if errors_Is err ErrInvalidMissionCoverageGeometry
          then Ret (Err (one_finding "authorized_geometry_not_evaluable"
                           "authorized volume geometry is malformed or unsupported"))
          else Ret (Err (wrap "check mission coverage against authorized volume" err))
      | Ok coverage =>
          match mission_findings volume items coverage with
          | [] => Ret (Ok tt)
          | findings => Ret (Err (MissionValidationError findings))
          end
      end
  end.

(** The import of a source that no earlier request with the key has brought. *)
Definition import_new (flightID idempotencyKey sourceSHA requestHash : string) (req : ImportMissionRequest)
    : program (outcome ImportMissionResult) :=
  match parseWPL110 (Import_Source req) with
  | Err err => Ret (Err err)
  | Ok (items, findings, digest, parsedSourceSHA) =>
      if parsedSourceSHA <>s sourceSHA then Ret (Err (plain "mission source hash changed during import"))
      else
        try! flight := durable (Durable.GetFlightRecord flightID) orelse wrap "get flight record" in
        match import_binding req flight with
        | Some err => Ret (Err err)
        | None =>
            try! intent := durable (Durable.GetOperationalIntentVersion (Flight_IntentID flight)
                                      (Flight_IntentVersion flight))
              orelse wrap "get linked operational intent version" in
            try! currentIntent := durable (Durable.GetOperationalIntent (Flight_IntentID flight))
              orelse wrap "get current operational intent" in
            match import_intent flight intent currentIntent with
            | Some err => Ret (Err err)
            | None =>
                try! aircraft := durable (Durable.GetAircraft (Flight_AircraftID flight))
                  orelse wrap "get bound aircraft" in
                match consistentOperatorID [Flight_OperatorID flight; Intent_OperatorID intent;
                                            Aircraft_OperatorID aircraft] with
                | Err err => Ret (Err err)
                | Ok operatorID =>
                    if operatorID =s= ""
                    then Ret (Err (because ErrValidation "bound operator_id is required for mission deployment"))
                    else
                      try! _ := validateMissionAgainstIntent intent items orelse id in
                      let! id := call NewString in
                      let! t := now in
                      let mission := imported_mission id operatorID flight (Import_SourceFormat req) sourceSHA
                                       digest idempotencyKey requestHash findings items t in
                      try! stored := durable (Durable.CreateMissionForPlannedFlight mission)
                        orelse wrap "create mission" in
                      Ret (Ok (mkImportMissionResult stored (Mission_ID stored <>s Mission_ID mission)))
                end
            end
        end
  end.

Definition ImportMission (flightID idempotencyKey : string) (req : ImportMissionRequest)
    : program (outcome ImportMissionResult) :=
  let flightID := TrimSpace flightID in
  let idempotencyKey := TrimSpace idempotencyKey in
  let req := mkImportMissionRequest (Import_SourceFormat req) (Import_Source req)
               (TrimSpace (Import_AircraftID req)) (TrimSpace (Import_IntentID req)) (Import_IntentVersion req) in
  if (flightID =s= "") || (Import_AircraftID req =s= "") || (Import_IntentID req =s= "")
     || (Import_IntentVersion req <=? 0)
  then Ret (Err (because ErrValidation
         "flight_id, aircraft_id, intent_id, and positive intent_version are required"))
  else
    match validateIdempotencyKey idempotencyKey with
    | Some err => Ret (Err err)
    | None =>
        if Import_SourceFormat req <>s MissionSourceFormatQGCWPL110
        then Ret (Err (because ErrValidation ("source_format must be " +:+ quote MissionSourceFormatQGCWPL110)))
        else
          let sourceSHA := sha256_hex (Import_Source req) in
          let requestHash := import_request_hash flightID (Import_AircraftID req) (Import_IntentID req)
                               (Import_IntentVersion req) (Import_SourceFormat req) sourceSHA in
          let! lookup := durable (Durable.GetMissionByIdempotencyKey idempotencyKey) in
          match lookup with
          | Ok existing =>
              if Mission_IdempotencyRequest existing <>s requestHash then Ret (Err ErrIdempotencyConflict)
              else Ret (Ok (mkImportMissionResult existing true))
          | Err err =>
              if negb (errors_Is err ErrNotFound)
              then Ret (Err (wrap "get mission idempotency record" err))
              else import_new flightID idempotencyKey sourceSHA requestHash req
          end
    end.

Definition GetCurrentMission (flightID : string) : program (outcome Mission) :=
  let flightID := TrimSpace flightID in
  if flightID =s= "" then Ret (Err (because ErrValidation "flight_id is required"))
  else
    try! flight := durable (Durable.GetFlightRecord flightID) orelse wrap "get flight record" in
    try! mission := durable (Durable.GetCurrentMissionForFlight flightID) orelse wrap "get current mission" in
    if (Mission_AircraftID mission <>s Flight_AircraftID flight)
       || (Mission_IntentID mission <>s Flight_IntentID flight)
       || (Mission_IntentVersion mission <>z Flight_IntentVersion flight)
    then Ret (Err (wrap "mission binding is inconsistent with flight" ErrVersionConflict))
    else if Mission_OperatorID mission <>s Flight_OperatorID flight
    then Ret (Err (wrap "mission operator binding is inconsistent with flight" ErrVersionConflict))
    else Ret (Ok mission).
End import.

(** * Imports among other clients

    What a successful import of a mission has checked, with the in-memory store
    and whatever the other clients of it do meanwhile. *)

(** The authorized altitudes, the footprint and the route. *)
Record covered (volume : OperationalVolume) `{RT : Runtime} (items : list MissionItem) : Prop := {
  covered_altitudes item : item ∈ items →
    f_lt (MissionItem_AltitudeM item) (Volume_MinAltitudeM volume) = false
    ∧ f_lt (Volume_MaxAltitudeM volume) (MissionItem_AltitudeM item) = false;
  covered_route : ∃ polygon, decodeMissionPolygon (Volume_GeoJSON volume) = Ok polygon
    ∧ (∀ item, item ∈ items → missionPolygonCoversPoint polygon (item_point item) = true)
    ∧ (∀ i item next, items !! i = Some item → items !! S i = Some next →
         missionPolygonCoversSegment polygon (item_point item) (item_point next) = true);
}.

Section coverage.
Context {RT : Runtime}.

Lemma coverage_of_none polygon items :
  coverage_of polygon items = mkMissionCoverageResult [] [] →
  (∀ item, item ∈ items → missionPolygonCoversPoint polygon (item_point item) = true)
  ∧ (∀ i item next, items !! i = Some item → items !! S i = Some next →
       missionPolygonCoversSegment polygon (item_point item) (item_point next) = true).
Proof using Type.
  induction items as [|item items IH]; cbn [coverage_of]; [by split; [intros ? ?%elem_of_nil|]|].
  intros [= Hitem Hsegment].
  destruct (missionPolygonCoversPoint polygon (item_point item)) eqn:Hpoint; [|done].
  assert (coverage_of polygon items = mkMissionCoverageResult [] []) as (H1 & H2)%IH.
  { destruct (coverage_of polygon items) as [us ss]. cbn in *. subst us. f_equal.
    destruct items as [|next items]; [done|]. by destruct (missionPolygonCoversSegment _ _ _). }
  split; [intros x [->|?]%elem_of_cons; auto|].
  intros [|i] x y; cbn; [intros [= <-] Hy|apply H2].
  destruct items as [|next items]; [done|]. injection Hy as <-.
  by destruct (missionPolygonCoversSegment polygon (item_point item) (item_point next)).
Qed.

Lemma mission_findings_none volume items coverage :
  mission_findings volume items coverage = [] →
  coverage = mkMissionCoverageResult [] []
  ∧ ∀ item, item ∈ items → altitude_outside volume item = false.
Proof using Type.
  unfold mission_findings. intros [Ha [Hi%map_eq_nil Hs%map_eq_nil]%app_eq_nil]%app_eq_nil.
  split; [by destruct coverage; cbn in *; subst|]. intros item Hitem.
  destruct (altitude_outside volume item) eqn:E; [|done]. apply map_eq_nil in Ha.
  assert (item ∈ select (altitude_outside volume) items) as H by by apply elem_of_select.
  rewrite Ha in H. by apply elem_of_nil in H.
Qed.

Lemma authorized_volume_Ok intent volumes volume :
  authorized_volume intent volumes = Ok volume →
  volumesForVersion volumes (Intent_Version intent) = [volume]
  ∧ Volume_AltitudeRef volume = AltitudeReferenceMSL
  ∧ Volume_StartsAt volume ≤ Intent_PlannedStartAt intent ∧ Intent_PlannedEndAt intent ≤ Volume_EndsAt volume.
Proof using Type.
  unfold authorized_volume. destruct (volumesForVersion _ _) as [|v [|v' vs]]; [done| |done].
  destruct (_ <>s _) eqn:Href; [done|]. destruct (_ || _) eqn:Htime; [done|]. intros [= <-].
  unfold After, Before in Htime. to_prop. split_and!; try done; lia.
Qed.
End coverage.

Section runs.
Context {RT : Runtime} {AL : AgentLibrary} {O : Type} {externalE : Type → Type} {HO : Outside externalE O}.
Context (client : Store → Store → Prop).
Abbreviation program := (prog (apiE externalE)).
Abbreviation world := (world Store O).
Abbreviation concurrently := (crun (handle_api (S := Store) (O := O)) (other_client client)).

(** An error that is returned as it is. *)
Lemma crun_refused {A} (err : error) (a : A) (w w' : world) :
  ¬ concurrently (Ret (Err err) : program (outcome A)) w (Ok a) w'.
Proof using Type. by intros [? _]. Qed.

(** A read, and the rest of the run from the store it was answered in. *)
Lemma crun_read {A B} (e : Durable.storeE A) (f : error → error) (k : A → program (outcome B)) (w : world) b w' :
  (∀ s, (handle_store e s).2 = s) →
  concurrently (prog_bind (durable e) (λ r, match r with Ok x => k x | Err err => Ret (Err (f err)) end)) w (Ok b) w' →
  ∃ a (w1 : world), rtc client (store w) (store w1) ∧ (handle_store e (store w1)).1 = Ok a
    ∧ concurrently (k a) w1 (Ok b) w'.
Proof using Type.
  intros Hread (w1 & a & w2 & Hw1 & He & Hrun)%crun_try. exists a, w2. split; [|split; [|done]].
  - pose proof (Hread (store w1)) as Hs. rewrite He in Hs. cbn in Hs. by rewrite Hs.
  - pose proof (Hread (store w1)) as Hs. rewrite He in Hs. cbn in Hs. by rewrite Hs, He.
Qed.

Lemma validate_covered intent items (w : world) w' :
  concurrently (validateMissionAgainstIntent intent items) w (Ok tt) w' →
  ∃ s volumes volume, rtc client (store w) s
    ∧ ListOperationalVolumes (Intent_ID intent) s = Ok volumes
    ∧ authorized_volume intent volumes = Ok volume
    ∧ covered volume items ∧ rtc client s (store w').
Proof using Type.
  intros (volumes & w1 & Hw1 & Hvolumes & Hrun)%crun_read; [|done].
  destruct (authorized_volume intent volumes) as [volume|err] eqn:Hvolume; [|by apply crun_refused in Hrun].
  apply crun_store in Hrun as (w3 & Hw3 & Hrun). cbn [handle_store memory_store fst snd] in Hrun.
  exists (store w1), volumes, volume. split_and!; [done|exact Hvolumes|done| |].
  all: revert Hrun; unfold CheckMissionCoverage;
    destruct (decodeMissionPolygon (Volume_GeoJSON volume)) as [polygon|err] eqn:Hpolygon;
    [|case_match; intros Hrun; by apply crun_refused in Hrun];
    destruct (mission_findings _ _ _) eqn:Hfindings; [|intros Hrun; by apply crun_refused in Hrun].
  - intros _. apply mission_findings_none in Hfindings as [Hcoverage Haltitudes]. constructor.
    + intros item Hitem. by apply orb_false_iff, Haltitudes.
    + exists polygon. split; [done|]. by apply coverage_of_none.
  - intros [_ Hw']%crun_ret. by etrans.
Qed.

(** C5: Nothing is imported but an authorized mission.  When an import succeeds
    that is not the replay of an earlier one, then in the stores [s1], ..., [s6]
    that the run went through in this order, with any calls of the other clients
    [client] before, between and after them: the flight was planned, for the
    aircraft and the version of the intent that the request names ([s1]); that
    version of the intent was accepted or active ([s2]) and the current one
    ([s3]); its only volume ([s4]) is given above mean sea level and covers the
    whole window of the intent, every item of the parsed mission lies within its
    altitudes and its footprint, and so does the route between consecutive
    items; and the store took the mission with exactly these items and bindings
    ([s5] to [s6]). *)
Theorem imported_mission_authorized flightID key req (w : world) r w' :
  concurrently (ImportMission flightID key req) w (Ok r) w' →
  ImportResult_Replayed r = true
  ∨ ∃ items warnings digest sha flight intent current volumes volume mission s1 s2 s3 s4 s5 s6,
      parseWPL110 (Import_Source req) = Ok (items, warnings, digest, sha)
      ∧ rtc client (store w) s1
      ∧ GetFlightRecord (TrimSpace flightID) s1 = Ok flight
      ∧ Flight_Status flight = FlightStatusPlanned
      ∧ Flight_AircraftID flight = TrimSpace (Import_AircraftID req)
      ∧ Flight_IntentID flight = TrimSpace (Import_IntentID req)
      ∧ Flight_IntentVersion flight = Import_IntentVersion req
      ∧ rtc client s1 s2
      ∧ GetOperationalIntentVersion (Flight_IntentID flight) (Flight_IntentVersion flight) s2 = Ok intent
      ∧ (Intent_Status intent = IntentStatusAccepted ∨ Intent_Status intent = IntentStatusActive)
      ∧ Intent_AircraftID intent = Flight_AircraftID flight
      ∧ rtc client s2 s3
      ∧ GetOperationalIntent (Flight_IntentID flight) s3 = Ok current
      ∧ Intent_Version current = Flight_IntentVersion flight
      ∧ rtc client s3 s4
      ∧ ListOperationalVolumes (Intent_ID intent) s4 = Ok volumes
      ∧ authorized_volume intent volumes = Ok volume ∧ covered volume items
      ∧ rtc client s4 s5
      ∧ CreateMissionForPlannedFlight mission s5 = (Ok (ImportResult_Mission r), s6)
      ∧ Mission_Items mission = items ∧ Mission_MissionDigest mission = digest
      ∧ Mission_FlightID mission = Flight_ID flight ∧ Mission_AircraftID mission = Flight_AircraftID flight
      ∧ Mission_IntentID mission = Flight_IntentID flight
      ∧ Mission_IntentVersion mission = Flight_IntentVersion flight
      ∧ rtc client s6 (store w').
Proof using Type.
  unfold ImportMission. cbv zeta. cbn [Import_SourceFormat Import_Source Import_AircraftID Import_IntentID Import_IntentVersion].
  destruct (_ || _); [by intros ?%crun_refused|]. destruct (validateIdempotencyKey _); [by intros ?%crun_refused|].
  destruct (_ <>s _); [by intros ?%crun_refused|].
  intros (w1 & Hw1 & Hrun)%crun_store. destruct (handle_store _ (store w1)).1 as [existing|err].
  { destruct (_ <>s _); [by apply crun_refused in Hrun|]. apply crun_ret in Hrun as [[= ->] _]. by left. }
  destruct (negb _); [by apply crun_refused in Hrun|]. right. revert Hrun. unfold import_new.
  destruct (parseWPL110 _) as [[[[items warnings] digest] sha]|]; [|by intros ?%crun_refused].
  destruct (sha <>s _); [by intros ?%crun_refused|].
  intros (flight & w2 & Hw2 & Hflight & Hrun)%crun_read; [|done]. cbn in Hw2.
  destruct (import_binding _ flight) eqn:Hbinding; [by apply crun_refused in Hrun|].
  apply crun_read in Hrun as (intent & w3 & Hw3 & Hintent & Hrun); [|done].
  apply crun_read in Hrun as (current & w4 & Hw4 & Hcurrent & Hrun); [|done].
  destruct (import_intent flight intent current) eqn:Hscope; [by apply crun_refused in Hrun|].
  apply crun_read in Hrun as (aircraft & w5 & Hw5 & _ & Hrun); [|done].
  destruct (consistentOperatorID _) as [operatorID|]; [|by apply crun_refused in Hrun].
  destruct (_ =s= ""); [by apply crun_refused in Hrun|].
  apply crun_bind in Hrun as ([[]|err'] & w6 & Hvalid & Hrun); [|by apply crun_refused in Hrun].
  apply validate_covered in Hvalid as (s4 & volumes & volume & Hs4 & Hvolumes & Hvolume & Hcovered & Hw6).
  apply crun_bind in Hrun as (id & w7 & Hid & Hrun).
  destruct Hid as (w7' & Hw7'%other_clients_store & [_ Hw7]%crun_ret). cbn in Hw7.
  apply crun_now in Hrun as (w8 & t & Hw8 & Hrun).
  apply crun_try in Hrun as (w9 & stored & w10 & Hw9 & Hcreate & Hrun).
  apply crun_ret in Hrun as [[= ->] Hend].
  unfold import_binding in Hbinding. unfold import_intent in Hscope.
  branches_in Hbinding. branches_in Hscope. to_prop.
  assert (rtc client s4 (store w9)) as Hs5.
  { etrans; [exact Hw6|]. etrans; [exact Hw7'|]. etrans; [exact Hw7|]. by etrans. }
  eexists items, warnings, digest, sha, flight, intent, current, volumes, volume, _, (store w2), (store w3), (store w4), s4,
    (store w9), (store w10).
  split_and!; try first [done|assumption|by etrans].
  by destruct Hbr3; to_prop; auto.
Qed.
End runs.

(** ** A mission, imported *)

#[local] Existing Instance reference_runtime.
#[local] Existing Instance reference_agent_library.

Definition import_volume : OperationalVolume :=
  demo_volume <| Volume_GeoJSON := GoJson.quoted_text
      "{'type': 'Polygon', 'coordinates': [[[8,47],[9,47],[9,48],[8,48],[8,47]]]}" |>
    <| Volume_AltitudeRef := AltitudeReferenceMSL |> <| Volume_MinAltitudeM := float_of_Z 300 |>
    <| Volume_MaxAltitudeM := float_of_Z 500 |>.

Definition import_aircraft : Aircraft :=
  zero_Aircraft <| Aircraft_ID := "a1" |> <| Aircraft_OperatorID := "op" |> <| Aircraft_AgentID := "agent1" |>.

Definition import_calls : list store_call :=
  [StoreCall (Durable.CreateAircraft import_aircraft);
   StoreCall (Durable.CreateOperationalIntent demo_submitted);
   StoreCall (Durable.RecordOperationalVolume import_volume);
   StoreCall (Durable.AcceptOperationalIntent demo_accepted 0);
   StoreCall (Durable.CreateFlightRecord demo_flight)].

Definition import_request : ImportMissionRequest :=
  mkImportMissionRequest MissionSourceFormatQGCWPL110 demo_source "a1" "i1" 1.

Definition import_run : outcome ImportMissionResult * world Store unit :=
  run handle_api (ImportMission "f1" "import-1" import_request) (demo_world (demo import_calls)).

Lemma imported_mission_authorized_witness :
  ∃ r w', import_run = (Ok r, w') ∧ ImportResult_Replayed r = false
    ∧ ∃ volume, Volume_AltitudeRef volume = AltitudeReferenceMSL ∧ covered volume demo_items.
Proof.
  do 2 eexists. split; [vm_compute; reflexivity|]. split; [reflexivity|].
  edestruct (imported_mission_authorized (externalE := no_external) (HO := no_outside) nobody
      "f1" "import-1" import_request (demo_world (demo import_calls)))
    as [H|(items & ws & d & sha & flight & intent & current & volumes & volume & m & s1 & s2 & s3 & s4 & s5 & s6 & H)];
    [apply run_alone; vm_compute; reflexivity|discriminate H|].
  destruct H as (Hparse & _ & _ & _ & _ & _ & _ & _ & _ & _ & _ & _ & _ & _ & _ & _ & Hvolume & Hcovered & _).
  cbv [import_request Import_Source] in Hparse. rewrite demo_source_parses in Hparse. injection Hparse as <- _ _ _.
  exists volume. split; [|exact Hcovered]. by apply authorized_volume_Ok in Hvolume as (_ & ? & _).
Defined.
