(* ===== verification/MissionDeployment.v ===== *)
(** * The mission deployment service

    src/internal/service/mission_deployment.go: the deployment of the current
    mission of a flight through the relays, as a program over the durable store
    and the interface MissionDeployer.  A deployment is one durable command;
    requests with the same idempotency key continue it. *)

From S2P Require Import Prelude GoRuntime GoStrings GoSha256 Domain Errors Program DurableStore AgentMessages MissionParser MissionImport.
From stdpp Require Import options.

Definition missionDeploymentCommandTTL : Duration := 2 * Minute.
Definition missionDeploymentReconciliationTTL : Duration := 15 * Minute.

Record DeployMissionResult : Set := mkDeployMissionResult {
  DeployResult_Deployment : MissionDeployment;
  DeployResult_Replayed : bool;
}.

(** The interface of the adapter that talks to the relays. *)
Record MissionDeployer {externalE : Type → Type} := mkMissionDeployer {
  EnsureOperationContext : string → SetOperationContextCommand → prog (apiE externalE) (outcome unit);
  ClearOperationContextForReconciliation :
    string → ClearOperationContextCommand → OperationContext → prog (apiE externalE) (outcome unit);
  DeployMission : string → DeployMissionCommand → prog (apiE externalE) (outcome (option MissionDeploymentResult));
}.
Arguments MissionDeployer : clear implicits.

Definition missionDeploymentRetryable (status : MissionDeploymentStatus) : bool :=
  (status =s= MissionDeploymentPending) || (status =s= MissionDeploymentTemporaryError)
  || (status =s= MissionDeploymentOutcomeUnknown).

(** The text that identifies a request under its key. *)
Definition deployment_request_hash (flightID missionID : string) (missionVersion : Z) (digest : string) : string :=
  sha256_hex ("deploy-mission-v1" +:+ String nul (flightID +:+ String nul (missionID +:+ String nul
    (Itoa missionVersion +:+ String nul digest)))).

(** Both are the same command. *)
Definition sameMissionDeploymentCommand (left right : MissionDeployment) : bool :=
  (Deployment_ID left =s= Deployment_ID right) && (Deployment_OperatorID left =s= Deployment_OperatorID right)
  && (Deployment_FlightID left =s= Deployment_FlightID right)
  && (Deployment_AircraftID left =s= Deployment_AircraftID right)
  && (Deployment_AgentID left =s= Deployment_AgentID right)
  && (Deployment_IntentID left =s= Deployment_IntentID right)
  && (Deployment_IntentVersion left =? Deployment_IntentVersion right)
  && (Deployment_MissionID left =s= Deployment_MissionID right)
  && (Deployment_MissionVersion left =? Deployment_MissionVersion right)
  && (Deployment_MissionDigest left =s= Deployment_MissionDigest right)
  && (Deployment_CommandID left =s= Deployment_CommandID right)
  && (Deployment_OperationContextCommandID left =s= Deployment_OperationContextCommandID right)
  && (Deployment_ReconciliationClearCommandID left =s= Deployment_ReconciliationClearCommandID right)
  && (Deployment_IdempotencyKey left =s= Deployment_IdempotencyKey right)
  && (Deployment_IdempotencyRequest left =s= Deployment_IdempotencyRequest right)
  && TimeEqual (Deployment_IssuedAt left) (Deployment_IssuedAt right)
  && TimeEqual (Deployment_ExpiresAt left) (Deployment_ExpiresAt right)
  && TimeEqual (Deployment_ReconcileUntil left) (Deployment_ReconcileUntil right)
  && TimeEqual (Deployment_CreatedAt left) (Deployment_CreatedAt right).

(** ** Commands and results *)

(** The getters of protobuf read the zero value from an absent message; here
    both messages are present. *)
Definition missionBindingsEqual (left right : option MissionBinding) : bool :=
  match left, right with
  | Some l, Some r =>
      (Binding_MissionId l =s= Binding_MissionId r) && (Binding_MissionVersion l =? Binding_MissionVersion r)
      && (Binding_MissionDigest l =s= Binding_MissionDigest r)
      && (Binding_DeploymentId l =s= Binding_DeploymentId r)
      && (Binding_OperatorId l =s= Binding_OperatorId r) && (Binding_AircraftId l =s= Binding_AircraftId r)
      && (Binding_FlightId l =s= Binding_FlightId r) && (Binding_IntentId l =s= Binding_IntentId r)
      && (Binding_IntentVersion l =? Binding_IntentVersion r)
  | _, _ => false
  end.

Definition mission_binding (deployment : MissionDeployment) (mission : Mission) : MissionBinding :=
  mkMissionBinding (Mission_ID mission) (wrap_uint32 (Mission_Version mission)) (Mission_MissionDigest mission)
    (Deployment_ID deployment) (Mission_OperatorID mission) (Mission_AircraftID mission)
    (Mission_FlightID mission) (Mission_IntentID mission) (wrap_uint32 (Mission_IntentVersion mission)).

Definition missionDeploymentCommand (deployment : MissionDeployment) (mission : Mission) : DeployMissionCommand :=
  mkDeployMissionCommand (Deployment_CommandID deployment) (Some (mission_binding deployment mission))
    (Some (canonicalMissionPlan (Mission_Items mission))) (UnixMilli (Deployment_IssuedAt deployment))
    (UnixMilli (Deployment_ExpiresAt deployment)).

(** The map [statuses]. *)
Definition status_of_result (status : DeploymentResultStatus) : option MissionDeploymentStatus :=
  match status with
  | STATUS_APPLIED => Some MissionDeploymentApplied
  | STATUS_ALREADY_APPLIED => Some MissionDeploymentAlreadyApplied
  | STATUS_REJECTED => Some MissionDeploymentRejected
  | STATUS_TEMPORARY_ERROR => Some MissionDeploymentTemporaryError
  | STATUS_OUTCOME_UNKNOWN => Some MissionDeploymentOutcomeUnknown
  | STATUS_BINDING_MISMATCH => Some MissionDeploymentBindingMismatch
  | STATUS_ONBOARD_MISSION_MISMATCH => Some MissionDeploymentOnboardMissionMismatch
  | STATUS_OTHER _ => None
  end.

(** The status, after the comparison with what was uploaded. *)
Definition verified_status (deployment : MissionDeployment) (result : MissionDeploymentResult) (itemCount : Z)
    (status : MissionDeploymentStatus) : MissionDeploymentStatus :=
  let other_digest := Result_OnboardMissionDigest result <>s Deployment_MissionDigest deployment in
  let status :=
    if (status =s= MissionDeploymentApplied) && (other_digest || (Result_UploadedItemCount result <>z itemCount))
    then MissionDeploymentOnboardMissionMismatch else status in
  if (status =s= MissionDeploymentAlreadyApplied) && other_digest
  then MissionDeploymentOnboardMissionMismatch else status.

Definition recorded_result (deployment : MissionDeployment) (result : MissionDeploymentResult)
    (status : MissionDeploymentStatus) : MissionDeployment :=
  let deployment :=
    deployment
      <| Deployment_Status := status |>
      <| Deployment_Message := Result_Message result |>
      <| Deployment_UploadedItemCount := Result_UploadedItemCount result |>
      <| Deployment_OnboardMissionDigest := Result_OnboardMissionDigest result |> in
  let deployment :=
    match Result_MavlinkMissionAckType result with
    | Some value => deployment <| Deployment_MAVLinkMissionAckType := Some value |>
    | None => deployment
    end in
  if 0 <? Result_CompletedAtUnixMs result
  then deployment <| Deployment_CompletedAt := Some (UTC (time_UnixMilli (Result_CompletedAtUnixMs result))) |>
  else deployment.

Section results.
Context {AL : AgentLibrary}.

(** The deployment with the result, or the error that leaves it as it is. *)
Definition applyMissionDeploymentResult (deployment : MissionDeployment) (result : option MissionDeploymentResult)
    (binding : option MissionBinding) (itemCount : Z) : outcome MissionDeployment :=
  match result with
  | None => Err (plain "relay returned no mission deployment result")
  | Some result =>
      if (Result_CommandId result <>s Deployment_CommandID deployment)
         || negb (missionBindingsEqual (Result_Binding result) binding)
      then Err (plain "relay returned a mission deployment result for a different command or binding")
      else
        match status_of_result (Result_Status result) with
        | None => Err (plain ("relay returned unsupported mission deployment status "
                                +:+ deployment_status_name (Result_Status result)))
        | Some status =>
            Ok (recorded_result deployment result (verified_status deployment result itemCount status))
        end
  end.
End results.

(** ** The records the service writes *)

Definition created_deployment (id commandID contextCommandID clearCommandID : string) (flight : FlightRecord)
    (mission : Mission) (aircraft : Aircraft) (idempotencyKey requestHash : string) (t : Time)
    : MissionDeployment :=
  zero_MissionDeployment
    <| Deployment_ID := id |>
    <| Deployment_OperatorID := Mission_OperatorID mission |>
    <| Deployment_FlightID := Flight_ID flight |>
    <| Deployment_AircraftID := Flight_AircraftID flight |>
    <| Deployment_AgentID := Aircraft_AgentID aircraft |>
    <| Deployment_IntentID := Flight_IntentID flight |>
    <| Deployment_IntentVersion := Flight_IntentVersion flight |>
    <| Deployment_MissionID := Mission_ID mission |>
    <| Deployment_MissionVersion := Mission_Version mission |>
    <| Deployment_MissionDigest := Mission_MissionDigest mission |>
    <| Deployment_CommandID := commandID |>
    <| Deployment_OperationContextCommandID := contextCommandID |>
    <| Deployment_ReconciliationClearCommandID := clearCommandID |>
    <| Deployment_IdempotencyKey := idempotencyKey |>
    <| Deployment_IdempotencyRequest := requestHash |>
    <| Deployment_Status := MissionDeploymentPending |>
    <| Deployment_IssuedAt := t |>
    <| Deployment_ExpiresAt := TimeAdd t missionDeploymentCommandTTL |>
    <| Deployment_ReconcileUntil :=
         TimeAdd t (missionDeploymentCommandTTL + missionDeploymentReconciliationTTL) |>
    <| Deployment_CreatedAt := t |>
    <| Deployment_UpdatedAt := t |>.

(** A context command that was not acknowledged: [when_started] is the message
    once a dispatch has started, [otherwise] before. *)
Definition context_failure (deployment : MissionDeployment) (t : Time) (when_started otherwise : string)
    (err : error) : MissionDeployment :=
  let updated := deployment
    <| Deployment_AttemptCount := int64_succ (Deployment_AttemptCount deployment) |>
    <| Deployment_UpdatedAt := t |> in
  if Deployment_DispatchStarted deployment
  then updated <| Deployment_Status := MissionDeploymentOutcomeUnknown |>
               <| Deployment_Message := when_started +:+ Error err |>
  else updated <| Deployment_Status := MissionDeploymentTemporaryError |>
               <| Deployment_Message := otherwise +:+ Error err |>.

(** The marker that is stored before the mission leaves. *)
Definition dispatch_marker (deployment : MissionDeployment) (t : Time) : MissionDeployment :=
  deployment
    <| Deployment_AttemptCount := int64_succ (Deployment_AttemptCount deployment) |>
    <| Deployment_DispatchStarted := true |>
    <| Deployment_UpdatedAt := t |>
    <| Deployment_Status := MissionDeploymentOutcomeUnknown |>
    <| Deployment_Message := "mission dispatch began; no correlated Agent outcome has been persisted yet" |>.

Definition expired_deployment (deployment : MissionDeployment) (message : string) (t : Time) : MissionDeployment :=
  deployment <| Deployment_Status := MissionDeploymentOutcomeUnknown |> <| Deployment_Message := message |>
    <| Deployment_UpdatedAt := t |>.

(** The known outcome, carried over to the record of a concurrent attempt. *)
Definition carry_outcome (current desired : MissionDeployment) : MissionDeployment :=
  let current := current
    <| Deployment_Status := Deployment_Status desired |>
    <| Deployment_Message := Deployment_Message desired |>
    <| Deployment_UploadedItemCount := Deployment_UploadedItemCount desired |>
    <| Deployment_OnboardMissionDigest := Deployment_OnboardMissionDigest desired |>
    <| Deployment_MAVLinkMissionAckType := Deployment_MAVLinkMissionAckType desired |>
    <| Deployment_CompletedAt := Deployment_CompletedAt desired |> in
  if After (Deployment_UpdatedAt desired) (Deployment_UpdatedAt current)
  then current <| Deployment_UpdatedAt := Deployment_UpdatedAt desired |> else current.

(** ** The operations

    A phase of the deployment either ends the request with its outcome ([inl])
    or goes on with a value ([inr]). *)

Abbreviation phase A := (outcome DeployMissionResult + A)%type.

Notation "'phase!' x := p 'in' q" :=
  (prog_bind p (λ r, match r with inr x => q | inl result => Ret (inl result) end))
  (at level 10, x binder, p at level 100, q at level 200) : go_scope.

(** A call of an interface inside a phase. *)
Notation "'try_phase!' x := p 'orelse' f 'in' q" :=
  (prog_bind p (λ r, match r with Ok x => q | Err e => Ret (inl (Err (f e))) end))
  (at level 10, x binder, p at level 100, f at level 100, q at level 200) : go_scope.

Section service.
Context {AL : AgentLibrary} {externalE : Type → Type}.
Abbreviation program := (prog (apiE externalE)).
Context (missionDeployer : option (MissionDeployer externalE)).

(** *** Guards *)

Definition replay_binding (deployment : MissionDeployment) (mission : Mission) : option error :=
  if (Mission_ID mission <>s Deployment_MissionID deployment)
     || (Mission_Version mission <>z Deployment_MissionVersion deployment)
     || (Mission_MissionDigest mission <>s Deployment_MissionDigest deployment)
     || (Mission_OperatorID mission <>s Deployment_OperatorID deployment)
     || (Mission_AircraftID mission <>s Deployment_AircraftID deployment)
     || (Mission_IntentID mission <>s Deployment_IntentID deployment)
     || (Mission_IntentVersion mission <>z Deployment_IntentVersion deployment)
  then Some (because ErrVersionConflict "terminal deployment belongs to a superseded mission binding")
  else None.

Definition validateCurrentMissionDeploymentReplay (deployment : MissionDeployment) : program (outcome unit) :=
  try! mission := GetCurrentMission (Deployment_FlightID deployment) orelse id in
  match replay_binding deployment mission with
  | Some err => Ret (Err err)
  | None => Ret (Ok tt)
  end.

Definition flight_intent_binding (flight : FlightRecord) (intent : OperationalIntent) : bool :=
  (Intent_Version intent =? Flight_IntentVersion flight)
  && (Intent_AircraftID intent =s= Flight_AircraftID flight)
  && ((Intent_Status intent =s= IntentStatusAccepted) || (Intent_Status intent =s= IntentStatusActive)).

Definition validateMissionDeploymentBinding (flightID : string)
    : program (outcome (FlightRecord * Mission * Aircraft)) :=
  try! flight := durable (Durable.GetFlightRecord flightID) orelse wrap "get flight record" in
  if Flight_Status flight <>s FlightStatusPlanned
  then Ret (Err (because ErrInvalidTransition
         ("missions may only be deployed while flight " +:+ Flight_ID flight +:+ " is planned")))
  else
    try! mission := GetCurrentMission flightID orelse id in
    try! intent := durable (Durable.GetOperationalIntent (Flight_IntentID flight))
      orelse wrap "get current operational intent" in
    if negb (flight_intent_binding flight intent)
    then Ret (Err (because ErrInvalidTransition
           "flight is not bound to the current accepted or active intent version"))
    else
      try! aircraft := durable (Durable.GetAircraft (Flight_AircraftID flight)) orelse wrap "get bound aircraft" in
      if TrimSpace (Aircraft_AgentID aircraft) =s= ""
      then Ret (Err (because ErrValidation "bound aircraft has no authoritative agent_id"))
      else if (Aircraft_OperatorID aircraft <>s Mission_OperatorID mission)
              || (Intent_OperatorID intent <>s Mission_OperatorID mission)
      then Ret (Err (because ErrVersionConflict "deployment operator bindings disagree"))
      else Ret (Ok (flight, mission, aircraft)).

(** *** Writes *)

(** A write that the store refused: after a conflict, what is stored is the
    answer. *)
Definition refused_update (deploymentID context : string) (err : error) : program (outcome DeployMissionResult) :=
  let failure := Ret (Err (wrap context err)) in
  if errors_Is err ErrVersionConflict then
    let! read := durable (Durable.GetMissionDeployment deploymentID) in
    match read with
    | Ok current => Ret (Ok (mkDeployMissionResult current true))
    | Err _ => failure
    end
  else failure.

Definition write_and_return (updated deployment : MissionDeployment) (replayed : bool) (context : string)
    : program (outcome DeployMissionResult) :=
  let! written := durable (Durable.UpdateMissionDeployment updated (Deployment_Revision deployment)) in
  match written with
  | Err err => refused_update (Deployment_ID deployment) context err
  | Ok _ =>
      Ret (Ok (mkDeployMissionResult
        (updated <| Deployment_Revision := int64_succ (Deployment_Revision updated) |>) replayed))
  end.

Definition persistUndispatchedMissionExpiry (deployment : MissionDeployment) (replayed : bool) (message : string)
    (t : Time) : program (outcome DeployMissionResult) :=
  write_and_return (expired_deployment deployment message t) deployment replayed
    "persist expired mission deployment".

(** The loop without end, with [fuel] for its rounds; [None] when it runs out. *)
Fixpoint persistCorrelatedMissionDeploymentResult (fuel : nat) (desired : MissionDeployment) (expectedRevision : Z)
    : program (option (outcome MissionDeployment)) :=
  match fuel with
  | O => Ret None
  | S fuel =>
      let! written := durable (Durable.UpdateMissionDeployment desired expectedRevision) in
      match written with
      | Ok _ => Ret (Some (Ok (desired <| Deployment_Revision := int64_succ expectedRevision |>)))
      | Err err =>
          if negb (errors_Is err ErrVersionConflict) then Ret (Some (Err err))
          else
            let! read := durable (Durable.GetMissionDeployment (Deployment_ID desired)) in
            match read with
            | Err err => Ret (Some (Err err))
            | Ok current =>
                if negb (sameMissionDeploymentCommand current desired)
                then Ret (Some (Err ErrVersionConflict))
                else if negb (missionDeploymentRetryable (Deployment_Status current))
                then Ret (Some (Ok current))
                else if missionDeploymentRetryable (Deployment_Status desired) then Ret (Some (Ok current))
                else persistCorrelatedMissionDeploymentResult fuel (carry_outcome current desired)
                       (Deployment_Revision current)
            end
      end
  end.

(** *** DeployCurrentMission, phase by phase *)

(** A request whose key was used before: a finished deployment is the answer. *)
Definition replay_phase (flightID expectedMissionID expectedDigest idempotencyKey : string) : program (phase unit) :=
  let! lookup := durable (Durable.GetMissionDeploymentByIdempotencyKey idempotencyKey) in
  match lookup with
  | Err err =>
      if errors_Is err ErrNotFound then Ret (inr tt)
      else Ret (inl (Err (wrap "get mission deployment replay" err)))
  | Ok existing =>
      if (Deployment_FlightID existing <>s flightID) || (Deployment_MissionID existing <>s expectedMissionID)
         || (Deployment_MissionDigest existing <>s expectedDigest)
      then Ret (inl (Err ErrIdempotencyConflict))
      else if Deployment_IdempotencyRequest existing
              <>s deployment_request_hash (Deployment_FlightID existing) (Deployment_MissionID existing)
                    (Deployment_MissionVersion existing) (Deployment_MissionDigest existing)
      then Ret (inl (Err ErrIdempotencyConflict))
      else if negb (missionDeploymentRetryable (Deployment_Status existing)) then
        try_phase! _ := validateCurrentMissionDeploymentReplay existing orelse id in
        Ret (inl (Ok (mkDeployMissionResult existing true)))
      else Ret (inr tt)
  end.

(** The durable command: created now, or found under the key; with the reading
    of the clock that the expiry is compared with. *)
Definition create_phase (flightID expectedMissionID expectedDigest idempotencyKey : string)
    : program (phase (MissionDeployment * bool * Time)) :=
  try_phase! binding := validateMissionDeploymentBinding flightID orelse id in
  let '(flight, mission, aircraft) := binding in
  if (Mission_ID mission <>s expectedMissionID) || (Mission_MissionDigest mission <>s expectedDigest)
  then Ret (inl (Err (because ErrVersionConflict
         "expected mission identity or digest is not the current immutable mission")))
  else
    let requestHash := deployment_request_hash (Flight_ID flight) (Mission_ID mission) (Mission_Version mission)
                         (Mission_MissionDigest mission) in
    let! t := now in
    let t := UTC t in
    let! newID := call NewString in
    let! commandID := call NewString in
    let! contextCommandID := call NewString in
    let! clearCommandID := call NewString in
    let created := created_deployment newID commandID contextCommandID clearCommandID flight mission aircraft
                     idempotencyKey requestHash t in
    try_phase! deployment := durable (Durable.CreateMissionDeploymentForPlannedFlight created)
      orelse wrap "create mission deployment" in
    let replayed := Deployment_ID deployment <>s Deployment_ID created in
    if replayed && (Deployment_IdempotencyRequest deployment <>s requestHash)
    then Ret (inl (Err ErrIdempotencyConflict))
    else if replayed && negb (missionDeploymentRetryable (Deployment_Status deployment)) then
      try_phase! _ := validateCurrentMissionDeploymentReplay deployment orelse id in
      Ret (inl (Ok (mkDeployMissionResult deployment true)))
    else Ret (inr (deployment, replayed, t)).

(** The expiry at [t]: whether only a read-back of a started dispatch is left. *)
Definition expiry_phase (deployment : MissionDeployment) (replayed : bool) (t : Time) : program (phase bool) :=
  let commandExpired := negb (After (Deployment_ExpiresAt deployment) t) in
  let reconciliationOpen := After (Deployment_ReconcileUntil deployment) t in
  if commandExpired
     && (negb replayed || (Deployment_Status deployment <>s MissionDeploymentOutcomeUnknown)
         || negb (Deployment_DispatchStarted deployment) || negb reconciliationOpen)
  then
    if missionDeploymentRetryable (Deployment_Status deployment) then
      let message :=
        if reconciliationOpen then "deployment command expired before its first dispatch; no effect was authorized"
        else "deployment reconciliation window elapsed with no correlated terminal outcome" in
      let! result := persistUndispatchedMissionExpiry deployment replayed message t in
      Ret (inl result)
    else Ret (inl (Ok (mkDeployMissionResult deployment replayed)))
  else Ret (inr (commandExpired && Deployment_DispatchStarted deployment)).

(** The bindings, read again before every dispatch. *)
Definition rebind_phase (flightID : string) (deployment : MissionDeployment)
    : program (phase (FlightRecord * Mission)) :=
  try_phase! binding := validateMissionDeploymentBinding flightID orelse id in
  let '(flight, mission, aircraft) := binding in
  if (Mission_ID mission <>s Deployment_MissionID deployment)
     || (Mission_Version mission <>z Deployment_MissionVersion deployment)
     || (Mission_MissionDigest mission <>s Deployment_MissionDigest deployment)
     || (Aircraft_AgentID aircraft <>s Deployment_AgentID deployment)
  then Ret (inl (Err (because ErrVersionConflict
         "mission or aircraft placement binding changed before dispatch")))
  else Ret (inr (flight, mission)).

(** A failure of a context command ends the request with what is stored of it. *)
Definition context_failed (deployment : MissionDeployment) (replayed : bool)
    (when_started otherwise context : string) (err : error) : program (outcome DeployMissionResult) :=
  let! t := now in
  write_and_return (context_failure deployment (UTC t) when_started otherwise err) deployment replayed context.

(** The context of the aircraft's previous deployment. *)
Definition previous_context (previous : MissionDeployment) : OperationContext :=
  mkOperationContext (Deployment_AircraftID previous) (Deployment_FlightID previous) (Deployment_IntentID previous)
    (wrap_uint32 (Deployment_IntentVersion previous)).

Section deployer.
Context (deployer : MissionDeployer externalE).

Definition clear_context (deployment : MissionDeployment) (replayed : bool) : program (phase unit) :=
  let! previous := durable (Durable.GetPreviousMissionDeploymentForAircraft
                              (Deployment_AircraftID deployment) (Deployment_ID deployment)) in
  match previous with
  | Err err =>
      if errors_Is err ErrNotFound then Ret (inr tt)
      else Ret (inl (Err (wrap "get previous aircraft mission deployment" err)))
  | Ok previous =>
      if Deployment_FlightID previous <>s Deployment_FlightID deployment then
        let! cleared := ClearOperationContextForReconciliation deployer (Deployment_AgentID deployment)
          (mkClearOperationContextCommand (Deployment_ReconciliationClearCommandID deployment)
             (Deployment_FlightID previous) false)
          (previous_context previous) in
        match cleared with
        | Ok _ => Ret (inr tt)
        | Err err =>
            let! result := context_failed deployment replayed
              "previous operation context was not conditionally cleared during reconciliation; prior mission outcome remains unknown: "
              "previous operation context was not conditionally cleared; mission was not dispatched: "
              "persist operation context clear failure" err in
            Ret (inl result)
        end
      else Ret (inr tt)
  end.

(** Before a dispatch that is no read-back: the old context is cleared, and the
    clock is read again. *)
Definition clear_phase (deployment : MissionDeployment) (replayed postExpiryReadback : bool)
    : program (phase bool) :=
  if postExpiryReadback then Ret (inr true)
  else
    phase! _ := clear_context deployment replayed in
    let! t := now in
    let phaseNow := UTC t in
    if negb (After (Deployment_ExpiresAt deployment) phaseNow) then
      if Deployment_Status deployment =s= MissionDeploymentOutcomeUnknown then Ret (inr true)
      else
        let! result := persistUndispatchedMissionExpiry deployment replayed
          "deployment authorization expired after context clear; mission was not dispatched" phaseNow in
        Ret (inl result)
    else Ret (inr false).

(** Then the new context is set. *)
Definition context_phase (deployment : MissionDeployment) (flight : FlightRecord)
    (replayed postExpiryReadback : bool) : program (phase unit) :=
  if postExpiryReadback then Ret (inr tt)
  else
    let! acknowledged := EnsureOperationContext deployer (Deployment_AgentID deployment)
      (mkSetOperationContextCommand (Deployment_OperationContextCommandID deployment)
         (Some (mkOperationContext (Flight_AircraftID flight) (Flight_ID flight) (Flight_IntentID flight)
                  (wrap_uint32 (Flight_IntentVersion flight))))) in
    match acknowledged with
    | Err err =>
        let! result := context_failed deployment replayed
          "operation context was not acknowledged during reconciliation; prior mission outcome remains unknown: "
          "operation context was not acknowledged; mission was not dispatched: "
          "persist operation context failure" err in
        Ret (inl result)
    | Ok _ =>
        let! t := now in
        let phaseNow := UTC t in
        if negb (After (Deployment_ExpiresAt deployment) phaseNow)
           && (Deployment_Status deployment <>s MissionDeploymentOutcomeUnknown)
        then
          let! result := persistUndispatchedMissionExpiry deployment replayed
            "deployment authorization expired after context acknowledgement; mission was not dispatched" phaseNow in
          Ret (inl result)
        else Ret (inr tt)
    end.

(** The marker of the dispatch, stored before the mission leaves. *)
Definition marker_phase (deployment : MissionDeployment) : program (phase MissionDeployment) :=
  let! t := now in
  let dispatching := dispatch_marker deployment (UTC t) in
  let! written := durable (Durable.UpdateMissionDeployment dispatching (Deployment_Revision deployment)) in
  match written with
  | Err err =>
      let! result := refused_update (Deployment_ID deployment) "persist mission dispatch attempt" err in
      Ret (inl result)
  | Ok _ =>
      Ret (inr (dispatching <| Deployment_Revision := int64_succ (Deployment_Revision dispatching) |>))
  end.

(** The dispatch, and the record of its result. *)
Definition attempted_deployment (deployment : MissionDeployment) (mission : Mission) (t : Time)
    (answer : outcome (option MissionDeploymentResult)) : MissionDeployment :=
  let updated := deployment <| Deployment_UpdatedAt := t |> in
  let unknown err := updated <| Deployment_Status := MissionDeploymentOutcomeUnknown |>
                             <| Deployment_Message := Error err |> in
  match answer with
  | Err err => unknown err
  | Ok result =>
      match applyMissionDeploymentResult updated result
              (Some (mission_binding deployment mission)) (Z.of_nat (length (Mission_Items mission))) with
      | Ok applied => applied
      | Err err => unknown err
      end
  end.

Definition dispatch (fuel : nat) (deployment : MissionDeployment) (mission : Mission) (replayed : bool)
    : program (option (outcome DeployMissionResult)) :=
  let! answer := DeployMission deployer (Deployment_AgentID deployment)
                   (missionDeploymentCommand deployment mission) in
  let! t := now in
  let updated := attempted_deployment deployment mission (UTC t) answer in
  let! persisted := persistCorrelatedMissionDeploymentResult fuel updated (Deployment_Revision deployment) in
  Ret (match persisted with
       | None => None
       | Some (Err err) => Some (Err (wrap "persist mission deployment result" err))
       | Some (Ok deployment) => Some (Ok (mkDeployMissionResult deployment replayed))
       end).

(** Everything up to the marker: the marked deployment and the mission. *)
Definition prepare_dispatch (flightID expectedMissionID expectedDigest idempotencyKey : string)
    : program (phase (MissionDeployment * Mission * bool)) :=
  phase! created := create_phase flightID expectedMissionID expectedDigest idempotencyKey in
  let '(deployment, replayed, t) := created in
  phase! readback := expiry_phase deployment replayed t in
  phase! bound := rebind_phase flightID deployment in
  let '(flight, mission) := bound in
  phase! readback := clear_phase deployment replayed readback in
  phase! _ := context_phase deployment flight replayed readback in
  phase! marked := marker_phase deployment in
  Ret (inr (marked, mission, replayed)).
End deployer.

Definition DeployCurrentMission (fuel : nat) (flightID expectedMissionID expectedDigest idempotencyKey : string)
    : program (option (outcome DeployMissionResult)) :=
  let flightID := TrimSpace flightID in
  let expectedMissionID := TrimSpace expectedMissionID in
  let expectedDigest := TrimSpace expectedDigest in
  let idempotencyKey := TrimSpace idempotencyKey in
  if (flightID =s= "") || (expectedMissionID =s= "") || negb (String.length expectedDigest =? 64)%nat
  then Ret (Some (Err (because ErrValidation "flight_id, expected mission_id, and mission digest are required")))
  else
    match validateIdempotencyKey idempotencyKey with
    | Some err => Ret (Some (Err err))
    | None =>
        let! replay := replay_phase flightID expectedMissionID expectedDigest idempotencyKey in
        match replay with
        | inl result => Ret (Some result)
        | inr _ =>
            match missionDeployer with
            | None => Ret (Some (Err ErrMissionDeploymentUnavailable))
            | Some deployer =>
                let! prepared := prepare_dispatch deployer flightID expectedMissionID expectedDigest idempotencyKey in
                match prepared with
                | inl result => Ret (Some result)
                | inr (deployment, mission, replayed) => dispatch deployer fuel deployment mission replayed
                end
            end
        end
    end.

(** *** The other operations *)

Definition GetMissionDeployment (flightID deploymentID : string) : program (outcome MissionDeployment) :=
  if (TrimSpace flightID =s= "") || (TrimSpace deploymentID =s= "")
  then Ret (Err (because ErrValidation "flight_id and deployment_id are required"))
  else
    try! deployment := durable (Durable.GetMissionDeployment deploymentID) orelse wrap "get mission deployment" in
    if Deployment_FlightID deployment <>s flightID then Ret (Err ErrNotFound) else Ret (Ok deployment).

Definition GetCurrentMissionDeployment (flightID : string) : program (outcome MissionDeployment) :=
  let flightID := TrimSpace flightID in
  if flightID =s= "" then Ret (Err (because ErrValidation "flight_id is required"))
  else
    try! deployment := durable (Durable.GetCurrentMissionDeploymentForFlight flightID)
      orelse wrap "get current mission deployment" in
    if Deployment_FlightID deployment <>s flightID then Ret (Err ErrNotFound) else Ret (Ok deployment).

Definition ReconcileMissionDeployment (fuel : nat) (flightID deploymentID : string)
    : program (option (outcome DeployMissionResult)) :=
  let! read := GetMissionDeployment (TrimSpace flightID) (TrimSpace deploymentID) in
  match read with
  | Err err => Ret (Some (Err err))
  | Ok deployment =>
      if negb (missionDeploymentRetryable (Deployment_Status deployment)) then
        let! valid := validateCurrentMissionDeploymentReplay deployment in
        match valid with
        | Err err => Ret (Some (Err err))
        | Ok _ => Ret (Some (Ok (mkDeployMissionResult deployment true)))
        end
      else
        DeployCurrentMission fuel (Deployment_FlightID deployment) (Deployment_MissionID deployment)
          (Deployment_MissionDigest deployment) (Deployment_IdempotencyKey deployment)
    end.
End service.
