(* ===== verification/MissionDispatch.v ===== *)
(** * When a mission leaves

    Whatever the store, the agents and the other clients answer, a mission is
    handed to the relay only under a command that is durable, marked as
    dispatched, freshly bound and not expired. *)

From S2P Require Import Prelude GoRuntime GoSha256 Domain Errors Program DurableStore ProgramLogic AgentMessages MissionParser MissionImport MissionDeployment.
From stdpp Require Import options.

(** The adapter as external calls of the service. *)
Inductive deployerE : Type → Type :=
  | AskEnsure (agentID : string) (command : SetOperationContextCommand) : deployerE (outcome unit)
  | AskClear (agentID : string) (command : ClearOperationContextCommand) (old : OperationContext)
      : deployerE (outcome unit)
  | AskDeploy (agentID : string) (command : DeployMissionCommand)
      : deployerE (outcome (option MissionDeploymentResult)).

Definition direct_deployer : MissionDeployer deployerE :=
  mkMissionDeployer _
    (λ agentID command, external (AskEnsure agentID command))
    (λ agentID command old, external (AskClear agentID command old))
    (λ agentID command, external (AskDeploy agentID command)).

Abbreviation history := (list (event (apiE deployerE))).
Abbreviation replied e r := (Event (OfStore e : apiE deployerE _) (Ok r)).
Abbreviation clock_read t := (Event (Now : apiE deployerE _) t).

(** The bindings of the flight, as the store answered in the course of [h]. *)
Definition bound (h : history) (flightID : string) (flight : FlightRecord) (mission : Mission)
    (aircraft : Aircraft) : Prop :=
  replied (Durable.GetFlightRecord flightID) flight ∈ h ∧ Flight_Status flight = FlightStatusPlanned
  ∧ replied (Durable.GetCurrentMissionForFlight (TrimSpace flightID)) mission ∈ h
  ∧ (∃ intent, replied (Durable.GetOperationalIntent (Flight_IntentID flight)) intent ∈ h
       ∧ flight_intent_binding flight intent = true ∧ Intent_OperatorID intent = Mission_OperatorID mission)
  ∧ replied (Durable.GetAircraft (Flight_AircraftID flight)) aircraft ∈ h
  ∧ Aircraft_OperatorID aircraft = Mission_OperatorID mission.

Lemma bound_mono h h' flightID flight mission aircraft :
  h ⊆ h' → bound h flightID flight mission aircraft → bound h' flightID flight mission aircraft.
Proof.
  intros Hsub (H1 & H2 & H3 & (intent & H4 & H5) & H6 & H7). unfold bound. split_and!; auto.
  exists intent. auto.
Qed.

(** The context of the previous deployment of the aircraft was cleared: there is
    none, or it is that of the same flight, or the agent acknowledged. *)
Inductive previous_cleared (d : MissionDeployment) : history → Prop :=
  | no_previous err : errors_Is err ErrNotFound = true →
      previous_cleared d
        [Event (OfStore (Durable.GetPreviousMissionDeploymentForAircraft (Deployment_AircraftID d) (Deployment_ID d)))
           (Err err)]
  | same_flight previous : Deployment_FlightID previous = Deployment_FlightID d →
      previous_cleared d
        [replied (Durable.GetPreviousMissionDeploymentForAircraft (Deployment_AircraftID d) (Deployment_ID d)) previous]
  | acknowledged_clear previous : Deployment_FlightID previous ≠ Deployment_FlightID d →
      previous_cleared d
        [Event (OfExternal (AskClear (Deployment_AgentID d)
                              (mkClearOperationContextCommand (Deployment_ReconciliationClearCommandID d)
                                 (Deployment_FlightID previous) false)
                              (previous_context previous))) (Ok tt);
         replied (Durable.GetPreviousMissionDeploymentForAircraft (Deployment_AircraftID d) (Deployment_ID d)) previous].

(** The context the mission is to fly in. *)
Definition context_of (d : MissionDeployment) (flight : FlightRecord) : SetOperationContextCommand :=
  mkSetOperationContextCommand (Deployment_OperationContextCommandID d)
    (Some (mkOperationContext (Flight_AircraftID flight) (Flight_ID flight) (Flight_IntentID flight)
             (wrap_uint32 (Flight_IntentVersion flight)))).

(** How the aircraft was prepared, last event first.  A command that had not
    expired at [t0]: the old context was cleared, the clock was read before the
    expiry, the agent acknowledged the new context, and the clock was read once
    more, before the expiry unless a dispatch whose outcome is unknown is read
    back.  Such a read-back sets no context once the expiry has passed. *)
Inductive prepared (d : MissionDeployment) (flight : FlightRecord) (t0 : Time) : history → Prop :=
  | context_acknowledged t1 t2 cleared :
      t0 < Deployment_ExpiresAt d → previous_cleared d cleared → t1 < Deployment_ExpiresAt d →
      t2 < Deployment_ExpiresAt d ∨ Deployment_Status d = MissionDeploymentOutcomeUnknown →
      prepared d flight t0
        (clock_read t2
         :: Event (OfExternal (AskEnsure (Deployment_AgentID d) (context_of d flight)) : apiE deployerE _) (Ok tt)
         :: clock_read t1 :: cleared)
  | expired_while_clearing t1 cleared :
      t0 < Deployment_ExpiresAt d → previous_cleared d cleared → Deployment_ExpiresAt d ≤ t1 →
      Deployment_Status d = MissionDeploymentOutcomeUnknown →
      prepared d flight t0 (clock_read t1 :: cleared)
  | expired_before :
      Deployment_ExpiresAt d ≤ t0 → Deployment_DispatchStarted d = true →
      Deployment_Status d = MissionDeploymentOutcomeUnknown → t0 < Deployment_ReconcileUntil d →
      prepared d flight t0 [].

Abbreviation anything := (λ _ _, True).

Section rule.
(** The request. *)
Context (flightID expectedMissionID expectedDigest idempotencyKey : string).

(** The command [d] is the one of the request: what the store answered to the
    creation of [created], made at [t0] from the bindings of the flight, whose
    plan is the expected one. *)
Definition commanded (h : history) (d created : MissionDeployment) (t0 : Time) : Prop :=
  ∃ id command_id context_id clear_id flight mission aircraft,
    let requestHash := deployment_request_hash (Flight_ID flight) (Mission_ID mission) (Mission_Version mission)
                         (Mission_MissionDigest mission) in
    created = created_deployment id command_id context_id clear_id flight mission aircraft idempotencyKey
                requestHash t0
    ∧ clock_read t0 ∈ h ∧ bound h flightID flight mission aircraft
    ∧ Mission_ID mission = expectedMissionID ∧ Mission_MissionDigest mission = expectedDigest
    ∧ (Deployment_ID d = id ∨ Deployment_IdempotencyRequest d = requestHash).

(** What has happened when the mission of [command] leaves, last event first: the
    marker was stored under the revision of [d], after a reading [t] of the
    clock; before it the aircraft was prepared; before that the bindings of the
    flight were read again and are those of [d]; and [d] is the command of the
    request. *)
Definition dispatch_allowed (h : history) (agentID : string) (command : DeployMissionCommand) : Prop :=
  ∃ d flight mission aircraft created t t0 checks bindings before,
    h = replied (Durable.UpdateMissionDeployment (dispatch_marker d t) (Deployment_Revision d)) tt
        :: clock_read t :: checks ++ bindings
        ++ replied (Durable.CreateMissionDeploymentForPlannedFlight created) d :: before
    ∧ agentID = Deployment_AgentID d ∧ command = missionDeploymentCommand d mission
    ∧ prepared d flight t0 checks
    ∧ bound bindings flightID flight mission aircraft
    ∧ Aircraft_AgentID aircraft = Deployment_AgentID d ∧ Mission_ID mission = Deployment_MissionID d
    ∧ Mission_Version mission = Deployment_MissionVersion d ∧ Mission_MissionDigest mission = Deployment_MissionDigest d
    ∧ commanded before d created t0.

(** Only the dispatch of a mission is restricted. *)
Definition allowed (h : history) (X : Type) (e : apiE deployerE X) : Prop :=
  match e with
  | OfExternal (AskDeploy agentID command) => dispatch_allowed h agentID command
  | _ => True
  end.

(** Walks a program that dispatches nothing; its result is arbitrary. *)
Ltac wp_walk :=
  repeat first
    [ exact I
    | match goal with |- _ ∧ _ => split; [exact I|] end
    | match goal with |- ∀ _, _ => intros ? end
    | progress cbn [wp prog_bind call durable external now allowed]
    | case_match ].

Context {AL : AgentLibrary}.

Lemma refused_walk h id context err : wp allowed h (refused_update id context err) anything.
Proof using Type. unfold refused_update. wp_walk. Qed.

Lemma write_walk h updated d replayed context :
  wp allowed h (write_and_return updated d replayed context) anything.
Proof using Type.
  unfold write_and_return. cbn. split; [done|]. intros [[]|err]; [done|]. apply refused_walk.
Qed.

Lemma persist_walk fuel h desired revision :
  wp allowed h (persistCorrelatedMissionDeploymentResult fuel desired revision) anything.
Proof using Type.
  revert h desired revision. induction fuel as [|fuel IH]; intros h desired revision; [done|].
  cbn. split; [done|]. intros [[]|err]; [done|]. case_match; [done|]. cbn. split; [done|].
  intros [current|err']; [|done]. by repeat case_match.
Qed.

(** ** The phases *)

Lemma GetCurrentMission_wp h id :
  wp allowed h (GetCurrentMission id) (λ h' r,
    match r with
    | Ok mission => ∃ hs, h' = hs ++ h ∧ replied (Durable.GetCurrentMissionForFlight (TrimSpace id)) mission ∈ hs
    | Err _ => True
    end).
Proof using Type.
  unfold GetCurrentMission. destruct (_ =s= ""); [done|]. apply wp_durable; [done|]. intros [flight|err]; [|done].
  apply wp_durable; [done|]. intros [mission|err]; [|done]. repeat case_match; cbn; try done.
  eexists [_; _]. split; [done|]. by left.
Qed.

Lemma binding_wp h :
  wp allowed h (validateMissionDeploymentBinding flightID) (λ h' r,
    match r with
    | Ok (flight, mission, aircraft) => ∃ hs, h' = hs ++ h ∧ bound hs flightID flight mission aircraft
    | Err _ => True
    end).
Proof using Type.
  unfold validateMissionDeploymentBinding. apply wp_durable; [done|]. intros [flight|err]; [|done].
  destruct (_ <>s FlightStatusPlanned) eqn:Hplanned; [done|].
  apply wp_bind. eapply wp_mono; [|apply GetCurrentMission_wp].
  intros h1 [mission|err]; [|done]. intros (hs & -> & Hmission).
  apply wp_durable; [done|]. intros [intent|err]; [|done]. destruct (negb (flight_intent_binding flight intent)) eqn:Hintent; [done|].
  apply wp_durable; [done|]. intros [aircraft|err]; [|done]. destruct (_ =s= ""); [done|].
  destruct (_ || _) eqn:Hop; [done|]. to_prop.
  eexists (_ :: _ :: hs ++ [_]). split; [cbn; rewrite <- app_assoc; done|]. unfold bound. rewrite !elem_of_cons, !elem_of_app.
  split_and!; try done.
  - do 3 right. by left.
  - do 2 right. by left.
  - exists intent. split_and!; try done. rewrite !elem_of_cons. right. by left.
  - by left.
Qed.

(** What the creation of the command tells. *)
Lemma create_wp h :
  wp allowed h (create_phase flightID expectedMissionID expectedDigest idempotencyKey) (λ h' r,
    match r with
    | inr (d, replayed, t0) => ∃ created before,
        h' = replied (Durable.CreateMissionDeploymentForPlannedFlight created) d :: before
        ∧ commanded before d created t0
    | inl _ => True
    end).
Proof using Type.
  unfold create_phase. apply wp_bind. eapply wp_mono; [|apply binding_wp].
  intros h1 [[[flight mission] aircraft]|err]; [|done]. intros (hs & -> & Hbound).
  destruct (_ || _) eqn:Hexpected; [done|]. apply wp_now; [done|]. intros t.
  do 4 (apply wp_call; [done|]; intros ?).
  apply wp_durable; [done|]. intros [d|err]; [|done].
  destruct (_ && (_ <>s _)) eqn:Hhash; [done|]. case_match.
  { unfold validateCurrentMissionDeploymentReplay. apply wp_bind. eapply wp_mono with (Q := anything).
    { intros h' [[]|err] _; done. }
    apply wp_bind. eapply wp_mono; [|apply GetCurrentMission_wp].
    intros h' [m|err] _; [|done]. by case_match. }
  to_prop. eexists _, _. split; [reflexivity|]. eexists _, _, _, _, flight, mission, aircraft. split_and!; try done.
  - rewrite !elem_of_cons. do 4 right. by left.
  - eapply bound_mono; [|exact Hbound]. intros e He. rewrite !elem_of_cons, elem_of_app. tauto.
  - by destruct Hhash; to_prop; [left|right].
Qed.

(** What is left after the check of the expiry. *)
Lemma expiry_wp h d replayed t0 :
  wp allowed h (expiry_phase d replayed t0) (λ h' r,
    match r with
    | inr readback => h' = h ∧
        if (readback : bool)
        then Deployment_ExpiresAt d ≤ t0 ∧ Deployment_DispatchStarted d = true
             ∧ Deployment_Status d = MissionDeploymentOutcomeUnknown ∧ t0 < Deployment_ReconcileUntil d
        else t0 < Deployment_ExpiresAt d
    | inl _ => True
    end).
Proof using Type.
  unfold expiry_phase. destruct (_ && (_ || _)) eqn:Hexpired.
  { case_match; [|done]. apply wp_end; [done|]. apply write_walk. }
  cbn. split; [done|]. unfold After in *.
  destruct (t0 <? Deployment_ExpiresAt d) eqn:Ht; cbn [negb andb] in *; to_prop; [done|].
  destruct_and?. case_match; by split_and?; lia || congruence.
Qed.

(** A context command may end the request; otherwise the old context is gone. *)
Lemma clear_context_wp h d replayed :
  wp allowed h (clear_context direct_deployer d replayed) (λ h' r,
    match r with inr _ => ∃ hs, h' = hs ++ h ∧ previous_cleared d hs | inl _ => True end).
Proof using Type.
  unfold clear_context. apply wp_durable; [done|]. intros [previous|err].
  2: { case_match eqn:Herr; [|done]. eexists [_]. split; [done|]. by apply no_previous. }
  case_match eqn:Hflight; [|eexists [_]; split; [done|]; to_prop; by apply same_flight].
  apply wp_call; [done|]. intros [[]|err].
  - eexists [_; _]. split; [done|]. apply acknowledged_clear. by to_prop.
  - apply wp_end; [done|]. unfold context_failed. apply wp_now; [done|]. intros t. apply write_walk.
Qed.

Lemma clear_wp h d replayed readback :
  wp allowed h (clear_phase direct_deployer d replayed readback) (λ h' r,
    match r with
    | inr readback' =>
        if readback then h' = h ∧ readback' = true
        else ∃ t1 cleared, h' = clock_read t1 :: cleared ++ h ∧ previous_cleared d cleared
          ∧ if (readback' : bool)
            then Deployment_ExpiresAt d ≤ t1 ∧ Deployment_Status d = MissionDeploymentOutcomeUnknown
            else t1 < Deployment_ExpiresAt d
    | inl _ => True
    end).
Proof using Type.
  unfold clear_phase. destruct readback; [done|].
  apply wp_bind. eapply wp_mono; [|apply clear_context_wp]. intros h1 [r|[]]; [done|]. intros (cleared & -> & Hcleared).
  apply wp_now; [done|]. intros t. unfold After, UTC. case_match eqn:Ht; to_prop.
  - case_match eqn:Hst; [|apply wp_end; [done|]; apply write_walk]. exists t, cleared. by split_and!; to_prop.
  - by exists t, cleared.
Qed.

Lemma context_wp h d flight replayed readback :
  wp allowed h (context_phase direct_deployer d flight replayed readback) (λ h' r,
    match r with
    | inr _ =>
        if readback then h' = h
        else ∃ t2, h' = clock_read t2
            :: Event (OfExternal (AskEnsure (Deployment_AgentID d) (context_of d flight)) : apiE deployerE _) (Ok tt) :: h
          ∧ (t2 < Deployment_ExpiresAt d ∨ Deployment_Status d = MissionDeploymentOutcomeUnknown)
    | inl _ => True
    end).
Proof using Type.
  unfold context_phase. destruct readback; [done|].
  apply wp_call; [done|]. intros [[]|err].
  - apply wp_now; [done|]. intros t. case_match eqn:Hexpired.
    + apply wp_end; [done|]. apply write_walk.
    + exists t. split; [done|]. unfold After, UTC in Hexpired. by to_prop; destruct Hexpired; to_prop; [left|right].
  - apply wp_end; [done|]. unfold context_failed. apply wp_now; [done|]. intros t. apply write_walk.
Qed.

Lemma marker_wp h d :
  wp allowed h (marker_phase d) (λ h' r,
    match r with
    | inr marked => ∃ t,
        h' = replied (Durable.UpdateMissionDeployment (dispatch_marker d t) (Deployment_Revision d)) tt
             :: clock_read t :: h
        ∧ marked = (dispatch_marker d t) <| Deployment_Revision := int64_succ (Deployment_Revision d) |>
    | inl _ => True
    end).
Proof using Type.
  unfold marker_phase. apply wp_now; [done|]. intros t. apply wp_durable; [done|]. intros [[]|err].
  - by exists t.
  - apply wp_end; [done|]. apply refused_walk.
Qed.

(** Up to the marker: the mission may leave. *)
Lemma prepare_wp h :
  wp allowed h (prepare_dispatch direct_deployer flightID expectedMissionID expectedDigest idempotencyKey)
    (λ h' r,
      match r with
      | inr (d, mission, _) => dispatch_allowed h' (Deployment_AgentID d) (missionDeploymentCommand d mission)
      | inl _ => True
      end).
Proof using Type.
  unfold prepare_dispatch. apply wp_bind. eapply wp_mono; [|apply create_wp].
  intros h1 [r|[[d replayed] t0]]; [done|]. intros (created & before & -> & Hcommanded).
  apply wp_bind. eapply wp_mono; [|apply expiry_wp]. intros h2 [r|readback]; [done|]. intros (-> & Hexpiry).
  unfold rebind_phase. apply wp_bind. apply wp_bind. eapply wp_mono; [|apply binding_wp].
  intros h2 [[[flight mission] aircraft]|err]; [|done]. intros (bindings & -> & Hbound).
  destruct (_ || _) eqn:Hsame; [done|]. to_prop. cbn [wp].
  apply wp_bind. eapply wp_mono; [|by apply clear_wp]. intros h3 [r|readback']; [done|]. intros Hclear.
  apply wp_bind. eapply wp_mono; [|by apply context_wp]. intros h4 [r|[]]; [done|]. intros Hcontext.
  apply wp_bind. eapply wp_mono; [|apply marker_wp]. intros h5 [r|marked]; [done|]. intros (t & -> & ->).
  cbn [wp].
  assert (∃ checks, h4 = checks ++ bindings
            ++ replied (Durable.CreateMissionDeploymentForPlannedFlight created) d :: before
            ∧ prepared d flight t0 checks) as (checks & -> & Hprepared).
  { destruct readback.
    - destruct Hclear as [-> ->]. subst h4. exists []. split; [done|]. by destruct_and!; apply expired_before.
    - destruct Hclear as (t1 & cleared & -> & Hcleared & Hafter). destruct readback'.
      + subst h4. destruct Hafter. exists (clock_read t1 :: cleared). split; [done|]. by apply expired_while_clearing.
      + destruct Hcontext as (t2 & -> & Ht2). eexists (_ :: _ :: _ :: cleared). split; [done|].
        by apply context_acknowledged. }
  exists d, flight, mission, aircraft, created, t, t0, checks, bindings, before. by split_and!.
Qed.

Lemma dispatch_wp h fuel d mission replayed :
  dispatch_allowed h (Deployment_AgentID d) (missionDeploymentCommand d mission) →
  wp allowed h (dispatch direct_deployer fuel d mission replayed) anything.
Proof using Type.
  intros Hallowed. unfold dispatch. apply wp_call; [done|]. intros answer. apply wp_now; [done|]. intros t.
  apply wp_bind. eapply wp_mono; [|apply persist_walk]. done.
Qed.

Lemma replay_walk h :
  wp allowed h (replay_phase flightID expectedMissionID expectedDigest idempotencyKey) anything.
Proof using Type.
  unfold replay_phase. apply wp_durable; [done|]. intros [existing|err]; [|by case_match].
  repeat (case_match; [done|]). case_match; [|done].
  unfold validateCurrentMissionDeploymentReplay. apply wp_bind. eapply wp_mono with (Q := anything).
  { intros h' [[]|err] _; done. }
  apply wp_bind. eapply wp_mono; [|apply GetCurrentMission_wp]. intros h' [m|err] _; [|done]. by case_match.
Qed.
End rule.

Section requests.
Context {AL : AgentLibrary}.

End requests.
