(* ===== verification/MissionOutcome.v ===== *)
(** * The outcome of a deployment is final

    The service writes a deployment only over a row that it was given by the
    store and in which the command has no final outcome yet.  When every client
    keeps to that rule, a final outcome is never changed again. *)

From S2P Require Import Prelude GoRuntime GoRange Domain Errors Program MemoryState MemoryFleet MemoryMissions DurableStore MemoryStore MemoryInvariant MemoryReachable FlightDeployments ProgramLogic AgentMessages MissionParser MissionImport MissionDeployment.
From stdpp Require Import options.

(** ** The rule *)

(** The rows of deployments that a reply reveals. *)
Definition rows_of {A} (e : Durable.storeE A) : outcome A → list MissionDeployment :=
  match e in Durable.storeE A return outcome A → list MissionDeployment with
  | Durable.CreateMissionDeployment _
  | Durable.CreateMissionDeploymentForPlannedFlight _
  | Durable.GetMissionDeployment _ => λ r, match r with Ok d => [d] | Err _ => [] end
  | Durable.UpdateMissionDeployment d revision => λ r,
      match r with Ok _ => [d <| Deployment_Revision := int64_succ revision |>] | Err _ => [] end
  | _ => λ _, []
  end.

(** A write quotes the revision of a row that is known and has no final outcome. *)
Definition ruled {A} (known : list MissionDeployment) (e : Durable.storeE A) : Prop :=
  match e with
  | Durable.UpdateMissionDeployment d revision =>
      ∃ row, row ∈ known ∧ Deployment_ID row = Deployment_ID d ∧ Deployment_Revision row = revision
             ∧ missionDeploymentRetryable (Deployment_Status row) = true
  | _ => True
  end.

Lemma ruled_mono {A} known known' (e : Durable.storeE A) :
  (∀ d, d ∈ known → d ∈ known') → ruled known e → ruled known' e.
Proof. intros Hsub. destruct e; try done. intros (row & ? & ?). exists row. auto. Qed.

Definition is_creation {A} (e : Durable.storeE A) : option MissionDeployment :=
  match e with
  | Durable.CreateMissionDeployment d | Durable.CreateMissionDeploymentForPlannedFlight d => Some d
  | _ => None
  end.

(** ** The service keeps to it *)

Section rule.
Context {AL : AgentLibrary} {externalE : Type → Type}.
Abbreviation program := (prog (apiE externalE)).
Abbreviation history := (list (event (apiE externalE))).

Definition event_rows (v : event (apiE externalE)) : list MissionDeployment :=
  match v with
  | Event e x =>
      match e in apiE _ X return X → list MissionDeployment with
      | OfStore e => rows_of e
      | _ => λ _, []
      end x
  end.

Definition known_of (h : history) : list MissionDeployment := concat (map event_rows h).

(** What was to be created, and the answer. *)
Definition creation_reply {A} (e : Durable.storeE A) : outcome A → option (MissionDeployment * MissionDeployment) :=
  match e in Durable.storeE A return outcome A → option (MissionDeployment * MissionDeployment) with
  | Durable.CreateMissionDeploymentForPlannedFlight c => λ r, match r with Ok d => Some (c, d) | Err _ => None end
  | _ => λ _, None
  end.

Definition event_creation (v : event (apiE externalE)) : option (MissionDeployment * MissionDeployment) :=
  match v with
  | Event e x =>
      match e in apiE _ X return X → option (MissionDeployment * MissionDeployment) with
      | OfStore e => creation_reply e
      | _ => λ _, None
      end x
  end.

(** The identifiers drawn for new deployments were not in use: a creation
    answered under its own identifier is a new row. *)
Definition consistent (h : history) : Prop :=
  ∀ v c d, v ∈ h → event_creation v = Some (c, d) →
    Deployment_ID d = Deployment_ID c → Deployment_Status d = Deployment_Status c.

Definition allowed (h : history) (X : Type) (e : apiE externalE X) : Prop :=
  match e with
  | OfStore e => consistent h → ruled (known_of h) e
  | _ => True
  end.

(** The adapter to the relays leaves the durable store alone. *)
Class DeployerLaw (deployer : MissionDeployer externalE) := {
  Ensure_law agentID command :
    store_calls_in (λ _ _, False) (EnsureOperationContext deployer agentID command);
  Clear_law agentID command old :
    store_calls_in (λ _ _, False) (ClearOperationContextForReconciliation deployer agentID command old);
  Deploy_law agentID command : store_calls_in (λ _ _, False) (DeployMission deployer agentID command);
}.

Lemma wp_outside {A} h (p : program A) (Q : history → A → Prop) :
  store_calls_in (λ _ _, False) p → (∀ hs a, Q (hs ++ h) a) → wp allowed h p Q.
Proof using Type.
  intros Hp. apply wp_extend. revert Hp. unfold store_calls_in.
  induction p as [a|X e k IH]; cbn; [done|]. intros [He Hk]. split; [by destruct e|]. auto.
Qed.

(** The service holds a row without a final outcome: the one it may write. *)
Definition holds (h : history) (d : MissionDeployment) : Prop :=
  consistent h → d ∈ known_of h ∧ missionDeploymentRetryable (Deployment_Status d) = true.

Lemma known_app hs h d : d ∈ known_of h → d ∈ known_of (hs ++ h).
Proof using Type. unfold known_of. rewrite map_app, concat_app, elem_of_app. by right. Qed.

Lemma consistent_app hs h : consistent (hs ++ h) → consistent h.
Proof using Type. intros H v c d Hin. apply (H v). rewrite elem_of_app. by right. Qed.

Lemma holds_app hs h d : holds h d → holds (hs ++ h) d.
Proof using Type. intros H Hc. destruct (H (consistent_app _ _ Hc)). split; [by apply known_app|done]. Qed.

Lemma holds_cons v h d : holds h d → holds (v :: h) d.
Proof using Type. apply (holds_app [v]). Qed.

(** A write over the row. *)
Lemma allowed_update h d updated revision :
  holds h d → Deployment_ID updated = Deployment_ID d → revision = Deployment_Revision d →
  allowed h _ (OfStore (Durable.UpdateMissionDeployment updated revision)).
Proof using Type. intros Hd Hid -> Hc. destruct (Hd Hc). by exists d. Qed.

Abbreviation anything := (λ _ _, True).

Lemma refused_ruled h id context err : wp allowed h (refused_update id context err) anything.
Proof using Type.
  unfold refused_update. case_match; [|done]. apply wp_durable; [done|]. by intros [current|err'].
Qed.

Lemma write_ruled h updated d replayed context :
  holds h d → Deployment_ID updated = Deployment_ID d →
  wp allowed h (write_and_return updated d replayed context) anything.
Proof using Type.
  intros Hd Hid. unfold write_and_return. apply wp_durable; [by eapply allowed_update|].
  intros [[]|err]; [done|]. apply refused_ruled.
Qed.

Lemma carry_outcome_ID current desired : Deployment_ID (carry_outcome current desired) = Deployment_ID current.
Proof using Type. unfold carry_outcome. by case_match. Qed.

Lemma persist_ruled fuel h d desired :
  holds h d → Deployment_ID desired = Deployment_ID d →
  wp allowed h (persistCorrelatedMissionDeploymentResult fuel desired (Deployment_Revision d)) anything.
Proof using Type.
  revert h d desired. induction fuel as [|fuel IH]; intros h d desired Hd Hid; [done|].
  cbn [persistCorrelatedMissionDeploymentResult]. apply wp_durable; [by eapply allowed_update|].
  intros [[]|err]; [done|]. case_match; [done|]. apply wp_durable; [done|]. intros [current|err']; [|done].
  case_match; [done|]. destruct (missionDeploymentRetryable (Deployment_Status current)) eqn:Hretry; [|done].
  cbn [negb]. case_match; [done|]. apply IH; [|apply carry_outcome_ID].
  intros _. split; [|done]. by left.
Qed.

(** Reads only: the history grows. *)
Abbreviation grown h := (λ h' _, h `suffix_of` h').

Lemma holds_grown h h' d : h `suffix_of` h' → holds h d → holds h' d.
Proof using Type. intros [hs ->]. apply holds_app. Qed.

Lemma GetCurrentMission_ruled h flightID : wp allowed h (GetCurrentMission flightID) (grown h).
Proof using Type.
  unfold GetCurrentMission. case_match; [by cbn|]. apply wp_durable; [done|].
  intros [flight|err]; [|by apply suffix_cons_r]. apply wp_durable; [done|].
  intros [mission|err]; [|by do 2 apply suffix_cons_r]. repeat case_match; by do 2 apply suffix_cons_r.
Qed.

Lemma replay_check_ruled h d : wp allowed h (validateCurrentMissionDeploymentReplay d) (grown h).
Proof using Type.
  unfold validateCurrentMissionDeploymentReplay. apply wp_bind. eapply wp_mono; [|apply GetCurrentMission_ruled].
  intros h' [mission|err] Hh; [|done]. by case_match.
Qed.

Lemma binding_ruled h flightID : wp allowed h (validateMissionDeploymentBinding flightID) (grown h).
Proof using Type.
  unfold validateMissionDeploymentBinding. apply wp_durable; [done|].
  intros [flight|err]; [|by apply suffix_cons_r]. destruct (_ <>s FlightStatusPlanned); [by apply suffix_cons_r|].
  apply wp_bind. eapply wp_mono; [|apply GetCurrentMission_ruled]. intros h1 r Hh1.
  apply suffix_cons_l in Hh1. destruct r as [mission|err]; [|done].
  apply wp_durable; [done|]. intros [intent|err]; [|by apply suffix_cons_r].
  destruct (negb (flight_intent_binding flight intent)); [by apply suffix_cons_r|].
  apply wp_durable; [done|]. intros [aircraft|err]; [|by do 2 apply suffix_cons_r].
  repeat case_match; by do 2 apply suffix_cons_r.
Qed.

(** The row the request works on. *)
Lemma create_ruled h flightID expectedMissionID expectedDigest idempotencyKey :
  wp allowed h (create_phase flightID expectedMissionID expectedDigest idempotencyKey) (λ h' r,
    match r with inr (d, _, _) => holds h' d | inl _ => True end).
Proof using Type.
  unfold create_phase. apply wp_bind. eapply wp_mono; [|apply binding_ruled].
  intros h1 [[[flight mission] aircraft]|err] _; [|done].
  destruct (_ || _); [done|]. apply wp_now; [done|]. intros t.
  do 4 (apply wp_call; [done|]; intros ?).
  apply wp_durable; [done|]. intros [d|err]; [|done].
  destruct (_ && _); [done|]. destruct (_ && _) eqn:Hdone.
  - apply wp_bind. eapply wp_mono; [|apply replay_check_ruled]. by intros h' [[]|err] _.
  - intros Hconsistent. split; [by left|].
    apply andb_false_iff in Hdone as [Hsame|Hretry]; apply negb_false_iff in Hsame || apply negb_false_iff in Hretry;
      [|done].
    apply String.eqb_eq in Hsame. rewrite (Hconsistent _ _ _ ltac:(by left) eq_refl Hsame). done.
Qed.

Lemma expiry_ruled h d replayed t :
  holds h d → wp allowed h (expiry_phase d replayed t) (λ h' r, match r with inr _ => holds h' d | inl _ => True end).
Proof using Type.
  intros Hd. unfold expiry_phase. case_match; [|done]. case_match; [|done].
  apply wp_end; [done|]. by apply write_ruled.
Qed.

Lemma context_failed_ruled h d replayed a b c err :
  holds h d → wp allowed h (context_failed d replayed a b c err) anything.
Proof using Type.
  intros Hd. unfold context_failed. apply wp_now; [done|]. intros t. apply write_ruled.
  - by apply holds_cons.
  - unfold context_failure. by case_match.
Qed.

Section deployer.
Context (deployer : MissionDeployer externalE) {HD : DeployerLaw deployer}.

Lemma clear_ruled h d replayed readback :
  holds h d →
  wp allowed h (clear_phase deployer d replayed readback) (λ h' r, match r with inr _ => holds h' d | inl _ => True end).
Proof using HD.
  intros Hd. unfold clear_phase. destruct readback; [done|].
  apply wp_bind. eapply wp_mono with (Q := λ h' r, match r with inr _ => holds h' d | inl _ => True end).
  - intros h' [r|[]]; [done|]. intros Hd'. apply wp_now; [done|]. intros t. apply (holds_cons (Event Now t)) in Hd'.
    case_match; [|done]. case_match; [done|]. apply wp_end; [done|]. by apply write_ruled.
  - unfold clear_context. apply wp_durable; [done|].
    intros [previous|err]; [|case_match; [by apply holds_cons|done]].
    apply (holds_cons (Event (OfStore (Durable.GetPreviousMissionDeploymentForAircraft (Deployment_AircraftID d) (Deployment_ID d)))
      (Ok previous))) in Hd. case_match; [|done].
    apply wp_bind. apply wp_outside; [apply Clear_law|]. intros hs [[]|err]; [by apply holds_app|].
    apply wp_end; [done|]. by apply context_failed_ruled, holds_app.
Qed.

Lemma context_ruled h d flight replayed readback :
  holds h d →
  wp allowed h (context_phase deployer d flight replayed readback)
    (λ h' r, match r with inr _ => holds h' d | inl _ => True end).
Proof using HD.
  intros Hd. unfold context_phase. destruct readback; [done|].
  apply wp_bind. apply wp_outside; [apply Ensure_law|]. intros hs [[]|err].
  - apply wp_now; [done|]. intros t.
    assert (holds (Event Now t :: hs ++ h) d) as Hd' by by apply holds_cons, holds_app.
    case_match; [|done]. apply wp_end; [done|]. by apply write_ruled.
  - apply wp_end; [done|]. by apply context_failed_ruled, holds_app.
Qed.

Lemma marker_ruled h d :
  holds h d → wp allowed h (marker_phase d) (λ h' r, match r with inr marked => holds h' marked | inl _ => True end).
Proof using Type.
  intros Hd. unfold marker_phase. apply wp_now; [done|]. intros t.
  apply wp_durable; [by apply (allowed_update _ d); [apply holds_cons| |]|].
  intros [[]|err]; [|apply wp_end; [done|]; apply refused_ruled]. intros _. split; [by left|done].
Qed.

Lemma prepare_ruled h flightID expectedMissionID expectedDigest idempotencyKey :
  wp allowed h (prepare_dispatch deployer flightID expectedMissionID expectedDigest idempotencyKey)
    (λ h' r, match r with inr (marked, _, _) => holds h' marked | inl _ => True end).
Proof using HD.
  unfold prepare_dispatch. apply wp_bind. eapply wp_mono; [|apply create_ruled].
  intros h1 [r|[[d replayed] t0]] Hd; [done|].
  apply wp_bind. eapply wp_mono; [|by apply expiry_ruled]. clear h1 Hd. intros h2 [r|readback] Hd; [done|].
  unfold rebind_phase. apply wp_bind, wp_bind. eapply wp_mono; [|apply binding_ruled].
  intros h3 [[[flight mission] aircraft]|err] Hh3; [|done]. apply (holds_grown _ _ _ Hh3) in Hd. clear h2 Hh3.
  destruct (_ || _); [done|]. cbn [wp].
  apply wp_bind. eapply wp_mono; [|by apply clear_ruled]. clear h3 Hd. intros h4 [r|readback'] Hd; [done|].
  apply wp_bind. eapply wp_mono; [|by apply context_ruled]. clear h4 Hd. intros h5 [r|[]] Hd; [done|].
  apply wp_bind. eapply wp_mono; [|by apply marker_ruled]. by intros h6 [r|marked] Hmarked.
Qed.

Lemma attempted_ID d mission t answer : Deployment_ID (attempted_deployment d mission t answer) = Deployment_ID d.
Proof using Type.
  unfold attempted_deployment. destruct answer as [result|err]; [|done].
  destruct (applyMissionDeploymentResult _ _ _ _) as [applied|err] eqn:Happly; [|done].
  unfold applyMissionDeploymentResult in Happly. destruct result as [result|]; [|done].
  destruct (_ || _); [done|]. destruct (status_of_result _); [|done]. injection Happly as <-.
  unfold recorded_result. by repeat case_match.
Qed.

Lemma dispatch_ruled h fuel d mission replayed :
  holds h d → wp allowed h (dispatch deployer fuel d mission replayed) anything.
Proof using HD.
  intros Hd. unfold dispatch. apply wp_bind. apply wp_outside; [apply Deploy_law|]. intros hs answer.
  apply wp_now; [done|]. intros t. apply wp_bind. eapply wp_mono; [|apply persist_ruled].
  - done.
  - by apply holds_cons, holds_app.
  - apply attempted_ID.
Qed.

Lemma deploy_ruled h fuel flightID expectedMissionID expectedDigest idempotencyKey :
  wp allowed h (DeployCurrentMission (Some deployer) fuel flightID expectedMissionID expectedDigest idempotencyKey)
    anything.
Proof using HD.
  unfold DeployCurrentMission. case_match; [done|]. case_match; [done|].
  apply wp_bind. eapply wp_mono with (Q := anything).
  - intros h' [r|[]] _; [done|]. apply wp_bind. eapply wp_mono; [|apply prepare_ruled].
    intros h'' [r|[[d mission] replayed]] Hd; [done|]. by apply dispatch_ruled.
  - unfold replay_phase. apply wp_durable; [done|]. intros [existing|err]; [|by case_match].
    case_match; [done|]. case_match; [done|]. case_match; [|done].
    apply wp_bind. eapply wp_mono; [|apply replay_check_ruled]. by intros h' [[]|err] _.
Qed.

Lemma reconcile_ruled h fuel flightID deploymentID :
  wp allowed h (ReconcileMissionDeployment (Some deployer) fuel flightID deploymentID) anything.
Proof using HD.
  unfold ReconcileMissionDeployment. apply wp_bind. eapply wp_mono with (Q := anything).
  - intros h' [d|err] _; [|done]. case_match; [|apply deploy_ruled].
    apply wp_bind. eapply wp_mono; [|apply replay_check_ruled]. by intros h'' [[]|err] _.
  - unfold GetMissionDeployment. case_match; [done|]. apply wp_durable; [done|].
    intros [d|err]; [|done]. by case_match.
Qed.
End deployer.
End rule.

(** ** The store with what its clients know

    Beside the store: the rows that replies have revealed, and whether an
    identifier drawn for a new deployment was in use already. *)
Record tracked := mkTracked {
  actual : Store;
  known : list MissionDeployment;
  collided : bool;
}.

Section tracked.
Context {RT : Runtime}.

Definition in_use (s : Store) {A} (e : Durable.storeE A) : bool :=
  match is_creation e with
  | Some c => negb (is_nil (missionDeployments s !! Deployment_ID c))
  | None => false
  end.

#[global] Instance tracked_store : DurableStore tracked := λ A e s,
  let r := (handle_store e (actual s)).1 in
  (r, mkTracked (handle_store e (actual s)).2 (rows_of e r ++ known s) (collided s || in_use (actual s) e)).

(** Every known row is the stored one, or the stored one is newer. *)
Definition current_or_older (s : Store) (d : MissionDeployment) : Prop :=
  ∃ row, missionDeployments s !! Deployment_ID d = Some row
         ∧ (d = row ∨ Deployment_Revision d < Deployment_Revision row).

Record tracked_wf (s : tracked) : Prop := {
  tracked_store_wf : store_wf (actual s);
  tracked_known d : d ∈ known s → current_or_older (actual s) d;
}.

(** The final outcomes in one state are in the other. *)
Definition outcomes_kept (s s' : Store) : Prop :=
  ∀ k row, missionDeployments s !! k = Some row → missionDeploymentRetryable (Deployment_Status row) = false →
           missionDeployments s' !! k = Some row.

#[global] Instance outcomes_kept_preorder : PreOrder outcomes_kept.
Proof using Type. split; [by intros s k row|]. intros s1 s2 s3 H12 H23 k row Hk Hr. auto. Qed.

(** Revisions have not reached the end of their range. *)
Definition rooms (s : tracked) : Prop :=
  ∀ d, d ∈ known s → - 2 ^ 63 ≤ Deployment_Revision d < 2 ^ 63 - 1.

(** A creation answers with a stored row, or with the one it adds. *)
Definition found_or_added (c : MissionDeployment) (s : Store) (d : MissionDeployment) (s' : Store) : Prop :=
  s' = s ∧ missionDeployments s !! Deployment_ID d = Some d
  ∨ missionDeployments s !! Deployment_ID c = None ∧ d = c <| Deployment_Revision := 0 |>
    ∧ missionDeployments s' = <[Deployment_ID c := d]> (missionDeployments s).

Lemma indexed_deployment s key id :
  store_wf s → deploymentByIdempotencyKey s !! key = Some id →
  let d := default zero_MissionDeployment (missionDeployments s !! id) in
  missionDeployments s !! Deployment_ID d = Some d.
Proof using Type.
  intros Hs Hid. pose proof (wf_deployments _ Hs) as [Hkeyed Hindexed _ _ _].
  apply Hindexed in Hid as (d & Hd & _). rewrite Hd. cbn. by rewrite <- (Hkeyed _ _ Hd).
Qed.

Lemma locked_reply c s d s' :
  store_wf s → createMissionDeploymentLocked c s = (Ok d, s') → found_or_added c s d s'.
Proof using Type.
  intros Hs. unfold createMissionDeploymentLocked, found_or_added.
  destruct (deploymentByIdempotencyKey s !! _) as [id|] eqn:Hid.
  - destruct (_ <>s _); [done|]. intros [= <- <-]. left. split; [done|]. by eapply indexed_deployment.
  - destruct (missionDeployments s !! Deployment_ID c) eqn:Hc; [done|]. intros [= <- <-]. by right.
Qed.

Lemma planned_reply c s d s' :
  store_wf s → CreateMissionDeploymentForPlannedFlight c s = (Ok d, s') → found_or_added c s d s'.
Proof using Type.
  intros Hs. unfold CreateMissionDeploymentForPlannedFlight.
  destruct (deploymentByIdempotencyKey s !! _) as [id|] eqn:Hid.
  - destruct (_ <>s _); [done|].
    assert (∀ d, d = default zero_MissionDeployment (missionDeployments s !! id) → found_or_added c s d s) as Hfound.
    { intros ? ->. left. split; [done|]. by eapply indexed_deployment. }
    destruct (negb _); [intros [= <- <-]; auto|]. destruct (planned_flight_guard _ _ _); [done|].
    intros [= <- <-]; auto.
  - destruct (planned_flight_guard _ _ _); [done|]. by apply locked_reply.
Qed.

Lemma added_known c s d s' k :
  found_or_added c s d s' → (∀ d0, d0 ∈ k → current_or_older s d0) →
  (∀ d0, d0 ∈ d :: k → current_or_older s' d0) ∧ outcomes_kept s s'.
Proof using Type.
  intros [(-> & Hd)|(Hnone & -> & Hs')] Hk.
  - split; [|done]. intros d0 [->|Hin]%elem_of_cons; [|auto]. exists d. split; [done|by left].
  - split.
    + intros d0 [->|Hin]%elem_of_cons; unfold current_or_older; rewrite Hs'.
      * eexists. cbn. rewrite lookup_insert_eq. split; [done|by left].
      * destruct (Hk _ Hin) as (row & Hrow & Hage). exists row. rewrite lookup_insert_ne; [done|]. congruence.
    + intros k' row Hrow _. rewrite Hs', lookup_insert_ne; [done|]. congruence.
Qed.

(** The write of a row that is known: no other final outcome is touched. *)
Lemma update_known d row s s' k :
  store_wf s → (∀ d0, d0 ∈ k → current_or_older s d0) → row ∈ k → Deployment_ID row = Deployment_ID d →
  missionDeploymentRetryable (Deployment_Status row) = true →
  - 2 ^ 63 ≤ Deployment_Revision row < 2 ^ 63 - 1 →
  UpdateMissionDeployment d (Deployment_Revision row) s = (Ok tt, s') →
  (∀ d0, d0 ∈ d <| Deployment_Revision := int64_succ (Deployment_Revision row) |> :: k → current_or_older s' d0)
  ∧ outcomes_kept s s'.
Proof using Type.
  intros Hs Hk Hrow Hid Hretry Hroom. unfold UpdateMissionDeployment.
  destruct (missionDeployments s !! Deployment_ID d) as [existing|] eqn:Hexisting; [|done].
  destruct (_ <>z _) eqn:Hrevision; [done|]. destruct (_ || _); [done|]. intros [= <-]. to_prop.
  assert (row = existing) as <-.
  { destruct (Hk _ Hrow) as (row' & Hrow' & Hage). rewrite Hid, Hexisting in Hrow'. injection Hrow' as <-.
    destruct Hage as [?|?]; [done|lia]. }
  split.
  - intros d0 [->|Hin]%elem_of_cons; unfold current_or_older; cbn.
    + rewrite lookup_insert_eq. eexists. split; [done|by left].
    + destruct (decide (Deployment_ID d0 = Deployment_ID d)) as [Heq|Hne].
      * rewrite Heq, lookup_insert_eq. eexists. split; [done|]. right. cbn. rewrite int64_succ_small by done.
        destruct (Hk _ Hin) as (row' & Hrow' & Hage). rewrite Heq, Hexisting in Hrow'. injection Hrow' as <-.
        destruct Hage as [->|?]; lia.
      * destruct (Hk _ Hin) as (row' & Hrow' & Hage). exists row'. by rewrite lookup_insert_ne.
  - intros k' row' Hrow' Hfinal. cbn. rewrite lookup_insert_ne; [done|]. intros <-.
    rewrite Hexisting in Hrow'. injection Hrow' as <-. congruence.
Qed.

Lemma locked_failed c s err s' : createMissionDeploymentLocked c s = (Err err, s') → s' = s.
Proof using Type. unfold createMissionDeploymentLocked. repeat case_match; by intros [= _ <-]. Qed.

Lemma creation_failed c s err s' : CreateMissionDeploymentForPlannedFlight c s = (Err err, s') → s' = s.
Proof using Type.
  unfold CreateMissionDeploymentForPlannedFlight. repeat case_match; try by intros [= _ <-].
  apply locked_failed.
Qed.

Lemma update_failed d r s err s' : UpdateMissionDeployment d r s = (Err err, s') → s' = s.
Proof using Type. unfold UpdateMissionDeployment. repeat case_match; by intros [= _ <-]. Qed.

(** Every call under the rule, by anyone, keeps the state well-formed and the
    final outcomes. *)
Lemma ruled_call_kept {A} (e : Durable.storeE A) s :
  tracked_wf s → ruled (known s) e → rooms (handle_store e s).2 →
  tracked_wf (handle_store e s).2 ∧ outcomes_kept (actual s) (actual (handle_store e s).2).
Proof using Type.
  intros [Hs Hk] Hruled Hrooms. cbn in *.
  assert (store_wf (handle_store e (actual s)).2) as Hs' by by apply handle_wf.
  enough ((∀ d, d ∈ rows_of e (handle_store e (actual s)).1 ++ known s →
             current_or_older (handle_store e (actual s)).2 d)
          ∧ outcomes_kept (actual s) (handle_store e (actual s)).2) as [H1 H2] by (split; [by split|done]).
  assert (∀ s', s' = actual s → (∀ d, d ∈ known s → current_or_older s' d) ∧ outcomes_kept (actual s) s') as Hfail
    by (by intros ? ->).
  assert (∀ s', missionDeployments s' = missionDeployments (actual s) →
          (∀ d, d ∈ known s → current_or_older s' d) ∧ outcomes_kept (actual s) s') as Hsame.
  { intros s' Heq. unfold current_or_older, outcomes_kept. rewrite Heq. split; [exact Hk|done]. }
  clear Hs'. unfold rooms in Hrooms. cbn in Hrooms.
  destruct e; try (apply Hsame; by apply deployments_frame); cbn in *.
  - destruct (CreateMissionDeployment deployment (actual s)) as [[d|err] s'] eqn:He; cbn.
    + eapply added_known; [|exact Hk]. by apply locked_reply.
    + apply Hfail. by eapply locked_failed.
  - destruct (CreateMissionDeploymentForPlannedFlight deployment (actual s)) as [[d|err] s'] eqn:He; cbn.
    + eapply added_known; [|exact Hk]. by apply planned_reply.
    + apply Hfail. by eapply creation_failed.
  - unfold MemoryMissions.GetMissionDeployment, get_or_not_found. destruct (missionDeployments (actual s) !! deploymentID) as [d|] eqn:Hd; cbn; [|by apply (Hfail (actual s))].
    split; [|done]. intros d0 [->|Hin]%elem_of_cons; [|by apply Hk].
    exists d. split; [|by left]. by rewrite <- (deployments_keyed _ _ _ _ (wf_deployments _ Hs) _ _ Hd).
  - destruct Hruled as (row & Hrow & Hid & <- & Hretry).
    destruct (UpdateMissionDeployment deployment (Deployment_Revision row) (actual s)) as [[[]|err] s'] eqn:He; cbn in *.
    + eapply update_known; try done. apply Hrooms. by right.
    + apply Hfail. by eapply update_failed.
Qed.

(** ** Runs of the service among ruled clients *)

Context {AL : AgentLibrary} {O : Type} {externalE : Type → Type} {HO : Outside externalE O}.
Abbreviation concurrently := (crun (handle_api (S := tracked) (O := O))).

(** A call of another client, under the rule. *)
Definition ruled_client (s s' : tracked) : Prop :=
  ∃ A (e : Durable.storeE A), ruled (known s) e ∧ (handle_store e s).2 = s'.

Lemma known_grows {A} (e : Durable.storeE A) s d : d ∈ known s → d ∈ known (handle_store e s).2.
Proof using Type. intros H. cbn. rewrite elem_of_app. by right. Qed.

(** As long as no revision wraps and no identifier collides: the history is
    consistent, what it reveals is known, and the outcomes of [s0] are kept. *)
Record service_inv (s0 : Store) (h : list (event (apiE externalE))) (s : tracked) : Prop := {
  inv_wf : tracked_wf s;
  inv_consistent : consistent h;
  inv_known d : d ∈ known_of h → d ∈ known s;
  inv_outcomes : outcomes_kept s0 (actual s);
}.

Definition guarded_inv (s0 : Store) (h : list (event (apiE externalE))) (w : world tracked O) : Prop :=
  collided (store w) = false → rooms (store w) → service_inv s0 h (store w).

Lemma guards_before {A} (e : Durable.storeE A) s :
  collided (handle_store e s).2 = false → rooms (handle_store e s).2 → collided s = false ∧ rooms s.
Proof using Type.
  cbn. intros [Hc _]%orb_false_iff Hr. split; [done|]. intros d Hd. apply Hr. by apply known_grows.
Qed.

Lemma creation_consistent {A} (e : Durable.storeE A) c d s :
  tracked_wf s → in_use (actual s) e = false → creation_reply e (handle_store e s).1 = Some (c, d) →
  Deployment_ID d = Deployment_ID c → Deployment_Status d = Deployment_Status c.
Proof using Type.
  intros [Hs _]. destruct e; try done. cbn. intros Hfree%negb_false_iff%is_nil_true.
  destruct (CreateMissionDeploymentForPlannedFlight deployment (actual s)) as [[r|err] s'] eqn:He; [|done].
  intros [= <- <-] Hid. destruct (planned_reply _ _ _ _ Hs He) as [(_ & Hd)|(_ & -> & _)]; [|done]. congruence.
Qed.

Lemma guarded_call s0 h X (e : apiE externalE X) (w : world tracked O) :
  allowed h X e → guarded_inv s0 h w →
  guarded_inv s0 (Event e (handle_api X e w).1 :: h) (handle_api X e w).2.
Proof using Type.
  intros Hallowed HI Hcollided Hrooms.
  assert (∀ (w' : world tracked O) x, store w' = store w → event_rows (Event e x) = [] →
    event_creation (Event e x) = None →
    collided (store w') = false → rooms (store w') → service_inv s0 (Event e x :: h) (store w')) as Hother.
  { intros w' x -> Hrows Hne Hc Hr. destruct (HI Hc Hr) as [Hwf Hcons Hknown Hkept]. split; [done| | |done].
    - intros v c d [->|Hin]%elem_of_cons; [by rewrite Hne|by apply Hcons].
    - unfold known_of. cbn [map concat]. by rewrite Hrows. }
  destruct e as [| |A e|A e]; cbn in Hcollided, Hrooms |- *.
  - apply Hother; done.
  - apply Hother; done.
  - change (handle_store e (store w)) with ((handle_store e (store w)).1, (handle_store e (store w)).2) in *.
    cbn in Hcollided, Hrooms |- *.
    destruct (guards_before e (store w) Hcollided Hrooms) as [Hc Hr].
    destruct (HI Hc Hr) as [Hwf Hcons Hknown Hkept].
    assert (ruled (known (store w)) e) as Hruled by (eapply ruled_mono; [exact Hknown|auto]).
    destruct (ruled_call_kept e (store w) Hwf Hruled Hrooms) as [Hwf' Hkept'].
    split; [done| | |by etrans].
    + intros v c d [->|Hin]%elem_of_cons; [|by apply Hcons]. cbn [event_creation].
      apply creation_consistent; [done|]. by apply orb_false_iff in Hcollided as [_ ?].
    + intros d. unfold known_of. cbn [map concat event_rows]. rewrite elem_of_app. cbn. rewrite elem_of_app.
      intros [?|?]; [by left|right; auto].
  - destruct (respond e (outside w)) as [x o] eqn:He. cbn in *. apply Hother; done.
Qed.

Lemma guarded_client s0 h (w w' : world tracked O) :
  other_client ruled_client w w' → guarded_inv s0 h w → guarded_inv s0 h w'.
Proof using Type.
  intros [Heq|(A & e & Hruled & He)] HI Hcollided Hrooms; [rewrite Heq in *; auto|].
  rewrite <- He in *. destruct (guards_before e (store w) Hcollided Hrooms) as [Hc Hr].
  destruct (HI Hc Hr) as [Hwf Hcons Hknown Hkept].
  destruct (ruled_call_kept e (store w) Hwf Hruled Hrooms) as [Hwf' Hkept'].
  split; [done|done| |by etrans]. intros d Hd. apply known_grows. auto.
Qed.

(** C4: A final outcome stays.  Take any request to deploy or to reconcile a
    mission, any adapter to the relays that leaves the durable store alone, and
    any number of other clients who write a deployment only over a row they were
    given and in which it had no final outcome (as the service itself does).
    Then, unless a revision reached the end of its 64-bit range or an identifier
    drawn for a new deployment was already in use, every deployment that had a
    final outcome before the run has the same row after it, whatever the agents
    answered and however the calls interleaved. *)
Theorem deployment_outcome_final (deployer : MissionDeployer externalE) {HD : DeployerLaw deployer}
    fuel flightID (request : string + string * string * string) (w w' : world tracked O) r :
  tracked_wf (store w) →
  concurrently (other_client ruled_client)
    (match request with
     | inl deploymentID => ReconcileMissionDeployment (Some deployer) fuel flightID deploymentID
     | inr (missionID, digest, key) => DeployCurrentMission (Some deployer) fuel flightID missionID digest key
     end) w r w' →
  collided (store w') = false → rooms (store w') →
  ∀ k row, missionDeployments (actual (store w)) !! k = Some row →
    missionDeploymentRetryable (Deployment_Status row) = false →
    missionDeployments (actual (store w')) !! k = Some row.
Proof using Type.
  intros Hwf Hrun Hcollided Hrooms.
  assert (guarded_inv (actual (store w)) [] w) as HI.
  { intros _ _. split; [done| |by intros d ?%elem_of_nil|done]. by intros v c d ?%elem_of_nil. }
  assert (∃ h', True ∧ guarded_inv (actual (store w)) h' w') as (h' & _ & HI').
  { eapply (wp_crun allowed handle_api (other_client ruled_client) (guarded_inv (actual (store w))) _ []
              (λ _ _, True)); [| | |exact Hrun|exact HI].
    - intros. by apply guarded_call.
    - intros h w1 w2 Hw. by apply guarded_client.
    - destruct request as [deploymentID|[[missionID digest] key]]; [by apply reconcile_ruled|by apply deploy_ruled]. }
  exact (inv_outcomes _ _ _ (HI' Hcollided Hrooms)).
Qed.
End tracked.
