(* ===== verification/MissionTermination.v ===== *)
(** * The loop that records a result

    The service repeats the write of a result for as long as other clients
    change the deployment in between.  Counting their changes bounds the rounds:
    without interference, two suffice. *)

From S2P Require Import Prelude GoRuntime GoSha256 GoRange Domain Errors Program MemoryState MemoryFleet MemoryMissions DurableStore MemoryStore MemoryInvariant MemoryReachable Scenario ProgramLogic AgentMessages MissionParser MissionImport MissionDeployment MissionDispatch MissionOutcome.
From stdpp Require Import options.

(** The store, and how often other clients have changed the deployments. *)
Record counted := mkCounted {
  base : Store;
  changes : nat;
}.

Section termination.
Context {RT : Runtime} {AL : AgentLibrary} {O : Type} {externalE : Type → Type} {HO : Outside externalE O}.

#[global] Instance counted_store : DurableStore counted := λ A e s,
  ((handle_store e (base s)).1, mkCounted (handle_store e (base s)).2 (changes s)).

(** A call of another client: a change of the deployments is counted. *)
Definition counted_client (s s' : counted) : Prop :=
  step (base s) (base s')
  ∧ (missionDeployments (base s') = missionDeployments (base s) ∧ changes s' = changes s
     ∨ changes s' = S (changes s)).

Abbreviation program := (prog (apiE externalE)).
Abbreviation world := (world counted O).
Abbreviation concurrently := (crun (handle_api (S := counted) (O := O)) (other_client counted_client)).

Definition changed (w w' : world) : Prop := (changes (store w) < changes (store w'))%nat.

(** Between two instants: nothing happened to the deployments, or it was counted. *)
Lemma clients_count s s' :
  rtc counted_client s s' →
  missionDeployments (base s') = missionDeployments (base s) ∧ changes s' = changes s
  ∨ (changes s < changes s')%nat.
Proof using Type.
  induction 1 as [s|s1 s2 s3 [_ H12] _ IH]; [by left|].
  destruct H12 as [[Hm Hc]|Hc], IH as [[Hm' Hc']|Hc']; [left; split; congruence|right; lia..].
Qed.

Lemma clients_le s s' : rtc counted_client s s' → (changes s ≤ changes s')%nat.
Proof using Type. intros [[_ ->]|?]%clients_count; lia. Qed.

(** Runs do not take changes back. *)
Lemma run_le {A} (p : program A) (w : world) a w' :
  concurrently p w a w' → (changes (store w) ≤ changes (store w'))%nat.
Proof using Type.
  revert w. induction p as [b|X e k IH]; intros w; cbn.
  - intros [_ Hw]. by apply clients_le, other_clients_store.
  - intros (w1 & Hw1 & Hrun). apply other_clients_store, clients_le in Hw1. etrans; [exact Hw1|].
    apply IH in Hrun. etrans; [|exact Hrun]. destruct e as [| |B e|B e]; cbn; try done.
    by destruct (respond e (outside w1)).
Qed.

(** What the carried outcome leaves of the row. *)
Lemma carry_outcome_identity current desired :
  Deployment_ID (carry_outcome current desired) = Deployment_ID current
  ∧ Deployment_IdempotencyKey (carry_outcome current desired) = Deployment_IdempotencyKey current
  ∧ Deployment_IdempotencyRequest (carry_outcome current desired) = Deployment_IdempotencyRequest current
  ∧ Deployment_CommandID (carry_outcome current desired) = Deployment_CommandID current
  ∧ Deployment_MissionID (carry_outcome current desired) = Deployment_MissionID current.
Proof using Type. unfold carry_outcome. destruct (After _ _); done. Qed.

(** A write of the stored command under its revision succeeds. *)
Lemma update_succeeds d (s : Store) current :
  missionDeployments s !! Deployment_ID d = Some current →
  Deployment_IdempotencyKey d = Deployment_IdempotencyKey current →
  Deployment_IdempotencyRequest d = Deployment_IdempotencyRequest current →
  Deployment_CommandID d = Deployment_CommandID current →
  Deployment_MissionID d = Deployment_MissionID current →
  is_ok (UpdateMissionDeployment d (Deployment_Revision current) s).1 = true.
Proof using Type.
  unfold UpdateMissionDeployment. intros -> -> -> -> ->. by rewrite Z.eqb_refl, !String.eqb_refl.
Qed.

Lemma clients_wf s s' : rtc counted_client s s' → store_wf (base s) → store_wf (base s').
Proof using Type.
  induction 1 as [|s1 s2 s3 [(A & e & He) _] _ IH]; [done|]. intros Hs. apply IH. rewrite <- He. by apply handle_wf.
Qed.

(** The row that is read lies in the store under its identifier. *)
Lemma read_row id (s : Store) d :
  store_wf s → MemoryMissions.GetMissionDeployment id s = Ok d → missionDeployments s !! Deployment_ID d = Some d.
Proof using Type.
  intros Hs. unfold MemoryMissions.GetMissionDeployment, get_or_not_found.
  destruct (missionDeployments s !! id) as [x|] eqn:Hx; [|done]. intros [= <-].
  by rewrite <- (deployments_keyed _ _ _ _ (wf_deployments _ Hs) _ _ Hx).
Qed.

(** A round that does not return has read the row, and goes on with it. *)
Lemma round_continues fuel desired revision (w : world) w' :
  store_wf (base (store w)) →
  concurrently (persistCorrelatedMissionDeploymentResult (S fuel) desired revision) w None w' →
  ∃ (w1 w2 : world) current,
    rtc counted_client (store w) (store w1)
    ∧ is_ok (UpdateMissionDeployment desired revision (base (store w1))).1 = false
    ∧ (changes (store w1) ≤ changes (store w2))%nat ∧ store_wf (base (store w2))
    ∧ missionDeployments (base (store w2)) !! Deployment_ID current = Some current
    ∧ concurrently (persistCorrelatedMissionDeploymentResult fuel (carry_outcome current desired)
                      (Deployment_Revision current)) w2 None w'.
Proof using Type.
  intros Hw. cbn [persistCorrelatedMissionDeploymentResult]. intros (w1 & Hw1 & Hrun)%crun_store.
  pose proof (clients_wf _ _ Hw1 Hw) as Hwf1.
  pose proof (handle_wf _ (Durable.UpdateMissionDeployment desired revision) _ Hwf1) as Hwf1'.
  cbn [handle_store counted_store fst snd] in Hrun.
  destruct (handle_store (Durable.UpdateMissionDeployment desired revision) (base (store w1))).1 as [[]|err] eqn:He.
  { by destruct Hrun as [? _]. }
  destruct (negb _); [by destruct Hrun as [? _]|].
  apply crun_store in Hrun as (w2 & Hw2 & Hrun). cbn [handle_store counted_store fst snd store] in Hw2, Hrun.
  destruct (handle_store (Durable.GetMissionDeployment _) (base (store w2))).1 as [current|err'] eqn:Hread;
    [|by destruct Hrun as [? _]].
  destruct (negb _); [by destruct Hrun as [? _]|]. destruct (negb _); [by destruct Hrun as [? _]|].
  destruct (missionDeploymentRetryable _); [by destruct Hrun as [? _]|].
  assert (store_wf (base (store w2))) as Hwf2.
  { eapply clients_wf; [exact Hw2|]. exact Hwf1'. }
  eexists w1, _, current. split; [done|]. split; [by apply (f_equal is_ok) in He|].
  split; [|split; [|split; [|exact Hrun]]].
  - apply clients_le in Hw2. exact Hw2.
  - exact Hwf2.
  - apply (read_row _ _ _ Hwf2 Hread).
Qed.

(** Rounds that follow a reading of the row. *)
Lemma later_rounds fuel current desired (w : world) w' :
  store_wf (base (store w)) → missionDeployments (base (store w)) !! Deployment_ID current = Some current →
  concurrently (persistCorrelatedMissionDeploymentResult fuel (carry_outcome current desired)
                  (Deployment_Revision current)) w None w' →
  (changes (store w) + fuel ≤ changes (store w'))%nat.
Proof using Type.
  revert current desired w. induction fuel as [|fuel IH]; intros current desired w Hw Hcurrent.
  { intros Hrun%run_le. lia. }
  intros (w1 & w2 & current' & Hw1 & Hfails & Hle & Hwf2 & Hcurrent' & Hrun)%round_continues; [|done].
  apply IH in Hrun; [|done|done].
  destruct (clients_count _ _ Hw1) as [[Hsame _]|Hlt]; [|lia]. exfalso.
  destruct (carry_outcome_identity current desired) as (Hid & Hkey & Hrequest & Hcommand & Hmission).
  rewrite (update_succeeds _ _ current) in Hfails; [done|by rewrite Hid, Hsame|done..].
Qed.

Lemma rounds_bounded fuel desired revision (w : world) w' :
  store_wf (base (store w)) →
  concurrently (persistCorrelatedMissionDeploymentResult fuel desired revision) w None w' →
  (changes (store w) + fuel ≤ S (changes (store w')))%nat.
Proof using Type.
  intros Hw. destruct fuel as [|fuel]; [intros Hrun%run_le; lia|].
  intros (w1 & w2 & current & Hw1%clients_le & _ & Hle & Hwf2 & Hcurrent & Hrun)%round_continues; [|done].
  apply later_rounds in Hrun; [lia|done|done].
Qed.

Lemma run_wf {A} (p : program A) (w : world) a w' :
  concurrently p w a w' → store_wf (base (store w)) → store_wf (base (store w')).
Proof using Type.
  revert w. induction p as [b|X e k IH]; intros w; cbn.
  - intros [_ Hw]. by apply clients_wf, other_clients_store.
  - intros (w1 & Hw1 & Hrun) Hw. apply other_clients_store in Hw1. apply (clients_wf _ _ Hw1) in Hw.
    eapply IH; [exact Hrun|]. destruct e as [| |B e|B e]; cbn; try done.
    + by apply handle_wf.
    + by destruct (respond e (outside w1)).
Qed.

(** C19: Deployments terminate.  A request to deploy or to reconcile a mission
    returns, among any other clients of the store: the record of its result
    takes at most two rounds more than the changes that other clients made to
    deployments while it ran.  Without such changes two rounds suffice. *)
Theorem deployment_terminates missionDeployer fuel flightID (request : string + string * string * string)
    (w : world) r w' :
  store_wf (base (store w)) →
  concurrently
    (match request with
     | inl deploymentID => ReconcileMissionDeployment missionDeployer fuel flightID deploymentID
     | inr (missionID, digest, key) => DeployCurrentMission missionDeployer fuel flightID missionID digest key
     end) w r w' →
  (2 + (changes (store w') - changes (store w)) ≤ fuel)%nat →
  ∃ result, r = Some result.
Proof using Type.
  intros Hw Hrun Hfuel. destruct r as [result|]; [by exists result|exfalso].
  enough (changes (store w) + fuel ≤ S (changes (store w')))%nat by lia. clear Hfuel.
  assert (∀ flightID missionID digest key (w : world), store_wf (base (store w)) →
    concurrently (DeployCurrentMission missionDeployer fuel flightID missionID digest key) w None w' →
    (changes (store w) + fuel ≤ S (changes (store w')))%nat) as Hdeploy.
  { clear. intros flightID missionID digest key w Hw. unfold DeployCurrentMission.
    destruct (_ || _); [by intros [? _]|]. destruct (validateIdempotencyKey _); [by intros [? _]|].
    intros ([r|[]] & w1 & Hreplay & Hrun)%crun_bind; [by destruct Hrun as [? _]|].
    destruct missionDeployer as [deployer|]; [|by destruct Hrun as [? _]].
    apply crun_bind in Hrun as ([r|[[d mission] replayed]] & w2 & Hprepare & Hrun); [by destruct Hrun as [? _]|].
    unfold dispatch in Hrun. apply crun_bind in Hrun as (answer & w3 & Hanswer & Hrun).
    apply crun_now in Hrun as (w4 & t & Hw4 & Hrun).
    apply crun_bind in Hrun as ([[persisted|err]|] & w5 & Hpersist & Hrun); [by destruct Hrun as [? _]..|].
    assert (store_wf (base (store w4))) as Hwf.
    { apply (clients_wf _ _ Hw4), (run_wf _ _ _ _ Hanswer), (run_wf _ _ _ _ Hprepare), (run_wf _ _ _ _ Hreplay), Hw. }
    apply rounds_bounded in Hpersist; [|exact Hwf].
    apply run_le in Hreplay, Hprepare, Hanswer, Hrun. apply clients_le in Hw4. lia. }
  destruct request as [deploymentID|[[missionID digest] key]]; [|by apply (Hdeploy flightID missionID digest key)].
  unfold ReconcileMissionDeployment in Hrun. apply crun_bind in Hrun as ([d|err] & w1 & Hread & Hrun); [|by destruct Hrun as [? _]].
  destruct (negb _).
  - apply crun_bind in Hrun as ([[]|err] & w2 & _ & Hrun); by destruct Hrun as [? _].
  - apply Hdeploy in Hrun; [|by apply (run_wf _ _ _ _ Hread)]. apply run_le in Hread. lia.
Qed.
End termination.

(** * A mission, deployed

    The mission imported in MissionImport.v is deployed through an agent that
    applies it: the runs on which the theorems about deployments are exercised. *)

#[local] Existing Instance reference_runtime.
#[local] Existing Instance reference_agent_library.

Definition imported_store : Store := store import_run.2.

(** An agent that applies what it is sent; its state counts the missions. *)
Definition applied_result (command : DeployMissionCommand) : MissionDeploymentResult :=
  mkMissionDeploymentResult (DeployCommand_CommandId command) (DeployCommand_Binding command) STATUS_APPLIED
    "applied" (default "" (Binding_MissionDigest <$> DeployCommand_Binding command))
    (Z.of_nat (length (default [] (Plan_Items <$> DeployCommand_Plan command)))) None 0.

#[global] Instance willing_agent : Outside deployerE nat := λ A e n,
  match e in deployerE A return A * nat with
  | AskEnsure _ _ => (Ok tt, n)
  | AskClear _ _ _ => (Ok tt, n)
  | AskDeploy _ command => (Ok (Some (applied_result command)), S n)
  end.

#[global] Instance direct_deployer_law : DeployerLaw direct_deployer.
Proof. split; done. Qed.

Definition mission_digest : string := sha256_hex "2".

(** Each clock reading is a second after the one before; identifiers are fresh. *)
Definition deployment_world {S} (first_tick first_id : nat) (s : S) : world S nat :=
  mkWorld (λ n, 100 + Z.of_nat n) (λ n, "id" +:+ Itoa (Z.of_nat n)) first_tick first_id s 0%nat.

Definition deploy_request {S} `{DurableStore S} (key : string) (w : world S nat) :=
  run handle_api (DeployCurrentMission (Some direct_deployer) 2 "f1" "u" mission_digest key) w.

(** The first deployment is applied, the second one too, and the first row stays. *)
Definition first_deployment := deploy_request "key-1" (deployment_world 0 0 imported_store).

Example first_deployment_applied :
  match first_deployment with
  | (Some (Ok result), w) =>
      Deployment_Status (DeployResult_Deployment result) = MissionDeploymentApplied
      ∧ DeployResult_Replayed result = false
      ∧ missionDeployments (store w) !! "id0" = Some (DeployResult_Deployment result) ∧ outside w = 1%nat
  | _ => False
  end.
Proof. vm_compute. done. Qed.

(** A second request, with what its client learns. *)
Definition tracked_start : tracked := mkTracked (store first_deployment.2) [] false.
Definition second_deployment := deploy_request "key-2" (deployment_world 50 50 tracked_start).

Definition applied_row : MissionDeployment :=
  default zero_MissionDeployment (missionDeployments (actual tracked_start) !! "id0").

(** A sequential run leaves a well-formed store. *)
Lemma run_store_wf {O A} {externalE : Type → Type} {HO : Outside externalE O} (p : prog (apiE externalE) A)
    (w : world Store O) :
  store_wf (store w) → store_wf (store (run handle_api p w).2).
Proof.
  revert w. induction p as [a|X e k IH]; intros w Hw; [done|]. cbn [run].
  destruct (handle_api X e w) as [x w'] eqn:He. apply IH. destruct e as [| |B e|B e]; cbn in He.
  - by injection He as <- <-.
  - by injection He as <- <-.
  - destruct (handle_store e (store w)) as [r s] eqn:Hs. injection He as <- <-. cbn.
    pose proof (handle_wf _ e _ Hw) as Hwf. by rewrite Hs in Hwf.
  - destruct (respond e (outside w)). by injection He as <- <-.
Qed.

Lemma imported_store_wf : store_wf imported_store.
Proof. unfold imported_store, import_run. apply run_store_wf. unfold demo_world. cbn [store]. apply demo_wf. Qed.

Lemma tracked_start_wf : tracked_wf tracked_start.
Proof.
  pose proof imported_store_wf as Hs.
  assert (store_wf (store first_deployment.2)) as Hf.
  { unfold first_deployment, deploy_request. apply run_store_wf. exact Hs. }
  split; [exact Hf|by intros d ?%elem_of_nil].
Qed.

Definition rooms_check (s : tracked) : bool :=
  forallb (λ d, (- 2 ^ 63 <=? Deployment_Revision d) && (Deployment_Revision d <? 2 ^ 63 - 1)) (known s).

Lemma rooms_checked s : rooms_check s = true → rooms s.
Proof.
  unfold rooms_check. rewrite forallb_elem. intros H d Hd. specialize (H d Hd). to_prop. lia.
Qed.

Example second_deployment_applied :
  match second_deployment with
  | (Some (Ok result), w) =>
      Deployment_ID (DeployResult_Deployment result) = "id50"
      ∧ Deployment_Status (DeployResult_Deployment result) = MissionDeploymentApplied ∧ outside w = 1%nat
  | _ => False
  end.
Proof. vm_compute. done. Qed.

Lemma deployment_outcome_final_witness :
  Deployment_Status applied_row = MissionDeploymentApplied
  ∧ missionDeployments (actual (store second_deployment.2)) !! "id0" = Some applied_row.
Proof.
  split; [vm_compute; reflexivity|].
  apply (deployment_outcome_final direct_deployer 2 "f1" (inr ("u", mission_digest, "key-2"))
           (deployment_world 50 50 tracked_start) second_deployment.2 second_deployment.1).
  - exact tracked_start_wf.
  - apply run_alone. unfold second_deployment, deploy_request.
    match goal with |- ?x = _ => by destruct x end.
  - vm_compute. reflexivity.
  - apply rooms_checked. vm_compute. reflexivity.
  - vm_compute. reflexivity.
  - vm_compute. reflexivity.
Defined.

(** The same request against the counted store, with two rounds. *)
Definition counted_start : world counted nat := deployment_world 0 0 (mkCounted imported_store 0).
Definition counted_run := deploy_request "key-1" counted_start.

Lemma counted_run_alone :
  crun handle_api (other_client counted_client)
    (DeployCurrentMission (Some direct_deployer) 2 "f1" "u" mission_digest "key-1") counted_start
    counted_run.1 counted_run.2.
Proof.
  unfold counted_run, deploy_request.
  generalize (DeployCurrentMission (Some direct_deployer) 2 "f1" "u" mission_digest "key-1"), counted_start.
  intros p w. apply run_crun.
Qed.

Lemma deployment_terminates_witness :
  changes (store counted_run.2) = 0%nat ∧ ∃ result, counted_run.1 = Some result.
Proof.
  assert (changes (store counted_run.2) = 0%nat) as Hchanges by (vm_compute; reflexivity).
  split; [exact Hchanges|].
  apply (deployment_terminates (Some direct_deployer) 2 "f1" (inr ("u", mission_digest, "key-1"))
           counted_start counted_run.1 counted_run.2 imported_store_wf counted_run_alone).
  rewrite Hchanges. apply le_n.
Defined.
