(* ===== verification/RelayControl.v ===== *)
(** * Control of the relays

    src/internal/relaycontrol/service.go: commands to an agent are delivered to
    the relay where the registry has placed it, and are complete only with the
    agent's acknowledgement; src/internal/relaycontrol/grpc_pool.go: the pool of
    connections.  The registry, the connections and the relays are outside.
    And when a command counts as delivered. *)

From S2P Require Import Prelude GoRuntime GoSha256 GoNet GoRange Domain Errors Registry Program MemoryState DurableStore MemoryStore ProgramLogic AgentMessages MissionDeployment MissionOutcome.
From stdpp Require Import options.

Definition relayAddress (relay : Relay) : string :=
  let address := TrimSpace (Relay_Address relay) in
  if address =s= "" then ""
  else if (0 <? Relay_GrpcPort relay) && is_nil (split_host_port (String.list_ascii_of_string address))
  then join_host_port address (Itoa (Relay_GrpcPort relay))
  else address.

Example relayAddress_ex :
  map (λ address, relayAddress (mkRelay "r" address 9000 0))
    [" relay.example "; "relay:7000"; "::1"; "[::1]:7000"; "[::1]"]
  = ["relay.example:9000"; "relay:7000"; "[::1]:9000"; "[::1]:7000"; "[[::1]]:9000"].
Proof. vm_compute. reflexivity. Qed.

(** ** State *)

Record cachedPlacement : Set := mkCachedPlacement {
  relayID : string;
  address : string;
  expiresAt : Time;
}.

(** A connection is known by its number. *)
Definition connection : Set := Z.

Record pooledConnection : Set := mkPooledConnection {
  pooled_address : string;
  pooled_conn : connection;
}.

(** What the service calls: its own cache of placements (under its lock), the
    pool (under its own), the registry, the source of random bytes, and the
    relays over a connection. *)
Inductive relayE : Type → Type :=
  | ReadPlacement (agentID : string) : relayE (option cachedPlacement)
  | WritePlacement (agentID : string) (placement : cachedPlacement) : relayE unit
  | DeletePlacement (agentID : string) : relayE unit
  | Client (relayID address : string) : relayE (outcome connection)
  | Invalidate (relayID : string) : relayE unit
  | GetAgentPlacement (agentID : string) : relayE (outcome (option AgentPlacement))
  | ListRelays : relayE (outcome (list Relay))
  | RandomBytes : relayE (outcome (list Z))
  | SendSet (client : connection) (agentID : string) (command : SetOperationContextCommand)
      : relayE (outcome (option OperationContextCommandAck))
  | SendClear (client : connection) (agentID : string) (command : ClearOperationContextCommand)
      : relayE (outcome (option OperationContextCommandAck))
  | SendDeploy (client : connection) (agentID : string) (command : DeployMissionCommand)
      : relayE (outcome (option MissionDeploymentResult)).

(** The world around the service. *)
Class Network (N : Type) := {
  registry_GetAgentPlacement : string → N → outcome (option AgentPlacement) * N;
  registry_ListRelays : N → outcome (list Relay) * N;
  rand_Read : N → outcome (list Z) * N;
  grpc_Dial : string → N → outcome connection * N;
  conn_Close : connection → N → N;
  rpc_SetOperationContext : connection → string → SetOperationContextCommand → N →
    outcome (option OperationContextCommandAck) * N;
  rpc_ClearOperationContext : connection → string → ClearOperationContextCommand → N →
    outcome (option OperationContextCommandAck) * N;
  rpc_DeployMission : connection → string → DeployMissionCommand → N →
    outcome (option MissionDeploymentResult) * N;
}.

Record relay_state (N : Type) := mkRelayState {
  placements : gmap string cachedPlacement;
  conns : gmap string pooledConnection;
  network : N;
}.
Arguments mkRelayState {N}.
Arguments placements {N}.
Arguments conns {N}.
Arguments network {N}.

#[global] Instance relay_state_eta N : Eta (relay_state N) := λ s,
  mkRelayState (placements s) (conns s) (network s).

Section pool.
Context {N : Type} {NET : Network N}.

(** *** The pool *)

(** The connection to another address of the relay is closed and forgotten. *)
Definition pool_close (relayID : string) (s : relay_state N) : relay_state N :=
  match conns s !! relayID with
  | Some existing =>
      s <| network := conn_Close (pooled_conn existing) (network s) |> <| conns := delete relayID (conns s) |>
  | None => s
  end.

Definition pool_dial (relayID address : string) (s : relay_state N) : outcome connection * relay_state N :=
  match grpc_Dial address (network s) with
  | (Err err, n) => (Err err, s <| network := n |>)
  | (Ok conn, n) =>
      (Ok conn, s <| network := n |> <| conns := <[relayID := mkPooledConnection address conn]> (conns s) |>)
  end.

Definition pool_Client (relayID address : string) (s : relay_state N) : outcome connection * relay_state N :=
  match conns s !! relayID with
  | Some existing =>
      if pooled_address existing =s= address then (Ok (pooled_conn existing), s)
      else pool_dial relayID address (pool_close relayID s)
  | None => pool_dial relayID address s
  end.

Definition pool_Invalidate (relayID : string) (s : relay_state N) : relay_state N := pool_close relayID s.

(** Every connection, in any order; the first error is reported, which is only
    logged, so errors of closing are left out. *)
Definition pool_Close {RT : Runtime} (s : relay_state N) : relay_state N :=
  foldl (λ s relayID, pool_close relayID s) s (map_range (conns s)).*1.

Lemma pool_close_conns relayID s : conns (pool_close relayID s) = delete relayID (conns s).
Proof using Type.
  unfold pool_close. destruct (conns s !! relayID) eqn:Hconn; [done|]. by rewrite delete_id.
Qed.

Lemma pool_Close_empty {RT : Runtime} s : conns (pool_Close s) = ∅.
Proof using Type.
  unfold pool_Close. assert (∀ k, k ∈ dom (conns s) → k ∈ (map_range (conns s)).*1) as Hall.
  { intros k [v Hv]%elem_of_dom. apply list_elem_of_fmap. exists (k, v). split; [done|].
    rewrite map_range_perm. by apply elem_of_map_to_list. }
  revert Hall. generalize (map_range (conns s)).*1 as ids. intros ids. revert s.
  induction ids as [|k ids IH]; intros s Hall; cbn [foldl].
  - apply dom_empty_inv_L. apply elem_of_equiv_empty_L. intros k Hk. by apply Hall, elem_of_nil in Hk.
  - apply IH. intros k'. rewrite pool_close_conns, dom_delete. set_solver.
Qed.

(** A call that leaves the process. *)
Definition on_network {A} (call : N → A * N) (s : relay_state N) : A * relay_state N :=
  let '(a, n) := call (network s) in (a, s <| network := n |>).

#[global] Instance relay_outside : Outside relayE (relay_state N) := λ A e s,
  match e in relayE A return A * relay_state N with
  | ReadPlacement agentID => (placements s !! agentID, s)
  | WritePlacement agentID placement => (tt, s <| placements := <[agentID := placement]> (placements s) |>)
  | DeletePlacement agentID => (tt, s <| placements := delete agentID (placements s) |>)
  | Client relayID address => pool_Client relayID address s
  | Invalidate relayID => (tt, pool_Invalidate relayID s)
  | GetAgentPlacement agentID => on_network (registry_GetAgentPlacement agentID) s
  | ListRelays => on_network registry_ListRelays s
  | RandomBytes => on_network rand_Read s
  | SendSet client agentID command => on_network (rpc_SetOperationContext client agentID command) s
  | SendClear client agentID command => on_network (rpc_ClearOperationContext client agentID command) s
  | SendDeploy client agentID command => on_network (rpc_DeployMission client agentID command) s
  end.
End pool.

(** ** The service *)

Definition operationContextsEqual (left right : option OperationContext) : bool :=
  match left, right with
  | Some l, Some r =>
      (Context_AircraftId l =s= Context_AircraftId r) && (Context_FlightId l =s= Context_FlightId r)
      && (Context_IntentId l =s= Context_IntentId r) && (Context_IntentVersion l =? Context_IntentVersion r)
  | _, _ => false
  end.

Section acks.
Context {AL : AgentLibrary}.

Definition validateAck (ack : option OperationContextCommandAck) (commandID : string)
    : outcome OperationContextCommandAck :=
  match ack with
  | None => Err (plain "relay returned no agent acknowledgement")
  | Some ack =>
      if Ack_CommandId ack <>s commandID
      then Err (plain ("agent acknowledgement command_id " +:+ quote (Ack_CommandId ack)
                         +:+ " does not match " +:+ quote commandID))
      else
        match Ack_Status ack with
        | ACK_STATUS_APPLIED | ACK_STATUS_ALREADY_APPLIED => Ok ack
        | status => Err (plain ("agent rejected operation context: " +:+ ack_status_name status +:+ ": "
                                  +:+ Ack_Error ack))
        end
  end.

Definition validateSetAck (ack : option OperationContextCommandAck) (commandID : string)
    (expected : option OperationContext) : outcome unit :=
  match validateAck ack commandID with
  | Err err => Err err
  | Ok ack =>
      if operationContextsEqual (Ack_ActiveContext ack) expected then Ok tt
      else Err (plain "agent acknowledgement active_context does not exactly match the requested aircraft/flight/intent/version")
  end.

(** The acknowledgement of a conditional clear. *)
Definition validateClearAck (ack : option OperationContextCommandAck) (commandID : string)
    (old : OperationContext) : outcome unit :=
  match validateAck ack commandID with
  | Err err => Err err
  | Ok ack =>
      if operationContextsEqual (Ack_ActiveContext ack) (Some old)
      then Err (plain "agent acknowledgement still reports the old operation context active")
      else Ok tt
  end.
End acks.

Record SetRequest : Set := mkSetRequest {
  Set_AgentID : string;
  Set_AircraftID : string;
  Set_FlightID : string;
  Set_IntentID : string;
  Set_IntentVersion : Z;
  Set_CommandID : string;
}.

Record ClearRequest : Set := mkClearRequest {
  Clear_AgentID : string;
  Clear_FlightID : string;
  Clear_CommandID : string;
}.

Section service.
Context {AL : AgentLibrary}.
Context (placementTTL : Duration).
Abbreviation program := (prog (apiE relayE)).

(** The first relay of the identifier, and where it can be reached. *)
Definition route_of (relays : list Relay) (relayID : string) : option string :=
  match List.find (λ relay, Relay_RelayId relay =s= relayID) relays with
  | Some relay => if relayAddress relay =s= "" then None else Some (relayAddress relay)
  | None => None
  end.

(** The placement according to the registry, kept in the cache. *)
Definition resolve_registry (agentID : string) : program (outcome cachedPlacement) :=
  try! response := external (GetAgentPlacement agentID) orelse wrap "resolve agent placement" in
  match response with
  | Some placement =>
      if Placement_RelayId placement =s= ""
      then Ret (Err (plain ("agent " +:+ agentID +:+ " has no relay placement")))
      else
        try! relays := external ListRelays orelse wrap "list relays" in
        match route_of relays (Placement_RelayId placement) with
        | None => Ret (Err (plain ("relay " +:+ Placement_RelayId placement +:+ " has no routable address")))
        | Some address =>
            let! t := now in
            let resolved := mkCachedPlacement (Placement_RelayId placement) address (TimeAdd t placementTTL) in
            let! _ := external (WritePlacement agentID resolved) in
            Ret (Ok resolved)
        end
  | None => Ret (Err (plain ("agent " +:+ agentID +:+ " has no relay placement")))
  end.

Definition resolve (agentID : string) (refresh : bool) : program (outcome cachedPlacement) :=
  let! cached := external (ReadPlacement agentID) in
  match refresh, cached with
  | false, Some cached =>
      let! t := now in
      if Before t (expiresAt cached) then Ret (Ok cached) else resolve_registry agentID
  | _, _ => resolve_registry agentID
  end.

Definition invalidate (agentID relayID : string) : program unit :=
  let! _ := external (DeletePlacement agentID) in
  external (Invalidate relayID).

(** One attempt; [again] is what follows it when the relay is unavailable. *)
Definition attempt {A} (agentID : string) (invoke : connection → program (outcome A)) (refresh : bool)
    (again : option (program (outcome A))) : program (outcome A) :=
  try! placement := resolve agentID refresh orelse id in
  try! client := external (Client (relayID placement) (address placement))
    orelse wrap ("connect relay " +:+ relayID placement) in
  let! result := invoke client in
  match result with
  | Ok a => Ret (Ok a)
  | Err err =>
      match again with
      | Some again =>
          if status_Code err =? codes_Unavailable then
            let! _ := invalidate agentID (relayID placement) in again
          else Ret (Err (wrap "deliver relay control command" err))
      | None => Ret (Err (wrap "deliver relay control command" err))
      end
  end.

(** The loop of two attempts; the second one asks the registry again. *)
Definition relay_call {A} (agentID : string) (invoke : connection → program (outcome A)) : program (outcome A) :=
  attempt agentID invoke false (Some (attempt agentID invoke true None)).

Definition ensureCommandID (id : string) : program (outcome string) :=
  if id <>s "" then Ret (Ok id)
  else
    try! b := external RandomBytes orelse wrap "generate command id" in
    Ret (Ok (EncodeToString b)).

Definition SetOperationContext (req : SetRequest) : program (string * option error) :=
  if (Set_AgentID req =s= "") || (Set_FlightID req =s= "")
  then Ret ("", Some (plain "agent_id and flight_id are required"))
  else
    let! ensured := ensureCommandID (Set_CommandID req) in
    match ensured with
    | Err err => Ret ("", Some err)
    | Ok commandID =>
        let context := mkOperationContext (Set_AircraftID req) (Set_FlightID req) (Set_IntentID req)
                         (Set_IntentVersion req) in
        let command := mkSetOperationContextCommand commandID (Some context) in
        let! result := relay_call (Set_AgentID req) (λ client,
          try! ack := external (SendSet client (Set_AgentID req) command) orelse id in
          Ret (validateSetAck ack commandID (Some context))) in
        Ret (commandID, match result with Ok _ => None | Err err => Some err end)
    end.

Definition ClearOperationContext (req : ClearRequest) : program (string * option error) :=
  if (Clear_AgentID req =s= "") || (Clear_FlightID req =s= "")
  then Ret ("", Some (plain "agent_id and flight_id are required"))
  else
    let! ensured := ensureCommandID (Clear_CommandID req) in
    match ensured with
    | Err err => Ret ("", Some err)
    | Ok commandID =>
        let command := mkClearOperationContextCommand commandID (Clear_FlightID req) false in
        let! result := relay_call (Clear_AgentID req) (λ client,
          try! ack := external (SendClear client (Clear_AgentID req) command) orelse id in
          Ret (validateAck ack commandID)) in
        Ret (commandID, match result with Ok _ => None | Err err => Some err end)
    end.

(** *** The adapter of the deployment service *)

Definition EnsureOperationContext (agentID : string) (command : SetOperationContextCommand)
    : program (outcome unit) :=
  if (TrimSpace agentID =s= "") || (TrimSpace (SetCommand_CommandId command) =s= "")
     || is_nil (SetCommand_Context command)
  then Ret (Err (plain "agent_id and a complete operation context command are required"))
  else
    let operation := default (mkOperationContext "" "" "" 0) (SetCommand_Context command) in
    if (TrimSpace (Context_AircraftId operation) =s= "") || (TrimSpace (Context_FlightId operation) =s= "")
       || (TrimSpace (Context_IntentId operation) =s= "") || (Context_IntentVersion operation =? 0)
    then Ret (Err (plain "mission operation context requires aircraft_id, flight_id, intent_id, and positive intent_version"))
    else
      relay_call agentID (λ client,
        try! ack := external (SendSet client agentID command) orelse id in
        Ret (validateSetAck ack (SetCommand_CommandId command) (SetCommand_Context command))).

Definition ClearOperationContextForReconciliation (agentID : string) (command : ClearOperationContextCommand)
    (old : OperationContext) : program (outcome unit) :=
  if (TrimSpace agentID =s= "") || (TrimSpace (ClearCommand_CommandId command) =s= "")
     || (TrimSpace (ClearCommand_FlightId command) =s= "") || ClearCommand_Authoritative command
  then Ret (Err (plain "agent_id, conditional clear command, and old operation context are required"))
  else
    relay_call agentID (λ client,
      try! ack := external (SendClear client agentID command) orelse id in
      Ret (validateClearAck ack (ClearCommand_CommandId command) old)).

Definition DeployMission (agentID : string) (command : DeployMissionCommand)
    : program (outcome (option MissionDeploymentResult)) :=
  if (TrimSpace agentID =s= "") || (TrimSpace (DeployCommand_CommandId command) =s= "")
  then Ret (Err (plain "agent_id and a command with command_id are required"))
  else
    relay_call agentID (λ client,
      try! result := external (SendDeploy client agentID command) orelse id in
      Ret (match result with
           | None => Err (plain "relay returned no mission deployment result")
           | Some result => Ok (Some result)
           end)).

Definition relay_deployer : MissionDeployer relayE :=
  mkMissionDeployer _ EnsureOperationContext ClearOperationContextForReconciliation DeployMission.
End service.

(** * What the relays are sent

    Whatever registry, network and relays answer: a command is delivered where
    the registry has placed the agent, at most twice, and it counts as done only
    with the agent's own acknowledgement. *)

Abbreviation program := (prog (apiE relayE)).
Abbreviation history := (list (event (apiE relayE))).
Abbreviation sent e r := (Event (OfExternal e : apiE relayE _) r).
Abbreviation clock_read t := (Event (Now : apiE relayE _) t).

(** ** Deliveries *)

Inductive relay_command : Set :=
  | SetCommand (command : SetOperationContextCommand)
  | ClearCommand (command : ClearOperationContextCommand)
  | DeployCommand (command : DeployMissionCommand).

(** The connection, the agent and the command of a delivery. *)
Definition delivery {X} (e : relayE X) : option (connection * string * relay_command) :=
  match e with
  | SendSet client agentID command => Some (client, agentID, SetCommand command)
  | SendClear client agentID command => Some (client, agentID, ClearCommand command)
  | SendDeploy client agentID command => Some (client, agentID, DeployCommand command)
  | _ => None
  end.

Definition failed_code {A} (r : outcome A) : option Z :=
  match r with Ok _ => None | Err err => Some (status_Code err) end.

(** A delivery that failed, with the code of its error. *)
Definition delivery_code {X} (e : relayE X) : X → option Z :=
  match e in relayE X return X → option Z with
  | SendSet _ _ _ => failed_code
  | SendClear _ _ _ => failed_code
  | SendDeploy _ _ _ => failed_code
  | _ => λ _, None
  end.

Definition no_delivery (v : event (apiE relayE)) : Prop :=
  match v with
  | Event (OfExternal e) _ => delivery e = None
  | _ => True
  end.

(** ** Routes *)

Section delivery.
Context {AL : AgentLibrary} (placementTTL : Duration).

(** The placement was found in the cache, not yet expired, *)
Definition cached_route (agentID : string) (p : cachedPlacement) (look : history) : Prop :=
  ∃ t, look = [clock_read t; sent (ReadPlacement agentID) (Some p)] ∧ t < expiresAt p.

(** or with the registry, and the cache keeps it for its time. *)
Definition registry_route (agentID : string) (p : cachedPlacement) (look : history) : Prop :=
  ∃ t relays placement reads,
    look = sent (WritePlacement agentID p) tt :: clock_read t :: sent ListRelays (Ok relays)
           :: sent (GetAgentPlacement agentID) (Ok (Some placement)) :: reads
    ∧ relayID p = Placement_RelayId placement ∧ relayID p ≠ ""
    ∧ route_of relays (relayID p) = Some (address p) ∧ expiresAt p = t + placementTTL
    ∧ Forall no_delivery reads.

(** [client] is a connection to the relay where the agent is placed; [refresh]
    when only the registry was asked. *)
Definition routed (refresh : bool) (agentID : string) (client : connection) (p : cachedPlacement)
    (look : history) : Prop :=
  ∃ before, look = sent (Client (relayID p) (address p)) (Ok client) :: before
    ∧ (registry_route agentID p before ∨ refresh = false ∧ cached_route agentID p before).

(** When a command may be delivered: first over a route that was looked up last;
    and once more when the relay was unavailable, after the agent's placement
    was dropped and the connection closed, over a route that the registry gave
    anew. *)
Definition deliverable (h : history) (client : connection) (agentID : string) (command : relay_command) : Prop :=
  ∃ p look before, h = look ++ before ∧
    (routed false agentID client p look ∧ Forall no_delivery before
     ∨ routed true agentID client p look
       ∧ ∃ X (e : relayE X) x client1 p1 look1 first,
           before = sent (Invalidate (relayID p1)) tt :: sent (DeletePlacement agentID) tt
                    :: sent e x :: look1 ++ first
           ∧ delivery e = Some (client1, agentID, command) ∧ delivery_code e x = Some codes_Unavailable
           ∧ routed false agentID client1 p1 look1 ∧ Forall no_delivery first).

Definition allowed (h : history) (X : Type) (e : apiE relayE X) : Prop :=
  match e with
  | OfExternal e =>
      match delivery e with
      | Some (client, agentID, command) => deliverable h client agentID command
      | None => True
      end
  | _ => True
  end.

Lemma wp_external {A B} h (e : relayE A) (k : A → program B) Q :
  delivery e = None → (∀ x, wp allowed (sent e x :: h) (k x) Q) →
  wp allowed h (prog_bind (external e) k) Q.
Proof using Type. intros He Hk. apply wp_call; [|done]. cbn. by rewrite He. Qed.

Lemma resolve_registry_wp h agentID :
  wp allowed h (resolve_registry placementTTL agentID) (λ h' r,
    match r with
    | Ok p => ∀ reads, Forall no_delivery reads →
        ∃ look, h' = look ++ h ∧ registry_route agentID p (look ++ reads)
    | Err _ => True
    end).
Proof using Type.
  unfold resolve_registry. apply wp_external; [done|]. intros [[placement|]|err]; [|done|done].
  destruct (_ =s= "") eqn:Hid; [done|]. apply wp_external; [done|]. intros [relays|err]; [|done].
  destruct (route_of _ _) as [address|] eqn:Hroute; [|done]. apply wp_now; [done|]. intros t.
  apply wp_external; [done|]. intros []. cbn. intros reads Hreads. eexists [_; _; _; _]. split; [done|].
  exists t, relays, placement, reads. apply String.eqb_neq in Hid. split_and!; done.
Qed.

Lemma resolve_wp h agentID refresh :
  wp allowed h (resolve placementTTL agentID refresh) (λ h' r,
    match r with
    | Ok p => ∃ look, h' = look ++ h
        ∧ (registry_route agentID p look ∨ refresh = false ∧ cached_route agentID p look)
    | Err _ => True
    end).
Proof using Type.
  assert (∀ reads, Forall no_delivery reads →
    wp allowed (reads ++ h) (resolve_registry placementTTL agentID) (λ h' r,
      match r with
      | Ok p => ∃ look, h' = look ++ h
          ∧ (registry_route agentID p look ∨ refresh = false ∧ cached_route agentID p look)
      | Err _ => True
      end)) as Hregistry.
  { intros reads Hreads. eapply wp_mono; [|apply resolve_registry_wp].
    intros h' [p|err]; [|done]. intros H. destruct (H reads Hreads) as (look & -> & Hlook).
    exists (look ++ reads). rewrite <- app_assoc. auto. }
  unfold resolve. apply wp_external; [done|]. intros cached.
  assert (wp allowed (sent (ReadPlacement agentID) cached :: h) (resolve_registry placementTTL agentID) (λ h' r,
      match r with
      | Ok p => ∃ look, h' = look ++ h
          ∧ (registry_route agentID p look ∨ refresh = false ∧ cached_route agentID p look)
      | Err _ => True
      end)) as Hread by (apply (Hregistry [_]); by repeat constructor).
  destruct refresh; [done|]. destruct cached as [p|]; [|done]. apply wp_now; [done|]. intros t.
  destruct (Before t (expiresAt p)) eqn:Ht.
  - cbn. eexists [_; _]. split; [done|]. right. split; [done|]. exists t. split; [done|].
    unfold Before in Ht. lia.
  - apply (Hregistry [_; _]). by repeat constructor.
Qed.

(** ** One command *)

Section one.
Context {A X : Type} (agentID : string) (command : relay_command).
Context (send : connection → relayE (outcome X)) (judge : X → outcome A).
Hypothesis Hsend : ∀ c, delivery (send c) = Some (c, agentID, command).
Hypothesis Hcode : ∀ c err, delivery_code (send c) (Err err) = Some (status_Code err).
Hypothesis Hjudge : ∀ x err, judge x = Err err → status_Code err ≠ codes_Unavailable.

Abbreviation invoke := (λ c : connection, try! x := external (send c) orelse id in Ret (judge x)).

(** The answer that counts is the last reply. *)
Definition answered (h : history) (r : outcome A) : Prop :=
  match r with
  | Ok a => ∃ c x before, h = sent (send c) (Ok x) :: before ∧ judge x = Ok a
  | Err _ => True
  end.

Lemma attempt_wp h refresh again :
  (∀ c p look, routed refresh agentID c p look → deliverable (look ++ h) c agentID command) →
  match again with
  | Some again => ∀ c p look err, routed refresh agentID c p look → status_Code err = codes_Unavailable →
      wp allowed (sent (Invalidate (relayID p)) tt :: sent (DeletePlacement agentID) tt
                  :: sent (send c) (Err err) :: look ++ h) again answered
  | None => True
  end →
  wp allowed h (attempt placementTTL agentID invoke refresh again) answered.
Proof using Hsend Hcode Hjudge.
  intros Hdeliver Hagain. unfold attempt. apply wp_bind. eapply wp_mono; [|apply resolve_wp].
  intros h' [p|err]; [|done]. intros (look & -> & Hlook). apply wp_external; [done|]. intros [c|err]; [|done].
  assert (routed refresh agentID c p (sent (Client (relayID p) (address p)) (Ok c) :: look)) as Hrouted.
  { exists look. done. }
  apply wp_bind. apply wp_call. { cbn. rewrite Hsend. apply (Hdeliver c p _ Hrouted). }
  intros [x|err].
  - cbn [wp]. destruct (judge x) as [a|err] eqn:Hx; [by eexists _, _, _|].
    specialize (Hjudge _ _ Hx). destruct again; [|done]. destruct (_ =? _) eqn:Hc; [|done]. lia.
  - cbn [wp]. unfold id. destruct again as [again|]; [|done]. destruct (_ =? _) eqn:Hc; [|done].
    unfold invalidate. apply wp_bind. apply wp_external; [done|]. intros []. apply wp_call; [done|]. intros [].
    apply (Hagain c p _ err Hrouted). lia.
Qed.

Lemma relay_call_wp h :
  Forall no_delivery h → wp allowed h (relay_call placementTTL agentID invoke) answered.
Proof using Hsend Hcode Hjudge.
  intros Hh. apply attempt_wp.
  - intros c p look Hrouted. exists p, look, h. auto.
  - intros c p look err Hrouted Herr. apply attempt_wp; [|done].
    intros c' p' look' Hrouted'. eexists p', look', _. split; [done|]. right. split; [done|].
    eexists _, (send c), (Err err), c, p, look, h. split_and!; auto. rewrite Hcode. congruence.
Qed.
End one.
End delivery.

(** ** Acknowledgements *)

Definition confirms (ack : OperationContextCommandAck) (commandID : string) : Prop :=
  Ack_CommandId ack = commandID
  ∧ (Ack_Status ack = ACK_STATUS_APPLIED ∨ Ack_Status ack = ACK_STATUS_ALREADY_APPLIED).

Section acks.
Context {AL : AgentLibrary}.

Lemma validateAck_Ok ack commandID a :
  validateAck ack commandID = Ok a → ack = Some a ∧ confirms a commandID.
Proof using Type.
  unfold validateAck, confirms. destruct ack as [ack|]; [|done]. destruct (_ <>s _) eqn:Hid; [done|]. to_prop.
  destruct (Ack_Status ack) eqn:Hs; intros [= <-]; rewrite Hs; auto.
Qed.

Lemma operationContextsEqual_spec left right :
  operationContextsEqual left right = true ↔ is_Some left ∧ left = right.
Proof using Type.
  unfold operationContextsEqual. destruct left as [[a f i v]|], right as [[a' f' i' v']|]; cbn; split;
    try (by intros [? ?]); try done; try (by intros [[? ?] ?]).
  - intros H. to_prop. subst. done.
  - intros [_ [= -> -> -> ->]]. by rewrite !String.eqb_refl, Z.eqb_refl.
Qed.

Lemma validateSetAck_Ok ack commandID expected :
  validateSetAck ack commandID expected = Ok tt →
  ∃ a, ack = Some a ∧ confirms a commandID ∧ is_Some expected ∧ Ack_ActiveContext a = expected.
Proof using Type.
  unfold validateSetAck. destruct (validateAck ack commandID) as [a|err] eqn:Ha; [|done].
  apply validateAck_Ok in Ha as [-> Ha]. destruct (operationContextsEqual _ _) eqn:Heq; [|done].
  apply operationContextsEqual_spec in Heq as [? <-]. by exists a.
Qed.

Lemma validateClearAck_Ok ack commandID old :
  validateClearAck ack commandID old = Ok tt →
  ∃ a, ack = Some a ∧ confirms a commandID ∧ Ack_ActiveContext a ≠ Some old.
Proof using Type.
  unfold validateClearAck. destruct (validateAck ack commandID) as [a|err] eqn:Ha; [|done].
  apply validateAck_Ok in Ha as [-> Ha]. destruct (operationContextsEqual _ _) eqn:Heq; [done|].
  intros _. exists a. split_and!; [done|done|]. intros Hold. rewrite Hold in Heq.
  assert (operationContextsEqual (Some old) (Some old) = true) by by apply operationContextsEqual_spec. congruence.
Qed.

(** A refused acknowledgement is no failure of the relay. *)
Lemma validateAck_code ack commandID err : validateAck ack commandID = Err err → status_Code err = codes_Unknown.
Proof using Type. unfold validateAck. repeat case_match; try done; by intros [= <-]. Qed.

Lemma validateSetAck_code ack commandID expected err :
  validateSetAck ack commandID expected = Err err → status_Code err = codes_Unknown.
Proof using Type.
  unfold validateSetAck. destruct (validateAck _ _) eqn:Ha; [case_match; [done|by intros [= <-]]|].
  intros [= <-]. by eapply validateAck_code.
Qed.

Lemma validateClearAck_code ack commandID old err :
  validateClearAck ack commandID old = Err err → status_Code err = codes_Unknown.
Proof using Type.
  unfold validateClearAck. destruct (validateAck _ _) eqn:Ha; [case_match; [by intros [= <-]|done]|].
  intros [= <-]. by eapply validateAck_code.
Qed.
End acks.

(** ** The requests to the service *)

Inductive relay_request : Set :=
  | RequestSet (req : SetRequest)
  | RequestClear (req : ClearRequest)
  | RequestEnsure (agentID : string) (command : SetOperationContextCommand)
  | RequestReconcile (agentID : string) (command : ClearOperationContextCommand) (old : OperationContext)
  | RequestDeploy (agentID : string) (command : DeployMissionCommand).

Definition identified (r : string * option error) : outcome (string * option MissionDeploymentResult) :=
  match r with
  | (_, Some err) => Err err
  | (commandID, None) => Ok (commandID, None)
  end.

Section requests.
Context {AL : AgentLibrary} (placementTTL : Duration).

(** A request, with the identifier of its command and the result of a deployment. *)
Definition serve (request : relay_request) : program (outcome (string * option MissionDeploymentResult)) :=
  match request with
  | RequestSet req => let! r := SetOperationContext placementTTL req in Ret (identified r)
  | RequestClear req => let! r := ClearOperationContext placementTTL req in Ret (identified r)
  | RequestEnsure agentID command =>
      try! _ := EnsureOperationContext placementTTL agentID command orelse id in
      Ret (Ok (SetCommand_CommandId command, None))
  | RequestReconcile agentID command old =>
      try! _ := ClearOperationContextForReconciliation placementTTL agentID command old orelse id in
      Ret (Ok (ClearCommand_CommandId command, None))
  | RequestDeploy agentID command =>
      try! result := DeployMission placementTTL agentID command orelse id in
      Ret (Ok (DeployCommand_CommandId command, result))
  end.

(** The event that completes a request: the agent's reply to its command. *)
Definition acknowledged (request : relay_request) (commandID : string) (result : option MissionDeploymentResult)
    (v : event (apiE relayE)) : Prop :=
  match request with
  | RequestSet req =>
      ∃ client ack context,
        v = sent (SendSet client (Set_AgentID req) (mkSetOperationContextCommand commandID (Some context)))
              (Ok (Some ack))
        ∧ context = mkOperationContext (Set_AircraftID req) (Set_FlightID req) (Set_IntentID req) (Set_IntentVersion req)
        ∧ confirms ack commandID ∧ Ack_ActiveContext ack = Some context
  | RequestClear req =>
      ∃ client ack,
        v = sent (SendClear client (Clear_AgentID req)
                    (mkClearOperationContextCommand commandID (Clear_FlightID req) false)) (Ok (Some ack))
        ∧ confirms ack commandID
  | RequestEnsure agentID command =>
      ∃ client ack, v = sent (SendSet client agentID command) (Ok (Some ack))
        ∧ confirms ack commandID ∧ commandID = SetCommand_CommandId command
        ∧ is_Some (SetCommand_Context command) ∧ Ack_ActiveContext ack = SetCommand_Context command
  | RequestReconcile agentID command old =>
      ∃ client ack, v = sent (SendClear client agentID command) (Ok (Some ack))
        ∧ confirms ack commandID ∧ commandID = ClearCommand_CommandId command
        ∧ Ack_ActiveContext ack ≠ Some old
  | RequestDeploy agentID command =>
      ∃ client answer, v = sent (SendDeploy client agentID command) (Ok (Some answer))
        ∧ result = Some answer
  end.

Definition completed (request : relay_request) (h : history)
    (r : outcome (string * option MissionDeploymentResult)) : Prop :=
  match r with
  | Ok (commandID, result) => ∃ v before, h = v :: before ∧ acknowledged request commandID result v
  | Err _ => True
  end.

(** The identifier of a command is drawn without any delivery. *)
Lemma ensureCommandID_wp id :
  wp (allowed placementTTL) [] (ensureCommandID id) (λ h _, Forall no_delivery h).
Proof using Type.
  unfold ensureCommandID. destruct (_ <>s _); [by constructor|]. apply wp_external; [done|].
  intros [b|err]; cbn; by repeat constructor.
Qed.

Lemma set_completes h agentID command r :
  answered (λ c, SendSet c agentID command)
    (λ ack, validateSetAck ack (SetCommand_CommandId command) (SetCommand_Context command)) h (Ok r) →
  ∃ client ack before, h = sent (SendSet client agentID command) (Ok (Some ack)) :: before
    ∧ confirms ack (SetCommand_CommandId command) ∧ is_Some (SetCommand_Context command)
    ∧ Ack_ActiveContext ack = SetCommand_Context command.
Proof using Type.
  intros (client & x & before & -> & Hx). destruct r. apply validateSetAck_Ok in Hx as (ack & -> & Hack & Hsome & Hctx).
  by exists client, ack, before.
Qed.

Lemma serve_wp request : wp (allowed placementTTL) [] (serve request) (completed request).
Proof using Type.
  destruct request as [req|req|agentID command|agentID command old|agentID command]; cbn [serve]; apply wp_bind.
  - unfold SetOperationContext. destruct (_ || _); [done|]. apply wp_bind.
    eapply wp_mono; [|apply ensureCommandID_wp]. intros h [commandID|err] Hh; [|done]. apply wp_bind.
    set (context := mkOperationContext _ _ _ _). set (command := mkSetOperationContextCommand commandID (Some context)).
    eapply wp_mono; [|apply (relay_call_wp placementTTL (Set_AgentID req) (SetCommand command)
      (λ c, SendSet c (Set_AgentID req) command)); try done; by intros x err ->%validateSetAck_code].
    intros h' [r|err]; [|done].
    intros (client & ack & before & -> & Hack & _ & Hctx)%(set_completes _ (Set_AgentID req) command).
    eexists _, _. split; [done|]. by exists client, ack, context.
  - unfold ClearOperationContext. destruct (_ || _); [done|]. apply wp_bind.
    eapply wp_mono; [|apply ensureCommandID_wp]. intros h [commandID|err] Hh; [|done]. apply wp_bind.
    set (command := mkClearOperationContextCommand _ _ _).
    eapply wp_mono; [|apply (relay_call_wp placementTTL (Clear_AgentID req) (ClearCommand command)
      (λ c, SendClear c (Clear_AgentID req) command)); try done; by intros x err ->%validateAck_code].
    intros h' [r|err]; [|done]. intros (client & x & before & -> & Hx). apply validateAck_Ok in Hx as [-> Hx].
    eexists _, _. split; [done|]. by eexists _, _.
  - unfold EnsureOperationContext. destruct (_ || _); [done|]. destruct (_ || _); [done|].
    eapply wp_mono; [|apply (relay_call_wp placementTTL agentID (SetCommand command) (λ c, SendSet c agentID command)); try done;
      by intros x err ->%validateSetAck_code].
    intros h' [r|err]; [|done]. intros (client & ack & before & -> & Hack)%set_completes.
    eexists _, _. split; [done|]. eexists _, _. split; [done|]. destruct Hack as (? & ? & ?). done.
  - unfold ClearOperationContextForReconciliation. destruct (_ || _); [done|].
    eapply wp_mono; [|apply (relay_call_wp placementTTL agentID (ClearCommand command) (λ c, SendClear c agentID command)); try done;
      by intros x err ->%validateClearAck_code].
    intros h' [[]|err]; [|done]. intros (client & x & before & -> & Hx).
    apply validateClearAck_Ok in Hx as (ack & -> & Hack & Hold).
    eexists _, _. split; [done|]. by eexists _, _.
  - unfold DeployMission. destruct (_ || _); [done|].
    eapply wp_mono; [|apply (relay_call_wp placementTTL agentID (DeployCommand command) (λ c, SendDeploy c agentID command)
      (λ result, match result with None => Err _ | Some result => Ok (Some result) end)); try done;
      by intros [x|] err [= <-]].
    intros h' [r|err]; [|done]. intros (client & [x|] & before & -> & [= <-]).
    eexists _, _. split; [done|]. by eexists _, _.
Qed.

(** C36: Commands reach the agent where it is placed, at most twice, and count only
    when the agent says so.  Whatever registry, network and relays answer, each
    of the service's requests delivers its command over a connection to the
    relay and address that an unexpired cached placement or the registry has
    just given for the agent.  A second delivery, the last one, is of the same
    command to the same agent and follows only when the first failed with the
    code Unavailable, the cached placement was dropped, the connection to that
    relay closed and the registry asked again.  A request succeeds only with its
    last event the agent's reply to the very command.  Setting or ensuring a
    context: acknowledged as applied, now or before, and the active context is the one
    requested; clearing one for a reconciliation: acknowledged as applied, and
    the active context is not the one to be cleared; clearing one otherwise:
    acknowledged as applied, whatever context is active; a deployment: with the
    result that is returned. *)
Theorem relay_commands_delivered request :
  wp (allowed placementTTL) [] (serve request) (completed request).
Proof using Type. apply serve_wp. Qed.

(** The adapter of the deployment service leaves the durable store alone. *)
Lemma attempt_outside {A} agentID (invoke : connection → program (outcome A)) refresh again :
  (∀ c, store_calls_in (λ _ _, False) (invoke c)) →
  match again with Some again => store_calls_in (λ _ _, False) again | None => True end →
  store_calls_in (λ _ _, False) (attempt placementTTL agentID invoke refresh again).
Proof using Type.
  intros Hinvoke Hagain. unfold attempt. apply store_calls_in_bind.
  { unfold resolve, resolve_registry. repeat first [progress cbn | case_match | split; [done|] | intros ?]; done. }
  intros [p|err]; [|done]. cbn. split; [done|]. intros [c|err]; [|done]. apply store_calls_in_bind; [done|].
  intros [a|err]; [done|]. destruct again; [|done]. case_match; [|done]. cbn. by split_and!.
Qed.

#[global] Instance relay_deployer_law : DeployerLaw (relay_deployer placementTTL).
Proof using Type.
  split; intros; cbn; [unfold EnsureOperationContext|unfold ClearOperationContextForReconciliation|unfold DeployMission];
    repeat (case_match; [done|]); (apply attempt_outside; [|apply attempt_outside; [|done]]);
    intros c; cbn; (split; [done|]); intros [x|err]; done.
Qed.
End requests.

(** ** Examples

    A registry that has moved the agent from relay [r1] to [r2], and a relay
    [r1] that is unavailable. *)

#[local] Existing Instance reference_runtime.
#[local] Existing Instance reference_agent_library.

Definition moved_network : Network (list string) := {|
  registry_GetAgentPlacement agentID n :=
    (Ok (Some (mkAgentPlacement agentID (if is_nil (head n) then "r1" else "r2") 0)), n);
  registry_ListRelays n := (Ok [mkRelay "r1" "one" 7000 0; mkRelay "r2" "two:7001" 7000 0], n);
  rand_Read n := (Ok [1; 171], n);
  grpc_Dial address n := (Ok (if address =s= "one:7000" then 1 else 2), n);
  conn_Close conn n := n;
  rpc_SetOperationContext conn agentID command n :=
    if conn =? 1 then (Err (StatusError codes_Unavailable "gone"), "one" :: n)
    else (Ok (Some (mkOperationContextCommandAck (SetCommand_CommandId command) ACK_STATUS_APPLIED ""
                      (SetCommand_Context command))), "two" :: n);
  rpc_ClearOperationContext conn agentID command n := (Ok None, "clear" :: n);
  rpc_DeployMission conn agentID command n := (Ok None, "deploy" :: n);
|}.

#[local] Existing Instance moved_network.

Definition served (request : relay_request) : outcome (string * option MissionDeploymentResult) * list string :=
  let '(r, w) := run handle_api (serve Minute request)
                   (mkWorld (λ n, Z.of_nat n) (λ _, "") 0 0 NewStore (mkRelayState ∅ ∅ [])) in
  (r, network (outside w)).

Example moved_agent_reached :
  served (RequestSet (mkSetRequest "agent" "a1" "f1" "i1" 1 "")) = (Ok ("01ab", None), ["two"; "one"]).
Proof. vm_compute. reflexivity. Qed.

Example unanswered_clear :
  (served (RequestClear (mkClearRequest "agent" "f1" "c1"))).2 = ["clear"]
  ∧ is_ok (served (RequestClear (mkClearRequest "agent" "f1" "c1"))).1 = false.
Proof. vm_compute. done. Qed.
