(* ===== verification/HttpHandlers.v ===== *)
(** * Requests and answers of the HTTP API

    src/internal/httpapi/response.go and the parts of handlers.go and server.go
    that read a request: what a handler sees of it, the status that a service's
    error has, the limits of queries, and the authorization of mission control.
    The framework that routes requests and encodes values is outside. *)

From S2P Require Import Prelude GoRuntime GoStrings GoJson GoStrconv GoSha256 GoNet GoRange Domain LiveDomain Errors TelemetryStores Registry Program DurableStore IntentService Preflight Deconfliction Publishing FleetCommands FleetLive FleetViews FleetDashboards Conformance AgentMessages MissionImport MissionDeployment.
From stdpp Require Import options.

(** ** Requests *)

(** The first reading of a body of one byte at most. *)
Record body_probe := mkBodyProbe {
  probe_count : Z;
  probe_err : option error;
  probe_eof : bool;
}.

(** What follows the first value of a body. *)
Inductive second_value :=
  | EndOfBody
  | AnotherValue
  | Unreadable (err : error).

(** A body that is decoded into an [A]: the outcome of the first value, and what
    follows it. *)
Record request_body (A : Type) := mkRequestBody {
  first_value : outcome A;
  rest_of_body : second_value;
}.
Arguments mkRequestBody {A}.
Arguments first_value {A}.
Arguments rest_of_body {A}.

(** The parts of a request that handlers read; a missing one is empty. *)
Record http_request := mkHttpRequest {
  Param : string → string;
  QueryParam : string → string;
  Header : string → string;
  Probe : body_probe;
}.

Definition decodeJSON {A} (body : request_body A) : outcome A :=
  match first_value body with
  | Err err => Err err
  | Ok value =>
      match rest_of_body body with
      | EndOfBody => Ok value
      | AnotherValue => Err (plain "request body must contain exactly one JSON object")
      | Unreadable err => Err err
      end
  end.

(** A body that has to be empty is not. *)
Definition not_empty (probe : body_probe) : bool :=
  (probe_count probe <>z 0) || negb (is_nil (probe_err probe)) && negb (probe_eof probe).

(** ** Answers *)

Inductive body (A : Type) : Type :=
  | Value (value : A)
  (** An object of texts. *)
  | Texts (members : list (string * string))
  | InvalidMission (text : string) (findings : list MissionValidationFinding)
  | ModificationBlocked (message intentID status : string) (version : Z)
  | NoBody.
Arguments Value {A}.
Arguments Texts {A}.
Arguments InvalidMission {A}.
Arguments ModificationBlocked {A}.
Arguments NoBody {A}.

Record response (A : Type) := mkResponse {
  status : Z;
  (** The header Idempotent-Replayed is set. *)
  replayed : bool;
  content : body A;
}.
Arguments mkResponse {A}.
Arguments status {A}.
Arguments replayed {A}.
Arguments content {A}.

Definition writeJSON {A} (statusCode : Z) (v : A) : response A := mkResponse statusCode false (Value v).

Definition writeError {A} (statusCode : Z) (message : string) : response A :=
  mkResponse statusCode false (Texts [("error", message)]).

Definition writeServiceError {A} (err : error) : response A :=
  if errors_Is err ErrNotFound then writeError StatusNotFound "resource not found"
  else if errors_Is err ErrValidation then writeError StatusBadRequest (TrimSpace (Error err))
  else if errors_Is err ErrInvalidTransition || errors_Is err ErrActivationBlocked
  then writeError StatusConflict (TrimSpace (Error err))
  else if errors_Is err ErrMissionDeploymentUnavailable
  then writeError StatusServiceUnavailable "secure Relay mission control is not configured"
  else if errors_Is err ErrAlreadyExists || errors_Is err ErrVersionConflict
  then writeError StatusConflict (TrimSpace (Error err))
  else if errors_Is err ErrIdempotencyConflict then writeError StatusConflict (TrimSpace (Error err))
  else mkResponse StatusInternalServerError false (Texts [("error", "request failed"); ("details", TrimSpace (Error err))]).

(** The end of a handler: the value with the status of a success, or the error. *)
Definition answer_with {A} (success : Z) (result : outcome A) : response A :=
  match result with Ok v => writeJSON success v | Err err => writeServiceError err end.

(** ** Errors with an answer of their own: [errors.As] *)

Fixpoint errors_As_MissionValidation (e : error) : option (list MissionValidationFinding) :=
  match e with
  | MissionValidationError findings => Some findings
  | Errorf _ wrapped => head (omap errors_As_MissionValidation wrapped)
  | _ => None
  end.

Fixpoint errors_As_ActiveIntent (e : error) : option (string * string * Z) :=
  match e with
  | ActiveIntentModificationError intentID status version => Some (intentID, status, version)
  | Errorf _ wrapped => head (omap errors_As_ActiveIntent wrapped)
  | _ => None
  end.

(** ** Limits and digests *)

Definition parseLimit (raw : string) : outcome Z :=
  if raw =s= "" then Ok 500
  else
    match Atoi raw with
    | None => Err (plain "limit must be a non-negative integer")
    | Some limit =>
        if limit <? 0 then Err (plain "limit must be a non-negative integer")
        else if 5000 <? limit then Err (plain "limit must be <= 5000")
        else Ok limit
    end.

Definition is_quote (c : Ascii.ascii) : bool := (byte_of c =? 34)%N.

(** A digit or a letter from a to f. *)
Definition lower_hex (c : Ascii.ascii) : bool :=
  ((48 <=? byte_of c) && (byte_of c <=? 57) || (97 <=? byte_of c) && (byte_of c <=? 102))%N.

Definition invalid_digest : error := plain "If-Match must contain one quoted lowercase SHA-256 mission digest".

Definition parseMissionIfMatch (value : string) : outcome string :=
  let value := String.list_ascii_of_string (TrimSpace value) in
  match value, last value with
  | first :: rest, Some final =>
      let digest := removelast rest in
      if negb (length value =? 66)%nat || negb (is_quote first) || negb (is_quote final) then Err invalid_digest
      else if forallb lower_hex digest then Ok (String.string_of_list_ascii digest) else Err invalid_digest
  | _, _ => Err invalid_digest
  end.

(** ** Mission control *)

(** The fields of the server that its handlers read; the hash is that of the
    token it was configured with. *)
Record ServerConfig := mkServerConfig {
  missionDeploymentTokenHash : list Z;
  missionDeploymentControlConfigured : bool;
  missionDeploymentTimeout : Duration;
}.

(** A server as it is made, without mission control. *)
Definition new_server : ServerConfig := mkServerConfig (repeat 0 32) false (110 * Second).

Definition WithMissionDeploymentControl (timeout : Duration) (token : string) (s : ServerConfig) : ServerConfig :=
  mkServerConfig (Sha256.Sum256 token) (token <>s "") (if 0 <? timeout then timeout else missionDeploymentTimeout s).

Definition missionDeploymentControlEnabled (s : ServerConfig) : bool := missionDeploymentControlConfigured s.

Definition authorizeMissionDeployment (s : ServerConfig) (r : http_request) : bool :=
  if negb (missionDeploymentControlEnabled s) then false
  else
    match cut_prefix (Header r "Authorization") "Bearer " with
    | None => false
    | Some token => bool_decide (missionDeploymentTokenHash s = Sha256.Sum256 (TrimSpace token))
    end.

(** * The handlers of the HTTP API

    src/internal/httpapi/handlers.go and conformance_history.go: each handler
    reads its request, calls one operation of a service, or a few, and answers.
    The deadline of a request, like every cancellation, is not part of the
    model, nor are the lines of the debug log. *)

(** The call of a service whose result is the answer. *)
Definition serve {E A} (success : Z) (p : prog E (outcome A)) : prog E (response A) :=
  let! result := p in Ret (answer_with success result).

Definition handleHealthz : response unit := mkResponse StatusOK false (Texts [("status", "ok")]).
Definition handleReadyz : response unit := mkResponse StatusOK false (Texts [("status", "ready")]).

(** ** Views *)

Section views.
Context {RT : Runtime} {PL : ProtoLibrary} {SCH : Scheduler}.
Context (registryFreshness telemetryFreshness : Duration) (registry : bool).
Abbreviation program := (prog (apiE fleetE)).

Definition handleGetOverviewDashboard : program (response OverviewDashboard) :=
  serve StatusOK (GetOverviewDashboard registryFreshness telemetryFreshness).
Definition handleGetOperationsDashboard : program (response OperationsDashboard) :=
  serve StatusOK (GetOperationsDashboard registryFreshness telemetryFreshness registry).
Definition handleGetPreflightDashboard : program (response PreflightDashboard) :=
  serve StatusOK GetPreflightDashboard.
Definition handleGetConformanceDashboard : program (response ConformanceDashboard) :=
  serve StatusOK (GetConformanceDashboard registry).
Definition handleGetMaintenanceDashboard : program (response MaintenanceDashboard) :=
  serve StatusOK GetMaintenanceDashboard.
Definition handleGetRecordsDashboard : program (response RecordsDashboard) :=
  serve StatusOK GetRecordsDashboard.
Definition handleListAircraft : program (response (list AircraftDashboard)) :=
  serve StatusOK (ListAircraftDashboards registryFreshness telemetryFreshness).
Definition handleGetAircraft (r : http_request) : program (response AircraftDashboard) :=
  serve StatusOK (GetAircraftDashboard registryFreshness telemetryFreshness (Param r "aircraft_id")).
Definition handleGetAircraftLiveState (r : http_request) : program (response AircraftLiveState) :=
  serve StatusOK (GetAircraftLiveState registryFreshness telemetryFreshness (Param r "aircraft_id")).

Definition handleGetAircraftMap (r : http_request) : program (response AircraftMapView) :=
  match parseLimit (QueryParam r "limit") with
  | Err err => Ret (writeError StatusBadRequest (Error err))
  | Ok limit =>
      serve StatusOK (GetAircraftMapView registryFreshness telemetryFreshness (Param r "aircraft_id") limit)
  end.

Definition handleListAircraftFlights (r : http_request) : program (response (list FlightRecord)) :=
  serve StatusOK (ListFlightRecords (Param r "aircraft_id")).
Definition handleGetFlight (r : http_request) : program (response FlightRecord) :=
  serve StatusOK (GetFlightRecord (Param r "flight_id")).

Definition handleGetFlightReplay (r : http_request) : program (response ReplayResponse) :=
  match parseLimit (QueryParam r "limit") with
  | Err err => Ret (writeError StatusBadRequest (Error err))
  | Ok limit => serve StatusOK (GetFlightReplay (Param r "flight_id") limit)
  end.
End views.

(** ** Telemetry and conformance *)

Section telemetry.
Context {RT : Runtime} (writer : bool).
Abbreviation program := (prog (apiE fleetE)).

Definition handleTelemetry (request : request_body TelemetrySample) : program (response ConformanceEvaluation) :=
  match decodeJSON request with
  | Err err => Ret (writeError StatusBadRequest (Error err))
  | Ok sample =>
      if TrimSpace (Sample_AircraftID sample) =s= "" then Ret (writeError StatusBadRequest "aircraft_id is required")
      else serve StatusOK (EvaluateTelemetry writer sample)
  end.

Definition handleGetOperationalIntentConformance (r : http_request) : program (response ConformanceEvaluation) :=
  serve StatusOK (GetIntentConformance (Param r "intent_id")).
End telemetry.

(** ** Commands *)

Section commands.
Context {externalE : Type → Type}.
Abbreviation program := (prog (apiE externalE)).

(** The time of creation is the clock's when there is none. *)
Definition created_at (given now : Time) : Time := if IsZero given then now else given.

Definition handleCreateAircraft (request : request_body Aircraft) : program (response Aircraft) :=
  match decodeJSON request with
  | Err err => Ret (writeError StatusBadRequest (Error err))
  | Ok aircraft =>
      if TrimSpace (Aircraft_ID aircraft) =s= "" then Ret (writeError StatusBadRequest "id is required")
      else
        let! t := now in
        let aircraft := aircraft <| Aircraft_CreatedAt := created_at (Aircraft_CreatedAt aircraft) (UTC t) |>
                          <| Aircraft_UpdatedAt := UTC t |> in
        let! created := CreateAircraft aircraft in
        Ret (match created with Err err => writeServiceError err | Ok _ => writeJSON StatusCreated aircraft end)
  end.

Definition handleCreateBattery (request : request_body Battery) : program (response Battery) :=
  match decodeJSON request with
  | Err err => Ret (writeError StatusBadRequest (Error err))
  | Ok battery =>
      if TrimSpace (Battery_ID battery) =s= "" then Ret (writeError StatusBadRequest "id is required")
      else
        let! t := now in
        let battery := battery <| Battery_CreatedAt := created_at (Battery_CreatedAt battery) (UTC t) |>
                         <| Battery_UpdatedAt := UTC t |> in
        let! created := CreateBattery battery in
        Ret (match created with Err err => writeServiceError err | Ok _ => writeJSON StatusCreated battery end)
  end.

(** The call with the decoded body. *)
Definition serve_body {A B} (request : request_body A) (success : Z) (p : A → program (outcome B)) : program (response B) :=
  match decodeJSON request with
  | Err err => Ret (writeError StatusBadRequest (Error err))
  | Ok value => serve success (p value)
  end.

Definition handleInstallBattery (r : http_request) (request : request_body InstallBatteryRequest)
    : program (response BatteryInstallation) :=
  serve_body request StatusCreated (InstallBattery (Param r "aircraft_id")).
Definition handleCreatePlannedFlight (r : http_request) (request : request_body CreateFlightRequest)
    : program (response FlightRecord) :=
  serve_body request StatusCreated (CreatePlannedFlight (Param r "intent_id")).
Definition handleStartFlight (r : http_request) : program (response FlightRecord) :=
  serve StatusOK (StartFlight (Param r "flight_id")).

Definition record_maintenance (event : MaintenanceEvent) : program (response MaintenanceEvent) :=
  let! recorded := RecordMaintenanceEvent event in
  Ret (match recorded with Err err => writeServiceError err | Ok _ => writeJSON StatusCreated event end).

Definition handleCreateMaintenanceEvent (request : request_body MaintenanceEvent) : program (response MaintenanceEvent) :=
  match decodeJSON request with
  | Err err => Ret (writeError StatusBadRequest (Error err))
  | Ok event =>
      if TrimSpace (Maintenance_ID event) =s= "" then Ret (writeError StatusBadRequest "id is required")
      else if TrimSpace (Maintenance_AircraftID event) =s= ""
      then Ret (writeError StatusBadRequest "aircraft_id is required")
      else if IsZero (Maintenance_OpenedAt event) then
        let! t := now in record_maintenance (event <| Maintenance_OpenedAt := UTC t |>)
      else record_maintenance event
  end.
End commands.

(** ** Missions *)

Section missions.
Context {AL : AgentLibrary} {externalE : Type → Type}.
Context (s : ServerConfig) (missionDeployer : option (MissionDeployer externalE)).
Abbreviation program := (prog (apiE externalE)).

(** What guards mission control: it is configured, and the request has its token. *)
Definition guarded {A} (r : http_request) (unavailable unauthorized : string) (p : program A)
    (refuse : Z → string → A) : program A :=
  if negb (missionDeploymentControlEnabled s) then Ret (refuse StatusServiceUnavailable unavailable)
  else if negb (authorizeMissionDeployment s r) then Ret (refuse StatusUnauthorized unauthorized)
  else p.

Definition relay_control_missing : string := "secure Relay mission control is not configured".
Definition deployment_unauthorized : string := "valid mission deployment authorization is required".

Definition import_answer (result : outcome ImportMissionResult) : response ImportMissionResult :=
  match result with
  | Err err =>
      match errors_As_MissionValidation err with
      | Some findings => mkResponse StatusBadRequest false (InvalidMission (TrimSpace (Error err)) findings)
      | None => writeServiceError err
      end
  | Ok result =>
      if ImportResult_Replayed result then mkResponse StatusOK true (Value result) else writeJSON StatusCreated result
  end.

Definition handleImportMission (r : http_request) (request : request_body ImportMissionRequest)
    : program (response ImportMissionResult) :=
  guarded r "secure mission control is not configured" "valid mission control authorization is required"
    (match decodeJSON request with
     | Err err => Ret (writeError StatusBadRequest ("invalid mission import body: " +:+ Error err))
     | Ok req =>
         let! result := ImportMission (Param r "flight_id") (Header r "Idempotency-Key") req in
         Ret (import_answer result)
     end) writeError.

Definition handleGetCurrentMission (r : http_request) : program (response Mission) :=
  serve StatusOK (GetCurrentMission (Param r "flight_id")).

Definition missionDeploymentPending (status : MissionDeploymentStatus) : bool :=
  (status =s= MissionDeploymentPending) || (status =s= MissionDeploymentTemporaryError)
  || (status =s= MissionDeploymentOutcomeUnknown).

(** The answer to a deployment; one that is not settled is accepted only. *)
Definition deploy_answer (result : outcome DeployMissionResult) : response DeployMissionResult :=
  match result with
  | Err err => writeServiceError err
  | Ok result =>
      mkResponse (if missionDeploymentPending (Deployment_Status (DeployResult_Deployment result))
                  then StatusAccepted else StatusOK) (DeployResult_Replayed result) (Value result)
  end.

(** [fuel] is that of the service. *)
Definition handleDeployCurrentMission (fuel : nat) (r : http_request)
    : program (option (response DeployMissionResult)) :=
  guarded r relay_control_missing deployment_unauthorized
    (if not_empty (Probe r)
     then Ret (Some (writeError StatusBadRequest "mission deployment request must have an empty body"))
     else
       match parseMissionIfMatch (Header r "If-Match") with
       | Err err => Ret (Some (writeError StatusBadRequest (Error err)))
       | Ok expectedDigest =>
           let! result := DeployCurrentMission missionDeployer fuel (Param r "flight_id") (Param r "mission_id")
                            expectedDigest (Header r "Idempotency-Key") in
           Ret (deploy_answer <$> result)
       end) (λ code text, Some (writeError code text)).

Definition handleGetMissionDeployment (r : http_request) : program (response MissionDeployment) :=
  guarded r relay_control_missing deployment_unauthorized
    (serve StatusOK (GetMissionDeployment (Param r "flight_id") (Param r "deployment_id"))) writeError.

Definition handleGetCurrentMissionDeployment (r : http_request) : program (response MissionDeployment) :=
  guarded r relay_control_missing deployment_unauthorized
    (serve StatusOK (GetCurrentMissionDeployment (Param r "flight_id"))) writeError.

(** The answer to a reconciliation is always a replay. *)
Definition reconcile_answer (result : outcome DeployMissionResult) : response DeployMissionResult :=
  match result with
  | Err err => writeServiceError err
  | Ok result =>
      mkResponse (if missionDeploymentPending (Deployment_Status (DeployResult_Deployment result))
                  then StatusAccepted else StatusOK) true (Value result)
  end.

Definition handleReconcileMissionDeployment (fuel : nat) (r : http_request)
    : program (option (response DeployMissionResult)) :=
  guarded r relay_control_missing deployment_unauthorized
    (if not_empty (Probe r)
     then Ret (Some (writeError StatusBadRequest "mission deployment reconciliation request must have an empty body"))
     else
       let! result := ReconcileMissionDeployment missionDeployer fuel (Param r "flight_id") (Param r "deployment_id") in
       Ret (reconcile_answer <$> result)) (λ code text, Some (writeError code text)).
End missions.

(** ** Intents *)

Section intents.
Context {externalE : Type → Type}.
Context (uuid_Parse : string → option (Z * string)).
Context (coordinator : option (DeconflictionCoordinator (externalE := externalE))).
Abbreviation program := (prog (apiE externalE)).

Definition handleCreateOperationalIntent (request : request_body CreateIntentRequest)
    : program (response OperationalIntent) :=
  serve_body request StatusCreated (CreateIntent uuid_Parse coordinator).

Definition handleAddOperationalVolume (r : http_request) (request : request_body AddOperationalVolumeRequest)
    : program (response OperationalVolume) :=
  serve_body request StatusCreated (AddOperationalVolume (Param r "intent_id")).

Definition modify_answer (result : outcome ModifyIntentResult) : response ModifyIntentResult :=
  match result with
  | Err err =>
      match errors_As_ActiveIntent err with
      | Some (intentID, status, version) =>
          mkResponse StatusConflict false
            (ModificationBlocked ("Intent " +:+ intentID +:+ " is active. End or supersede the active plan before modifying it.")
               intentID status version)
      | None => writeServiceError err
      end
  | Ok result => writeJSON StatusOK result
  end.

Definition handleModifyOperationalIntent (r : http_request) (request : request_body ModifyIntentRequest)
    : program (response ModifyIntentResult) :=
  match decodeJSON request with
  | Err err => Ret (writeError StatusBadRequest (Error err))
  | Ok req => let! result := ModifyIntent (Param r "intent_id") req in Ret (modify_answer result)
  end.

Definition handleSubmitOperationalIntent (r : http_request) : program (response OperationalIntent) :=
  serve StatusOK (SubmitIntent (Param r "intent_id")).

Definition handleEvaluateOperationalIntentPreflight (r : http_request) : program (response PreflightEvaluation) :=
  serve StatusOK (EvaluateIntent (Param r "intent_id")).

Definition handleAcceptOperationalIntent (r : http_request) : program (response OperationalIntent) :=
  serve StatusOK (AcceptIntent uuid_Parse coordinator (Param r "intent_id")).

(** An accepted intent is activated after a preflight evaluation that does not
    block it. *)
Definition handleActivateOperationalIntent (r : http_request) : program (response OperationalIntent) :=
  let! read := GetIntent (Param r "intent_id") in
  match read with
  | Err err => Ret (writeServiceError err)
  | Ok intent =>
      if Intent_Status intent <>s IntentStatusAccepted
      then Ret (writeServiceError (invalid_transition (Intent_Status intent) IntentStatusActive))
      else
        let! evaluated := EvaluateIntent (Param r "intent_id") in
        match evaluated with
        | Err err => Ret (writeServiceError err)
        | Ok evaluation =>
            if Evaluation_Blocked evaluation
            then Ret (writeServiceError (because ErrActivationBlocked "preflight evaluation blocked"))
            else serve StatusOK (ActivateIntent uuid_Parse coordinator (Param r "intent_id"))
        end
  end.

Definition handleCompleteOperationalIntent (r : http_request) : program (response OperationalIntent) :=
  serve StatusOK (CompleteIntent uuid_Parse coordinator (Param r "intent_id")).
Definition handleCancelOperationalIntent (r : http_request) : program (response OperationalIntent) :=
  serve StatusOK (CancelIntent uuid_Parse coordinator (Param r "intent_id")).
End intents.

(** ** Deconfliction *)

Section deconfliction.
Context {RT : Runtime} {LIB : Geometry.Library} {externalE : Type → Type}.
Context (service : DeconflictionService externalE).
Abbreviation program := (prog (apiE externalE)).

Definition handleCheckOperationalIntentDeconfliction (r : http_request) : program (response DeconflictionResult) :=
  serve StatusOK (Deconfliction.CheckIntent service (Param r "intent_id")).

Definition handleListOperationalIntentConflicts (r : http_request) : program (response (list ConflictFinding)) :=
  serve StatusOK (Deconfliction.ListConflictFindings (Param r "intent_id")).

Definition handleGetOperationalIntentCoordination (r : http_request) : program (response OperationalIntentPublication) :=
  serve StatusOK (Publishing.GetPublication (Param r "intent_id")).
End deconfliction.

(** ** Conformance history *)

Section history.
Context {PL : ProtoLibrary}.
(** [time.Parse(time.RFC3339Nano, raw)] *)
Context (time_Parse : string → option Time).

(** The time as a valid time stamp. *)
Definition parse_stamp (raw : string) : option Timestamp :=
  match time_Parse raw with
  | Some v => let stamp := timestamppb_New v in if Timestamp_CheckValid stamp then Some stamp else None
  | None => None
  end.

(** [strconv.ParseUint(raw, 10, 64)] that fits in 63 bits. *)
Definition parse_generation (raw : string) : option Z :=
  match mapM digit (String.list_ascii_of_string raw) with
  | None | Some [] => None
  | Some ds => let n := foldl (λ acc d, acc * 10 + d) 0 ds in if n <=? 2 ^ 63 - 1 then Some n else None
  end.

(** A parameter that may be missing. *)
Definition optional_query {A} (raw : string) (missing : A) (parse : string → option A) : option A :=
  if raw =s= "" then Some missing else parse raw.

Definition parse_page_size (raw : string) : option Z :=
  match Atoi raw with Some v => if (v <? 1) || (200 <? v) then None else Some v | None => None end.

Definition ordered_bounds (from until : option Timestamp) : bool :=
  match from, until with Some from, Some until => Before (Timestamp_AsTime from) (Timestamp_AsTime until) | _, _ => true end.

Definition history_query (r : http_request) : option HistoryRequest :=
  if (4096 <? String.length (QueryParam r "page_token"))%nat then None
  else
    match optional_query (QueryParam r "page_size") 0 parse_page_size,
          optional_query (QueryParam r "generation") 0 parse_generation,
          optional_query (QueryParam r "from") None (λ raw, Some <$> parse_stamp raw),
          optional_query (QueryParam r "until") None (λ raw, Some <$> parse_stamp raw) with
    | Some size, Some generation, Some from, Some until =>
        if ordered_bounds from until
        then Some (mkHistoryRequest "" generation from until size (QueryParam r "page_token")) else None
    | _, _, _, _ => None
    end.

Definition history_answer (result : outcome ConformanceHistoryPage) : response ConformanceHistoryPage :=
  match result with
  | Err err =>
      if errors_Is err ErrConformanceHistoryUnavailable then writeError StatusServiceUnavailable (Error err)
      else writeServiceError err
  | Ok page => writeJSON StatusOK page
  end.

Definition handleGetConformanceHistory (conformanceHistory : bool) (r : http_request)
    : prog (apiE fleetE) (response ConformanceHistoryPage) :=
  match history_query r with
  | None => Ret (writeError StatusBadRequest "invalid conformance history query")
  | Some request =>
      let! result := GetConformanceHistory conformanceHistory (Param r "intent_id") request in
      Ret (history_answer result)
  end.
End history.
