(* ===== verification/HttpUss.v ===== *)
(** * The endpoints for peers

    src/internal/httpapi/uss.go and uss_auth.go: the authorization of other
    systems by a signed token, the details of published intents that they may
    read, and the notifications they send; src/internal/httpapi/server.go: the
    routes.  The verification of a token's signature and of its standard claims
    is the library's; reading the public key of the issuer is in Process.v. *)

From S2P Require Import Prelude GoRuntime GoStrings GoStrconv GoSha256 GoNet GoRange Domain Errors Program DurableStore ScdMessages Deconfliction Publishing InterUSS InterUSSPublisher HttpHandlers.
From stdpp Require Import options.

(** ** [strings.Fields] *)

Definition flush (current : list Ascii.ascii) : list string :=
  match current with [] => [] | _ => [String.string_of_list_ascii (rev current)] end.

(** The fields, the first one of which starts with [current] (last byte first). *)
Fixpoint fields_from (current s : list Ascii.ascii) : list string :=
  match s with
  | [] => flush current
  | a :: l1 =>
      if is_ascii_space (byte_of a) then flush current ++ fields_from [] l1
      else
        match l1 with
        | [] => fields_from (a :: current) l1
        | b :: l2 =>
            if is_space2 (byte_of a) (byte_of b) then flush current ++ fields_from [] l2
            else
              match l2 with
              | [] => fields_from (a :: current) l1
              | c :: l3 =>
                  if is_space3 (byte_of a) (byte_of b) (byte_of c) then flush current ++ fields_from [] l3
                  else fields_from (a :: current) l1
              end
        end
  end.

Definition Fields (s : string) : list string := fields_from [] (String.list_ascii_of_string s).

Example Fields_ex : Fields "  a bc  d " = ["a"; "bc"; "d"].
Proof. vm_compute. reflexivity. Qed.

(** ** Authorization *)

Definition ussStrategicCoordinationScope : string := "utm.strategic_coordination".

Inductive uss_denial : Set := errUSSUnauthorized | errUSSForbidden.

Definition containsScope (raw required : string) : bool := existsb (λ scope, scope =s= required) (Fields raw).

(** [jwt.ParseWithClaims] with the methods RS256, RS384 and RS512, a required
    expiration, and the issuer and the audience that are not empty: the scope
    and the subject of a token that is valid for the key. *)
Class JwtLibrary := {
  public_key : Set;
  ParseWithClaims : public_key → string → string → string → option (string * string);
}.

Section authorization.
Context {JWT : JwtLibrary}.

Record USSJWTAuthorizer : Set := mkUSSJWTAuthorizer {
  authorizer_publicKey : public_key;
  authorizer_issuer : string;
  authorizer_audience : string;
}.

Definition Authorize (a : USSJWTAuthorizer) (r : http_request) (requiredScope : string) : string + uss_denial :=
  match cut_prefix (TrimSpace (Header r "Authorization")) "Bearer " with
  | None => inr errUSSUnauthorized
  | Some token =>
      let token := TrimSpace token in
      if token =s= "" then inr errUSSUnauthorized
      else
        match ParseWithClaims (authorizer_publicKey a) (authorizer_issuer a) (authorizer_audience a) token with
        | None => inr errUSSUnauthorized
        | Some (scope, subject) =>
            if TrimSpace subject =s= "" then inr errUSSUnauthorized
            else if (requiredScope <>s "") && negb (containsScope scope requiredScope) then inr errUSSForbidden
            else inl subject
        end
  end.

(** The subject of the request, or the status and the message of its refusal. *)
Definition authorizeUSS (authorizer : option USSJWTAuthorizer) (r : http_request) : string + Z * string :=
  match authorizer with
  | None => inr (StatusServiceUnavailable, "USS authentication is not configured")
  | Some authorizer =>
      match Authorize authorizer r ussStrategicCoordinationScope with
      | inl subject => inl subject
      | inr errUSSForbidden => inr (StatusForbidden, "USS token does not grant strategic coordination")
      | inr errUSSUnauthorized => inr (StatusUnauthorized, "invalid USS bearer token")
      end
  end.
End authorization.

(** ** Published intents *)

Section uss.
Context {JWT : JwtLibrary} {LIB : Geometry.Library} {U : Unions} {SL : ScdLibrary} {externalE : Type → Type}.
Context (authorizer : option USSJWTAuthorizer).
Abbreviation program := (prog (apiE externalE)).

(** The version asked for; 0 for any. *)
Definition requested_version (raw : string) : option Z :=
  if raw =s= "" then Some 0
  else match Atoi raw with Some parsed => if parsed <=? 0 then None else Some parsed | None => None end.

Definition published_answer (found : outcome (OperationalIntentPublication * list OperationalVolume)) : response ScdIntent :=
  match found with
  | Err err =>
      if errors_Is err ErrNotFound then writeError StatusNotFound "operational intent is not published"
      else writeServiceError err
  | Ok (publication, volumes) =>
      answer_with StatusOK (PublishedOperationalIntent (Publication_ReferenceJSON publication) volumes)
  end.

Definition handleGetUSSOperationalIntent (r : http_request) : program (response ScdIntent) :=
  match authorizeUSS authorizer r with
  | inr (code, text) => Ret (writeError code text)
  | inl _ =>
      let entityID := TrimSpace (Param r "entity_id") in
      match SCDEntityID entityID with
      | Err _ => Ret (writeError StatusBadRequest "entity_id must be a UUIDv4")
      | Ok _ =>
          match requested_version (QueryParam r "version") with
          | None => Ret (writeError StatusBadRequest "version must be a positive integer")
          | Some version =>
              let! found := GetPublishedOperationalIntent entityID version in
              Ret (published_answer found)
          end
      end
  end.

(** ** Notifications of peers *)

(** The identifier of the intent. *)
Definition notified_id (notification : DetailsParameters) : option string :=
  match As (DetailsP_OperationalIntentId notification) with
  | Err _ => None
  | Ok entityID => match As entityID with Err _ => None | Ok id => Some id end
  end.

(** What the details say of the intent, or the status and the message of a
    refusal: they have to be those of the intent, and of the subject. *)
Definition notified_reference (subject intentID : string) (encoded : union ScdIntent) : Z * string + Z * string :=
  match As encoded with
  | Err _ => inr (StatusBadRequest, "invalid operational intent notification")
  | Ok intent =>
      let reference := ScdIntent_Reference intent in
      if Reference_Manager reference <>s subject
      then inr (StatusForbidden, "token subject does not match operational intent manager")
      else
        match As (Reference_Id reference) with
        | Err _ => inr (StatusBadRequest, "operational intent reference ID does not match operational_intent_id")
        | Ok nestedID =>
            if nestedID <>s intentID
            then inr (StatusBadRequest, "operational intent reference ID does not match operational_intent_id")
            else
              match Reference_Ovn reference with
              | None => inr (StatusBadRequest, "operational intent notification must include an OVN")
              | Some ovn =>
                  match As ovn with
                  | Err _ => inr (StatusBadRequest, "operational intent notification must include an OVN")
                  | Ok ovn =>
                      if TrimSpace ovn =s= ""
                      then inr (StatusBadRequest, "operational intent notification must include an OVN")
                      else inl (Reference_Version reference, ovn)
                  end
              end
        end
  end.

(** The notification without details says that the intent is deleted. *)
Definition received_of (subject intentID : string) (details : option (union ScdIntent))
    : ReceivedPeerNotification + Z * string :=
  let received := mkReceivedPeerNotification "" intentID subject 0 "" true [] zero_Time in
  match details with
  | None => inl received
  | Some encoded =>
      match notified_reference subject intentID encoded with
      | inr refusal => inr refusal
      | inl (version, ovn) =>
          inl (received <| Received_IntentVersion := version |> <| Received_OVN := ovn |> <| Received_Deleted := false |>)
      end
  end.

(** The identifier of what was received: a digest of the sender and the payload. *)
Definition received_digest (subject : string) (payload : list Byte.byte) : string :=
  sha256_hex (subject +:+ String nul (String.string_of_list_byte payload)).

(** The record of a notification that was accepted. *)
Definition record_received (subject : string) (notification : DetailsParameters) (received : ReceivedPeerNotification)
    : program (response unit) :=
  match marshal_notification notification with
  | Err err => Ret (writeServiceError err)
  | Ok payload =>
      let! t := now in
      let received := received <| Received_ID := received_digest subject payload |>
                        <| Received_Payload := payload |> <| Received_ReceivedAt := UTC t |> in
      let! recorded := RecordReceivedPeerNotification received in
      Ret (match recorded with
           | Err err => writeServiceError err
           | Ok _ => mkResponse StatusNoContent false NoBody
           end)
  end.

Definition handleNotifyUSSOperationalIntentChanged (r : http_request) (request : request_body DetailsParameters)
    : program (response unit) :=
  match authorizeUSS authorizer r with
  | inr (code, text) => Ret (writeError code text)
  | inl subject =>
      match decodeJSON request with
      | Err err => Ret (writeError StatusBadRequest (Error err))
      | Ok notification =>
          match notified_id notification with
          | None => Ret (writeError StatusBadRequest "operational_intent_id must be a UUIDv4")
          | Some intentID =>
              match received_of subject intentID (DetailsP_OperationalIntent notification) with
              | inr (code, text) => Ret (writeError code text)
              | inl received => record_received subject notification received
              end
          end
      end
  end.
End uss.

(** ** Routes *)

(** The handlers by name. *)
Inductive endpoint : Set :=
  | Healthz | Readyz | GetUSSOperationalIntent | NotifyUSSOperationalIntentChanged
  | GetOverview | GetOperations | GetPreflight | GetConformance | GetConformanceEvents | GetMaintenance | GetRecords
  | ListAircraft | CreateAircraft | GetAircraft | GetAircraftState | GetAircraftMap | ListAircraftFlights | InstallBattery
  | GetFlight | StartFlight | ImportMission | GetCurrentMission | DeployCurrentMission | GetCurrentMissionDeployment
  | GetMissionDeployment | ReconcileMissionDeployment | GetFlightReplay
  | CreateOperationalIntent | ModifyOperationalIntent | AddOperationalVolume | SubmitOperationalIntent
  | EvaluatePreflight | CheckDeconfliction | ListConflicts | GetCoordination | AcceptOperationalIntent
  | ActivateOperationalIntent | CreatePlannedFlight | CompleteOperationalIntent | CancelOperationalIntent
  | GetIntentConformance | Telemetry | CreateBattery | CreateMaintenanceEvent.

#[global] Instance endpoint_eq_dec : EqDecision endpoint.
Proof. solve_decision. Defined.

(** Which services the server has. *)
Record server_parts := mkServerParts {
  has_intents : bool;
  has_preflight : bool;
  has_conformance : bool;
  has_deconfliction : bool;
  publishing_enabled : bool;
}.

Definition workflowsAvailable (s : server_parts) : bool := has_intents s && has_preflight s && has_conformance s.

Definition GET := "GET".
Definition POST := "POST".
Definition api (route : string) : string := "/api/v1" +:+ route.

Definition uss_routes : list (string * string * endpoint) :=
  [(GET, "/uss/v1/operational_intents/{entity_id}", GetUSSOperationalIntent);
   (POST, "/uss/v1/operational_intents", NotifyUSSOperationalIntentChanged)].

Definition view_routes : list (string * string * endpoint) :=
  [(GET, api "/overview", GetOverview);
   (GET, api "/operations", GetOperations);
   (GET, api "/preflight", GetPreflight);
   (GET, api "/conformance", GetConformance);
   (GET, api "/operational-intents/{intent_id}/conformance/events", GetConformanceEvents);
   (GET, api "/maintenance", GetMaintenance);
   (GET, api "/records", GetRecords);
   (GET, api "/aircraft", ListAircraft);
   (POST, api "/aircraft", CreateAircraft);
   (GET, api "/aircraft/{aircraft_id}", GetAircraft);
   (GET, api "/aircraft/{aircraft_id}/state", GetAircraftState);
   (GET, api "/aircraft/{aircraft_id}/map", GetAircraftMap);
   (GET, api "/aircraft/{aircraft_id}/flights", ListAircraftFlights);
   (POST, api "/aircraft/{aircraft_id}/battery-installations", InstallBattery);
   (GET, api "/flights/{flight_id}", GetFlight);
   (POST, api "/flights/{flight_id}/start", StartFlight);
   (POST, api "/flights/{flight_id}/missions/import", ImportMission);
   (GET, api "/flights/{flight_id}/missions/current", GetCurrentMission);
   (POST, api "/flights/{flight_id}/missions/{mission_id}/deploy", DeployCurrentMission);
   (GET, api "/flights/{flight_id}/mission-deployments/current", GetCurrentMissionDeployment);
   (GET, api "/flights/{flight_id}/mission-deployments/{deployment_id}", GetMissionDeployment);
   (POST, api "/flights/{flight_id}/mission-deployments/{deployment_id}/reconcile", ReconcileMissionDeployment);
   (GET, api "/flights/{flight_id}/replay", GetFlightReplay)].

Definition deconfliction_routes : list (string * string * endpoint) :=
  [(POST, api "/operational-intents/{intent_id}/deconfliction/check", CheckDeconfliction);
   (GET, api "/operational-intents/{intent_id}/conflicts", ListConflicts);
   (GET, api "/operational-intents/{intent_id}/coordination", GetCoordination)].

Definition workflow_routes (s : server_parts) : list (string * string * endpoint) :=
  [(POST, api "/operational-intents", CreateOperationalIntent);
   (POST, api "/operational-intents/{intent_id}/modify", ModifyOperationalIntent);
   (POST, api "/operational-intents/{intent_id}/volumes", AddOperationalVolume);
   (POST, api "/operational-intents/{intent_id}/submit", SubmitOperationalIntent);
   (POST, api "/operational-intents/{intent_id}/preflight/evaluate", EvaluatePreflight)]
  ++ (if has_deconfliction s then deconfliction_routes else [])
  ++ [(POST, api "/operational-intents/{intent_id}/accept", AcceptOperationalIntent);
      (POST, api "/operational-intents/{intent_id}/activate", ActivateOperationalIntent);
      (POST, api "/operational-intents/{intent_id}/flights", CreatePlannedFlight);
      (POST, api "/operational-intents/{intent_id}/complete", CompleteOperationalIntent);
      (POST, api "/operational-intents/{intent_id}/cancel", CancelOperationalIntent);
      (GET, api "/operational-intents/{intent_id}/conformance", GetIntentConformance);
      (POST, api "/telemetry", Telemetry)].

Definition routes (s : server_parts) : list (string * string * endpoint) :=
  [(GET, "/healthz", Healthz); (GET, "/readyz", Readyz)]
  ++ (if has_deconfliction s && publishing_enabled s then uss_routes else [])
  ++ view_routes
  ++ (if workflowsAvailable s then workflow_routes s else [])
  ++ [(POST, api "/batteries", CreateBattery); (POST, api "/maintenance-events", CreateMaintenanceEvent)].
