(* ===== verification/Config.v ===== *)
(** * Configuration

    src/internal/config/config.go: the defaults, the environment, and the rules
    that every configuration has to satisfy; and the parts of
    src/cmd/aero-arc-api/main.go that turn a configuration into providers and
    limits; its run is in Process.v.  The environment and the values of the command's flags are given;
    reading URLs is the library's. *)

From S2P Require Import Prelude GoRuntime GoStrings GoStrconv GoRange Domain Errors GoTime Program DurableStore Influx Airspace ScdMessages Geometry Deconfliction InterUSS InterUSSPublisher.
From stdpp Require Import options.

Definition DurableStoreMemory : string := "memory".
Definition DurableStorePostgres : string := "postgres".

Definition defaultAddr : string := ":8080".
Definition defaultDurableStore : string := DurableStoreMemory.
Definition defaultTelemetryStore : string := "memory".
Definition defaultReplayStore : string := "memory".
Definition defaultRegistryMode : string := "memory".
Definition defaultRegistryAddress : string := "localhost:50051".
Definition defaultRegistryDialTimeout : Duration := 5 * Second.
Definition defaultRegistryFreshness : Duration := 30 * Second.
Definition defaultRelayControlTimeout : Duration := 35 * Second.
Definition defaultRelayPlacementTTL : Duration := 10 * Second.
Definition defaultTelemetryFreshness : Duration := 15 * Second.
Definition defaultTelemetryLookback : Duration := 5 * Minute.
Definition defaultRequestTimeout : Duration := 3 * Second.
Definition defaultDSSOAuthAudience : string := "localhost".
Definition defaultDSSOAuthIssuer : string := "localhost".
Definition defaultDSSOAuthSubject : string := "aero-arc-api".
Definition defaultSeed : string := "".
Definition defaultDebug : bool := false.

Record Config : Set := mkConfig {
  cfg_Addr : string;
  cfg_DurableStore : string;
  cfg_DatabaseURL : string;
  cfg_AirspaceProviders : list string;
  cfg_TelemetryStore : string;
  cfg_InfluxDBHost : string;
  cfg_InfluxDBToken : string;
  cfg_InfluxDBDatabase : string;
  cfg_DSSBaseURL : string;
  cfg_DSSStaticToken : string;
  cfg_DSSOAuthTokenURL : string;
  cfg_DSSOAuthAudience : string;
  cfg_DSSOAuthIssuer : string;
  cfg_DSSOAuthSubject : string;
  cfg_DSSAllowInsecurePeerURLs : bool;
  cfg_USSBaseURL : string;
  cfg_USSJWTPublicKeyFile : string;
  cfg_USSJWTIssuer : string;
  cfg_USSJWTAudience : string;
  cfg_ReplayStore : string;
  cfg_RegistryMode : string;
  cfg_ConformanceAddress : string;
  cfg_ConformanceCAFile : string;
  cfg_ConformanceCertFile : string;
  cfg_ConformanceKeyFile : string;
  cfg_ConformanceServerName : string;
  cfg_RegistryAddress : string;
  cfg_RegistryDialTimeout : Duration;
  cfg_RegistryFreshness : Duration;
  cfg_RelayControlCAFile : string;
  cfg_RelayControlCertFile : string;
  cfg_RelayControlKeyFile : string;
  cfg_RelayControlServerName : string;
  cfg_MissionDeploymentToken : string;
  cfg_RelayControlTimeout : Duration;
  cfg_RelayPlacementTTL : Duration;
  cfg_TelemetryFreshness : Duration;
  cfg_TelemetryLatestLookback : Duration;
  cfg_RequestTimeout : Duration;
  cfg_Seed : string;
  cfg_Debug : bool;
}.

#[global] Instance Config_eta : Eta Config := λ c,
  mkConfig (cfg_Addr c) (cfg_DurableStore c) (cfg_DatabaseURL c) (cfg_AirspaceProviders c)
    (cfg_TelemetryStore c) (cfg_InfluxDBHost c) (cfg_InfluxDBToken c) (cfg_InfluxDBDatabase c)
    (cfg_DSSBaseURL c) (cfg_DSSStaticToken c) (cfg_DSSOAuthTokenURL c) (cfg_DSSOAuthAudience c)
    (cfg_DSSOAuthIssuer c) (cfg_DSSOAuthSubject c) (cfg_DSSAllowInsecurePeerURLs c) (cfg_USSBaseURL c)
    (cfg_USSJWTPublicKeyFile c) (cfg_USSJWTIssuer c) (cfg_USSJWTAudience c) (cfg_ReplayStore c)
    (cfg_RegistryMode c) (cfg_ConformanceAddress c) (cfg_ConformanceCAFile c) (cfg_ConformanceCertFile c)
    (cfg_ConformanceKeyFile c) (cfg_ConformanceServerName c) (cfg_RegistryAddress c) (cfg_RegistryDialTimeout c)
    (cfg_RegistryFreshness c) (cfg_RelayControlCAFile c) (cfg_RelayControlCertFile c) (cfg_RelayControlKeyFile c)
    (cfg_RelayControlServerName c) (cfg_MissionDeploymentToken c) (cfg_RelayControlTimeout c) (cfg_RelayPlacementTTL c)
    (cfg_TelemetryFreshness c) (cfg_TelemetryLatestLookback c) (cfg_RequestTimeout c) (cfg_Seed c)
    (cfg_Debug c).

Definition zero_Config : Config := mkConfig "" "" "" [] "" "" "" "" "" "" "" "" "" "" false "" "" "" "" "" "" "" "" "" "" "" "" 0 0 "" "" "" "" "" 0 0 0 0 0 "" false.

Definition Defaults : Config := zero_Config
  <| cfg_Addr := defaultAddr |>
  <| cfg_DurableStore := defaultDurableStore |>
  <| cfg_AirspaceProviders := [ProviderLocal] |>
  <| cfg_TelemetryStore := defaultTelemetryStore |>
  <| cfg_ReplayStore := defaultReplayStore |>
  <| cfg_RegistryMode := defaultRegistryMode |>
  <| cfg_RegistryAddress := defaultRegistryAddress |>
  <| cfg_RegistryDialTimeout := defaultRegistryDialTimeout |>
  <| cfg_RegistryFreshness := defaultRegistryFreshness |>
  <| cfg_RelayControlTimeout := defaultRelayControlTimeout |>
  <| cfg_RelayPlacementTTL := defaultRelayPlacementTTL |>
  <| cfg_TelemetryFreshness := defaultTelemetryFreshness |>
  <| cfg_TelemetryLatestLookback := defaultTelemetryLookback |>
  <| cfg_RequestTimeout := defaultRequestTimeout |>
  <| cfg_DSSOAuthAudience := defaultDSSOAuthAudience |>
  <| cfg_DSSOAuthIssuer := defaultDSSOAuthIssuer |>
  <| cfg_DSSOAuthSubject := defaultDSSOAuthSubject |>
  <| cfg_Seed := defaultSeed |>
  <| cfg_Debug := defaultDebug |>.

(** ** Validation *)

(** Rules in the order in which they are applied: when the condition holds, the
    configuration is refused with the text. *)
Definition rule : Type := bool * string.

Fixpoint refused_by (rules : list rule) : option error :=
  match rules with
  | [] => None
  | (violated, text) :: rules => if violated then Some (plain text) else refused_by rules
  end.

(** The providers, trimmed, each one once: the fields seen are in [seen]. *)
Fixpoint validate_providers (names seen : list string) : outcome (list string) :=
  match names with
  | [] => if (length seen =? 0)%nat then Err (plain "AERO_API_AIRSPACE_PROVIDERS must configure at least one provider")
          else Ok []
  | name :: names =>
      let provider := TrimSpace name in
      if provider =s= "" then Err (plain "AERO_API_AIRSPACE_PROVIDERS cannot contain an empty provider")
      else if negb ((provider =s= ProviderLocal) || (provider =s= ProviderInterUSS))
      then Err (plain ("unsupported airspace provider " +:+ quote provider))
      else if bool_decide (provider ∈ seen) then Err (plain ("duplicate airspace provider " +:+ quote provider))
      else
        match validate_providers names (provider :: seen) with
        | Err err => Err err
        | Ok rest => Ok (provider :: rest)
        end
  end.

(** How many of the values are not blank. *)
Definition configured (values : list string) : nat := length (List.filter (λ value, TrimSpace value <>s "") values).

Definition relayTLSValues (cfg : Config) : list string :=
  [cfg_RelayControlCAFile cfg; cfg_RelayControlCertFile cfg; cfg_RelayControlKeyFile cfg; cfg_RelayControlServerName cfg].
Definition conformanceValues (cfg : Config) : list string :=
  [cfg_ConformanceAddress cfg; cfg_ConformanceCAFile cfg; cfg_ConformanceCertFile cfg; cfg_ConformanceKeyFile cfg;
   cfg_ConformanceServerName cfg].

(** Some of the values, but not all. *)
Definition incomplete (values : list string) : bool :=
  negb (configured values =? 0)%nat && negb (configured values =? length values)%nat.

(** A visible character of ASCII.  A byte from 128 on is part of a rune that is
    not one. *)
Definition visible (c : Ascii.ascii) : bool := ((33 <=? byte_of c) && (byte_of c <=? 126))%N.

Definition stores_rules (cfg : Config) : list rule :=
  let postgres := cfg_DurableStore cfg =s= DurableStorePostgres in
  [(postgres && (cfg_DatabaseURL cfg =s= ""), "AERO_API_DATABASE_URL is required when durable store is postgres");
   (negb postgres && (cfg_DatabaseURL cfg <>s ""), "AERO_API_DATABASE_URL requires durable store postgres")].

Definition interuss_rules (cfg : Config) : list rule :=
  let postgres := cfg_DurableStore cfg =s= DurableStorePostgres in
  let interussEnabled := bool_decide (ProviderInterUSS ∈ cfg_AirspaceProviders cfg) in
  let publishing := cfg_USSBaseURL cfg <>s "" in
  [(interussEnabled && (cfg_DSSBaseURL cfg =s= ""),
    "AERO_API_DSS_BASE_URL is required when airspace provider interuss is enabled");
   (negb interussEnabled && ((cfg_DSSBaseURL cfg <>s "") || (cfg_DSSStaticToken cfg <>s "")
      || (cfg_DSSOAuthTokenURL cfg <>s "") || cfg_DSSAllowInsecurePeerURLs cfg),
    "InterUSS DSS configuration requires airspace provider interuss");
   (publishing && negb interussEnabled, "AERO_API_USS_BASE_URL requires airspace provider interuss");
   (publishing && negb postgres, "AERO_API_USS_BASE_URL requires durable store postgres");
   (publishing && ((cfg_USSJWTPublicKeyFile cfg =s= "") || (cfg_USSJWTIssuer cfg =s= "") || (cfg_USSJWTAudience cfg =s= "")),
    "AERO_API_USS_JWT_PUBLIC_KEY_FILE, AERO_API_USS_JWT_ISSUER, and AERO_API_USS_JWT_AUDIENCE are required when USS publication is enabled");
   (negb publishing && ((cfg_USSJWTPublicKeyFile cfg <>s "") || (cfg_USSJWTIssuer cfg <>s "") || (cfg_USSJWTAudience cfg <>s "")),
    "USS JWT configuration requires AERO_API_USS_BASE_URL")].

Definition telemetry_rules (cfg : Config) : list rule :=
  let influxdb := cfg_TelemetryStore cfg =s= "influxdb" in
  [((cfg_TelemetryStore cfg <>s "memory") && negb influxdb,
    "unsupported telemetry store " +:+ quote (cfg_TelemetryStore cfg));
   (influxdb && (cfg_InfluxDBHost cfg =s= ""), "AERO_API_INFLUXDB_HOST cannot be empty when telemetry store is influxdb");
   (influxdb && (cfg_InfluxDBToken cfg =s= ""), "AERO_API_INFLUXDB_TOKEN cannot be empty when telemetry store is influxdb");
   (influxdb && (cfg_InfluxDBDatabase cfg =s= ""),
    "AERO_API_INFLUXDB_DATABASE cannot be empty when telemetry store is influxdb");
   (cfg_ReplayStore cfg <>s "memory", "unsupported replay store " +:+ quote (cfg_ReplayStore cfg))].

Definition registry_rules (cfg : Config) : list rule :=
  [((cfg_RegistryMode cfg <>s "memory") && (cfg_RegistryMode cfg <>s "grpc"),
    "unsupported registry mode " +:+ quote (cfg_RegistryMode cfg));
   (cfg_RegistryAddress cfg =s= "", "AERO_API_REGISTRY_ADDR cannot be empty");
   (cfg_RegistryDialTimeout cfg <=? 0, "AERO_API_REGISTRY_DIAL_TIMEOUT must be > 0");
   (cfg_RegistryFreshness cfg <=? 0, "AERO_API_REGISTRY_FRESHNESS must be > 0")].

Definition relay_rules (cfg : Config) : list rule :=
  let token := String.list_ascii_of_string (cfg_MissionDeploymentToken cfg) in
  let configuredRelayTLS := configured (relayTLSValues cfg) in
  let enabled := (0 <? configuredRelayTLS)%nat in
  [(cfg_RelayControlTimeout cfg <=? 0, "AERO_API_RELAY_CONTROL_TIMEOUT must be > 0");
   (defaultRelayControlTimeout <? cfg_RelayControlTimeout cfg,
    "AERO_API_RELAY_CONTROL_TIMEOUT must be <= 35s so a clear-context-and-deploy sequence cannot outlive the command expiry");
   (cfg_RelayPlacementTTL cfg <=? 0, "AERO_API_RELAY_PLACEMENT_TTL must be > 0");
   (incomplete (conformanceValues cfg),
    "conformance address, CA, client certificate, key and server name must be configured together");
   (incomplete (relayTLSValues cfg),
    "AERO_API_RELAY_CONTROL_CA_FILE, AERO_API_RELAY_CONTROL_CERT_FILE, AERO_API_RELAY_CONTROL_KEY_FILE, and AERO_API_RELAY_CONTROL_SERVER_NAME must be configured together");
   (enabled && (length token <? 24)%nat,
    "AERO_API_MISSION_DEPLOY_TOKEN must be at least 24 bytes when Relay mission control is configured");
   (negb (forallb visible token),
    "AERO_API_MISSION_DEPLOY_TOKEN must contain visible ASCII characters without whitespace");
   (negb enabled && (cfg_MissionDeploymentToken cfg <>s ""),
    "AERO_API_MISSION_DEPLOY_TOKEN requires complete Relay control mTLS configuration");
   (enabled && (cfg_RegistryMode cfg <>s "grpc"), "relay mission control requires registry mode grpc");
   (enabled && (cfg_DurableStore cfg <>s DurableStorePostgres), "relay mission control requires durable store postgres")].

Definition freshness_rules (cfg : Config) : list rule :=
  [(cfg_TelemetryFreshness cfg <=? 0, "AERO_API_TELEMETRY_FRESHNESS must be > 0");
   (cfg_TelemetryLatestLookback cfg <=? 0, "AERO_API_TELEMETRY_LATEST_LOOKBACK must be > 0");
   (cfg_TelemetryLatestLookback cfg <? cfg_TelemetryFreshness cfg,
    "AERO_API_TELEMETRY_LATEST_LOOKBACK must be >= AERO_API_TELEMETRY_FRESHNESS");
   (cfg_RequestTimeout cfg <=? 0, "AERO_API_REQUEST_TIMEOUT must be > 0")].

Section validation.
Context {RT : Runtime} {UL : UrlLibrary}.

(** An absolute URL. *)
Definition absolute (value : string) : bool :=
  match url_ParseRequestURI value with
  | Ok parsed => (url_Scheme parsed <>s "") && (url_Host parsed <>s "")
  | Err _ => false
  end.

(** The URLs, visited in any order. *)
Definition url_rules (cfg : Config) : list rule :=
  (λ '(name, value), ((value <>s "") && negb (absolute value), name +:+ " must be an absolute URL"))
    <$> map_range (list_to_map
         [("AERO_API_DATABASE_URL", cfg_DatabaseURL cfg); ("AERO_API_DSS_BASE_URL", cfg_DSSBaseURL cfg);
          ("AERO_API_DSS_OAUTH_TOKEN_URL", cfg_DSSOAuthTokenURL cfg); ("AERO_API_USS_BASE_URL", cfg_USSBaseURL cfg)]).

(** What a program ends with that reads a field of nothing. *)
Definition nil_dereference : string := "panic: runtime error: invalid memory address or nil pointer dereference".

(** The base URL that peers are told.  The error of [url.Parse] is not looked at:
    [url.ParseRequestURI] has accepted the text, but takes it to have no
    fragment; a fragment that cannot be read is a panic. *)
Definition uss_url_rules (cfg : Config) : list rule :=
  if cfg_USSBaseURL cfg =s= "" then []
  else
    match url_Parse (cfg_USSBaseURL cfg) with
    | Err _ => [(true, nil_dereference)]
    | Ok parsed =>
        [(url_User parsed || (url_RawQuery parsed <>s "") || (url_Fragment parsed <>s ""),
          "AERO_API_USS_BASE_URL must contain only a scheme, host, port, and optional path");
         ((url_Scheme parsed <>s "https") && negb (cfg_DSSAllowInsecurePeerURLs cfg),
          "AERO_API_USS_BASE_URL must use HTTPS unless insecure peer URLs are enabled for local development")]
    end.

Definition final_rules (cfg : Config) : list rule :=
  [((cfg_DSSStaticToken cfg <>s "") && (cfg_DSSOAuthTokenURL cfg <>s ""),
    "AERO_API_DSS_STATIC_TOKEN and AERO_API_DSS_OAUTH_TOKEN_URL are mutually exclusive");
   (negb (existsb (String.eqb (cfg_Seed cfg)) [""; "none"; "demo"]), "unsupported seed mode " +:+ quote (cfg_Seed cfg))].

Definition first_rules (cfg : Config) : list rule :=
  [(cfg_Addr cfg =s= "", "AERO_API_ADDR cannot be empty");
   ((cfg_DurableStore cfg <>s DurableStoreMemory) && (cfg_DurableStore cfg <>s DurableStorePostgres),
    "unsupported durable store " +:+ quote (cfg_DurableStore cfg))].

Definition later_rules (cfg : Config) : list rule :=
  stores_rules cfg ++ interuss_rules cfg ++ telemetry_rules cfg ++ registry_rules cfg ++ relay_rules cfg
  ++ freshness_rules cfg ++ url_rules cfg ++ uss_url_rules cfg ++ final_rules cfg.

(** The configuration that is valid has its providers trimmed. *)
Definition Validate (cfg : Config) : outcome Config :=
  match refused_by (first_rules cfg) with
  | Some err => Err err
  | None =>
      match validate_providers (cfg_AirspaceProviders cfg) [] with
      | Err err => Err err
      | Ok providers =>
          let cfg := cfg <| cfg_AirspaceProviders := providers |> in
          match refused_by (later_rules cfg) with
          | Some err => Err err
          | None => Ok cfg
          end
      end
  end.

Definition RelayControlEnabled (cfg : Config) : bool := TrimSpace (cfg_RelayControlCAFile cfg) <>s "".

(** ** The environment *)

#[local] Notation "'ok!' x := p 'in' q" := (match p with Err err => Err err | Ok x => q end)
  (at level 10, x name, p at level 100, q at level 200).

Context (Getenv : string → string).

Definition applyStringEnv (key dst : string) : string :=
  let v := Getenv key in if v =s= "" then dst else v.

Definition comma : Ascii.ascii := Ascii.ascii_of_N 44.

Definition applyStringSliceEnv (key : string) (dst : list string) : list string :=
  let value := Getenv key in if value =s= "" then dst else Split comma value.

(** A number without a unit counts milliseconds; the product wraps around. *)
Definition parseDuration (v : string) : outcome Duration :=
  match Atoi v with
  | Some ms => Ok (wrap_int64 (ms * Millisecond))
  | None => ParseDuration v
  end.

Definition applyDurationEnv (key : string) (dst : Duration) : outcome Duration :=
  let v := Getenv key in
  if v =s= "" then Ok dst
  else match parseDuration v with Ok d => Ok d | Err err => Err (wrap ("invalid duration for " +:+ key) err) end.

Definition applyBoolEnv (key : string) (dst : bool) : outcome bool :=
  let v := Getenv key in
  if v =s= "" then Ok dst
  else match ParseBool v with Ok d => Ok d | Err err => Err (wrap ("invalid boolean for " +:+ key) err) end.

(** The variables of texts, in the order in which they are applied. *)
Definition apply_texts (cfg : Config) : Config :=
  cfg
    <| cfg_Addr := applyStringEnv "AERO_API_ADDR" (cfg_Addr cfg) |>
    <| cfg_DurableStore := applyStringEnv "AERO_API_DURABLE_STORE" (cfg_DurableStore cfg) |>
    <| cfg_DatabaseURL := applyStringEnv "AERO_API_DATABASE_URL" (cfg_DatabaseURL cfg) |>
    <| cfg_AirspaceProviders := applyStringSliceEnv "AERO_API_AIRSPACE_PROVIDERS" (cfg_AirspaceProviders cfg) |>
    <| cfg_TelemetryStore := applyStringEnv "AERO_API_TELEMETRY_STORE" (cfg_TelemetryStore cfg) |>
    <| cfg_InfluxDBHost := applyStringEnv "AERO_API_INFLUXDB_HOST" (cfg_InfluxDBHost cfg) |>
    <| cfg_InfluxDBToken := applyStringEnv "AERO_API_INFLUXDB_TOKEN" (cfg_InfluxDBToken cfg) |>
    <| cfg_InfluxDBDatabase := applyStringEnv "AERO_API_INFLUXDB_DATABASE" (cfg_InfluxDBDatabase cfg) |>
    <| cfg_DSSBaseURL := applyStringEnv "AERO_API_DSS_BASE_URL" (cfg_DSSBaseURL cfg) |>
    <| cfg_DSSStaticToken := applyStringEnv "AERO_API_DSS_STATIC_TOKEN" (cfg_DSSStaticToken cfg) |>
    <| cfg_DSSOAuthTokenURL := applyStringEnv "AERO_API_DSS_OAUTH_TOKEN_URL" (cfg_DSSOAuthTokenURL cfg) |>
    <| cfg_DSSOAuthAudience := applyStringEnv "AERO_API_DSS_OAUTH_AUDIENCE" (cfg_DSSOAuthAudience cfg) |>
    <| cfg_DSSOAuthIssuer := applyStringEnv "AERO_API_DSS_OAUTH_ISSUER" (cfg_DSSOAuthIssuer cfg) |>
    <| cfg_DSSOAuthSubject := applyStringEnv "AERO_API_DSS_OAUTH_SUBJECT" (cfg_DSSOAuthSubject cfg) |>
    <| cfg_USSBaseURL := applyStringEnv "AERO_API_USS_BASE_URL" (cfg_USSBaseURL cfg) |>
    <| cfg_USSJWTPublicKeyFile := applyStringEnv "AERO_API_USS_JWT_PUBLIC_KEY_FILE" (cfg_USSJWTPublicKeyFile cfg) |>
    <| cfg_USSJWTIssuer := applyStringEnv "AERO_API_USS_JWT_ISSUER" (cfg_USSJWTIssuer cfg) |>
    <| cfg_USSJWTAudience := applyStringEnv "AERO_API_USS_JWT_AUDIENCE" (cfg_USSJWTAudience cfg) |>
    <| cfg_ReplayStore := applyStringEnv "AERO_API_REPLAY_STORE" (cfg_ReplayStore cfg) |>
    <| cfg_RegistryMode := applyStringEnv "AERO_API_REGISTRY_MODE" (cfg_RegistryMode cfg) |>
    <| cfg_ConformanceAddress := applyStringEnv "AERO_API_CONFORMANCE_ADDR" (cfg_ConformanceAddress cfg) |>
    <| cfg_ConformanceCAFile := applyStringEnv "AERO_API_CONFORMANCE_CA_FILE" (cfg_ConformanceCAFile cfg) |>
    <| cfg_ConformanceCertFile := applyStringEnv "AERO_API_CONFORMANCE_CERT_FILE" (cfg_ConformanceCertFile cfg) |>
    <| cfg_ConformanceKeyFile := applyStringEnv "AERO_API_CONFORMANCE_KEY_FILE" (cfg_ConformanceKeyFile cfg) |>
    <| cfg_ConformanceServerName := applyStringEnv "AERO_API_CONFORMANCE_SERVER_NAME" (cfg_ConformanceServerName cfg) |>
    <| cfg_RegistryAddress := applyStringEnv "AERO_API_REGISTRY_ADDR" (cfg_RegistryAddress cfg) |>
    <| cfg_RelayControlCAFile := applyStringEnv "AERO_API_RELAY_CONTROL_CA_FILE" (cfg_RelayControlCAFile cfg) |>
    <| cfg_RelayControlCertFile := applyStringEnv "AERO_API_RELAY_CONTROL_CERT_FILE" (cfg_RelayControlCertFile cfg) |>
    <| cfg_RelayControlKeyFile := applyStringEnv "AERO_API_RELAY_CONTROL_KEY_FILE" (cfg_RelayControlKeyFile cfg) |>
    <| cfg_RelayControlServerName := applyStringEnv "AERO_API_RELAY_CONTROL_SERVER_NAME" (cfg_RelayControlServerName cfg) |>
    <| cfg_MissionDeploymentToken := applyStringEnv "AERO_API_MISSION_DEPLOY_TOKEN" (cfg_MissionDeploymentToken cfg) |>
    <| cfg_Seed := applyStringEnv "AERO_API_SEED" (cfg_Seed cfg) |>.

Definition Load : outcome Config :=
  let cfg := apply_texts Defaults in
  ok! Debug := applyBoolEnv "AERO_API_DEBUG" (cfg_Debug cfg) in
  ok! DSSAllowInsecurePeerURLs := applyBoolEnv "AERO_API_DSS_ALLOW_INSECURE_PEER_URLS" (cfg_DSSAllowInsecurePeerURLs cfg) in
  ok! RegistryDialTimeout := applyDurationEnv "AERO_API_REGISTRY_DIAL_TIMEOUT" (cfg_RegistryDialTimeout cfg) in
  ok! RegistryFreshness := applyDurationEnv "AERO_API_REGISTRY_FRESHNESS" (cfg_RegistryFreshness cfg) in
  ok! RelayControlTimeout := applyDurationEnv "AERO_API_RELAY_CONTROL_TIMEOUT" (cfg_RelayControlTimeout cfg) in
  ok! RelayPlacementTTL := applyDurationEnv "AERO_API_RELAY_PLACEMENT_TTL" (cfg_RelayPlacementTTL cfg) in
  ok! TelemetryFreshness := applyDurationEnv "AERO_API_TELEMETRY_FRESHNESS" (cfg_TelemetryFreshness cfg) in
  ok! TelemetryLatestLookback := applyDurationEnv "AERO_API_TELEMETRY_LATEST_LOOKBACK" (cfg_TelemetryLatestLookback cfg) in
  ok! RequestTimeout := applyDurationEnv "AERO_API_REQUEST_TIMEOUT" (cfg_RequestTimeout cfg) in
  Validate (cfg
    <| cfg_Debug := Debug |>
    <| cfg_DSSAllowInsecurePeerURLs := DSSAllowInsecurePeerURLs |>
    <| cfg_RegistryDialTimeout := RegistryDialTimeout |>
    <| cfg_RegistryFreshness := RegistryFreshness |>
    <| cfg_RelayControlTimeout := RelayControlTimeout |>
    <| cfg_RelayPlacementTTL := RelayPlacementTTL |>
    <| cfg_TelemetryFreshness := TelemetryFreshness |>
    <| cfg_TelemetryLatestLookback := TelemetryLatestLookback |>
    <| cfg_RequestTimeout := RequestTimeout |>).

End validation.

(** ** The command *)

(** The values of the flags: from the command line, the environment or the
    defaults. *)
Record flags := mkFlags {
  flag_String : string → string;
  flag_StringSlice : string → list string;
  flag_Bool : string → bool;
  flag_Duration : string → Duration;
}.

Definition command_config (cmd : flags) : Config := zero_Config
  <| cfg_Addr := flag_String cmd "addr" |>
  <| cfg_DurableStore := flag_String cmd "durable-store" |>
  <| cfg_DatabaseURL := flag_String cmd "database-url" |>
  <| cfg_AirspaceProviders := flag_StringSlice cmd "airspace-provider" |>
  <| cfg_TelemetryStore := flag_String cmd "telemetry-store" |>
  <| cfg_InfluxDBHost := flag_String cmd "influxdb-host" |>
  <| cfg_InfluxDBToken := flag_String cmd "influxdb-token" |>
  <| cfg_InfluxDBDatabase := flag_String cmd "influxdb-database" |>
  <| cfg_DSSBaseURL := flag_String cmd "dss-base-url" |>
  <| cfg_DSSStaticToken := flag_String cmd "dss-static-token" |>
  <| cfg_DSSOAuthTokenURL := flag_String cmd "dss-oauth-token-url" |>
  <| cfg_DSSOAuthAudience := flag_String cmd "dss-oauth-audience" |>
  <| cfg_DSSOAuthIssuer := flag_String cmd "dss-oauth-issuer" |>
  <| cfg_DSSOAuthSubject := flag_String cmd "dss-oauth-subject" |>
  <| cfg_DSSAllowInsecurePeerURLs := flag_Bool cmd "dss-allow-insecure-peer-urls" |>
  <| cfg_USSBaseURL := flag_String cmd "uss-base-url" |>
  <| cfg_USSJWTPublicKeyFile := flag_String cmd "uss-jwt-public-key-file" |>
  <| cfg_USSJWTIssuer := flag_String cmd "uss-jwt-issuer" |>
  <| cfg_USSJWTAudience := flag_String cmd "uss-jwt-audience" |>
  <| cfg_ReplayStore := flag_String cmd "replay-store" |>
  <| cfg_RegistryMode := flag_String cmd "registry-mode" |>
  <| cfg_RegistryAddress := flag_String cmd "registry-addr" |>
  <| cfg_RegistryDialTimeout := flag_Duration cmd "registry-dial-timeout" |>
  <| cfg_RegistryFreshness := flag_Duration cmd "registry-freshness" |>
  <| cfg_RelayControlCAFile := flag_String cmd "relay-control-ca-file" |>
  <| cfg_RelayControlCertFile := flag_String cmd "relay-control-cert-file" |>
  <| cfg_RelayControlKeyFile := flag_String cmd "relay-control-key-file" |>
  <| cfg_RelayControlServerName := flag_String cmd "relay-control-server-name" |>
  <| cfg_MissionDeploymentToken := flag_String cmd "mission-deploy-token" |>
  <| cfg_ConformanceAddress := flag_String cmd "conformance-addr" |>
  <| cfg_ConformanceCAFile := flag_String cmd "conformance-ca-file" |>
  <| cfg_ConformanceCertFile := flag_String cmd "conformance-cert-file" |>
  <| cfg_ConformanceKeyFile := flag_String cmd "conformance-key-file" |>
  <| cfg_ConformanceServerName := flag_String cmd "conformance-server-name" |>
  <| cfg_RelayControlTimeout := flag_Duration cmd "relay-control-timeout" |>
  <| cfg_RelayPlacementTTL := flag_Duration cmd "relay-placement-ttl" |>
  <| cfg_TelemetryFreshness := flag_Duration cmd "telemetry-freshness" |>
  <| cfg_TelemetryLatestLookback := flag_Duration cmd "telemetry-latest-lookback" |>
  <| cfg_RequestTimeout := flag_Duration cmd "request-timeout" |>
  <| cfg_Seed := flag_String cmd "seed" |>
  <| cfg_Debug := flag_Bool cmd "debug" |>.

(** What the command starts, or why it does not. *)
Definition start_command {RT : Runtime} {UL : UrlLibrary} {A} (start : Config → outcome A) (cmd : flags) : outcome A :=
  match Validate (command_config cmd) with Err err => Err err | Ok cfg => start cfg end.

(** The time for a request of mission control: three phases at the relay, and
    what persistence takes. *)
Definition missionDeploymentRequestTimeout (relayControlTimeout : Duration) : Duration :=
  wrap_int64 (wrap_int64 (3 * relayControlTimeout) + 5 * Second).

Definition publication_lease (cfg : Config) : Duration := wrap_int64 (cfg_RequestTimeout cfg + 30 * Second).

(** ** Stores *)

(** The telemetry store: in memory, or over a database with a look-back. *)
Inductive telemetry_store : Set :=
  | MemoryTelemetry
  | InfluxTelemetry (latestLookback : Duration).

(** [client] is that of the database for the host, the token and the name. *)
Definition newTelemetryStore (client : string → string → string → outcome unit) (cfg : Config) : outcome telemetry_store :=
  if cfg_TelemetryStore cfg =s= "memory" then Ok MemoryTelemetry
  else if cfg_TelemetryStore cfg =s= "influxdb" then
    match New_influx (client (cfg_InfluxDBHost cfg) (cfg_InfluxDBToken cfg) (cfg_InfluxDBDatabase cfg))
            (cfg_TelemetryLatestLookback cfg) with
    | Err err => Err err
    | Ok lookback => Ok (InfluxTelemetry lookback)
    end
  else Err (plain ("unsupported telemetry store " +:+ quote (cfg_TelemetryStore cfg))).

(** There is one replay store, in memory. *)
Definition newReplayStore (mode : string) : outcome unit :=
  if mode =s= "memory" then Ok tt else Err (plain ("unsupported replay store " +:+ quote mode)).

(** ** Providers *)

Definition interuss_config (cfg : Config) : InterUSSConfig :=
  mkInterUSSConfig (cfg_DSSBaseURL cfg) (cfg_DSSStaticToken cfg) (cfg_DSSOAuthTokenURL cfg) (cfg_DSSOAuthAudience cfg)
    (cfg_DSSOAuthIssuer cfg) (cfg_DSSOAuthSubject cfg) (cfg_DSSAllowInsecurePeerURLs cfg) (cfg_USSBaseURL cfg).

Section providers.
Context {LIB : Library} {U : Unions} {SL : ScdLibrary} {UL : UrlLibrary} {RT : Runtime}.
Context (NewClient : string → TokenSource → outcome unit).
Abbreviation Provider := (Provider (externalE := dssE)).
Abbreviation Publisher := (Publisher (externalE := dssE)).

Definition newInterUSSProvider (cfg : Config) : outcome InterUSSProvider := New_provider NewClient (interuss_config cfg).

(** The providers of the configuration in its order; the one that is a publisher
    too comes with it. *)
Fixpoint named_providers (cfg : Config) (names : list string) : outcome (list (Provider * option Publisher)) :=
  match names with
  | [] => Ok []
  | name :: names =>
      if name =s= ProviderLocal then
        match named_providers cfg names with Err err => Err err | Ok rest => Ok ((local_provider, None) :: rest) end
      else if name =s= ProviderInterUSS then
        match newInterUSSProvider cfg with
        | Err err => Err err
        | Ok p =>
            match named_providers cfg names with
            | Err err => Err err
            | Ok rest => Ok ((interuss_provider p, Some (interuss_publisher p)) :: rest)
            end
        end
      else Err (plain ("unsupported airspace provider " +:+ quote name))
  end.

Definition newAirspaceProviders (cfg : Config) : outcome (list (Provider * option Publisher)) :=
  match named_providers cfg (cfg_AirspaceProviders cfg) with
  | Err err => Err err
  | Ok [] => Err (plain "at least one airspace provider is required")
  | Ok providers => Ok providers
  end.

(** The deconfliction service that the command runs with. *)
Definition configured_deconfliction (cfg : Config) : outcome (DeconflictionService dssE) :=
  match newAirspaceProviders cfg with
  | Err err => Err err
  | Ok providers => newDeconflictionService (publication_lease cfg) (map Some providers)
  end.
End providers.
