(* ===== verification/ConfigRules.v ===== *)
(** * What a valid configuration guarantees

    The rules of the configuration are those that the program relies on: mission
    control is never without its credentials, publication never without the
    authentication of peers, and the time of a request is within the life of a
    command. *)

From S2P Require Import Prelude GoRuntime GoStrings GoStrconv GoRange Domain Errors GoTime Program DurableStore Influx Airspace ScdMessages Geometry Deconfliction Publishing InterUSS InterUSSPublisher MissionDeployment Config.
From stdpp Require Import options.

Lemma refused_by_app rules rules' :
  refused_by (rules ++ rules') = match refused_by rules with Some err => Some err | None => refused_by rules' end.
Proof. induction rules as [|[[] text] rules IH]; cbn; auto. Qed.

Lemma refused_by_none rules : refused_by rules = None ↔ ∀ violated text, (violated, text) ∈ rules → violated = false.
Proof.
  induction rules as [|[violated text] rules IH]; cbn; [set_solver|]. destruct violated.
  - split; [done|]. intros H. by specialize (H true text ltac:(set_solver)).
  - rewrite IH. split.
    + intros H v t [Heq|Hin]%elem_of_cons; [congruence|eauto].
    + intros H v t Hin. eapply H. by right.
Qed.

Lemma validate_providers_spec names seen providers :
  validate_providers names seen = Ok providers →
  providers = TrimSpace <$> names ∧ NoDup providers ∧ (∀ p, p ∈ providers → p ∉ seen)
  ∧ (∀ p, p ∈ providers → p = ProviderLocal ∨ p = ProviderInterUSS) ∧ (seen = [] → providers ≠ []).
Proof.
  revert seen providers. induction names as [|name names IH]; intros seen providers; cbn [validate_providers].
  - destruct (length seen =? 0)%nat eqn:Hseen; [done|]. intros [= <-]. split_and!; try done; [constructor|set_solver..|].
    by intros ->.
  - destruct (TrimSpace name =s= ""); [done|]. destruct (negb _) eqn:Hknown; [done|]. case_bool_decide as Hnew; [done|].
    destruct (validate_providers names _) as [rest|] eqn:Hrest; [|done]. intros [= <-].
    apply IH in Hrest as (-> & Hnodup & Hfresh & Hnames & _). to_prop. split_and!; cbn.
    + done.
    + constructor; [|done]. intros Hin. apply Hfresh in Hin. set_solver.
    + intros p [->|Hin]%elem_of_cons; [done|]. apply Hfresh in Hin. set_solver.
    + intros p [->|Hin]%elem_of_cons; [|auto]. rewrite !String.eqb_eq in Hknown. done.
    + done.
Qed.

(** The values are all blank or none is. *)
Lemma configured_none values : configured values = 0%nat ↔ Forall (λ value, TrimSpace value = "") values.
Proof.
  unfold configured. induction values as [|value values IH]; cbn; [done|].
  destruct (String.eqb_spec (TrimSpace value) "") as [Heq|Hne]; cbn [negb].
  - rewrite IH, Forall_cons. naive_solver.
  - rewrite Forall_cons. cbn. naive_solver.
Qed.

Lemma configured_all values : configured values = length values ↔ Forall (λ value, TrimSpace value ≠ "") values.
Proof.
  unfold configured. induction values as [|value values IH]; cbn; [done|]. rewrite Forall_cons.
  destruct (String.eqb_spec (TrimSpace value) "") as [Heq|Hne]; cbn [negb length].
  - split; [|naive_solver]. intros H.
    pose proof (List.filter_length_le (λ value, TrimSpace value <>s "") values). lia.
  - rewrite <- IH. split; [intros [= ->]; auto|intros [_ ->]; done].
Qed.

Section rules.
Context {RT : Runtime} {UL : UrlLibrary}.

(** A configuration is valid when none of its rules is violated. *)
Lemma Validate_rules cfg0 cfg :
  Validate cfg0 = Ok cfg →
  ∃ providers, validate_providers (cfg_AirspaceProviders cfg0) [] = Ok providers
    ∧ cfg = cfg0 <| cfg_AirspaceProviders := providers |>
    ∧ ∀ violated text, (violated, text) ∈ later_rules cfg → violated = false.
Proof using Type.
  unfold Validate. destruct (refused_by (first_rules cfg0)); [done|].
  destruct (validate_providers _ _) as [providers|] eqn:Hproviders; [|done].
  destruct (refused_by (later_rules _)) eqn:Hlater; [done|]. intros [= <-]. exists providers. split_and!; [done..|].
  by apply refused_by_none.
Qed.

Lemma refused_later (rules : Config → list rule) cfg :
  (∀ rule, rule ∈ rules cfg → rule ∈ later_rules cfg) →
  (∀ violated text, (violated, text) ∈ later_rules cfg → violated = false) → Forall (λ r, r.1 = false) (rules cfg).
Proof using Type.
  intros Hsub Hlater. apply Forall_forall. intros [violated text] Hin. eapply Hlater, Hsub, Hin.
Qed.

(** The rules of one group, each as a hypothesis. *)
Ltac rules_of group H :=
  let F := fresh "F" in
  pose proof (refused_later group _ ltac:(intros ? ?; unfold later_rules; set_solver) H) as F;
  unfold group in F; cbv zeta in F; rewrite ?Forall_cons in F; cbn [fst] in F; destruct_and? F; to_prop.

(** What the URLs of the configuration are. *)
Lemma urls_absolute cfg value :
  (∀ violated text, (violated, text) ∈ later_rules cfg → violated = false) →
  value ∈ [cfg_DatabaseURL cfg; cfg_DSSBaseURL cfg; cfg_DSSOAuthTokenURL cfg; cfg_USSBaseURL cfg] →
  value = "" ∨ absolute value = true.
Proof using Type.
  intros Hrules Hvalue.
  assert (∃ name, (name, value) ∈ map_range (list_to_map (M := gmap string string)
         [("AERO_API_DATABASE_URL", cfg_DatabaseURL cfg); ("AERO_API_DSS_BASE_URL", cfg_DSSBaseURL cfg);
          ("AERO_API_DSS_OAUTH_TOKEN_URL", cfg_DSSOAuthTokenURL cfg); ("AERO_API_USS_BASE_URL", cfg_USSBaseURL cfg)]))
    as (name & Hname).
  { rewrite !elem_of_cons in Hvalue. destruct Hvalue as [->|[->|[->|[->|Hnil]]]]; [..|by apply elem_of_nil in Hnil].
    - exists "AERO_API_DATABASE_URL". by apply elem_of_range.
    - exists "AERO_API_DSS_BASE_URL". by apply elem_of_range.
    - exists "AERO_API_DSS_OAUTH_TOKEN_URL". by apply elem_of_range.
    - exists "AERO_API_USS_BASE_URL". by apply elem_of_range. }
  assert ((value <>s "") && negb (absolute value) = false) as Hrule.
  { apply (Hrules _ (name +:+ " must be an absolute URL")). unfold later_rules. do 6 (apply elem_of_app; right). apply elem_of_app. left. unfold url_rules.
    apply list_elem_of_fmap. by exists (name, value). }
  to_prop. destruct Hrule as [Hempty|Hbad]; to_prop; auto.
Qed.

(** Mission control can be reached, by those who know its token only. *)
Definition relay_ready (cfg : Config) : Prop :=
  Forall (λ value, TrimSpace value ≠ "") (relayTLSValues cfg)
  ∧ (24 ≤ length (String.list_ascii_of_string (cfg_MissionDeploymentToken cfg)))%nat
  ∧ Forall (λ c, visible c = true) (String.list_ascii_of_string (cfg_MissionDeploymentToken cfg))
  ∧ cfg_RegistryMode cfg = "grpc" ∧ cfg_DurableStore cfg = DurableStorePostgres.

(** Peers can be told of intents, and be authenticated. *)
Definition publishing_ready (cfg : Config) : Prop :=
  ProviderInterUSS ∈ cfg_AirspaceProviders cfg ∧ cfg_DurableStore cfg = DurableStorePostgres
  ∧ cfg_DSSBaseURL cfg ≠ "" ∧ absolute (cfg_DSSBaseURL cfg) = true
  ∧ cfg_USSJWTPublicKeyFile cfg ≠ "" ∧ cfg_USSJWTIssuer cfg ≠ "" ∧ cfg_USSJWTAudience cfg ≠ ""
  ∧ absolute (cfg_USSBaseURL cfg) = true
  ∧ ∃ parsed, url_Parse (cfg_USSBaseURL cfg) = Ok parsed
      ∧ url_User parsed = false ∧ url_RawQuery parsed = "" ∧ url_Fragment parsed = ""
      ∧ (url_Scheme parsed = "https" ∨ cfg_DSSAllowInsecurePeerURLs cfg = true).

Lemma relay_rules_ready cfg :
  Forall (λ r, r.1 = false) (relay_rules cfg) →
  RelayControlEnabled cfg = true ∨ cfg_MissionDeploymentToken cfg ≠ "" → relay_ready cfg.
Proof using Type.
  unfold relay_rules, relay_ready. cbv zeta. rewrite !Forall_cons. cbn [fst]. intros F Hon. destruct_and? F.
  assert ((0 <? configured (relayTLSValues cfg))%nat = true) as Hsome.
  { apply not_false_iff_true. intros Hzero. apply Nat.ltb_ge in Hzero as Hnone.
    assert (configured (relayTLSValues cfg) = 0%nat) as Hblank%configured_none by lia. rewrite Forall_forall in Hblank.
    specialize (Hblank (cfg_RelayControlCAFile cfg) ltac:(unfold relayTLSValues; set_solver)).
    unfold RelayControlEnabled in Hon. rewrite Hblank in Hon. destruct Hon as [Hon|Hon]; [done|].
    apply String.eqb_neq in Hon. rewrite Hzero, Hon in *. cbn in *. congruence. }
  rewrite Hsome in *. cbn [andb negb] in *. to_prop. apply Nat.ltb_lt in Hsome.
  assert (configured (relayTLSValues cfg) = length (relayTLSValues cfg)) as Hall%configured_all.
  { match goal with H : incomplete (relayTLSValues cfg) = false |- _ => revert H end. unfold incomplete.
    intros [Hz|Hz]%andb_false_iff; apply negb_false_iff, Nat.eqb_eq in Hz; [lia|done]. }
  split_and!; try done.
  - by apply Nat.ltb_ge.
  - apply Forall_forall. intros c Hc. match goal with H : forallb _ _ = true |- _ => rewrite forallb_forall in H; apply H end.
    by apply list_elem_of_In.
Qed.

Lemma interuss_rules_ready cfg :
  Forall (λ r, r.1 = false) (interuss_rules cfg) → Forall (λ r, r.1 = false) (uss_url_rules cfg) →
  (∀ value, value ∈ [cfg_DatabaseURL cfg; cfg_DSSBaseURL cfg; cfg_DSSOAuthTokenURL cfg; cfg_USSBaseURL cfg] →
     value = "" ∨ absolute value = true) →
  cfg_USSBaseURL cfg ≠ "" → publishing_ready cfg.
Proof using Type.
  unfold interuss_rules, uss_url_rules, publishing_ready. cbv zeta. rewrite !Forall_cons. cbn [fst]. intros F Hurl Habs Hne.
  apply String.eqb_neq in Hne as Hon. rewrite Hon in *. cbn [andb negb] in *. destruct_and? F. to_prop.
  repeat match goal with H : _ = false |- _ => progress rewrite ?orb_false_iff, ?negb_false_iff in H end. destruct_and?.
  to_prop. case_bool_decide as Hin; [|done]. cbn [andb] in *. to_prop.
  destruct (url_Parse (cfg_USSBaseURL cfg)) as [parsed|] eqn:Hparse; [|by apply Forall_cons in Hurl as [? _]].
  rewrite !Forall_cons in Hurl. cbn [fst] in Hurl. destruct_and? Hurl. to_prop.
  match goal with H : true = false ∨ (cfg_DSSBaseURL cfg =s= "") = false |- _ => destruct H as [|Hdss]; [done|] end.
  to_prop. destruct (Habs (cfg_DSSBaseURL cfg)) as [|Hdss']; [set_solver|done|].
  destruct (Habs (cfg_USSBaseURL cfg)) as [|Huss]; [set_solver|done|].
  split_and!; try done. exists parsed. split_and!; try done.
  match goal with H : (url_Scheme parsed <>s "https") = false ∨ _ |- _ => destruct H; to_prop; auto end.
Qed.

Lemma control_time t : 0 < t → t <= defaultRelayControlTimeout →
  0 < t ∧ missionDeploymentRequestTimeout t = 3 * t + 5 * Second
  ∧ missionDeploymentRequestTimeout t < missionDeploymentCommandTTL.
Proof using Type.
  unfold defaultRelayControlTimeout, missionDeploymentCommandTTL, missionDeploymentRequestTimeout, Minute, Second.
  intros. rewrite (wrap_int64_id (3 * t)) by (unfold in_int64; lia). rewrite wrap_int64_id by (unfold in_int64; lia). lia.
Qed.

(** C32: a configuration that is valid is one the program can rely on.  Its
    providers are those that were given, trimmed: one at least, known, and each
    one once.  If mission control is enabled or there is a token, then all of
    the credentials for the relay are there, the token has 24 characters at
    least and only visible ones, and the registry and the durable store are the
    remote ones.  The time of a request of mission control is three phases and
    five seconds, without overflow, and less than the life of a command.  If
    intents are published, the service for coordination, the key, issuer and
    audience of the tokens of peers and a usable base URL are there.  And what
    is fresh is within what is looked at. *)
Theorem validated_config_safe cfg0 cfg :
  Validate cfg0 = Ok cfg →
  (cfg_AirspaceProviders cfg = TrimSpace <$> cfg_AirspaceProviders cfg0
   ∧ NoDup (cfg_AirspaceProviders cfg) ∧ cfg_AirspaceProviders cfg ≠ []
   ∧ ∀ p, p ∈ cfg_AirspaceProviders cfg → p = ProviderLocal ∨ p = ProviderInterUSS)
  ∧ (RelayControlEnabled cfg = true ∨ cfg_MissionDeploymentToken cfg ≠ "" → relay_ready cfg)
  ∧ (let t := cfg_RelayControlTimeout cfg in
     0 < t ∧ missionDeploymentRequestTimeout t = 3 * t + 5 * Second
     ∧ missionDeploymentRequestTimeout t < missionDeploymentCommandTTL)
  ∧ (cfg_USSBaseURL cfg ≠ "" → publishing_ready cfg)
  ∧ 0 < cfg_TelemetryFreshness cfg ≤ cfg_TelemetryLatestLookback cfg.
Proof using Type.
  intros (providers & Hproviders & -> & Hrules)%Validate_rules.
  apply validate_providers_spec in Hproviders as (-> & Hnodup & _ & Hnames & Hne).
  set (cfg := cfg0 <| cfg_AirspaceProviders := TrimSpace <$> cfg_AirspaceProviders cfg0 |>) in *.
  assert (∀ group : Config → list rule, (∀ r, r ∈ group cfg → r ∈ later_rules cfg) → Forall (λ r, r.1 = false) (group cfg))
    as Hgroup by (intros; by apply refused_later).
  assert (∀ r, (r ∈ interuss_rules cfg ∨ r ∈ relay_rules cfg ∨ r ∈ freshness_rules cfg ∨ r ∈ uss_url_rules cfg) →
    r ∈ later_rules cfg) as Hin by (intros r; unfold later_rules; rewrite !elem_of_app; tauto).
  pose proof (Hgroup relay_rules ltac:(auto)) as Hrelay. pose proof (Hgroup freshness_rules ltac:(auto)) as Hfresh.
  split; [by split_and!; auto|]. split; [by apply relay_rules_ready|]. split; [|split].
  - unfold relay_rules in Hrelay. cbv zeta in Hrelay. rewrite !Forall_cons in Hrelay. cbn [fst] in Hrelay.
    destruct Hrelay as (Hpos & Hmax & _). to_prop. by apply control_time.
  - intros Huss. apply interuss_rules_ready; [apply Hgroup; intros; apply Hin; tauto..| |done]. intros value. by apply urls_absolute.
  - unfold freshness_rules in Hfresh. rewrite !Forall_cons in Hfresh. cbn [fst] in Hfresh. destruct_and? Hfresh.
    to_prop. lia.
Qed.
End rules.

(** ** A configuration with everything *)

(** A library that reads one URL. *)
Definition one_url : UrlLibrary :=
  let parsed := mkURL "https" false "uss.example" "uss.example" "" "" in
  {| url_Parse := λ _, Ok parsed; url_ParseRequestURI := λ _, Ok parsed; split_error_text := id |}.

Definition full_config : Config := Defaults
  <| cfg_DurableStore := DurableStorePostgres |> <| cfg_DatabaseURL := "postgres://db/aero" |>
  <| cfg_AirspaceProviders := [" local"; "interuss "] |>
  <| cfg_DSSBaseURL := "https://dss.example" |> <| cfg_USSBaseURL := "https://uss.example" |>
  <| cfg_USSJWTPublicKeyFile := "uss.pem" |> <| cfg_USSJWTIssuer := "issuer" |> <| cfg_USSJWTAudience := "uss" |>
  <| cfg_RegistryMode := "grpc" |> <| cfg_RelayControlCAFile := "ca.pem" |> <| cfg_RelayControlCertFile := "api.pem" |>
  <| cfg_RelayControlKeyFile := "api.key" |> <| cfg_RelayControlServerName := "relay" |>
  <| cfg_MissionDeploymentToken := "0123456789abcdefghijklmn" |>.

Lemma validated_config_safe_witness :
  ∃ cfg, relay_ready cfg ∧ publishing_ready (UL := one_url) cfg
    ∧ missionDeploymentRequestTimeout (cfg_RelayControlTimeout cfg) = 110 * Second.
Proof.
  exists (full_config <| cfg_AirspaceProviders := ["local"; "interuss"] |>).
  destruct (validated_config_safe (RT := reference_runtime) (UL := one_url) full_config
    (full_config <| cfg_AirspaceProviders := ["local"; "interuss"] |>)) as (_ & Hrelay & (_ & Htime & _) & Huss & _);
    [vm_compute; reflexivity|].
  split_and!; [apply Hrelay; by left|by apply Huss|exact Htime].
Defined.

(** ** The service of a configuration *)

Section service.
Context {LIB : Library} {U : Unions} {SL : ScdLibrary} {UL : UrlLibrary} {RT : Runtime}.
Context (NewClient : string → TokenSource → outcome unit).

(** The client of the library can be made for this configuration. *)
Definition clients_made (cfg : Config) : Prop :=
  NewClient (cfg_DSSBaseURL cfg) (token_source (interuss_config cfg)) = Ok tt.

(** The provider that the configuration describes. *)
Definition interuss_of (cfg : Config) : InterUSSProvider :=
  mkInterUSSProvider true true (trim_slashes (cfg_USSBaseURL cfg)) (cfg_DSSAllowInsecurePeerURLs cfg).

Definition provider_named (cfg : Config) (name : string) : Provider (externalE := dssE) * option (Publisher (externalE := dssE)) :=
  if name =s= ProviderLocal then (local_provider, None)
  else (interuss_provider (interuss_of cfg), Some (interuss_publisher (interuss_of cfg))).

Lemma named_providers_all cfg names :
  clients_made cfg → (∀ p, p ∈ names → p = ProviderLocal ∨ p = ProviderInterUSS) →
  named_providers NewClient cfg names = Ok (provider_named cfg <$> names).
Proof using Type.
  intros Hclient. induction names as [|name names IH]; intros Hnames; [done|]. cbn [named_providers fmap list_fmap].
  rewrite IH by set_solver. unfold provider_named at 2. destruct (Hnames name ltac:(set_solver)) as [-> | ->]; [done|].
  change (ProviderInterUSS =s= ProviderLocal) with false. change (ProviderInterUSS =s= ProviderInterUSS) with true.
  unfold newInterUSSProvider, New_provider. change (Config_BaseURL (interuss_config cfg)) with (cfg_DSSBaseURL cfg).
  by rewrite Hclient.
Qed.

Lemma provider_named_ID cfg name :
  provider_ID (provider_named cfg name).1 = if name =s= ProviderLocal then ProviderLocal else providerID.
Proof using Type. unfold provider_named. by destruct (name =s= ProviderLocal). Qed.

(** Without the name of the publisher there is none, and one name is one publisher. *)
Lemma find_publisher_none cfg names found :
  (∀ p, p ∈ names → p = ProviderLocal) → find_publisher (provider_named cfg <$> names) found = Ok found.
Proof using Type.
  clear NewClient. induction names as [|name names IH]; intros Hnames; [done|]. rewrite (Hnames name) by set_solver. cbn. apply IH. set_solver.
Qed.

Lemma find_publisher_named cfg names :
  NoDup names → (∀ p, p ∈ names → p = ProviderLocal ∨ p = ProviderInterUSS) →
  find_publisher (provider_named cfg <$> names) None
  = Ok (if bool_decide (ProviderInterUSS ∈ names) then Some (interuss_publisher (interuss_of cfg)) else None).
Proof using Type.
  clear NewClient. induction 1 as [|name names Hnew Hnodup IH]; intros Hnames; [done|].
  destruct (Hnames name ltac:(set_solver)) as [-> | ->]; cbn.
  - rewrite IH by set_solver. f_equal. rewrite (bool_decide_ext (ProviderInterUSS ∈ names) (ProviderInterUSS ∈ ProviderLocal :: names)); [done|set_solver].
  - rewrite find_publisher_none.
    + by rewrite bool_decide_true by set_solver.
    + intros p Hp. destruct (Hnames p ltac:(set_solver)) as [-> | ->]; [done|]. by destruct Hnew.
Qed.

Lemma providers_named cfg names :
  provider_ID <$> map fst (provider_named cfg <$> names)
  = (λ name, if name =s= ProviderLocal then ProviderLocal else providerID) <$> names.
Proof using Type.
  clear NewClient. induction names as [|name names IH]; cbn; [done|]. f_equal; [apply provider_named_ID|exact IH].
Qed.

(** Of a valid configuration the stores for telemetry and replay can be made,
    unless the client of the database cannot. *)
Lemma configured_stores client cfg0 cfg :
  Validate cfg0 = Ok cfg →
  newReplayStore (cfg_ReplayStore cfg) = Ok tt
  ∧ match newTelemetryStore client cfg with
    | Ok MemoryTelemetry => cfg_TelemetryStore cfg = "memory"
    | Ok (InfluxTelemetry lookback) => cfg_TelemetryStore cfg = "influxdb" ∧ 0 < lookback
    | Err _ => is_ok (client (cfg_InfluxDBHost cfg) (cfg_InfluxDBToken cfg) (cfg_InfluxDBDatabase cfg)) = false
    end.
Proof using Type.
  intros (providers & _ & -> & Hrules)%Validate_rules. set (cfg := cfg0 <| cfg_AirspaceProviders := providers |>) in *.
  assert (0 < cfg_TelemetryLatestLookback cfg) as Hpos.
  { apply Z.leb_gt, (Hrules _ "AERO_API_TELEMETRY_LATEST_LOOKBACK must be > 0"). unfold later_rules. rewrite !elem_of_app.
    do 5 right. left. unfold freshness_rules. right. by left. }
  assert (∀ violated text, (violated, text) ∈ telemetry_rules cfg → violated = false) as Htelemetry.
  { intros violated text Hin. eapply Hrules. unfold later_rules. rewrite !elem_of_app. eauto. }
  split.
  - unfold newReplayStore. assert ((cfg_ReplayStore cfg <>s "memory") = false) as H.
    { eapply Htelemetry. unfold telemetry_rules. do 4 right. by left. }
    by apply negb_false_iff in H as ->.
  - unfold newTelemetryStore. assert ((cfg_TelemetryStore cfg <>s "memory") && negb (cfg_TelemetryStore cfg =s= "influxdb") = false) as H.
    { eapply Htelemetry. unfold telemetry_rules. by left. }
    destruct (String.eqb_spec (cfg_TelemetryStore cfg) "memory"); [done|].
    destruct (String.eqb_spec (cfg_TelemetryStore cfg) "influxdb"); [|done].
    unfold New_influx. rewrite (proj2 (Z.leb_gt _ _)) by done. by destruct (client _ _ _).
Qed.

Lemma omap_some {A} (l : list A) : omap id (map Some l) = l.
Proof using Type. induction l as [|x l IH]; cbn; [done|]. by f_equal. Qed.

(** What the command builds of a valid configuration.  If the client of the
    coordination service can be made, the deconfliction service has the
    providers that the configuration names, in their order, and publishes
    exactly when interuss is one of them and there is a base URL; and this
    holds unless the time of a request is so long that the lease does not fit
    into a duration: then nothing is built. *)
Lemma configured_service cfg0 cfg :
  Validate cfg0 = Ok cfg → clients_made cfg → in_int64 (cfg_RequestTimeout cfg) →
  if cfg_RequestTimeout cfg + 30 * Second <? 2 ^ 63 then
    ∃ s, configured_deconfliction NewClient cfg = Ok s
      ∧ (provider_ID <$> service_providers s)
        = (λ name, if name =s= ProviderLocal then ProviderLocal else providerID) <$> cfg_AirspaceProviders cfg
      ∧ service_publicationLease s = cfg_RequestTimeout cfg + 30 * Second
      ∧ Publishing.PublishingEnabled s
        = bool_decide (ProviderInterUSS ∈ cfg_AirspaceProviders cfg) && (trim_slashes (cfg_USSBaseURL cfg) <>s "")
  else configured_deconfliction NewClient cfg = Err (plain "DSS publication lease must be positive").
Proof using Type.
  intros (providers & Hproviders & -> & Hrules)%Validate_rules Hclient Htime.
  apply validate_providers_spec in Hproviders as (_ & Hnodup & _ & Hnames & Hne). specialize (Hne eq_refl).
  set (cfg := cfg0 <| cfg_AirspaceProviders := providers |>) in *.
  assert (0 < cfg_RequestTimeout cfg) as Hpos.
  { apply Z.leb_gt, (Hrules _ "AERO_API_REQUEST_TIMEOUT must be > 0"). unfold later_rules. rewrite !elem_of_app.
    do 5 right. left. unfold freshness_rules. do 3 right. by left. }
  unfold configured_deconfliction, newAirspaceProviders. change (cfg_AirspaceProviders cfg) with providers.
  rewrite named_providers_all by done. destruct (provider_named cfg <$> providers) as [|p rest] eqn:Hlist.
  { by apply fmap_nil_inv in Hlist. }
  rewrite <- Hlist. unfold newDeconflictionService, publication_lease.
  destruct (Z.ltb_spec (cfg_RequestTimeout cfg + 30 * Second) (2 ^ 63)) as [Hfits|Hlong].
  - rewrite wrap_int64_id by (unfold in_int64, Second in *; lia).
    rewrite (proj2 (Z.leb_gt _ _)) by (unfold Second; lia).
    rewrite omap_some, find_publisher_named by done.
    eexists. split; [by rewrite Hlist|]. unfold Publishing.PublishingEnabled, publishing.
    cbn [service_providers service_publicationLease service_publisher]. split_and!.
    + rewrite <- Hlist. apply providers_named.
    + done.
    + case_bool_decide; [|done]. cbn [PublicationEnabled interuss_publisher dssClient ussBaseURL interuss_of andb].
      by destruct (trim_slashes (cfg_USSBaseURL cfg) <>s "").
  - rewrite (proj2 (Z.leb_le _ _)); [done|]. unfold wrap_int64, in_int64, Second in *.
    pose proof (Z.mod_unique (cfg_RequestTimeout cfg + 30 * 1000000000 + 2 ^ 63) (2 ^ 64) 1
      (cfg_RequestTimeout cfg + 30 * 1000000000 - 2 ^ 63)). lia.
Qed.
End service.

Lemma configured_service_witness :
  ∃ s, configured_deconfliction (UL := one_url) (RT := reference_runtime) (LIB := reference_library) (U := reference_unions)
         (SL := reference_scd) (λ _ _, Ok tt) (full_config <| cfg_AirspaceProviders := ["local"; "interuss"] |>) = Ok s
    ∧ (provider_ID <$> service_providers s) = ["local"; "interuss_scd"] ∧ Publishing.PublishingEnabled s = true.
Proof.
  destruct (configured_service (RT := reference_runtime) (UL := one_url) (LIB := reference_library) (U := reference_unions)
    (SL := reference_scd) (λ _ _, Ok tt) full_config (full_config <| cfg_AirspaceProviders := ["local"; "interuss"] |>))
    as (s & Hs & Hids & _ & Hpublishing);
    [vm_compute; reflexivity|reflexivity|split; by vm_compute|].
  exists s. split_and!; [exact Hs|exact Hids|exact Hpublishing].
Defined.

(** ** Durations of the environment *)

(** C35: durations are written as numbers and units, or as milliseconds.  A
    count [n], 0 or more, of a unit is read as that many units when they fit into
    a duration and refused otherwise, so that every duration that is not negative
    is read back from its count of nanoseconds.  A count without a unit is
    refused from 2^63 on; below, it is read as milliseconds, modulo 2^64
    nanoseconds: as that many milliseconds when they fit, and else not refused
    but taken for another duration. *)
Theorem environment_durations n :
  0 ≤ n →
  (∀ unit u, unitMap unit = Some u →
     parseDuration (Itoa n +:+ unit)
     = if n * u <? 2 ^ 63 then Ok (n * u)
       else Err (invalid_duration (String.list_ascii_of_string (Itoa n +:+ unit))))
  ∧ (n < 2 ^ 63 → parseDuration (Itoa n +:+ "ns") = Ok n)
  ∧ (2 ^ 63 ≤ n → ∃ err, parseDuration (Itoa n) = Err err)
  ∧ (n < 2 ^ 63 → parseDuration (Itoa n) = Ok (wrap_int64 (n * Millisecond)))
  ∧ (parseDuration (Itoa n) = Ok (n * Millisecond) ↔ n * Millisecond < 2 ^ 63).
Proof.
  intros Hn. assert (∀ unit u, unitMap unit = Some u →
     parseDuration (Itoa n +:+ unit)
     = if n * u <? 2 ^ 63 then Ok (n * u)
       else Err (invalid_duration (String.list_ascii_of_string (Itoa n +:+ unit)))) as Hunits.
  { intros unit u Hu. unfold parseDuration. destruct (unit_bytes unit u Hu) as (c & l & Hl & Hc & _).
    rewrite Atoi_unit by (try lia; eauto). apply ParseDuration_unit; [lia|done]. }
  assert (2 ^ 63 ≤ n → ∃ err, parseDuration (Itoa n) = Err err) as Hlarge.
  { intros Hlarge. unfold parseDuration. rewrite Atoi_large by done. apply ParseDuration_numeral. lia. }
  assert (n < 2 ^ 63 → parseDuration (Itoa n) = Ok (wrap_int64 (n * Millisecond))) as Hsmall.
  { intros Hsmall. unfold parseDuration. by rewrite Atoi_Itoa. }
  split_and!; [done| |done|done|split].
  - intros Hfits. rewrite (Hunits "ns" 1 eq_refl), Z.mul_1_r. by rewrite (proj2 (Z.ltb_lt _ _)) by lia.
  - intros Heq. destruct (Z.lt_ge_cases n (2 ^ 63)) as [Hlt|Hge].
    + rewrite Hsmall in Heq by done. injection Heq as Heq. pose proof (wrap_int64_range (n * Millisecond)) as Hrange.
      rewrite Heq in Hrange. unfold in_int64 in Hrange. lia.
    + destruct (Hlarge Hge) as [err Herr]. by rewrite Herr in Heq.
  - intros Hfits. assert (n < 2 ^ 63) by (unfold Millisecond in *; lia). rewrite Hsmall by done.
    rewrite wrap_int64_id; [done|]. unfold in_int64, Millisecond in *. lia.
Qed.

(** Half a minute in milliseconds; and a number of them that is taken for less
    than a second. *)
Lemma environment_durations_witness :
  parseDuration "30000" = Ok (30 * Second) ∧ parseDuration "18446744073710" = Ok 448384.
Proof.
  destruct (environment_durations 30000) as (_ & _ & _ & H & _); [by vm_compute|].
  destruct (environment_durations 18446744073710) as (_ & _ & _ & H' & _); [by vm_compute|].
  split; [apply H; by vm_compute|apply H'; by vm_compute].
Defined.
