(* ===== verification/Process.v ===== *)
(** * The process

    src/cmd/aero-arc-api/main.go, run: the resources that are opened, the
    server and the worker that run with them, and the deferred calls that
    release them.  With it registry/client.go, relaycontrol/tls.go, the
    constructor of the authorizer in httpapi/uss_auth.go, the opening of the
    database in store/durable/postgres/store.go, and the loop of the worker in
    service/deconfliction/publication.go. *)

From S2P Require Import Prelude GoRuntime GoStrings GoRange Domain Errors GoTime Program DurableStore ProgramLogic Influx Airspace ScdMessages Geometry Deconfliction Publishing InterUSS InterUSSPublisher MissionDeployment HttpUss Config ConfigRules.
From stdpp Require Import options.

(** ** What the process calls *)

Inductive registry_client : Set := MemoryRegistry | GrpcRegistry.
Inductive durable_store : Set := MemoryDurable | PostgresDurable.

(** A client identity and the roots that it trusts, from TLS 1.2 on. *)
Record TransportCredentials : Set := mkTransportCredentials {
  tls_Roots : string;
  tls_CertFile : string;
  tls_KeyFile : string;
  tls_ServerName : string;
}.

(** A key that [crypto/x509] has read. *)
Inductive parsed_key {JWT : JwtLibrary} : Set :=
  | RsaKey (key : public_key)
  | OtherKey.

(** The parts of crypto/x509 and encoding/pem: certificates in PEM; the bytes of
    the first block; and the three forms of a public key. *)
Class CryptoLibrary {JWT : JwtLibrary} := {
  AppendCertsFromPEM : string → bool;
  pem_Decode : string → option string;
  ParsePKIXPublicKey : string → outcome parsed_key;
  ParsePKCS1PublicKey : string → outcome public_key;
  ParseCertificate : string → outcome parsed_key;
}.

Section process.
Context {JWT : JwtLibrary} {CRYPTO : CryptoLibrary}.
Context {LIB : Library} {U : Unions} {SL : ScdLibrary} {UL : UrlLibrary} {RT : Runtime}.

(** What the server is made of. *)
Record api_server := mkApiServer {
  api_deconfliction : DeconflictionService dssE;
  api_history : bool;
  api_relays : option (Duration * Duration);
  api_requestTimeout : Duration;
  api_deploymentTimeout : Duration;
  api_deploymentToken : string;
  api_authorizer : option USSJWTAuthorizer;
}.

Inductive processE : Type → Type :=
  | NotifyContext : processE unit
  | StopSignals : processE unit
  | DialRegistry (address : string) (dialTimeout : Duration) : processE (outcome unit)
  | CloseRegistry : processE (outcome unit)
  | NewPool (databaseURL : string) : processE (outcome unit)
  | PingPool : processE (outcome unit)
  | ExecSchema : processE (outcome unit)
  | ClosePool : processE unit
  | NewInfluxClient (host token database : string) : processE (outcome unit)
  | CloseInflux : processE (outcome unit)
  | SeedDemo (telemetry : telemetry_store) (registry : registry_client) : processE (outcome unit)
  | ReadFile (name : string) : processE (outcome string)
  | LoadX509KeyPair (certFile keyFile : string) : processE (outcome unit)
  | NewHistoryClient (address : string) (credentials : TransportCredentials) : processE (outcome unit)
  | CloseHistory : processE (outcome unit)
  | NewRelayPool (credentials : TransportCredentials) : processE unit
  | CloseRelays : processE (outcome unit)
  | WithCancel : processE unit
  | StopWorker : processE unit
  | Listen (addr : string) : processE (outcome unit)
  | CloseListener : processE (outcome unit)
  | GoServe (server : api_server) : processE unit
  | GoWork : processE unit
  | Select : processE (option error) (* the signal, or the error of the server *)
  | Shutdown (timeout : Duration) : processE (outcome unit).

Abbreviation process := (prog processE).

(** [defer release()] around the rest of the function. *)
Definition deferred {A B} (release : processE A) (body : process B) : process B :=
  let! result := body in
  let! _ := call release in
  Ret result.

(** ** Credentials and keys *)

Definition blank (value : string) : bool := TrimSpace value =s= "".

Definition LoadTransportCredentials (caFile certFile keyFile serverName : string)
    : process (outcome TransportCredentials) :=
  if blank caFile || blank certFile || blank keyFile || blank serverName
  then Ret (Err (plain "relay CA, client certificate, client key, and server name are required"))
  else
    try! caPEM := call (ReadFile caFile) orelse wrap "read relay CA" in
    if negb (AppendCertsFromPEM caPEM) then Ret (Err (plain "relay CA file contains no valid certificates"))
    else
      try! _ := call (LoadX509KeyPair certFile keyFile) orelse wrap "load relay client identity" in
      Ret (Ok (mkTransportCredentials caPEM certFile keyFile serverName)).

(** A key in one of three forms; the error is that of the first. *)
Definition parse_public_key (block : string) : outcome parsed_key :=
  match ParsePKIXPublicKey block with
  | Ok parsed => Ok parsed
  | Err err =>
      match ParsePKCS1PublicKey block with
      | Ok key => Ok (RsaKey key)
      | Err _ =>
          match ParseCertificate block with
          | Ok parsed => Ok parsed
          | Err _ => Err (wrap "parse USS JWT public key" err)
          end
      end
  end.

Definition NewUSSJWTAuthorizer (publicKeyFile issuer audience : string) : process (outcome USSJWTAuthorizer) :=
  try! raw := call (ReadFile publicKeyFile) orelse wrap "read USS JWT public key" in
  match pem_Decode raw with
  | None => Ret (Err (plain "USS JWT public key is not PEM"))
  | Some block =>
      match parse_public_key block with
      | Err err => Ret (Err err)
      | Ok OtherKey => Ret (Err (plain "USS JWT public key must be RSA"))
      | Ok (RsaKey key) => Ret (Ok (mkUSSJWTAuthorizer key issuer audience))
      end
  end.

(** ** Clients and stores *)

Definition NewGRPCClient (address : string) (dialTimeout : Duration) : process (outcome registry_client) :=
  try! _ := call (DialRegistry address dialTimeout) orelse wrap "dial registry" in
  Ret (Ok GrpcRegistry).

Definition registry_New (mode address : string) (dialTimeout : Duration) : process (outcome registry_client) :=
  if mode =s= "memory" then Ret (Ok MemoryRegistry)
  else if mode =s= "grpc" then NewGRPCClient address dialTimeout
  else Ret (Err (plain ("unsupported registry mode " +:+ quote mode))).

Definition with_registry {B} (registry : registry_client) (body : process B) : process B :=
  match registry with MemoryRegistry => body | GrpcRegistry => deferred CloseRegistry body end.

(** [Open] of the PostgreSQL store; a pool that does not answer is closed. *)
Definition Open (databaseURL : string) : process (outcome durable_store) :=
  if blank databaseURL then Ret (Err (plain "PostgreSQL database URL is required"))
  else
    let closed context err := let! _ := call ClosePool in Ret (Err (wrap context err)) in
    try! _ := call (NewPool databaseURL) orelse wrap "configure PostgreSQL pool" in
    let! pinged := call PingPool in
    match pinged with
    | Err err => closed "connect to PostgreSQL" err
    | Ok _ =>
        let! applied := call ExecSchema in
        match applied with
        | Err err => closed "apply PostgreSQL/PostGIS schema" err
        | Ok _ => Ret (Ok PostgresDurable)
        end
    end.

Definition newDurableStore (cfg : Config) : process (outcome durable_store) :=
  if cfg_DurableStore cfg =s= DurableStoreMemory then Ret (Ok MemoryDurable)
  else if cfg_DurableStore cfg =s= DurableStorePostgres then Open (cfg_DatabaseURL cfg)
  else Ret (Err (plain ("unsupported durable store " +:+ quote (cfg_DurableStore cfg)))).

Definition with_store {B} (store : durable_store) (body : process B) : process B :=
  match store with MemoryDurable => body | PostgresDurable => deferred ClosePool body end.

(** The client of InfluxDB is made when it is configured with a look-back. *)
Definition open_telemetry (cfg : Config) : process (outcome telemetry_store) :=
  if (cfg_TelemetryStore cfg =s= "influxdb") && (0 <? cfg_TelemetryLatestLookback cfg) then
    let! client := call (NewInfluxClient (cfg_InfluxDBHost cfg) (cfg_InfluxDBToken cfg) (cfg_InfluxDBDatabase cfg)) in
    Ret (newTelemetryStore (λ _ _ _, client) cfg)
  else Ret (newTelemetryStore (λ _ _ _, Ok tt) cfg).

Definition with_telemetry {B} (telemetry : telemetry_store) (body : process B) : process B :=
  match telemetry with MemoryTelemetry => body | InfluxTelemetry _ => deferred CloseInflux body end.

(** [relaycontrol.New] *)
Definition defaultTimeout : Duration := 5 * Second.

Definition relay_New (timeout placementTTL : Duration) : Duration * Duration :=
  (if timeout <=? 0 then defaultTimeout else timeout, if placementTTL <=? 0 then 30 * Second else placementTTL).

(** ** The run *)

Context (NewClient : string → TokenSource → outcome unit).

(** The client of the conformance history, for an address that is not empty. *)
Definition with_history (cfg : Config) (body : bool → process (outcome unit)) : process (outcome unit) :=
  if cfg_ConformanceAddress cfg =s= "" then body false
  else
    try! credentials := LoadTransportCredentials (cfg_ConformanceCAFile cfg) (cfg_ConformanceCertFile cfg)
        (cfg_ConformanceKeyFile cfg) (cfg_ConformanceServerName cfg)
      orelse wrap "conformance history TLS" in
    try! _ := call (NewHistoryClient (cfg_ConformanceAddress cfg) credentials)
      orelse wrap "conformance history client" in
    deferred CloseHistory (body true).

(** The control of the relays, when it is configured. *)
Definition with_relays (cfg : Config) (body : option (Duration * Duration) → process (outcome unit))
    : process (outcome unit) :=
  if negb (RelayControlEnabled cfg) then body None
  else
    try! credentials := LoadTransportCredentials (cfg_RelayControlCAFile cfg) (cfg_RelayControlCertFile cfg)
        (cfg_RelayControlKeyFile cfg) (cfg_RelayControlServerName cfg)
      orelse id in
    let! _ := call (NewRelayPool credentials) in
    deferred CloseRelays (body (Some (relay_New (cfg_RelayControlTimeout cfg) (cfg_RelayPlacementTTL cfg)))).

(** From the listener on, until the signal or the end of the server. *)
Definition serve (cfg : Config) (server : api_server) : process (outcome unit) :=
  try! _ := call (Listen (cfg_Addr cfg)) orelse wrap ("listen on " +:+ cfg_Addr cfg) in
  deferred CloseListener (
    let! _ := call (GoServe server) in
    let! _ := (if Publishing.PublishingEnabled (api_deconfliction server) then call GoWork else Ret tt) in
    let! ended := call Select in
    match ended with
    | Some err => Ret (Err err)
    | None => let! _ := call (Shutdown (10 * Second)) in Ret (Ok tt)
    end).

(** The workflows over the stores: the deconfliction service, the context of its
    worker, and the server with the authorizer of peers. *)
Definition with_workflows (cfg : Config) (providers : list (Provider (externalE := dssE) * option (Publisher (externalE := dssE))))
    (history : bool) (relays : option (Duration * Duration)) : process (outcome unit) :=
  match newDeconflictionService (publication_lease cfg) (map Some providers) with
  | Err err => Ret (Err err)
  | Ok deconfliction =>
      let! _ := call WithCancel in
      deferred StopWorker (
        let server authorizer := mkApiServer deconfliction history relays (cfg_RequestTimeout cfg)
          (missionDeploymentRequestTimeout (cfg_RelayControlTimeout cfg)) (cfg_MissionDeploymentToken cfg) authorizer in
        if Publishing.PublishingEnabled deconfliction then
          try! authorizer := NewUSSJWTAuthorizer (cfg_USSJWTPublicKeyFile cfg) (cfg_USSJWTIssuer cfg)
            (cfg_USSJWTAudience cfg) orelse id in
          serve cfg (server (Some authorizer))
        else serve cfg (server None))
  end.

Definition seed_process (cfg : Config) (telemetry : telemetry_store) (registry : registry_client)
    : process (outcome unit) :=
  if cfg_Seed cfg =s= "demo" then call (SeedDemo telemetry registry) else Ret (Ok tt).

(** With the stores: the fixtures, the clients of the views, and the workflows. *)
Definition with_views (cfg : Config) (providers : list (Provider (externalE := dssE) * option (Publisher (externalE := dssE))))
    (telemetry : telemetry_store) (registry : registry_client) : process (outcome unit) :=
  match newReplayStore (cfg_ReplayStore cfg) with
  | Err err => Ret (Err err)
  | Ok _ =>
      try! _ := seed_process cfg telemetry registry orelse id in
      with_history cfg (λ history, with_relays cfg (λ relays, with_workflows cfg providers history relays))
  end.

Definition with_providers (cfg : Config) (registry : registry_client) : process (outcome unit) :=
  match newAirspaceProviders NewClient cfg with
  | Err err => Ret (Err err)
  | Ok providers =>
      try! telemetry := open_telemetry cfg orelse id in
      with_telemetry telemetry (with_views cfg providers telemetry registry)
  end.

Definition run (cfg : Config) : process (outcome unit) :=
  let! _ := call NotifyContext in
  deferred StopSignals (
    try! registry := registry_New (cfg_RegistryMode cfg) (cfg_RegistryAddress cfg) (cfg_RegistryDialTimeout cfg)
      orelse id in
    with_registry registry (
      try! store := newDurableStore cfg orelse id in
      with_store store (with_providers cfg registry))).
End process.

(** ** The worker

    [RunPublicationWorker] reconciles what is due, then waits for the end of its
    context or the next tick of a second; it is given the number of ticks before
    the end.  The errors are logged. *)
Section worker.
Context {RT : Runtime} {LIB : Library} {externalE : Type → Type}.

Fixpoint RunPublicationWorker (s : DeconflictionService externalE) (ticks : nat) : prog (apiE externalE) unit :=
  let! _ := ReconcileDue s in
  match ticks with
  | O => Ret tt
  | S ticks => RunPublicationWorker s ticks
  end.
End worker.

(** * What the process opens, it closes

    The resources of the process are a stack: each is closed while it is the
    one opened last, on every path, and the server is started once, over
    everything that it needs. *)

Inductive resource : Set := Signals | Registry | Pool | Influx | History | Relays | Worker | Listener.

(** The order in which they are opened. *)
Definition rank (r : resource) : nat :=
  match r with
  | Signals => 0 | Registry => 1 | Pool => 2 | Influx => 3 | History => 4 | Relays => 5 | Worker => 6 | Listener => 7
  end.

#[export] Instance resource_eq_dec : EqDecision resource.
Proof. solve_decision. Defined.

Section resources.
Context {JWT : JwtLibrary} {CRYPTO : CryptoLibrary}.
Context {LIB : Library} {U : Unions} {SL : ScdLibrary} {UL : UrlLibrary} {RT : Runtime}.
Abbreviation history := (list (event processE)).
Abbreviation process := (prog processE).

Definition opens {X} (e : processE X) : option resource :=
  match e with
  | NotifyContext => Some Signals
  | DialRegistry _ _ => Some Registry
  | NewPool _ => Some Pool
  | NewInfluxClient _ _ _ => Some Influx
  | NewHistoryClient _ _ => Some History
  | NewRelayPool _ => Some Relays
  | WithCancel => Some Worker
  | Listen _ => Some Listener
  | _ => None
  end.

Definition closes {X} (e : processE X) : option resource :=
  match e with
  | StopSignals => Some Signals
  | CloseRegistry => Some Registry
  | ClosePool => Some Pool
  | CloseInflux => Some Influx
  | CloseHistory => Some History
  | CloseRelays => Some Relays
  | StopWorker => Some Worker
  | CloseListener => Some Listener
  | _ => None
  end.

(** What a call needs to be the last one opened. *)
Definition needs {X} (e : processE X) : option resource :=
  match e with
  | PingPool | ExecSchema => Some Pool
  | GoServe _ | GoWork | Select | Shutdown _ => Some Listener
  | _ => closes e
  end.

(** The reply to a call that opens says whether it did. *)
Definition succeeded {X} (e : processE X) : X → bool :=
  match e in processE X return X → bool with
  | DialRegistry _ _ | NewPool _ | NewInfluxClient _ _ _ | NewHistoryClient _ _ | Listen _ => is_ok
  | _ => λ _, true
  end.

Definition signal {X} (e : processE X) : X → bool :=
  match e in processE X return X → bool with
  | Select => λ ended, match ended with None => true | Some _ => false end
  | _ => λ _, false
  end.

Fixpoint held (h : history) : list resource :=
  match h with
  | [] => []
  | Event e x :: h =>
      match opens e with
      | Some r => if succeeded e x then r :: held h else held h
      | None => match closes e with Some _ => tail (held h) | None => held h end
      end
  end.

Fixpoint serving (h : history) : bool :=
  match h with [] => false | Event e _ :: h => match e with GoServe _ => true | _ => serving h end end.

(** The server was ended by a signal, and not by an error of its own. *)
Fixpoint signalled (h : history) : bool :=
  match h with [] => false | Event e x :: h => signal e x || signalled h end.

(** The server has the authorizer of peers exactly when intents are published,
    and the clients of what is open. *)
Definition equipped (server : api_server) (open : list resource) : Prop :=
  bool_decide (is_Some (api_authorizer server)) = Publishing.PublishingEnabled (api_deconfliction server)
  ∧ api_history server = bool_decide (History ∈ open)
  ∧ bool_decide (is_Some (api_relays server)) = bool_decide (Relays ∈ open).

Definition orderly (h : history) X (e : processE X) : Prop :=
  (∀ r, opens e = Some r → Forall (λ r', (rank r' < rank r)%nat) (held h) ∧ serving h = false)
  ∧ (∀ r, needs e = Some r → head (held h) = Some r)
  ∧ match e with
    | GoServe server => serving h = false ∧ equipped server (held h)
    | GoWork | Select => serving h = true
    | Shutdown _ => signalled h = true
    | _ => True
    end.

(** Before the server is started: what is open. *)
Definition ready (k : nat) (stack : list resource) (h : history) : Prop :=
  held h = stack ∧ Forall (λ r, (rank r < k)%nat) stack ∧ serving h = false ∧ signalled h = false.

(** After a part of the function: what it opened is closed. *)
Definition done_with (stack : list resource) (h : history) (result : outcome unit) : Prop :=
  held h = stack ∧ (result = Ok tt ↔ signalled h = true).

Lemma ready_more k k' stack h : ready k stack h → (k ≤ k')%nat → ready k' stack h.
Proof using Type.
  intros (? & Hstack & ?) Hk. split_and!; [done| |naive_solver..]. eapply Forall_impl; [exact Hstack|]. cbn. lia.
Qed.

Lemma ready_failed k stack h err : ready k stack h → done_with stack h (Err err).
Proof using Type. intros (? & _ & _ & Hsignal). split; [done|]. rewrite Hsignal. naive_solver. Qed.

Lemma ready_below k stack h r : ready k stack h → (k ≤ rank r)%nat →
  Forall (λ r', (rank r' < rank r)%nat) (held h) ∧ serving h = false.
Proof using Type.
  intros (<- & Hstack & ? & _) Hk. split; [|done]. eapply Forall_impl; [exact Hstack|]. cbn. lia.
Qed.

(** A call that opens. *)
Lemma wp_opens {X A} k stack h (e : processE X) r (body : X → process A) Q :
  ready k stack h → opens e = Some r → (k ≤ rank r)%nat →
  (∀ h x, ready (if succeeded e x then S (rank r) else k) (if succeeded e x then r :: stack else stack) h →
     wp orderly h (body x) Q) →
  wp orderly h (prog_bind (call e) body) Q.
Proof using Type.
  intros Hready He Hk Hbody. apply wp_call.
  - pose proof (ready_below _ _ _ _ Hready Hk) as [? ?]. destruct e; try discriminate He; injection He as <-;
      (split; [intros ? [= <-]; done|split; [intros ? ?; discriminate|done]]).
  - intros x. apply Hbody. destruct Hready as (Hheld & Hstack & Hserving & Hsignal).
    assert (Forall (λ r', (rank r' < S (rank r))%nat) stack) by (eapply Forall_impl; [exact Hstack|cbn; lia]).
    split_and!; cbn [held serving signalled].
    + rewrite He, Hheld. by destruct (succeeded e x).
    + destruct (succeeded e x); [|done]. by constructor; [lia|].
    + by destruct e.
    + destruct e; try discriminate He; done.
Qed.

(** A call that neither opens nor closes. *)
Definition plain_call {X} (stack : list resource) (e : processE X) : Prop :=
  match e with
  | SeedDemo _ _ | ReadFile _ | LoadX509KeyPair _ _ => True
  | PingPool | ExecSchema => head stack = Some Pool
  | _ => False
  end.

Lemma wp_plain {X A} k stack h (e : processE X) (body : X → process A) Q :
  ready k stack h → plain_call stack e → (∀ h x, ready k stack h → wp orderly h (body x) Q) →
  wp orderly h (prog_bind (call e) body) Q.
Proof using Type.
  intros (Hheld & ? & ? & ?) He Hbody. apply wp_call.
  - destruct e; try done; (split; [intros ? ?; discriminate|split; [intros ? [= <-]; by rewrite Hheld|done]]).
  - intros x. apply Hbody. destruct e; done.
Qed.

(** A deferred call closes what was opened. *)
Lemma wp_deferred {X} stack h (release : processE X) r (body : process (outcome unit)) :
  closes release = Some r → wp orderly h body (done_with (r :: stack)) →
  wp orderly h (deferred release body) (done_with stack).
Proof using Type.
  intros Hr Hbody. unfold deferred. apply wp_bind. eapply wp_mono; [|exact Hbody].
  intros h' result (Hheld & Hresult). apply wp_call.
  - destruct release; try discriminate Hr; injection Hr as <-;
      (split; [intros ? ?; discriminate|split; [intros ? [= <-]; by rewrite Hheld|done]]).
  - intros x. apply wp_ret. destruct release; try discriminate Hr; injection Hr as <-;
      (split; [cbn; by rewrite Hheld|exact Hresult]).
Qed.

(** ** The parts *)

Lemma LoadTransportCredentials_ready k stack h caFile certFile keyFile serverName :
  ready k stack h →
  wp orderly h (LoadTransportCredentials caFile certFile keyFile serverName) (λ h' _, ready k stack h').
Proof using Type.
  intros Hready. unfold LoadTransportCredentials. case_match; [done|].
  apply (wp_plain k stack); [done..|]. intros h1 [caPEM|err] Hready1; [|done]. case_match; [done|].
  apply (wp_plain k stack); [done..|]. by intros h2 [[]|err] Hready2.
Qed.

Lemma NewUSSJWTAuthorizer_ready k stack h file issuer audience :
  ready k stack h → wp orderly h (NewUSSJWTAuthorizer file issuer audience) (λ h' _, ready k stack h').
Proof using Type.
  intros Hready. unfold NewUSSJWTAuthorizer. apply (wp_plain k stack); [done..|].
  intros h1 [raw|err] Hready1; [|done]. destruct (pem_Decode raw) as [block|]; [|done].
  by destruct (parse_public_key block) as [[]|].
Qed.

(** A part that failed has released what it opened. *)
Lemma failed_part {A} k stack h (part : process (outcome A)) (f : error → error)
    (rest : A → process (outcome unit)) (opened : A → option resource) :
  (∀ a r, opened a = Some r → (rank r = k)%nat) →
  wp orderly h part (λ h' result,
    match result with
    | Ok a => match opened a with Some r => ready (S k) (r :: stack) h' | None => ready k stack h' end
    | Err _ => ready k stack h'
    end) →
  (∀ h' a, ready (S k) (match opened a with Some r => r :: stack | None => stack end) h' →
     wp orderly h' (rest a) (done_with stack)) →
  wp orderly h (try! a := part orelse f in rest a) (done_with stack).
Proof using Type.
  intros Hrank Hpart Hrest. apply wp_bind. eapply wp_mono; [|exact Hpart]. intros h' [a|err] Hready.
  - apply Hrest. destruct (opened a); [done|]. eapply ready_more; [done|lia].
  - by eapply ready_failed.
Qed.

Definition registry_opened (client : registry_client) : option resource :=
  match client with MemoryRegistry => None | GrpcRegistry => Some Registry end.
Definition store_opened (store : durable_store) : option resource :=
  match store with MemoryDurable => None | PostgresDurable => Some Pool end.
Definition telemetry_opened (telemetry : telemetry_store) : option resource :=
  match telemetry with MemoryTelemetry => None | InfluxTelemetry _ => Some Influx end.

Lemma registry_New_ready stack h mode address dialTimeout :
  ready 1 stack h →
  wp orderly h (registry_New mode address dialTimeout) (λ h' result,
    match result with
    | Ok a => match registry_opened a with Some r => ready 2 (r :: stack) h' | None => ready 1 stack h' end
    | Err _ => ready 1 stack h'
    end).
Proof using Type.
  intros Hready. unfold registry_New, NewGRPCClient. case_match; [done|]. case_match; [|done].
  apply (wp_opens 1 stack h _ Registry); [done..|]. by intros h1 [[]|err] Hready1.
Qed.

Lemma closed_ready stack h context err :
  ready 3 (Pool :: stack) h → Forall (λ r, (rank r < 2)%nat) stack →
  wp orderly h (let! _ := call ClosePool in Ret (Err (wrap context err) : outcome durable_store)) (λ h' result,
    match result with
    | Ok a => match store_opened a with Some r => ready 3 (r :: stack) h' | None => ready 2 stack h' end
    | Err _ => ready 2 stack h'
    end).
Proof using Type.
  intros (Hheld & Hstack & Hserving & Hsignal) Hbelow. apply wp_call.
  - split; [intros ? ?; discriminate|split; [intros ? [= <-]; by rewrite Hheld|done]].
  - intros x. apply wp_ret. split_and!; [cbn; by rewrite Hheld|done..].
Qed.

Lemma newDurableStore_ready stack h cfg :
  ready 2 stack h →
  wp orderly h (newDurableStore cfg) (λ h' result,
    match result with
    | Ok a => match store_opened a with Some r => ready 3 (r :: stack) h' | None => ready 2 stack h' end
    | Err _ => ready 2 stack h'
    end).
Proof using Type.
  intros Hready. unfold newDurableStore, Open. repeat (case_match; [done|]). case_match; [|done].
  destruct (blank _); [done|]. pose proof Hready as (_ & Hbelow & _).
  apply (wp_opens 2 stack h _ Pool); [done..|]. intros h1 [[]|err] Hready1; [|done]. cbn [succeeded is_ok] in Hready1.
  apply (wp_plain 3 (Pool :: stack)); [done..|]. intros h2 [[]|err] Hready2; [|by apply closed_ready].
  apply (wp_plain 3 (Pool :: stack)); [done..|]. intros h3 [[]|err] Hready3; [done|by apply closed_ready].
Qed.

Lemma open_telemetry_ready stack h cfg :
  ready 3 stack h →
  wp orderly h (open_telemetry cfg) (λ h' result,
    match result with
    | Ok a => match telemetry_opened a with Some r => ready 4 (r :: stack) h' | None => ready 3 stack h' end
    | Err _ => ready 3 stack h'
    end).
Proof using Type.
  intros Hready. unfold open_telemetry, newTelemetryStore, New_influx.
  destruct (String.eqb_spec (cfg_TelemetryStore cfg) "influxdb") as [Hinflux|Hother]; cbn [andb].
  - rewrite Hinflux. change ("influxdb" =s= "memory") with false. cbn iota.
    destruct (Z.ltb_spec 0 (cfg_TelemetryLatestLookback cfg)) as [Hpos|Hneg].
    + rewrite (proj2 (Z.leb_gt _ _)) by lia. apply (wp_opens 3 stack h _ Influx); [done..|].
      by intros h1 [[]|err] Hready1.
    + by rewrite (proj2 (Z.leb_le _ _)) by lia.
  - by case_match.
Qed.

(** ** The function *)

Section parts.
Context (NewClient : string → TokenSource → outcome unit).

Lemma serve_orderly stack h cfg server :
  ready 7 stack h → equipped server stack → wp orderly h (serve cfg server) (done_with stack).
Proof using Type.
  intros Hready (Hauthorizer & Hhistory & Hrelays). unfold serve.
  apply (wp_opens 7 stack h _ Listener); [done..|]. intros h1 [[]|err] Hready1; [|by eapply ready_failed].
  cbn [succeeded is_ok] in Hready1. apply (wp_deferred _ _ _ Listener); [done|].
  destruct Hready1 as (Hheld & _ & Hserving & Hsignal). apply wp_call.
  { split; [intros ? ?; discriminate|split; [intros ? [= <-]; by rewrite Hheld|]]. split; [done|].
    rewrite Hheld. split_and!; [done|..].
    - rewrite Hhistory. apply bool_decide_ext. set_solver.
    - rewrite Hrelays. apply bool_decide_ext. set_solver. }
  intros []. apply wp_bind.
  assert (∀ h2, held h2 = Listener :: stack → serving h2 = true → signalled h2 = false →
    wp orderly h2 (let! ended := call Select in
      match ended with
      | Some err => Ret (Err err)
      | None => let! _ := call (Shutdown (10 * Second)) in Ret (Ok tt)
      end) (done_with (Listener :: stack))) as Hselect.
  { intros h2 Hheld2 Hserving2 Hsignal2. apply wp_call.
    { split; [intros ? ?; discriminate|split; [intros ? [= <-]; by rewrite Hheld2|done]]. }
    intros [err|]; [apply wp_ret; split; [done|]; cbn; rewrite Hsignal2; naive_solver|].
    apply wp_call; [split; [intros ? ?; discriminate|split; [intros ? [= <-]; cbn; by rewrite Hheld2|done]]|].
    intros x. apply wp_ret. by split. }
  case_match; [apply wp_call; [split; [intros ? ?; discriminate|split; [intros ? [= <-]; cbn; by rewrite Hheld|done]]|intros []]|];
    apply wp_ret; by apply Hselect.
Qed.

Lemma with_workflows_orderly stack h cfg providers history relays :
  ready 6 stack h → history = bool_decide (History ∈ stack) → bool_decide (is_Some relays) = bool_decide (Relays ∈ stack) →
  wp orderly h (with_workflows cfg providers history relays) (done_with stack).
Proof using Type.
  intros Hready Hhistory Hrelays. unfold with_workflows.
  destruct (newDeconflictionService _ _) as [deconfliction|err]; [|by eapply ready_failed].
  apply (wp_opens 6 stack h _ Worker); [done..|]. intros h1 [] Hready1. cbn [succeeded] in Hready1.
  apply (wp_deferred _ _ _ Worker); [done|]. cbv zeta.
  assert (∀ authorizer, bool_decide (is_Some authorizer) = Publishing.PublishingEnabled deconfliction →
    equipped (mkApiServer deconfliction history relays (cfg_RequestTimeout cfg)
          (missionDeploymentRequestTimeout (cfg_RelayControlTimeout cfg)) (cfg_MissionDeploymentToken cfg) authorizer)
      (Worker :: stack)) as Hequipped.
  { intros authorizer Hauthorizer. split_and!; cbn; [done|..].
    - rewrite Hhistory. apply bool_decide_ext. set_solver.
    - rewrite Hrelays. apply bool_decide_ext. set_solver. }
  destruct (Publishing.PublishingEnabled deconfliction) eqn:Hpublishing; [|by apply serve_orderly, Hequipped].
  apply wp_bind. eapply wp_mono; [|by apply NewUSSJWTAuthorizer_ready]. intros h2 [authorizer|err] Hready2.
  - by apply serve_orderly, Hequipped.
  - by eapply ready_failed.
Qed.

(** Nothing is open yet that comes later. *)
Lemma not_yet k stack h r : ready k stack h → (k ≤ rank r)%nat → bool_decide (r ∈ stack) = false.
Proof using Type.
  intros (_ & Hstack & _) Hk. apply bool_decide_eq_false. intros Hin. rewrite Forall_forall in Hstack.
  apply Hstack in Hin. lia.
Qed.

Lemma with_relays_orderly stack h cfg body :
  ready 5 stack h →
  (∀ h' open relays, ready 6 (open ++ stack) h' → bool_decide (is_Some relays) = bool_decide (Relays ∈ open ++ stack) →
     open ⊆ [Relays] → wp orderly h' (body relays) (done_with (open ++ stack))) →
  wp orderly h (with_relays cfg body) (done_with stack).
Proof using Type.
  intros Hready Hbody. unfold with_relays. destruct (RelayControlEnabled cfg); cbn [negb].
  - apply wp_bind. eapply wp_mono; [|by apply LoadTransportCredentials_ready].
    intros h1 [credentials|err] Hready1; [|by eapply ready_failed].
    apply (wp_opens 5 stack h1 _ Relays); [done..|]. intros h2 [] Hready2. cbn [succeeded] in Hready2.
    apply (wp_deferred _ _ _ Relays); [done|]. apply (Hbody _ [Relays]); [done| |done].
    rewrite !bool_decide_true; [done|by left|by eexists].
  - apply (Hbody h [] None); [eapply ready_more; [done|lia]| |set_solver].
    by rewrite (not_yet 5 stack h) by (done || cbn; lia).
Qed.

Lemma with_history_orderly stack h cfg body :
  ready 4 stack h →
  (∀ h' open, ready 5 (open ++ stack) h' → open ⊆ [History] →
     wp orderly h' (body (bool_decide (History ∈ open ++ stack))) (done_with (open ++ stack))) →
  wp orderly h (with_history cfg body) (done_with stack).
Proof using Type.
  intros Hready Hbody. unfold with_history. destruct (cfg_ConformanceAddress cfg =s= "").
  - rewrite <- (not_yet 4 stack h History) by (done || cbn; lia).
    apply (Hbody h []); [eapply ready_more; [done|lia]|set_solver].
  - apply wp_bind. eapply wp_mono; [|by apply LoadTransportCredentials_ready].
    intros h1 [credentials|err] Hready1; [|by eapply ready_failed].
    apply (wp_opens 4 stack h1 _ History); [done..|]. intros h2 [[]|err] Hready2; [|by eapply ready_failed].
    apply (wp_deferred _ _ _ History); [done|]. cbn [succeeded is_ok] in Hready2.
    specialize (Hbody h2 [History] Hready2 ltac:(done)). cbn [app] in Hbody. by rewrite bool_decide_true in Hbody by by left.
Qed.

Lemma with_views_orderly stack h cfg providers telemetry registry :
  ready 4 stack h → wp orderly h (with_views cfg providers telemetry registry) (done_with stack).
Proof using Type.
  intros Hready. unfold with_views. destruct (newReplayStore _); [|by eapply ready_failed].
  apply wp_bind. eapply (wp_mono _ _ _ (λ h' _, ready 4 stack h')).
  - intros h1 [[]|err] Hready1; [|by eapply ready_failed].
    apply with_history_orderly; [done|]. intros h2 open Hready2 Hopen.
    apply with_relays_orderly; [done|]. intros h3 open' relays Hready3 Hrelays Hopen'.
    apply with_workflows_orderly; [done| |done]. apply bool_decide_ext. set_solver.
  - unfold seed_process. case_match; [|done]. apply (wp_plain 4 stack); [done..|]. by intros h1 x Hready1.
Qed.

Lemma with_providers_orderly stack h cfg registry :
  ready 3 stack h → wp orderly h (with_providers NewClient cfg registry) (done_with stack).
Proof using Type.
  intros Hready. unfold with_providers. destruct (newAirspaceProviders _ _); [|by eapply ready_failed].
  apply (failed_part 3 _ _ _ _ _ telemetry_opened); [by intros [] ? [= <-]|by apply open_telemetry_ready|].
  intros h1 [|lookback] Hready1; [by apply with_views_orderly|].
  apply (wp_deferred _ _ _ Influx); [done|]. by apply with_views_orderly.
Qed.

Lemma with_store_orderly stack h cfg registry :
  ready 2 stack h →
  wp orderly h (try! store := newDurableStore cfg orelse id in with_store store (with_providers NewClient cfg registry)) (done_with stack).
Proof using Type.
  intros Hready. apply (failed_part 2 _ _ _ _ _ store_opened); [by intros [] ? [= <-]|by apply newDurableStore_ready|].
  intros h1 [] Hready1; [by apply with_providers_orderly|].
  apply (wp_deferred _ _ _ Pool); [done|]. by apply with_providers_orderly.
Qed.

(** C33: the process releases everything it opened.  Whatever the
    configuration and the replies are: a resource is opened over resources that
    come before it in the order of the process, and closed or used (the pool, the
    listener) while it is the one opened last; the server is started at most once, over its listener, with the
    authorizer of peers exactly when intents are published and with the clients
    of the history and of the relays exactly when they are open; nothing is
    opened from then on; and it is shut down after a signal only.  When the
    process ends, nothing is open, and it has succeeded exactly if it was ended
    by a signal. *)
Theorem process_releases cfg : wp orderly [] (run NewClient cfg) (done_with []).
Proof using Type.
  unfold run. assert (ready 0 [] []) as Hstart by by split_and!.
  apply (wp_opens 0 [] [] _ Signals); [done..|]. intros h1 [] Hready1. cbn [succeeded] in Hready1.
  apply (wp_deferred _ _ _ Signals); [done|].
  apply (failed_part 1 _ _ _ _ _ registry_opened); [by intros [] ? [= <-]|by apply registry_New_ready|].
  intros h2 [] Hready2; [by apply with_store_orderly|].
  apply (wp_deferred _ _ _ Registry); [done|]. by apply with_store_orderly.
Qed.
End parts.
End resources.

(** * A valid configuration is served

    When the calls outside the program do what they are asked, and the files
    hold what they should, the process reaches the server. *)

Section validated.
Context {JWT : JwtLibrary} {CRYPTO : CryptoLibrary}.
Context {LIB : Library} {U : Unions} {SL : ScdLibrary} {UL : UrlLibrary} {RT : Runtime}.
Context (NewClient : string → TokenSource → outcome unit) (cfg : Config).
Abbreviation history := (list (event processE)).
Abbreviation process := (prog processE).

(** A file of certificates has one, and the file of the key an RSA key. *)
Definition usable (name content : string) : bool :=
  (negb ((name =s= cfg_ConformanceCAFile cfg) || (name =s= cfg_RelayControlCAFile cfg)) || AppendCertsFromPEM content)
  && ((name <>s cfg_USSJWTPublicKeyFile cfg)
      || match pem_Decode content with
         | Some block => match parse_public_key block with Ok (RsaKey _) => true | _ => false end
         | None => false
         end).

(** A reply that is as it should be. *)
Definition well (v : event processE) : bool :=
  match v with
  | Event e x =>
      match e in processE X return X → bool with
      | DialRegistry _ _ | NewPool _ | PingPool | ExecSchema | NewInfluxClient _ _ _ | SeedDemo _ _
      | LoadX509KeyPair _ _ | NewHistoryClient _ _ | Listen _ => is_ok
      | ReadFile name => λ read, match read with Ok content => usable name content | Err _ => false end
      | _ => λ _, true
      end x
  end.

(** The server that was started. *)
Fixpoint served (h : history) : option api_server :=
  match h with [] => None | Event e _ :: h => match e with GoServe server => Some server | _ => served h end end.

Definition serves (h : history) (result : outcome unit) : Prop :=
  ∃ server, served h = Some server
    ∧ configured_deconfliction NewClient cfg = Ok (api_deconfliction server)
    ∧ api_history server = (cfg_ConformanceAddress cfg <>s "")
    ∧ bool_decide (is_Some (api_relays server)) = RelayControlEnabled cfg
    ∧ bool_decide (is_Some (api_authorizer server)) = Publishing.PublishingEnabled (api_deconfliction server)
    ∧ (result = Ok tt ∨ ∃ err, Event Select (Some err) ∈ h ∧ result = Err err).

(** If every reply so far was as it should be, [Q]. *)
Definition if_well {A} (Q : history → A → Prop) (h : history) (a : A) : Prop := forallb well h = true → Q h a.

Lemma wp_unwell {A} h (p : process A) Q : forallb well h = false → wp any_call h p (if_well Q).
Proof using Type.
  revert h. induction p as [a|X e k IH]; intros h Hh; [by intros Hwell; rewrite Hh in Hwell|].
  split; [done|]. intros x. apply IH. change (well (Event e x) && forallb well h = false). by rewrite Hh, andb_false_r.
Qed.

Lemma wp_well {X A} h (e : processE X) (k : X → process A) Q :
  (∀ x, well (Event e x) = true → wp any_call (Event e x :: h) (k x) (if_well Q)) →
  wp any_call h (prog_bind (call e) k) (if_well Q).
Proof using Type.
  intros Hk. split; [done|]. intros x. destruct (well (Event e x)) eqn:Hwell; [by apply Hk|].
  apply wp_unwell. cbn [forallb]. by rewrite Hwell.
Qed.

Lemma wp_well_bind {A B} h (p : process A) (f : A → process B) P Q :
  wp any_call h p (if_well P) → (∀ h a, P h a → wp any_call h (f a) (if_well Q)) →
  wp any_call h (prog_bind p f) (if_well Q).
Proof using Type.
  intros Hp Hf. apply wp_bind. eapply wp_mono; [|exact Hp]. intros h' a HP.
  destruct (forallb well h') eqn:Hwell; [by apply Hf, HP|by apply wp_unwell].
Qed.

(** A deferred call changes nothing of what was served. *)
Lemma wp_well_deferred {X} h (release : processE X) (body : process (outcome unit)) r :
  closes release = Some r → wp any_call h body (if_well serves) → wp any_call h (deferred release body) (if_well serves).
Proof using Type.
  intros Hr Hbody. unfold deferred. eapply wp_well_bind; [exact Hbody|]. intros h' result (server & Hserved & Hfacts).
  apply wp_well. intros x _. apply wp_ret. intros _. exists server. split; [by destruct release|].
  destruct Hfacts as (? & ? & ? & ? & Hresult). split_and!; [done..|].
  destruct Hresult as [->|(err & Hin & ->)]; [by left|]. right. exists err. split; [by right|done].
Qed.

(** The credentials can be read when their names are not blank. *)
Lemma LoadTransportCredentials_well h caFile certFile keyFile serverName :
  Forall (λ value, TrimSpace value ≠ "") [caFile; certFile; keyFile; serverName] →
  caFile = cfg_ConformanceCAFile cfg ∨ caFile = cfg_RelayControlCAFile cfg →
  wp any_call h (LoadTransportCredentials caFile certFile keyFile serverName)
    (if_well (λ _ result, is_ok result = true)).
Proof using Type.
  intros Hnames Hca. rewrite !Forall_cons in Hnames. destruct Hnames as (Hca' & Hcert & Hkey & Hserver & _).
  unfold LoadTransportCredentials, blank. apply String.eqb_neq in Hca', Hcert, Hkey, Hserver.
  rewrite Hca', Hcert, Hkey, Hserver. cbn [orb]. apply wp_well. intros [caPEM|err] Hread; [|done].
  assert (AppendCertsFromPEM caPEM = true) as ->.
  { cbn in Hread. unfold usable in Hread. apply andb_prop in Hread as [Hread _].
    destruct Hca as [Hca|Hca]; rewrite Hca, String.eqb_refl, ?orb_true_r in Hread; exact Hread. }
  cbn [negb]. apply wp_well. intros [[]|err] Hpair; [|done]. by apply wp_ret.
Qed.

Lemma NewUSSJWTAuthorizer_well h issuer audience :
  wp any_call h (NewUSSJWTAuthorizer (cfg_USSJWTPublicKeyFile cfg) issuer audience)
    (if_well (λ _ result, is_ok result = true)).
Proof using Type.
  unfold NewUSSJWTAuthorizer. apply wp_well. intros [raw|err] Hread; [|done].
  cbn in Hread. unfold usable in Hread. apply andb_prop in Hread as [_ Hread].
  rewrite String.eqb_refl in Hread. cbn [negb orb] in Hread.
  destruct (pem_Decode raw) as [block|]; [|done]. destruct (parse_public_key block) as [[]|]; by try apply wp_ret.
Qed.

Lemma serve_well h server :
  configured_deconfliction NewClient cfg = Ok (api_deconfliction server) →
  api_history server = (cfg_ConformanceAddress cfg <>s "") →
  bool_decide (is_Some (api_relays server)) = RelayControlEnabled cfg →
  bool_decide (is_Some (api_authorizer server)) = Publishing.PublishingEnabled (api_deconfliction server) →
  wp any_call h (serve cfg server) (if_well serves).
Proof using Type.
  intros Hservice Hhistory Hrelays Hauthorizer. unfold serve. apply wp_well. intros [[]|err] Hlisten; [|done].
  apply (wp_well_deferred _ _ _ Listener); [done|]. apply wp_well. intros [] _.
  eapply (wp_well_bind _ _ _ (λ h' _, served h' = Some server)).
  { case_match; [|by apply wp_ret]. by apply wp_well. }
  intros h2 [] Hserved. apply wp_well. intros [err|] _.
  - apply wp_ret. intros _. exists server. split_and!; [done..|]. right. exists err. split; [by left|done].
  - apply wp_well. intros x _. apply wp_ret. intros _. exists server. split_and!; [done..|by left].
Qed.

(** What the process needs of its configuration. *)
Record serviceable : Prop := {
  serviceable_registry : cfg_RegistryMode cfg = "memory" ∨ cfg_RegistryMode cfg = "grpc";
  serviceable_store :
    cfg_DurableStore cfg = DurableStoreMemory
    ∨ cfg_DurableStore cfg = DurableStorePostgres ∧ blank (cfg_DatabaseURL cfg) = false;
  serviceable_replay : newReplayStore (cfg_ReplayStore cfg) = Ok tt;
  serviceable_telemetry :
    cfg_TelemetryStore cfg = "memory" ∨ cfg_TelemetryStore cfg = "influxdb" ∧ 0 < cfg_TelemetryLatestLookback cfg;
  serviceable_history :
    cfg_ConformanceAddress cfg ≠ "" → Forall (λ value, TrimSpace value ≠ "") (tail (conformanceValues cfg));
  serviceable_relays : RelayControlEnabled cfg = true → Forall (λ value, TrimSpace value ≠ "") (relayTLSValues cfg);
  serviceable_service : ∃ s, configured_deconfliction NewClient cfg = Ok s;
}.

Section served.
Context (Hcfg : serviceable).

Lemma with_workflows_well h providers history relays :
  newAirspaceProviders NewClient cfg = Ok providers →
  history = (cfg_ConformanceAddress cfg <>s "") → bool_decide (is_Some relays) = RelayControlEnabled cfg →
  wp any_call h (with_workflows cfg providers history relays) (if_well serves).
Proof using Hcfg.
  intros Hproviders Hhistory Hrelays. destruct (serviceable_service Hcfg) as (s & Hs).
  unfold with_workflows. unfold configured_deconfliction in Hs. rewrite Hproviders in Hs. rewrite Hs.
  assert (configured_deconfliction NewClient cfg = Ok s) as Hservice
    by (unfold configured_deconfliction; by rewrite Hproviders).
  apply wp_well. intros [] _. apply (wp_well_deferred _ _ _ Worker); [done|]. cbv zeta.
  destruct (Publishing.PublishingEnabled s) eqn:Hpublishing; [|by apply serve_well].
  eapply wp_well_bind; [apply NewUSSJWTAuthorizer_well|]. intros h2 [authorizer|err] Hok; [|done]. by apply serve_well.
Qed.

Lemma with_relays_well h providers history :
  newAirspaceProviders NewClient cfg = Ok providers → history = (cfg_ConformanceAddress cfg <>s "") →
  wp any_call h (with_relays cfg (λ relays, with_workflows cfg providers history relays)) (if_well serves).
Proof using Hcfg.
  intros Hproviders Hhistory. unfold with_relays. destruct (RelayControlEnabled cfg) eqn:Henabled; cbn [negb].
  - eapply wp_well_bind; [apply LoadTransportCredentials_well; [by apply serviceable_relays|by right]|].
    intros h1 [credentials|err] Hok; [|done]. apply wp_well. intros [] _.
    apply (wp_well_deferred _ _ _ Relays); [done|]. by apply with_workflows_well.
  - by apply with_workflows_well.
Qed.

Lemma with_views_well h providers telemetry registry :
  newAirspaceProviders NewClient cfg = Ok providers →
  wp any_call h (with_views cfg providers telemetry registry) (if_well serves).
Proof using Hcfg.
  intros Hproviders. unfold with_views. rewrite (serviceable_replay Hcfg).
  eapply (wp_well_bind _ _ _ (λ _ result, is_ok result = true)).
  { unfold seed_process. case_match; [|by apply wp_ret].
    apply (wp_well _ (SeedDemo telemetry registry) Ret). by intros [[]|err] Hseed. }
  intros h1 [[]|err] Hok; [|done]. unfold with_history.
  destruct (String.eqb_spec (cfg_ConformanceAddress cfg) "") as [Hnone|Hsome].
  - apply with_relays_well; [done|]. by rewrite Hnone.
  - eapply wp_well_bind; [apply LoadTransportCredentials_well; [exact (serviceable_history Hcfg Hsome)|by left]|].
    intros h2 [credentials|err] Hok2; [|done]. apply wp_well. intros [[]|err] Hclient; [|done].
    apply (wp_well_deferred _ _ _ History); [done|]. apply with_relays_well; [done|].
    apply String.eqb_neq in Hsome. by rewrite Hsome.
Qed.

Lemma with_providers_well h registry : wp any_call h (with_providers NewClient cfg registry) (if_well serves).
Proof using Hcfg.
  unfold with_providers. destruct (newAirspaceProviders NewClient cfg) as [providers|err] eqn:Hproviders.
  2: { destruct (serviceable_service Hcfg) as (s & Hs). unfold configured_deconfliction in Hs. by rewrite Hproviders in Hs. }
  eapply (wp_well_bind _ _ _ (λ _ result, is_ok result = true)).
  - unfold open_telemetry, newTelemetryStore, New_influx.
    destruct (serviceable_telemetry Hcfg) as [-> | [-> Hpos]]; [by apply wp_ret|].
    rewrite (proj2 (Z.ltb_lt _ _)) by done. rewrite (proj2 (Z.leb_gt _ _)) by done.
    apply wp_well. by intros [[]|err] Hclient.
  - intros h1 [[|lookback]|err] Hok; [by apply with_views_well| |done].
    apply (wp_well_deferred _ _ _ Influx); [done|]. by apply with_views_well.
Qed.

Lemma run_well : wp any_call [] (run NewClient cfg) (if_well serves).
Proof using Hcfg.
  unfold run. apply wp_well. intros [] _. apply (wp_well_deferred _ _ _ Signals); [done|].
  eapply (wp_well_bind _ _ _ (λ _ result, is_ok result = true)).
  { unfold registry_New, NewGRPCClient. destruct (serviceable_registry Hcfg) as [-> | ->]; [by apply wp_ret|].
    apply wp_well. by intros [[]|err] Hdial. }
  intros h1 [registry|err] Hok; [|done].
  assert (∀ h, wp any_call h (try! store := newDurableStore cfg orelse id in with_store store (with_providers NewClient cfg registry))
    (if_well serves)) as Hstore.
  { intros h. eapply (wp_well_bind _ _ _ (λ _ result, is_ok result = true)).
    - unfold newDurableStore, Open. destruct (serviceable_store Hcfg) as [-> | [-> ->]]; [by apply wp_ret|].
      apply wp_well. intros [[]|err] Hnew; [|done]. apply wp_well. intros [[]|err] Hping; [|done].
      apply wp_well. intros [[]|err] Hexec; [|done]. by apply wp_ret.
    - intros h2 [[]|err] Hok2; [by apply with_providers_well| |done].
      apply (wp_well_deferred _ _ _ Pool); [done|]. by apply with_providers_well. }
  destruct registry; [apply Hstore|]. apply (wp_well_deferred _ _ _ Registry); [done|]. apply Hstore.
Qed.
End served.
End validated.

Section validated_runs.
Context {JWT : JwtLibrary} {CRYPTO : CryptoLibrary}.
Context {LIB : Library} {U : Unions} {SL : ScdLibrary} {UL : UrlLibrary} {RT : Runtime}.
Context (NewClient : string → TokenSource → outcome unit).

(** One address of the five values may be blank without being empty. *)
Definition stray_address (cfg : Config) : Prop :=
  cfg_ConformanceAddress cfg ≠ "" ∧ blank (cfg_ConformanceAddress cfg) = true.

Lemma validated_stores cfg0 cfg :
  Validate cfg0 = Ok cfg → (∀ value, blank value = true → absolute value = false) →
  cfg_DurableStore cfg = DurableStoreMemory
  ∨ cfg_DurableStore cfg = DurableStorePostgres ∧ blank (cfg_DatabaseURL cfg) = false.
Proof using Type.
  intros Hvalid Hblank. pose proof Hvalid as (providers & _ & Heq & Hrules)%Validate_rules.
  unfold Validate in Hvalid. destruct (refused_by (first_rules cfg0)) eqn:Hfirst; [done|].
  rewrite refused_by_none in Hfirst.
  assert ((cfg_DurableStore cfg0 <>s DurableStoreMemory) && (cfg_DurableStore cfg0 <>s DurableStorePostgres) = false) as Hstore.
  { eapply Hfirst. unfold first_rules. right. by left. }
  assert (cfg_DurableStore cfg = cfg_DurableStore cfg0) as Hsame by by rewrite Heq.
  rewrite Hsame. to_prop. destruct Hstore as [Hmemory|Hpostgres]; to_prop; [by left|]. right. split; [done|].
  assert ((cfg_DurableStore cfg =s= DurableStorePostgres) && (cfg_DatabaseURL cfg =s= "") = false) as Hurl.
  { eapply Hrules. unfold later_rules, stores_rules. apply elem_of_app. left. by left. }
  rewrite Hsame, Hpostgres in Hurl. cbn [andb] in Hurl. apply String.eqb_neq in Hurl.
  destruct (urls_absolute cfg (cfg_DatabaseURL cfg) Hrules) as [?|Habsolute]; [by left|done|].
  destruct (blank (cfg_DatabaseURL cfg)) eqn:Hb; [|done]. by rewrite Hblank in Habsolute.
Qed.

Lemma validated_relays cfg0 cfg :
  Validate cfg0 = Ok cfg →
  (¬ stray_address cfg → cfg_ConformanceAddress cfg ≠ "" →
     Forall (λ value, TrimSpace value ≠ "") (tail (conformanceValues cfg)))
  ∧ (RelayControlEnabled cfg = true → Forall (λ value, TrimSpace value ≠ "") (relayTLSValues cfg)).
Proof using Type.
  intros (providers & _ & _ & Hrules)%Validate_rules.
  assert (Forall (λ r, r.1 = false) (relay_rules cfg)) as Hrelay.
  { apply refused_later; [|done]. intros r. unfold later_rules. rewrite !elem_of_app. tauto. }
  split; [|intros Hon; by apply relay_rules_ready; [|left]].
  intros Hstray Haddress. unfold relay_rules in Hrelay. cbv zeta in Hrelay. rewrite !Forall_cons in Hrelay.
  destruct Hrelay as (_ & _ & _ & Hcomplete & _). cbn [fst] in Hcomplete. unfold incomplete in Hcomplete.
  apply andb_false_iff in Hcomplete as [Hnone|Hall].
  - apply negb_false_iff, Nat.eqb_eq, configured_none in Hnone. unfold conformanceValues in Hnone.
    rewrite Forall_cons in Hnone. destruct Hnone as [Hnone _]. destruct Hstray. split; [done|].
    unfold blank. by rewrite Hnone.
  - apply negb_false_iff, Nat.eqb_eq, configured_all in Hall. unfold conformanceValues in *. by inversion Hall.
Qed.

Lemma validated_rest cfg0 cfg :
  Validate cfg0 = Ok cfg →
  (cfg_RegistryMode cfg = "memory" ∨ cfg_RegistryMode cfg = "grpc")
  ∧ newReplayStore (cfg_ReplayStore cfg) = Ok tt
  ∧ (cfg_TelemetryStore cfg = "memory" ∨ cfg_TelemetryStore cfg = "influxdb" ∧ 0 < cfg_TelemetryLatestLookback cfg).
Proof using Type.
  intros Hvalid. destruct (configured_stores (λ _ _ _, Ok tt) _ _ Hvalid) as [Hreplay Htelemetry].
  apply Validate_rules in Hvalid as (providers & _ & _ & Hrules). split_and!; [|done|].
  - assert ((cfg_RegistryMode cfg <>s "memory") && (cfg_RegistryMode cfg <>s "grpc") = false) as Hmode.
    { eapply Hrules. unfold later_rules. rewrite !elem_of_app. do 3 right. left. unfold registry_rules. by left. }
    apply andb_false_iff in Hmode as [Hmode|Hmode]; to_prop; auto.
  - assert (0 < cfg_TelemetryLatestLookback cfg).
    { apply Z.leb_gt, (Hrules _ "AERO_API_TELEMETRY_LATEST_LOOKBACK must be > 0"). unfold later_rules. rewrite !elem_of_app.
      do 5 right. left. unfold freshness_rules. right. by left. }
    destruct (newTelemetryStore _ cfg) as [[]|]; naive_solver.
Qed.

(** C34: a valid configuration is served.  Suppose that the client of the
    coordination service can be made, that the lease of a publication fits into a
    duration, that no blank text is a URL, and that the address of the
    conformance history is empty when it is blank.  Then in every run in which
    the replies are as they should be (nothing fails, and the files hold
    certificates and an RSA key), the server is started; it has the providers
    that the configuration names, in their order, publishes exactly when
    interuss is one of them and there is a base URL, has the client of the
    conformance history and the control of the relays exactly when they are
    configured, and the authorizer of peers exactly when it publishes; and the
    process succeeds, or fails with the error of the server. *)
Theorem validated_process_serves cfg0 cfg :
  Validate cfg0 = Ok cfg → clients_made NewClient cfg →
  in_int64 (cfg_RequestTimeout cfg) → cfg_RequestTimeout cfg + 30 * Second < 2 ^ 63 →
  (∀ value, blank value = true → absolute value = false) → ¬ stray_address cfg →
  wp any_call [] (run NewClient cfg) (λ h result, forallb (well cfg) h = true →
    ∃ server, served h = Some server
      ∧ (provider_ID <$> service_providers (api_deconfliction server))
        = (λ name, if name =s= ProviderLocal then ProviderLocal else providerID) <$> cfg_AirspaceProviders cfg
      ∧ Publishing.PublishingEnabled (api_deconfliction server)
        = bool_decide (ProviderInterUSS ∈ cfg_AirspaceProviders cfg) && (trim_slashes (cfg_USSBaseURL cfg) <>s "")
      ∧ api_history server = (cfg_ConformanceAddress cfg <>s "")
      ∧ bool_decide (is_Some (api_relays server)) = RelayControlEnabled cfg
      ∧ bool_decide (is_Some (api_authorizer server)) = Publishing.PublishingEnabled (api_deconfliction server)
      ∧ (result = Ok tt ∨ ∃ err, Event Select (Some err) ∈ h ∧ result = Err err)).
Proof using Type.
  intros Hvalid Hclient Htime Hfits Hblank Hstray.
  pose proof (configured_service NewClient cfg0 cfg Hvalid Hclient Htime) as Hservice.
  rewrite (proj2 (Z.ltb_lt _ _)) in Hservice by done. destruct Hservice as (s & Hs & Hids & _ & Hpublishing).
  destruct (validated_relays _ _ Hvalid) as [Hhistory Hrelays].
  destruct (validated_rest _ _ Hvalid) as (Hregistry & Hreplay & Htelemetry).
  assert (serviceable NewClient cfg) as Hcfg by (constructor; eauto using validated_stores).
  eapply wp_mono; [|exact (run_well NewClient cfg Hcfg)]. intros h result Hserves Hwell.
  destruct (Hserves Hwell) as (server & Hserved & Hserver & ? & ? & ? & ?). rewrite Hs in Hserver. injection Hserver as ->.
  exists server. by split_and!.
Qed.
End validated_runs.

(** ** One run *)

(** A run with the replies of [reply], its calls last one first. *)
Fixpoint trace {E : Type → Type} {A} (reply : ∀ X, E X → X) (p : prog E A) (h : list (event E)) : list (event E) :=
  match p with
  | Ret _ => h
  | Call e k => trace reply (k (reply _ e)) (Event e (reply _ e) :: h)
  end.

Lemma wp_trace {E : Type → Type} {A} (reply : ∀ X, E X → X) (p : prog E A) h Q :
  wp any_call h p Q → Q (trace reply p h) (answer reply p).
Proof. revert h. induction p as [a|X e k IH]; intros h; cbn; [done|]. intros [_ Hk]. apply IH, Hk. Qed.

(** Libraries that read every text but a blank one, and every file. *)
Definition careful_url : UrlLibrary :=
  let parse (value : string) := if blank value then Err (plain "empty url") else Ok (mkURL "https" false "uss.example" "uss.example" "" "") in
  {| url_Parse := parse; url_ParseRequestURI := parse; split_error_text := id |}.
Definition one_key : JwtLibrary := {| public_key := unit; ParseWithClaims := λ _ _ _ _, None |}.
Definition any_file : CryptoLibrary (JWT := one_key) := {|
  AppendCertsFromPEM := λ _, true;
  pem_Decode := Some;
  ParsePKIXPublicKey := λ _, Ok (RsaKey (JWT := one_key) tt);
  ParsePKCS1PublicKey := λ _, Ok tt;
  ParseCertificate := λ _, Ok OtherKey;
|}.

(** Everything goes well, until the signal. *)
Definition good_reply {JWT : JwtLibrary} {LIB : Library} {U : Unions} {SL : ScdLibrary} {UL : UrlLibrary} {RT : Runtime}
    X (e : processE X) : X :=
  match e in processE X return X with
  | NotifyContext | StopSignals | ClosePool | NewRelayPool _ | WithCancel | StopWorker | GoServe _ | GoWork => tt
  | ReadFile _ => Ok "pem"
  | Select => None
  | DialRegistry _ _ | CloseRegistry | NewPool _ | PingPool | ExecSchema | NewInfluxClient _ _ _ | CloseInflux
  | SeedDemo _ _ | LoadX509KeyPair _ _ | NewHistoryClient _ _ | CloseHistory | CloseRelays | Listen _ | CloseListener
  | Shutdown _ => Ok tt
  end.

Section one_run.
#[local] Existing Instances careful_url one_key any_file reference_runtime reference_library reference_unions reference_scd.

Definition ready_config : Config := full_config <| cfg_AirspaceProviders := ["local"; "interuss"] |>.
Definition good_run (cfg : Config) : prog processE (outcome unit) := run (λ _ _, Ok tt) cfg.

Lemma careful_url_blank value : blank value = true → absolute value = false.
Proof. intros Hblank. unfold absolute. cbn [url_ParseRequestURI careful_url]. by rewrite Hblank. Qed.

(** The configuration with everything is served, and ends with the signal. *)
Lemma validated_process_serves_witness :
  ∃ server, served (trace good_reply (good_run ready_config) []) = Some server
    ∧ (provider_ID <$> service_providers (api_deconfliction server)) = ["local"; "interuss_scd"]
    ∧ bool_decide (is_Some (api_authorizer server)) = true.
Proof.
  assert (¬ stray_address ready_config) as Hstray by by intros [Haddress _].
  assert (Validate full_config = Ok ready_config) as Hvalid by by vm_compute.
  assert (in_int64 (cfg_RequestTimeout ready_config)) as Htime by (split; by vm_compute).
  pose proof (validated_process_serves (λ _ _, Ok tt) full_config ready_config Hvalid
    eq_refl Htime eq_refl careful_url_blank Hstray) as Hruns.
  apply (wp_trace good_reply) in Hruns.
  destruct (Hruns ltac:(vm_compute; reflexivity)) as (server & Hserved & Hids & Hpublishing & _ & _ & Hauthorizer & _).
  exists server. split_and!; [exact Hserved|exact Hids|]. rewrite Hauthorizer. exact Hpublishing.
Defined.

(** An address that is blank but not empty is valid, as it counts as none, and
    is not served, as it counts as one. *)
Lemma stray_address_refused :
  let cfg := ready_config <| cfg_ConformanceAddress := " " |> in
  Validate cfg = Ok cfg
  ∧ answer good_reply (good_run cfg)
    = Err (wrap "conformance history TLS"
        (plain "relay CA, client certificate, client key, and server name are required"))
  ∧ served (trace good_reply (good_run cfg) []) = None.
Proof. vm_compute. done. Qed.
End one_run.
