(* ===== verification/Seed.v ===== *)
(** * Demonstration data

    src/internal/seed/demo.go: the data that Demo writes into the stores at
    start-up, the writing of it, and what is stored afterwards.  All times are
    relative to a reading of the clock. *)

From S2P Require Import Prelude GoRuntime GoStrings GoFloat GoJson GoStrconv GoRange Domain LiveDomain Errors GoTime TelemetryStores Registry Program MemoryState MemoryFleet MemoryIntents MemoryMissions DurableStore MemoryStore Config.
From stdpp Require Import options.

(** ** The data *)

(** Copies of records with some fields replaced. *)
#[global] Instance EvidenceRecord_eta : Eta EvidenceRecord := λ r,
  mkEvidenceRecord (EvidenceRecord_ID r) (EvidenceRecord_OperatorID r) (EvidenceRecord_Type r)
    (EvidenceRecord_IntentID r) (EvidenceRecord_IntentVersion r) (EvidenceRecord_FlightID r)
    (EvidenceRecord_AircraftID r) (EvidenceRecord_Status r) (EvidenceRecord_Title r) (EvidenceRecord_Summary r)
    (EvidenceRecord_ObjectURI r) (EvidenceRecord_Hash r) (EvidenceRecord_HashAlgorithm r)
    (EvidenceRecord_SchemaVersion r) (EvidenceRecord_GeneratedBy r) (EvidenceRecord_SourceSystem r)
    (EvidenceRecord_RetentionUntil r) (EvidenceRecord_CreatedAt r) (EvidenceRecord_UpdatedAt r).

#[global] Instance ReportabilityReview_eta : Eta ReportabilityReview := λ r,
  mkReportabilityReview (ReportabilityReview_ID r) (ReportabilityReview_OperatorID r)
    (ReportabilityReview_IntentID r) (ReportabilityReview_IntentVersion r) (ReportabilityReview_FlightID r)
    (ReportabilityReview_AircraftID r) (ReportabilityReview_Trigger r) (ReportabilityReview_Status r)
    (ReportabilityReview_Decision r) (ReportabilityReview_EvidenceRecordID r) (ReportabilityReview_CreatedAt r)
    (ReportabilityReview_ResolvedAt r).

Definition demo_aircraft (now : Time) : list Aircraft :=
  [zero_Aircraft <| Aircraft_ID := "aircraft-eagle-7" |> <| Aircraft_OperatorID := "operator-demo" |>
     <| Aircraft_AgentID := "agent-eagle-7" |> <| Aircraft_TailNumber := "N108AA" |>
     <| Aircraft_Registration := "N108AA" |> <| Aircraft_SerialNumber := "ARX4-2291" |>
     <| Aircraft_Name := "EAGLE-7" |> <| Aircraft_Model := "ArcRunner X4" |>
     <| Aircraft_Manufacturer := "Aero Arc" |> <| Aircraft_Status := AircraftStatusActive |>
     <| Aircraft_AcceptanceStatus := AcceptanceStatusAccepted |> <| Aircraft_RemoteIDSerial := "RID-EAGLE-7" |>
     <| Aircraft_RemoteIDStatus := RemoteIDStatusBroadcasting |> <| Aircraft_ConfigVersion := "cfg-2026.06" |>
     <| Aircraft_SoftwareVersion := "2.4.1" |> <| Aircraft_HardwareVersion := "x4.2" |>
     <| Aircraft_CreatedAt := AddDate now 0 (-8) 0 |> <| Aircraft_UpdatedAt := TimeAdd now (- 2 * Hour) |>;
   zero_Aircraft <| Aircraft_ID := "aircraft-falcon-3" |> <| Aircraft_OperatorID := "operator-demo" |>
     <| Aircraft_AgentID := "agent-falcon-3" |> <| Aircraft_TailNumber := "N203AA" |>
     <| Aircraft_Registration := "N203AA" |> <| Aircraft_SerialNumber := "ARX4-2314" |>
     <| Aircraft_Name := "FALCON-3" |> <| Aircraft_Model := "ArcRunner X4" |>
     <| Aircraft_Manufacturer := "Aero Arc" |> <| Aircraft_Status := AircraftStatusReview |>
     <| Aircraft_AcceptanceStatus := AcceptanceStatusAccepted |> <| Aircraft_RemoteIDSerial := "RID-FALCON-3" |>
     <| Aircraft_RemoteIDStatus := RemoteIDStatusDegraded |> <| Aircraft_ConfigVersion := "cfg-2026.05" |>
     <| Aircraft_SoftwareVersion := "2.3.9" |> <| Aircraft_HardwareVersion := "x4.2" |>
     <| Aircraft_CreatedAt := AddDate now 0 (-7) 0 |> <| Aircraft_UpdatedAt := TimeAdd now (- 18 * Hour) |>;
   zero_Aircraft <| Aircraft_ID := "aircraft-raven-5" |> <| Aircraft_OperatorID := "operator-demo" |>
     <| Aircraft_AgentID := "agent-raven-5" |> <| Aircraft_TailNumber := "N405AA" |>
     <| Aircraft_Registration := "N405AA" |> <| Aircraft_SerialNumber := "CL55-0917" |>
     <| Aircraft_Name := "RAVEN-5" |> <| Aircraft_Model := "CargoLite 55" |>
     <| Aircraft_Manufacturer := "Aero Arc" |> <| Aircraft_Status := AircraftStatusMaintenance |>
     <| Aircraft_AcceptanceStatus := AcceptanceStatusReview |> <| Aircraft_RemoteIDSerial := "RID-RAVEN-5" |>
     <| Aircraft_RemoteIDStatus := RemoteIDStatusOffline |> <| Aircraft_ConfigVersion := "cfg-2026.04" |>
     <| Aircraft_SoftwareVersion := "2.4.1" |> <| Aircraft_HardwareVersion := "cl55.1" |>
     <| Aircraft_CreatedAt := AddDate now 0 (-5) 0 |> <| Aircraft_UpdatedAt := TimeAdd now (- 26 * Hour) |>;
   zero_Aircraft <| Aircraft_ID := "aircraft-hawk-2" |> <| Aircraft_OperatorID := "operator-demo" |>
     <| Aircraft_AgentID := "agent-hawk-2" |> <| Aircraft_TailNumber := "N302AA" |>
     <| Aircraft_Registration := "N302AA" |> <| Aircraft_SerialNumber := "ARX4-2402" |>
     <| Aircraft_Name := "HAWK-2" |> <| Aircraft_Model := "ArcRunner X4" |>
     <| Aircraft_Manufacturer := "Aero Arc" |> <| Aircraft_Status := AircraftStatusActive |>
     <| Aircraft_AcceptanceStatus := AcceptanceStatusAccepted |> <| Aircraft_RemoteIDSerial := "RID-HAWK-2" |>
     <| Aircraft_RemoteIDStatus := RemoteIDStatusBroadcasting |>
     <| Aircraft_ConfigVersion := "cfg-2026.06-ready" |> <| Aircraft_SoftwareVersion := "2.4.1" |>
     <| Aircraft_HardwareVersion := "x4.2" |> <| Aircraft_CreatedAt := AddDate now 0 (-3) 0 |>
     <| Aircraft_UpdatedAt := TimeAdd now (- 20 * Minute) |>].

Definition demo_batteries (now : Time) : list Battery :=
  [zero_Battery <| Battery_ID := "battery-b118" |> <| Battery_OperatorID := "operator-demo" |>
     <| Battery_SerialNumber := "B-118" |> <| Battery_Model := "ArcPack 6S" |>
     <| Battery_StateOfHealth := Some (float_of_Z 91) |> <| Battery_CycleCount := 142 |>
     <| Battery_Status := MaintenanceStatusCurrent |> <| Battery_CreatedAt := AddDate now 0 (-10) 0 |>
     <| Battery_UpdatedAt := TimeAdd now (- 3 * Hour) |>;
   zero_Battery <| Battery_ID := "battery-b104" |> <| Battery_OperatorID := "operator-demo" |>
     <| Battery_SerialNumber := "B-104" |> <| Battery_Model := "ArcPack 6S" |>
     <| Battery_StateOfHealth := Some (float_of_Z 74) |> <| Battery_CycleCount := 206 |>
     <| Battery_Status := MaintenanceStatusDueSoon |> <| Battery_CreatedAt := AddDate now 0 (-11) 0 |>
     <| Battery_UpdatedAt := TimeAdd now (- 16 * Hour) |>;
   zero_Battery <| Battery_ID := "battery-b177" |> <| Battery_OperatorID := "operator-demo" |>
     <| Battery_SerialNumber := "B-177" |> <| Battery_Model := "CargoPack 9S" |>
     <| Battery_StateOfHealth := Some (float_of_Z 42) |> <| Battery_CycleCount := 264 |>
     <| Battery_Status := MaintenanceStatusOpen |> <| Battery_CreatedAt := AddDate now 0 (-9) 0 |>
     <| Battery_UpdatedAt := TimeAdd now (- 20 * Hour) |>;
   zero_Battery <| Battery_ID := "battery-b221" |> <| Battery_OperatorID := "operator-demo" |>
     <| Battery_SerialNumber := "B-221" |> <| Battery_Model := "ArcPack 6S" |>
     <| Battery_StateOfHealth := Some (float_of_Z 88) |> <| Battery_CycleCount := 95 |>
     <| Battery_Status := MaintenanceStatusCurrent |> <| Battery_CreatedAt := AddDate now 0 (-4) 0 |>
     <| Battery_UpdatedAt := TimeAdd now (- 24 * Hour) |>].

Definition demo_installations (now : Time) : list BatteryInstallation :=
  [zero_BatteryInstallation <| Installation_ID := "install-eagle-7" |>
     <| Installation_OperatorID := "operator-demo" |> <| Installation_AircraftID := "aircraft-eagle-7" |>
     <| Installation_BatteryID := "battery-b118" |> <| Installation_InstalledAt := TimeAdd now (- 6 * Hour) |>;
   zero_BatteryInstallation <| Installation_ID := "install-falcon-3" |>
     <| Installation_OperatorID := "operator-demo" |> <| Installation_AircraftID := "aircraft-falcon-3" |>
     <| Installation_BatteryID := "battery-b104" |> <| Installation_InstalledAt := TimeAdd now (- 30 * Hour) |>;
   zero_BatteryInstallation <| Installation_ID := "install-raven-5" |>
     <| Installation_OperatorID := "operator-demo" |> <| Installation_AircraftID := "aircraft-raven-5" |>
     <| Installation_BatteryID := "battery-b177" |> <| Installation_InstalledAt := TimeAdd now (- 48 * Hour) |>;
   zero_BatteryInstallation <| Installation_ID := "install-hawk-2" |>
     <| Installation_OperatorID := "operator-demo" |> <| Installation_AircraftID := "aircraft-hawk-2" |>
     <| Installation_BatteryID := "battery-b221" |> <| Installation_InstalledAt := TimeAdd now (- 2 * Hour) |>].

Definition demo_operating_profiles (now : Time) : list AircraftOperatingProfile :=
  [mkAircraftOperatingProfile "aircraft-hawk-2" "operator-demo" (Some (float_of_Z 42))
     (Some (float_of_decimal 545 (-1))) (Some (float_of_Z 400))
     "VFR, surface winds <= 18 kt, gust spread <= 8 kt" "visual observer"
     "day/night anti-collision lights operational" "GNSS nominal with barometric altitude cross-check"
     "memory://manuals/arcrunner-x4/limits" (TimeAdd now (- 20 * Minute))].

Definition demo_operating_limits (now : Time) : list OperatingLimit :=
  [mkOperatingLimit "limit-hawk-2-max-altitude" "operator-demo" "aircraft-hawk-2" "Max altitude AGL" "ft" None
     (Some (float_of_Z 400));
   mkOperatingLimit "limit-hawk-2-max-groundspeed" "operator-demo" "aircraft-hawk-2" "Max groundspeed" "kt" None
     (Some (float_of_Z 42));
   mkOperatingLimit "limit-hawk-2-max-wind" "operator-demo" "aircraft-hawk-2" "Max surface wind" "kt" None
     (Some (float_of_Z 18));
   mkOperatingLimit "limit-hawk-2-max-tow" "operator-demo" "aircraft-hawk-2" "Max takeoff weight" "lb" None
     (Some (float_of_decimal 545 (-1)))].

Definition demo_intents (now : Time) : list OperationalIntent :=
  [zero_OperationalIntent <| Intent_ID := "20410000-0000-4000-8000-000000000000" |>
     <| Intent_OperatorID := "operator-demo" |> <| Intent_AircraftID := "aircraft-eagle-7" |>
     <| Intent_AuthorizationID := "auth-permit-1" |> <| Intent_Version := 3 |>
     <| Intent_Name := "Pipeline patrol" |>
     <| Intent_Summary := "Inspect Segment 12 pipeline corridor and recovery pad." |>
     <| Intent_UseCase := "infrastructure_inspection" |>
     <| Intent_AuthorizationPath := AuthorizationPathPermit |>
     <| Intent_PopulationCategory := PopulationCategoryTwo |> <| Intent_Status := IntentStatusActive |>
     <| Intent_ConformanceRequired := true |> <| Intent_OperatingAreaID := "area-west-yard" |>
     <| Intent_RouteSummary := "West Yard launch -> Segment 12 corridor -> Pad B recovery" |>
     <| Intent_PlannedStartAt := TimeAdd now (- 18 * Minute) |>
     <| Intent_PlannedEndAt := TimeAdd now (24 * Minute) |>
     <| Intent_MinAltitudeFtAGL := Some (float_of_Z 220) |>
     <| Intent_MaxAltitudeFtAGL := Some (float_of_Z 310) |> <| Intent_SupervisorID := "person-dana" |>
     <| Intent_FlightCoordinatorID := "person-kim" |>
     <| Intent_ActivatedAt := Some (TimeAdd now (- 18 * Minute)) |>
     <| Intent_UpdatedAt := TimeAdd now (- 2 * Minute) |>;
   zero_OperationalIntent <| Intent_ID := "20420000-0000-4000-8000-000000000000" |>
     <| Intent_OperatorID := "operator-demo" |> <| Intent_AircraftID := "aircraft-falcon-3" |>
     <| Intent_AuthorizationID := "auth-permit-1" |> <| Intent_Version := 1 |>
     <| Intent_Name := "Solar farm inspection" |>
     <| Intent_Summary := "Thermal pass over the north solar field." |>
     <| Intent_UseCase := "energy_inspection" |> <| Intent_AuthorizationPath := AuthorizationPathPermit |>
     <| Intent_PopulationCategory := PopulationCategoryOne |> <| Intent_Status := IntentStatusAccepted |>
     <| Intent_ConformanceRequired := true |> <| Intent_OperatingAreaID := "area-solar-north" |>
     <| Intent_RouteSummary := "Pad C -> North field grid -> Pad C" |>
     <| Intent_PlannedStartAt := TimeAdd now (55 * Minute) |>
     <| Intent_PlannedEndAt := TimeAdd now (105 * Minute) |>
     <| Intent_MinAltitudeFtAGL := Some (float_of_Z 180) |>
     <| Intent_MaxAltitudeFtAGL := Some (float_of_Z 260) |> <| Intent_SupervisorID := "person-dana" |>
     <| Intent_FlightCoordinatorID := "person-sofia" |>
     <| Intent_AcceptedAt := Some (TimeAdd now (- 3 * Hour)) |>
     <| Intent_UpdatedAt := TimeAdd now (- 45 * Minute) |>;
   zero_OperationalIntent <| Intent_ID := "20430000-0000-4000-8000-000000000000" |>
     <| Intent_OperatorID := "operator-demo" |> <| Intent_AircraftID := "aircraft-raven-5" |>
     <| Intent_AuthorizationID := "auth-demo-1" |> <| Intent_Version := 2 |>
     <| Intent_Name := "Rural delivery demo" |>
     <| Intent_Summary := "Cargo demonstration route pending return-to-service evidence." |>
     <| Intent_UseCase := "cargo_demo" |> <| Intent_AuthorizationPath := AuthorizationPathDemo |>
     <| Intent_PopulationCategory := PopulationCategoryThree |> <| Intent_Status := IntentStatusReview |>
     <| Intent_ConformanceRequired := true |> <| Intent_OperatingAreaID := "area-demo-route" |>
     <| Intent_RouteSummary := "Depot -> Farm Road 41 -> Depot" |>
     <| Intent_PlannedStartAt := TimeAdd now (2 * Hour) |> <| Intent_PlannedEndAt := TimeAdd now (3 * Hour) |>
     <| Intent_MinAltitudeFtAGL := Some (float_of_Z 160) |>
     <| Intent_MaxAltitudeFtAGL := Some (float_of_Z 240) |> <| Intent_SupervisorID := "person-dana" |>
     <| Intent_FlightCoordinatorID := "person-kim" |>
     <| Intent_SubmittedAt := Some (TimeAdd now (- 22 * Hour)) |>
     <| Intent_UpdatedAt := TimeAdd now (- 1 * Hour) |>].

Definition demo_volumes (now : Time) : list OperationalVolume :=
  [zero_OperationalVolume <| Volume_ID := "volume-2041-route" |> <| Volume_OperatorID := "operator-demo" |>
     <| Volume_IntentID := "20410000-0000-4000-8000-000000000000" |> <| Volume_IntentVersion := 3 |>
     <| Volume_Sequence := 1 |>
     <| Volume_GeoJSON := quoted_text "{'type':'Polygon','coordinates':[[[-97.51545,35.46645],[-97.51400,35.46645],[-97.51400,35.46815],[-97.51545,35.46815],[-97.51545,35.46645]]]}" |>
     <| Volume_MinAltitudeM := float_of_Z 60 |> <| Volume_MaxAltitudeM := float_of_Z 110 |>
     <| Volume_AltitudeRef := AltitudeReferenceAGL |> <| Volume_StartsAt := TimeAdd now (- 20 * Minute) |>
     <| Volume_EndsAt := TimeAdd now (30 * Minute) |> <| Volume_BufferMeters := Some (float_of_Z 25) |>
     <| Volume_VolumeType := OperationalVolumeRoute |> <| Volume_CreatedAt := TimeAdd now (- 35 * Minute) |>
     <| Volume_UpdatedAt := TimeAdd now (- 28 * Minute) |>;
   zero_OperationalVolume <| Volume_ID := "volume-2042-grid" |> <| Volume_OperatorID := "operator-demo" |>
     <| Volume_IntentID := "20420000-0000-4000-8000-000000000000" |> <| Volume_IntentVersion := 1 |>
     <| Volume_Sequence := 1 |>
     <| Volume_GeoJSON := quoted_text "{'type':'Polygon','coordinates':[[[-97.42720,35.53150],[-97.42555,35.53150],[-97.42555,35.53310],[-97.42720,35.53310],[-97.42720,35.53150]]]}" |>
     <| Volume_MinAltitudeM := float_of_Z 50 |> <| Volume_MaxAltitudeM := float_of_Z 90 |>
     <| Volume_AltitudeRef := AltitudeReferenceAGL |> <| Volume_StartsAt := TimeAdd now (50 * Minute) |>
     <| Volume_EndsAt := TimeAdd now (110 * Minute) |> <| Volume_BufferMeters := Some (float_of_Z 20) |>
     <| Volume_VolumeType := OperationalVolumeLoiter |> <| Volume_CreatedAt := TimeAdd now (- 3 * Hour) |>
     <| Volume_UpdatedAt := TimeAdd now (- 45 * Minute) |>;
   zero_OperationalVolume <| Volume_ID := "volume-2043-demo-route" |> <| Volume_OperatorID := "operator-demo" |>
     <| Volume_IntentID := "20430000-0000-4000-8000-000000000000" |> <| Volume_IntentVersion := 2 |>
     <| Volume_Sequence := 1 |>
     <| Volume_GeoJSON := quoted_text "{'type':'Polygon','coordinates':[[[-97.49150,35.48700],[-97.48940,35.48700],[-97.48940,35.48920],[-97.49150,35.48920],[-97.49150,35.48700]]]}" |>
     <| Volume_MinAltitudeM := float_of_Z 45 |> <| Volume_MaxAltitudeM := float_of_Z 80 |>
     <| Volume_AltitudeRef := AltitudeReferenceAGL |> <| Volume_StartsAt := TimeAdd now (115 * Minute) |>
     <| Volume_EndsAt := TimeAdd now (185 * Minute) |> <| Volume_BufferMeters := Some (float_of_Z 30) |>
     <| Volume_VolumeType := OperationalVolumeRoute |> <| Volume_CreatedAt := TimeAdd now (- 22 * Hour) |>
     <| Volume_UpdatedAt := TimeAdd now (- 1 * Hour) |>].

Definition demo_preflight_checks (now : Time) : list PreflightCheck :=
  [zero_PreflightCheck <| PreflightCheck_ID := "preflight-2041-weather" |>
     <| PreflightCheck_OperatorID := "operator-demo" |>
     <| PreflightCheck_IntentID := "20410000-0000-4000-8000-000000000000" |>
     <| PreflightCheck_IntentVersion := 3 |> <| PreflightCheck_AircraftID := "aircraft-eagle-7" |>
     <| PreflightCheck_Category := PreflightCheckWeather |> <| PreflightCheck_Source := "weather-feed" |>
     <| PreflightCheck_Status := PreflightStatusClear |>
     <| PreflightCheck_Summary := "Winds 8 kt, visibility 10 sm." |>
     <| PreflightCheck_RequirementCode := "WX-001" |> <| PreflightCheck_RuleVersion := "2026.06" |>
     <| PreflightCheck_ValidUntil := Some (TimeAdd now (45 * Minute)) |>
     <| PreflightCheck_EvidenceRecordID := "evidence-preflight-2041" |>
     <| PreflightCheck_CapturedAt := TimeAdd now (- 30 * Minute) |>;
   zero_PreflightCheck <| PreflightCheck_ID := "preflight-2041-airspace" |>
     <| PreflightCheck_OperatorID := "operator-demo" |>
     <| PreflightCheck_IntentID := "20410000-0000-4000-8000-000000000000" |>
     <| PreflightCheck_IntentVersion := 3 |> <| PreflightCheck_AircraftID := "aircraft-eagle-7" |>
     <| PreflightCheck_Category := PreflightCheckAirspace |> <| PreflightCheck_Source := "airspace-review" |>
     <| PreflightCheck_Status := PreflightStatusClear |>
     <| PreflightCheck_Summary := "Operating volume remains inside approved corridor." |>
     <| PreflightCheck_RequirementCode := "AIR-022" |> <| PreflightCheck_RuleVersion := "2026.06" |>
     <| PreflightCheck_ValidUntil := Some (TimeAdd now (90 * Minute)) |>
     <| PreflightCheck_EvidenceRecordID := "evidence-preflight-2041" |>
     <| PreflightCheck_CapturedAt := TimeAdd now (- 28 * Minute) |>;
   zero_PreflightCheck <| PreflightCheck_ID := "preflight-2042-remote-id" |>
     <| PreflightCheck_OperatorID := "operator-demo" |>
     <| PreflightCheck_IntentID := "20420000-0000-4000-8000-000000000000" |>
     <| PreflightCheck_IntentVersion := 1 |> <| PreflightCheck_AircraftID := "aircraft-falcon-3" |>
     <| PreflightCheck_Category := PreflightCheckRemoteID |> <| PreflightCheck_Source := "rid-monitor" |>
     <| PreflightCheck_Status := PreflightStatusReview |>
     <| PreflightCheck_Summary := "Remote ID degraded on previous heartbeat." |>
     <| PreflightCheck_RequirementCode := "RID-010" |> <| PreflightCheck_RuleVersion := "2026.06" |>
     <| PreflightCheck_ValidUntil := Some (TimeAdd now (40 * Minute)) |>
     <| PreflightCheck_EvidenceRecordID := "evidence-preflight-2042" |>
     <| PreflightCheck_CapturedAt := TimeAdd now (- 20 * Minute) |>;
   zero_PreflightCheck <| PreflightCheck_ID := "preflight-2043-maintenance" |>
     <| PreflightCheck_OperatorID := "operator-demo" |>
     <| PreflightCheck_IntentID := "20430000-0000-4000-8000-000000000000" |>
     <| PreflightCheck_IntentVersion := 2 |> <| PreflightCheck_AircraftID := "aircraft-raven-5" |>
     <| PreflightCheck_Category := PreflightCheckMaintenance |>
     <| PreflightCheck_Source := "maintenance-control" |> <| PreflightCheck_Status := PreflightStatusBlocked |>
     <| PreflightCheck_Summary := "Lighting repair requires qualified maintainer return-to-service sign-off." |>
     <| PreflightCheck_RequirementCode := "MX-RTS" |> <| PreflightCheck_RuleVersion := "2026.06" |>
     <| PreflightCheck_Blocking := true |> <| PreflightCheck_EvidenceRecordID := "evidence-maint-raven-5" |>
     <| PreflightCheck_CapturedAt := TimeAdd now (- 16 * Minute) |>].

Definition demo_maintenance_events (now : Time) : list MaintenanceEvent :=
  [zero_MaintenanceEvent <| Maintenance_ID := "mx-falcon-battery" |>
     <| Maintenance_OperatorID := "operator-demo" |> <| Maintenance_AircraftID := "aircraft-falcon-3" |>
     <| Maintenance_IntentID := "20420000-0000-4000-8000-000000000000" |>
     <| Maintenance_EventType := "battery_health" |> <| Maintenance_Severity := SeverityWarning |>
     <| Maintenance_Status := MaintenanceStatusDueSoon |>
     <| Maintenance_Title := "Battery pack B-104 below preferred SOH" |>
     <| Maintenance_Notes := "Pack is usable but should be swapped before extended sorties." |>
     <| Maintenance_Owner := "M. Owens" |> <| Maintenance_DueAt := Some (TimeAdd now (24 * Hour)) |>
     <| Maintenance_OpenedAt := AddDate now 0 0 (-2) |>;
   zero_MaintenanceEvent <| Maintenance_ID := "mx-raven-lighting" |>
     <| Maintenance_OperatorID := "operator-demo" |> <| Maintenance_AircraftID := "aircraft-raven-5" |>
     <| Maintenance_IntentID := "20430000-0000-4000-8000-000000000000" |>
     <| Maintenance_EventType := "lighting" |> <| Maintenance_Severity := SeverityCritical |>
     <| Maintenance_Status := MaintenanceStatusOpen |>
     <| Maintenance_Title := "Anti-collision lighting repair RTS" |>
     <| Maintenance_Notes := "Intermittent anti-collision lighting during preflight test." |>
     <| Maintenance_Owner := "Unassigned" |> <| Maintenance_DueAt := Some (TimeAdd now (- 6 * Hour)) |>
     <| Maintenance_CorrectiveAction := "Replaced lighting controller; awaiting operational check attachment." |>
     <| Maintenance_OpenedAt := AddDate now 0 0 (-3) |>].

Definition demo_summaries (now : Time) : list ConformanceSummary :=
  [zero_ConformanceSummary <| ConformanceSummary_ID := "conf-2041" |>
     <| ConformanceSummary_OperatorID := "operator-demo" |>
     <| ConformanceSummary_IntentID := "20410000-0000-4000-8000-000000000000" |>
     <| ConformanceSummary_IntentVersion := 3 |> <| ConformanceSummary_FlightID := "flight-2041-a" |>
     <| ConformanceSummary_AircraftID := "aircraft-eagle-7" |>
     <| ConformanceSummary_Status := ConformanceStatusConforming |>
     <| ConformanceSummary_Score := Some (float_of_decimal 987 (-3)) |> <| ConformanceSummary_AlertCount := 1 |>
     <| ConformanceSummary_ReportabilityStatus := ReportabilityStatusNo |>
     <| ConformanceSummary_UpdatedAt := TimeAdd now (- 90 * Second) |>;
   zero_ConformanceSummary <| ConformanceSummary_ID := "conf-2042" |>
     <| ConformanceSummary_OperatorID := "operator-demo" |>
     <| ConformanceSummary_IntentID := "20420000-0000-4000-8000-000000000000" |>
     <| ConformanceSummary_IntentVersion := 1 |> <| ConformanceSummary_AircraftID := "aircraft-falcon-3" |>
     <| ConformanceSummary_Status := ConformanceStatusUnknown |> <| ConformanceSummary_AlertCount := 0 |>
     <| ConformanceSummary_ReportabilityStatus := ReportabilityStatusNo |>
     <| ConformanceSummary_UpdatedAt := TimeAdd now (- 45 * Minute) |>;
   zero_ConformanceSummary <| ConformanceSummary_ID := "conf-2043" |>
     <| ConformanceSummary_OperatorID := "operator-demo" |>
     <| ConformanceSummary_IntentID := "20430000-0000-4000-8000-000000000000" |>
     <| ConformanceSummary_IntentVersion := 2 |> <| ConformanceSummary_AircraftID := "aircraft-raven-5" |>
     <| ConformanceSummary_Status := ConformanceStatusContingent |>
     <| ConformanceSummary_Score := Some (float_of_Z 0) |> <| ConformanceSummary_AlertCount := 0 |>
     <| ConformanceSummary_ReportabilityStatus := ReportabilityStatusReview |>
     <| ConformanceSummary_UpdatedAt := TimeAdd now (- 1 * Hour) |>].

Definition demo_events (now : Time) : list ConformanceEvent :=
  [zero_ConformanceEvent <| ConformanceEvent_ID := "conf-event-2041-lateral" |>
     <| ConformanceEvent_OperatorID := "operator-demo" |>
     <| ConformanceEvent_IntentID := "20410000-0000-4000-8000-000000000000" |>
     <| ConformanceEvent_IntentVersion := 3 |> <| ConformanceEvent_FlightID := "flight-2041-a" |>
     <| ConformanceEvent_AircraftID := "aircraft-eagle-7" |> <| ConformanceEvent_Severity := SeverityAdvisory |>
     <| ConformanceEvent_EventCode := ConformanceEventIntentExit |>
     <| ConformanceEvent_ExpectedVolumeID := "volume-2041-route" |>
     <| ConformanceEvent_Message := "Lateral drift 18 ft beyond advisory band; returned inside corridor." |>
     <| ConformanceEvent_Latitude := Some (float_of_decimal 3546712 (-5)) |>
     <| ConformanceEvent_Longitude := Some (f_neg (float_of_decimal 9751481 (-5))) |>
     <| ConformanceEvent_AltitudeM := Some (float_of_Z 82) |>
     <| ConformanceEvent_AltitudeRef := AltitudeReferenceAGL |>
     <| ConformanceEvent_ObservedValue := Some (float_of_Z 18) |>
     <| ConformanceEvent_ThresholdValue := Some (float_of_Z 15) |>
     <| ConformanceEvent_DeviationMeters := Some (float_of_decimal 55 (-1)) |>
     <| ConformanceEvent_DeviationSeconds := Some (float_of_Z 12) |>
     <| ConformanceEvent_OccurredAt := TimeAdd now (- 9 * Minute) |>;
   zero_ConformanceEvent <| ConformanceEvent_ID := "conf-event-2037-link" |>
     <| ConformanceEvent_OperatorID := "operator-demo" |>
     <| ConformanceEvent_IntentID := "20370000-0000-4000-8000-000000000000" |>
     <| ConformanceEvent_FlightID := "flight-2037-a" |> <| ConformanceEvent_AircraftID := "aircraft-falcon-3" |>
     <| ConformanceEvent_Severity := SeverityWarning |>
     <| ConformanceEvent_EventCode := ConformanceEventTelemetryLoss |>
     <| ConformanceEvent_Message := "Lost telemetry link for 11 seconds on previous flight." |>
     <| ConformanceEvent_DeviationSeconds := Some (float_of_Z 11) |>
     <| ConformanceEvent_OccurredAt := TimeAdd now (- 28 * Hour) |>].

Definition demo_evidence (now : Time) : list EvidenceRecord :=
  [zero_EvidenceRecord <| EvidenceRecord_ID := "evidence-flight-2041" |>
     <| EvidenceRecord_OperatorID := "operator-demo" |> <| EvidenceRecord_Type := EvidenceRecordFlight |>
     <| EvidenceRecord_IntentID := "20410000-0000-4000-8000-000000000000" |>
     <| EvidenceRecord_IntentVersion := 3 |> <| EvidenceRecord_FlightID := "flight-2041-a" |>
     <| EvidenceRecord_AircraftID := "aircraft-eagle-7" |> <| EvidenceRecord_Status := EvidenceStatusComplete |>
     <| EvidenceRecord_Title := "Flight record AA-OP-2041" |>
     <| EvidenceRecord_Summary := "Active flight record with replay manifest." |>
     <| EvidenceRecord_ObjectURI := "memory://evidence/flight-2041" |> <| EvidenceRecord_Hash := "77e3f0demo" |>
     <| EvidenceRecord_HashAlgorithm := "sha256" |> <| EvidenceRecord_SchemaVersion := "2026.06" |>
     <| EvidenceRecord_GeneratedBy := "aero-arc-api" |> <| EvidenceRecord_SourceSystem := "flight-recorder" |>
     <| EvidenceRecord_RetentionUntil := Some (AddDate now 1 0 0) |>
     <| EvidenceRecord_CreatedAt := TimeAdd now (- 14 * Minute) |>
     <| EvidenceRecord_UpdatedAt := TimeAdd now (- 2 * Minute) |>;
   zero_EvidenceRecord <| EvidenceRecord_ID := "evidence-preflight-2041" |>
     <| EvidenceRecord_OperatorID := "operator-demo" |> <| EvidenceRecord_Type := EvidenceRecordPreflight |>
     <| EvidenceRecord_IntentID := "20410000-0000-4000-8000-000000000000" |>
     <| EvidenceRecord_IntentVersion := 3 |> <| EvidenceRecord_AircraftID := "aircraft-eagle-7" |>
     <| EvidenceRecord_Status := EvidenceStatusComplete |>
     <| EvidenceRecord_Title := "Preflight package AA-OP-2041" |>
     <| EvidenceRecord_Summary := "Weather, airspace, aircraft, and personnel checks." |>
     <| EvidenceRecord_ObjectURI := "memory://evidence/preflight-2041" |>
     <| EvidenceRecord_Hash := "4cc6d1demo" |> <| EvidenceRecord_HashAlgorithm := "sha256" |>
     <| EvidenceRecord_SchemaVersion := "2026.06" |> <| EvidenceRecord_GeneratedBy := "aero-arc-api" |>
     <| EvidenceRecord_SourceSystem := "preflight" |>
     <| EvidenceRecord_RetentionUntil := Some (AddDate now 1 0 0) |>
     <| EvidenceRecord_CreatedAt := TimeAdd now (- 35 * Minute) |>
     <| EvidenceRecord_UpdatedAt := TimeAdd now (- 28 * Minute) |>;
   zero_EvidenceRecord <| EvidenceRecord_ID := "evidence-maint-raven-5" |>
     <| EvidenceRecord_OperatorID := "operator-demo" |> <| EvidenceRecord_Type := EvidenceRecordMaintenance |>
     <| EvidenceRecord_IntentID := "20430000-0000-4000-8000-000000000000" |>
     <| EvidenceRecord_IntentVersion := 2 |> <| EvidenceRecord_AircraftID := "aircraft-raven-5" |>
     <| EvidenceRecord_Status := EvidenceStatusOpen |>
     <| EvidenceRecord_Title := "RAVEN-5 maintenance release" |>
     <| EvidenceRecord_Summary := "Return-to-service evidence pending maintainer sign-off." |>
     <| EvidenceRecord_GeneratedBy := "maintenance-control" |>
     <| EvidenceRecord_SourceSystem := "maintenance" |>
     <| EvidenceRecord_CreatedAt := TimeAdd now (- 6 * Hour) |>
     <| EvidenceRecord_UpdatedAt := TimeAdd now (- 30 * Minute) |>;
   zero_EvidenceRecord <| EvidenceRecord_ID := "evidence-reportability-2037" |>
     <| EvidenceRecord_OperatorID := "operator-demo" |> <| EvidenceRecord_Type := EvidenceRecordReportability |>
     <| EvidenceRecord_IntentID := "20370000-0000-4000-8000-000000000000" |>
     <| EvidenceRecord_FlightID := "flight-2037-a" |> <| EvidenceRecord_AircraftID := "aircraft-falcon-3" |>
     <| EvidenceRecord_Status := EvidenceStatusReview |>
     <| EvidenceRecord_Title := "Lost link reportability review" |>
     <| EvidenceRecord_Summary := "Prior flight telemetry loss requires supervisor review." |>
     <| EvidenceRecord_GeneratedBy := "conformance-monitor" |>
     <| EvidenceRecord_SourceSystem := "reportability" |>
     <| EvidenceRecord_CreatedAt := TimeAdd now (- 28 * Hour) |>
     <| EvidenceRecord_UpdatedAt := TimeAdd now (- 5 * Hour) |>].

Definition demo_reviews (now : Time) : list ReportabilityReview :=
  [zero_ReportabilityReview <| ReportabilityReview_ID := "review-2037-link" |>
     <| ReportabilityReview_OperatorID := "operator-demo" |>
     <| ReportabilityReview_IntentID := "20370000-0000-4000-8000-000000000000" |>
     <| ReportabilityReview_FlightID := "flight-2037-a" |>
     <| ReportabilityReview_AircraftID := "aircraft-falcon-3" |>
     <| ReportabilityReview_Trigger := "Lost telemetry link for 11 seconds" |>
     <| ReportabilityReview_Status := ReportabilityStatusReview |>
     <| ReportabilityReview_Decision := "Supervisor review pending." |>
     <| ReportabilityReview_EvidenceRecordID := "evidence-reportability-2037" |>
     <| ReportabilityReview_CreatedAt := TimeAdd now (- 28 * Hour) |>;
   zero_ReportabilityReview <| ReportabilityReview_ID := "review-2041-lateral" |>
     <| ReportabilityReview_OperatorID := "operator-demo" |>
     <| ReportabilityReview_IntentID := "20410000-0000-4000-8000-000000000000" |>
     <| ReportabilityReview_IntentVersion := 3 |> <| ReportabilityReview_FlightID := "flight-2041-a" |>
     <| ReportabilityReview_AircraftID := "aircraft-eagle-7" |>
     <| ReportabilityReview_Trigger := "Brief lateral advisory band exit" |>
     <| ReportabilityReview_Status := ReportabilityStatusNo |>
     <| ReportabilityReview_Decision := "No report required; remained inside approved operating volume." |>
     <| ReportabilityReview_EvidenceRecordID := "evidence-flight-2041" |>
     <| ReportabilityReview_CreatedAt := TimeAdd now (- 8 * Minute) |>
     <| ReportabilityReview_ResolvedAt := Some (TimeAdd now (- 4 * Minute)) |>].

Definition demo_live_states (now : Time) : list LiveAircraftState :=
  [zero_LiveAircraftState <| Live_AircraftID := "aircraft-eagle-7" |> <| Live_OperatorID := "operator-demo" |>
     <| Live_AgentID := "agent-eagle-7" |> <| Live_RelayID := "relay-west-1" |> <| Live_Connected := true |>
     <| Live_LastConnectedAt := TimeAdd now (- 30 * Minute) |>
     <| Live_LastHeartbeatAt := TimeAdd now (- 10 * Second) |>
     <| Live_PlacementLastUpdatedAt := TimeAdd now (- 45 * Minute) |>;
   zero_LiveAircraftState <| Live_AircraftID := "aircraft-falcon-3" |> <| Live_OperatorID := "operator-demo" |>
     <| Live_AgentID := "agent-falcon-3" |> <| Live_RelayID := "relay-north-2" |> <| Live_Connected := true |>
     <| Live_LastConnectedAt := TimeAdd now (- 5 * Hour) |>
     <| Live_LastHeartbeatAt := TimeAdd now (- 12 * Minute) |>
     <| Live_PlacementLastUpdatedAt := TimeAdd now (- 5 * Hour) |>;
   zero_LiveAircraftState <| Live_AircraftID := "aircraft-hawk-2" |> <| Live_OperatorID := "operator-demo" |>
     <| Live_AgentID := "agent-hawk-2" |> <| Live_RelayID := "relay-west-1" |> <| Live_Connected := true |>
     <| Live_LastConnectedAt := TimeAdd now (- 2 * Hour) |>
     <| Live_LastHeartbeatAt := TimeAdd now (- 5 * Second) |>
     <| Live_PlacementLastUpdatedAt := TimeAdd now (- 2 * Hour) |>].

Definition demo_flight (now : Time) : FlightRecord :=
  zero_FlightRecord <| Flight_ID := "flight-2041-a" |> <| Flight_OperatorID := "operator-demo" |>
    <| Flight_AircraftID := "aircraft-eagle-7" |>
    <| Flight_IntentID := "20410000-0000-4000-8000-000000000000" |> <| Flight_IntentVersion := 3 |>
    <| Flight_StartedAt := TimeAdd now (- 18 * Minute) |> <| Flight_Origin := "West Yard" |>
    <| Flight_Destination := "Pad B" |> <| Flight_Status := FlightStatusActive |>
    <| Flight_MissionType := "pipeline_patrol" |> <| Flight_TelemetryURI := "memory://flight-2041-a" |>
    <| Flight_SampleCount := 5 |>.

Definition demo_sample (now : Time) (i : Z) : TelemetrySample :=
  let sampleTime := TimeAdd now ((i - 4) * 3 * Minute) in
  zero_TelemetrySample <| Sample_ID := "sample-2041-" +:+ Itoa (i + 1) |>
    <| Sample_OperatorID := "operator-demo" |> <| Sample_AircraftID := "aircraft-eagle-7" |>
    <| Sample_IntentID := "20410000-0000-4000-8000-000000000000" |> <| Sample_IntentVersion := 3 |>
    <| Sample_FlightID := "flight-2041-a" |> <| Sample_RecordedAt := sampleTime |>
    <| Sample_Latitude := f_add (float_of_decimal 3546670 (-5)) (f_mul (float_of_Z i) (float_of_decimal 31 (-5))) |>
    <| Sample_Longitude := f_add (f_neg (float_of_decimal 9751520 (-5))) (f_mul (float_of_Z i) (float_of_decimal 24 (-5))) |>
    <| Sample_AltitudeM := f_add (float_of_Z 78) (f_mul (float_of_Z i) (float_of_decimal 18 (-1))) |>
    <| Sample_VelocityMPS := float_of_decimal 175 (-1) |> <| Sample_HeadingDeg := float_of_Z 64 |>
    <| Sample_BatteryPct := Some (f_sub (float_of_Z 88) (float_of_Z i)) |>.

Definition demo_falcon_sample (now : Time) : TelemetrySample :=
  zero_TelemetrySample <| Sample_ID := "sample-falcon-latest" |> <| Sample_OperatorID := "operator-demo" |>
    <| Sample_AircraftID := "aircraft-falcon-3" |> <| Sample_RecordedAt := TimeAdd now (- 12 * Minute) |>
    <| Sample_Latitude := float_of_decimal 3553210 (-5) |>
    <| Sample_Longitude := f_neg (float_of_decimal 9742640 (-5)) |> <| Sample_AltitudeM := float_of_Z 0 |>
    <| Sample_VelocityMPS := float_of_Z 0 |> <| Sample_HeadingDeg := float_of_Z 0 |>
    <| Sample_BatteryPct := Some (float_of_Z 74) |>.

Definition demo_raven_sample (now : Time) : TelemetrySample :=
  zero_TelemetrySample <| Sample_ID := "sample-raven-last-known" |> <| Sample_OperatorID := "operator-demo" |>
    <| Sample_AircraftID := "aircraft-raven-5" |>
    <| Sample_IntentID := "20430000-0000-4000-8000-000000000000" |> <| Sample_IntentVersion := 2 |>
    <| Sample_RecordedAt := TimeAdd now (- 38 * Minute) |>
    <| Sample_Latitude := float_of_decimal 3548820 (-5) |>
    <| Sample_Longitude := f_neg (float_of_decimal 9749040 (-5)) |> <| Sample_AltitudeM := float_of_Z 0 |>
    <| Sample_VelocityMPS := float_of_Z 0 |> <| Sample_HeadingDeg := float_of_Z 0 |>
    <| Sample_BatteryPct := Some (float_of_Z 42) |>.

Definition demo_hawk_sample (now : Time) : TelemetrySample :=
  zero_TelemetrySample <| Sample_ID := "sample-hawk-ready" |> <| Sample_OperatorID := "operator-demo" |>
    <| Sample_AircraftID := "aircraft-hawk-2" |> <| Sample_RecordedAt := TimeAdd now (- 2 * Minute) |>
    <| Sample_Latitude := float_of_decimal 3550640 (-5) |>
    <| Sample_Longitude := f_neg (float_of_decimal 9747215 (-5)) |> <| Sample_AltitudeM := float_of_Z 0 |>
    <| Sample_VelocityMPS := float_of_Z 0 |> <| Sample_HeadingDeg := float_of_Z 180 |>
    <| Sample_BatteryPct := Some (float_of_Z 96) |>.

Definition demo_manifest (now : Time) : ReplayManifest :=
  mkReplayManifest "operator-demo" "flight-2041-a" "20410000-0000-4000-8000-000000000000" 3
    "memory://replay/flight-2041-a" ["memory://replay/flight-2041-a/chunk-1.jsonl"]
    (TimeAdd now (- 12 * Minute)) 16384.

(** ** Writing it *)

Module Seed.
(** The methods that the stores of telemetry and replay manifests and the
    registry must have. *)
Inductive seedE : Type → Type :=
  | AddSample (sample : TelemetrySample) : seedE (outcome unit)
  | PutReplayManifest (manifest : ReplayManifest) : seedE (outcome unit)
  | SetLiveAircraftState (state : LiveAircraftState) : seedE (outcome unit).

Abbreviation program := (prog (apiE seedE)).

(** [for _, item := range items { if err := write(item); err != nil { return ... } }];
    with [tolerant], an item that exists already is left as it is. *)
Fixpoint seed_each {A} (write : A → program (outcome unit)) (tolerant : bool) (failed : A → string) (items : list A)
    : program (outcome unit) :=
  match items with
  | [] => Ret (Ok tt)
  | item :: items =>
      let! result := write item in
      match result with
      | Err err =>
          if negb (tolerant && errors_Is err ErrAlreadyExists) then Ret (Err (wrap (failed item) err))
          else seed_each write tolerant failed items
      | Ok _ => seed_each write tolerant failed items
      end
  end.

Definition seed_durable {A} (write : A → Durable.storeE unit) (tolerant : bool) (what : string) (id : A → string)
    : list A → program (outcome unit) :=
  seed_each (λ item, durable (write item)) tolerant (λ item, "seed " +:+ what +:+ " " +:+ id item).

Definition seed_external {A} (write : A → seedE (outcome unit)) (failed : A → string) : list A → program (outcome unit) :=
  seed_each (λ item, external (write item)) false failed.

(** What is written to the durable store, *)
Definition seed_fleet (now : Time) : program (outcome unit) :=
  try! _ := seed_durable Durable.CreateAircraft true "aircraft" Aircraft_ID (demo_aircraft now) orelse id in
  try! _ := seed_durable Durable.CreateBattery false "battery" Battery_ID (demo_batteries now) orelse id in
  try! _ := seed_durable Durable.RecordBatteryInstallation true "battery installation" Installation_ID
              (demo_installations now) orelse id in
  try! _ := seed_durable Durable.UpsertAircraftOperatingProfile false "operating profile" Profile_AircraftID
              (demo_operating_profiles now) orelse id in
  seed_durable Durable.UpsertOperatingLimit false "operating limit" Limit_ID (demo_operating_limits now).

Definition seed_operations (now : Time) : program (outcome unit) :=
  try! _ := seed_durable Durable.CreateOperationalIntent true "operational intent" Intent_ID (demo_intents now) orelse id in
  try! _ := seed_durable Durable.RecordOperationalVolume false "operational volume" Volume_ID (demo_volumes now) orelse id in
  try! _ := seed_durable Durable.RecordPreflightCheck false "preflight check" PreflightCheck_ID
              (demo_preflight_checks now) orelse id in
  try! _ := seed_durable Durable.RecordMaintenanceEvent false "maintenance event" Maintenance_ID
              (demo_maintenance_events now) orelse id in
  try! _ := seed_durable Durable.CreateFlightRecord true "flight record" Flight_ID [demo_flight now] orelse id in
  try! _ := seed_durable Durable.UpsertConformanceSummary false "conformance summary" ConformanceSummary_ID
              (demo_summaries now) orelse id in
  try! _ := seed_durable Durable.RecordConformanceEvent false "conformance event" ConformanceEvent_ID
              (demo_events now) orelse id in
  try! _ := seed_durable Durable.RecordEvidence false "evidence record" EvidenceRecord_ID (demo_evidence now) orelse id in
  seed_durable Durable.RecordReportabilityReview false "reportability review" ReportabilityReview_ID (demo_reviews now).

(** and to the others. *)
Definition seed_live (now : Time) : program (outcome unit) :=
  try! _ := seed_external (λ i, AddSample (demo_sample now i)) (λ i, "seed telemetry sample " +:+ Itoa (i + 1))
              [0; 1; 2; 3; 4] orelse id in
  try! _ := external (AddSample (demo_falcon_sample now)) orelse wrap "seed falcon telemetry" in
  try! _ := external (AddSample (demo_raven_sample now)) orelse wrap "seed raven telemetry" in
  try! _ := external (AddSample (demo_hawk_sample now)) orelse wrap "seed hawk telemetry" in
  try! _ := external (PutReplayManifest (demo_manifest now)) orelse wrap "seed replay manifest" in
  seed_external SetLiveAircraftState (λ item, "seed live state " +:+ Live_AircraftID item) (demo_live_states now).

Definition seed_now (now : Time) : program (outcome unit) :=
  try! _ := seed_fleet now orelse id in
  try! _ := seed_operations now orelse id in
  seed_live now.

Definition lacking (what : string) : error := plain ("demo seed requires a " +:+ what).

(** [telemetry], [replay] and [live] tell whether the stores have the methods. *)
Definition Demo (telemetry replay live : bool) : program (outcome unit) :=
  let! t := now in
  let now := Truncate (UTC t) Second in
  if negb telemetry then Ret (Err (lacking "telemetry store that supports AddSample"))
  else if negb replay then Ret (Err (lacking "replay store that supports PutReplayManifest"))
  else if negb live then Ret (Err (lacking "registry client that supports SetLiveAircraftState"))
  else seed_now now.

(** The command seeds when it is told to: the store of telemetry in memory takes
    samples and that over InfluxDB does not; the registry takes states when it
    is the one in memory. *)
Definition seed_at_start (cfg : Config) (telemetry : telemetry_store) : program (outcome unit) :=
  if cfg_Seed cfg =s= "demo"
  then Demo (match telemetry with MemoryTelemetry => true | InfluxTelemetry _ => false end) true
         (cfg_RegistryMode cfg =s= "memory")
  else Ret (Ok tt).
End Seed.

(** ** What is stored afterwards *)

(** The other stores: what seeding writes to them, [registry_time] being the
    reading of the clock that the registry takes. *)
Record live_stores : Set := mkLiveStores {
  telemetry_of : TelemetryStore;
  replay_of : ReplayStore;
  registry_of : MemoryClient;
  registry_time : Time;
}.

#[global] Instance live_stores_eta : Eta live_stores := λ o,
  mkLiveStores (telemetry_of o) (replay_of o) (registry_of o) (registry_time o).

#[global] Instance live_outside : Outside Seed.seedE live_stores := λ A e o,
  match e in Seed.seedE A return A * live_stores with
  | Seed.AddSample sample => (Ok tt, o <| telemetry_of := AddSample sample (telemetry_of o) |>)
  | Seed.PutReplayManifest manifest => (Ok tt, o <| replay_of := PutReplayManifest manifest (replay_of o) |>)
  | Seed.SetLiveAircraftState state =>
      let '(r, registry) := SetLiveAircraftState state (registry_time o) (registry_of o) in
      (r, o <| registry_of := registry |>)
  end.

(** Records put under their keys, and only under keys that are free. *)
Definition put_all {V} (key : V → string) (items : list V) (m : gmap string V) : gmap string V :=
  foldl (λ m v, <[key v := v]> m) m items.

Definition put_new {V} (key : V → string) (items : list V) (m : gmap string V) : gmap string V :=
  foldl (λ m v, if bool_decide (is_Some (m !! key v)) then m else <[key v := v]> m) m items.

Definition append_new {V} (key : V → string) (items l : list V) : list V :=
  foldl (λ l v, if bool_decide (key v ∈ map key l) then l else l ++ [v]) l items.

Definition append_all {V} (items l : list V) : list V := foldl (λ l v, l ++ [v]) l items.

Definition replace_all {V} (same : V → V → bool) (items l : list V) : list V :=
  foldl (λ l v, replace_or_append same v l) l items.

(** The durable store after seeding at [now]. *)
Definition fleet_seeded (now : Time) (s : Store) : Store :=
  let s := s <| aircraft := put_all Aircraft_ID (demo_aircraft now) (aircraft s) |> in
  let s := s <| batteries := put_all Battery_ID (demo_batteries now) (batteries s) |> in
  let s := s <| batteryInstallations := append_new Installation_ID (demo_installations now) (batteryInstallations s) |> in
  let s := s <| operatingProfiles := put_all Profile_AircraftID (demo_operating_profiles now) (operatingProfiles s) |> in
  s <| operatingLimits := put_all Limit_ID (demo_operating_limits now) (operatingLimits s) |>.

Definition operations_seeded (now : Time) (s : Store) : Store :=
  let s := s <| operationalIntents := put_new intent_key (demo_intents now) (operationalIntents s) |> in
  let s := s <| operationalVolumes := put_all operationalVolumeKey (demo_volumes now) (operationalVolumes s) |> in
  let s := s <| preflightChecks := replace_all same_check (demo_preflight_checks now) (preflightChecks s) |> in
  let s := s <| maintenanceEvents := append_all (demo_maintenance_events now) (maintenanceEvents s) |> in
  let s := s <| flightRecords := put_new Flight_ID [demo_flight now] (flightRecords s) |> in
  let s := s <| conformanceSummaries := put_all conformanceSummaryKey (demo_summaries now) (conformanceSummaries s) |> in
  let s := s <| conformanceEvents := replace_all same_event (demo_events now) (conformanceEvents s) |> in
  let s := s <| evidenceRecords := put_all EvidenceRecord_ID (demo_evidence now) (evidenceRecords s) |> in
  s <| reportabilityReviews := append_all (demo_reviews now) (reportabilityReviews s) |>.

Definition seeded (now : Time) (s : Store) : Store := operations_seeded now (fleet_seeded now s).

Section seeding.
Context {RT : Runtime}.
Abbreviation seed_world := (world Store live_stores).
Abbreviation run_seed := (run (S := seed_world) handle_api).

(** What the data can be written to: no mission is being deployed to a flight of
    the data, and no other battery is in an aircraft of it. *)
Definition slot_free (x : BatteryInstallation) (l : list BatteryInstallation) : Prop :=
  ∀ existing, existing ∈ l → Installation_AircraftID existing = Installation_AircraftID x →
    Installation_RemovedAt existing = None → Installation_ID existing = Installation_ID x.

Definition seedable (s : Store) : Prop := ∀ now,
  (∀ intent, intent ∈ demo_intents now → hasOutstandingMissionDeploymentForIntentLocked s (Intent_ID intent) = false)
  ∧ hasOutstandingMissionDeploymentForFlightLocked s (Flight_ID (demo_flight now)) = false
  ∧ ∀ x, x ∈ demo_installations now → slot_free x (batteryInstallations s).

Lemma seedable_frame s s' :
  missionDeployments s' = missionDeployments s → flightRecords s' = flightRecords s →
  batteryInstallations s' = batteryInstallations s → seedable s → seedable s'.
Proof using Type.
  unfold seedable, hasOutstandingMissionDeploymentForIntentLocked, hasOutstandingMissionDeploymentForFlightLocked.
  by intros -> -> ->.
Qed.

(** A write that succeeds, or is tolerated and changes nothing. *)
Definition writes {A} (write : A → Durable.storeE unit) (tolerant : bool) (x : A) (s s' : Store) : Prop :=
  handle_store (write x) s = (Ok tt, s')
  ∨ tolerant = true ∧ s' = s ∧ ∃ err, errors_Is err ErrAlreadyExists = true ∧ handle_store (write x) s = (Err err, s).

(** Writes of one field [get] of the store. *)
Lemma run_field {A F} (write : A → Durable.storeE unit) tolerant what id items (get : Store → F)
    (put : F → Store → Store) (f : F → A → F) (w : seed_world) :
  (∀ s, put (get s) s = s) → (∀ v s, get (put v s) = v) → (∀ v u s, put v (put u s) = put v s) →
  (∀ x s, x ∈ items → seedable s → seedable (put (f (get s) x) s) ∧ writes write tolerant x s (put (f (get s) x) s)) →
  seedable (store w) →
  run_seed (Seed.seed_durable write tolerant what id items) w
    = (Ok tt, w <| store := put (foldl f (get (store w)) items) (store w) |>)
  ∧ seedable (put (foldl f (get (store w)) items) (store w)).
Proof using Type.
  intros Hput Hget Hover. unfold Seed.seed_durable. revert w.
  induction items as [|x items IH]; intros w Hwrites Hw.
  { cbn. rewrite Hput. by destruct w. }
  destruct (Hwrites x (store w) ltac:(by left) Hw) as [Hs' Hx].
  set (s' := put (f (get (store w)) x) (store w)) in *.
  destruct (IH (w <| store := s' |>)) as [Hrun Hend]; [intros y s Hy; apply Hwrites; by right|exact Hs'|].
  change (store (w <| store := s' |>)) with s' in Hrun, Hend. subst s'. rewrite Hget, Hover in Hend.
  rewrite Hget, Hover in Hrun. cbn [foldl]. split; [|exact Hend].
  cbn. destruct Hx as [Hx|(Htol & Heq & err & Herr & Hx)]; rewrite Hx; cbn; [exact Hrun|]. subst tolerant. rewrite Herr. cbn.
  etransitivity; [|exact Hrun]. by rewrite Heq.
Qed.

(** The same with the writes [f] of a list, to a given store. *)
Section field.
Context {A F : Type} (write : A → Durable.storeE unit) (tolerant : bool) (what : string) (id : A → string) (items : list A).
Context (get : Store → F) (put : F → Store → Store) (f : list A → F → F) (w : seed_world) (s : Store).
Hypothesis (Hput : ∀ s, put (get s) s = s) (Hget : ∀ v s, get (put v s) = v) (Hover : ∀ v u s, put v (put u s) = put v s).
Hypothesis (Hf : ∀ v, foldl (λ v x, f [x] v) v items = f items v).
Hypothesis (Hwrites : ∀ x s, x ∈ items → seedable s →
  seedable (put (f [x] (get s)) s) ∧ writes write tolerant x s (put (f [x] (get s)) s)).
Hypothesis (Hs : seedable s).
Let s' := put (f items (get s)) s.

Lemma run_field_in (Q : outcome unit * seed_world → Prop) : (seedable s' → Q (Ok tt, w <| store := s' |>)) →
  Q (run_seed (Seed.seed_durable write tolerant what id items) (w <| store := s |>)).
Proof using Hput Hget Hover Hf Hwrites Hs.
  intros Hk. destruct (run_field write tolerant what id items get put (λ v x, f [x] v) (w <| store := s |>)) as [-> Hs'];
    [auto..|]. change (store (w <| store := s |>)) with s in *. rewrite Hf in *. by apply Hk.
Qed.

Lemma run_field_then {B} (k : unit → prog (apiE Seed.seedE) (outcome B)) (Q : outcome B * seed_world → Prop) :
  (seedable s' → Q (run_seed (k tt) (w <| store := s' |>))) →
  Q (run_seed (try! x := Seed.seed_durable write tolerant what id items orelse Datatypes.id in k x) (w <| store := s |>)).
Proof using Hput Hget Hover Hf Hwrites Hs.
  intros Hk. rewrite run_bind.
  apply (run_field_in (λ r, Q (let '(a, w') := r in
    run_seed (match a with Ok x => k x | Err e => Ret (Err (Datatypes.id e)) end) w'))), Hk.
Qed.
End field.

(** *** The writes that can be refused *)

Lemma installation_conflict_free x l : slot_free x l →
  installation_conflict l x = if bool_decide (Installation_ID x ∈ map Installation_ID l) then Some (New ErrAlreadyExists) else None.
Proof using Type.
  unfold slot_free. induction l as [|y l IH]; intros Hfree; [done|]. cbn [installation_conflict map].
  destruct (String.eqb_spec (Installation_ID y) (Installation_ID x)) as [Heq|Hne].
  { rewrite bool_decide_true; [done|]. rewrite Heq. by left. }
  assert ((Installation_AircraftID y =s= Installation_AircraftID x) && is_nil (Installation_RemovedAt y) = false) as ->.
  { apply not_true_is_false. rewrite andb_true_iff, String.eqb_eq. intros [Ha Hr]. apply Hne, Hfree; [by left|done|].
    by destruct (Installation_RemovedAt y). }
  rewrite IH by (intros z Hz; apply Hfree; by right). erewrite bool_decide_ext; [reflexivity|]. rewrite elem_of_cons. naive_solver.
Qed.

Definition demo_slots : list (string * string) :=
  [("aircraft-eagle-7", "install-eagle-7"); ("aircraft-falcon-3", "install-falcon-3");
   ("aircraft-raven-5", "install-raven-5"); ("aircraft-hawk-2", "install-hawk-2")].

Lemma demo_installations_slots now :
  (λ x, (Installation_AircraftID x, Installation_ID x)) <$> demo_installations now = demo_slots.
Proof using Type. lazy. reflexivity. Qed.

Lemma installation_written now x s : x ∈ demo_installations now → seedable s →
  let s' := s <| batteryInstallations := append_new Installation_ID [x] (batteryInstallations s) |> in
  seedable s' ∧ writes Durable.RecordBatteryInstallation true x s s'.
Proof using Type.
  intros Hx Hs. pose proof (Hs now) as (_ & _ & Hfree). specialize (Hfree x Hx).
  unfold writes. cbn. unfold RecordBatteryInstallation. rewrite (installation_conflict_free _ _ Hfree).
  case_bool_decide as Hin; split.
  - by destruct s.
  - right. split_and!; [done|by destruct s|]. by exists (New ErrAlreadyExists).
  - intros now'. specialize (Hs now') as (Hi & Hf & Hslots). split_and!; [exact Hi|exact Hf|].
    intros x' Hx' y [Hy| ->%list_elem_of_singleton]%elem_of_app; [by apply Hslots|].
    intros Ha _. apply (list_elem_of_fmap_2 (λ x, (Installation_AircraftID x, Installation_ID x))) in Hx, Hx'.
    rewrite demo_installations_slots in Hx, Hx'. rewrite Ha in Hx. revert Hx Hx'. unfold demo_slots.
    generalize (Installation_AircraftID x'), (Installation_ID x), (Installation_ID x'). clear. intros a i i'.
    rewrite !elem_of_cons, !elem_of_nil. naive_solver.
  - by left.
Qed.

Lemma demo_intents_unrevised now x : x ∈ demo_intents now → x <| Intent_Revision := 0 |> = x.
Proof using Type.
  intros Hx. assert (Intent_Revision x = 0) as Hzero; [|destruct x; cbn in *; by subst].
  assert (Intent_Revision <$> demo_intents now = [0; 0; 0]) as Hall by (lazy; reflexivity).
  apply (list_elem_of_fmap_2 Intent_Revision) in Hx. rewrite Hall, !elem_of_cons, elem_of_nil in Hx. naive_solver.
Qed.

Lemma intent_written now x s : x ∈ demo_intents now → seedable s →
  let s' := s <| operationalIntents := put_new intent_key [x] (operationalIntents s) |> in
  seedable s' ∧ writes Durable.CreateOperationalIntent true x s s'.
Proof using Type.
  intros Hx Hs. split; [by apply (seedable_frame s)|]. pose proof (Hs now) as (Hi & _). specialize (Hi x Hx).
  unfold writes. cbn. unfold CreateOperationalIntent. rewrite Hi. fold (intent_key x).
  destruct (operationalIntents s !! intent_key x) as [old|] eqn:Hold.
  - right. rewrite bool_decide_true by done. split_and!; [done|by destruct s|]. by exists (New ErrAlreadyExists).
  - left. rewrite bool_decide_false by (by intros [? [=]]).
    by rewrite (demo_intents_unrevised now x Hx).
Qed.

Definition demo_intent_ids : list string :=
  ["20410000-0000-4000-8000-000000000000"; "20420000-0000-4000-8000-000000000000"; "20430000-0000-4000-8000-000000000000"].

Lemma demo_intents_ids now : Intent_ID <$> demo_intents now = demo_intent_ids.
Proof using Type. lazy. reflexivity. Qed.

Lemma demo_volumes_ids now : Volume_IntentID <$> demo_volumes now = demo_intent_ids.
Proof using Type. lazy. reflexivity. Qed.

Lemma volume_written now x s : x ∈ demo_volumes now → seedable s →
  let s' := s <| operationalVolumes := put_all operationalVolumeKey [x] (operationalVolumes s) |> in
  seedable s' ∧ writes Durable.RecordOperationalVolume false x s s'.
Proof using Type.
  intros Hx Hs. split; [by apply (seedable_frame s)|]. left. cbn. unfold RecordOperationalVolume.
  apply (list_elem_of_fmap_2 Volume_IntentID) in Hx. rewrite demo_volumes_ids, <- (demo_intents_ids now) in Hx.
  apply list_elem_of_fmap in Hx as (intent & -> & Hin).
  by rewrite (proj1 (Hs now) intent Hin).
Qed.

Lemma flight_written now x s : x ∈ [demo_flight now] → seedable s →
  let s' := s <| flightRecords := put_new Flight_ID [x] (flightRecords s) |> in
  seedable s' ∧ writes Durable.CreateFlightRecord true x s s'.
Proof using Type.
  intros Hx%list_elem_of_singleton Hs. unfold writes. cbn. unfold CreateFlightRecord.
  destruct (flightRecords s !! Flight_ID x) as [old|] eqn:Hold.
  - rewrite bool_decide_true by done. split; [by destruct s|].
    right. split_and!; [done|by destruct s|]. by exists (New ErrAlreadyExists).
  - rewrite bool_decide_false by (by intros [? [=]]). split; [|by left].
    intros now'. destruct (Hs now') as (Hi & Hf & Hslots). split_and!; [|exact Hf|exact Hslots].
    intros intent Hin. apply not_true_is_false. rewrite outstanding_intent.
    intros (kf & f & kd & d & Hflight & Hid & Hd & Hdf & Hout). cbn in Hflight.
    apply lookup_insert_Some in Hflight as [[_ <-]|[_ Hflight]].
    + assert (hasOutstandingMissionDeploymentForFlightLocked s (Flight_ID (demo_flight now')) = true); [|congruence].
      apply outstanding_flight. exists kd, d. by subst x.
    + assert (hasOutstandingMissionDeploymentForIntentLocked s (Intent_ID intent) = true); [|by rewrite (Hi intent Hin) in *].
      apply outstanding_intent. exists kf, f, kd, d. done.
Qed.

(** *** All the writes *)

Definition seeds (now : Time) (after : Time → Store → Store) (w : seed_world) (s : Store) (r : outcome unit * seed_world)
    : Prop :=
  r = (Ok tt, w <| store := after now s |>) ∧ seedable (after now s).

Ltac phase get put f :=
  first [eapply (run_field_then _ _ _ _ _ get put f)|eapply (run_field_in _ _ _ _ _ get put f)];
    [by intros []|done|done|done| |done|cbv beta; intros ?].

Ltac written := intros ? ? ? ?; split; [by eapply seedable_frame|by left].

Lemma run_seed_fleet now (w : seed_world) s : seedable s →
  seeds now fleet_seeded w s (run_seed (Seed.seed_fleet now) (w <| store := s |>)).
Proof using Type.
  intros Hs. unfold Seed.seed_fleet.
  phase aircraft (λ v s, s <| aircraft := v |>) (put_all Aircraft_ID); [written|].
  phase batteries (λ v s, s <| batteries := v |>) (put_all Battery_ID); [written|].
  phase batteryInstallations (λ v s, s <| batteryInstallations := v |>) (append_new Installation_ID);
    [by apply installation_written|].
  phase operatingProfiles (λ v s, s <| operatingProfiles := v |>) (put_all Profile_AircraftID); [written|].
  phase operatingLimits (λ v s, s <| operatingLimits := v |>) (put_all Limit_ID); [written|].
  split; [reflexivity|assumption].
Qed.

Lemma run_seed_operations now (w : seed_world) s : seedable s →
  seeds now operations_seeded w s (run_seed (Seed.seed_operations now) (w <| store := s |>)).
Proof using Type.
  intros Hs. unfold Seed.seed_operations.
  phase operationalIntents (λ v s, s <| operationalIntents := v |>) (put_new intent_key); [by apply intent_written|].
  phase operationalVolumes (λ v s, s <| operationalVolumes := v |>) (put_all operationalVolumeKey);
    [by apply volume_written|].
  phase preflightChecks (λ v s, s <| preflightChecks := v |>) (replace_all same_check); [written|].
  phase maintenanceEvents (λ v s, s <| maintenanceEvents := v |>) (append_all (V := MaintenanceEvent)); [written|].
  phase flightRecords (λ v s, s <| flightRecords := v |>) (put_new Flight_ID); [by apply flight_written|].
  phase conformanceSummaries (λ v s, s <| conformanceSummaries := v |>) (put_all conformanceSummaryKey); [written|].
  phase conformanceEvents (λ v s, s <| conformanceEvents := v |>) (replace_all same_event); [written|].
  phase evidenceRecords (λ v s, s <| evidenceRecords := v |>) (put_all EvidenceRecord_ID); [written|].
  phase reportabilityReviews (λ v s, s <| reportabilityReviews := v |>) (append_all (V := ReportabilityReview)); [written|].
  split; [reflexivity|assumption].
Qed.

(** *** The other stores *)

Definition demo_samples (now : Time) : list TelemetrySample :=
  map (demo_sample now) [0; 1; 2; 3; 4] ++ [demo_falcon_sample now; demo_raven_sample now; demo_hawk_sample now].

Definition live_seeded (now : Time) (o : live_stores) : live_stores :=
  o <| telemetry_of := mkTelemetryStore (samples (telemetry_of o) ++ demo_samples now) |>
    <| replay_of := PutReplayManifest (demo_manifest now) (replay_of o) |>
    <| registry_of := foldl (λ c state, (SetLiveAircraftState state (registry_time o) c).2) (registry_of o)
                        (demo_live_states now) |>.

Lemma run_seed_external {A} (write : A → Seed.seedE (outcome unit)) failed items (put : A → live_stores → live_stores)
    (w : seed_world) o :
  (∀ x o, x ∈ items → respond (write x) o = (Ok tt, put x o)) →
  run_seed (Seed.seed_external write failed items) (w <| outside := o |>)
  = (Ok tt, w <| outside := foldl (λ o x, put x o) o items |>).
Proof using Type.
  unfold Seed.seed_external. revert o. induction items as [|x items IH]; intros o Hwrite; [done|].
  cbn. rewrite Hwrite by (by left). cbn. apply (IH (put x o)). intros y o' Hy. apply Hwrite. by right.
Qed.

Lemma run_external {B} (e : Seed.seedE (outcome unit)) o' f (k : unit → prog (apiE Seed.seedE) (outcome B))
    (w : seed_world) o :
  respond e o = (Ok tt, o') →
  run_seed (try! x := external e orelse f in k x) (w <| outside := o |>) = run_seed (k tt) (w <| outside := o' |>).
Proof using Type. intros He. cbn. by rewrite He. Qed.

Lemma add_samples (f : Z → TelemetrySample) items o :
  foldl (λ o i, o <| telemetry_of := AddSample (f i) (telemetry_of o) |>) o items
  = o <| telemetry_of := mkTelemetryStore (samples (telemetry_of o) ++ map f items) |>.
Proof using Type.
  revert o. induction items as [|i items IH]; intros o; cbn [foldl map]; [rewrite app_nil_r; by destruct o as [[]]|].
  rewrite IH. cbn. by rewrite <- app_assoc.
Qed.

Lemma set_states items o :
  foldl (λ o st, o <| registry_of := (SetLiveAircraftState st (registry_time o) (registry_of o)).2 |>) o items
  = o <| registry_of := foldl (λ c st, (SetLiveAircraftState st (registry_time o) c).2) (registry_of o) items |>.
Proof using Type. revert o. induction items as [|x items IH]; intros o; cbn [foldl]; [by destruct o|]. by rewrite IH. Qed.

Lemma live_ids now : Live_AgentID <$> demo_live_states now = ["agent-eagle-7"; "agent-falcon-3"; "agent-hawk-2"].
Proof using Type. lazy. reflexivity. Qed.

Lemma live_state_set now x t c : x ∈ demo_live_states now → (SetLiveAircraftState x t c).1 = Ok tt.
Proof using Type.
  intros Hx%(list_elem_of_fmap_2 Live_AgentID). rewrite live_ids in Hx. unfold SetLiveAircraftState.
  destruct (String.eqb_spec (Live_AgentID x) "") as [Heq|_].
  - rewrite Heq, !elem_of_cons, elem_of_nil in Hx. naive_solver.
  - by destruct (_ <>s _).
Qed.

Lemma add_more l l' a b c :
  AddSample c (AddSample b (AddSample a (mkTelemetryStore (l ++ l')))) = mkTelemetryStore (l ++ l' ++ [a; b; c]).
Proof using Type. unfold AddSample. cbn. by rewrite <- !app_assoc. Qed.

Lemma run_seed_live now (w : seed_world) o :
  run_seed (Seed.seed_live now) (w <| outside := o |>) = (Ok tt, w <| outside := live_seeded now o |>).
Proof using Type.
  unfold Seed.seed_live. rewrite run_bind.
  rewrite (run_seed_external _ _ _ (λ i o, o <| telemetry_of := AddSample (demo_sample now i) (telemetry_of o) |>)) by done.
  rewrite add_samples. do 4 (erewrite run_external; [|reflexivity]).
  rewrite (run_seed_external _ _ _
    (λ st o, o <| registry_of := (SetLiveAircraftState st (registry_time o) (registry_of o)).2 |>)).
  2: { intros x o' Hx. cbn. pose proof (live_state_set now x (registry_time o') (registry_of o') Hx) as H.
       destruct (SetLiveAircraftState _ _ _) as [r registry]. cbn in *. by subst r. }
  rewrite set_states.
  unfold live_seeded, demo_samples. rewrite <- add_more. reflexivity.
Qed.

(** *** Seeding again *)

Lemma put_new_kept {V} (key : V → string) items m : (∀ x, x ∈ items → is_Some (m !! key x)) → put_new key items m = m.
Proof using Type.
  induction items as [|x items IH]; intros Hall; [done|]. unfold put_new. cbn [foldl].
  rewrite bool_decide_true by (apply Hall; by left). apply IH. intros y Hy. apply Hall. by right.
Qed.

Lemma put_new_there {V} (key : V → string) items m k :
  is_Some (m !! k) ∨ k ∈ key <$> items → is_Some (put_new key items m !! k).
Proof using Type.
  revert m. induction items as [|x items IH]; intros m; cbn; [rewrite elem_of_nil; tauto|].
  rewrite elem_of_cons. intros Hk. apply IH. case_bool_decide as Hx.
  - destruct Hk as [?|[->|?]]; auto.
  - destruct (decide (k = key x)) as [->|Hne]; [left; rewrite lookup_insert_eq; eauto|].
    rewrite lookup_insert_ne by done. destruct Hk as [?|[?|?]]; auto; done.
Qed.

Lemma put_new_twice {V} (key : V → string) items items' m : key <$> items' = key <$> items →
  put_new key items' (put_new key items m) = put_new key items m.
Proof using Type.
  intros Hkeys. apply put_new_kept. intros x Hx%(list_elem_of_fmap_2 key). rewrite Hkeys in Hx.
  apply put_new_there. auto.
Qed.

Lemma append_new_kept {V} (key : V → string) items l : (∀ x, x ∈ items → key x ∈ map key l) → append_new key items l = l.
Proof using Type.
  induction items as [|x items IH]; intros Hall; [done|]. unfold append_new. cbn [foldl].
  rewrite bool_decide_true by (apply Hall; by left). apply IH. intros y Hy. apply Hall. by right.
Qed.

Lemma append_new_there {V} (key : V → string) items l k :
  k ∈ map key l ∨ k ∈ key <$> items → k ∈ map key (append_new key items l).
Proof using Type.
  revert l. induction items as [|x items IH]; intros l; cbn; [rewrite elem_of_nil; tauto|].
  rewrite elem_of_cons. intros Hk. apply IH. case_bool_decide as Hx.
  - destruct Hk as [?|[->|?]]; auto.
  - rewrite map_app, elem_of_app. cbn. rewrite list_elem_of_singleton. tauto.
Qed.

Lemma append_new_twice {V} (key : V → string) items items' l : key <$> items' = key <$> items →
  append_new key items' (append_new key items l) = append_new key items l.
Proof using Type.
  intros Hkeys. apply append_new_kept. intros x Hx%(list_elem_of_fmap_2 key). rewrite Hkeys in Hx.
  apply append_new_there. auto.
Qed.

Lemma put_all_lookup {V} (key : V → string) items m x :
  NoDup (key <$> items) → x ∈ items → put_all key items m !! key x = Some x.
Proof using Type.
  intros Hnodup Hx. induction items as [|y items IH] using rev_ind; [by apply elem_of_nil in Hx|].
  unfold put_all. rewrite foldl_app. cbn [foldl]. rewrite fmap_app in Hnodup.
  apply NoDup_app in Hnodup as (Hnodup & Hdisj & _). apply elem_of_app in Hx as [Hx| ->%list_elem_of_singleton].
  - rewrite lookup_insert_ne; [by apply IH|]. intros Heq. apply (Hdisj (key x)); [by apply list_elem_of_fmap_2|].
    apply list_elem_of_singleton. by rewrite <- Heq.
  - apply lookup_insert_eq.
Qed.

Lemma demo_intents_keys now : intent_key <$> demo_intents now = intent_key <$> demo_intents 0.
Proof using Type. lazy. reflexivity. Qed.

Lemma demo_installations_ids now : Installation_ID <$> demo_installations now = Installation_ID <$> demo_installations 0.
Proof using Type. lazy. reflexivity. Qed.

Lemma demo_volumes_keys now : operationalVolumeKey <$> demo_volumes now =
  ["20410000-0000-4000-8000-000000000000:3:volume-2041-route"; "20420000-0000-4000-8000-000000000000:1:volume-2042-grid";
   "20430000-0000-4000-8000-000000000000:2:volume-2043-demo-route"].
Proof using Type. lazy. reflexivity. Qed.

(** What is there is kept: intents, flights and installations.  What is
    written again is of the new time: the volumes. *)
Lemma seeded_again before now s : let s1 := seeded before s in let s2 := seeded now s1 in
  operationalIntents s2 = operationalIntents s1 ∧ flightRecords s2 = flightRecords s1
  ∧ batteryInstallations s2 = batteryInstallations s1
  ∧ ∀ v, v ∈ demo_volumes now → operationalVolumes s2 !! operationalVolumeKey v = Some v.
Proof using Type.
  cbv zeta. split_and!.
  - apply put_new_twice. by rewrite demo_intents_keys, (demo_intents_keys before).
  - by apply put_new_twice.
  - apply append_new_twice. by rewrite demo_installations_ids, (demo_installations_ids before).
  - intros v Hv. apply put_all_lookup; [|done]. rewrite demo_volumes_keys. refine (bool_decide_unpack _ _). exact I.
Qed.

(** The placement of an agent is that of its last state. *)
Lemma placements_set t items c state :
  NoDup (Live_AgentID <$> items) → (∀ x, x ∈ items → Live_AgentID x ≠ "" ∧ Live_RelayID x ≠ "") → state ∈ items →
  Placement_RelayId <$> placements (foldl (λ c st, (SetLiveAircraftState st t c).2) c items) !! Live_AgentID state
  = Some (Live_RelayID state).
Proof using Type.
  intros Hnodup Hall Hin. induction items as [|x items IH] using rev_ind; [by apply elem_of_nil in Hin|].
  rewrite foldl_app. cbn [foldl]. rewrite fmap_app in Hnodup. apply NoDup_app in Hnodup as (Hnodup & Hdisj & _).
  destruct (Hall x) as [Hagent Hrelay]; [rewrite elem_of_app, list_elem_of_singleton; by right|].
  unfold SetLiveAircraftState at 1. apply String.eqb_neq in Hagent, Hrelay. rewrite Hagent, Hrelay. cbn.
  apply elem_of_app in Hin as [Hin| ->%list_elem_of_singleton]; [|by rewrite lookup_insert_eq].
  rewrite lookup_insert_ne.
  - apply IH; [done| |done]. intros y Hy. apply Hall, elem_of_app. by left.
  - intros Heq. apply (Hdisj (Live_AgentID state)); [by apply list_elem_of_fmap_2|].
    apply list_elem_of_singleton. by rewrite <- Heq.
Qed.

Lemma live_relays now : (λ x, (Live_AgentID x, Live_RelayID x)) <$> demo_live_states now =
  [("agent-eagle-7", "relay-west-1"); ("agent-falcon-3", "relay-north-2"); ("agent-hawk-2", "relay-west-1")].
Proof using Type. lazy. reflexivity. Qed.

Lemma live_placements now t c state : state ∈ demo_live_states now →
  Placement_RelayId <$> placements (foldl (λ c st, (SetLiveAircraftState st t c).2) c (demo_live_states now))
                          !! Live_AgentID state = Some (Live_RelayID state).
Proof using Type.
  apply placements_set; [rewrite live_ids; refine (bool_decide_unpack _ _); exact I|].
  intros x Hx%(list_elem_of_fmap_2 (λ x, (Live_AgentID x, Live_RelayID x))). rewrite live_relays in Hx.
  generalize dependent (Live_AgentID x). generalize (Live_RelayID x). intros relay agent.
  rewrite !elem_of_cons, elem_of_nil. naive_solver.
Qed.

(** What the other stores have. *)
Lemma live_seeded_has now o :
  samples (telemetry_of (live_seeded now o)) = samples (telemetry_of o) ++ demo_samples now
  ∧ replay_of (live_seeded now o) !! "flight-2041-a" = Some (demo_manifest now)
  ∧ ∀ state, state ∈ demo_live_states now →
      Placement_RelayId <$> placements (registry_of (live_seeded now o)) !! Live_AgentID state = Some (Live_RelayID state).
Proof using Type.
  split_and!; [done| |].
  - exact (lookup_insert_eq (M := gmap string) (replay_of o) (Manifest_FlightID (demo_manifest now)) (demo_manifest now)).
  - intros state Hstate. change (registry_of (live_seeded now o)) with
      (foldl (λ c st, (SetLiveAircraftState st (registry_time o) c).2) (registry_of o) (demo_live_states now)).
    by apply live_placements.
Qed.

(** All of it, when the stores have the methods. *)
Lemma run_ok_then {B} (p : prog (apiE Seed.seedE) (outcome unit)) f (k : unit → prog (apiE Seed.seedE) (outcome B))
    (w w' : seed_world) : run_seed p w = (Ok tt, w') → run_seed (try! x := p orelse f in k x) w = run_seed (k tt) w'.
Proof using Type. intros Hp. by rewrite run_bind, Hp. Qed.

Lemma run_seed_now now (w : seed_world) : seedable (store w) →
  run_seed (Seed.seed_now now) w = (Ok tt, w <| store := seeded now (store w) |> <| outside := live_seeded now (outside w) |>)
  ∧ seedable (seeded now (store w)).
Proof using Type.
  intros Hs. assert (w = w <| store := store w |>) as Hsame by (by destruct w).
  destruct (run_seed_fleet now w (store w) Hs) as [Hfleet Hs1]. rewrite <- Hsame in Hfleet.
  destruct (run_seed_operations now w _ Hs1) as [Hoperations Hs2]. split; [|exact Hs2].
  pose proof (run_seed_live now (w <| store := seeded now (store w) |>) (outside w)) as Hlive.
  assert (w <| store := seeded now (store w) |> <| outside := outside w |> = w <| store := seeded now (store w) |>)
    as Hsame' by (generalize (seeded now (store w)); done).
  rewrite Hsame' in Hlive. unfold Seed.seed_now.
  rewrite (run_ok_then _ _ _ _ _ Hfleet), (run_ok_then _ _ _ _ _ Hoperations). exact Hlive.
Qed.

Lemma run_clock {B} (k : Time → prog (apiE Seed.seedE) B) (w : seed_world) :
  run_seed (prog_bind now k) w = run_seed (k (clock w (ticks w))) (w <| ticks := Datatypes.S (ticks w) |>).
Proof using Type. done. Qed.

Lemma run_Demo (w : seed_world) : seedable (store w) →
  let now := Truncate (clock w (ticks w)) Second in
  run_seed (Seed.Demo true true true) w
  = (Ok tt, w <| ticks := Datatypes.S (ticks w) |> <| store := seeded now (store w) |>
               <| outside := live_seeded now (outside w) |>)
  ∧ seedable (seeded now (store w)).
Proof using Type.
  intros Hs now. unfold Seed.Demo. rewrite run_clock. cbv beta zeta iota delta [negb].
  fold now. set (w1 := w <| ticks := _ |>). change (store w) with (store w1) in *. change (outside w) with (outside w1).
  revert Hs. generalize w1. clear. intros w1. apply run_seed_now.
Qed.

(** Seeding fills the stores with the data, at any time and as often as
    wanted.  When a store lacks the method that it needs, nothing is written.
    Else the data of the time, cut to the second, is in the durable store, as
    long as no mission is being deployed to a flight of the data and no aircraft
    of it has another battery, and that can be said again afterwards; the samples,
    the manifest and the states are in the others.  When the store was seeded
    before, the intents, flights and installations stay what they are, and the
    volumes are those of the new time. *)
Theorem demo_seeds telemetry replay live (w : seed_world) : seedable (store w) →
  let now := Truncate (clock w (ticks w)) Second in
  let r := run_seed (Seed.Demo telemetry replay live) w in
  if telemetry && replay && live
  then r.1 = Ok tt ∧ store r.2 = seeded now (store w) ∧ seedable (store r.2)
    ∧ samples (telemetry_of (outside r.2)) = samples (telemetry_of (outside w)) ++ demo_samples now
    ∧ replay_of (outside r.2) !! "flight-2041-a" = Some (demo_manifest now)
    ∧ (∀ state, state ∈ demo_live_states now →
         Placement_RelayId <$> placements (registry_of (outside r.2)) !! Live_AgentID state = Some (Live_RelayID state))
    ∧ (∀ before s, store w = seeded before s →
         operationalIntents (store r.2) = operationalIntents (store w) ∧ flightRecords (store r.2) = flightRecords (store w)
         ∧ batteryInstallations (store r.2) = batteryInstallations (store w)
         ∧ ∀ v, v ∈ demo_volumes now → operationalVolumes (store r.2) !! operationalVolumeKey v = Some v)
  else (∃ err, r.1 = Err err) ∧ store r.2 = store w ∧ outside r.2 = outside w.
Proof using Type.
  intros Hs now r. destruct (telemetry && replay && live) eqn:Hall.
  - destruct telemetry, replay, live; try done. subst r. destruct (run_Demo w Hs) as [-> Hs'].
    fold now in Hs' |- *. clearbody now.
    revert Hs'. generalize (live_seeded_has now (outside w)). generalize (live_seeded now (outside w)).
    intros o (Hsamples & Hreplay & Hlive) Hs'. split_and!; [done|done|exact Hs'|exact Hsamples|exact Hreplay|exact Hlive|].
    intros before s Hbefore. pose proof (seeded_again before now s) as Hagain. rewrite <- Hbefore in Hagain. exact Hagain.
  - subst r. destruct telemetry, replay, live; try done; (split_and!; [by eexists|done|done]).
Qed.
End seeding.

Lemma seedable_new {RT : Runtime} : seedable NewStore.
Proof.
  intros now. split_and!.
  - intros intent _. apply not_true_is_false. rewrite outstanding_intent.
    intros (kf & f & kd & d & Hf & _). cbn in Hf. rewrite lookup_empty in Hf. done.
  - apply not_true_is_false. rewrite outstanding_flight. intros (k & d & Hd & _). cbn in Hd. rewrite lookup_empty in Hd. done.
  - intros x _ existing Hin. by apply elem_of_nil in Hin.
Qed.

(** The stores in memory at the start of the command. *)
Definition at_start : world Store live_stores :=
  mkWorld (λ _, unix_epoch) (λ _, "") 0 0 NewStore (mkLiveStores (mkTelemetryStore []) ∅ NewMemoryClient unix_epoch).

Lemma demo_seeded_at_start :
  (run (handle_api (H := memory_store (RT := reference_runtime))) (Seed.Demo true true true) at_start).1 = Ok tt.
Proof.
  exact (proj1 (demo_seeds (RT := reference_runtime) true true true at_start seedable_new)).
Defined.
