(* ===== verification/HttpRuns.v ===== *)
(** * What the HTTP API guarantees

    Mission control is reached with its token only (but for reading the current
    mission of a flight); an activation is served only
    for an intent that a fresh evaluation finds fit; peers are served only with
    a token of their own. *)

From S2P Require Import Prelude GoRuntime GoStrings GoStrconv GoSha256 GoNet GoRange Domain Errors Program MemoryState MemoryFleet MemoryIntents DurableStore MemoryStore MemoryInvariant Scenario ProgramLogic IntentService IntentServiceRuns Preflight PreflightVerdict ScdMessages Deconfliction Publishing InterUSS InterUSSPublisher AgentMessages MissionImport MissionDeployment HttpHandlers HttpUss.
From stdpp Require Import options.

(** ** Mission control *)

Lemma cut_prefix_spec s prefix rest : cut_prefix s prefix = Some rest ↔ s = prefix +:+ rest.
Proof.
  revert s. induction prefix as [|p prefix IH]; intros s.
  - change ("" +:+ rest) with rest. destruct s; cbn; (split; [intros H; by injection H|by intros <-]).
  - destruct s as [|c s]; [done|].
    change (cut_prefix (String c s) (String p prefix)) with (if Ascii.eqb p c then cut_prefix s prefix else None).
    change (String p prefix +:+ rest) with (String p (prefix +:+ rest)).
    destruct (Ascii.eqb_spec p c) as [<-|Hne].
    + rewrite IH. split; [by intros ->|intros H; by injection H].
    + split; [done|]. intros H. injection H as -> _. done.
Qed.

Lemma append_cancel p x y : p +:+ x = p +:+ y → x = y.
Proof.
  induction p as [|c p IH]; [done|].
  change (String c (p +:+ x) = String c (p +:+ y) → x = y). intros H. injection H. apply IH.
Qed.

Section control.
Context {AL : AgentLibrary} {externalE : Type → Type}.
Context (deployer : option (MissionDeployer externalE)).
Abbreviation program := (prog (apiE externalE)).

(** A handler that answers a refusal of authorization, and does nothing else. *)
Definition refuses {A} (refusal : Z → string → A) (p : program A) : Prop :=
  ∃ code text, (code = StatusUnauthorized ∨ code = StatusServiceUnavailable) ∧ p = Ret (refusal code text).

Lemma guarded_refuses {A} s r unavailable unauthorized (p : program A) refuse :
  authorizeMissionDeployment s r = false → refuses refuse (guarded s r unavailable unauthorized p refuse).
Proof using Type.
  intros Hno. unfold refuses, guarded. rewrite Hno. destruct (missionDeploymentControlEnabled s); cbn [negb].
  - exists StatusUnauthorized, unauthorized. auto.
  - exists StatusServiceUnavailable, unavailable. auto.
Qed.

(** C29: mission control needs its token.  A request is authorized exactly when
    the server has a token and the request carries, as a bearer, one with the
    same SHA-256 digest; the configured token itself always is, without white
    space around it; and without authorization none of the operations that
    import a mission, deploy one, reconcile a deployment or read deployments
    makes a single call: it answers that it is refused.  (Reading the current
    mission of a flight needs no token.) *)
Theorem mission_control_guarded timeout token s0 r fuel (body : request_body ImportMissionRequest) :
  let s := WithMissionDeploymentControl timeout token s0 in
  (authorizeMissionDeployment s r = true ↔
     token ≠ "" ∧ ∃ sent, Header r "Authorization" = "Bearer " +:+ sent ∧ Sha256.Sum256 (TrimSpace sent) = Sha256.Sum256 token)
  ∧ (token ≠ "" → TrimSpace token = token → Header r "Authorization" = "Bearer " +:+ token →
     authorizeMissionDeployment s r = true)
  ∧ (authorizeMissionDeployment s r = false →
     refuses writeError (handleImportMission s r body)
     ∧ refuses (λ code text, Some (writeError code text)) (handleDeployCurrentMission s deployer fuel r)
     ∧ refuses writeError (handleGetMissionDeployment s r)
     ∧ refuses writeError (handleGetCurrentMissionDeployment s r)
     ∧ refuses (λ code text, Some (writeError code text)) (handleReconcileMissionDeployment s deployer fuel r)).
Proof using Type.
  cbv zeta. set (s := WithMissionDeploymentControl timeout token s0).
  assert (authorizeMissionDeployment s r = true ↔
     token ≠ "" ∧ ∃ sent, Header r "Authorization" = "Bearer " +:+ sent ∧ Sha256.Sum256 (TrimSpace sent) = Sha256.Sum256 token) as Hiff.
  { unfold authorizeMissionDeployment, missionDeploymentControlEnabled. cbn [s WithMissionDeploymentControl missionDeploymentControlConfigured missionDeploymentTokenHash].
    destruct (String.eqb_spec token "") as [->|Hne]; cbn [negb]; [naive_solver|].
    destruct (cut_prefix _ _) as [sent|] eqn:Hcut.
    - apply cut_prefix_spec in Hcut. rewrite bool_decide_eq_true. split; [eauto|].
      intros (_ & sent' & Hsent' & Hsum). rewrite Hcut in Hsent'.
      apply append_cancel in Hsent'. by subst.
    - split; [done|]. intros (_ & sent & Hsent & _). apply cut_prefix_spec in Hsent. congruence. }
  split; [exact Hiff|]. split.
  - intros Hne Htrim Hheader. apply Hiff. split; [done|]. exists token. by rewrite Htrim.
  - intros Hno. split_and!; by apply guarded_refuses.
Qed.
End control.

(** ** Activation *)

Section activation.
Context {RT : Runtime} {externalE : Type → Type} {O : Type} {HO : Outside externalE O}.
Abbreviation program := (prog (apiE externalE)).
Abbreviation world := (world Store O).

(** The evaluation that a request starts with: its verdict, and what it leaves. *)
Lemma evaluation_run id (w : world) i :
  latestOperationalIntent (store w) id = Some i →
  ∃ ev w', run handle_api (EvaluateIntent id : program _) w = (Ok ev, w')
    ∧ Evaluation_Blocked ev = unfit (store w) i
    ∧ operationalIntents (store w') = operationalIntents (store w)
    ∧ operationalVolumes (store w') = operationalVolumes (store w).
Proof using Type.
  intros Hi. destruct (EvaluateIntent_total id w i Hi) as (ev & w' & Hrun). exists ev, w'.
  split; [done|]. apply (run_alone nobody), EvaluateIntent_evaluated in Hrun as [Hi' _ Hv _ Hs].
  rewrite Hs. split; [|done]. congruence.
Qed.

Definition blocked_answer : response OperationalIntent :=
  writeServiceError (because ErrActivationBlocked "preflight evaluation blocked").

Lemma service_error_status A (err : error) : status (writeServiceError err : response A) ≠ StatusOK.
Proof using Type. unfold writeServiceError. by repeat case_match. Qed.

End activation.

(** ** Peers *)

Section peers.
Context {JWT : JwtLibrary} {LIB : Geometry.Library} {U : Unions} {SL : ScdLibrary} {externalE : Type → Type}.
Context (authorizer : option USSJWTAuthorizer).
Abbreviation program := (prog (apiE externalE)).
Abbreviation history := (list (event (apiE externalE))).
Abbreviation clock_read t := (Event (Now : apiE externalE _) t).

(** The request carries a token of [subject] that the library accepts for the
    key, the issuer and the audience of the server, and whose scopes have the
    one for strategic coordination. *)
Definition token_of (r : http_request) (subject : string) : Prop :=
  ∃ a sent scope, authorizer = Some a ∧ TrimSpace (Header r "Authorization") = "Bearer " +:+ sent
    ∧ ParseWithClaims (authorizer_publicKey a) (authorizer_issuer a) (authorizer_audience a) (TrimSpace sent)
      = Some (scope, subject)
    ∧ TrimSpace subject ≠ "" ∧ ussStrategicCoordinationScope ∈ Fields scope.

Lemma authorizeUSS_token r subject : authorizeUSS authorizer r = inl subject → token_of r subject.
Proof using Type.
  unfold authorizeUSS, Authorize, token_of. destruct authorizer as [a|]; [|done].
  destruct (cut_prefix _ _) as [sent|] eqn:Hcut; [|done]. apply cut_prefix_spec in Hcut.
  destruct (TrimSpace sent =s= ""); [done|].
  destruct (ParseWithClaims _ _ _ _) as [[scope subject']|] eqn:Hparse; [|done].
  destruct (String.eqb_spec (TrimSpace subject') "") as [|Hne]; [done|].
  destruct (_ && _) eqn:Hscope; [done|]. intros H. injection H as ->. exists a, sent, scope. split_and!; try done.
  cbn in Hscope. apply negb_false_iff, existsb_exists in Hscope as (x & Hin & Heq).
  apply String.eqb_eq in Heq as ->. by apply list_elem_of_In.
Qed.

(** The details are those of the intent at the sender, whose state they name. *)
Definition details_of (subject intentID : string) (encoded : union ScdIntent) (version : Z) (ovn : string) : Prop :=
  ∃ intent u, As encoded = Ok intent ∧ Reference_Manager (ScdIntent_Reference intent) = subject
    ∧ As (Reference_Id (ScdIntent_Reference intent)) = Ok intentID
    ∧ version = Reference_Version (ScdIntent_Reference intent)
    ∧ Reference_Ovn (ScdIntent_Reference intent) = Some u ∧ As u = Ok ovn ∧ TrimSpace ovn ≠ "".

Lemma notified_reference_of subject intentID encoded version ovn :
  notified_reference subject intentID encoded = inl (version, ovn) → details_of subject intentID encoded version ovn.
Proof using Type.
  unfold notified_reference, details_of. destruct (As encoded) as [intent|]; [|done].
  destruct (String.eqb_spec (Reference_Manager (ScdIntent_Reference intent)) subject) as [Hm|]; cbn [negb]; [|done].
  destruct (As (Reference_Id _)) as [nestedID|] eqn:Hid; [|done].
  destruct (String.eqb_spec nestedID intentID) as [->|]; cbn [negb]; [|done].
  destruct (Reference_Ovn _) as [u|] eqn:Hu; [|done]. destruct (As u) as [text|] eqn:Htext; [|done].
  destruct (String.eqb_spec (TrimSpace text) "") as [|Hne]; [done|].
  intros H. injection H as <- <-. exists intent, u. by split_and!.
Qed.

Lemma received_of_spec subject intentID details n :
  received_of subject intentID details = inl n →
  Received_IntentID n = intentID ∧ Received_Manager n = subject
  ∧ if Received_Deleted n then details = None ∧ Received_IntentVersion n = 0 ∧ Received_OVN n = ""
    else ∃ encoded, details = Some encoded
      ∧ details_of subject intentID encoded (Received_IntentVersion n) (Received_OVN n).
Proof using Type.
  unfold received_of. destruct details as [encoded|]; [|by intros [= <-]].
  destruct (notified_reference subject intentID encoded) as [[version ovn]|[code text]] eqn:Href; [|done].
  apply notified_reference_of in Href. intros [= <-]. cbn. eauto.
Qed.

(** A refusal never says that there is no content. *)
Lemma refusal_codes r code text subject intentID details :
  authorizeUSS authorizer r = inr (code, text) ∨ received_of subject intentID details = inr (code, text) →
  code ≠ StatusNoContent.
Proof using Type.
  unfold authorizeUSS, received_of, notified_reference. intros [H|H]; repeat case_match; simplify_eq; done.
Qed.

Lemma service_error_content {A} (err : error) : status (writeServiceError err : response A) ≠ StatusNoContent.
Proof using Type. unfold writeServiceError. by repeat case_match. Qed.

(** What a notification that was accepted is recorded as. *)
Definition record_of (subject : string) (notification : DetailsParameters) (t : Time)
    (n : ReceivedPeerNotification) : Prop :=
  ∃ entityID, As (DetailsP_OperationalIntentId notification) = Ok entityID
    ∧ As entityID = Ok (Received_IntentID n)
    ∧ Received_Manager n = subject
    ∧ (if Received_Deleted n
       then DetailsP_OperationalIntent notification = None ∧ Received_IntentVersion n = 0 ∧ Received_OVN n = ""
       else ∃ encoded, DetailsP_OperationalIntent notification = Some encoded
         ∧ details_of subject (Received_IntentID n) encoded (Received_IntentVersion n) (Received_OVN n))
    ∧ marshal_notification notification = Ok (Received_Payload n)
    ∧ Received_ID n = sha256_hex (subject +:+ String nul (String.string_of_list_byte (Received_Payload n)))
    ∧ Received_ReceivedAt n = UTC t.

(** The clock, and then the record of the request's own notification. *)
Definition peer_allowed (r : http_request) (request : request_body DetailsParameters)
    (h : history) (X : Type) (e : apiE externalE X) : Prop :=
  match e with
  | Now => ∃ subject, token_of r subject
  | OfStore (Durable.RecordReceivedPeerNotification n) =>
      ∃ subject notification t before, h = clock_read t :: before
        ∧ token_of r subject ∧ decodeJSON request = Ok notification ∧ record_of subject notification t n
  | _ => False
  end.

(** How a notification ends: it was recorded, or it is not said to be. *)
Definition recorded_iff (r : http_request) (h h' : history) (answer : response unit) : Prop :=
  (status answer = StatusNoContent ↔
     ∃ n t, h' = Event (OfStore (Durable.RecordReceivedPeerNotification n)) (Ok tt) :: clock_read t :: h)
  ∧ ((∀ subject, ¬ token_of r subject) → h' = h).

Lemma not_recorded r h answer : status answer ≠ StatusNoContent → recorded_iff r h h answer.
Proof using Type.
  intros Hne. split; [|done]. split; [done|]. intros (n & t & Hh). apply (f_equal length) in Hh. cbn in Hh. lia.
Qed.

(** The event is a successful call of the store. *)
Definition stored (ev : event (apiE externalE)) : bool :=
  let '@Event _ X e x := ev in
  match e in apiE _ X return X → bool with
  | OfStore _ => λ r, is_ok r
  | _ => λ _, false
  end x.

Lemma record_wp r request h subject notification entityID received :
  token_of r subject → decodeJSON request = Ok notification →
  As (DetailsP_OperationalIntentId notification) = Ok entityID → As entityID = Ok (Received_IntentID received) →
  received_of subject (Received_IntentID received) (DetailsP_OperationalIntent notification) = inl received →
  wp (peer_allowed r request) h (record_received subject notification received : program _) (recorded_iff r h).
Proof using Type.
  intros Htoken Hdecode Hentity Hid Hreceived. apply received_of_spec in Hreceived as (_ & Hmanager & Hdetails).
  unfold record_received. destruct (marshal_notification notification) as [payload|err] eqn:Hpayload;
    [|apply wp_ret, not_recorded, service_error_content].
  apply wp_now; [cbn; eauto|]. intros t. apply wp_durable.
  - cbn. exists subject, notification, t, h. split_and!; try done. exists entityID. by split_and!.
  - intros [[]|err]; apply wp_ret; (split; [|intros Hno; by destruct (Hno subject)]); cbn.
    + split; [eauto|done].
    + split; [intros H; by apply service_error_content in H|]. intros (n & t' & Hh). by apply (f_equal (λ h, stored <$> head h)) in Hh.
Qed.

(** C30: what peers tell is recorded under their own name only.  Whatever the
    replies, the handler of a notification records nothing unless the request
    carries a valid token with the scope of strategic coordination; it records
    at most the notification of this request, under the subject of that token
    and the intent the request names; as deleted exactly when there are no
    details; with details only when they are managed by that subject, are of
    that intent and have an OVN; and it answers that there is no content exactly
    when the record was stored.  Without a token it makes no call at all. *)
Theorem peer_notifications_authenticated r request h :
  wp (peer_allowed r request) h (handleNotifyUSSOperationalIntentChanged authorizer r request : program _)
    (λ h' answer,
      (status answer = StatusNoContent ↔
         ∃ n t, h' = Event (OfStore (Durable.RecordReceivedPeerNotification n)) (Ok tt) :: clock_read t :: h)
      ∧ ((∀ subject, ¬ token_of r subject) → h' = h)).
Proof using Type.
  fold (recorded_iff r h). unfold handleNotifyUSSOperationalIntentChanged.
  destruct (authorizeUSS authorizer r) as [subject|[code text]] eqn:Hauth;
    [apply authorizeUSS_token in Hauth|apply wp_ret, not_recorded, (refusal_codes r code text EmptyString EmptyString None); by left].
  destruct (decodeJSON request) as [notification|err] eqn:Hdecode; [|by apply wp_ret, not_recorded].
  unfold notified_id. destruct (As (DetailsP_OperationalIntentId _)) as [entityID|] eqn:Hentity;
    [|by apply wp_ret, not_recorded].
  destruct (As entityID) as [intentID|] eqn:Hid; [|by apply wp_ret, not_recorded].
  destruct (received_of _ _ _) as [received|[code text]] eqn:Hreceived;
    [|eapply wp_ret, not_recorded, (refusal_codes r code text subject intentID); right; exact Hreceived].
  pose proof (received_of_spec _ _ _ _ Hreceived) as (Hintent & _). subst intentID. by eapply record_wp.
Qed.
End peers.

(** ** Conflicts of no intent *)

(** A blank intent is answered as a failure of the server, not of the request. *)
Lemma blank_conflicts_request {externalE : Type → Type} r :
  TrimSpace (Param r "intent_id") = "" →
  handleListOperationalIntentConflicts r
  = (Ret (mkResponse StatusInternalServerError false
      (Texts [("error", "request failed"); ("details", "validation failed: intent_id is required")]))
     : prog (apiE externalE) (response (list ConflictFinding))).
Proof.
  intros Hblank. unfold handleListOperationalIntentConflicts, Deconfliction.ListConflictFindings. by rewrite Hblank.
Qed.

(** ** An activation, served *)

#[local] Existing Instance reference_runtime.

Definition fit_calls : list store_call :=
  accepted_calls
  ++ [StoreCall (Durable.CreateAircraft (zero_Aircraft <| Aircraft_ID := "a1" |> <| Aircraft_Status := AircraftStatusActive |>
        <| Aircraft_AcceptanceStatus := AcceptanceStatusAccepted |>));
      StoreCall (Durable.CreateBattery (zero_Battery <| Battery_ID := "b1" |>
        <| Battery_StateOfHealth := Some (float_of_Z 90) |>));
      StoreCall (Durable.RecordBatteryInstallation (zero_BatteryInstallation <| Installation_ID := "n1" |>
        <| Installation_AircraftID := "a1" |> <| Installation_BatteryID := "b1" |>))].

Definition activation_request : http_request :=
  mkHttpRequest (λ _, "i1") (λ _, "") (λ _, "") (mkBodyProbe 0 None true).

Definition served_activation : response OperationalIntent * world Store unit :=
  run handle_api (handleActivateOperationalIntent (externalE := no_external) (λ _, None) None activation_request)
    (demo_world (demo fit_calls)).

